(* ===== verification/_CoqProject ===== *)
-Q . S2P
Prelude.v
Text.v
PyVal.v
Errors.v
UserDomain.v
UserContracts.v
UserPersistence.v
UserRefinement.v
UserMemory.v
UserService.v
AuthService.v
Floats.v
Lazy.v
Threads.v
Runtime.v
Cache.v
Decimal.v
ClientAddress.v
Redis.v
LoginLimiter.v
RateLimit.v
QueueJob.v
QueueMessage.v
QueueManager.v
Worker.v
Database.v
Json.v
JsonText.v
Urls.v
VectorModels.v
VectorMilvus.v
VectorChroma.v
VectorElastic.v
Settings.v
NamedResources.v
VectorManager.v
Schedule.v
SchedulerEngine.v
Hosts.v
Kafka.v
HttpResponse.v
HttpUsers.v
HttpAuth.v
HttpMiddleware.v
HttpRequest.v
HttpClient.v
QueryParams.v
DatabaseLogging.v
DatabaseEngine.v
VectorBackends.v
Logging.v
RabbitMQ.v
WorkerHost.v
Clients.v
RedisQueue.v
FailedStore.v
Schema.v
UserJobs.v
Discovery.v
Quiet.v
Console.v
Application.v
HttpApp.v
Runner.v
