(* ===== verification/Prelude.v ===== *)
(** * fast-api-scaff: verification development

    fast-api-scaff is an asynchronous Python application: a user service behind an
    HTTP API, with workers, a scheduler and a console as further processes over the
    same infrastructure.  This library models its code (paths below are under
    src/app unless they start with src/) and proves what makes each part correct.
    It is a shallow embedding: a Python function is a Rocq function, a call with
    effects is a program [io W A] of the monad below (a world to a world and a value
    or an exception), an exception is a constructor of [exn] (Errors), and code that
    runs concurrently is a step relation over its state whose steps are the code
    between two awaits.

    ** Reading order and files

    Foundations.  Prelude: results, the monad, its rules [wp], tactics and hints.
    Text: Python's str and bytes, regular expressions, digits, UUIDs.  PyVal:
    untyped values and dicts.  Errors: the exception classes.  Floats, Decimal,
    Json, JsonText, Urls: the standard library's floats, decimals, JSON and
    percent encoding as the sources use them.

    The user context (contexts/user).  UserDomain: values.py, user.py, session.py
    with the aggregate's invariant.  UserContracts: DTOs, errors and the protocols
    (password hasher, unit of work, token codec) as type classes, with the abstract
    store.  UserPersistence: mapper, repositories and unit of work over SQLAlchemy;
    UserRefinement proves that they keep the contracts; UserMemory is a concrete
    database for runs.  UserService and AuthService: the use cases, proved against the
    contracts.  UserJobs: the queue jobs.  Schema: ORM tables, naming convention,
    revisions and env.py of src/database/main, and which rows the tables take.

    Resources and processes.  Lazy: resources/lazy.py for any number of tasks.
    Threads: blocking work awaited under cancellation (_run_sync, _finish_worker,
    PwdlibPasswordHasher._run).  Runtime: closing.py, container.py, lifecycle.py.
    NamedResources: what the managers share.  Hosts: the worker and scheduler hosts.
    Application: the composition root, the lifespan, the middleware order, the
    password hasher; HttpApp: create_app and the request ID middleware.  Console,
    Discovery: the command tree, its process and commands; discovery of jobs and
    commands.  Quiet: what the life cycle of a runtime leaves unchanged.

    Infrastructure.  Cache: keys, expiration, clients, storages, manager.  Redis: the
    Lua scripts over a server; LoginLimiter and RateLimit: what they mean under any
    interleaving of clients; ClientAddress: the identity a client is counted under.
    QueueJob, QueueMessage, QueueManager: jobs, envelopes, dispatching and replay;
    Worker: attempts and acknowledgement; Runner: the lanes; WorkerHost: the queue a
    worker process consumes, the record of an execution; FailedStore: the SQL store; Kafka, RedisQueue, RabbitMQ: the drivers; Clients: how the clients of
    caches and queues are made, checked and closed.  Database, DatabaseEngine,
    DatabaseLogging: connections, engines, the query log.  VectorModels,
    VectorMilvus, VectorChroma, VectorElastic, VectorManager, VectorBackends: the
    vector contract, its three implementations, their manager, the opening of their
    clients.  Schedule, SchedulerEngine: schedules and the APScheduler engine.
    Settings: the configuration models.  Logging: handlers and lines.

    HTTP.  HttpResponse: codes, payloads, exception handlers, SSE.  HttpUsers and
    HttpAuth: the controllers over the services.  HttpMiddleware: exception capture
    and access log over ASGI.  QueryParams: packed query parameters.  HttpRequest and
    HttpClient: outbound requests, streams, diagnostics and what is logged.

    ** What the theorems show

    Claims carry an identifier C1 to C40 in their comment.
    - The service: C1, C3 (every request, from the reply to the committed effect),
      C2 (login), C9, C10 (no lost update), C14, C40, C36.
    - Limits that hold for every interleaving of clients: C6, C8, and C7 for the
      identity they count.
    - HTTP: C4, C5 (every request is answered once, without leaking), C37.
    - Queues: C12, C13 (acknowledgement and attempts), C16 (a map of failures whose
      operations act at one moment), C17, C22 to C24 (no message is lost by a
      driver), C38.
    - Scheduler: C15, C18, C28.  Resources: C11, C26, C29, C32, C34, C30.
    - Vector stores: one abstract contract of ten operations and three refinements,
      C27, C31, C33.  A record ([StoreKind]) says where the stores differ: what a get
      or a search may show of the past, automatic creation of an index, the metric a
      client goes by, and what an upsert asks of the caller.
    - Outbound HTTP and logs: C20, C21, C25, C35.  Configuration and schema: C39, C19.
    Theorems without an identifier state further behaviour (the other use cases,
    error branches, life cycles) and are used freely by other proofs.

    ** Interfaces

    What one component promises another is a class or record with its laws: the store
    of UserContracts (client laws used by UserService and AuthService, discharged by
    UserRefinement from [SqlLaws]), [VectorClient] and its contract, [Delivery] and
    [QueueBackend], [KeyValueStorage].  Third-party code is a class of operations
    (SQLAlchemy, redis-py and the Redis server, aiokafka, aio-pika, APScheduler,
    httpx2, pymilvus, chromadb, elasticsearch, pydantic's conversions, FastAPI,
    pwdlib, secrets and hashlib) with its documented behaviour as laws; witnesses
    instantiate the laws with concrete functions and run the definitions.

    ** Fuel and bounds

    [decimal] unfolds log2(n)+1 times, at least the number of digits.  [loads] runs
    with the length of its text ([JsonText.loads_fuel]: more changes nothing);
    [utf8_decode] with the number of bytes, each step takes one; [read_limited] with
    the bytes still allowed, a chunk is not empty ([read_limited_delivers] proves
    what is returned); [read_filter] with the length of the filter; [upgrade_path]
    with the number of revisions.  Retries recurse on the attempts left.  Integers are
    Python's unbounded ones except where the source meets a width: Redis's 64-bit
    counters, SQL's INTEGER, ports, IPv4 and IPv6 addresses; floats are binary64.

    ** Not modelled

    The texts of exceptions and log messages and the log records of most components;
    guards that only test types ([isinstance] of an argument) and overflow of
    timedelta; cancellation inside a shielded scope beyond Threads; eviction by
    Redis; FailedStore's insertion lock; the layout of the console's text and the parsing of options by Typer;
    options of the httpx2 client; the reading of the environment by
    pydantic-settings and of paths and queries by FastAPI; OpenAPI documents,
    protocol modules and process entry points; CORS and the context plug-in of
    starlette_context; the value codecs of the cache, which nothing calls; the
    fractional seconds MySQL's DATETIME drops.  The header of each file names what it
    leaves to its arguments. *)

From Stdlib Require Export ZArith Lia Sorting.Sorted.
From stdpp Require Export base tactics gmap sets list strings numbers option.

Declare Scope prog_scope.
Delimit Scope prog_scope with prog.

(** ** Results: the value or the exception a Python call ends with *)

Inductive result (E A : Type) : Type :=
| Ok (a : A)
| Err (e : E).
Arguments Ok {E A} a.
Arguments Err {E A} e.

Definition result_bind {E A B} (r : result E A) (k : A → result E B) : result E B :=
  match r with
  | Ok a => k a
  | Err e => Err e
  end.

Definition is_ok {E A} (r : result E A) : bool :=
  match r with Ok _ => true | Err _ => false end.

Definition result_err {E A} (r : result E A) : option E :=
  match r with Ok _ => None | Err e => Some e end.

Notation "'let?' x ':=' r 'in' k" := (result_bind r (λ x, k))
  (at level 10, x pattern, r at level 100, k at level 200) : prog_scope.

(** [guard c e]: the statement [if not c: raise e]. *)
Definition guard {E} (c : bool) (e : E) : result E unit :=
  if c then Ok tt else Err e.

(** [[f(x) for x in l]] with an [f] that may raise. *)
Fixpoint map_result {E A B} (f : A → result E B) (l : list A) : result E (list B) :=
  match l with
  | [] => Ok []
  | a :: l => result_bind (f a) (λ b, result_bind (map_result f l) (λ bs, Ok (b :: bs)))
  end.

(** Inversion of a check that let the code go on. *)
Lemma guard_bind_ok {E B} (c : bool) (e : E) (k : unit → result E B) b :
  result_bind (guard c e) k = Ok b ↔ c = true ∧ k tt = Ok b.
Proof. unfold guard. destruct c; simpl; naive_solver. Qed.

Lemma guard_bind_err {E B} (c : bool) (e0 e : E) (k : unit → result E B) :
  result_bind (guard c e0) k = Err e ↔ (c = false ∧ e = e0) ∨ (c = true ∧ k tt = Err e).
Proof. unfold guard. destruct c; simpl; naive_solver. Qed.

Lemma result_bind_ok {E A B} (r : result E A) (k : A → result E B) b :
  result_bind r k = Ok b ↔ ∃ a, r = Ok a ∧ k a = Ok b.
Proof. destruct r; simpl; naive_solver. Qed.

(** ** Effectful code: a call maps a world to a world and a result

    The world after an exception is the world at the point of the [raise]:
    Python does not undo assignments when an exception propagates. *)
Definition prog (W E A : Type) : Type := W → W * result E A.

Section Prog.
Context {W E : Type}.

Definition ret {A} (a : A) : prog W E A := λ w, (w, Ok a).
Definition raise {A} (e : E) : prog W E A := λ w, (w, Err e).
Definition bind {A B} (m : prog W E A) (k : A → prog W E B) : prog W E B :=
  λ w, match m w with
       | (w', Ok a) => k a w'
       | (w', Err e) => (w', Err e)
       end.
Definition lift {A} (r : result E A) : prog W E A := λ w, (w, r).
(** [attempt m]: run [m] and hand its outcome to the caller as a value. *)
Definition attempt {A} (m : prog W E A) : prog W E (result E A) :=
  λ w, let '(w', r) := m w in (w', Ok r).
(** [catch m h]: [try: m] with an [except] clause given by [h]. *)
Definition catch {A} (m : prog W E A) (h : E → prog W E A) : prog W E A :=
  λ w, match m w with
       | (w', Ok a) => (w', Ok a)
       | (w', Err e) => h e w'
       end.
(** [finally m f]: an exception of [f] replaces the outcome of [m]. *)
Definition finally {A} (m : prog W E A) (f : prog W E unit) : prog W E A :=
  λ w, let '(w1, r) := m w in
       match f w1 with
       | (w2, Ok _) => (w2, r)
       | (w2, Err e) => (w2, Err e)
       end.
Definition get_world : prog W E W := λ w, (w, Ok w).
Definition put_world (w : W) : prog W E unit := λ _, (w, Ok tt).
Definition read {A} (f : W → A) : prog W E A := λ w, (w, Ok (f w)).
Definition modify (f : W → W) : prog W E unit := λ w, (f w, Ok tt).
Definition when (c : bool) (m : prog W E unit) : prog W E unit :=
  if c then m else ret tt.
(** [assert_or c e]: [if not c: raise e] as a statement. *)
Definition assert_or (c : bool) (e : E) : prog W E unit := lift (guard c e).
End Prog.

Notation "'let*' x ':=' m 'in' k" := (bind m (λ x, k))
  (at level 10, x pattern, m at level 100, k at level 200) : prog_scope.
Notation "m ';;;' k" := (bind m (λ _, k))
  (at level 199, right associativity) : prog_scope.

(** ** Equivalence of programs: pointwise equality of outcomes *)
Definition prog_eq {W E A} : relation (prog W E A) := λ m1 m2, ∀ w, m1 w = m2 w.

Section ProgLaws.
Context {W E : Type}.
Local Open Scope prog_scope.

#[export] Instance prog_eq_equivalence {A} : Equivalence (@prog_eq W E A).
Proof.
  split; [done | by intros m1 m2 Heq w |].
  intros m1 m2 m3 Heq1 Heq2 w. by rewrite (Heq1 w).
Qed.

#[export] Instance bind_proper {A B} :
  Proper (prog_eq ==> pointwise_relation A prog_eq ==> prog_eq) (@bind W E A B).
Proof.
  intros m1 m2 Hm k1 k2 Hk w. unfold bind. rewrite (Hm w).
  destruct (m2 w) as [w' [a | e]]; [apply Hk | done].
Qed.

#[export] Instance catch_proper {A} :
  Proper (prog_eq ==> pointwise_relation E prog_eq ==> prog_eq) (@catch W E A).
Proof.
  intros m1 m2 Hm k1 k2 Hk w. unfold catch. rewrite (Hm w).
  destruct (m2 w) as [w' [a | e]]; [done | apply Hk].
Qed.

Lemma bind_ret_l {A B} (a : A) (k : A → prog W E B) : prog_eq (bind (ret a) k) (k a).
Proof. done. Qed.

Lemma bind_assoc {A B C} (m : prog W E A) (k : A → prog W E B) (h : B → prog W E C) :
  prog_eq (bind (bind m k) h) (bind m (λ a, bind (k a) h)).
Proof. intros w. unfold bind. by destruct (m w) as [w' [a | e]]. Qed.

(** Inversion of a sequence that returned, and of one that raised. *)
Lemma bind_ok {A B} (m : prog W E A) (k : A → prog W E B) w w' b :
  bind m k w = (w', Ok b) ↔ ∃ w1 a, m w = (w1, Ok a) ∧ k a w1 = (w', Ok b).
Proof. unfold bind. destruct (m w) as [w1 [a | e]]; naive_solver. Qed.

Lemma bind_err {A B} (m : prog W E A) (k : A → prog W E B) w w' e :
  bind m k w = (w', Err e) ↔
  m w = (w', Err e) ∨ ∃ w1 a, m w = (w1, Ok a) ∧ k a w1 = (w', Err e).
Proof. unfold bind. destruct (m w) as [w1 [a | e']]; naive_solver. Qed.
End ProgLaws.

(** ** Reasoning about one run of a program

    [wp m Φ w]: running [m] from [w] ends in an outcome and a world that
    satisfy [Φ]. *)
Definition wp {W E A} (m : prog W E A) (Φ : result E A → W → Prop) (w : W) : Prop :=
  let '(w', r) := m w in Φ r w'.

Section Wp.
Context {W E : Type}.
Implicit Types w : W.

Lemma wp_run {A} (m : prog W E A) Φ w w' r : wp m Φ w → m w = (w', r) → Φ r w'.
Proof. unfold wp. intros Hm Hr. by rewrite Hr in Hm. Qed.

Lemma wp_of_run {A} (m : prog W E A) Φ w :
  (∀ w' r, m w = (w', r) → Φ r w') → wp m Φ w.
Proof. unfold wp. intros Hm. destruct (m w) eqn:Hr. by apply Hm. Qed.

Lemma wp_mono {A} (m : prog W E A) (Φ Ψ : result E A → W → Prop) w :
  wp m Φ w → (∀ r w', Φ r w' → Ψ r w') → wp m Ψ w.
Proof. unfold wp. destruct (m w) as [w' r]. auto. Qed.

Lemma wp_ret {A} (a : A) (Φ : result E A → W → Prop) w : Φ (Ok a) w → wp (ret a) Φ w.
Proof. done. Qed.

Lemma wp_raise {A} (e : E) (Φ : result E A → W → Prop) w : Φ (Err e) w → wp (raise e) Φ w.
Proof. done. Qed.

Lemma wp_lift {A} (r : result E A) (Φ : result E A → W → Prop) w : Φ r w → wp (lift r) Φ w.
Proof. done. Qed.

Lemma wp_bind {A B} (m : prog W E A) (k : A → prog W E B) Φ w :
  wp m (λ r w', match r with Ok a => wp (k a) Φ w' | Err e => Φ (Err e) w' end) w →
  wp (bind m k) Φ w.
Proof. unfold wp, bind. by destruct (m w) as [w' [a | e]]. Qed.

Lemma wp_bind_lift {A B} (r : result E A) (k : A → prog W E B) Φ w :
  (∀ a, r = Ok a → wp (k a) Φ w) → (∀ e, r = Err e → Φ (Err e) w) →
  wp (bind (lift r) k) Φ w.
Proof. intros Ha He. apply wp_bind, wp_lift. destruct r; auto. Qed.

Lemma wp_attempt {A} (m : prog W E A) Φ w :
  wp m (λ r w', Φ (Ok r) w') w → wp (attempt m) Φ w.
Proof. unfold wp, attempt. by destruct (m w) as [w' r]. Qed.

Lemma wp_catch {A} (m : prog W E A) (h : E → prog W E A) Φ w :
  wp m (λ r w', match r with Ok a => Φ (Ok a) w' | Err e => wp (h e) Φ w' end) w →
  wp (catch m h) Φ w.
Proof. unfold wp, catch. by destruct (m w) as [w' [a | e]]. Qed.
End Wp.

(** ** Tactics of the development *)

(** Split every boolean test and match the goal computes on. *)
Ltac case_bool :=
  match goal with
  | |- context [if ?b then _ else _] => destruct b eqn:?
  | H : context [if ?b then _ else _] |- _ => destruct b eqn:?
  end.

(** Turn boolean comparisons into propositions lia and set solvers use. *)
Ltac to_prop :=
  repeat match goal with
  | H : (_ && _)%bool = true |- _ => apply andb_true_iff in H as [? ?]
  | H : (_ || _)%bool = false |- _ => apply orb_false_iff in H as [? ?]
  | H : (_ && _)%bool = false |- _ => apply andb_false_iff in H
  | H : (_ || _)%bool = true |- _ => apply orb_true_iff in H
  | H : negb _ = true |- _ => apply negb_true_iff in H
  | H : negb _ = false |- _ => apply negb_false_iff in H
  | H : (_ =? _)%Z = true |- _ => apply Z.eqb_eq in H
  | H : (_ =? _)%Z = false |- _ => apply Z.eqb_neq in H
  | H : (_ <=? _)%Z = true |- _ => apply Z.leb_le in H
  | H : (_ <=? _)%Z = false |- _ => apply Z.leb_gt in H
  | H : (_ <? _)%Z = true |- _ => apply Z.ltb_lt in H
  | H : (_ <? _)%Z = false |- _ => apply Z.ltb_ge in H
  | H : (_ =? _)%N = true |- _ => apply N.eqb_eq in H
  | H : (_ =? _)%N = false |- _ => apply N.eqb_neq in H
  | H : (_ <=? _)%N = true |- _ => apply N.leb_le in H
  | H : (_ <=? _)%N = false |- _ => apply N.leb_gt in H
  | H : (_ <? _)%N = true |- _ => apply N.ltb_lt in H
  | H : (_ <? _)%N = false |- _ => apply N.ltb_ge in H
  | H : bool_decide _ = true |- _ => apply bool_decide_eq_true in H
  | H : bool_decide _ = false |- _ => apply bool_decide_eq_false in H
  end.

(** Split a disjunction of boolean tests [H] down to its atoms. *)
Ltac bool_cases H :=
  rewrite ?orb_true_iff, ?andb_true_iff in H; destruct_or?; destruct_and?; to_prop.

(** Close [R a b] by chaining hypotheses on the preorder [R]. *)
Ltac rel_trans :=
  solve [ eassumption | reflexivity
        | match goal with
          | H : ?R ?a ?b |- ?R ?a _ => transitivity b; [exact H | clear H; rel_trans]
          end ].

(** Unfold the combinators of the monad everywhere. *)
Ltac unprog :=
  unfold bind, ret, raise, lift, attempt, catch, finally, read, modify, get_world,
    put_world, when, assert_or, guard, result_bind in *.

(** Step through the code of a component: expose the monad, then case on
    whatever the head computation depends on. *)
Ltac step_case :=
  match goal with
  | |- context [match ?x with _ => _ end] =>
      lazymatch x with context [match _ with _ => _ end] => fail | _ => destruct x eqn:? end
  | H : context [match ?x with _ => _ end] |- _ =>
      lazymatch x with context [match _ with _ => _ end] => fail | _ => destruct x eqn:? end
  end.

Ltac prog_cases := unprog; repeat (step_case; simplify_eq/=).

Create HintDb prog discriminated.
Create Rewrite HintDb prog_inv.
#[export] Hint Constructors result : prog.
#[export] Hint Rewrite @bind_ok @bind_err : prog_inv.

(** ** Generic list lemmas *)

Lemma map_result_ok {E A B} (f : A → result E B) l bs :
  map_result f l = Ok bs → Forall2 (λ a b, f a = Ok b) l bs.
Proof.
  revert bs. induction l as [| a l IH]; intros bs; simpl; [intros [= <-]; constructor |].
  rewrite result_bind_ok. intros (b & Hb & Hk). rewrite result_bind_ok in Hk. destruct Hk as (bs' & Hbs & [= <-]).
  constructor; auto.
Qed.
Lemma map_result_err {E A B} (f : A → result E B) l e : map_result f l = Err e → ∃ a, a ∈ l ∧ f a = Err e.
Proof.
  induction l as [| a l IH]; simpl; [done |]. destruct (f a) as [b | e'] eqn:Hf; simpl.
  - destruct (map_result f l) as [bs | e'']; simpl; [done |]. intros [= ->]. destruct IH as (a' & Ha' & He); [done |].
    exists a'. split; [set_solver | done].
  - intros [= ->]. exists a. split; [set_solver | done].
Qed.
Lemma map_result_total {E A B} (f : A → result E B) l : Forall (λ a, ∃ b, f a = Ok b) l → ∃ bs, map_result f l = Ok bs.
Proof. induction 1 as [| a l [b Hb] _ [bs IH]]; [by eexists |]. simpl. rewrite Hb, IH. by eexists. Qed.

Lemma map_result_on {E A B} (f : A → result E B) (g : B → A) (l : list B) :
  (∀ b, b ∈ l → f (g b) = Ok b) → map_result f (map g l) = Ok l.
Proof.
  induction l as [| b l IH]; simpl; intros Hf; [done |].
  rewrite Hf by set_solver. simpl. rewrite IH by set_solver. done.
Qed.

Lemma forallb_Forall_true {A} (f : A → bool) (l : list A) :
  forallb f l = true ↔ Forall (λ x, f x = true) l.
Proof. by rewrite forallb_forall, List.Forall_forall. Qed.

Lemma forallb_impl {A} (f g : A → bool) (l : list A) :
  (∀ x, f x = true → g x = true) → forallb f l = true → forallb g l = true.
Proof. rewrite !forallb_forall. naive_solver. Qed.

Lemma map_id_on {A} (f : A → A) (p : A → bool) (l : list A) :
  (∀ x, p x = true → f x = x) → forallb p l = true → map f l = l.
Proof.
  intros Hf. induction l as [| x l IH]; simpl; [done |].
  intros [Hx Hl]%andb_true_iff. by rewrite Hf, IH.
Qed.

Lemma existsb_false_forallb {A} (f : A → bool) (l : list A) :
  existsb f l = false ↔ forallb (λ x, negb (f x)) l = true.
Proof.
  induction l as [| x l IH]; simpl; [done |].
  rewrite orb_false_iff, andb_true_iff, negb_true_iff, IH. done.
Qed.
