(* ===== verification/Text.v ===== *)
(** * Text: the Python text and byte values the application handles

    [str] is a list of Unicode code points, [bytes] a list of bytes.  The
    methods of [str] the sources call are defined here exactly on ASCII
    text; what they do outside ASCII is given by the Unicode tables of the
    interpreter, the class [UnicodeTables].  The file also holds the regular
    expressions of the [re] module the sources use, with a matcher and its
    correctness, positional digit expansions, and the text form of a UUID. *)

From S2P Require Import Prelude.
From Stdlib Require Import Strings.Byte Strings.Ascii.

Abbreviation pystr := (list N).
Abbreviation pybytes := (list Byte.byte).

(** An ASCII literal. *)
Definition u (s : string) : pystr := map N_of_ascii (String.list_ascii_of_string s).

(** ** Character classes *)

Definition in_range (lo hi c : N) : bool := ((lo <=? c) && (c <=? hi))%N.
Definition is_ascii (c : N) : bool := (c <? 128)%N.
Definition is_lower_az (c : N) : bool := in_range 97 122 c.
Definition is_upper_az (c : N) : bool := in_range 65 90 c.
Definition is_09 (c : N) : bool := in_range 48 57 c.
Definition is_alnum (c : N) : bool := is_lower_az c || is_upper_az c || is_09 c.

(** [str.isspace] of one character, also what [\s] matches and what
    [str.strip] removes. *)
Definition is_space (c : N) : bool :=
  in_range 9 13 c || in_range 28 32 c || (c =? 133)%N || (c =? 160)%N || (c =? 5760)%N
  || in_range 8192 8202 c || (c =? 8232)%N || (c =? 8233)%N || (c =? 8239)%N
  || (c =? 8287)%N || (c =? 12288)%N.

Definition ascii_lower (c : N) : N := if is_upper_az c then (c + 32)%N else c.

(** What the interpreter's Unicode tables say outside ASCII. *)
Class UnicodeTables := {
  lower_rest : pystr → pystr;
  digit_rest : N → bool;
}.

(** Unicode guarantees that lower casing is idempotent. *)
Class UnicodeLaws `{UnicodeTables} : Prop := {
  lower_rest_idem s :
    forallb is_ascii s = false →
    forallb is_ascii (lower_rest s) = false →
    lower_rest (lower_rest s) = lower_rest s;
  lower_rest_ascii s :
    forallb is_ascii s = false →
    forallb is_ascii (lower_rest s) = true →
    forallb (λ c, negb (is_upper_az c)) (lower_rest s) = true;
}.

Section Str.
Context `{UnicodeTables}.

(** [str.lower] *)
Definition py_lower (s : pystr) : pystr :=
  if forallb is_ascii s then map ascii_lower s else lower_rest s.

(** [str.isdigit] *)
Definition isdigit_char (c : N) : bool := if is_ascii c then is_09 c else digit_rest c.
Definition py_isdigit (s : pystr) : bool :=
  match s with [] => false | _ => forallb isdigit_char s end.
End Str.

(** [str.strip] *)
Fixpoint lstrip (s : pystr) : pystr :=
  match s with
  | [] => []
  | c :: s' => if is_space c then lstrip s' else s
  end.
Definition py_strip (s : pystr) : pystr := reverse (lstrip (reverse (lstrip s))).

(** [sep.join(parts)] *)
Fixpoint join (sep : pystr) (parts : list pystr) : pystr :=
  match parts with
  | [] => []
  | [p] => p
  | p :: rest => p ++ sep ++ join sep rest
  end.
(** [s.split(c)] for one character; [part]: the current part, backwards. *)
Fixpoint split_on (c : N) (s part : pystr) : list pystr :=
  match s with
  | [] => [reverse part]
  | d :: s => if (d =? c)%N then reverse part :: split_on c s [] else split_on c s (d :: part)
  end.

(** [str.startswith] and [str.removeprefix] *)
Fixpoint strip_prefix (p s : pystr) : option pystr :=
  match p, s with
  | [], _ => Some s
  | _, [] => None
  | a :: p', b :: s' => if (a =? b)%N then strip_prefix p' s' else None
  end.
Definition startswith (p s : pystr) : bool := bool_decide (is_Some (strip_prefix p s)).
Definition removeprefix (p s : pystr) : pystr := default s (strip_prefix p s).

(** Order of texts by code points. *)
Fixpoint text_leb (a b : pystr) : bool :=
  match a, b with
  | [], _ => true
  | _, [] => false
  | x :: a', y :: b' => (x <? y)%N || ((x =? y)%N && text_leb a' b')
  end.

Lemma text_leb_total a b : text_leb a b = true ∨ text_leb b a = true.
Proof.
  revert b. induction a as [| x a IH]; intros [| y b]; simpl; auto.
  destruct (N.compare_spec x y) as [-> | Hlt | Hlt].
  - rewrite N.ltb_irrefl, N.eqb_refl. simpl. apply IH.
  - left. apply orb_true_iff. left. by apply N.ltb_lt.
  - right. apply orb_true_iff. left. by apply N.ltb_lt.
Qed.
Definition text_le (a b : pystr) : Prop := text_leb a b = true.
#[export] Instance text_le_trans : Transitive text_le.
Proof.
  intros a b c. unfold text_le. revert b c. induction a as [| x a IH]; intros [| y b] [| z c]; simpl; try done.
  rewrite !orb_true_iff, !andb_true_iff, !N.ltb_lt, !N.eqb_eq. intros [H1 | [H1 Ha]] [H2 | [H2 Hb]]; [lia.. |].
  right. split; [lia | by eapply IH].
Qed.
#[export] Instance text_le_antisymm : AntiSymm (=) text_le.
Proof.
  intros a b. unfold text_le. revert b. induction a as [| x a IH]; intros [| y b]; simpl; try done.
  rewrite !orb_true_iff, !andb_true_iff, !N.ltb_lt, !N.eqb_eq. intros [H1 | [H1 Ha]] [H2 | [H2 Hb]]; [lia.. |].
  f_equal; [done | by apply IH].
Qed.
#[export] Instance text_le_total : Total text_le.
Proof. intros a b. apply text_leb_total. Qed.


(** Length of the UTF-8 encoding of a text. *)
Definition utf8_width (c : N) : Z :=
  if (c <? 128)%N then 1 else if (c <? 2048)%N then 2 else if (c <? 65536)%N then 3 else 4.
Definition utf8_length (s : pystr) : Z := foldr (λ c n, utf8_width c + n)%Z 0%Z s.
Definition len (s : pystr) : Z := Z.of_nat (length s).

Lemma lstrip_no_space s : forallb (λ c, negb (is_space c)) s = true → lstrip s = s.
Proof. destruct s as [| c s]; simpl; [done |]. by destruct (is_space c). Qed.

Lemma forallb_reverse {A} (f : A → bool) l : forallb f (reverse l) = forallb f l.
Proof.
  apply eq_true_iff_eq. rewrite !forallb_forall.
  setoid_rewrite <- list_elem_of_In. by setoid_rewrite elem_of_reverse.
Qed.

Lemma strip_no_space s : forallb (λ c, negb (is_space c)) s = true → py_strip s = s.
Proof.
  intros Hs. unfold py_strip. rewrite (lstrip_no_space s Hs).
  rewrite lstrip_no_space; [apply reverse_involutive |]. by rewrite forallb_reverse.
Qed.

Lemma ascii_lower_id c : negb (is_upper_az c) = true → ascii_lower c = c.
Proof. unfold ascii_lower. by destruct (is_upper_az c). Qed.

Lemma ascii_lower_not_upper c : is_upper_az (ascii_lower c) = false.
Proof.
  unfold ascii_lower, is_upper_az, in_range.
  destruct (65 <=? c)%N eqn:?, (c <=? 90)%N eqn:?; simpl; to_prop;
    try apply andb_false_iff; try (right; apply N.leb_gt; lia);
    first [left; apply N.leb_gt; lia | right; apply N.leb_gt; lia].
Qed.

Lemma ascii_lower_ascii c : is_ascii c = true → is_ascii (ascii_lower c) = true.
Proof.
  unfold ascii_lower, is_ascii, is_upper_az, in_range. intros ?.
  case_bool; to_prop; apply N.ltb_lt; lia.
Qed.

Lemma forallb_map {A B} (f : A → B) (p : B → bool) l :
  forallb p (map f l) = forallb (λ x, p (f x)) l.
Proof. induction l as [| x l IH]; simpl; [done | by rewrite IH]. Qed.

Section StrLaws.
Context `{UnicodeLaws}.

Lemma py_lower_ascii s :
  forallb is_ascii s = true → forallb (λ c, negb (is_upper_az c)) s = true → py_lower s = s.
Proof.
  intros Ha Hl. unfold py_lower. rewrite Ha.
  by apply (map_id_on _ _ _ ascii_lower_id).
Qed.

Lemma py_lower_idem s : py_lower (py_lower s) = py_lower s.
Proof.
  unfold py_lower at 2 3. destruct (forallb is_ascii s) eqn:Ha.
  - apply py_lower_ascii; rewrite forallb_map.
    + by apply (forallb_impl is_ascii); [apply ascii_lower_ascii |].
    + apply forallb_forall. intros c _. by rewrite ascii_lower_not_upper.
  - destruct (forallb is_ascii (lower_rest s)) eqn:Hr.
    + by apply py_lower_ascii, lower_rest_ascii.
    + unfold py_lower. rewrite Hr. by apply lower_rest_idem.
Qed.
End StrLaws.

(** A table that leaves non-ASCII text alone: one value the class admits. *)
Definition plain_tables : UnicodeTables := {| lower_rest := id; digit_rest := λ _, false |}.
Lemma plain_tables_laws : @UnicodeLaws plain_tables.
Proof. split; simpl; unfold id; intros; congruence. Qed.

(** ** Regular expressions of the [re] module

    Only what the sources use: character classes, concatenation, alternation
    and bounded or unbounded repetition, matched against a whole text
    ([fullmatch]).  [^] and [$] add nothing to a whole-text match. *)

Inductive regex : Type :=
| REmpty
| REps
| RCls (p : N → bool)
| RCat (r1 r2 : regex)
| RAlt (r1 r2 : regex)
| RRep (r : regex) (lo : nat) (hi : option nat).

Definition rep_fits (lo : nat) (hi : option nat) : bool :=
  match hi with None => true | Some k => lo <=? k end.

Fixpoint nullable (r : regex) : bool :=
  match r with
  | REmpty | RCls _ => false
  | REps => true
  | RCat r1 r2 => nullable r1 && nullable r2
  | RAlt r1 r2 => nullable r1 || nullable r2
  | RRep r lo hi => (lo =? 0) || (nullable r && rep_fits lo hi)
  end.

Definition mk_cat (r1 r2 : regex) : regex :=
  match r1 with REmpty => REmpty | REps => r2 | _ => RCat r1 r2 end.
Definition mk_alt (r1 r2 : regex) : regex :=
  match r1 with REmpty => r2 | _ => match r2 with REmpty => r1 | _ => RAlt r1 r2 end end.

Fixpoint deriv (c : N) (r : regex) : regex :=
  match r with
  | REmpty | REps => REmpty
  | RCls p => if p c then REps else REmpty
  | RCat r1 r2 =>
      let left := mk_cat (deriv c r1) r2 in
      if nullable r1 then mk_alt left (deriv c r2) else left
  | RAlt r1 r2 => mk_alt (deriv c r1) (deriv c r2)
  | RRep r lo hi =>
      match hi with
      | Some 0 => REmpty
      | _ => mk_cat (deriv c r) (RRep r (pred lo) (pred <$> hi))
      end
  end.

Fixpoint fullmatch (r : regex) (s : pystr) : bool :=
  match s with
  | [] => nullable r
  | c :: s' => fullmatch (deriv c r) s'
  end.

Inductive matches : regex → pystr → Prop :=
| m_eps : matches REps []
| m_cls p c : p c = true → matches (RCls p) [c]
| m_cat r1 r2 s1 s2 : matches r1 s1 → matches r2 s2 → matches (RCat r1 r2) (s1 ++ s2)
| m_alt_l r1 r2 s : matches r1 s → matches (RAlt r1 r2) s
| m_alt_r r1 r2 s : matches r2 s → matches (RAlt r1 r2) s
| m_rep_done r hi : matches (RRep r 0 hi) []
| m_rep_step r lo hi s1 s2 :
    hi ≠ Some 0 → matches r s1 → matches (RRep r (pred lo) (pred <$> hi)) s2 →
    matches (RRep r lo hi) (s1 ++ s2).
Create HintDb regex discriminated.
#[export] Hint Constructors matches : regex.

Lemma matches_cat r1 r2 s :
  matches (RCat r1 r2) s ↔ ∃ s1 s2, s = s1 ++ s2 ∧ matches r1 s1 ∧ matches r2 s2.
Proof.
  split; [intros Hm; inversion Hm; subst; eauto 6 | intros (? & ? & -> & ? & ?)].
  by constructor.
Qed.

Lemma matches_alt r1 r2 s : matches (RAlt r1 r2) s ↔ matches r1 s ∨ matches r2 s.
Proof.
  split; [intros Hm; inversion Hm; subst; auto | intros [? | ?]]; auto with regex.
Qed.

Lemma mk_cat_matches r1 r2 s : matches (mk_cat r1 r2) s ↔ matches (RCat r1 r2) s.
Proof.
  rewrite matches_cat. destruct r1; simpl; rewrite ?matches_cat; try done.
  - split; [intros Hm; inversion Hm | intros (? & ? & _ & Hm & _); inversion Hm].
  - split; [intros Hm; exists [], s; eauto with regex |].
    intros (s1 & s2 & -> & Hm & ?). by inversion Hm; subst.
Qed.

Lemma mk_alt_matches r1 r2 s : matches (mk_alt r1 r2) s ↔ matches (RAlt r1 r2) s.
Proof.
  assert (Hempty : ∀ s', ¬ matches REmpty s') by (intros s' Hm; inversion Hm).
  destruct r1, r2; simpl; split; intros Hm; eauto with regex;
    inversion Hm; subst; eauto with regex; by exfalso; eapply Hempty.
Qed.

Lemma rep_nullable r k : ∀ lo hi,
  lo = k → matches r [] → rep_fits lo hi = true → matches (RRep r lo hi) [].
Proof.
  induction k as [| k IH]; intros lo hi -> Hr Hf; [constructor |].
  apply (m_rep_step r (S k) hi [] []); [by intros -> | done |].
  apply (IH k _ eq_refl Hr). by destruct hi as [[| h] |].
Qed.

Lemma rep_nullable_inv r lo hi :
  matches (RRep r lo hi) [] → lo = 0 ∨ (matches r [] ∧ rep_fits lo hi = true).
Proof.
  remember (RRep r lo hi) as r' eqn:Hr'. remember [] as s eqn:Hs. intros Hm.
  revert lo hi Hr' Hs.
  induction Hm as [| | | | | | r0 lo' hi' s1 s2 Hhi Hm1 _ Hm2 IH]; intros lo0 hi0 Hr' Hs;
    simplify_eq; [by left |].
  apply app_eq_nil in Hs as [-> ->].
  destruct (IH _ _ eq_refl eq_refl) as [Hlo | [_ Hf]].
  - destruct lo0 as [| [|]]; [by left | | done]. right. split; [done |].
    by destruct hi0 as [[|] |].
  - right. split; [done |]. by destruct hi0 as [[| h] |], lo0 as [| lo0].
Qed.

Lemma nullable_spec r : nullable r = true ↔ matches r [].
Proof.
  induction r as [| | p | r1 IH1 r2 IH2 | r1 IH1 r2 IH2 | r IH lo hi]; simpl.
  - split; [done | intros Hm; inversion Hm].
  - split; [constructor | done].
  - split; [done | intros Hm; inversion Hm].
  - rewrite andb_true_iff, IH1, IH2, matches_cat. split.
    + intros [? ?]. by exists [], [].
    + by intros (s1 & s2 & [-> ->]%eq_sym%app_eq_nil & ? & ?).
  - by rewrite orb_true_iff, IH1, IH2, matches_alt.
  - rewrite orb_true_iff, andb_true_iff, Nat.eqb_eq, IH. split.
    + intros [-> | [? ?]]; [constructor | by eapply rep_nullable].
    + apply rep_nullable_inv.
Qed.

(** Prefixing an iteration that matches the empty text. *)
Lemma rep_weaken r lo hi s :
  matches r [] → matches (RRep r (pred lo) (pred <$> hi)) s → hi ≠ Some 0 →
  matches (RRep r lo hi) s.
Proof. intros ? ? ?. by apply (m_rep_step r lo hi []). Qed.

Lemma rep_cons_inv r lo hi c s :
  (∀ s', matches (deriv c r) s' ↔ matches r (c :: s')) →
  matches (RRep r lo hi) (c :: s) →
  hi ≠ Some 0 ∧ matches (RCat (deriv c r) (RRep r (pred lo) (pred <$> hi))) s.
Proof.
  intros Hd. remember (RRep r lo hi) as r' eqn:Hr'. remember (c :: s) as s0 eqn:Hs0.
  intros Hm. revert lo hi Hr' s Hs0.
  induction Hm as [| | | | | | r0 lo' hi' s1 s2 Hhi Hm1 _ Hm2 IH]; intros lo0 hi0 Hr' t Hs0;
    simplify_eq.
  destruct s1 as [| c1 s1]; simpl in *; simplify_eq.
  - destruct (IH _ _ eq_refl _ eq_refl) as [Hhi2 Hm]. split; [done |].
    apply matches_cat in Hm as (t1 & t2 & -> & Ht1 & Ht2).
    constructor; [done |]. by apply rep_weaken.
  - split; [done |]. constructor; [by apply Hd | done].
Qed.

Lemma deriv_cat r1 r2 c s :
  (∀ s', matches (deriv c r1) s' ↔ matches r1 (c :: s')) →
  matches (RCat r1 r2) (c :: s) ↔
  matches (RCat (deriv c r1) r2) s ∨ (matches r1 [] ∧ matches r2 (c :: s)).
Proof.
  intros Hd. rewrite !matches_cat. split.
  - intros ([| c1 s1] & s2 & Hs & Hm1 & Hm2); simplify_eq/=; [by right | left].
    exists s1, s2. by rewrite Hd.
  - intros [(s1 & s2 & -> & Hm1 & Hm2) | [Hm1 Hm2]].
    + exists (c :: s1), s2. by rewrite <- Hd.
    + by exists [], (c :: s).
Qed.

Lemma deriv_spec r c s : matches (deriv c r) s ↔ matches r (c :: s).
Proof.
  revert s. induction r as [| | p | r1 IH1 r2 IH2 | r1 IH1 r2 IH2 | r IH lo hi]; intros s.
  - split; intros Hm; inversion Hm.
  - split; intros Hm; inversion Hm.
  - simpl. destruct (p c) eqn:Hp; split; intros Hm; inversion Hm; subst;
      try constructor; congruence.
  - rewrite (deriv_cat _ _ _ _ IH1). simpl. destruct (nullable r1) eqn:Hn.
    + apply nullable_spec in Hn.
      rewrite mk_alt_matches, matches_alt, mk_cat_matches, IH2. naive_solver.
    + rewrite mk_cat_matches, <- (nullable_spec r1), Hn. naive_solver.
  - simpl. by rewrite mk_alt_matches, !matches_alt, IH1, IH2.
  - split.
    + destruct hi as [[| h] |] eqn:Hhi; simpl; [intros Hm; inversion Hm | |];
        rewrite mk_cat_matches, matches_cat; intros (s1 & s2 & -> & Hs1 & Hs2);
        (apply (m_rep_step r lo _ (c :: s1)); [done | by apply IH | done]).
    + intros [Hhi Hm]%(rep_cons_inv _ _ _ _ _ IH).
      destruct hi as [[| h] |]; simpl; [done | |]; by apply mk_cat_matches.
Qed.

(** The matcher decides the language of the pattern. *)
Lemma fullmatch_spec r s : fullmatch r s = true ↔ matches r s.
Proof.
  revert r. induction s as [| c s IH]; intros r; simpl; [apply nullable_spec |].
  by rewrite IH, deriv_spec.
Qed.

Definition rep_len_ok (lo : nat) (hi : option nat) (n : nat) : bool :=
  (lo <=? n) && match hi with None => true | Some h => n <=? h end.

(** A bounded run of characters of one class. *)
Lemma cls_rep_matches p lo hi s :
  matches (RRep (RCls p) lo hi) s ↔ forallb p s = true ∧ rep_len_ok lo hi (length s) = true.
Proof.
  revert lo hi. induction s as [| c s IH]; intros lo hi; simpl.
  - rewrite <- nullable_spec. simpl. rewrite orb_false_r, Nat.eqb_eq.
    unfold rep_len_ok. destruct lo, hi as [[|] |]; naive_solver.
  - rewrite <- deriv_spec. simpl. destruct hi as [[| h] |]; simpl.
    + unfold rep_len_ok. rewrite andb_false_r. split; [intros Hm; inversion Hm | naive_solver].
    + destruct (p c); simpl; [rewrite IH | split; [intros Hm; inversion Hm | naive_solver]].
      unfold rep_len_ok. destruct lo; naive_solver.
    + destruct (p c); simpl; [rewrite IH | split; [intros Hm; inversion Hm | naive_solver]].
      unfold rep_len_ok. destruct lo; naive_solver.
Qed.

Lemma cls_matches p s : matches (RCls p) s ↔ ∃ c, s = [c] ∧ p c = true.
Proof.
  split; [intros Hm; inversion Hm; subst; eauto | intros (c & -> & ?); by constructor].
Qed.

(** A literal character, and a class followed by a bounded run. *)
Definition RChr (c : N) : regex := RCls (N.eqb c).

(** ** Positional digits, most significant first *)

Fixpoint to_digits (b : N) (k : nat) (n : N) : list N :=
  match k with
  | O => []
  | S k' => to_digits b k' (n / b) ++ [(n mod b)%N]
  end.
Definition of_digits (b : N) (l : list N) : N := fold_left (λ a d, a * b + d)%N l 0%N.

Lemma length_to_digits b k n : length (to_digits b k n) = k.
Proof. revert n. induction k as [| k IH]; intros n; simpl; [done |]. rewrite length_app, IH. simpl. lia. Qed.

Lemma to_digits_bound b k n : (0 < b)%N → Forall (λ d, d < b)%N (to_digits b k n).
Proof.
  intros Hb. revert n. induction k as [| k IH]; intros n; simpl; [constructor |].
  apply Forall_app. split; [apply IH |]. constructor; [| constructor].
  apply N.mod_lt. lia.
Qed.

Lemma of_digits_app b l d : of_digits b (l ++ [d]) = (of_digits b l * b + d)%N.
Proof. unfold of_digits. by rewrite fold_left_app. Qed.

Lemma of_to_digits b k n :
  (0 < b)%N → of_digits b (to_digits b k n) = (n mod b ^ N.of_nat k)%N.
Proof.
  intros Hb. revert n. induction k as [| k IH]; intros n.
  - simpl. by rewrite N.mod_1_r.
  - cbn [to_digits]. rewrite of_digits_app, IH, Nat2N.inj_succ, N.pow_succ_r'.
    rewrite N.Div0.mod_mul_r. lia.
Qed.

Lemma of_to_digits_small b k n :
  (0 < b)%N → (n < b ^ N.of_nat k)%N → of_digits b (to_digits b k n) = n.
Proof. intros Hb Hn. rewrite of_to_digits by done. by apply N.mod_small. Qed.

Lemma to_of_digits b l : (0 < b)%N → Forall (λ d, d < b)%N l → to_digits b (length l) (of_digits b l) = l.
Proof.
  intros Hb. induction l as [| d l IH] using rev_ind; [done |]. rewrite Forall_app. intros [Hl Hd].
  apply Forall_inv in Hd. rewrite length_app, of_digits_app, Nat.add_1_r. cbn [to_digits].
  rewrite N.div_add_l, N.div_small, N.add_0_r, IH by (done || lia).
  by rewrite N.Div0.add_mod, N.Div0.mod_mul, N.add_0_l, N.Div0.mod_mod, N.mod_small.
Qed.

Lemma of_digits_bound b l : (0 < b)%N → Forall (λ d, d < b)%N l → (of_digits b l < b ^ N.of_nat (length l))%N.
Proof.
  intros Hb. induction l as [| d l IH] using rev_ind; [done |]. rewrite Forall_app. intros [Hl Hd].
  apply Forall_inv in Hd. rewrite length_app, of_digits_app, Nat.add_1_r, Nat2N.inj_succ, N.pow_succ_r'.
  specialize (IH Hl). nia.
Qed.

(** ** Splitting what was joined *)

Lemma split_on_app c s part rest : Forall (λ d, d ≠ c) s → split_on c (s ++ c :: rest) part = (reverse part ++ s) :: split_on c rest [].
Proof.
  intros Hs. revert part. induction Hs as [| d s Hd _ IH]; intros part; [simpl; by rewrite N.eqb_refl, app_nil_r |].
  cbn [app split_on]. rewrite (proj2 (N.eqb_neq d c)), IH by done. by rewrite reverse_cons, <- app_assoc.
Qed.
Lemma split_on_last c s part : Forall (λ d, d ≠ c) s → split_on c s part = [reverse part ++ s].
Proof.
  intros Hs. revert part. induction Hs as [| d s Hd _ IH]; intros part; [simpl; by rewrite app_nil_r |].
  cbn [split_on]. rewrite (proj2 (N.eqb_neq d c)), IH by done. by rewrite reverse_cons, <- app_assoc.
Qed.
Lemma split_join c parts : parts ≠ [] → Forall (Forall (λ d, d ≠ c)) parts → split_on c (join [c] parts) [] = parts.
Proof.
  intros Hn Hp. induction Hp as [| p parts Hp Hps IH]; [done |]. destruct parts as [| q parts]; [by apply split_on_last |].
  change (join [c] (p :: q :: parts)) with (p ++ c :: join [c] (q :: parts)). rewrite split_on_app, IH by done. done.
Qed.

(** ** Hexadecimal text *)

Definition hex_char (d : N) : N := if (d <? 10)%N then (48 + d)%N else (87 + d)%N.
Definition hex_val (c : N) : option N :=
  if is_09 c then Some (c - 48)%N
  else if in_range 97 102 c then Some (c - 87)%N
  else if in_range 65 70 c then Some (c - 55)%N
  else None.
Definition is_hex_lower (c : N) : bool := is_09 c || in_range 97 102 c.

Lemma hex_val_char d : (d < 16)%N → hex_val (hex_char d) = Some d.
Proof.
  intros Hd. unfold hex_char, hex_val, is_09, in_range.
  destruct (d <? 10)%N eqn:H10; to_prop.
  - replace ((48 <=? 48 + d) && (48 + d <=? 57))%N with true; [f_equal; lia |].
    symmetry. apply andb_true_iff. split; apply N.leb_le; lia.
  - replace ((48 <=? 87 + d) && (87 + d <=? 57))%N with false.
    + replace ((97 <=? 87 + d) && (87 + d <=? 102))%N with true; [f_equal; lia |].
      symmetry. apply andb_true_iff. split; apply N.leb_le; lia.
    + symmetry. apply andb_false_iff. right. apply N.leb_gt. lia.
Qed.

Lemma hex_char_lower d : (d < 16)%N → is_hex_lower (hex_char d) = true.
Proof.
  intros Hd. unfold is_hex_lower, hex_char, is_09, in_range.
  destruct (d <? 10)%N eqn:H10; to_prop; apply orb_true_iff;
    [left | right]; apply andb_true_iff; split; apply N.leb_le; lia.
Qed.

Definition hex_of (k : nat) (n : N) : pystr := map hex_char (to_digits 16 k n).
Definition hex_parse (s : pystr) : option N := of_digits 16 <$> mapM hex_val s.

Lemma mapM_hex_digits l :
  Forall (λ d, d < 16)%N l → mapM hex_val (map hex_char l) = Some l.
Proof.
  induction 1 as [| d l Hd Hl IH]; [done |].
  cbn [map mapM]. cbn. rewrite (hex_val_char d Hd). cbn. fold (mapM hex_val).
  by rewrite IH.
Qed.

Lemma hex_parse_of k n : (n < 16 ^ N.of_nat k)%N → hex_parse (hex_of k n) = Some n.
Proof.
  intros Hn. unfold hex_parse, hex_of.
  rewrite mapM_hex_digits by by apply to_digits_bound.
  simpl. f_equal. by apply of_to_digits_small.
Qed.

(** ** UUIDs

    [UUID.__str__] writes 32 lower-case hexadecimal digits in groups
    8-4-4-4-12; the constructor drops the hyphens and requires 32 digits.
    The application only parses texts it wrote with [str]. *)

Record uuid := mk_uuid { uuid_int : N; uuid_bound : bool_decide (uuid_int < 2 ^ 128)%N }.
Arguments mk_uuid uuid_int {uuid_bound}.

Lemma uuid_eq (a b : uuid) : uuid_int a = uuid_int b → a = b.
Proof. destruct a, b; simpl; intros ->. f_equal. apply proof_irrel. Qed.

#[export] Instance uuid_eq_dec : EqDecision uuid.
Proof.
  refine (λ a b, cast_if (decide (uuid_int a = uuid_int b)));
    [by apply uuid_eq | congruence].
Defined.

Definition uuid_of (n : N) : option uuid :=
  match decide (bool_decide (n < 2 ^ 128)%N) with
  | left H => Some (@mk_uuid n H)
  | right _ => None
  end.

Lemma uuid_of_int a : uuid_of (uuid_int a) = Some a.
Proof.
  unfold uuid_of. destruct (decide _) as [H | H]; [f_equal; by apply uuid_eq |].
  by destruct H, a.
Qed.

#[export] Instance uuid_countable : Countable uuid :=
  inj_countable uuid_int uuid_of uuid_of_int.

Definition dash : N := 45.
Definition uuid_str (a : uuid) : pystr :=
  let h := hex_of 32 (uuid_int a) in
  take 8 h ++ dash :: take 4 (drop 8 h) ++ dash :: take 4 (drop 12 h)
  ++ dash :: take 4 (drop 16 h) ++ dash :: drop 20 h.
Definition uuid_parse (s : pystr) : option uuid :=
  let h := List.filter (λ c, negb (c =? dash)%N) s in
  if length h =? 32 then n ← hex_parse h; uuid_of n else None.

Lemma hex_of_no_dash k n : List.filter (λ c, negb (c =? dash)%N) (hex_of k n) = hex_of k n.
Proof.
  unfold hex_of. pose proof (to_digits_bound 16 k n ltac:(lia)) as Hb.
  induction Hb as [| d l Hd Hl IH]; simpl; [done |].
  replace (hex_char d =? dash)%N with false; [simpl; by rewrite IH |].
  symmetry. apply N.eqb_neq. unfold hex_char, dash. case_bool; to_prop; lia.
Qed.

Lemma take_then_drop {A} (i j : nat) (l : list A) :
  take i (drop j l) ++ drop (j + i) l = drop j l.
Proof. by rewrite <- drop_drop, take_drop. Qed.

Lemma filter_dash a b :
  List.filter (λ c, negb (c =? dash)%N) (a ++ dash :: b) =
  List.filter (λ c, negb (c =? dash)%N) (a ++ b).
Proof. by rewrite !List.filter_app. Qed.

Lemma uuid_str_digits a :
  List.filter (λ c, negb (c =? dash)%N) (uuid_str a) = hex_of 32 (uuid_int a).
Proof.
  unfold uuid_str. set (h := hex_of 32 (uuid_int a)).
  rewrite filter_dash, app_assoc, filter_dash, app_assoc, filter_dash, app_assoc, filter_dash.
  rewrite <- !app_assoc.
  rewrite (take_then_drop 4 16 h : _ ++ drop 20 h = _), (take_then_drop 4 12 h : _ ++ drop 16 h = _),
    (take_then_drop 4 8 h : _ ++ drop 12 h = _), take_drop.
  apply hex_of_no_dash.
Qed.

Lemma length_hex_of k n : length (hex_of k n) = k.
Proof. unfold hex_of. by rewrite List.length_map, length_to_digits. Qed.

(** Writing a UUID and reading the text back gives the UUID. *)
Lemma uuid_parse_str a : uuid_parse (uuid_str a) = Some a.
Proof.
  unfold uuid_parse. rewrite uuid_str_digits, length_hex_of, hex_parse_of.
  - apply uuid_of_int.
  - pose proof (uuid_bound a) as Hb. by apply bool_decide_unpack in Hb.
Qed.

#[global] Arguments uuid_str : simpl never.
#[global] Arguments uuid_parse : simpl never.

#[export] Instance uuid_str_inj : Inj (=) (=) uuid_str.
Proof. intros a b Hab. apply (f_equal uuid_parse) in Hab. rewrite !uuid_parse_str in Hab. congruence. Qed.

(** ** Naive local date-times, in microseconds; [dt_offset] is [utcoffset()] *)

Record datetime := mk_dt { dt_us : Z; dt_offset : option Z }.
Definition dt_naive (d : datetime) : bool := bool_decide (dt_offset d = None).
(** [d + timedelta(seconds=s)] *)
Definition dt_add_seconds (d : datetime) (s : Z) : datetime :=
  {| dt_us := dt_us d + s * 1000000; dt_offset := dt_offset d |}.
(** Comparisons of two naive date-times. *)
Definition dt_leb (a b : datetime) : bool := (dt_us a <=? dt_us b)%Z.
Definition dt_ltb (a b : datetime) : bool := (dt_us a <? dt_us b)%Z.

#[export] Instance datetime_eq_dec : EqDecision datetime.
Proof. solve_decision. Defined.
