(* ===== verification/PyVal.v ===== *)
(** * PyVal: untyped Python values

    Results of third-party drivers, decoded JSON and raw configuration reach
    the sources untyped and are checked with [isinstance] and [type]; this is
    the type of such values and those tests. *)

From Stdlib Require Import Floats.SpecFloat.
From S2P Require Import Prelude Text.

Inductive pyval : Type :=
| VNone
| VBool (b : bool)
| VInt (z : Z)
| VFloat (f : spec_float)
| VBytes (b : pybytes)
| VStr (s : pystr)
| VList (l : list pyval)
| VTuple (l : list pyval)
| VDict (l : list (pyval * pyval))
| VOther.

(** [type(v) is int], [isinstance(v, int)] (a [bool] is an [int]). *)
Definition is_int (v : pyval) : option Z := match v with VInt z => Some z | _ => None end.
Definition is_int_instance (v : pyval) : option Z :=
  match v with VInt z => Some z | VBool b => Some (if b then 1 else 0)%Z | _ => None end.
Definition is_bytes (v : pyval) : option pybytes := match v with VBytes b => Some b | _ => None end.
Definition is_str (v : pyval) : option pystr := match v with VStr s => Some s | _ => None end.
Definition is_sequence (v : pyval) : option (list pyval) :=
  match v with VList l | VTuple l => Some l | _ => None end.
Definition is_true (v : pyval) : bool := match v with VBool true => true | _ => false end.

(** [bool(v)] *)
Definition truth (v : pyval) : bool :=
  match v with
  | VNone => false
  | VBool b => b
  | VInt z => negb (z =? 0)%Z
  | VFloat f => match f with S754_zero _ => false | _ => true end
  | VBytes b => negb (bool_decide (b = []))
  | VStr s => negb (bool_decide (s = []))
  | VList l | VTuple l => negb (bool_decide (length l = 0))
  | VDict l => negb (bool_decide (length l = 0))
  | VOther => true
  end.

#[export] Instance byte_eq_dec : EqDecision Byte.byte := Byte.byte_eq_dec.

Definition byte_N (b : Byte.byte) : N := Byte.to_N b.
(** [bytes.isdigit()] and [int(value)] of ASCII digits. *)
Definition bytes_isdigit (b : pybytes) : bool :=
  negb (bool_decide (b = [])) && forallb (λ x, is_09 (byte_N x)) b.
Definition decimal_value (digits : list N) : Z := Z.of_N (of_digits 10 (map (λ c, c - 48)%N digits)).
Definition bytes_int (b : pybytes) : Z := decimal_value (map byte_N b).

(** Raw configuration: an ordered mapping from names to values. *)
Abbreviation pydict V := (list (pystr * V)).
Fixpoint dict_get {V} (d : pydict V) (k : pystr) : option V :=
  match d with
  | [] => None
  | (k', v) :: d => if decide (k' = k) then Some v else dict_get d k
  end.
Definition dict_keys {V} (d : pydict V) : list pystr := map fst d.
(** [a | b]: keys keep their first position, values of [b] win. *)
Definition dict_set {V} (d : pydict V) (k : pystr) (v : V) : pydict V :=
  if bool_decide (k ∈ dict_keys d)
  then map (λ kv, if decide (kv.1 = k) then (k, v) else kv) d
  else d ++ [(k, v)].
Definition dict_merge {V} (a b : pydict V) : pydict V :=
  fold_left (λ d kv, dict_set d kv.1 kv.2) b a.

Lemma dict_get_map {V} (d : pydict V) k v k' : k ∈ dict_keys d →
  dict_get (map (λ kv, if decide (kv.1 = k) then (k, v) else kv) d) k' =
    if decide (k = k') then Some v else dict_get d k'.
Proof.
  induction d as [| [k0 v0] d IH]; intros Hk; [by apply not_elem_of_nil in Hk |].
  cbn [dict_keys map fst dict_get] in *.
  destruct (decide (k0 = k)) as [-> | Hne]; cbn [dict_get fst].
  - destruct (decide (k = k')) as [-> | Hk']; [done |].
    destruct (decide (k ∈ dict_keys d)) as [Hin | Hout]; [by apply IH |].
    clear IH. revert Hk' Hout. clear. induction d as [| [k1 v1] d IH]; intros Hk' Hout; [done |].
    cbn [dict_keys map fst] in *. cbn [dict_get fst]. destruct (decide (k1 = k)); [set_solver |].
    cbn [dict_get]. destruct (decide (k1 = k')); [done |]. apply IH; [done | set_solver].
  - destruct (decide (k0 = k')) as [-> | ?]; [by rewrite decide_False |]. apply IH. set_solver.
Qed.

Lemma dict_get_in {V} (d : pydict V) k v : dict_get d k = Some v → k ∈ dict_keys d.
Proof.
  induction d as [| [k' v'] d IH]; [done |]. cbn [dict_get dict_keys map fst]. case_decide; [subst; left | right; by apply IH].
Qed.
Lemma dict_get_app {V} (a b : pydict V) k : dict_get (a ++ b) k = match dict_get a k with Some v => Some v | None => dict_get b k end.
Proof. induction a as [| [k' v] a IH]; [done |]. simpl. by case_decide. Qed.
Lemma dict_get_app_new {V} (d : pydict V) k v k' : k ∉ dict_keys d →
  dict_get (d ++ [(k, v)]) k' = if decide (k = k') then Some v else dict_get d k'.
Proof.
  induction d as [| [k0 v0] d IH]; intros Hk; [done |]. cbn [app dict_get dict_keys map fst] in *.
  destruct (decide (k0 = k')) as [-> | ?]; [rewrite decide_False; set_solver |]. apply IH. set_solver.
Qed.

Lemma dict_get_set {V} (d : pydict V) k v k' :
  dict_get (dict_set d k v) k' = if decide (k = k') then Some v else dict_get d k'.
Proof.
  unfold dict_set. case_bool_decide; [by apply dict_get_map | by apply dict_get_app_new].
Qed.

Lemma dict_get_merge {V} (a b : pydict V) k :
  List.NoDup (dict_keys b) →
  dict_get (dict_merge a b) k = match dict_get b k with Some v => Some v | None => dict_get a k end.
Proof.
  unfold dict_merge. revert a. induction b as [| [k0 v0] b IH]; intros a Hd; simpl; [done |].
  inversion Hd as [| ? ? Hk0 Hd']; subst. rewrite IH by done. rewrite dict_get_set.
  destruct (decide (k0 = k)) as [-> | ?]; [| done].
  destruct (dict_get b k) as [v |] eqn:Hv; [| done]. exfalso. apply Hk0.
  clear -Hv. induction b as [| [k1 v1] b IH]; simpl in *; [done |].
  destruct (decide (k1 = k)) as [-> | ?]; auto.
Qed.
