(* ===== verification/Errors.v ===== *)
(** * Errors: the exception classes of the application

    One constructor per exception class the sources raise or catch, with
    the attributes handlers read; message texts are not modelled.  The
    predicates [is_...] are the [isinstance] tests of the [except] clauses,
    i.e. they follow the class hierarchy of the sources and libraries. *)

From S2P Require Import Prelude Text PyVal.

(** [UserConflictField = Literal["username", "email"]] *)
Inductive conflict_field := FieldUsername | FieldEmail.
#[export] Instance conflict_field_eq_dec : EqDecision conflict_field.
Proof. solve_decision. Defined.

(** The attributes [_resolve_user_conflict_field] reads from the driver
    exception behind an [IntegrityError]: [None] is a missing attribute. *)
Record diag := mk_diag { dg_table : option pystr; dg_constraint : option pystr }.
Inductive driver_arg := ArgInt (z : Z) | ArgStr (s : pystr) | ArgOther.
Record driver_error := mk_driver_error {
  de_sqlite_errorcode : option Z;
  de_text : pystr;                 (* str(original) *)
  de_sqlstate : option pystr;      (* sqlstate *)
  de_pgcode : option pystr;        (* pgcode *)
  de_cause : option (option pystr * diag);   (* __cause__: its sqlstate and diagnostics *)
  de_diag : option diag;           (* diag *)
  de_self : diag;                  (* table_name / constraint_name of the exception itself *)
  de_args : list driver_arg;
}.

(** What an HTTP response code is made of: [shared/response/codes/contract.py]. *)
Record CodeDefinition := mk_code { rc_code : pystr; rc_message : pystr; rc_status_code : Z }.

(** One entry of [RequestValidationError.errors()]. *)
Record field_error := mk_field_error {
  fe_type : pystr; fe_loc : list pyval; fe_msg : pystr; fe_input : pyval;
}.

Inductive exn : Type :=
(* builtins and asyncio *)
| ValueError | TypeError | KeyError | RuntimeError | AssertionError | OverflowError
| RecursionError | TimeoutError | StopAsyncIteration | ModuleNotFoundError | ImportError
| SystemExit (code : Z)
| CancelledError
(* app.contexts.user *)
| InvalidUserDataError
| UserNotFoundError (user_id : uuid)
| UserConflictError (field : conflict_field)
| ConcurrentUserUpdateError (user_id : uuid)
| InvalidCredentialsError (remaining_attempts : option Z)
| LoginTemporarilyLockedError (retry_after_seconds : Z)
| AuthenticationRequiredError
(* app.infrastructure.cache, rate_limit *)
| CacheConfigurationError | CacheConnectionError | CacheOperationError | CacheKeyError
| RateLimitUnavailableError
(* app.infrastructure.queue *)
| QueueError | QueueConfigurationError | InvalidMessageError | JobDecodeError
| JobResolutionError | UnknownJobError | UnsupportedJobVersionError
| JobDefinitionError | DeliveryLostError | RetryableJobError
(* app.interfaces.scheduler *)
| SchedulerError | SchedulerConfigurationError
(* app.infrastructure.database and vector *)
| DatabaseConfigurationError | DatabaseDriverError | DatabaseOperationError
| VectorConfigurationError | VectorConnectionError | VectorOperationError
| VectorCollectionNotFoundError | VectorCollectionConflictError
(* app.interfaces.http, FastAPI and Starlette *)
| HttpError (code : CodeDefinition) (message : pystr) (data : option pyval) (headers : option (pydict pystr))
| RequestValidationError (errors : list field_error)
| HTTPException (status_code : Z) (detail : pyval) (headers : option (pydict pystr))
(* app.infrastructure.http *)
| HttpTransportError | HttpTimeoutError | HttpPoolTimeoutError | HttpResponseTooLargeError (max_response_bytes : Z)
(* httpx2 *)
| HttpxPoolTimeout | HttpxTimeoutException | HttpxRequestError
| HttpxInvalidURL | HttpxStreamError      (* no [RequestError]s *)
(* app.infrastructure.logging, pwdlib and typer *)
| LoggingConfigurationError | UnknownHashError | TyperExit (code : Z)
(* pydantic and SQLAlchemy *)
| ValidationError
| IntegrityError (orig : option driver_error)
| DBAPIError (connection_invalidated : bool)
| OperationalError (connection_invalidated : bool) | InterfaceError (connection_invalidated : bool) | NoSuchModuleError
| DisconnectionError | SQLAlchemyTimeoutError
(* aggregates and everything else *)
| ExceptionGroup (errors : list exn)
| OtherException (tag : N)          (* any other subclass of Exception *)
| OtherBaseException (tag : N).     (* any other BaseException, e.g. KeyboardInterrupt *)

(** [except Exception]: everything but the bare [BaseException]s.  A group
    is an [Exception] exactly when all its members are. *)
Fixpoint is_exception (e : exn) : bool :=
  match e with
  | CancelledError | SystemExit _ | OtherBaseException _ => false
  | ExceptionGroup es => forallb is_exception es
  | _ => true
  end.

(** [InvalidUserDataError], [CacheKeyError] and [LoggingConfigurationError]
    are [ValueError]s, and so is pydantic's [ValidationError]. *)
Definition is_value_error (e : exn) : bool :=
  match e with
  | ValueError | InvalidUserDataError | CacheKeyError | LoggingConfigurationError | ValidationError => true
  | _ => false
  end.

Definition is_invalid_message (e : exn) : bool :=
  match e with InvalidMessageError | JobDecodeError => true | _ => false end.

Definition is_queue_error (e : exn) : bool :=
  match e with
  | QueueError | QueueConfigurationError | InvalidMessageError | JobDecodeError
  | JobResolutionError | UnknownJobError | UnsupportedJobVersionError
  | JobDefinitionError | DeliveryLostError | RetryableJobError => true
  | _ => false
  end.

Definition is_scheduler_error (e : exn) : bool :=
  match e with SchedulerError | SchedulerConfigurationError => true | _ => false end.

(** [VectorCollectionNotFoundError] and [VectorCollectionConflictError] are
    [VectorOperationError]s. *)
Definition is_vector_operation_error (e : exn) : bool :=
  match e with
  | VectorOperationError | VectorCollectionNotFoundError | VectorCollectionConflictError => true
  | _ => false
  end.

(** [IntegrityError], [OperationalError] and [InterfaceError] of SQLAlchemy are
    [DBAPIError]s; the connection of the first is not marked invalidated. *)
Definition dbapi_invalidated (e : exn) : option bool :=
  match e with
  | IntegrityError _ => Some false
  | DBAPIError b | OperationalError b | InterfaceError b => Some b
  | _ => None
  end.

(** [asyncio.timeout] and [socket] time-outs are the builtin [TimeoutError]. *)
Definition is_timeout_error (e : exn) : bool :=
  match e with TimeoutError => true | _ => false end.

(** [httpx2.PoolTimeout] is a [TimeoutException], and that a [RequestError];
    [InvalidURL] and [StreamError] derive from [Exception] and [RuntimeError]. *)
Definition is_httpx_timeout (e : exn) : bool :=
  match e with HttpxPoolTimeout | HttpxTimeoutException => true | _ => false end.
Definition is_httpx_request_error (e : exn) : bool :=
  match e with HttpxRequestError => true | _ => is_httpx_timeout e end.
Definition is_httpx_error (e : exn) : bool :=
  match e with HttpxInvalidURL | HttpxStreamError => true | _ => is_httpx_request_error e end.

(** [app.infrastructure.http.errors.HttpError] and its subclasses. *)
Definition is_outbound_http_error (e : exn) : bool :=
  match e with
  | HttpTransportError | HttpTimeoutError | HttpPoolTimeoutError | HttpResponseTooLargeError _ => true
  | _ => false
  end.

(** A call of the application in a world [W]. *)
Abbreviation io W := (prog W exn).

(** ** Diagnostics: [infrastructure/logging/record.py]

    What the interpreter knows of an exception object: its class, and per
    frame of its traceback the module name, if any, the function and the line. *)
Class Tracebacks := {
  exc_module : exn → pystr;
  exc_qualname : exn → pystr;
  exc_traceback : exn → list (option pystr * pystr * Z);
}.
Record ExceptionStackFrame := mk_frame { sf_module : pystr; sf_function : pystr; sf_line : Z }.
Definition safe_exception_details `{Tracebacks} (error : exn) : pystr * list ExceptionStackFrame :=
  (exc_module error ++ u "." ++ exc_qualname error,
   map (λ '(name, function, line), mk_frame (default (u "<unknown>") name) function line) (exc_traceback error)).

(** The levels the application writes at. *)
Inductive log_level := LogInfo | LogWarning | LogError.
#[export] Instance log_level_eq_dec : EqDecision log_level.
Proof. solve_decision. Defined.

Lemma invalid_message_is_queue_error e :
  is_invalid_message e = true → is_queue_error e = true.
Proof. by destruct e. Qed.

Lemma queue_error_is_exception e : is_queue_error e = true → is_exception e = true.
Proof. by destruct e. Qed.

Create HintDb exns discriminated.
#[export] Hint Resolve invalid_message_is_queue_error queue_error_is_exception : exns.
