(* ===== verification/UserDomain.v ===== *)
(** * UserDomain: the user aggregate, its value objects and the session entity

    Models [app/contexts/user/domain/values.py], [user.py] and [session.py].
    A frozen dataclass is a record whose constructor runs [__post_init__]
    ([..._new]); a method that assigns to [self] is a program over the
    aggregate, so a theorem can say what an exception leaves behind.  The
    [isinstance] guards of the sources hold by typing and are omitted. *)

From S2P Require Import Prelude Text Errors.
Local Open Scope prog_scope.

(** ** Value objects *)

Definition is_username_char (c : N) : bool := is_lower_az c || is_09 c || (c =? 95)%N.
Definition is_email_char (c : N) : bool := negb (c =? 64)%N && negb (is_space c).

(** [^[a-z0-9_]{3,32}$] *)
Definition username_pattern : regex := RRep (RCls is_username_char) 3 (Some 32).
(** [^[^@\s]+@[^@\s]+\.[^@\s]+$] *)
Definition email_pattern : regex :=
  RCat (RRep (RCls is_email_char) 1 None)
    (RCat (RChr 64) (RCat (RRep (RCls is_email_char) 1 None)
      (RCat (RChr 46) (RRep (RCls is_email_char) 1 None)))).

Definition password_min_length : Z := 8.
Definition password_max_length : Z := 128.
Definition password_hash_max_length : Z := 255.

Record UserId := mk_user_id { user_id_value : uuid }.
Record Username := mk_username { username_value : pystr }.
Record EmailAddress := mk_email { email_value : pystr }.
Record Password := mk_password { password_value : pystr }.
Record PasswordHash := mk_password_hash { password_hash_value : pystr }.
Inductive UserStatus := ACTIVE | DISABLED.

#[export] Instance user_id_eq_dec : EqDecision UserId.
Proof. solve_decision. Defined.
#[export] Instance user_id_countable : Countable UserId :=
  inj_countable' user_id_value mk_user_id ltac:(by intros []).
#[export] Instance username_eq_dec : EqDecision Username.
Proof. solve_decision. Defined.
#[export] Instance email_eq_dec : EqDecision EmailAddress.
Proof. solve_decision. Defined.
#[export] Instance password_hash_eq_dec : EqDecision PasswordHash.
Proof. solve_decision. Defined.
#[export] Instance user_status_eq_dec : EqDecision UserStatus.
Proof. solve_decision. Defined.

(** [UserStatus.value] and [UserStatus(text)] *)
Definition status_text (s : UserStatus) : pystr :=
  match s with ACTIVE => u "active" | DISABLED => u "disabled" end.
Definition UserStatus_of (t : pystr) : result exn UserStatus :=
  if decide (t = status_text ACTIVE) then Ok ACTIVE
  else if decide (t = status_text DISABLED) then Ok DISABLED
  else Err ValueError.

Section Values.
Context `{UnicodeTables}.

Definition Username_new (value : pystr) : result exn Username :=
  let normalized := py_lower (py_strip value) in
  let? _ := guard (fullmatch username_pattern normalized) InvalidUserDataError in
  Ok (mk_username normalized).

Definition EmailAddress_new (value : pystr) : result exn EmailAddress :=
  let normalized := py_lower (py_strip value) in
  let? _ := guard (negb ((254 <? len normalized)%Z || negb (fullmatch email_pattern normalized)))
              InvalidUserDataError in
  Ok (mk_email normalized).
End Values.

Definition Password_new (value : pystr) : result exn Password :=
  let? _ := guard ((password_min_length <=? len value) && (len value <=? password_max_length))%Z
              InvalidUserDataError in
  Ok (mk_password value).

Definition PasswordHash_new (value : pystr) : result exn PasswordHash :=
  let? _ := guard ((1 <=? len value) && (len value <=? password_hash_max_length))%Z
              InvalidUserDataError in
  Ok (mk_password_hash value).

(** ** The aggregate *)

Record User := mk_user {
  u_id : UserId;
  u_username : Username;
  u_email : EmailAddress;
  u_password_hash : PasswordHash;
  u_status : UserStatus;
  u_created_at : datetime;
  u_updated_at : datetime;
  u_version : Z;
}.

#[export] Instance user_eq_dec : EqDecision User.
Proof. solve_decision. Defined.

Definition validate_local_datetime (value : datetime) : result exn unit :=
  guard (dt_naive value) InvalidUserDataError.
Definition validate_version (value : Z) : result exn unit :=
  guard (1 <=? value)%Z InvalidUserDataError.

(** [__post_init__] *)
Definition User_new (x : User) : result exn User :=
  let? _ := validate_local_datetime (u_created_at x) in
  let? _ := validate_local_datetime (u_updated_at x) in
  let? _ := validate_version (u_version x) in
  Ok x.

Definition User_create `{UnicodeTables} (user_id : uuid) (username email : pystr)
    (password_hash : PasswordHash) (now : datetime) : result exn User :=
  let? n := Username_new username in
  let? e := EmailAddress_new email in
  User_new {| u_id := mk_user_id user_id; u_username := n; u_email := e;
              u_password_hash := password_hash; u_status := ACTIVE;
              u_created_at := now; u_updated_at := now; u_version := 1 |}.

Definition User_rehydrate (user_id : UserId) (username : Username) (email : EmailAddress)
    (password_hash : PasswordHash) (status : UserStatus)
    (created_at updated_at : datetime) (version : Z) : result exn User :=
  User_new {| u_id := user_id; u_username := username; u_email := email;
              u_password_hash := password_hash; u_status := status;
              u_created_at := created_at; u_updated_at := updated_at; u_version := version |}.

Definition with_username (n : Username) (x : User) : User :=
  mk_user (u_id x) n (u_email x) (u_password_hash x) (u_status x) (u_created_at x) (u_updated_at x) (u_version x).
Definition with_email (e : EmailAddress) (x : User) : User :=
  mk_user (u_id x) (u_username x) e (u_password_hash x) (u_status x) (u_created_at x) (u_updated_at x) (u_version x).
Definition with_password_hash (h : PasswordHash) (x : User) : User :=
  mk_user (u_id x) (u_username x) (u_email x) h (u_status x) (u_created_at x) (u_updated_at x) (u_version x).
Definition with_status (s : UserStatus) (x : User) : User :=
  mk_user (u_id x) (u_username x) (u_email x) (u_password_hash x) s (u_created_at x) (u_updated_at x) (u_version x).
Definition with_updated_at (d : datetime) (x : User) : User :=
  mk_user (u_id x) (u_username x) (u_email x) (u_password_hash x) (u_status x) (u_created_at x) d (u_version x).
Definition with_version (v : Z) (x : User) : User :=
  mk_user (u_id x) (u_username x) (u_email x) (u_password_hash x) (u_status x) (u_created_at x) (u_updated_at x) v.

Definition User_advance_version : io User unit := modify (λ x, with_version (u_version x + 1) x).

Definition User_update_profile `{UnicodeTables} (username email : pystr) (now : datetime)
    : io User unit :=
  let* resolved_username := lift (Username_new username) in
  let* resolved_email := lift (EmailAddress_new email) in
  lift (validate_local_datetime now);;;
  modify (with_username resolved_username);;;
  modify (with_email resolved_email);;;
  modify (with_updated_at now).

Definition User_change_status (status : UserStatus) (now : datetime) : io User unit :=
  lift (validate_local_datetime now);;;
  modify (with_status status);;;
  modify (with_updated_at now).

Definition User_reset_password (password_hash : PasswordHash) (now : datetime) : io User unit :=
  lift (validate_local_datetime now);;;
  modify (with_password_hash password_hash);;;
  modify (with_updated_at now).

(** ** The session entity *)

Definition digest_pattern : regex := RRep (RCls is_hex_lower) 64 (Some 64).

Record UserSession := mk_session {
  s_token_digest : pystr;
  s_user_id : UserId;
  s_issued_at : datetime;
  s_expires_at : datetime;
}.

#[export] Instance session_eq_dec : EqDecision UserSession.
Proof. solve_decision. Defined.

Definition session_local_datetime (value : datetime) : result exn unit :=
  guard (dt_naive value) ValueError.

Definition UserSession_new (x : UserSession) : result exn UserSession :=
  let? _ := guard (fullmatch digest_pattern (s_token_digest x)) ValueError in
  let? _ := session_local_datetime (s_issued_at x) in
  let? _ := session_local_datetime (s_expires_at x) in
  let? _ := guard (negb (dt_leb (s_expires_at x) (s_issued_at x))) ValueError in
  Ok x.

Definition UserSession_is_valid (x : UserSession) (now : datetime) : result exn bool :=
  let? _ := session_local_datetime now in
  Ok (dt_leb (s_issued_at x) now && dt_ltb now (s_expires_at x)).

(** ** Invariants of the values a constructor lets through *)

Definition username_ok (n : Username) : bool := fullmatch username_pattern (username_value n).
Definition email_ok `{UnicodeTables} (e : EmailAddress) : bool :=
  (len (email_value e) <=? 254)%Z && fullmatch email_pattern (email_value e)
  && bool_decide (py_lower (email_value e) = email_value e).
Definition hash_ok (h : PasswordHash) : bool :=
  (1 <=? len (password_hash_value h))%Z && (len (password_hash_value h) <=? 255)%Z.
Definition user_ok `{UnicodeTables} (x : User) : bool :=
  username_ok (u_username x) && email_ok (u_email x) && hash_ok (u_password_hash x)
  && dt_naive (u_created_at x) && dt_naive (u_updated_at x) && (1 <=? u_version x)%Z.
Definition session_ok (x : UserSession) : bool :=
  fullmatch digest_pattern (s_token_digest x) && dt_naive (s_issued_at x)
  && dt_naive (s_expires_at x) && dt_ltb (s_issued_at x) (s_expires_at x).

(** ** Helper lemmas *)

Lemma username_pattern_spec s :
  fullmatch username_pattern s = true ↔
  forallb is_username_char s = true ∧ (3 ≤ len s ≤ 32)%Z.
Proof.
  unfold username_pattern. rewrite fullmatch_spec, cls_rep_matches.
  unfold rep_len_ok, len. rewrite andb_true_iff, !Nat.leb_le. split; intros [? ?]; split; auto; lia.
Qed.

Lemma username_char_ascii c : is_username_char c = true → is_ascii c = true.
Proof.
  unfold is_username_char, is_lower_az, is_09, in_range, is_ascii. intros Hc.
  apply N.ltb_lt. bool_cases Hc; lia.
Qed.

Lemma username_char_lower c : is_username_char c = true → negb (is_upper_az c) = true.
Proof.
  unfold is_username_char, is_lower_az, is_09, is_upper_az, in_range. intros Hc.
  apply negb_true_iff, andb_false_iff. rewrite !N.leb_gt. bool_cases Hc; lia.
Qed.

Lemma username_char_no_space c : is_username_char c = true → negb (is_space c) = true.
Proof.
  unfold is_username_char, is_lower_az, is_09, is_space, in_range. intros Hc.
  apply negb_true_iff. repeat (apply orb_false_iff; split);
    rewrite ?andb_false_iff, ?N.leb_gt, ?N.eqb_neq; bool_cases Hc; lia.
Qed.

#[export] Hint Resolve username_char_ascii username_char_lower username_char_no_space : exns.

(** A text that is already a legal username is its own normal form. *)
Lemma username_normal `{UnicodeTables} s :
  fullmatch username_pattern s = true → py_lower (py_strip s) = s.
Proof.
  intros [Hs _]%username_pattern_spec.
  rewrite strip_no_space by (apply (forallb_impl is_username_char); auto with exns).
  unfold py_lower.
  replace (forallb is_ascii s) with true
    by (symmetry; apply (forallb_impl is_username_char); auto with exns).
  apply (map_id_on _ (λ c, negb (is_upper_az c))); [apply ascii_lower_id |].
  apply (forallb_impl is_username_char); auto with exns.
Qed.

Lemma email_char_no_space c : is_email_char c = true → negb (is_space c) = true.
Proof. unfold is_email_char. by intros [? ?]%andb_true_iff. Qed.

Lemma email_pattern_no_space s :
  fullmatch email_pattern s = true → forallb (λ c, negb (is_space c)) s = true.
Proof.
  unfold email_pattern, RChr. rewrite fullmatch_spec, matches_cat.
  intros (s1 & s2 & -> & H1 & H2). apply cls_rep_matches in H1 as [H1 _].
  apply matches_cat in H2 as (c2 & s3 & -> & (a & -> & Ha)%cls_matches & H3).
  apply matches_cat in H3 as (s4 & s5 & -> & H4 & H5). apply cls_rep_matches in H4 as [H4 _].
  apply matches_cat in H5 as (c5 & s6 & -> & (b & -> & Hb)%cls_matches & H6).
  apply cls_rep_matches in H6 as [H6 _]. to_prop; subst.
  pose proof (forallb_impl _ _ _ email_char_no_space H1).
  pose proof (forallb_impl _ _ _ email_char_no_space H4).
  pose proof (forallb_impl _ _ _ email_char_no_space H6).
  rewrite forallb_app. simpl. rewrite forallb_app. simpl. by repeat (apply andb_true_iff; split).
Qed.

Lemma email_normal `{UnicodeTables} s :
  fullmatch email_pattern s = true → py_lower s = s → py_lower (py_strip s) = s.
Proof. intros Hs Hl. by rewrite strip_no_space by by apply email_pattern_no_space. Qed.

Lemma Username_new_ok `{UnicodeTables} v n :
  Username_new v = Ok n → username_value n = py_lower (py_strip v) ∧ username_ok n = true.
Proof. unfold Username_new, guard. intros Hn. repeat case_bool; simplify_eq/=; eauto. Qed.

Lemma Username_new_of_ok `{UnicodeTables} n :
  username_ok n = true → Username_new (username_value n) = Ok n.
Proof.
  unfold Username_new, username_ok, guard. intros Hn. rewrite username_normal by done.
  rewrite Hn. by destruct n.
Qed.

Lemma EmailAddress_new_ok `{UnicodeLaws} v e :
  EmailAddress_new v = Ok e → email_value e = py_lower (py_strip v) ∧ email_ok e = true.
Proof.
  unfold EmailAddress_new, guard, email_ok. intros He.
  destruct (254 <? _)%Z eqn:Hl, (fullmatch _ _) eqn:Hm; simplify_eq/=.
  to_prop. split; [done |]. rewrite Hm, bool_decide_true by apply py_lower_idem.
  rewrite !andb_true_r. apply Z.leb_le. lia.
Qed.

Lemma EmailAddress_new_of_ok `{UnicodeTables} e :
  email_ok e = true → EmailAddress_new (email_value e) = Ok e.
Proof.
  unfold EmailAddress_new, email_ok, guard. intros [[Hl Hm]%andb_true_iff Hi]%andb_true_iff.
  to_prop. rewrite email_normal by done.
  replace (254 <? len (email_value e))%Z with false by (symmetry; apply Z.ltb_ge; lia).
  rewrite Hm. by destruct e.
Qed.

Lemma PasswordHash_new_ok v h : PasswordHash_new v = Ok h ↔ password_hash_value h = v ∧ hash_ok h = true.
Proof.
  unfold PasswordHash_new, hash_ok, guard, password_hash_max_length.
  split.
  - intros Hh. case_bool; by simplify_eq/=.
  - intros [<- Hh]. rewrite Hh. by destruct h.
Qed.

Lemma User_new_ok x y : User_new x = Ok y ↔
  y = x ∧ dt_naive (u_created_at x) = true ∧ dt_naive (u_updated_at x) = true ∧ (1 ≤ u_version x)%Z.
Proof.
  unfold User_new, validate_local_datetime, validate_version, guard, result_bind.
  repeat case_bool; to_prop; split; intros; destruct_and?; simplify_eq/=; try done; auto with lia; lia.
Qed.

(** Exceptions of the domain constructors are [InvalidUserDataError]. *)
Lemma domain_errors `{UnicodeTables} :
  (∀ v e, Username_new v = Err e → e = InvalidUserDataError) ∧
  (∀ v e, EmailAddress_new v = Err e → e = InvalidUserDataError) ∧
  (∀ v e, Password_new v = Err e → e = InvalidUserDataError) ∧
  (∀ v e, PasswordHash_new v = Err e → e = InvalidUserDataError) ∧
  (∀ x e, User_new x = Err e → e = InvalidUserDataError).
Proof.
  unfold Username_new, EmailAddress_new, Password_new, PasswordHash_new, User_new,
    validate_local_datetime, validate_version, guard, result_bind.
  repeat split; intros; repeat case_bool; by simplify_eq/=.
Qed.

(** ** Operations of the aggregate as one datatype *)

Inductive user_op :=
| OpUpdateProfile (username email : pystr) (now : datetime)
| OpChangeStatus (status : UserStatus) (now : datetime)
| OpResetPassword (password_hash : PasswordHash) (now : datetime)
| OpAdvanceVersion.

Definition run_user_op `{UnicodeTables} (op : user_op) : io User unit :=
  match op with
  | OpUpdateProfile n e d => User_update_profile n e d
  | OpChangeStatus s d => User_change_status s d
  | OpResetPassword h d => User_reset_password h d
  | OpAdvanceVersion => User_advance_version
  end.

Definition op_hash_ok (op : user_op) : bool :=
  match op with OpResetPassword h _ => hash_ok h | _ => true end.

Lemma user_ok_iff `{UnicodeTables} x : user_ok x = true ↔
  username_ok (u_username x) = true ∧ email_ok (u_email x) = true
  ∧ hash_ok (u_password_hash x) = true ∧ dt_naive (u_created_at x) = true
  ∧ dt_naive (u_updated_at x) = true ∧ (1 ≤ u_version x)%Z.
Proof. unfold user_ok. rewrite !andb_true_iff, Z.leb_le. tauto. Qed.

(** A call that returned: invariant kept, identity and creation time kept. *)
Lemma user_op_ok `{UnicodeLaws} op x x' :
  user_ok x = true → op_hash_ok op = true → run_user_op op x = (x', Ok tt) →
  user_ok x' = true ∧ u_id x' = u_id x ∧ u_created_at x' = u_created_at x
  ∧ u_version x' = (u_version x + match op with OpAdvanceVersion => 1 | _ => 0 end)%Z.
Proof.
  rewrite !user_ok_iff. intros Hx Hh Hrun.
  destruct op as [n e d | s d | h d |]; cbv [run_user_op User_update_profile User_change_status
    User_reset_password User_advance_version validate_local_datetime] in Hrun; unprog.
  - destruct (Username_new n) as [rn |] eqn:Hn; simplify_eq/=.
    destruct (EmailAddress_new e) as [re |] eqn:He; simplify_eq/=.
    apply Username_new_ok in Hn as [_ Hn]. apply EmailAddress_new_ok in He as [_ He].
    destruct (dt_naive d) eqn:Hd; simplify_eq/=; repeat split; tauto || lia.
  - destruct (dt_naive d) eqn:Hd; simplify_eq/=; repeat split; tauto || lia.
  - destruct (dt_naive d) eqn:Hd; simplify_eq/=; repeat split; tauto || lia.
  - simplify_eq/=. repeat split; tauto || lia.
Qed.

(** A call that raised: nothing was assigned. *)
Lemma user_op_err `{UnicodeTables} op x x' e :
  run_user_op op x = (x', Err e) →
  x' = x ∧ e = InvalidUserDataError ∧
  match op with
  | OpUpdateProfile n m d => Username_new n = Err e ∨ EmailAddress_new m = Err e ∨ dt_naive d = false
  | OpChangeStatus _ d | OpResetPassword _ d => dt_naive d = false
  | OpAdvanceVersion => False
  end.
Proof.
  intros Hrun.
  destruct op as [n m d | s d | h d |]; cbv [run_user_op User_update_profile User_change_status
    User_reset_password User_advance_version validate_local_datetime] in Hrun; unprog;
    try (destruct (dt_naive d) eqn:Hd; by simplify_eq/=); try (by simplify_eq/=).
  destruct (Username_new n) as [rn | er] eqn:Hn; simplify_eq/=;
    [| pose proof Hn as ->%domain_errors; auto].
  destruct (EmailAddress_new m) as [re | er] eqn:He; simplify_eq/=;
    [| pose proof He as ->%domain_errors; auto].
  destruct (dt_naive d) eqn:Hd; simplify_eq/=; auto.
Qed.

(** ** Properties *)

(** [Username(value)] succeeds exactly when the stripped, lower-cased text
    has 3 to 32 characters, all lower-case ASCII letters, digits or
    underscores; the value kept is that normalised text, and the only
    exception is [InvalidUserDataError]. *)
Theorem username_construction `{UnicodeTables} (value : pystr) :
  (∀ n, Username_new value = Ok n ↔
     username_value n = py_lower (py_strip value)
     ∧ (3 ≤ len (username_value n) ≤ 32)%Z
     ∧ Forall (λ c, is_username_char c = true) (username_value n))
  ∧ (∀ e, Username_new value = Err e → e = InvalidUserDataError).
Proof.
  split; [| apply domain_errors]. intros n.
  rewrite <- forallb_Forall_true. split.
  - intros [Hv Hok]%Username_new_ok. apply username_pattern_spec in Hok as [? ?]. eauto.
  - intros (Hv & Hl & Hc). unfold Username_new, guard. rewrite <- Hv.
    rewrite (proj2 (username_pattern_spec _) (conj Hc Hl)). by destruct n.
Qed.

(** Normalisation is stable: a username or email address that was
    accepted is accepted again unchanged, so reading back a stored value
    cannot fail or alter it. *)
Theorem values_normal_form `{UnicodeLaws} :
  (∀ v n, Username_new v = Ok n → Username_new (username_value n) = Ok n)
  ∧ (∀ v e, EmailAddress_new v = Ok e → EmailAddress_new (email_value e) = Ok e).
Proof.
  split.
  - intros v n [_ Hok]%Username_new_ok. by apply Username_new_of_ok.
  - intros v e [_ Hok]%EmailAddress_new_ok. by apply EmailAddress_new_of_ok.
Qed.

(** C40: every method of the aggregate keeps its invariant (legal name, email
    and hash, naive times, version at least 1), never changes its identity or
    creation time, moves the version only in [advance_version] and by one,
    and leaves the aggregate untouched when it raises. *)
Theorem user_methods_invariant `{UnicodeLaws} (op : user_op) (x x' : User) (r : result exn unit) :
  user_ok x = true → op_hash_ok op = true →
  run_user_op op x = (x', r) →
  user_ok x' = true ∧ u_id x' = u_id x ∧ u_created_at x' = u_created_at x
  ∧ u_version x' = (u_version x + match op with OpAdvanceVersion => 1 | _ => 0 end)%Z
  ∧ (is_ok r = false → x' = x ∧ r = Err InvalidUserDataError).
Proof.
  intros Hx Hh Hrun. destruct r as [[] | e].
  - destruct (user_op_ok _ _ _ Hx Hh Hrun) as (? & ? & ? & ?). by split_and!.
  - apply user_op_err in Hrun as (-> & -> & Hop). split_and!; try done.
    destruct op; lia || done.
Qed.

(** A session that was constructed is valid from its issue time included
    to its expiry excluded, hence for a positive time, and never outside. *)
Theorem session_validity (x : UserSession) (now : datetime) :
  UserSession_new x = Ok x → dt_naive now = true →
  UserSession_is_valid x now =
    Ok (bool_decide (dt_us (s_issued_at x) ≤ dt_us now < dt_us (s_expires_at x))%Z)
  ∧ (dt_us (s_issued_at x) < dt_us (s_expires_at x))%Z.
Proof.
  unfold UserSession_new, UserSession_is_valid, session_local_datetime, dt_leb, dt_ltb,
    guard, result_bind.
  intros Hx ->. repeat case_bool; simplify_eq/=; to_prop. split; [f_equal | lia].
  apply eq_true_iff_eq. rewrite andb_true_iff, Z.leb_le, Z.ltb_lt, bool_decide_eq_true. lia.
Qed.

(** ** Concrete instances *)

Definition sample_user : User :=
  {| u_id := mk_user_id (default (@mk_uuid 0 I) (uuid_of 7)); u_username := mk_username (u "alice");
     u_email := mk_email (u "alice@example.org"); u_password_hash := mk_password_hash (u "hash");
     u_status := ACTIVE; u_created_at := mk_dt 10 None; u_updated_at := mk_dt 20 None; u_version := 4 |}.

Lemma values_normal_form_witness :
  (∀ v n, Username_new (H := plain_tables) v = Ok n → Username_new (H := plain_tables) (username_value n) = Ok n)
  ∧ (∀ v e, EmailAddress_new (H := plain_tables) v = Ok e →
       EmailAddress_new (H := plain_tables) (email_value e) = Ok e).
Proof. exact (@values_normal_form plain_tables plain_tables_laws). Defined.

Lemma user_methods_invariant_witness :
  let op := OpUpdateProfile (u " Bob ") (u "BOB@x.org") (mk_dt 30 None) in
  let '(x', r) := run_user_op (H := plain_tables) op sample_user in
  is_ok r = true ∧ user_ok (H := plain_tables) x' = true ∧ u_id x' = u_id sample_user
  ∧ u_created_at x' = u_created_at sample_user ∧ u_version x' = (u_version sample_user + 0)%Z
  ∧ (is_ok r = false → x' = sample_user ∧ r = Err InvalidUserDataError).
Proof.
  intros op. destruct (run_user_op op sample_user) as [x' r] eqn:Hrun.
  split; [vm_compute in Hrun; by injection Hrun as _ <- |].
  apply (@user_methods_invariant plain_tables plain_tables_laws op sample_user x' r).
  - by vm_compute.
  - by vm_compute.
  - exact Hrun.
Defined.

Definition sample_session : UserSession :=
  mk_session (replicate 64 97%N) (u_id sample_user) (mk_dt 10 None) (mk_dt 20 None).

Lemma session_validity_witness :
  UserSession_is_valid sample_session (mk_dt 19 None) =
    Ok (bool_decide (10 ≤ 19 < 20)%Z) ∧ (10 < 20)%Z.
Proof. apply (session_validity sample_session (mk_dt 19 None)); by vm_compute. Defined.
