(* ===== verification/UserContracts.v ===== *)
(** * UserContracts: commands, DTOs and the protocols of the user context

    Models [application/dto.py], [auth_dto.py], [errors.py],
    [auth_errors.py], [login_attempts.py], [session_token.py] and the
    [Protocol] classes of [domain/repository.py],
    [domain/session_repository.py], [application/unit_of_work.py] and
    [application/password_hasher.py].  A [Protocol] is a typeclass of
    operations over a world [W]; what its doc strings promise is a second
    class of laws over an abstract [Store].  The application services are
    proved against these laws and the SQLAlchemy implementation discharges
    them. *)

From S2P Require Import Prelude Text Errors UserDomain.
Local Open Scope prog_scope.

(** ** Commands and DTOs *)

Record CreateUserCommand := mk_create_cmd { cc_username : pystr; cc_email : pystr; cc_password : pystr }.
Record UpdateUserCommand := mk_update_cmd { uc_user_id : uuid; uc_username : pystr; uc_email : pystr }.
Record ChangeUserStatusCommand := mk_status_cmd { sc_user_id : uuid; sc_status : UserStatus }.
Record ResetUserPasswordCommand := mk_reset_cmd { rc_user_id : uuid; rc_password : pystr }.

Record UserDTO := mk_user_dto {
  dto_id : uuid; dto_username : pystr; dto_email : pystr; dto_status : UserStatus;
  dto_created_at : datetime; dto_updated_at : datetime;
}.

Definition UserDTO_from_domain (x : User) : UserDTO :=
  {| dto_id := user_id_value (u_id x);
     dto_username := username_value (u_username x);
     dto_email := email_value (u_email x);
     dto_status := u_status x;
     dto_created_at := u_created_at x;
     dto_updated_at := u_updated_at x |}.

Record UserPageDTO := mk_page_dto {
  pg_items : list UserDTO; pg_total : Z; pg_offset : Z; pg_limit : Z;
}.

Record LoginCommand := mk_login_cmd { lc_username : pystr; lc_password : pystr }.

(** [InvalidCredentialsError(remaining)] rejects a non-positive count. *)
Definition invalid_credentials (remaining : option Z) : exn :=
  match remaining with
  | Some n => if (n <=? 0)%Z then ValueError else InvalidCredentialsError (Some n)
  | None => InvalidCredentialsError None
  end.
(** [LoginTemporarilyLockedError(seconds)] rejects a non-positive wait. *)
Definition login_locked (seconds : Z) : exn :=
  if (seconds <=? 0)%Z then ValueError else LoginTemporarilyLockedError seconds.

Definition LoginCommand_new (c : LoginCommand) : result exn LoginCommand :=
  let? _ := guard ((1 <=? len (lc_username c)) && (len (lc_username c) <=? 128))%Z
              (invalid_credentials None) in
  let? _ := guard ((1 <=? len (lc_password c)) && (len (lc_password c) <=? 1024))%Z
              (invalid_credentials None) in
  Ok c.

Record TokenDTO := mk_token_dto {
  tk_access_token : pystr; tk_expires_in : Z; tk_user_id : uuid; tk_token_type : pystr;
}.

(** ** Login attempts *)

Record LoginFailureStatus := mk_failure_status {
  fs_remaining_attempts : Z; fs_retry_after_seconds : option Z;
}.

Definition LoginFailureStatus_new (x : LoginFailureStatus) : result exn LoginFailureStatus :=
  let? _ := guard (0 <=? fs_remaining_attempts x)%Z ValueError in
  match fs_retry_after_seconds x with
  | None =>
      let? _ := guard (negb (fs_remaining_attempts x =? 0)%Z) ValueError in Ok x
  | Some s =>
      let? _ := guard (0 <? s)%Z ValueError in
      let? _ := guard (fs_remaining_attempts x =? 0)%Z ValueError in
      Ok x
  end.

Class LoginAttemptLimiter (W : Type) := {
  la_retry_after : pystr → io W (option Z);
  la_record_failure : pystr → io W LoginFailureStatus;
  la_clear : pystr → io W unit;
}.

(** ** Session credentials *)

Definition is_urlsafe_char (c : N) : bool := is_alnum c || (c =? 95)%N || (c =? 45)%N.
Definition token_pattern : regex := RRep (RCls is_urlsafe_char) 43 (Some 43).

Record SessionCredential := mk_credential { cr_token : pystr }.
Definition SessionCredential_new (x : SessionCredential) : result exn SessionCredential :=
  let? _ := guard (fullmatch token_pattern (cr_token x)) AuthenticationRequiredError in
  Ok x.

Class SessionTokenCodec (W : Type) := {
  tc_issue : io W SessionCredential;
  tc_digest : SessionCredential → pystr;
}.

Class PasswordHasher (W : Type) := {
  ph_hash : Password → io W PasswordHash;
  ph_verify_or_dummy : pystr → option PasswordHash → io W bool;
}.

(** ** Repositories and the unit of work *)

(** Calling a mutating method of an aggregate held in a local variable. *)
Definition mutate {W} (op : io User unit) (x : User) : io W User :=
  λ w, match op x with (x', Ok _) => (w, Ok x') | (_, Err e) => (w, Err e) end.

Inductive UserUpdateResult := UPDATED | NOT_FOUND | CONFLICT.
#[export] Instance update_result_eq_dec : EqDecision UserUpdateResult.
Proof. solve_decision. Defined.

(** [update] also advances the version of the aggregate it is given, so it
    hands the aggregate back. *)
Class UserRepository (W : Type) := {
  users_find : UserId → io W (option User);
  users_find_by_username : Username → io W (option User);
  users_exists_by_username : Username → option UserId → io W bool;
  users_exists_by_email : EmailAddress → option UserId → io W bool;
  users_find_page : Z → Z → io W (list User * Z);
  users_add : User → io W unit;
  users_update : User → io W (UserUpdateResult * User);
  users_remove : UserId → io W bool;
}.

Class SessionRepository (W : Type) := {
  sessions_find : pystr → io W (option UserSession);
  sessions_add : UserSession → io W unit;
  sessions_remove : pystr → io W unit;
  sessions_remove_for_user : UserId → io W Z;
  sessions_remove_expired : datetime → io W Z;
}.

Class UserUnitOfWork (W : Type) := {
  uow_users :: UserRepository W;
  uow_sessions :: SessionRepository W;
  uow_enter : io W unit;                   (* __aenter__ *)
  uow_exit : option exn → io W unit;       (* __aexit__ *)
  uow_commit : io W unit;
}.

(** [async with factory() as uow: body].  [__aexit__] sees the exception of
    the body; what it raises itself replaces the outcome. *)
Definition with_uow {W A} `{UserUnitOfWork W} (body : io W A) : io W A :=
  uow_enter;;;
  let* r := attempt body in
  uow_exit (result_err r);;;
  lift r.

(** ** What the protocols promise *)

Record Store := mk_store {
  st_users : gmap UserId User;
  st_sessions : gmap pystr UserSession;
}.

Definition set_users (f : gmap UserId User → gmap UserId User) (s : Store) : Store :=
  {| st_users := f (st_users s); st_sessions := st_sessions s |}.
Definition set_sessions (f : gmap pystr UserSession → gmap pystr UserSession) (s : Store) : Store :=
  {| st_users := st_users s; st_sessions := f (st_sessions s) |}.

Definition session_of (i : UserId) (x : UserSession) : Prop := s_user_id x = i.
Definition session_expired (now : datetime) (x : UserSession) : Prop :=
  (dt_us (s_expires_at x) ≤ dt_us now)%Z.

#[export] Instance session_of_dec i x : Decision (session_of i x).
Proof. unfold session_of. apply _. Defined.
#[export] Instance session_expired_dec now x : Decision (session_expired now x).
Proof. unfold session_expired. apply _. Defined.

(** Deleting sessions by a condition, and the number deleted. *)
Definition drop_sessions (P : UserSession → Prop) `{∀ x, Decision (P x)} (s : Store) : Store :=
  set_sessions (filter (λ kv, ¬ P kv.2)) s.
Definition count_sessions (P : UserSession → Prop) `{∀ x, Decision (P x)} (s : Store) : Z :=
  Z.of_nat (size (filter (λ kv, P kv.2) (st_sessions s))).

(** The row a successful [update] leaves: everything but the identity and
    the creation time comes from the aggregate, and the version moves on. *)
Definition updated_row (row x : User) : User :=
  {| u_id := u_id row; u_username := u_username x; u_email := u_email x;
     u_password_hash := u_password_hash x; u_status := u_status x;
     u_created_at := u_created_at row; u_updated_at := u_updated_at x;
     u_version := (u_version x + 1)%Z |}.

(** Every stored aggregate satisfies its invariant and is stored under its
    own key; usernames and email addresses are unique. *)
Definition store_ok `{UnicodeTables} (s : Store) : Prop :=
  (∀ i x, st_users s !! i = Some x → u_id x = i ∧ user_ok x = true) ∧
  (∀ t x, st_sessions s !! t = Some x → s_token_digest x = t ∧ session_ok x = true).
Definition store_unique (s : Store) : Prop :=
  ∀ i j x y, st_users s !! i = Some x → st_users s !! j = Some y →
    u_username x = u_username y ∨ u_email x = u_email y → i = j.

(** Two users share the value of the unique column [f]. *)
Definition shared (f : conflict_field) (s : Store) : Prop :=
  ∃ i j x y, i ≠ j ∧ st_users s !! i = Some x ∧ st_users s !! j = Some y ∧
    match f with
    | FieldUsername => u_username x = u_username y
    | FieldEmail => u_email x = u_email y
    end.

Lemma shared_users f s s' : st_users s = st_users s' → shared f s → shared f s'.
Proof. unfold shared. by intros ->. Qed.
Lemma unique_not_shared f s : store_unique s → ¬ shared f s.
Proof. intros Hu (i & j & x & y & Hne & Hx & Hy & Hf). apply Hne, (Hu i j x y Hx Hy). destruct f; auto. Qed.

(** Exceptions of the database layer, as opposed to those the user context
    raises itself and those only an HTTP endpoint raises. *)
Definition foreign (e : exn) : bool :=
  match e with
  | InvalidUserDataError | UserNotFoundError _ | UserConflictError _ | ConcurrentUserUpdateError _
  | InvalidCredentialsError _ | LoginTemporarilyLockedError _ | AuthenticationRequiredError
  | HttpError _ _ _ _ | RequestValidationError _ | HTTPException _ _ _ => false
  | _ => true
  end.

(** What other transactions may do to the store between two statements of
    ours: at least every write of a row they make moves its version on. *)
Class Rely (R : relation Store) : Prop := {
  rely_preorder :: PreOrder R;
  rely_version s s' i x y :
    R s s' → st_users s !! i = Some x → st_users s' !! i = Some y →
    y = x ∨ (u_version x < u_version y)%Z;
}.

(** Nobody else writes; others only update rows, insert rows and touch
    sessions. *)
#[export] Instance rely_alone : Rely (=).
Proof. split; [apply _ |]. intros s s' i x y -> Hx Hy. left. congruence. Qed.

Definition others_update (s s' : Store) : Prop :=
  ∀ i x, st_users s !! i = Some x →
    ∃ y, st_users s' !! i = Some y ∧ (y = x ∨ (u_version x < u_version y)%Z).

#[export] Instance rely_others_update : Rely others_update.
Proof.
  split; [split |].
  - intros s i x Hx. eauto.
  - intros s1 s2 s3 H12 H23 i x Hx. destruct (H12 i x Hx) as (y & Hy & Hxy).
    destruct (H23 i y Hy) as (z & Hz & Hyz). exists z. split; [done |].
    destruct Hxy as [-> | ?], Hyz as [-> | ?]; auto; right; lia.
  - intros s s' i x y HR Hx Hy. destruct (HR i x Hx) as (z & Hz & ?). naive_solver.
Qed.

(** The order of a page: newest first, ties by descending identifier. *)
Definition page_before (x y : User) : bool :=
  (dt_us (u_created_at y) <? dt_us (u_created_at x))%Z
  || ((dt_us (u_created_at y) =? dt_us (u_created_at x))%Z
      && text_leb (uuid_str (user_id_value (u_id y))) (uuid_str (user_id_value (u_id x)))).

(** [page]: the requested slice of all users in page order. *)
Definition page_of (s : Store) (offset limit : Z) (page : list User) : Prop :=
  ∃ all, all ≡ₚ (map_to_list (st_users s)).*2 ∧ Sorted page_before all ∧
         page = take (Z.to_nat limit) (drop (Z.to_nat offset) all).

(** What a failed statement raised: a foreign exception, which reports a
    violation of a unique column ([conflict_of]) only of one that is shared,
    as [P] says. *)
Definition stmt_error (conflict_of : exn → option conflict_field) (P : conflict_field → Prop) (e : exn) : Prop :=
  foreign e = true ∧ ∀ f, conflict_of e = Some f → P f.

(** A statement inside a transaction: others move both stores first, then it
    takes effect as [post] says, or it fails. *)
Definition tx_op {W A} (conflict_of : exn → option conflict_field) (in_tx : W → Store → Store → Prop)
    (R : relation Store) (m : io W A) (post : Store → Store → A → Prop) : Prop :=
  ∀ w d s, in_tx w d s →
    wp m (λ r w', ∃ d' s1, R d d' ∧ R s s1 ∧
      match r with
      | Ok a => ∃ s2, post s1 s2 a ∧ in_tx w' d' s2
      | Err e => stmt_error conflict_of (λ f, shared f s1) e ∧ in_tx w' d' s1
      end) w.

(** Optimistic update: it replaces the row [s1] holds only when that row has
    the version of the aggregate.  [CONFLICT] means that at an earlier moment
    [s0] no row had it, although the user exists. *)
Definition update_post (x : User) (s0 s1 s2 : Store) (a : UserUpdateResult * User) : Prop :=
  match a with
  | (UPDATED, y) => ∃ row, st_users s1 !! u_id x = Some row ∧ u_version row = u_version x
      ∧ s2 = set_users (insert (u_id x) (updated_row row x)) s1
      ∧ y = with_version (u_version x + 1) x
  | (CONFLICT, y) => y = x ∧ s2 = s1 ∧ is_Some (st_users s1 !! u_id x)
      ∧ ∀ row, st_users s0 !! u_id x = Some row → u_version row ≠ u_version x
  | (NOT_FOUND, y) => y = x ∧ s2 = s1 ∧ st_users s1 !! u_id x = None
  end.

(** Laws of the unit of work.  [idle w d]: no transaction is open and [d] is
    committed.  [in_tx w d s]: a transaction is open, [d] is committed and
    the transaction sees [s].  [conflict_of e]: the unique column whose
    violation the foreign exception [e] reports, if it does. *)
Class UowLaws (W : Type) `{UnicodeTables, U : UserUnitOfWork W} (R : relation Store) := {
  idle : W → Store → Prop;
  in_tx : W → Store → Store → Prop;
  conflict_of : exn → option conflict_field;
  uow_rely :: Rely R;
  conflict_of_foreign e f : conflict_of e = Some f → foreign e = true;
  in_tx_ok w d s : in_tx w d s → store_ok s;
  idle_unique w d : idle w d → store_ok d ∧ store_unique d;

  enter_law w d : idle w d →
    wp uow_enter (λ r w', ∃ d', R d d' ∧
      match r with Ok _ => in_tx w' d' d' | Err e => foreign e = true ∧ idle w' d' end) w;
  exit_law w d s eo : in_tx w d s →
    wp (uow_exit eo) (λ r w', ∃ d', R d d' ∧ idle w' d' ∧
      match r with
      | Ok _ => True
      | Err e => foreign e = true ∨
          ∃ e0 f, eo = Some e0 ∧ conflict_of e0 = Some f ∧ e = UserConflictError f
      end) w;
  commit_law w d s : in_tx w d s →
    wp uow_commit (λ r w',
      match r with
      | Ok _ => ∃ s', R s s' ∧ store_unique s' ∧ in_tx w' s' s'
      | Err e => (∃ d' s', R d d' ∧ in_tx w' d' s') ∧
                 (foreign e = true ∧ conflict_of e = None
                  ∨ ∃ f s', e = UserConflictError f ∧ R s s' ∧ shared f s')
      end) w;

  find_law i :
    tx_op conflict_of in_tx R (users_find i) (λ s s' a, s' = s ∧ a = st_users s !! i);
  find_by_username_law n :
    tx_op conflict_of in_tx R (users_find_by_username n) (λ s s' a, s' = s ∧
      match a with
      | Some x => st_users s !! u_id x = Some x ∧ u_username x = n
      | None => ∀ i x, st_users s !! i = Some x → u_username x ≠ n
      end);
  exists_by_username_law n excl :
    tx_op conflict_of in_tx R (users_exists_by_username n excl) (λ s s' a, s' = s ∧
      (a = true ↔ ∃ i x, st_users s !! i = Some x ∧ u_username x = n ∧ excl ≠ Some i));
  exists_by_email_law n excl :
    tx_op conflict_of in_tx R (users_exists_by_email n excl) (λ s s' a, s' = s ∧
      (a = true ↔ ∃ i x, st_users s !! i = Some x ∧ u_email x = n ∧ excl ≠ Some i));
  find_page_law offset limit w d s : in_tx w d s →
    wp (users_find_page offset limit) (λ r w', ∃ d' s0 s1, R d d' ∧ R s s0 ∧ R s0 s1 ∧ in_tx w' d' s1 ∧
      match r with
      | Ok a => a.2 = Z.of_nat (size (st_users s0)) ∧ page_of s1 offset limit a.1
      | Err e => stmt_error conflict_of (λ f, shared f s1) e
      end) w;
  add_law x : user_ok x = true →
    tx_op conflict_of in_tx R (users_add x) (λ s s' _,
      st_users s !! u_id x = None → s' = set_users (insert (u_id x) x) s);
  update_law x w d s : user_ok x = true → in_tx w d s →
    wp (users_update x) (λ r w', ∃ d' s0 s1, R d d' ∧ R s s0 ∧ R s0 s1 ∧
      match r with
      | Ok a => ∃ s2, update_post x s0 s1 s2 a ∧ in_tx w' d' s2
      | Err e => in_tx w' d' s1 ∧ stmt_error conflict_of
          (λ f, shared f s1 ∨ ∃ s2 y, update_post x s0 s1 s2 (UPDATED, y) ∧ shared f s2) e
      end) w;
  remove_law i :
    tx_op conflict_of in_tx R (users_remove i) (λ s s' a,
      match st_users s !! i with
      | Some _ => s' = drop_sessions (session_of i) (set_users (delete i) s) ∧ a = true
      | None => s' = s ∧ a = false
      end);
  session_find_law t :
    tx_op conflict_of in_tx R (sessions_find t) (λ s s' a, s' = s ∧ a = st_sessions s !! t);
  session_add_law x : session_ok x = true →
    tx_op conflict_of in_tx R (sessions_add x) (λ s s' _,
      st_sessions s !! s_token_digest x = None →
      s' = set_sessions (insert (s_token_digest x) x) s);
  session_remove_law t :
    tx_op conflict_of in_tx R (sessions_remove t) (λ s s' _, s' = set_sessions (delete t) s);
  session_remove_for_user_law i :
    tx_op conflict_of in_tx R (sessions_remove_for_user i) (λ s s' a,
      s' = drop_sessions (session_of i) s ∧ a = count_sessions (session_of i) s);
  session_remove_expired_law now :
    tx_op conflict_of in_tx R (sessions_remove_expired now) (λ s s' a,
      s' = drop_sessions (session_expired now) s ∧ a = count_sessions (session_expired now) s);
}.
