(* ===== verification/UserPersistence.v ===== *)
(** * UserPersistence: the SQLAlchemy implementation of the user protocols

    Models [infrastructure/persistence/mapper.py], [repository.py],
    [session_repository.py], [unit_of_work.py] and the two table models.
    What the code calls on an [AsyncSession] is the class [UserDatabase]: a
    statement is given as its condition on rows and its new values, i.e. the
    shallow embedding of the SQLAlchemy expression.  [SqlLaws] states what
    the code relies on of the database; the end of the file discharges the
    contract [UowLaws] of [UserContracts] from it. *)

From S2P Require Import Prelude Text Errors UserDomain UserContracts.
Local Open Scope prog_scope.

(** ** Table rows *)

Record UserModel := mk_user_model {
  um_id : pystr; um_username : pystr; um_email : pystr; um_password : pystr; um_status : pystr;
  um_created_at : datetime; um_updated_at : datetime; um_version : Z;
}.
Record UserSessionModel := mk_session_model {
  sm_token_digest : pystr; sm_user_id : pystr; sm_issued_at : datetime; sm_expires_at : datetime;
}.

(** ** mapper.py *)

Definition user_to_model (x : User) : UserModel :=
  {| um_id := uuid_str (user_id_value (u_id x));
     um_username := username_value (u_username x);
     um_email := email_value (u_email x);
     um_password := password_hash_value (u_password_hash x);
     um_status := status_text (u_status x);
     um_created_at := u_created_at x;
     um_updated_at := u_updated_at x;
     um_version := u_version x |}.

(** [UserId(UUID(text))] *)
Definition user_id_of_text (t : pystr) : result exn UserId :=
  match uuid_parse t with Some i => Ok (mk_user_id i) | None => Err ValueError end.

Definition user_to_domain `{UnicodeTables} (m : UserModel) : result exn User :=
  let? i := user_id_of_text (um_id m) in
  let? n := Username_new (um_username m) in
  let? e := EmailAddress_new (um_email m) in
  let? h := PasswordHash_new (um_password m) in
  let? s := UserStatus_of (um_status m) in
  User_rehydrate i n e h s (um_created_at m) (um_updated_at m) (um_version m).

(** [user_update_values]: the columns of the UPDATE, as their effect on a row. *)
Definition user_update_values (x : User) (row : UserModel) : UserModel :=
  {| um_id := um_id row;
     um_username := username_value (u_username x);
     um_email := email_value (u_email x);
     um_password := password_hash_value (u_password_hash x);
     um_status := status_text (u_status x);
     um_created_at := um_created_at row;
     um_updated_at := u_updated_at x;
     um_version := (u_version x + 1)%Z |}.

Definition session_to_model (x : UserSession) : UserSessionModel :=
  {| sm_token_digest := s_token_digest x;
     sm_user_id := uuid_str (user_id_value (s_user_id x));
     sm_issued_at := s_issued_at x;
     sm_expires_at := s_expires_at x |}.

Definition session_to_domain (m : UserSessionModel) : result exn UserSession :=
  let? i := user_id_of_text (sm_user_id m) in
  UserSession_new {| s_token_digest := sm_token_digest m; s_user_id := i;
                     s_issued_at := sm_issued_at m; s_expires_at := sm_expires_at m |}.

(** ** The SQLAlchemy session the repositories use *)

Class UserDatabase (D : Type) := {
  sql_open : io D unit;                       (* databases.session(name).__aenter__ *)
  sql_close : option exn → io D unit;         (* and its __aexit__ *)
  sql_commit : io D unit;
  sql_rollback : io D unit;
  sql_user_get : pystr → io D (option UserModel);
  sql_user_scalar : (UserModel → bool) → io D (option UserModel);
  sql_user_scalar_id : (UserModel → bool) → io D (option pystr);
  sql_user_count : io D (option Z);
  sql_user_page : (UserModel → UserModel → bool) → Z → Z → io D (list UserModel);
  sql_user_add : UserModel → io D unit;
  sql_user_update : (UserModel → bool) → (UserModel → UserModel) → io D Z;
  sql_user_delete : (UserModel → bool) → io D Z;
  sql_session_get : pystr → io D (option UserSessionModel);
  sql_session_add : UserSessionModel → io D unit;
  sql_session_delete : (UserSessionModel → bool) → io D Z;
}.

(** A [None] row is a missing value, a found row is restored. *)
Definition restore {A B} (f : A → result exn B) (m : option A) : result exn (option B) :=
  match m with
  | Some a => let? b := f a in Ok (Some b)
  | None => Ok None
  end.

Section Repositories.
Context {D : Type} `{UnicodeTables, UserDatabase D}.

(** *** SqlAlchemyUserRepository *)
Definition repo_find (i : UserId) : io D (option User) :=
  let* model := sql_user_get (uuid_str (user_id_value i)) in
  lift (restore user_to_domain model).

Definition repo_find_by_username (n : Username) : io D (option User) :=
  let* model := sql_user_scalar (λ m, bool_decide (um_username m = username_value n)) in
  lift (restore user_to_domain model).

Definition not_excluded (excluding : option UserId) (m : UserModel) : bool :=
  match excluding with
  | Some i => negb (bool_decide (um_id m = uuid_str (user_id_value i)))
  | None => true
  end.

Definition repo_exists_by_username (n : Username) (excluding : option UserId) : io D bool :=
  let* found := sql_user_scalar_id
    (λ m, bool_decide (um_username m = username_value n) && not_excluded excluding m) in
  ret (bool_decide (found ≠ None)).

Definition repo_exists_by_email (e : EmailAddress) (excluding : option UserId) : io D bool :=
  let* found := sql_user_scalar_id
    (λ m, bool_decide (um_email m = email_value e) && not_excluded excluding m) in
  ret (bool_decide (found ≠ None)).

(** [order_by(created_at.desc(), id.desc())] *)
Definition model_before (a b : UserModel) : bool :=
  (dt_us (um_created_at b) <? dt_us (um_created_at a))%Z
  || ((dt_us (um_created_at b) =? dt_us (um_created_at a))%Z && text_leb (um_id b) (um_id a)).

Definition repo_find_page (offset limit : Z) : io D (list User * Z) :=
  let* total := sql_user_count in
  let* models := sql_user_page model_before offset limit in
  let* users := lift (map_result user_to_domain models) in
  ret (users, default 0%Z total).

Definition repo_add (x : User) : io D unit := sql_user_add (user_to_model x).

Definition repo_update (x : User) : io D (UserUpdateResult * User) :=
  let user_id := uuid_str (user_id_value (u_id x)) in
  let* rowcount := sql_user_update
    (λ m, bool_decide (um_id m = user_id) && (um_version m =? u_version x)%Z)
    (user_update_values x) in
  if (rowcount =? 1)%Z then
    let* x := mutate User_advance_version x in ret (UPDATED, x)
  else
    let* found := sql_user_scalar_id (λ m, bool_decide (um_id m = user_id)) in
    ret (if bool_decide (found ≠ None) then CONFLICT else NOT_FOUND, x).

Definition repo_remove (i : UserId) : io D bool :=
  let* rowcount := sql_user_delete (λ m, bool_decide (um_id m = uuid_str (user_id_value i))) in
  ret (rowcount =? 1)%Z.

(** *** SqlAlchemySessionRepository *)
Definition srepo_find (t : pystr) : io D (option UserSession) :=
  let* model := sql_session_get t in
  lift (restore session_to_domain model).
Definition srepo_add (x : UserSession) : io D unit := sql_session_add (session_to_model x).
Definition srepo_remove (t : pystr) : io D unit :=
  sql_session_delete (λ m, bool_decide (sm_token_digest m = t));;; ret tt.
Definition srepo_remove_for_user (i : UserId) : io D Z :=
  sql_session_delete (λ m, bool_decide (sm_user_id m = uuid_str (user_id_value i))).
Definition srepo_remove_expired (now : datetime) : io D Z :=
  sql_session_delete (λ m, dt_leb (sm_expires_at m) now).
End Repositories.

(** ** _resolve_user_conflict_field *)

Definition user_unique_constraints (name : pystr) : option conflict_field :=
  if bool_decide (name = u "uq_users_username" ∨ name = u "users_username_key") then Some FieldUsername
  else if bool_decide (name = u "uq_users_email" ∨ name = u "users_email_key") then Some FieldEmail
  else None.
Definition sqlite_unique_columns (text : pystr) : option conflict_field :=
  if bool_decide (text = u "UNIQUE constraint failed: users.username") then Some FieldUsername
  else if bool_decide (text = u "UNIQUE constraint failed: users.email") then Some FieldEmail
  else None.

(** [sqlite3.SQLITE_CONSTRAINT_UNIQUE] *)
Definition SQLITE_CONSTRAINT_UNIQUE : Z := 2067.

(** The value of [a or b] for optional texts: an empty text is false. *)
Definition or_text (a b : option pystr) : option pystr :=
  match a with Some (_ :: _) => a | _ => b end.

(** One round of the loop over the candidates; [Some r] leaves the loop. *)
Definition postgresql_candidate (c : option diag) : option (option conflict_field) :=
  match c with
  | None => None
  | Some d =>
      if bool_decide (dg_table d ≠ None ∧ dg_table d ≠ Some (u "users")) then Some None
      else match dg_constraint d with
           | Some name => Some (user_unique_constraints name)
           | None => None
           end
  end.
Fixpoint first_decided {A} (l : list (option (option A))) : option A :=
  match l with
  | [] => None
  | Some r :: _ => r
  | None :: l => first_decided l
  end.
Definition postgresql_conflict_field (o : driver_error) : option conflict_field :=
  first_decided (map postgresql_candidate [snd <$> de_cause o; de_diag o; Some (de_self o)]).

Definition is_sql_quote (c : N) : bool := (c =? 39)%N || (c =? 96)%N.
Definition RText (s : pystr) : regex := foldr (λ c r, RCat (RChr c) r) REps s.
Definition mysql_prefix : regex :=
  RCat (RText (u "Duplicate entry ")) (RCat (RRep (RCls (λ _, true)) 0 None) (RText (u " for key "))).
(** The longest prefix of the reversed text that holds no quote. *)
Fixpoint span_key (s : pystr) : pystr * pystr :=
  match s with
  | c :: s' => if is_sql_quote c then ([], s) else let '(a, b) := span_key s' in (c :: a, b)
  | [] => ([], [])
  end.
(** [_MYSQL_DUPLICATE_KEY.fullmatch(s).group("key")], read from the end. *)
Definition mysql_key (s : pystr) : option pystr :=
  match reverse s with
  | q2 :: rest =>
      if is_sql_quote q2 then
        match span_key rest with
        | (k :: ks, q1 :: before) =>
            if fullmatch mysql_prefix (reverse before) then Some (reverse (k :: ks)) else None
        | _ => None
        end
      else None
  | [] => None
  end.
Definition mysql_conflict_field (o : driver_error) : option conflict_field :=
  match de_args o with
  | [_; ArgStr text] =>
      match mysql_key text with
      | Some key => user_unique_constraints (removeprefix (u "users.") key)
      | None => None
      end
  | _ => None
  end.

Definition resolve_user_conflict_field (orig : option driver_error) : option conflict_field :=
  match orig with
  | None => None
  | Some o =>
      if bool_decide (de_sqlite_errorcode o = Some SQLITE_CONSTRAINT_UNIQUE)
      then sqlite_unique_columns (de_text o)
      else
        let sqlstate := or_text (or_text (de_sqlstate o) (de_pgcode o)) (de_cause o ≫= fst) in
        if bool_decide (sqlstate = Some (u "23505")) then postgresql_conflict_field o
        else match de_args o with
             | ArgInt z :: _ => if (z =? 1062)%Z then mysql_conflict_field o else None
             | _ => None
             end
  end.

(** ** SqlAlchemyUserUnitOfWork *)

Record UowFields := mk_uow {
  uo_context : bool; uo_session : bool; uo_users : bool; uo_sessions : bool;
}.
Definition uow_fresh : UowFields := mk_uow false false false false.

Section UnitOfWork.
Context {D : Type} {T : UnicodeTables} {DB : UserDatabase D}.
Abbreviation W := (UowFields * D)%type.

(** A call on the session leaves the fields of the unit of work alone. *)
Definition on_db {A} (m : io D A) : io W A :=
  λ w, let '(d, r) := m w.2 in ((w.1, d), r).
Definition set_fields (f : UowFields → UowFields) : io W unit := modify (λ w, (f w.1, w.2)).

(** The properties [users] and [sessions]. *)
Definition uow_users_ref : io W unit :=
  let* f := read fst in if uo_users f then ret tt else raise RuntimeError.
Definition uow_sessions_ref : io W unit :=
  let* f := read fst in if uo_sessions f then ret tt else raise RuntimeError.

Definition uow_aenter : io W unit :=
  set_fields (λ f, mk_uow true (uo_session f) (uo_users f) (uo_sessions f));;;
  on_db sql_open;;;
  set_fields (λ _, mk_uow true true true true).

(** [cleanup_errors] of [__aexit__]: roll back after an exception, then
    close; each step runs whatever the other does. *)
Definition aexit_cleanup (f : UowFields) (eo : option exn) : io W (list exn) :=
  let* r1 := attempt (when (uo_session f && bool_decide (is_Some eo)) (on_db sql_rollback)) in
  let* r2 := attempt (when (uo_context f) (on_db (sql_close eo))) in
  ret (option_list (result_err r1) ++ option_list (result_err r2)).

Definition uow_aexit (eo : option exn) : io W unit :=
  let* f := read fst in
  let* errors := aexit_cleanup f eo in
  set_fields (λ _, uow_fresh);;;
  match errors with
  | _ :: _ => raise (ExceptionGroup (option_list eo ++ errors))
  | [] =>
      match eo with
      | Some (IntegrityError orig) =>
          match resolve_user_conflict_field orig with
          | Some field => raise (UserConflictError field)
          | None => ret tt
          end
      | _ => ret tt
      end
  end.

(** The [except IntegrityError] clause of [commit]. *)
Definition commit_failed (e : exn) : io W unit :=
  match e with
  | IntegrityError orig =>
      let* r := attempt (on_db sql_rollback) in
      match r with
      | Err e' => raise (ExceptionGroup [e; e'])
      | Ok _ =>
          match resolve_user_conflict_field orig with
          | Some field => raise (UserConflictError field)
          | None => raise e
          end
      end
  | _ => raise e
  end.

Definition uow_commit_sql : io W unit :=
  let* f := read fst in
  (if uo_session f then ret tt else raise RuntimeError);;;
  catch (on_db sql_commit) commit_failed.

#[export] Instance sql_users : UserRepository W := {
  users_find i := uow_users_ref;;; on_db (repo_find i);
  users_find_by_username n := uow_users_ref;;; on_db (repo_find_by_username n);
  users_exists_by_username n x := uow_users_ref;;; on_db (repo_exists_by_username n x);
  users_exists_by_email n x := uow_users_ref;;; on_db (repo_exists_by_email n x);
  users_find_page o l := uow_users_ref;;; on_db (repo_find_page o l);
  users_add x := uow_users_ref;;; on_db (repo_add x);
  users_update x := uow_users_ref;;; on_db (repo_update x);
  users_remove i := uow_users_ref;;; on_db (repo_remove i);
}.
#[export] Instance sql_sessions : SessionRepository W := {
  sessions_find t := uow_sessions_ref;;; on_db (srepo_find t);
  sessions_add x := uow_sessions_ref;;; on_db (srepo_add x);
  sessions_remove t := uow_sessions_ref;;; on_db (srepo_remove t);
  sessions_remove_for_user i := uow_sessions_ref;;; on_db (srepo_remove_for_user i);
  sessions_remove_expired now := uow_sessions_ref;;; on_db (srepo_remove_expired now);
}.
(** The factory builds a new unit of work for every [async with]. *)
#[export] Instance sql_uow : UserUnitOfWork W := {
  uow_enter := set_fields (λ _, uow_fresh);;; uow_aenter;
  uow_exit := uow_aexit;
  uow_commit := uow_commit_sql;
}.
End UnitOfWork.

(** ** Helper lemmas *)

Definition no_quote (s : pystr) : bool := forallb (λ c, negb (is_sql_quote c)) s.

Lemma span_key_app a q b :
  no_quote a = true → is_sql_quote q = true → span_key (a ++ q :: b) = (a, q :: b).
Proof.
  intros Ha Hq. induction a as [| c a IH]; simpl; [by rewrite Hq |].
  simpl in Ha. apply andb_true_iff in Ha as [Hc%negb_true_iff Ha]. by rewrite Hc, IH.
Qed.

Lemma span_key_spec s a b :
  span_key s = (a, b) → s = a ++ b ∧ no_quote a = true ∧ (∀ q b', b = q :: b' → is_sql_quote q = true).
Proof.
  revert a b. induction s as [| c s IH]; simpl; intros a b; [by intros [= <- <-] |].
  destruct (is_sql_quote c) eqn:Hc; [intros [= <- <-]; split_and!; by naive_solver |].
  destruct (span_key s) as [a' b'] eqn:Hs. intros [= <- <-].
  destruct (IH _ _ eq_refl) as (-> & Ha & Hb). simpl. by rewrite Hc.
Qed.

Lemma matches_text t s : matches (RText t) s ↔ s = t.
Proof.
  revert s. induction t as [| c t IH]; simpl; intros s.
  - split; [by inversion 1 | intros ->; constructor].
  - rewrite matches_cat. unfold RChr. setoid_rewrite cls_matches. setoid_rewrite IH. split.
    + intros (s1 & s2 & -> & (d & -> & Hd%N.eqb_eq) & ->). by subst.
    + intros ->. exists [c], t. split_and!; auto. exists c. by rewrite N.eqb_refl.
Qed.

Lemma mysql_prefix_spec s :
  fullmatch mysql_prefix s = true ↔ ∃ mid, s = u "Duplicate entry " ++ mid ++ u " for key ".
Proof.
  rewrite fullmatch_spec. unfold mysql_prefix. rewrite matches_cat. split.
  - intros (s1 & s2 & -> & ->%matches_text & H2).
    apply matches_cat in H2 as (s3 & s4 & -> & _ & ->%matches_text). by exists s3.
  - intros (mid & ->). eexists _, _. split_and!; [done | by apply matches_text |].
    apply matches_cat. exists mid, (u " for key "). split_and!; [done | | by apply matches_text].
    apply cls_rep_matches. split; [| done]. clear. by induction mid.
Qed.

(** The group the regular expression captures, read from either end. *)
Lemma mysql_key_spec s k :
  mysql_key s = Some k ↔
  ∃ mid q1 q2, s = (u "Duplicate entry " ++ mid ++ u " for key ") ++ q1 :: k ++ [q2]
    ∧ is_sql_quote q1 = true ∧ is_sql_quote q2 = true ∧ k ≠ [] ∧ no_quote k = true.
Proof.
  unfold mysql_key. split.
  - destruct (reverse s) as [| q2 rest] eqn:Hs; [done |]. destruct (is_sql_quote q2) eqn:Hq2; [| done].
    destruct (span_key rest) as [[| c ks] [| q1 before]] eqn:Hspan; try done.
    destruct (fullmatch _ _) eqn:Hm; [| done]. intros [= <-].
    apply span_key_spec in Hspan as (-> & Hk & Hq). apply mysql_prefix_spec in Hm as [mid Hmid].
    exists mid, q1, q2. split_and!; eauto.
    + rewrite <- Hmid. apply (inj reverse). rewrite Hs.
      by rewrite reverse_app, reverse_cons, reverse_app, !reverse_involutive, <- !app_assoc.
    + intros Heq%(f_equal length). rewrite length_reverse in Heq. done.
    + unfold no_quote. by rewrite forallb_reverse.
  - intros (mid & q1 & q2 & -> & Hq1 & Hq2 & Hne & Hk).
    rewrite reverse_app, reverse_cons, reverse_app, <- !app_assoc. simpl. rewrite Hq2.
    rewrite span_key_app by (by unfold no_quote; rewrite ?forallb_reverse || done).
    destruct (reverse k) as [| c ks] eqn:Hr.
    { apply (f_equal reverse) in Hr. rewrite reverse_involutive in Hr. done. }
    rewrite reverse_involutive, (proj2 (mysql_prefix_spec _)) by by exists mid.
    by rewrite <- Hr, reverse_involutive.
Qed.

(** ** Properties *)

(** The field a constraint name stands for. *)
Definition field_column (f : conflict_field) : pystr :=
  match f with FieldUsername => u "username" | FieldEmail => u "email" end.
Definition names_constraint (f : conflict_field) (name : pystr) : Prop :=
  name = u "uq_users_" ++ field_column f ∨ name = u "users_" ++ field_column f ++ u "_key".

Lemma user_unique_constraints_spec name f :
  user_unique_constraints name = Some f ↔ names_constraint f name.
Proof.
  unfold user_unique_constraints, names_constraint.
  destruct f; repeat case_bool_decide; split; intros; destruct_or?; subst; try done; auto; naive_solver.
Qed.

Lemma sqlite_unique_columns_spec t f :
  sqlite_unique_columns t = Some f ↔ t = u "UNIQUE constraint failed: users." ++ field_column f.
Proof.
  unfold sqlite_unique_columns. destruct f; repeat case_bool_decide; split; intros; subst; try done; naive_solver.
Qed.

(** An integrity error is reported as a conflict on a column exactly when
    the driver of one of the three databases says so: SQLite by its extended
    code and message, PostgreSQL by SQLSTATE 23505 and the constraint of the
    first diagnostic object that has one for table [users], MySQL by error
    1062 and the index name in its message.  Anything else is no conflict. *)
Lemma conflict_field_resolution_iff (o : driver_error) (f : conflict_field) :
  let sqlite := de_sqlite_errorcode o = Some SQLITE_CONSTRAINT_UNIQUE in
  let state := or_text (or_text (de_sqlstate o) (de_pgcode o)) (de_cause o ≫= fst) in
  resolve_user_conflict_field (Some o) = Some f ↔
    (sqlite ∧ de_text o = u "UNIQUE constraint failed: users." ++ field_column f)
    ∨ (¬ sqlite ∧ state = Some (u "23505") ∧ postgresql_conflict_field o = Some f)
    ∨ (¬ sqlite ∧ state ≠ Some (u "23505") ∧ ∃ text key mid q1 q2,
         de_args o = [ArgInt 1062; ArgStr text]
         ∧ text = (u "Duplicate entry " ++ mid ++ u " for key ") ++ q1 :: key ++ [q2]
         ∧ is_sql_quote q1 = true ∧ is_sql_quote q2 = true ∧ key ≠ [] ∧ no_quote key = true
         ∧ names_constraint f (removeprefix (u "users.") key)).
Proof.
  intros sqlite state. unfold resolve_user_conflict_field. fold state.
  case_bool_decide as Hsq; [rewrite sqlite_unique_columns_spec; naive_solver |].
  case_bool_decide as Hst; [naive_solver |].
  transitivity (∃ text key, de_args o = [ArgInt 1062; ArgStr text] ∧ mysql_key text = Some key
    ∧ names_constraint f (removeprefix (u "users.") key)).
  - setoid_rewrite <- user_unique_constraints_spec. unfold mysql_conflict_field.
    destruct (de_args o) as [| [z | t0 | ] [| [z' | text |] [| a rest]]]; try naive_solver;
      destruct (z =? 1062)%Z eqn:Hz; to_prop; try naive_solver.
    subst z. destruct (mysql_key text) as [key |] eqn:Hk; naive_solver.
  - setoid_rewrite mysql_key_spec. split.
    + intros (text & key & Ha & (mid & q1 & q2 & ?) & Hn). right; right. split_and!; auto.
      exists text, key, mid, q1, q2. naive_solver.
    + intros [[? _] | [[_ [? _]] | (_ & _ & text & key & mid & q1 & q2 & ?)]]; try done.
      exists text, key. naive_solver.
Qed.

(** What a driver reports: the extended result code and message of SQLite,
    SQLSTATE 23505 with the name of a constraint of the table, or MySQL's
    error 1062 with the name of the index. *)
Definition reports_violation (o : driver_error) (f : conflict_field) : Prop :=
  (de_sqlite_errorcode o = Some SQLITE_CONSTRAINT_UNIQUE
     ∧ de_text o = u "UNIQUE constraint failed: users." ++ field_column f)
  ∨ ((de_sqlstate o = Some (u "23505") ∨ de_pgcode o = Some (u "23505")
        ∨ ∃ d, de_cause o = Some (Some (u "23505"), d))
     ∧ ∃ d name, (de_diag o = Some d ∨ de_self o = d ∨ ∃ state, de_cause o = Some (state, d))
         ∧ (dg_table d = None ∨ dg_table d = Some (u "users"))
         ∧ dg_constraint d = Some name ∧ names_constraint f name)
  ∨ (∃ text mid q1 q2 key, de_args o = [ArgInt 1062; ArgStr text]
       ∧ text = (u "Duplicate entry " ++ mid ++ u " for key ") ++ q1 :: key ++ [q2]
       ∧ names_constraint f (removeprefix (u "users.") key)).

Lemma or_text_value a b t : or_text a b = Some t → a = Some t ∨ b = Some t.
Proof. destruct a as [[|] |]; simpl; auto. Qed.

Lemma postgresql_candidate_spec c f :
  postgresql_candidate c = Some (Some f) →
  ∃ d name, c = Some d ∧ (dg_table d = None ∨ dg_table d = Some (u "users"))
    ∧ dg_constraint d = Some name ∧ names_constraint f name.
Proof.
  unfold postgresql_candidate. destruct c as [d |]; [| done]. case_bool_decide as Ht; [done |].
  destruct (dg_constraint d) as [name |] eqn:Hc; [| done]. intros [= Hn%user_unique_constraints_spec].
  exists d, name. split_and!; auto. destruct (dg_table d) as [t |]; [right | by left].
  destruct (decide (t = u "users")) as [-> |]; [done |]. exfalso. apply Ht. split; congruence.
Qed.

(** A conflict is resolved only from an error that reports the violation. *)
Lemma resolve_reports o f : resolve_user_conflict_field (Some o) = Some f → reports_violation o f.
Proof.
  rewrite conflict_field_resolution_iff. cbv zeta. intros [[? ?] | [(_ & Hst & Hpg) | (_ & _ & text & key & mid & q1 & q2 & ?)]].
  - by left.
  - right; left. split.
    + apply or_text_value in Hst as [[-> | ->]%or_text_value | Hst]; [auto | auto |].
      destruct (de_cause o) as [[st d] |]; simplify_eq/=. right; right. by exists d.
    + unfold postgresql_conflict_field in Hpg. cbn [map first_decided] in Hpg.
      destruct (postgresql_candidate (snd <$> de_cause o)) eqn:H1; [subst; apply postgresql_candidate_spec in H1|
        destruct (postgresql_candidate (de_diag o)) eqn:H2; [subst; apply postgresql_candidate_spec in H2|
        destruct (postgresql_candidate (Some (de_self o))) eqn:H3; [subst; apply postgresql_candidate_spec in H3|done]]].
      * destruct H1 as (d & name & Hd & ?). exists d, name. split; [| done]. right; right.
        destruct (de_cause o) as [[st d'] |]; simplify_eq/=. by exists st.
      * destruct H2 as (d & name & Hd & ?). exists d, name. split; [by left | done].
      * destruct H3 as (d & name & Hd & ?). exists d, name. split; [right; left; congruence | done].
  - right; right. exists text, mid, q1, q2, key. naive_solver.
Qed.

(** Leaving the unit of work.  The references are always dropped; the
    transaction is rolled back exactly after an exception, and the session is
    closed whether or not that worked; any clean-up failure is raised
    together with the original exception; otherwise an integrity error of a
    known constraint becomes a conflict and everything else passes. *)
Theorem uow_exit_cleanup {D} {DB : UserDatabase D} (eo : option exn) (w1 : D) (r1 : result exn unit) (w2 : D)
    (r2 : result exn unit) (w : D) :
  match eo with Some _ => sql_rollback w = (w1, r1) | None => (w1, r1) = (w, Ok tt) end →
  sql_close eo w1 = (w2, r2) →
  uow_aexit eo (mk_uow true true true true, w) =
    ((uow_fresh, w2),
     match option_list (result_err r1) ++ option_list (result_err r2) with
     | [] => match eo with
             | Some (IntegrityError orig) =>
                 match resolve_user_conflict_field orig with
                 | Some f => Err (UserConflictError f)
                 | None => Ok tt
                 end
             | _ => Ok tt
             end
     | errors => Err (ExceptionGroup (option_list eo ++ errors))
     end).
Proof.
  intros H1 H2. unfold uow_aexit, aexit_cleanup. unprog. unfold on_db, set_fields, modify.
  destruct eo as [e |]; simpl; [rewrite H1 | injection H1 as -> ->]; simpl; rewrite H2;
    [destruct r1 as [[] | e1] |]; destruct r2 as [[] | e2]; simpl; try done.
  destruct e; try done. by destruct (resolve_user_conflict_field orig).
Qed.
