(* ===== verification/UserRefinement.v ===== *)
(** * UserRefinement: the SQLAlchemy implementation keeps its promises

    [SqlLaws] states the documented behaviour of SQLAlchemy sessions the
    repositories rely on, over abstract [Tables] and for any behaviour [RT]
    of concurrent transactions.  The instance at the end refines the abstract
    [Store] of [UserContracts] to these tables, so every theorem about the
    application services holds of the SQL implementation. *)

From S2P Require Import Prelude Text Errors UserDomain UserContracts UserPersistence.
Local Open Scope prog_scope.

(** ** Tables and what the database promises *)

Record Tables := mk_tables {
  tb_users : gmap pystr UserModel;
  tb_sessions : gmap pystr UserSessionModel;
}.
Definition map_users f (t : Tables) : Tables := mk_tables (f (tb_users t)) (tb_sessions t).
Definition map_sessions f (t : Tables) : Tables := mk_tables (tb_users t) (f (tb_sessions t)).

(** [UniqueConstraint("username")] and [UniqueConstraint("email")] *)
Definition tables_unique (t : Tables) : Prop :=
  ∀ i j a b, tb_users t !! i = Some a → tb_users t !! j = Some b →
    um_username a = um_username b ∨ um_email a = um_email b → i = j.

(** DELETE with the ON DELETE CASCADE of [user_sessions.user_id]. *)
Definition orphaned (where_ : UserModel → bool) (t : Tables) (m : UserSessionModel) : bool :=
  match tb_users t !! sm_user_id m with Some a => where_ a | None => false end.
Definition delete_users (where_ : UserModel → bool) (t : Tables) : Tables :=
  {| tb_users := filter (λ kv, where_ kv.2 = false) (tb_users t);
     tb_sessions := filter (λ kv, orphaned where_ t kv.2 = false) (tb_sessions t) |}.
Definition update_users (where_ : UserModel → bool) (set_ : UserModel → UserModel) : Tables → Tables :=
  map_users (fmap (λ m, if where_ m then set_ m else m)).
Definition count_rows {A} (where_ : A → bool) (m : gmap pystr A) : Z :=
  Z.of_nat (size (filter (λ kv, where_ kv.2 = true) m)).
Definition matching {A} (where_ : A → bool) (m : gmap pystr A) (a : A) : Prop :=
  where_ a = true ∧ ∃ k, m !! k = Some a.

(** Two rows share a value of a unique column. *)
Definition column_shared (f : conflict_field) (t : Tables) : Prop :=
  ∃ k k' a b, k ≠ k' ∧ tb_users t !! k = Some a ∧ tb_users t !! k' = Some b ∧
    match f with
    | FieldUsername => um_username a = um_username b
    | FieldEmail => um_email a = um_email b
    end.

(** An error of the database layer.  A driver reports the violation of a
    unique column only of one that the rows share, as [P] says. *)
Definition db_error (P : conflict_field → Prop) (e : exn) : Prop :=
  foreign e = true ∧ ∀ o f, e = IntegrityError (Some o) → reports_violation o f → P f.

Definition sql_stmt_blame {D A} (tx : D → Tables → Tables → Prop) (RT : relation Tables)
    (m : io D A) (post : Tables → Tables → A → Prop) (blame : Tables → conflict_field → Prop) : Prop :=
  ∀ w d t, tx w d t → wp m (λ r w', ∃ d' t1, RT d d' ∧ RT t t1 ∧
    match r with
    | Ok a => ∃ t2, post t1 t2 a ∧ tx w' d' t2
    | Err e => db_error (blame t1) e ∧ tx w' d' t1
    end) w.
Definition sql_stmt {D A} (tx : D → Tables → Tables → Prop) (RT : relation Tables)
    (m : io D A) (post : Tables → Tables → A → Prop) : Prop :=
  sql_stmt_blame tx RT m post (λ t f, column_shared f t).

(** Every row of [t] came from an aggregate, i.e. [t] represents a store. *)
Definition user_key (i : UserId) : pystr := uuid_str (user_id_value i).
#[export] Instance user_key_inj : Inj (=) (=) user_key.
Proof. intros [a] [b] Hab. f_equal. by apply (inj uuid_str). Qed.

Definition tables_of (s : Store) : Tables :=
  {| tb_users := kmap user_key (user_to_model <$> st_users s);
     tb_sessions := session_to_model <$> st_sessions s |}.

Class SqlLaws (D : Type) `{T : UnicodeTables, UserDatabase D} (RT : relation Tables) := {
  sql_idle : D → Tables → Prop;
  sql_tx : D → Tables → Tables → Prop;
  sql_preorder :: PreOrder RT;
  (** Others write rows the way this code does, and move the version on. *)
  sql_others_ok s t : RT (tables_of s) t → store_ok s → ∃ s', t = tables_of s' ∧ store_ok s';
  sql_others_version t t' k a b :
    RT t t' → tb_users t !! k = Some a → tb_users t' !! k = Some b →
    b = a ∨ (um_version a < um_version b)%Z;
  sql_idle_unique w d : sql_idle w d → tables_unique d;

  sql_open_law w d : sql_idle w d →
    wp sql_open (λ r w', ∃ d', RT d d' ∧
      match r with Ok _ => sql_tx w' d' d' | Err e => foreign e = true ∧ sql_idle w' d' end) w;
  sql_close_law w d t eo : sql_tx w d t →
    wp (sql_close eo) (λ r w', ∃ d', RT d d' ∧ sql_idle w' d' ∧
      match r with Ok _ => True | Err e => foreign e = true end) w;
  sql_rollback_law w d t : sql_tx w d t →
    wp sql_rollback (λ r w', ∃ d', RT d d' ∧ sql_tx w' d' d' ∧
      match r with Ok _ => True | Err e => foreign e = true end) w;
  sql_commit_law w d t : sql_tx w d t →
    wp sql_commit (λ r w', match r with
      | Ok _ => ∃ t', RT t t' ∧ tables_unique t' ∧ sql_tx w' t' t'
      | Err e => db_error (λ f, ∃ t', RT t t' ∧ column_shared f t') e ∧ ∃ d', RT d d' ∧ sql_tx w' d' d'
      end) w;

  sql_user_get_law k : sql_stmt sql_tx RT (sql_user_get k)
    (λ t t' a, t' = t ∧ a = tb_users t !! k);
  sql_user_scalar_law c : sql_stmt sql_tx RT (sql_user_scalar c)
    (λ t t' a, t' = t ∧ match a with
      | Some m => matching c (tb_users t) m
      | None => ∀ m, ¬ matching c (tb_users t) m
      end);
  sql_user_scalar_id_law c : sql_stmt sql_tx RT (sql_user_scalar_id c)
    (λ t t' a, t' = t ∧ (a ≠ None ↔ ∃ m, matching c (tb_users t) m));
  sql_user_count_law : sql_stmt sql_tx RT sql_user_count
    (λ t t' a, t' = t ∧ a = Some (Z.of_nat (size (tb_users t))));
  sql_user_page_law before offset limit :
    (∀ a b, before a b = true ∨ before b a = true) →
    sql_stmt sql_tx RT (sql_user_page before offset limit)
    (λ t t' a, t' = t ∧ ∃ all, all ≡ₚ (map_to_list (tb_users t)).*2 ∧ Sorted before all
      ∧ a = take (Z.to_nat limit) (drop (Z.to_nat offset) all));
  sql_user_add_law m : sql_stmt sql_tx RT (sql_user_add m)
    (λ t t' _, t' = match tb_users t !! um_id m with
                    | None => map_users (insert (um_id m) m) t
                    | Some _ => t                (* the commit will fail *)
                    end);
  (** An UPDATE may also violate the columns with the rows it writes. *)
  sql_user_update_law c f : sql_stmt_blame sql_tx RT (sql_user_update c f)
    (λ t t' n, t' = update_users c f t ∧ n = count_rows c (tb_users t))
    (λ t col, column_shared col t ∨ column_shared col (update_users c f t));
  sql_user_delete_law c : sql_stmt sql_tx RT (sql_user_delete c)
    (λ t t' n, t' = delete_users c t ∧ n = count_rows c (tb_users t));
  sql_session_get_law k : sql_stmt sql_tx RT (sql_session_get k)
    (λ t t' a, t' = t ∧ a = tb_sessions t !! k);
  sql_session_add_law m : sql_stmt sql_tx RT (sql_session_add m)
    (λ t t' _, t' = match tb_sessions t !! sm_token_digest m with
                    | None => map_sessions (insert (sm_token_digest m) m) t
                    | Some _ => t
                    end);
  sql_session_delete_law c : sql_stmt sql_tx RT (sql_session_delete c)
    (λ t t' n, t' = map_sessions (filter (λ kv, c kv.2 = false)) t ∧ n = count_rows c (tb_sessions t));
}.

(** ** Mapping rows *)

Lemma um_id_key x : um_id (user_to_model x) = user_key (u_id x).
Proof. done. Qed.

Lemma user_id_of_key i : user_id_of_text (user_key i) = Ok i.
Proof. unfold user_id_of_text, user_key. rewrite uuid_parse_str. by destruct i. Qed.

Lemma status_of_text s : UserStatus_of (status_text s) = Ok s.
Proof. by destruct s. Qed.

Lemma user_of_model `{UnicodeTables} x : user_ok x = true → user_to_domain (user_to_model x) = Ok x.
Proof.
  rewrite user_ok_iff. intros (Hn & He & Hh & Hc & Hu & Hv).
  unfold user_to_domain. cbn [user_to_model um_id um_username um_email um_password um_status
    um_created_at um_updated_at um_version]. fold (user_key (u_id x)).
  rewrite user_id_of_key. cbn [result_bind].
  rewrite (Username_new_of_ok _ Hn), (EmailAddress_new_of_ok _ He). cbn [result_bind].
  rewrite (proj2 (PasswordHash_new_ok _ _) (conj eq_refl Hh)). cbn [result_bind].
  rewrite status_of_text. cbn [result_bind]. unfold User_rehydrate. destruct x. by apply User_new_ok.
Qed.

Lemma session_of_model x : session_ok x = true → session_to_domain (session_to_model x) = Ok x.
Proof.
  unfold session_ok, session_to_domain, UserSession_new, session_local_datetime,
    dt_ltb, dt_leb, guard. intros [[[Hp Hi]%andb_true_iff He]%andb_true_iff Hlt]%andb_true_iff.
  apply Z.ltb_lt in Hlt. cbn [session_to_model sm_token_digest sm_user_id sm_issued_at sm_expires_at].
  fold (user_key (s_user_id x)). rewrite user_id_of_key. cbn [result_bind s_token_digest s_issued_at s_expires_at].
  rewrite Hp, Hi, He. cbn [result_bind].
  rewrite (proj2 (Z.leb_gt _ _)) by lia. by destruct x.
Qed.

#[export] Instance user_to_model_inj : Inj (=) (=) user_to_model.
Proof.
  intros x y Heq.
  pose proof (inj user_key _ _ (f_equal um_id Heq : user_key (u_id x) = user_key (u_id y))) as Hi.
  pose proof (f_equal um_username Heq) as Hn. pose proof (f_equal um_email Heq) as He.
  pose proof (f_equal um_password Heq) as Hh. pose proof (f_equal um_status Heq) as Hs.
  pose proof (f_equal um_created_at Heq) as Hc. pose proof (f_equal um_updated_at Heq) as Hv.
  pose proof (f_equal um_version Heq) as Hk. clear Heq.
  apply (f_equal UserStatus_of) in Hs. cbn [user_to_model um_status] in Hs.
  rewrite !status_of_text in Hs.
  destruct x as [? [] [] []], y as [? [] [] []]. cbn in Hi, Hn, He, Hh, Hs, Hc, Hv, Hk. congruence.
Qed.

(** ** Tables against stores *)

Lemma tables_user_lookup s i :
  tb_users (tables_of s) !! user_key i = user_to_model <$> st_users s !! i.
Proof. cbn [tables_of tb_users]. by rewrite (lookup_kmap user_key), lookup_fmap. Qed.

Lemma tables_user_some s i x :
  st_users s !! i = Some x → tb_users (tables_of s) !! user_key i = Some (user_to_model x).
Proof. intros Hx. by rewrite tables_user_lookup, Hx. Qed.

Lemma tables_user_rows s k m :
  tb_users (tables_of s) !! k = Some m ↔
  ∃ i x, k = user_key i ∧ st_users s !! i = Some x ∧ m = user_to_model x.
Proof.
  cbn [tables_of tb_users]. rewrite (lookup_kmap_Some user_key). split.
  - intros (i & -> & Hm). apply lookup_fmap_Some in Hm as (x & Hx & Hm). eauto.
  - intros (i & x & -> & Hx & ->). exists i. by rewrite lookup_fmap, Hx.
Qed.

Lemma tables_matching s c m :
  matching c (tb_users (tables_of s)) m ↔
  ∃ i x, st_users s !! i = Some x ∧ m = user_to_model x ∧ c (user_to_model x) = true.
Proof.
  unfold matching. setoid_rewrite tables_user_rows. split.
  - intros (Hc & k & i & x & -> & ? & ->). eauto.
  - intros (i & x & ? & -> & ?). eauto 10.
Qed.

Lemma tables_unique_store s : tables_unique (tables_of s) → store_unique s.
Proof.
  intros Hu i j x y Hx Hy Hxy. apply (inj user_key).
  apply (Hu _ _ (user_to_model x) (user_to_model y)); rewrite ?tables_user_lookup, ?Hx, ?Hy; try done.
  simpl. destruct Hxy as [-> | ->]; auto.
Qed.

Lemma tables_shared s f : column_shared f (tables_of s) → shared f s.
Proof.
  intros (k & k' & a & b & Hne & Ha & Hb & Hf).
  apply tables_user_rows in Ha as (i & x & -> & Hx & ->), Hb as (j & y & -> & Hy & ->).
  exists i, j, x, y. split_and!; auto; [by intros -> |].
  destruct f; cbn [user_to_model um_username um_email] in Hf;
    [destruct (u_username x), (u_username y) | destruct (u_email x), (u_email y)]; simpl in Hf; by subst.
Qed.

Lemma tables_eq t t' : tb_users t = tb_users t' → tb_sessions t = tb_sessions t' → t = t'.
Proof. destruct t, t'. simpl. congruence. Qed.

Lemma tables_user_put s i y :
  tb_users (tables_of (set_users (insert i y) s)) =
  <[user_key i := user_to_model y]> (tb_users (tables_of s)).
Proof. cbn [tables_of tb_users set_users st_users]. by rewrite fmap_insert, (kmap_insert user_key). Qed.

Lemma tables_user_insert s x :
  tables_of (set_users (insert (u_id x) x) s) =
  map_users (insert (user_key (u_id x)) (user_to_model x)) (tables_of s).
Proof. unfold tables_of, map_users, set_users. simpl. by rewrite fmap_insert, (kmap_insert user_key). Qed.

Lemma tables_session_insert s x :
  tables_of (set_sessions (insert (s_token_digest x) x) s) =
  map_sessions (insert (s_token_digest x) (session_to_model x)) (tables_of s).
Proof. unfold tables_of, map_sessions, set_sessions. simpl. by rewrite fmap_insert. Qed.

(** Filtering the image of a map is the image of filtering it. *)
Lemma filter_fmap_bool {A B} (f : A → B) (P : A → Prop) `{∀ a, Decision (P a)} (c : B → bool) (m : gmap pystr A) :
  (∀ k a, m !! k = Some a → c (f a) = true ↔ P a) →
  filter (λ kv, c kv.2 = false) (f <$> m) = f <$> filter (λ kv, ¬ P kv.2) m
  ∧ count_rows c (f <$> m) = Z.of_nat (size (filter (λ kv, P kv.2) m)).
Proof.
  intros Hc. split.
  - apply map_eq. intros k. apply option_eq. intros b.
    rewrite map_lookup_filter_Some, !lookup_fmap, !fmap_Some.
    setoid_rewrite map_lookup_filter_Some. simpl. split.
    + intros [(a & Ha & ->) Hb]. exists a. split_and!; auto.
      intros HP%(Hc _ _ Ha). congruence.
    + intros (a & [Ha HP] & ->). split; [by eexists |].
      destruct (c (f a)) eqn:E; [| done]. by apply (Hc _ _ Ha) in E.
  - unfold count_rows. f_equal.
    replace (filter (λ kv, c kv.2 = true) (f <$> m)) with (f <$> filter (λ kv, P kv.2) m);
      [by rewrite map_size_fmap |].
    apply map_eq. intros k. apply option_eq. intros b.
    rewrite map_lookup_filter_Some, !lookup_fmap, !fmap_Some.
    setoid_rewrite map_lookup_filter_Some. simpl. split.
    + intros (a & [Ha HP] & ->). split; [by eexists |]. by apply (Hc _ _ Ha).
    + intros [(a & Ha & ->) Hb]. exists a. split_and!; auto. by apply (Hc _ _ Ha).
Qed.

Lemma tables_session_drop s (P : UserSession → Prop) `{∀ x, Decision (P x)} c :
  (∀ x, c (session_to_model x) = true ↔ P x) →
  map_sessions (filter (λ kv, c kv.2 = false)) (tables_of s) = tables_of (drop_sessions P s)
  ∧ count_rows c (tb_sessions (tables_of s)) = count_sessions P s.
Proof.
  intros Hc. destruct (filter_fmap_bool session_to_model P c (st_sessions s)) as [Hf Hn]; [by intros |].
  split; [| exact Hn]. unfold map_sessions, tables_of, drop_sessions, set_sessions. simpl. by rewrite Hf.
Qed.

(** A condition that pins the identifier selects at most the row of [i]. *)
Lemma pinned_row `{UnicodeTables} s i (c : UserModel → bool) k m :
  store_ok s → (∀ m, c m = true → um_id m = user_key i) →
  tb_users (tables_of s) !! k = Some m → c m = true → k = user_key i.
Proof.
  intros [Hok _] Hpin (j & x & -> & Hx & ->)%tables_user_rows Hc.
  apply Hpin in Hc. apply Hok in Hx as [<- _]. exact Hc.
Qed.

Lemma count_pinned `{UnicodeTables} s i (c : UserModel → bool) :
  store_ok s → (∀ m, c m = true → um_id m = user_key i) →
  count_rows c (tb_users (tables_of s)) =
    match st_users s !! i with Some x => if c (user_to_model x) then 1 else 0 | None => 0 end%Z.
Proof.
  intros Hok Hpin. unfold count_rows.
  destruct (st_users s !! i) as [x |] eqn:Hx.
  - pose proof (tables_user_some _ _ _ Hx) as Hl. destruct (c (user_to_model x)) eqn:Hc.
    + replace (filter _ _) with ({[user_key i := user_to_model x]} : gmap pystr UserModel);
        [by rewrite map_size_singleton |].
      apply map_eq. intros k. apply option_eq. intros m.
      rewrite lookup_singleton_Some, map_lookup_filter_Some. cbn [snd]. split.
      * intros [<- <-]. by split.
      * intros [Hm Hcm]. assert (k = user_key i) as -> by (by eapply pinned_row). split; [done |]. rewrite Hl in Hm. congruence.
    + replace (filter _ _) with (∅ : gmap pystr UserModel); [by rewrite map_size_empty |].
      symmetry. apply map_empty_filter_2. intros k m Hm Hcm. cbn [snd] in Hcm.
      assert (k = user_key i) as -> by (by eapply pinned_row). rewrite Hl in Hm. congruence.
  - replace (filter _ _) with (∅ : gmap pystr UserModel); [by rewrite map_size_empty |].
    symmetry. apply map_empty_filter_2. intros k m Hm Hcm. cbn [snd] in Hcm.
    assert (k = user_key i) as -> by (by eapply pinned_row).
    rewrite tables_user_lookup, Hx in Hm. done.
Qed.

Lemma update_pinned `{UnicodeTables} s i (c : UserModel → bool) f y :
  store_ok s → (∀ m, c m = true → um_id m = user_key i) →
  match st_users s !! i with
  | Some x => if c (user_to_model x)
              then f (user_to_model x) = user_to_model y →
                   update_users c f (tables_of s) = tables_of (set_users (insert i y) s)
              else update_users c f (tables_of s) = tables_of s
  | None => update_users c f (tables_of s) = tables_of s
  end.
Proof.
  intros Hok Hpin.
  assert (Hsame : (∀ k m, tb_users (tables_of s) !! k = Some m → c m = false) →
    update_users c f (tables_of s) = tables_of s).
  { intros Hc. unfold update_users, map_users.
    replace (_ <$> tb_users (tables_of s)) with (tb_users (tables_of s)); [by destruct (tables_of s) |].
    rewrite <- (map_fmap_id (tb_users (tables_of s))) at 1. apply map_fmap_ext.
    intros k m Hm. by rewrite (Hc k m Hm). }
  destruct (st_users s !! i) as [x |] eqn:Hx.
  - pose proof (tables_user_some _ _ _ Hx) as Hl. destruct (c (user_to_model x)) eqn:Hc.
    + intros Hf. apply tables_eq; [| done]. apply map_eq. intros k.
      rewrite tables_user_put. unfold update_users. cbn [map_users tb_users]. rewrite lookup_fmap.
      destruct (decide (k = user_key i)) as [-> | Hne].
      * rewrite lookup_insert_eq, Hl. cbn [fmap option_fmap option_map]. by rewrite Hc, Hf.
      * rewrite lookup_insert_ne by done.
        destruct (tb_users (tables_of s) !! k) as [m |] eqn:Hm; [| done].
        cbn [fmap option_fmap option_map]. destruct (c m) eqn:Hcm; [| done].
        destruct Hne. by eapply pinned_row.
    + apply Hsame. intros k m Hm. destruct (c m) eqn:Hcm; [| done].
      assert (k = user_key i) as -> by (by eapply pinned_row). rewrite Hl in Hm. congruence.
  - apply Hsame. intros k m Hm. destruct (c m) eqn:Hcm; [| done].
    assert (k = user_key i) as -> by (by eapply pinned_row). by rewrite tables_user_lookup, Hx in Hm.
Qed.

Lemma delete_pinned `{UnicodeTables} s i :
  store_ok s →
  delete_users (λ m, bool_decide (um_id m = user_key i)) (tables_of s) =
    match st_users s !! i with
    | Some _ => tables_of (drop_sessions (session_of i) (set_users (delete i) s))
    | None => tables_of s
    end.
Proof.
  intros Hok. set (c := λ m, bool_decide (um_id m = user_key i)).
  assert (Hpin : ∀ m, c m = true → um_id m = user_key i) by (by intros m ?%bool_decide_eq_true).
  assert (Horph : ∀ x, orphaned c (tables_of s) (session_to_model x) = true ↔
    s_user_id x = i ∧ is_Some (st_users s !! i)).
  { intros x. unfold orphaned. cbn [session_to_model sm_user_id]. fold (user_key (s_user_id x)).
    rewrite tables_user_lookup. destruct (st_users s !! s_user_id x) as [y |] eqn:Hy; simpl.
    - destruct (proj1 Hok _ _ Hy) as [Hid _]. unfold c. rewrite bool_decide_eq_true.
      rewrite um_id_key, Hid. split.
      + intros Heq%(inj user_key). by rewrite <- Heq, Hy.
      + by intros [-> _].
    - split; [done |]. intros [<- [? ?]]. congruence. }
  assert (Husers : filter (λ kv, c kv.2 = false) (tb_users (tables_of s)) =
    kmap user_key (user_to_model <$> delete i (st_users s))).
  { apply map_eq. intros k. apply option_eq. intros m.
    rewrite map_lookup_filter_Some, tables_user_rows, (lookup_kmap_Some user_key). cbn [snd]. split.
    - intros [(j & x & -> & Hx & ->) Hc]. exists j. split; [done |].
      rewrite lookup_fmap, lookup_delete_ne, Hx; [done |]. intros <-.
      destruct (proj1 Hok _ _ Hx) as [Hid _]. apply bool_decide_eq_false in Hc.
      rewrite um_id_key, Hid in Hc. congruence.
    - intros (j & -> & (x & <- & Hx)%lookup_fmap_Some). apply lookup_delete_Some in Hx as [Hne Hx].
      split; [eauto |]. apply bool_decide_eq_false. rewrite um_id_key.
      intros Heq%(inj user_key). destruct (proj1 Hok _ _ Hx) as [Hid _]. congruence. }
  unfold delete_users. rewrite Husers.
  destruct (st_users s !! i) as [x |] eqn:Hx.
  - apply tables_eq; [done |].
    apply (filter_fmap_bool session_to_model (session_of i) (orphaned c (tables_of s))).
    intros k a _. rewrite Horph. unfold session_of. naive_solver.
  - rewrite delete_id by done. apply tables_eq; [done |]. cbn [tables_of tb_sessions].
    apply map_filter_id. intros k m (a & <- & Ha)%lookup_fmap_Some. simpl.
    destruct (orphaned _ _ _) eqn:E; [| done]. apply Horph in E as [_ [? ?]]. done.
Qed.

(** ** Refinement: abstract steps for every statement *)

Section Refinement.
Context {D : Type} {T : UnicodeTables} {DB : UserDatabase D} {RT : relation Tables}
  {SQ : SqlLaws D RT}.
Abbreviation W := (UowFields * D)%type.
Implicit Types (d s : Store).

Definition store_rely (s s' : Store) : Prop := RT (tables_of s) (tables_of s').

#[export] Instance store_rely_rely : Rely store_rely.
Proof.
  split.
  - split; [intros s; unfold store_rely; reflexivity | intros s1 s2 s3 ? ?; by unfold store_rely in *; etrans].
  - intros s s' i x y HR Hx%tables_user_some Hy%tables_user_some.
    destruct (sql_others_version _ _ _ _ _ HR Hx Hy) as [?%(inj user_to_model) | ?]; auto.
Qed.

(** Inside a transaction, seen from the session and from the unit of work. *)
Definition dtx (w : D) d s : Prop :=
  sql_tx w (tables_of d) (tables_of s) ∧ store_ok d ∧ store_ok s.
Definition open_fields : UowFields := mk_uow true true true true.
Definition refined_idle (w : W) d : Prop := sql_idle w.2 (tables_of d) ∧ store_ok d.
Definition refined_tx (w : W) d s : Prop := w.1 = open_fields ∧ dtx w.2 d s.

Lemma wp_on_db {A} (m : io D A) Φ (w : W) :
  wp m (λ r w', Φ r (w.1, w')) w.2 → wp (on_db m) Φ w.
Proof. unfold wp, on_db. by destruct (m w.2) as [d r]. Qed.

Lemma refined_rely d t' :
  RT (tables_of d) t' → store_ok d → ∃ d', t' = tables_of d' ∧ store_ok d' ∧ store_rely d d'.
Proof.
  intros HR Hok. destruct (sql_others_ok _ _ HR Hok) as (d' & -> & Hok'). by exists d'.
Qed.

(** The unique column an exception reports, as the unit of work reads it. *)
Definition sql_conflict_of (e : exn) : option conflict_field :=
  match e with IntegrityError orig => resolve_user_conflict_field orig | _ => None end.
Abbreviation stmt_err := (stmt_error sql_conflict_of).

Lemma db_stmt_error (P Q : conflict_field → Prop) e :
  db_error P e → (∀ f, P f → Q f) → stmt_err Q e.
Proof.
  intros [He Hd] HPQ. split; [done |]. intros f Hf. destruct e; try done. destruct orig as [o |]; [| done].
  by eapply HPQ, Hd, resolve_reports.
Qed.

(** One SQL statement of a repository operation. *)
Lemma wp_stmt_blame {A B} (m : io D A) post blame (k : A → io D B) Φ w d s :
  sql_stmt_blame sql_tx RT m post blame → dtx w d s →
  (∀ a w' d' s1 t2, store_rely d d' → store_rely s s1 → store_ok d' → store_ok s1 →
     post (tables_of s1) t2 a → sql_tx w' (tables_of d') t2 → wp (k a) Φ w') →
  (∀ e w' d' s1, store_rely d d' → store_rely s s1 → db_error (blame (tables_of s1)) e → dtx w' d' s1 →
     Φ (Err e) w') →
  wp (bind m k) Φ w.
Proof.
  intros Hm (Htx & Hd & Hs) Hok Herr. apply wp_bind. eapply wp_mono; [by apply Hm |]. cbv beta.
  intros [a | e] w' (td & t1 & Htd & Ht1 & H1);
    destruct (refined_rely _ _ Htd Hd) as (d' & -> & ? & ?);
    destruct (refined_rely _ _ Ht1 Hs) as (s1 & -> & ? & ?).
  - destruct H1 as (t2 & ? & ?). eauto.
  - destruct H1 as [? ?]. eapply (Herr e w' d' s1); eauto. by split_and!.
Qed.

Lemma wp_stmt {A B} (m : io D A) post (k : A → io D B) Φ w d s :
  sql_stmt sql_tx RT m post → dtx w d s →
  (∀ a w' d' s1 t2, store_rely d d' → store_rely s s1 → store_ok d' → store_ok s1 →
     post (tables_of s1) t2 a → sql_tx w' (tables_of d') t2 → wp (k a) Φ w') →
  (∀ e w' d' s1, store_rely d d' → store_rely s s1 → stmt_err (λ f, shared f s1) e → dtx w' d' s1 →
     Φ (Err e) w') →
  wp (bind m k) Φ w.
Proof.
  intros Hm Htx Hok Herr. eapply wp_stmt_blame; [done | done | done |].
  intros e w' d' s1 ? ? He ?. eapply Herr; eauto. eapply db_stmt_error; [done |]. intros f. apply tables_shared.
Qed.

(** What a repository operation promises, at the level of the session. *)
Definition repo_op {A} (m : io D A) (post : Store → Store → A → Prop) : Prop :=
  tx_op sql_conflict_of dtx store_rely m post.

Lemma repo_op_ret {A} (P : Store → Store → A → Prop) a w d0 d s0 s s' :
  store_rely d0 d → store_rely s0 s → P s s' a → dtx w d s' →
  wp (ret a) (λ r w', ∃ d' s1, store_rely d0 d' ∧ store_rely s0 s1 ∧
    match r with
    | Ok a => ∃ s2, P s1 s2 a ∧ dtx w' d' s2
    | Err e => stmt_err (λ f, shared f s1) e ∧ dtx w' d' s1
    end) w.
Proof. intros. apply wp_ret. exists d, s. eauto 10. Qed.

Lemma repo_op_lift {A} (P : Store → Store → A → Prop) a w d0 d s0 s s' :
  store_rely d0 d → store_rely s0 s → P s s' a → dtx w d s' →
  wp (lift (Ok a)) (λ r w', ∃ d' s1, store_rely d0 d' ∧ store_rely s0 s1 ∧
    match r with
    | Ok a => ∃ s2, P s1 s2 a ∧ dtx w' d' s2
    | Err e => stmt_err (λ f, shared f s1) e ∧ dtx w' d' s1
    end) w.
Proof. apply repo_op_ret. Qed.

(** An operation that is one statement, whose value is computed from [a]. *)
Lemma repo_op_stmt {A B} (m : io D A) post (f : A → result exn B) (P : Store → Store → B → Prop) :
  sql_stmt sql_tx RT m post →
  (∀ s t2 a, store_ok s → post (tables_of s) t2 a →
     ∃ b s2, f a = Ok b ∧ t2 = tables_of s2 ∧ store_ok s2 ∧ P s s2 b) →
  repo_op (let* a := m in lift (f a)) P.
Proof.
  intros Hm Hf w d s Htx. eapply wp_stmt; [done | done | |].
  - intros a w' d' s1 t2 Hd Hs Hd' Hs1 Hpost Htx'.
    destruct (Hf _ _ _ Hs1 Hpost) as (b & s2 & -> & -> & ? & ?).
    eapply repo_op_lift; eauto. by split_and!.
  - intros e w' d' s1 Hd Hs He Htx'. exists d', s1. by split_and!.
Qed.

(** The same for an operation that returns the outcome of its statement. *)
Lemma repo_op_direct {A} (m : io D A) post (P : Store → Store → A → Prop) :
  sql_stmt sql_tx RT m post →
  (∀ s t2 a, store_ok s → post (tables_of s) t2 a →
     ∃ s2, t2 = tables_of s2 ∧ store_ok s2 ∧ P s s2 a) →
  repo_op m P.
Proof.
  intros Hm Hf w d s (Htx & Hd & Hs). eapply wp_mono; [by apply Hm |]. cbv beta.
  intros [a | e] w' (td & t1 & Htd & Ht1 & H1);
    destruct (refined_rely _ _ Htd Hd) as (d' & -> & ? & ?);
    destruct (refined_rely _ _ Ht1 Hs) as (s1 & -> & Hs1 & ?); exists d', s1;
    (split; [done | split; [done |]]).
  - destruct H1 as (t2 & Hp & ?). destruct (Hf _ _ _ Hs1 Hp) as (s2 & -> & ? & ?).
    exists s2. by split_and!.
  - destruct H1 as [He ?]. split; [| by split_and!]. eapply db_stmt_error; [done |]. intros f. apply tables_shared.
Qed.

(** Through a property of the open unit of work. *)
Lemma refined_op {A} (m : io D A) P :
  repo_op m P → tx_op sql_conflict_of refined_tx store_rely (uow_users_ref;;; on_db m)%prog P ∧
  tx_op sql_conflict_of refined_tx store_rely (uow_sessions_ref;;; on_db m)%prog P.
Proof.
  intros Hm. split; intros [f w] d s [Hf Htx]; simpl in *; subst; unfold uow_users_ref, uow_sessions_ref;
    apply wp_bind, wp_bind; unfold wp at 1, read; simpl; apply wp_on_db; simpl;
    (eapply wp_mono; [by apply Hm |]); cbv beta; intros [a | e] w'; simpl; unfold refined_tx;
    naive_solver.
Qed.

(** *** Restoring rows *)
Lemma restore_user s i :
  store_ok s → restore user_to_domain (tb_users (tables_of s) !! user_key i) = Ok (st_users s !! i).
Proof.
  intros [Hok _]. rewrite tables_user_lookup. destruct (st_users s !! i) as [x |] eqn:Hx; [| done].
  cbn [fmap option_fmap option_map restore]. by rewrite user_of_model by by eapply Hok.
Qed.

Lemma restore_session s t :
  store_ok s → restore session_to_domain (tb_sessions (tables_of s) !! t) = Ok (st_sessions s !! t).
Proof.
  intros [_ Hok]. cbn [tables_of tb_sessions]. rewrite lookup_fmap.
  destruct (st_sessions s !! t) as [x |] eqn:Hx; [| done].
  cbn [fmap option_fmap option_map restore]. by rewrite session_of_model by by eapply Hok.
Qed.

Lemma store_ok_put s x : store_ok s → user_ok x = true → store_ok (set_users (insert (u_id x) x) s).
Proof.
  intros [Hu Hs] Hx. split; [| done]. intros i y Hy. cbn [set_users set_sessions drop_sessions st_users st_sessions] in Hy.
  apply lookup_insert_Some in Hy as [[<- <-] | [Hne Hy]]; [done | eauto].
Qed.

Lemma store_ok_put_session s x :
  store_ok s → session_ok x = true → store_ok (set_sessions (insert (s_token_digest x) x) s).
Proof.
  intros [Hu Hs] Hx. split; [done |]. intros i y Hy. cbn [set_users set_sessions drop_sessions st_users st_sessions] in Hy.
  apply lookup_insert_Some in Hy as [[<- <-] | [Hne Hy]]; [done | eauto].
Qed.

Lemma store_ok_drop s (P : UserSession → Prop) `{∀ x, Decision (P x)} :
  store_ok s → store_ok (drop_sessions P s).
Proof.
  intros [Hu Hs]. split; [done |]. intros i y Hy. cbn [set_users set_sessions drop_sessions st_users st_sessions] in Hy. apply map_lookup_filter_Some in Hy as [Hy _]. eauto.
Qed.

Lemma store_ok_delete s i : store_ok s → store_ok (set_users (delete i) s).
Proof. intros [Hu Hs]. split; [| done]. intros j y Hy. cbn [set_users set_sessions drop_sessions st_users st_sessions] in Hy. apply lookup_delete_Some in Hy as [_ Hy]. eauto. Qed.

(** *** Users *)
Lemma repo_find_op i :
  repo_op (repo_find i) (λ s s' a, s' = s ∧ a = st_users s !! i).
Proof.
  unfold repo_find. eapply repo_op_stmt; [apply sql_user_get_law |].
  intros s t2 a Hok [-> ->]. exists (st_users s !! i), s. split_and!; auto. by apply restore_user.
Qed.

Lemma matching_username s n m :
  matching (λ m, bool_decide (um_username m = username_value n)) (tb_users (tables_of s)) m ↔
  ∃ i x, st_users s !! i = Some x ∧ m = user_to_model x ∧ u_username x = n.
Proof.
  rewrite tables_matching. setoid_rewrite bool_decide_eq_true. cbn [user_to_model um_username].
  split; intros (i & x & Hx & -> & Hn); exists i, x; split_and!; auto; [| by subst].
  destruct (u_username x), n. simpl in Hn. by subst.
Qed.

Lemma repo_find_by_username_op n :
  repo_op (repo_find_by_username n) (λ s s' a, s' = s ∧
    match a with
    | Some x => st_users s !! u_id x = Some x ∧ u_username x = n
    | None => ∀ i x, st_users s !! i = Some x → u_username x ≠ n
    end).
Proof.
  unfold repo_find_by_username. eapply repo_op_stmt; [apply sql_user_scalar_law |].
  intros s t2 [m |] Hok [-> Hm].
  - apply matching_username in Hm as (i & x & Hx & -> & Hn).
    destruct (proj1 Hok _ _ Hx) as [Hid Hxok]. exists (Some x), s. split_and!; auto; [| by rewrite Hid].
    cbn [restore]. by rewrite user_of_model.
  - exists None, s. split_and!; auto. intros i x Hx Hn. apply (Hm (user_to_model x)).
    apply matching_username. eauto.
Qed.

Lemma exists_excluding (c : UserModel → bool) (P : User → Prop) s excl :
  (∀ x, c (user_to_model x) = true ↔ P x) → store_ok s →
  (∃ m, matching (λ m, c m && not_excluded excl m) (tb_users (tables_of s)) m) ↔
  ∃ i x, st_users s !! i = Some x ∧ P x ∧ excl ≠ Some i.
Proof.
  intros Hc [Hok _]. setoid_rewrite tables_matching. setoid_rewrite andb_true_iff.
  assert (Hex : ∀ i x, st_users s !! i = Some x →
    not_excluded excl (user_to_model x) = true ↔ excl ≠ Some i).
  { intros i x Hx. destruct (Hok _ _ Hx) as [<- _]. unfold not_excluded. destruct excl as [j |]; [| done].
    rewrite negb_true_iff, bool_decide_eq_false, um_id_key. fold (user_key j). split.
    - intros Hne [= ->]. by apply Hne.
    - intros Hne Heq%(inj user_key). congruence. }
  split.
  - intros (m & i & x & Hx & -> & HP & He). exists i, x. by rewrite <- Hc, <- (Hex i x Hx).
  - intros (i & x & Hx & HP & He). exists (user_to_model x), i, x.
    by rewrite Hc, (Hex i x Hx).
Qed.

Lemma repo_exists_op (c : UserModel → bool) (P : User → Prop) excl :
  (∀ x, c (user_to_model x) = true ↔ P x) →
  repo_op (let* found := sql_user_scalar_id (λ m, c m && not_excluded excl m) in
           ret (bool_decide (found ≠ None)))%prog
    (λ s s' a, s' = s ∧ (a = true ↔ ∃ i x, st_users s !! i = Some x ∧ P x ∧ excl ≠ Some i)).
Proof.
  intros Hc. eapply (repo_op_stmt _ _ (λ a, Ok (bool_decide (a ≠ None)))); [apply sql_user_scalar_id_law |].
  intros s t2 a Hok [-> Ha]. exists (bool_decide (a ≠ None)), s. split_and!; auto.
  rewrite bool_decide_eq_true, Ha. by apply exists_excluding.
Qed.

Lemma repo_exists_by_username_op n excl :
  repo_op (repo_exists_by_username n excl) (λ s s' a, s' = s ∧
    (a = true ↔ ∃ i x, st_users s !! i = Some x ∧ u_username x = n ∧ excl ≠ Some i)).
Proof.
  apply repo_exists_op. intros x. rewrite bool_decide_eq_true. cbn [user_to_model um_username].
  destruct (u_username x), n. simpl. split; [by intros -> | by intros [= ->]].
Qed.

Lemma repo_exists_by_email_op e excl :
  repo_op (repo_exists_by_email e excl) (λ s s' a, s' = s ∧
    (a = true ↔ ∃ i x, st_users s !! i = Some x ∧ u_email x = e ∧ excl ≠ Some i)).
Proof.
  apply repo_exists_op. intros x. rewrite bool_decide_eq_true. cbn [user_to_model um_email].
  destruct (u_email x), e. simpl. split; [by intros -> | by intros [= ->]].
Qed.

Lemma repo_add_op x : user_ok x = true →
  repo_op (repo_add x) (λ s s' _, st_users s !! u_id x = None → s' = set_users (insert (u_id x) x) s).
Proof.
  intros Hx. eapply repo_op_direct; [apply sql_user_add_law |]. intros s t2 [] Hok Hpost.
  rewrite um_id_key, tables_user_lookup in Hpost.
  destruct (st_users s !! u_id x) as [y |] eqn:Hy; subst; [by exists s |].
  eexists. split; [symmetry; apply tables_user_insert |]. split; [by apply store_ok_put | done].
Qed.

Lemma repo_remove_op i :
  repo_op (repo_remove i) (λ s s' a,
    match st_users s !! i with
    | Some _ => s' = drop_sessions (session_of i) (set_users (delete i) s) ∧ a = true
    | None => s' = s ∧ a = false
    end).
Proof.
  eapply (repo_op_stmt _ _ (λ n, Ok (n =? 1)%Z)); [apply sql_user_delete_law |].
  intros s t2 n Hok [-> ->]. fold (user_key i).
  rewrite delete_pinned, (count_pinned s i) by (done || by intros m ?%bool_decide_eq_true).
  destruct (st_users s !! i) as [x |] eqn:Hx.
  - destruct (proj1 Hok _ _ Hx) as [Hid _]. rewrite um_id_key, Hid, bool_decide_true by done.
    eexists _, _. split_and!; try reflexivity. by apply store_ok_drop, store_ok_delete.
  - by exists false, s.
Qed.

(** *** Sessions *)
Lemma srepo_find_op t : repo_op (srepo_find t) (λ s s' a, s' = s ∧ a = st_sessions s !! t).
Proof.
  unfold srepo_find. eapply repo_op_stmt; [apply sql_session_get_law |].
  intros s t2 a Hok [-> ->]. exists (st_sessions s !! t), s. split_and!; auto. by apply restore_session.
Qed.

Lemma srepo_add_op x : session_ok x = true →
  repo_op (srepo_add x) (λ s s' _, st_sessions s !! s_token_digest x = None →
    s' = set_sessions (insert (s_token_digest x) x) s).
Proof.
  intros Hx. eapply repo_op_direct; [apply sql_session_add_law |]. intros s t2 [] Hok Hpost.
  cbn [tables_of tb_sessions session_to_model sm_token_digest] in Hpost. rewrite lookup_fmap in Hpost.
  destruct (st_sessions s !! s_token_digest x) as [y |] eqn:Hy; subst; [by exists s |].
  eexists. split; [symmetry; apply tables_session_insert |]. split; [by apply store_ok_put_session | done].
Qed.

(** The three bulk deletions, by the condition [P] on sessions. *)
Lemma srepo_delete_op {A} (c : UserSessionModel → bool) (P : UserSession → Prop)
    `{∀ x, Decision (P x)} (f : Z → A) :
  (∀ x, c (session_to_model x) = true ↔ P x) →
  repo_op (let* n := sql_session_delete c in ret (f n))%prog
    (λ s s' a, s' = drop_sessions P s ∧ a = f (count_sessions P s)).
Proof.
  intros Hc. eapply (repo_op_stmt _ _ (λ n, Ok (f n))); [apply sql_session_delete_law |].
  intros s t2 n Hok [-> ->]. destruct (tables_session_drop s P c Hc) as [-> ->].
  eexists _, _. split_and!; try reflexivity. by apply store_ok_drop.
Qed.

Lemma bind_ret_r {A} (m : io D A) w : bind m ret w = m w.
Proof. unfold bind, ret. by destruct (m w) as [w' [a | e]]. Qed.

Lemma repo_op_proper {A} (m1 m2 : io D A) P : prog_eq m1 m2 → repo_op m1 P → repo_op m2 P.
Proof. intros Heq Hm w d s Htx. unfold wp. rewrite <- Heq. by apply Hm. Qed.

Lemma session_user_key x i :
  bool_decide (sm_user_id (session_to_model x) = user_key i) = true ↔ session_of i x.
Proof.
  rewrite bool_decide_eq_true. cbn [session_to_model sm_user_id]. fold (user_key (s_user_id x)).
  unfold session_of. split; [apply (inj user_key) | by intros ->].
Qed.

Lemma srepo_remove_for_user_op i :
  repo_op (srepo_remove_for_user i) (λ s s' a,
    s' = drop_sessions (session_of i) s ∧ a = count_sessions (session_of i) s).
Proof.
  eapply repo_op_proper; [intros w; apply bind_ret_r |].
  apply (srepo_delete_op _ (session_of i) id). intros x. apply session_user_key.
Qed.

Lemma srepo_remove_expired_op now :
  repo_op (srepo_remove_expired now) (λ s s' a,
    s' = drop_sessions (session_expired now) s ∧ a = count_sessions (session_expired now) s).
Proof.
  eapply repo_op_proper; [intros w; apply bind_ret_r |].
  apply (srepo_delete_op _ (session_expired now) id). intros x.
  unfold dt_leb, session_expired. by rewrite Z.leb_le.
Qed.

Lemma srepo_remove_op t :
  repo_op (srepo_remove t) (λ s s' _, s' = set_sessions (delete t) s).
Proof.
  eapply (repo_op_stmt _ _ (λ _, Ok tt)); [apply sql_session_delete_law |].
  intros s t2 n Hok [-> _]. exists tt, (set_sessions (delete t) s).
  destruct (tables_session_drop s (λ x, s_token_digest x = t)
    (λ m, bool_decide (sm_token_digest m = t))) as [-> _].
  { intros x. by rewrite bool_decide_eq_true. }
  assert (Heq : drop_sessions (λ x, s_token_digest x = t) s = set_sessions (delete t) s).
  { unfold drop_sessions, set_sessions. f_equal. apply map_eq. intros k. apply option_eq. intros x.
    rewrite map_lookup_filter_Some, lookup_delete_Some. cbn [snd]. split; intros [Hk Hx]; split; auto.
    - intros ->. destruct (proj2 Hok _ _ Hk). auto.
    - intros Hd. destruct (proj2 Hok _ _ Hx) as [Hd' _]. congruence. }
  rewrite Heq. split_and!; auto. rewrite <- Heq. by apply store_ok_drop.
Qed.

(** *** Pages *)
Lemma model_before_key x y : model_before (user_to_model x) (user_to_model y) = page_before x y.
Proof. done. Qed.

Lemma model_before_total a b : model_before a b = true ∨ model_before b a = true.
Proof.
  unfold model_before. rewrite !orb_true_iff, !andb_true_iff, !Z.ltb_lt, !Z.eqb_eq.
  destruct (text_leb_total (um_id a) (um_id b)); destruct (Z.lt_total (dt_us (um_created_at a)) (dt_us (um_created_at b)));
    naive_solver lia.
Qed.

Lemma sorted_models l :
  Sorted model_before (map user_to_model l) → Sorted page_before l.
Proof.
  induction l as [| x l IH]; simpl; intros Hs; [constructor |]. inversion Hs as [| ? ? Hl Hh]; subst.
  constructor; [auto |]. destruct l as [| y l]; constructor. inversion Hh; subst. by rewrite <- model_before_key.
Qed.

Lemma models_of_store s :
  (map_to_list (tb_users (tables_of s))).*2 ≡ₚ map user_to_model (map_to_list (st_users s)).*2.
Proof.
  cbn [tables_of tb_users]. rewrite (map_to_list_kmap user_key), map_to_list_fmap.
  rewrite <- !list_fmap_compose. apply reflexive_eq. by apply list_fmap_ext.
Qed.

Lemma size_of_store s : size (tb_users (tables_of s)) = size (st_users s).
Proof.
  cbn [tables_of tb_users]. rewrite <- (length_map_to_list (kmap user_key _)).
  by rewrite (map_to_list_kmap user_key), length_fmap, length_map_to_list, map_size_fmap.
Qed.

Lemma repo_find_page_op offset limit w d s : dtx w d s →
  wp (repo_find_page offset limit) (λ r w', ∃ d' s0 s1, store_rely d d' ∧ store_rely s s0 ∧
    store_rely s0 s1 ∧ dtx w' d' s1 ∧
    match r with
    | Ok a => a.2 = Z.of_nat (size (st_users s0)) ∧ page_of s1 offset limit a.1
    | Err e => stmt_err (λ f, shared f s1) e
    end) w.
Proof.
  intros Htx. unfold repo_find_page. eapply wp_stmt; [apply sql_user_count_law | done | |].
  2:{ intros e w1 d1 s1 ? ? ? ?. exists d1, s1, s1. by split_and!. }
  intros n w1 d1 s1 t1 Hd1 Hs1 Hdok1 Hsok1 [-> ->] Htx1.
  eapply (wp_stmt _ _ _ _ w1 d1 s1); [apply sql_user_page_law, model_before_total | by split_and! | |].
  2:{ intros e w2 d2 s2 ? ? ? ?. exists d2, s1, s2. split_and!; auto. rel_trans. }
  intros ms w2 d2 s2 t2 Hd2 Hs2 Hdok2 Hsok2 [-> (all & Hperm & Hsort & ->)] Htx2.
  rewrite models_of_store in Hperm. apply Permutation_map_inv in Hperm as (us & -> & Hperm).
  rewrite skipn_map, firstn_map.
  set (page := take (Z.to_nat limit) (drop (Z.to_nat offset) us)).
  assert (Hmap : map_result user_to_domain (map user_to_model page) = Ok page).
  { apply map_result_on. intros x Hx%subseteq_take%subseteq_drop. apply user_of_model.
    rewrite <- Hperm in Hx. apply list_elem_of_fmap in Hx as ([i y] & -> & Hx).
    apply elem_of_map_to_list in Hx. by eapply Hsok2. }
  rewrite Hmap. apply wp_bind, wp_lift, wp_ret. exists d2, s1, s2.
  split_and!; auto; [rel_trans | by split_and! | cbn [snd default]; by rewrite <- size_of_store |].
  exists us. split_and!; [by symmetry | by apply sorted_models | done].
Qed.

(** *** The conditional update *)
Lemma update_blame x s f :
  store_ok s →
  let c := λ m, bool_decide (um_id m = user_key (u_id x)) && (um_version m =? u_version x)%Z in
  column_shared f (tables_of s) ∨ column_shared f (update_users c (user_update_values x) (tables_of s)) →
  shared f s ∨ ∃ s2 y, update_post x s s s2 (UPDATED, y) ∧ shared f s2.
Proof.
  intros Hok c [Hf | Hf]; [left; by apply tables_shared |].
  assert (Hpin : ∀ m, c m = true → um_id m = user_key (u_id x)).
  { intros m [Hm _]%andb_true_iff. by apply bool_decide_eq_true in Hm. }
  pose proof (update_pinned s (u_id x) c (user_update_values x)) as Hup.
  destruct (st_users s !! u_id x) as [row |] eqn:Hrow.
  - specialize (Hup (updated_row row x) Hok Hpin). destruct (c (user_to_model row)) eqn:Hc.
    + rewrite Hup in Hf by done. right. eexists _, _. split; [| by eapply tables_shared].
      exists row. apply andb_true_iff in Hc as [_ Hver%Z.eqb_eq]. by split_and!.
    + left. rewrite Hup in Hf. by apply tables_shared.
  - left. rewrite (Hup x Hok Hpin) in Hf. by apply tables_shared.
Qed.

Lemma repo_update_op x w d s : user_ok x = true → dtx w d s →
  wp (repo_update x) (λ r w', ∃ d' s0 s1, store_rely d d' ∧ store_rely s s0 ∧ store_rely s0 s1 ∧
    match r with
    | Ok a => ∃ s2, update_post x s0 s1 s2 a ∧ dtx w' d' s2
    | Err e => dtx w' d' s1 ∧
        stmt_err (λ f, shared f s1 ∨ ∃ s2 y, update_post x s0 s1 s2 (UPDATED, y) ∧ shared f s2) e
    end) w.
Proof.
  intros Hx Htx. unfold repo_update. fold (user_key (u_id x)).
  set (c := λ m, bool_decide (um_id m = user_key (u_id x)) && (um_version m =? u_version x)%Z).
  assert (Hpin : ∀ m, c m = true → um_id m = user_key (u_id x)).
  { intros m [Hm _]%andb_true_iff. by apply bool_decide_eq_true in Hm. }
  eapply wp_stmt_blame; [apply sql_user_update_law | done | |].
  2:{ intros e w1 d1 s1 Hd1 Hs1 He Htx1. exists d1, s1, s1. split_and!; [done | done | reflexivity | done |].
      eapply db_stmt_error; [exact He |]. destruct Htx1 as (_ & _ & ?). intros f. by apply update_blame. }
  intros n w1 d1 s1 t1 Hd1 Hs1 Hdok1 Hsok1 [-> ->] Htx1.
  rewrite (count_pinned s1 (u_id x) c) by done.
  assert (Hmiss : (∀ row, st_users s1 !! u_id x = Some row → u_version row ≠ u_version x) →
    sql_tx w1 (tables_of d1) (tables_of s1) →
    wp (let* found := sql_user_scalar_id (λ m, bool_decide (um_id m = user_key (u_id x))) in
        ret (if bool_decide (found ≠ None) then CONFLICT else NOT_FOUND, x))
      (λ r w', ∃ d' s0 s1, store_rely d d' ∧ store_rely s s0 ∧ store_rely s0 s1 ∧
        match r with
        | Ok a => ∃ s2, update_post x s0 s1 s2 a ∧ dtx w' d' s2
        | Err e => dtx w' d' s1 ∧
            stmt_err (λ f, shared f s1 ∨ ∃ s2 y, update_post x s0 s1 s2 (UPDATED, y) ∧ shared f s2) e
        end) w1).
  { intros Hver Htx1'. eapply (wp_stmt _ _ _ _ w1 d1 s1); [apply sql_user_scalar_id_law | by split_and! | |].
    2:{ intros e w2 d2 s2 ? ? [? He] ?. exists d2, s1, s2. split_and!; auto; [rel_trans |].
        split; [done |]. intros f Hf. left. by apply He. }
    intros a w2 d2 s2 t2 Hd2 Hs2 Hdok2 Hsok2 [-> Ha] Htx2. apply wp_ret.
    exists d2, s1, s2. split_and!; auto; [rel_trans |]. exists s2. split; [| by split_and!].
    assert (Hiff : a ≠ None ↔ is_Some (st_users s2 !! u_id x)).
    { rewrite Ha. setoid_rewrite tables_matching. split.
      - intros (m & i & y & Hy & -> & Hm%bool_decide_eq_true). rewrite um_id_key in Hm.
        apply (inj user_key) in Hm. destruct (proj1 Hsok2 _ _ Hy) as [Hid _]. rewrite <- Hm, Hid. by eexists.
      - intros [y Hy]. exists (user_to_model y), (u_id x), y. split_and!; auto.
        destruct (proj1 Hsok2 _ _ Hy) as [Hid _]. apply bool_decide_eq_true. by rewrite um_id_key, Hid. }
    case_bool_decide as Hb; simpl.
    - split_and!; auto. by apply Hiff.
    - split_and!; auto. apply eq_None_not_Some. intros Hsome. by apply (proj2 Hiff Hsome). }
  pose proof (update_pinned s1 (u_id x) c (user_update_values x)) as Hup.
  destruct (st_users s1 !! u_id x) as [row |] eqn:Hrow.
  - specialize (Hup (updated_row row x) Hsok1 Hpin).
    destruct (c (user_to_model row)) eqn:Hc.
    + simpl. apply andb_true_iff in Hc as [_ Hver%Z.eqb_eq]. rewrite Hup in Htx1 by done.
      apply wp_bind. unfold wp at 1, mutate, User_advance_version, modify. apply wp_ret.
      exists d1, s1, s1. split_and!; auto; [reflexivity |]. eexists. split.
      { exists row. split_and!; done. }
      destruct (proj1 Hsok1 _ _ Hrow) as [Hid Hrok]. split_and!; auto.
      replace (u_id x) with (u_id (updated_row row x)) by done. apply store_ok_put; [done |].
      revert Hx Hrok. rewrite !user_ok_iff. intros. unfold updated_row; simpl. destruct_and?. split_and!; auto. lia.
    + simpl. rewrite Hup in Htx1. apply Hmiss; [| done]. intros row' [= <-] Hver.
      unfold c in Hc. destruct (proj1 Hsok1 _ _ Hrow) as [Hid _].
      rewrite um_id_key, Hid, bool_decide_true in Hc by done. by apply Z.eqb_neq in Hc.
  - specialize (Hup x Hsok1 Hpin). simpl. rewrite Hup in Htx1. by apply Hmiss.
Qed.

(** *** The transaction itself *)
Lemma wp_refined_fields (f : UowFields → UowFields) {A} (k : unit → io W A) Φ w :
  wp (k tt) Φ (f w.1, w.2) → wp (bind (set_fields f) k) Φ w.
Proof. done. Qed.

Lemma refined_enter w d : refined_idle w d →
  wp uow_enter (λ r w', ∃ d', store_rely d d' ∧
    match r with Ok _ => refined_tx w' d' d' | Err e => foreign e = true ∧ refined_idle w' d' end) w.
Proof.
  intros [Hidle Hok]. unfold uow_enter, sql_uow, uow_aenter. do 2 apply wp_refined_fields.
  apply wp_bind, wp_on_db. eapply wp_mono; [by apply sql_open_law |]. cbv beta. simpl.
  intros [[] | e] w' (td & Htd & Hr); destruct (refined_rely _ _ Htd Hok) as (d' & -> & ? & ?);
    exists d'; (split; [done |]).
  - unfold wp; simpl. unfold refined_tx, dtx. simpl. by split_and!.
  - destruct Hr as [? ?]. by split_and!.
Qed.

Lemma wp_cleanup w d s eo : refined_tx w d s →
  wp (aexit_cleanup open_fields eo) (λ r w', ∃ d', store_rely d d' ∧ refined_idle w' d'
    ∧ ∃ errors, r = Ok errors) w.
Proof.
  intros (Hf & Htx & Hd & Hs). unfold aexit_cleanup. apply wp_bind, wp_attempt.
  assert (Hroll : wp (when (uo_session open_fields && bool_decide (is_Some eo)) (on_db sql_rollback))
    (λ _ w', ∃ d' t', store_rely d d' ∧ store_ok d' ∧ sql_tx w'.2 (tables_of d') t') w).
  { unfold when. case_bool; [| apply wp_ret; exists d, (tables_of s); split_and!; auto; reflexivity].
    apply wp_on_db. eapply wp_mono; [by eapply sql_rollback_law |]. cbv beta. simpl.
    intros r w' (td & Htd & Htx' & _). destruct (refined_rely _ _ Htd Hd) as (d' & -> & ? & ?).
    exists d', (tables_of d'). by split_and!. }
  eapply wp_mono; [exact Hroll |]. cbv beta. intros r1 w1 (d1 & t1 & Hd1 & Hok1 & Htx1).
  apply wp_bind, wp_attempt. unfold when. cbn [open_fields uo_context]. apply wp_on_db.
  eapply wp_mono; [by eapply sql_close_law |]. cbv beta. simpl.
  intros r2 w2 (td & Htd & Hi & _). destruct (refined_rely _ _ Htd Hok1) as (d' & -> & ? & ?).
  apply wp_ret. exists d'. split_and!; [rel_trans | by split | by eexists].
Qed.

Lemma refined_exit w d s eo : refined_tx w d s →
  wp (uow_exit eo) (λ r w', ∃ d', store_rely d d' ∧ refined_idle w' d' ∧
    match r with
    | Ok _ => True
    | Err e => foreign e = true ∨
        ∃ e0 f, eo = Some e0 ∧ sql_conflict_of e0 = Some f ∧ e = UserConflictError f
    end) w.
Proof.
  intros Htx. unfold uow_exit, sql_uow, uow_aexit. apply wp_bind. unfold wp at 1, read.
  destruct Htx as [Hf Htx]. rewrite Hf. apply wp_bind.
  eapply wp_mono; [apply (wp_cleanup w d s); by split |]. cbv beta.
  intros r w' (d' & Hd & [Hi Hok] & errors & ->). apply wp_refined_fields.
  assert (Hidle : ∀ w2, w2.2 = w'.2 → refined_idle w2 d') by (intros w2 Hw2; split; [by rewrite Hw2 | done]).
  destruct errors as [| e errors]; [| apply wp_raise; exists d'; split_and!; auto].
  destruct eo as [[] |]; try (apply wp_ret; exists d'; by split_and!; auto).
  destruct (resolve_user_conflict_field orig) eqn:Hr; [apply wp_raise | apply wp_ret]; exists d'; split_and!; eauto 6.
Qed.

Lemma refined_commit w d s : refined_tx w d s →
  wp uow_commit (λ r w',
    match r with
    | Ok _ => ∃ s', store_rely s s' ∧ store_unique s' ∧ refined_tx w' s' s'
    | Err e => (∃ d' s', store_rely d d' ∧ refined_tx w' d' s') ∧
               (foreign e = true ∧ sql_conflict_of e = None
                ∨ ∃ f s', e = UserConflictError f ∧ store_rely s s' ∧ shared f s')
    end) w.
Proof.
  intros (Hf & Htx & Hd & Hs). unfold uow_commit, sql_uow, uow_commit_sql.
  apply wp_bind. unfold wp at 1, read. rewrite Hf. apply wp_bind. cbn [open_fields uo_session]. apply wp_ret.
  apply wp_catch, wp_on_db. eapply wp_mono; [by eapply sql_commit_law |]. cbv beta.
  intros [[] | e] w'.
  { intros (t' & Ht & Hu & Htx'). destruct (refined_rely _ _ Ht Hs) as (s' & -> & ? & ?).
    exists s'. split_and!; auto; [by apply tables_unique_store |]. by split_and!. }
  intros ([He Hblame] & td & Htd & Htx'). destruct (refined_rely _ _ Htd Hd) as (d' & -> & ? & ?).
  assert (Hcur : refined_tx (w.1, w') d' d') by by split_and!.
  destruct e; try (apply wp_raise; split; [eauto | by left]).
  cbn [commit_failed]. apply wp_bind, wp_attempt, wp_on_db. cbn [snd fst].
  eapply wp_mono; [by eapply sql_rollback_law |]. cbv beta.
  intros r w2 (td2 & Htd2 & Htx2 & Hr). destruct (refined_rely _ _ Htd2 ltac:(eassumption)) as (d2 & -> & ? & ?).
  assert (Hfin : ∃ d' s', store_rely d d' ∧ refined_tx (w.1, w2) d' s').
  { exists d2, d2. split; [rel_trans | by split_and!]. }
  destruct r as [[] | e']; [| apply wp_raise; split; [done | by left]].
  destruct (resolve_user_conflict_field orig) as [f |] eqn:Hres; apply wp_raise; (split; [done |]); [right | by left].
  destruct orig as [o |]; [| done]. destruct (Hblame o f eq_refl (resolve_reports _ _ Hres)) as (t' & Ht' & Hsh).
  destruct (refined_rely _ _ Ht' Hs) as (s' & -> & _ & ?). exists f, s'. split_and!; [done | done | by apply tables_shared].
Qed.

(** The SQLAlchemy unit of work satisfies its contract. *)
#[export] Program Instance sql_uow_laws : UowLaws W store_rely := {|
  idle := refined_idle;
  in_tx := refined_tx;
  conflict_of := sql_conflict_of;
  enter_law := refined_enter;
  exit_law := refined_exit;
  commit_law := refined_commit;
  find_law i := proj1 (refined_op _ _ (repo_find_op i));
  find_by_username_law n := proj1 (refined_op _ _ (repo_find_by_username_op n));
  exists_by_username_law n x := proj1 (refined_op _ _ (repo_exists_by_username_op n x));
  exists_by_email_law n x := proj1 (refined_op _ _ (repo_exists_by_email_op n x));
  add_law x Hx := proj1 (refined_op _ _ (repo_add_op x Hx));
  remove_law i := proj1 (refined_op _ _ (repo_remove_op i));
  session_find_law t := proj2 (refined_op _ _ (srepo_find_op t));
  session_add_law x Hx := proj2 (refined_op _ _ (srepo_add_op x Hx));
  session_remove_law t := proj2 (refined_op _ _ (srepo_remove_op t));
  session_remove_for_user_law i := proj2 (refined_op _ _ (srepo_remove_for_user_op i));
  session_remove_expired_law now := proj2 (refined_op _ _ (srepo_remove_expired_op now));
|}.
Next Obligation. by intros [] f. Qed.
Next Obligation. by intros w d s (? & ? & ? & ?). Qed.
Next Obligation.
  intros w d [Hi Hok]. split; [done |]. by apply tables_unique_store, (sql_idle_unique w.2).
Qed.
Next Obligation.
  intros o l [f w] d s [Hf Htx]. simpl in Hf. subst. unfold uow_users_ref. apply wp_bind, wp_bind.
  unfold wp at 1, read; simpl. apply wp_on_db; simpl. eapply wp_mono; [by apply repo_find_page_op |].
  intros r w' (d' & s0 & s1 & ? & ? & ? & ? & ?). exists d', s0, s1. by split_and!.
Qed.
Next Obligation.
  intros x [f w] d s Hx [Hf Htx]. simpl in Hf. subst. unfold uow_users_ref. apply wp_bind, wp_bind.
  unfold wp at 1, read; simpl. apply wp_on_db; simpl. eapply wp_mono; [by apply repo_update_op |].
  intros r w' (d' & s0 & s1 & ? & ? & ? & Hr). exists d', s0, s1. split_and!; auto.
  destruct r as [a | e]; unfold refined_tx; naive_solver.
Qed.
End Refinement.

(** ** Properties *)

(** The row of [x] has moved on since [x] was read: another transaction has
    written it between the reading and the state [s]. *)
Definition moved_on `{SQ : SqlLaws D RT} (x : User) (s : Store) : Prop :=
  ∃ s_read s_written row row', st_users s_read !! u_id x = Some row ∧ u_version row = u_version x
    ∧ st_users s_written !! u_id x = Some row' ∧ row' ≠ row
    ∧ store_rely (RT := RT) s_read s_written ∧ store_rely (RT := RT) s_written s.

(** C10: no lost update.  [update] writes only the row it was made from.
    [UPDATED] means that at that moment the row had the version of the
    aggregate, that it and nothing else was replaced, and that its version and
    the aggregate's went one up; [CONFLICT] and [NOT_FOUND] write nothing and
    say truly that the user is still there or is not.  Whenever another
    transaction has written the row after the aggregate was read, however
    the two overlap, the result is not [UPDATED]. *)
Theorem repo_update_exclusive {D} {T : UnicodeTables} {DB : UserDatabase D} {RT : relation Tables}
    {SQ : SqlLaws D RT} (x : User) (w : D) (d s : Store) :
  user_ok x = true → dtx w d s →
  wp (repo_update x) (λ r w', ∃ d' s0 s1, store_rely (RT := RT) d d' ∧ store_rely (RT := RT) s s0 ∧ store_rely (RT := RT) s0 s1 ∧
    match r with
    | Ok (UPDATED, y) => y = with_version (u_version x + 1) x ∧ ¬ moved_on x s
        ∧ ∃ row, st_users s1 !! u_id x = Some row ∧ u_version row = u_version x
            ∧ dtx w' d' (set_users (insert (u_id x) (updated_row row x)) s1)
    | Ok (CONFLICT, y) => y = x ∧ dtx w' d' s1 ∧ is_Some (st_users s1 !! u_id x)
        ∧ ∀ row, st_users s0 !! u_id x = Some row → u_version row ≠ u_version x
    | Ok (NOT_FOUND, y) => y = x ∧ dtx w' d' s1 ∧ st_users s1 !! u_id x = None
    | Err e => foreign e = true ∧ dtx w' d' s1
    end) w.
Proof.
  intros Hx Htx. eapply wp_mono; [by apply repo_update_op |]. cbv beta.
  intros r w' (d' & s0 & s1 & Hd & Hs & Hs1 & Hr). exists d', s0, s1. split_and!; [done.. |].
  destruct r as [[a y] | e]; [| destruct Hr as [? [? _]]; by split].
  destruct Hr as (s2 & Hpost & Htx2). destruct a; cbn [update_post] in Hpost.
  - destruct Hpost as (row & Hrow & Hver & -> & ->). split; [done |]. split; [| by exists row].
    intros (sr & sm & r0 & r1 & Hr0 & Hv0 & Hr1 & Hne & Hrm & Hms).
    destruct (rely_version _ _ _ _ _ Hrm Hr0 Hr1) as [-> | Hlt]; [done |].
    assert (HR : store_rely (RT := RT) sm s1) by rel_trans.
    destruct (rely_version _ _ _ _ _ HR Hr1 Hrow) as [-> | ?]; lia.
  - by destruct Hpost as (-> & -> & ?).
  - by destruct Hpost as (-> & -> & ? & ?).
Qed.

Lemma user_of_model_ok `{UnicodeLaws} m x :
  user_to_domain m = Ok x →
  user_ok x = true ∧ username_value (u_username x) = py_lower (py_strip (um_username m))
  ∧ email_value (u_email x) = py_lower (py_strip (um_email m))
  ∧ password_hash_value (u_password_hash x) = um_password m
  ∧ UserStatus_of (um_status m) = Ok (u_status x)
  ∧ uuid_parse (um_id m) = Some (user_id_value (u_id x))
  ∧ u_created_at x = um_created_at m ∧ u_updated_at x = um_updated_at m ∧ u_version x = um_version m.
Proof.
  unfold user_to_domain, user_id_of_text, User_rehydrate. intros Hx.
  destruct (uuid_parse (um_id m)) as [i |] eqn:Hi; [| done]. cbn [result_bind] in Hx.
  destruct (Username_new (um_username m)) as [n |] eqn:Hn; [| done]. cbn [result_bind] in Hx.
  destruct (EmailAddress_new (um_email m)) as [e |] eqn:He; [| done]. cbn [result_bind] in Hx.
  destruct (PasswordHash_new (um_password m)) as [h |] eqn:Hh; [| done]. cbn [result_bind] in Hx.
  destruct (UserStatus_of (um_status m)) as [st |] eqn:Hs; [| done]. cbn [result_bind] in Hx.
  apply User_new_ok in Hx as (-> & Hc & Hu & Hv).
  apply Username_new_ok in Hn as [? ?]. apply EmailAddress_new_ok in He as [? ?].
  apply PasswordHash_new_ok in Hh as [? ?].
  split; [apply user_ok_iff; by split_and! | by split_and!].
Qed.

(** The mapping loses nothing.  A legal aggregate is read back from its
    row unchanged; the UPDATE of a stored row by an aggregate reads back as
    that aggregate with the next version; and a row that can be read at all
    yields a legal aggregate with exactly the contents of the row. *)
Theorem user_mapper_roundtrip `{UnicodeLaws} :
  (∀ x, user_ok x = true → user_to_domain (user_to_model x) = Ok x)
  ∧ (∀ x y, user_ok x = true → u_id x = u_id y → u_created_at x = u_created_at y →
       user_to_domain (user_update_values x (user_to_model y)) = Ok (with_version (u_version x + 1) x))
  ∧ (∀ m x, user_to_domain m = Ok x → user_ok x = true
       ∧ user_to_domain (user_to_model x) = Ok x ∧ um_version (user_to_model x) = um_version m
       ∧ um_password (user_to_model x) = um_password m).
Proof.
  split_and!.
  - intros x Hx. by apply user_of_model.
  - intros x y Hx Hid Hc.
    replace (user_update_values x (user_to_model y)) with (user_to_model (with_version (u_version x + 1) x)).
    + apply user_of_model. revert Hx. rewrite !user_ok_iff. intros. destruct_and?. split_and!; auto.
      simpl. lia.
    + unfold user_to_model, user_update_values, with_version. simpl. by rewrite Hid, Hc.
  - intros m x Hx. apply user_of_model_ok in Hx as (Hok & ? & ? & ? & ? & ? & ? & ? & ?).
    split_and!; auto. by apply user_of_model.
Qed.

Lemma user_mapper_roundtrip_witness :
  user_to_domain (H := plain_tables) (user_to_model sample_user) = Ok sample_user.
Proof.
  apply (@user_mapper_roundtrip plain_tables plain_tables_laws). by vm_compute.
Defined.
