(* ===== verification/UserMemory.v ===== *)
(** * UserMemory: an in-memory database for concrete runs

    A [UserDatabase] on two finite maps with one transaction at a time.  It
    satisfies [SqlLaws] when nobody else writes, so the laws are satisfiable
    and the theorems about the services can be applied to concrete inputs. *)

From stdpp Require Import sorting.
From S2P Require Import Prelude Text Errors UserDomain UserContracts UserPersistence UserRefinement.
Local Open Scope prog_scope.

Record MemDb := mk_mem { md_data : Tables; md_tx : option Tables }.

(** Evaluated by [vm_compute]: the two unique constraints. *)
Definition unique_ok (t : Tables) : bool :=
  bool_decide (NoDup (um_username <$> (map_to_list (tb_users t)).*2))
  && bool_decide (NoDup (um_email <$> (map_to_list (tb_users t)).*2)).

Definition mem_stmt {A} (f : Tables → Tables * A) : io MemDb A := λ w,
  match md_tx w with
  | Some t => let '(t', a) := f t in (mk_mem (md_data w) (Some t'), Ok a)
  | None => (w, Err RuntimeError)
  end.

Definition first_row (c : UserModel → bool) (t : Tables) : option UserModel :=
  head (filter (λ m, c m = true) (map_to_list (tb_users t)).*2).
Definition sort_rows (before : UserModel → UserModel → bool) : list UserModel → list UserModel :=
  merge_sort before.

#[export] Instance mem_database : UserDatabase MemDb := {
  sql_open w := (mk_mem (md_data w) (Some (md_data w)), Ok tt);
  sql_close _ w := (mk_mem (md_data w) None, Ok tt);
  sql_rollback w := (mk_mem (md_data w) (Some (md_data w)), Ok tt);
  sql_commit w :=
    match md_tx w with
    | Some t => if unique_ok t then (mk_mem t (Some t), Ok tt)
                else (mk_mem (md_data w) (Some (md_data w)), Err (IntegrityError None))
    | None => (w, Err RuntimeError)
    end;
  sql_user_get k := mem_stmt (λ t, (t, tb_users t !! k));
  sql_user_scalar c := mem_stmt (λ t, (t, first_row c t));
  sql_user_scalar_id c := mem_stmt (λ t, (t, um_id <$> first_row c t));
  sql_user_count := mem_stmt (λ t, (t, Some (Z.of_nat (size (tb_users t)))));
  sql_user_page before offset limit := mem_stmt (λ t, (t,
    take (Z.to_nat limit) (drop (Z.to_nat offset) (sort_rows before (map_to_list (tb_users t)).*2))));
  sql_user_add m := mem_stmt (λ t,
    (match tb_users t !! um_id m with None => map_users (insert (um_id m) m) t | Some _ => t end, tt));
  sql_user_update c f := mem_stmt (λ t, (update_users c f t, count_rows c (tb_users t)));
  sql_user_delete c := mem_stmt (λ t, (delete_users c t, count_rows c (tb_users t)));
  sql_session_get k := mem_stmt (λ t, (t, tb_sessions t !! k));
  sql_session_add m := mem_stmt (λ t,
    (match tb_sessions t !! sm_token_digest m with
     | None => map_sessions (insert (sm_token_digest m) m) t | Some _ => t end, tt));
  sql_session_delete c := mem_stmt (λ t,
    (map_sessions (filter (λ kv, c kv.2 = false)) t, count_rows c (tb_sessions t)));
}.

Definition mem_idle (w : MemDb) (d : Tables) : Prop :=
  md_data w = d ∧ md_tx w = None ∧ tables_unique d.
Definition mem_tx (w : MemDb) (d t : Tables) : Prop :=
  md_data w = d ∧ md_tx w = Some t ∧ tables_unique d.

Lemma mem_stmt_law {A} (RT : relation Tables) `{!PreOrder RT} (f : Tables → Tables * A) post blame :
  (∀ t, post t (f t).1 (f t).2) → sql_stmt_blame mem_tx RT (mem_stmt f) post blame.
Proof.
  intros Hf w d t (Hd & Ht & Hu). unfold wp, mem_stmt. rewrite Ht.
  destruct (f t) as [t' a] eqn:Hft. exists d, t. split; [reflexivity |]. split; [reflexivity |].
  exists t'. split; [| by split_and!]. specialize (Hf t). by rewrite Hft in Hf.
Qed.

Lemma matching_elem c t m : matching c (tb_users t) m ↔ m ∈ filter (λ m, c m = true) (map_to_list (tb_users t)).*2.
Proof.
  rewrite list_elem_of_filter, list_elem_of_fmap. unfold matching. split.
  - intros [Hc [k Hk]]. split; [done |]. exists (k, m). by rewrite elem_of_map_to_list.
  - intros [Hc [[k m'] [-> Hk]]]. rewrite elem_of_map_to_list in Hk. eauto.
Qed.

Lemma first_row_some c t m : first_row c t = Some m → matching c (tb_users t) m.
Proof.
  rewrite matching_elem. unfold first_row. destruct (filter _ _) as [| m' l]; [done |].
  intros [= ->]. by left.
Qed.

Lemma first_row_none c t : first_row c t = None → ∀ m, ¬ matching c (tb_users t) m.
Proof.
  setoid_rewrite matching_elem. unfold first_row. destruct (filter _ _) as [| m' l]; [| done].
  intros _ m Hm. by apply not_elem_of_nil in Hm.
Qed.

Lemma unique_ok_spec t : unique_ok t = true → tables_unique t.
Proof.
  unfold unique_ok. rewrite andb_true_iff, !bool_decide_eq_true. intros [Hn He] i j a b Ha Hb Hab.
  apply elem_of_map_to_list, list_elem_of_lookup_1 in Ha as [p Hp].
  apply elem_of_map_to_list, list_elem_of_lookup_1 in Hb as [q Hq].
  assert (p = q) as ->.
  { destruct Hab as [Hab | Hab]; [eapply (NoDup_lookup _ p q (um_username a) Hn) | eapply (NoDup_lookup _ p q (um_email a) He)];
      rewrite !list_lookup_fmap; rewrite ?Hp, ?Hq; simpl; congruence. }
  congruence.
Qed.

(** The laws hold whatever the relation [RT] lets others do, here to nobody. *)
Section MemLaws.
Context `{UnicodeTables} (RT : relation Tables) {RT_preorder : PreOrder RT}.
Context (others_ok : ∀ s t, RT (tables_of s) t → store_ok s → ∃ s', t = tables_of s' ∧ store_ok s').
Context (others_version : ∀ t t' k a b, RT t t' → tb_users t !! k = Some a → tb_users t' !! k = Some b →
  b = a ∨ (um_version a < um_version b)%Z).

Program Definition mem_laws_for : SqlLaws MemDb RT := {|
  sql_idle := mem_idle;
  sql_tx := mem_tx;
  sql_others_ok := others_ok;
  sql_others_version := others_version;
|}.
Next Obligation. by intros w d (? & ? & ?). Qed.
Next Obligation. intros w d (<- & _ & ?). exists (md_data w). by split_and!. Qed.
Next Obligation. intros w d t eo (<- & _ & ?). exists (md_data w). by split_and!. Qed.
Next Obligation. intros w d t (<- & _ & ?). exists (md_data w). by split_and!. Qed.
Next Obligation.
  intros w d t (<- & Ht & ?). unfold wp; simpl. rewrite Ht. destruct (unique_ok t) eqn:Hu.
  - exists t. apply unique_ok_spec in Hu. by split_and!.
  - split; [by split |]. exists (md_data w). by split_and!.
Qed.
Next Obligation. intros. by apply (mem_stmt_law RT). Qed.
Next Obligation.
  intros c. apply (mem_stmt_law RT). intros t. split; [done |]. simpl.
  destruct (first_row c t) eqn:E; [by apply first_row_some | by apply first_row_none].
Qed.
Next Obligation.
  intros c. apply (mem_stmt_law RT). intros t. split; [done |]. simpl.
  destruct (first_row c t) as [m |] eqn:E; simpl.
  - split; [| done]. intros _. exists m. by apply first_row_some.
  - split; [done |]. intros [m Hm]. by eapply first_row_none in Hm.
Qed.
Next Obligation. intros. by apply (mem_stmt_law RT). Qed.
Next Obligation.
  intros before offset limit Htotal. apply (mem_stmt_law RT). intros t. split; [done |]. simpl.
  exists (sort_rows before (map_to_list (tb_users t)).*2). split_and!; [apply merge_sort_Permutation | | done].
  assert (Total (λ a b : UserModel, before a b)).
  { intros a b. destruct (Htotal a b) as [-> | ->]; [by left | by right]. }
  apply (Sorted_merge_sort before).
Qed.
Next Obligation. intros. by apply (mem_stmt_law RT). Qed.
Next Obligation. intros. by apply (mem_stmt_law RT). Qed.
Next Obligation. intros. by apply (mem_stmt_law RT). Qed.
Next Obligation. intros. by apply (mem_stmt_law RT). Qed.
Next Obligation. intros. by apply (mem_stmt_law RT). Qed.
Next Obligation. intros. by apply (mem_stmt_law RT). Qed.

End MemLaws.

#[export] Instance mem_laws `{UnicodeTables} : SqlLaws MemDb (=).
Proof. apply mem_laws_for; [apply _ | intros s t <- ?; by exists s | intros; simplify_eq; by left]. Defined.

(** Others may also write: rows of legal aggregates, moving versions on. *)
Definition busy `{UnicodeTables} (t t' : Tables) : Prop :=
  (∀ s, t = tables_of s → store_ok s → ∃ s', t' = tables_of s' ∧ store_ok s') ∧
  ∀ k a, tb_users t !! k = Some a → ∃ b, tb_users t' !! k = Some b ∧ (b = a ∨ (um_version a < um_version b)%Z).

#[export] Instance busy_preorder `{UnicodeTables} : PreOrder busy.
Proof.
  split; [intros t; split; eauto |]. intros t1 t2 t3 [Hok12 H12] [Hok23 H23]. split.
  - intros s -> Hs. destruct (Hok12 s eq_refl Hs) as (s' & -> & Hs'). by apply (Hok23 s').
  - intros k a Ha. destruct (H12 k a Ha) as (b & Hb & Hab). destruct (H23 k b Hb) as (c & Hc & Hbc).
    exists c. split; [done |]. destruct Hab as [-> | ?], Hbc as [-> | ?]; auto; right; lia.
Qed.

Definition busy_laws `{UnicodeTables} : SqlLaws MemDb busy.
Proof.
  apply mem_laws_for; [apply _ | intros s t [Hok _] Hs; by destruct (Hok s eq_refl Hs) as (s' & -> & ?); exists s' |].
  intros t t' k a b [_ HR] Ha Hb. destruct (HR k a Ha) as (b' & Hb' & ?). simplify_eq. done.
Defined.

(** ** A concrete store, and the collaborators of the services *)

#[export] Existing Instance plain_tables.
#[export] Existing Instance plain_tables_laws.

Definition demo_uuid (n : N) : uuid := default (@mk_uuid 0 I) (uuid_of n).
Definition demo_time (us : Z) : datetime := mk_dt us None.
Definition demo_user (n : N) (name email hash : string) (s : UserStatus) : User :=
  {| u_id := mk_user_id (demo_uuid n); u_username := mk_username (u name); u_email := mk_email (u email);
     u_password_hash := mk_password_hash (u hash); u_status := s;
     u_created_at := demo_time 100; u_updated_at := demo_time 200; u_version := 3 |}.
Definition alice : User := demo_user 1 "alice" "alice@example.org" "correct horse" ACTIVE.
Definition alice_id : uuid := demo_uuid 1.
Definition alice_digest : pystr := replicate 64 97%N.
Definition alice_session : UserSession :=
  {| s_token_digest := alice_digest; s_user_id := mk_user_id alice_id;
     s_issued_at := demo_time 300; s_expires_at := demo_time 5000000 |}.
Definition demo_store : Store :=
  {| st_users := {[ u_id alice := alice ]}; st_sessions := {[ alice_digest := alice_session ]} |}.
Definition demo_world : UowFields * MemDb := (uow_fresh, mk_mem (tables_of demo_store) None).

Lemma demo_idle : idle (UowLaws := sql_uow_laws) demo_world demo_store.
Proof.
  split; [split_and!; try done; by apply unique_ok_spec; vm_compute |].
  split; intros k x Hx; cbn [demo_store st_users st_sessions] in Hx;
    apply lookup_singleton_Some in Hx as [<- <-]; split; [done | by vm_compute | done | by vm_compute].
Qed.

(** A failing insertion inside a transaction: rolled back, closed, translated. *)
Definition dup_error : driver_error :=
  {| de_sqlite_errorcode := Some SQLITE_CONSTRAINT_UNIQUE;
     de_text := u "UNIQUE constraint failed: users.email"; de_sqlstate := None; de_pgcode := None;
     de_cause := None; de_diag := None; de_self := mk_diag None None; de_args := [] |}.

Lemma uow_exit_cleanup_witness :
  uow_aexit (Some (IntegrityError (Some dup_error)))
    (mk_uow true true true true, mk_mem (tables_of demo_store) (Some (tables_of demo_store))) =
  ((uow_fresh, mk_mem (tables_of demo_store) None), Err (UserConflictError FieldEmail)).
Proof.
  apply (uow_exit_cleanup (Some (IntegrityError (Some dup_error)))
    (mk_mem (tables_of demo_store) (Some (tables_of demo_store))) (Ok tt)
    (mk_mem (tables_of demo_store) None) (Ok tt)); done.
Defined.

(** An update by an aggregate as it was read, and by one that another
    transaction has overtaken. *)
Definition stale_alice : User := with_version 2 alice.
Definition early_store : Store := set_users (insert (u_id alice) stale_alice) demo_store.
Definition open_world : MemDb := mk_mem (tables_of demo_store) (Some (tables_of demo_store)).

Lemma demo_dtx : dtx (SQ := busy_laws) open_world demo_store demo_store.
Proof.
  destruct demo_idle as [_ Hok]. split; [| by split]. split_and!; try done. by apply unique_ok_spec; vm_compute.
Qed.

Lemma stale_moved_on : moved_on (SQ := busy_laws) stale_alice demo_store.
Proof.
  exists early_store, demo_store, stale_alice, alice.
  split_and!; try done; unfold store_rely; [| reflexivity]. split.
  - intros s Hs Hok. exists demo_store. split; [done | apply demo_idle].
  - intros k a (i & x & -> & Hx & ->)%tables_user_rows. cbn [early_store set_users st_users demo_store] in Hx.
    rewrite insert_singleton_eq in Hx. apply lookup_singleton_Some in Hx as [<- <-].
    exists (user_to_model alice). split; [by vm_compute | right; by vm_compute].
Qed.

Lemma repo_update_exclusive_witness :
  (repo_update alice open_world).2 = Ok (UPDATED, with_version 4 alice) ∧
  (repo_update stale_alice open_world).2 = Ok (CONFLICT, stale_alice) ∧
  wp (repo_update stale_alice) (λ r _, ∀ y, r ≠ Ok (UPDATED, y)) open_world.
Proof.
  split; [by vm_compute |]. split; [by vm_compute |].
  eapply wp_mono; [apply (repo_update_exclusive (SQ := busy_laws) stale_alice open_world demo_store demo_store);
    [by vm_compute | apply demo_dtx] |].
  intros r w' (d' & s0 & s1 & _ & _ & _ & Hr) y ->. destruct Hr as (_ & Hm & _). by apply Hm, stale_moved_on.
Defined.
