(* ===== verification/UserService.v ===== *)
(** * UserService: the user management use cases

    Models [app/contexts/user/application/service.py]: every method of
    [UserApplicationService] as a program over a world in which the unit of
    work, the password hasher, the clock and the identifier generator are
    the protocols of [UserContracts].  The theorems hold for every
    implementation of the protocols and for every behaviour of concurrent
    transactions the relation [R] allows. *)

From S2P Require Import Prelude Text Errors UserDomain UserContracts.
From S2P Require Import UserPersistence UserRefinement UserMemory.
Local Open Scope prog_scope.

(** The injected [new_user_id] and [clock]. *)
Class UserServiceDeps (W : Type) := {
  new_user_id : io W uuid;
  clock : io W datetime;
}.

Section Service.
Context {W : Type} `{UnicodeTables, UserUnitOfWork W, PasswordHasher W, UserServiceDeps W}.

Definition ensure_updated (r : UserUpdateResult) (user_id : uuid) : io W unit :=
  match r with
  | UPDATED => ret tt
  | NOT_FOUND => raise (UserNotFoundError user_id)
  | CONFLICT => raise (ConcurrentUserUpdateError user_id)
  end.

Definition ensure_unique_values (username : Username) (email : EmailAddress)
    (excluding : option UserId) : io W unit :=
  let* taken := users_exists_by_username username excluding in
  (if taken : bool then raise (UserConflictError FieldUsername) else ret tt);;;
  let* taken := users_exists_by_email email excluding in
  if taken : bool then raise (UserConflictError FieldEmail) else ret tt.

Definition ensure_unique (x : User) : io W unit :=
  ensure_unique_values (u_username x) (u_email x) (Some (u_id x)).

(** The transaction of [create] after the password has been hashed. *)
Definition create_write (x : User) : io W unit :=
  with_uow (ensure_unique x;;; users_add x;;; uow_commit).

Definition service_create (c : CreateUserCommand) : io W UserDTO :=
  let* username := lift (Username_new (cc_username c)) in
  let* email := lift (EmailAddress_new (cc_email c)) in
  let* password := lift (Password_new (cc_password c)) in
  with_uow (ensure_unique_values username email None);;;
  let* h := ph_hash password in
  let* i := new_user_id in
  let* now := clock in
  let* x := lift (User_create i (username_value username) (email_value email) h now) in
  create_write x;;;
  ret (UserDTO_from_domain x).

Definition service_get (user_id : uuid) : io W UserDTO :=
  let* found := with_uow (users_find (mk_user_id user_id)) in
  match found with
  | None => raise (UserNotFoundError user_id)
  | Some x => ret (UserDTO_from_domain x)
  end.

Definition service_list (offset limit : Z) : io W UserPageDTO :=
  let* page := with_uow (users_find_page offset limit) in
  ret {| pg_items := map UserDTO_from_domain page.1; pg_total := page.2;
         pg_offset := offset; pg_limit := limit |}.

(** Find a user or raise [UserNotFoundError]. *)
Definition find_required (user_id : uuid) : io W User :=
  let* found := users_find (mk_user_id user_id) in
  match found with None => raise (UserNotFoundError user_id) | Some x => ret x end.

Definition update_body (c : UpdateUserCommand) : io W User :=
  let* x := find_required (uc_user_id c) in
  let* now := clock in
  let* x := mutate (User_update_profile (uc_username c) (uc_email c) now) x in
  ensure_unique x;;;
  let* res := users_update x in
  ensure_updated res.1 (uc_user_id c);;;
  uow_commit;;;
  ret res.2.

Definition service_update (c : UpdateUserCommand) : io W UserDTO :=
  let* x := with_uow (update_body c) in ret (UserDTO_from_domain x).

(** Revoke the sessions of a disabled user, then commit. *)
Definition change_status_finish (c : ChangeUserStatusCommand) (x : User) : io W User :=
  (if decide (u_status x = DISABLED)
   then sessions_remove_for_user (mk_user_id (sc_user_id c));;; ret tt
   else ret tt);;;
  uow_commit;;;
  ret x.

Definition change_status_body (c : ChangeUserStatusCommand) : io W User :=
  let* x := find_required (sc_user_id c) in
  let* now := clock in
  let* x := mutate (User_change_status (sc_status c) now) x in
  let* res := users_update x in
  ensure_updated res.1 (sc_user_id c);;;
  change_status_finish c res.2.

Definition service_change_status (c : ChangeUserStatusCommand) : io W UserDTO :=
  let* x := with_uow (change_status_body c) in ret (UserDTO_from_domain x).

Definition reset_password_body (user_id : uuid) (h : PasswordHash) : io W unit :=
  let* x := find_required user_id in
  let* now := clock in
  let* x := mutate (User_reset_password h now) x in
  let* res := users_update x in
  ensure_updated res.1 user_id;;;
  sessions_remove_for_user (mk_user_id user_id);;;
  uow_commit.

Definition service_reset_password (c : ResetUserPasswordCommand) : io W unit :=
  let* password := lift (Password_new (rc_password c)) in
  with_uow (find_required (rc_user_id c);;; ret tt);;;
  let* h := ph_hash password in
  with_uow (reset_password_body (rc_user_id c) h).

Definition service_delete (user_id : uuid) : io W unit :=
  with_uow (
    let* removed := users_remove (mk_user_id user_id) in
    (if removed : bool then ret tt else raise (UserNotFoundError user_id));;;
    uow_commit).
End Service.

(** ** What an operation does to the committed store *)

Section Outcome.
Context (R : relation Store) `{!PreOrder R} {A : Type}.
Implicit Types (Q : A → Store → Store → Prop) (P : A → Store → Prop) (X : exn → Store → Prop).

(** At some point [s1] the effect [Q a] was applied; the result was
    committed with the unique constraints satisfied, and only others have
    written since. *)
Definition committed_effect Q (a : A) (d d' : Store) : Prop :=
  ∃ s1 s2 sc, R d s1 ∧ Q a s1 s2 ∧ R s2 sc ∧ store_unique sc ∧ R sc d'.

(** Nothing of ours was committed, and the exception is either foreign or
    raised because of a state [s] that [X] describes. *)
Definition aborted X (e : exn) (d d' : Store) : Prop :=
  R d d' ∧ (foreign e = true ∨ ∃ s, R d s ∧ X e s).

(** Outcome of the statements of a writing transaction, and of a reading
    one that found [P] in a state [s]. *)
Definition write_outcome Q X (d : Store) (r : result exn A) (d' : Store) : Prop :=
  match r with Ok a => committed_effect Q a d d' | Err e => aborted X e d d' end.
Definition read_outcome P X (d : Store) (r : result exn A) (d' : Store) : Prop :=
  match r with
  | Ok a => R d d' ∧ ∃ s, R d s ∧ P a s
  | Err e => aborted X e d d'
  end.

(** Outcome of a whole use case: closing the transaction may still fail
    with a foreign exception after the commit. *)
Definition outcome Q X (d : Store) (r : result exn A) (d' : Store) : Prop :=
  write_outcome Q X d r d' ∨
  ∃ e a, r = Err e ∧ foreign e = true ∧ committed_effect Q a d d'.

Definition r_closed (B : Store → result exn A → Store → Prop) : Prop :=
  (∀ d0 d r d', R d0 d → B d r d' → B d0 r d') ∧
  (∀ d r d' d'', B d r d' → R d' d'' → B d r d'') ∧
  (∀ d e d', foreign e = true → R d d' → B d (Err e) d').

Lemma aborted_pre X e d0 d d' : R d0 d → aborted X e d d' → aborted X e d0 d'.
Proof.
  intros HR (Hd & [? | (s & ? & ?)]); (split; [by etrans | auto]).
  right. exists s. split; [by etrans | done].
Qed.

Lemma aborted_post X e d d' d'' : aborted X e d d' → R d' d'' → aborted X e d d''.
Proof. intros (Hd & ?) ?. split; [by etrans | done]. Qed.

Lemma aborted_foreign X e d d' : foreign e = true → R d d' → aborted X e d d'.
Proof. intros; split; auto. Qed.

Lemma aborted_because X e d d' s : R d d' → R d s → X e s → aborted X e d d'.
Proof. intros; split; eauto. Qed.

Lemma committed_pre Q a d0 d d' : R d0 d → committed_effect Q a d d' → committed_effect Q a d0 d'.
Proof. intros ? (s1 & s2 & sc & ? & ?). exists s1, s2, sc. split; [by etrans | done]. Qed.

Lemma committed_post Q a d d' d'' :
  committed_effect Q a d d' → R d' d'' → committed_effect Q a d d''.
Proof. intros (s1 & s2 & sc & ? & ? & ? & ? & ?) ?. exists s1, s2, sc. split_and!; auto. by etrans. Qed.

Lemma write_outcome_closed Q X : r_closed (write_outcome Q X).
Proof.
  unfold r_closed, write_outcome. split_and!; intros; try destruct r;
    eauto using aborted_pre, aborted_post, committed_pre, committed_post, aborted_foreign.
Qed.

Lemma read_outcome_closed P X : r_closed (read_outcome P X).
Proof.
  unfold r_closed, read_outcome. split; [| split].
  - intros d0 d [a | e] d' ?; [| by apply aborted_pre].
    intros (? & s & ? & ?). split; [by etrans |]. exists s. split; [by etrans | done].
  - intros d [a | e] d' d''; [| by apply aborted_post].
    intros (? & ?) ?. split; [by etrans | done].
  - intros d e d'. apply aborted_foreign.
Qed.

Lemma outcome_pre Q X d0 d r d' : R d0 d → outcome Q X d r d' → outcome Q X d0 r d'.
Proof.
  intros ? [Hw | (e & a & -> & ? & ?)]; [left; by eapply (proj1 (write_outcome_closed Q X)) |].
  right. exists e, a. eauto using committed_pre.
Qed.

Lemma outcome_mono Q Q' X d r d' :
  (∀ a s1 s2, Q a s1 s2 → Q' a s1 s2) → outcome Q X d r d' → outcome Q' X d r d'.
Proof.
  intros HQ.
  assert (Hc : ∀ a, committed_effect Q a d d' → committed_effect Q' a d d').
  { intros a (s1 & s2 & sc & ? & ? & ?). exists s1, s2, sc. split_and!; naive_solver. }
  intros [Ho | (e & a & -> & ? & ?)]; [left | right; exists e, a; auto].
  destruct r as [a | e]; [by apply Hc | done].
Qed.
End Outcome.

(** Laws of the other collaborators: they do not touch the user store, but
    password hashing takes long enough for others to write. *)
Class ServiceLaws (W : Type) `{L : UowLaws W (H := T) (U := U) R,
    PasswordHasher W, UserServiceDeps W} : Prop := {
  clock_law w :
    wp clock (λ r w', ∃ t, r = Ok t ∧ dt_naive t = true
      ∧ (∀ d, idle w d → idle w' d) ∧ (∀ d s, in_tx w d s → in_tx w' d s)) w;
  new_user_id_law w d : idle w d →
    wp new_user_id (λ r w', ∃ i, r = Ok i ∧ idle w' d) w;
  hash_law w d p : idle w d →
    wp (ph_hash p) (λ r w', ∃ d', R d d' ∧ idle w' d' ∧
      match r with Ok h => hash_ok h = true | Err e => foreign e = true end) w;
}.

Section Rules.
Context {W : Type} {T : UnicodeTables} {U : UserUnitOfWork W} {R : relation Store}
  {L : UowLaws W R}.

(** A database error that reports a violated unique column becomes a
    conflict when the transaction is left; [X] describes the state at fault. *)
Definition blamed (X : exn → Store → Prop) (e : exn) d : Prop :=
  ∀ f, conflict_of e = Some f → ∃ s, R d s ∧ X (UserConflictError f) s.

(** Outcome of the statements between entering and leaving. *)
Definition body_outcome {A} (B : Store → result exn A → Store → Prop) (X : exn → Store → Prop)
    d (r : result exn A) d' : Prop :=
  B d r d' ∧ ∀ e, r = Err e → blamed X e d.

(** What a step raised because of the state [s]. *)
Definition caused (X : exn → Store → Prop) (e : exn) s : Prop :=
  stmt_error conflict_of (λ f, X (UserConflictError f) s) e ∨ foreign e = false ∧ X e s.

Lemma caused_aborted X e d d' s : R d d' → R d s → caused X e s → aborted R X e d d' ∧ blamed X e d.
Proof.
  intros Hd Hs [[He Hf] | [He HX]]; (split; [split; [done | eauto] |]).
  - intros f Hc. exists s. eauto.
  - intros f Hc%conflict_of_foreign. congruence.
Qed.

Lemma caused_foreign X e s : foreign e = true → conflict_of e = None → caused X e s.
Proof. intros He Hc. left. split; [done |]. intros f. by rewrite Hc. Qed.

(** The transaction rule: prove the body from the committed store the
    transaction starts on. *)
Lemma wp_with_uow {A} (body : io W A) (B : Store → result exn A → Store → Prop) X w d :
  r_closed R B → idle w d →
  (∀ w1 d1, R d d1 → in_tx w1 d1 d1 →
     wp body (λ r w2, ∃ d2 s2, in_tx w2 d2 s2 ∧ body_outcome B X d1 r d2) w1) →
  wp (with_uow body) (λ r w', ∃ d', idle w' d' ∧
    (B d r d' ∨ (∃ e r0, r = Err e ∧ foreign e = true ∧ B d r0 d')
     ∨ ∃ e0 f s, r = Err (UserConflictError f) ∧ B d (Err e0) d' ∧ R d s ∧ X (UserConflictError f) s)) w.
Proof.
  intros (Hpre & Hpost & Hforeign) Hidle Hbody. unfold with_uow.
  apply wp_bind. eapply wp_mono; [by apply enter_law |]. cbv beta.
  intros [[] | e] w1 (d1 & HR1 & H1); [| destruct H1; exists d1; eauto].
  apply wp_bind, wp_attempt. eapply wp_mono; [by apply Hbody |]. cbv beta.
  intros r w2 (d2 & s2 & Htx & HB & HX).
  apply wp_bind. eapply wp_mono; [by eapply (exit_law _ _ _ (result_err r)) |]. cbv beta.
  intros [[] | e] w3 (d3 & HR3 & Hi3 & Hr); [| exists d3; split; [done |]].
  - apply wp_lift. exists d3. split; [done |]. left. eapply Hpre; [done |]. by eapply Hpost.
  - destruct Hr as [He | (e0 & f & Heo & Hf & ->)].
    + right; left. exists e, r. split_and!; auto. eapply Hpre; [done |]. by eapply Hpost.
    + right; right. destruct r as [a | e1]; simplify_eq/=.
      destruct (HX e0 eq_refl f Hf) as (s & Hs & Hx). exists e0, f, s.
      split_and!; [done | | rel_trans | done]. eapply Hpre; [done |]. by eapply Hpost.
Qed.

Lemma wp_write_uow {A} (body : io W A) Q X w d :
  idle w d →
  (∀ w1 d1, R d d1 → in_tx w1 d1 d1 →
     wp body (λ r w2, ∃ d2 s2, in_tx w2 d2 s2 ∧ body_outcome (write_outcome R Q X) X d1 r d2) w1) →
  wp (with_uow body) (λ r w', ∃ d', idle w' d' ∧ outcome R Q X d r d') w.
Proof.
  intros Hidle Hbody. eapply wp_mono.
  - by apply (wp_with_uow body (write_outcome R Q X) X); [apply write_outcome_closed, _ | |].
  - cbv beta. intros r w' (d' & Hi & [HB | [(e & r0 & -> & He & HB) | (e0 & f & s & -> & HB & Hs & Hx)]]);
      exists d'; (split; [done |]).
    + by left.
    + destruct r0 as [a | e0]; [right; eauto | left; split; [apply HB | by left]].
    + left. destruct HB as [Hd _]. by eapply aborted_because.
Qed.

Lemma wp_read_uow {A} (body : io W A) P X w d :
  idle w d →
  (∀ w1 d1, R d d1 → in_tx w1 d1 d1 →
     wp body (λ r w2, ∃ d2 s2, in_tx w2 d2 s2 ∧ body_outcome (read_outcome R P X) X d1 r d2) w1) →
  wp (with_uow body) (λ r w', ∃ d', idle w' d' ∧ read_outcome R P X d r d') w.
Proof.
  intros Hidle Hbody. eapply wp_mono.
  - by apply (wp_with_uow body (read_outcome R P X) X); [apply read_outcome_closed, _ | |].
  - cbv beta. intros r w' (d' & Hi & [HB | [(e & r0 & -> & He & HB) | (e0 & f & s & -> & HB & Hs & Hx)]]);
      exists d'; (split; [done |]).
    + done.
    + apply aborted_foreign; [done |]. by destruct r0; destruct HB.
    + destruct HB as [Hd _]. by eapply aborted_because.
Qed.

(** One statement of a transaction whose committed store so far is [d],
    reached from [d0] by others' writes only. *)
Lemma wp_tx {A B} (m : io W A) post (k : A → io W B) (Φ : result exn B → W → Prop) w d s :
  tx_op conflict_of in_tx R m post → in_tx w d s →
  (∀ a w' d' s1 s2, R d d' → R s s1 → post s1 s2 a → in_tx w' d' s2 → wp (k a) Φ w') →
  (∀ e w' d' s1, R d d' → R s s1 → stmt_error conflict_of (λ f, shared f s1) e → in_tx w' d' s1 →
     Φ (Err e) w') →
  wp (bind m k) Φ w.
Proof.
  intros Hop Htx Hok Herr. apply wp_bind. eapply wp_mono; [by apply Hop |]. cbv beta.
  intros [a | e] w' (d' & s1 & Hd & Hs & H1).
  - destruct H1 as (s2 & ? & ?). eauto.
  - destruct H1. eauto.
Qed.

Lemma wp_commit (Φ : result exn unit → W → Prop) w d s :
  in_tx w d s →
  (∀ w' s', R s s' → store_unique s' → in_tx w' s' s' → Φ (Ok tt) w') →
  (∀ e w' d' s', R d d' → in_tx w' d' s' →
     (foreign e = true ∧ conflict_of e = None ∨ ∃ f s1, e = UserConflictError f ∧ R s s1 ∧ shared f s1) →
     Φ (Err e) w') →
  wp uow_commit Φ w.
Proof.
  intros Htx Hok Herr. eapply wp_mono; [by eapply commit_law |]. cbv beta.
  intros [[] | e] w'; [intros (s' & ? & ? & ?); eauto | intros [(d' & s' & ? & ?) ?]; eauto].
Qed.
End Rules.

(** ** Why an operation on a user failed *)

Definition missing_cause (i : uuid) (e : exn) (s : Store) : Prop :=
  e = UserNotFoundError i ∧ st_users s !! mk_user_id i = None.
(** Whatever others write and whatever is done to sessions. *)
Definition later (R : relation Store) : relation Store :=
  rtc (λ s s', R s s' ∨ st_users s' = st_users s).
(** A conflict on a unique column: its value was [taken], or the database
    reported it for a state in which two users share it; when the operation
    writes users, that may be after its own write [own]. *)
Definition conflict_cause (R : relation Store) (own : relation Store) (taken : conflict_field → Store → Prop)
    (e : exn) (s : Store) : Prop :=
  ∃ f, e = UserConflictError f ∧
    (taken f s ∨ ∃ s1, shared f s1 ∧ (later R s s1 ∨ ∃ s2, own s s2 ∧ later R s2 s1)).
Definition no_write : relation Store := λ _ _, False.
Definition not_taken (_ : conflict_field) (_ : Store) : Prop := False.
(** The conflict of an operation that writes no user. *)
Definition reported_conflict (R : relation Store) : exn → Store → Prop := conflict_cause R no_write not_taken.

Lemma later_of_rely (R : relation Store) s s' : R s s' → later R s s'.
Proof. intros. apply rtc_once. by left. Qed.
Lemma later_of_users (R : relation Store) s s' : st_users s' = st_users s → later R s s'.
Proof. intros. apply rtc_once. by right. Qed.
Lemma conflict_later R own taken f s s1 :
  later R s s1 → shared f s1 → conflict_cause R own taken (UserConflictError f) s.
Proof. intros. exists f. split; [done |]. right. eauto. Qed.
Lemma conflict_now R own taken f s : shared f s → conflict_cause R own taken (UserConflictError f) s.
Proof. apply conflict_later, rtc_refl. Qed.
Lemma conflict_own R (own : relation Store) taken f s s2 s1 :
  own s s2 → later R s2 s1 → shared f s1 → conflict_cause R own taken (UserConflictError f) s.
Proof. intros. exists f. split; [done |]. right. eauto 6. Qed.

(** The row that was read at [s0] had changed at [s1], before [s]. *)
Definition stale_cause (R : relation Store) (i : uuid) (e : exn) (s : Store) : Prop :=
  e = ConcurrentUserUpdateError i ∧ is_Some (st_users s !! mk_user_id i)
  ∧ ∃ s0 s1 row, R s0 s1 ∧ R s1 s ∧ st_users s0 !! mk_user_id i = Some row
    ∧ st_users s1 !! mk_user_id i ≠ Some row.

(** ** Helper lemmas on the steps of the use cases *)
Section ServiceSteps.
Context {W : Type} {T : UnicodeTables} {TL : UnicodeLaws} {U : UserUnitOfWork W}
  {R : relation Store} {L : UowLaws W R} {PH : PasswordHasher W} {SD : UserServiceDeps W}
  {SL : ServiceLaws W}.
Implicit Types (w : W) (d s : Store).

Lemma updated_row_self row x :
  u_id x = u_id row → u_created_at x = u_created_at row →
  updated_row row x = with_version (u_version x + 1) x.
Proof. unfold updated_row, with_version. by intros <- <-. Qed.

Lemma store_user_ok w d s i x :
  in_tx w d s → st_users s !! i = Some x → u_id x = i ∧ user_ok x = true.
Proof. intros Htx Hx. by eapply in_tx_ok in Htx as [Hok _]; eauto. Qed.

(** Find or raise, at the start of a transaction. *)
Lemma wp_find_required {B} i (k : User → io W B) Φ w d s :
  in_tx w d s →
  (∀ x w' d' s', R d d' → R s s' → st_users s' !! mk_user_id i = Some x →
     u_id x = mk_user_id i → user_ok x = true → in_tx w' d' s' → wp (k x) Φ w') →
  (∀ e w' d' s', R d d' → R s s' → in_tx w' d' s' →
     stmt_error conflict_of (λ f, shared f s') e ∨ missing_cause i e s' →
     Φ (Err e) w') →
  wp (bind (find_required i) k) Φ w.
Proof.
  intros Htx Hok Herr. apply wp_bind. unfold find_required.
  eapply wp_tx; [apply (find_law (mk_user_id i)) | done | |].
  - intros a w' d' s1 s2 Hd Hs [-> ->] Htx'. destruct (st_users s1 !! _) as [x |] eqn:Hx.
    + apply wp_ret. destruct (store_user_ok _ _ _ _ _ Htx' Hx). eauto.
    + apply wp_raise. eapply Herr; eauto. by right.
  - intros. eauto 10.
Qed.

(** Reading the clock and mutating the aggregate in memory. *)
Lemma wp_clock_mutate {B} (op : datetime → user_op) x (k : User → io W B) Φ w d s :
  in_tx w d s → user_ok x = true → (∀ t, op_hash_ok (op t) = true) →
  (∀ t, op t ≠ OpAdvanceVersion) →
  (∀ t x' w', dt_naive t = true → run_user_op (op t) x = (x', Ok tt) →
     user_ok x' = true → u_id x' = u_id x → u_created_at x' = u_created_at x →
     u_version x' = u_version x → in_tx w' d s → wp (k x') Φ w') →
  (∀ t w' e, dt_naive t = true → run_user_op (op t) x = (x, Err e) →
     e = InvalidUserDataError → in_tx w' d s → Φ (Err e) w') →
  wp (let* now := clock in bind (mutate (run_user_op (op now)) x) k)%prog Φ w.
Proof.
  intros Htx Hx Hh Hadv Hok Herr. apply wp_bind. eapply wp_mono; [apply clock_law |]. cbv beta.
  intros r w' (t & -> & Ht & _ & Hkeep).
  apply wp_bind. unfold wp, mutate. destruct (run_user_op (op t) x) as [x' [[] | e]] eqn:Hrun.
  - destruct (user_op_ok _ _ _ Hx (Hh t) Hrun) as (? & ? & ? & Hv).
    assert (u_version x' = u_version x) by (specialize (Hadv t); destruct (op t); (done || lia)).
    eapply Hok; eauto.
  - pose proof Hrun as (-> & -> & _)%user_op_err. eauto.
Qed.

(** The conditional update: the row replaced is the row that was read. *)
Lemma wp_update {B} i row x (k : User → io W B) Φ w d s0 s :
  in_tx w d s → R s0 s →
  st_users s0 !! mk_user_id i = Some row →
  user_ok x = true → u_id x = mk_user_id i → u_id x = u_id row →
  u_created_at x = u_created_at row → u_version x = u_version row →
  (∀ w' d' s1, R d d' → R s s1 → st_users s1 !! mk_user_id i = Some row →
     in_tx w' d' (set_users (insert (mk_user_id i) (with_version (u_version row + 1) x)) s1) →
     wp (k (with_version (u_version row + 1) x)) Φ w') →
  (∀ e w' d' s1, R d d' → R s s1 → in_tx w' d' s1 →
     stmt_error conflict_of (λ f, shared f s1 ∨ st_users s1 !! mk_user_id i = Some row
        ∧ shared f (set_users (insert (mk_user_id i) (with_version (u_version row + 1) x)) s1)) e
     ∨ missing_cause i e s1 ∨ stale_cause R i e s1 →
     Φ (Err e) w') →
  wp (let* res := users_update x in ensure_updated res.1 i;;; k res.2)%prog Φ w.
Proof.
  intros Htx HR Hrow Hx Hi Hid Hcr Hv Hok Herr. apply wp_bind.
  eapply wp_mono; [by apply update_law |]. cbv beta.
  intros [[a y] | e] w' (d' & s2 & s1 & Hd & Hs & Hs1 & Hr).
  2:{ destruct Hr as [Htx' [He Hf]]. eapply (Herr _ _ d' s1); [done | by etrans | done |].
      left. split; [done |]. intros f [Hsh | (s3 & y & Hpost & Hsh)]%Hf; [by left | right].
      simpl in Hpost. rewrite Hi in Hpost. destruct Hpost as (row' & Hrow' & Hver & -> & _).
      assert (HR' : R s0 s1) by rel_trans.
      destruct (rely_version _ _ _ _ _ HR' Hrow Hrow') as [-> | Hlt]; [| lia].
      rewrite updated_row_self, Hv in Hsh by done. by split. }
  destruct Hr as (s3 & Hpost & Htx'). destruct a; simpl in Hpost; rewrite Hi in Hpost.
  - destruct Hpost as (row' & Hrow' & Hver & -> & ->).
    assert (HR' : R s0 s1) by rel_trans.
    destruct (rely_version _ _ _ _ _ HR' Hrow Hrow') as [-> | Hlt]; [| lia].
    rewrite updated_row_self, Hv in Htx' by done. simpl. rewrite Hv.
    apply (Hok w' d' s1); auto. by etrans.
  - destruct Hpost as (-> & -> & Hnone). simpl. apply wp_bind, wp_raise.
    eapply (Herr _ _ d' s1); [done | by etrans | done |]. right; by left.
  - destruct Hpost as (-> & -> & Hex & Hne). simpl. apply wp_bind, wp_raise.
    eapply (Herr _ _ d' s1); [done | by etrans | done |]. right; right.
    split_and!; auto. exists s0, s2, row. split_and!; auto; [by etrans |].
    intros Hrow2. by apply (Hne row Hrow2).
Qed.

Definition username_taken n (excl : option UserId) s : Prop :=
  ∃ i x, st_users s !! i = Some x ∧ u_username x = n ∧ excl ≠ Some i.
Definition email_taken n (excl : option UserId) s : Prop :=
  ∃ i x, st_users s !! i = Some x ∧ u_email x = n ∧ excl ≠ Some i.

Lemma wp_ensure_unique {B} n m excl (k : unit → io W B) Φ w d s :
  in_tx w d s →
  (∀ w' d' s1 s2, R d d' → R s s1 → R s1 s2 →
     ¬ username_taken n excl s1 → ¬ email_taken m excl s2 → in_tx w' d' s2 → wp (k tt) Φ w') →
  (∀ e w' d' s1, R d d' → R s s1 → in_tx w' d' s1 →
     stmt_error conflict_of (λ f, shared f s1) e
     ∨ (e = UserConflictError FieldUsername ∧ username_taken n excl s1)
     ∨ (e = UserConflictError FieldEmail ∧ email_taken m excl s1) → Φ (Err e) w') →
  wp (bind (ensure_unique_values n m excl) k) Φ w.
Proof.
  intros Htx Hok Herr. apply wp_bind. unfold ensure_unique_values.
  eapply wp_tx; [apply (exists_by_username_law n excl) | done | |]; [| eauto].
  intros a w1 d1 s1 ? Hd1 Hs1 [-> Ha] Htx1. apply wp_bind. destruct a.
  { apply wp_raise. eapply Herr; eauto. right; left. split; [done |]. by apply Ha. }
  apply wp_ret. eapply wp_tx; [apply (exists_by_email_law m excl) | done | |].
  - intros b w2 d2 s2 ? Hd2 Hs2 [-> Hb] Htx2. destruct b.
    + apply wp_raise. eapply (Herr _ _ d2 s2); eauto; try by etrans.
      right; right. split; [done |]. by apply Hb.
    + apply wp_ret. eapply (Hok w2 d2 s1 s2); eauto; [by etrans | |].
      * by intros Ht%Ha.
      * by intros Ht%Hb.
  - intros e w2 d2 s2 Hd2 Hs2 He Htx2. eapply (Herr e w2 d2 s2); eauto; by etrans.
Qed.
End ServiceSteps.

(** ** Effects and causes of the use cases *)

(** The row [i] was [row], [op] was applied to it at a naive time, and the
    result is [x] with the next version. *)
Definition row_step `{UnicodeTables} (i : UserId) (op : datetime → user_op) (s : Store) (x : User) : Prop :=
  ∃ row now y, st_users s !! i = Some row ∧ dt_naive now = true
    ∧ run_user_op (op now) row = (y, Ok tt) ∧ x = with_version (u_version row + 1) y.

Definition put_user (x : User) : Store → Store := set_users (insert (u_id x) x).

Definition create_effect `{UnicodeTables} (c : CreateUserCommand) (dto : UserDTO) (s1 s2 : Store) : Prop :=
  ∃ i h now x, User_create i (cc_username c) (cc_email c) h now = Ok x
    ∧ hash_ok h = true ∧ st_users s1 !! mk_user_id i = None
    ∧ s2 = put_user x s1 ∧ dto = UserDTO_from_domain x.
Definition update_effect `{UnicodeTables} (c : UpdateUserCommand) (dto : UserDTO) (s1 s2 : Store) : Prop :=
  ∃ x, row_step (mk_user_id (uc_user_id c)) (OpUpdateProfile (uc_username c) (uc_email c)) s1 x
    ∧ s2 = put_user x s1 ∧ dto = UserDTO_from_domain x.
(** Between the update of the row and the revocation others may write. *)
Definition revoke_after (R : relation Store) (i : UserId) (x : User) (s1 s2 : Store) : Prop :=
  ∃ s, R (put_user x s1) s ∧ s2 = drop_sessions (session_of i) s.
Definition status_effect `{UnicodeTables} (R : relation Store) (c : ChangeUserStatusCommand)
    (dto : UserDTO) (s1 s2 : Store) : Prop :=
  ∃ x, row_step (mk_user_id (sc_user_id c)) (OpChangeStatus (sc_status c)) s1 x
    ∧ dto = UserDTO_from_domain x
    ∧ match sc_status c with
      | DISABLED => revoke_after R (mk_user_id (sc_user_id c)) x s1 s2
      | ACTIVE => s2 = put_user x s1
      end.
Definition reset_effect `{UnicodeTables} (R : relation Store) (c : ResetUserPasswordCommand)
    (_ : unit) (s1 s2 : Store) : Prop :=
  ∃ h x, hash_ok h = true ∧ row_step (mk_user_id (rc_user_id c)) (OpResetPassword h) s1 x
    ∧ revoke_after R (mk_user_id (rc_user_id c)) x s1 s2.
Definition delete_effect (i : uuid) (_ : unit) (s1 s2 : Store) : Prop :=
  is_Some (st_users s1 !! mk_user_id i)
  ∧ s2 = drop_sessions (session_of (mk_user_id i)) (set_users (delete (mk_user_id i)) s1).

(** The operation wrote the row of [i]. *)
Definition row_written `{UnicodeTables} (i : UserId) (op : datetime → user_op) : relation Store :=
  λ s1 s2, ∃ x, row_step i op s1 x ∧ s2 = put_user x s1.
(** The normalised name or address belongs to a user other than [excl]. *)
Definition profile_taken `{UnicodeTables} (n m : pystr) (excl : option UserId) (f : conflict_field) (s : Store) : Prop :=
  match f with
  | FieldUsername => ∃ v, Username_new n = Ok v ∧ username_taken v excl s
  | FieldEmail => ∃ v, EmailAddress_new m = Ok v ∧ email_taken v excl s
  end.
Definition invalid_profile `{UnicodeTables} (n m : pystr) (e : exn) : Prop :=
  e = InvalidUserDataError ∧ (Username_new n = Err e ∨ EmailAddress_new m = Err e).
Definition invalid_password (p : pystr) (e : exn) : Prop :=
  e = InvalidUserDataError ∧ Password_new p = Err e.

Definition create_cause `{UnicodeTables} (R : relation Store) (c : CreateUserCommand) (e : exn) (s : Store) : Prop :=
  conflict_cause R (λ s1 s2, ∃ dto, create_effect c dto s1 s2)
    (profile_taken (cc_username c) (cc_email c) None) e s
  ∨ invalid_profile (cc_username c) (cc_email c) e ∨ invalid_password (cc_password c) e.
Definition update_cause `{UnicodeTables} (R : relation Store) (c : UpdateUserCommand) (e : exn) (s : Store) : Prop :=
  conflict_cause R (row_written (mk_user_id (uc_user_id c)) (OpUpdateProfile (uc_username c) (uc_email c)))
    (profile_taken (uc_username c) (uc_email c) (Some (mk_user_id (uc_user_id c)))) e s
  ∨ missing_cause (uc_user_id c) e s ∨ stale_cause R (uc_user_id c) e s
  ∨ invalid_profile (uc_username c) (uc_email c) e.
Definition row_cause (R own : relation Store) (i : uuid) (e : exn) (s : Store) : Prop :=
  conflict_cause R own not_taken e s ∨ missing_cause i e s ∨ stale_cause R i e s.
Definition status_cause `{UnicodeTables} (R : relation Store) (c : ChangeUserStatusCommand) : exn → Store → Prop :=
  row_cause R (row_written (mk_user_id (sc_user_id c)) (OpChangeStatus (sc_status c))) (sc_user_id c).
Definition reset_cause `{UnicodeTables} (R : relation Store) (c : ResetUserPasswordCommand) (e : exn) (s : Store) : Prop :=
  row_cause R (λ s1 s2, ∃ h, hash_ok h = true ∧ row_written (mk_user_id (rc_user_id c)) (OpResetPassword h) s1 s2)
    (rc_user_id c) e s
  ∨ invalid_password (rc_password c) e.
Definition lookup_cause (R own : relation Store) (i : uuid) (e : exn) (s : Store) : Prop :=
  conflict_cause R own not_taken e s ∨ missing_cause i e s.
Definition delete_cause (R : relation Store) (i : uuid) : exn → Store → Prop := lookup_cause R (delete_effect i tt) i.

Lemma missing_not_foreign i e s : missing_cause i e s → foreign e = false.
Proof. by intros [-> _]. Qed.
Lemma stale_not_foreign R i e s : stale_cause R i e s → foreign e = false.
Proof. by intros [-> _]. Qed.

Lemma naive_status_never_fails `{UnicodeTables} op t x x' e :
  match op with OpUpdateProfile _ _ d | OpChangeStatus _ d | OpResetPassword _ d => d = t
  | OpAdvanceVersion => True end →
  dt_naive t = true → run_user_op op x = (x', Err e) →
  match op with OpUpdateProfile n m _ => invalid_profile n m e | _ => False end.
Proof.
  intros Hop Ht (_ & -> & Hc)%user_op_err. destruct op; subst; try congruence; try done.
  split; [done |]. naive_solver congruence.
Qed.

Section ServiceTheorems.
Context {W : Type} {T : UnicodeTables} {TL : UnicodeLaws} {U : UserUnitOfWork W}
  {R : relation Store} {L : UowLaws W R} {PH : PasswordHasher W} {SD : UserServiceDeps W}
  {SL : ServiceLaws W}.
Implicit Types (w : W) (d s : Store).

(** A use case that turns the value of its transaction into a DTO. *)
Lemma wp_map_outcome {A B} (m : io W A) (f : A → B) Q X w d :
  wp m (λ r w', ∃ d', idle w' d' ∧ outcome R (λ a, Q (f a)) X d r d') w →
  wp (let* x := m in ret (f x))%prog (λ r w', ∃ d', idle w' d' ∧ outcome R Q X d r d') w.
Proof.
  intros Hm. apply wp_bind. eapply wp_mono; [done |]. cbv beta.
  intros [a | e] w' (d' & Hi & Ho).
  - apply wp_ret. exists d'. split; [done |].
    destruct Ho as [? | (? & ? & ? & ?)]; [by left | done].
  - exists d'. split; [done |]. destruct Ho as [? | (e' & a & ? & ? & ?)]; [by left |].
    right. exists e', (f a). split_and!; congruence || done.
Qed.

Lemma outcome_of_abort {A} (Q : A → Store → Store → Prop) X e d d' :
  aborted R X e d d' → outcome R Q X d (Err e) d'.
Proof. by left. Qed.

(** Aborting a writing or reading transaction for a reason seen in [s']. *)
Lemma abort_with {A} (B : Store → result exn A → Store → Prop) X e w' d d' s s' :
  (∀ d1 d2, aborted R X e d1 d2 → B d1 (Err e) d2) →
  in_tx w' d' s → R d d' → R d s' → caused X e s' →
  ∃ d2 s2, in_tx w' d2 s2 ∧ body_outcome B X d (Err e) d2.
Proof.
  intros HB Htx Hd Hs Hc. exists d', s. split; [done |].
  destruct (caused_aborted X e d d' s' Hd Hs Hc). split; [by apply HB | by intros ? [= <-]].
Qed.

Lemma body_ok {A} (B : Store → result exn A → Store → Prop) X (a : A) w' d d' s :
  in_tx w' d' s → B d (Ok a) d' → ∃ d2 s2, in_tx w' d2 s2 ∧ body_outcome B X d (Ok a) d2.
Proof. intros. exists d', s. split; [done |]. by split. Qed.

Lemma stmt_caused X (P : conflict_field → Prop) e s :
  stmt_error conflict_of P e → (∀ f, P f → X (UserConflictError f) s) → caused X e s.
Proof. intros [He Hf] HP. left. split; eauto. Qed.

(** A failed commit of what was written from [s1] to [s]. *)
Lemma commit_caused X e s s1 :
  (foreign e = true ∧ conflict_of e = None ∨ ∃ f s', e = UserConflictError f ∧ R s s' ∧ shared f s') →
  (∀ f s', R s s' → shared f s' → X (UserConflictError f) s1) → caused X e s1.
Proof.
  intros [[? ?] | (f & s' & -> & ? & ?)] HX; [by apply caused_foreign |]. right. split; [done | eauto].
Qed.

(** Ending a transaction with a commit. *)
Lemma wp_commit_then {A} (a : A) Q X w d0 d s s1 :
  (∀ f s', R s s' → shared f s' → X (UserConflictError f) s1) →
  in_tx w d s → R d0 d → R d0 s1 → Q a s1 s →
  wp (uow_commit;;; ret a)%prog
    (λ r w', ∃ d' s', in_tx w' d' s' ∧ body_outcome (write_outcome R Q X) X d0 r d') w.
Proof.
  intros HX Htx Hd Hs1 HQ. apply wp_bind. eapply wp_commit; [done | |].
  - intros w' s' Hs Hu Htx'. apply wp_ret. eapply body_ok; [done |].
    exists s1, s, s'. split_and!; auto. reflexivity.
  - intros e w' d' s' Hd' Htx' He.
    eapply (abort_with (write_outcome R Q X)); [done | done | rel_trans | done |]. by eapply commit_caused.
Qed.

(** The name and the address that an accepted profile update sets. *)
Lemma profile_names n m t row x :
  run_user_op (OpUpdateProfile n m t) row = (x, Ok tt) →
  Username_new n = Ok (u_username x) ∧ EmailAddress_new m = Ok (u_email x).
Proof.
  cbv [run_user_op User_update_profile validate_local_datetime]. unprog.
  destruct (Username_new n) as [v |]; [| done]. destruct (EmailAddress_new m) as [v' |]; [| done].
  cbv [guard]. intros Hrun. repeat case_match; simplify_eq/=; done.
Qed.

Lemma taken_caused R' own n m v v' excl e s :
  Username_new n = Ok v → EmailAddress_new m = Ok v' →
  stmt_error conflict_of (λ f, shared f s) e
  ∨ (e = UserConflictError FieldUsername ∧ username_taken v excl s)
  ∨ (e = UserConflictError FieldEmail ∧ email_taken v' excl s) →
  caused (conflict_cause R' own (profile_taken n m excl)) e s.
Proof.
  intros Hn Hm [He | He]; [eapply stmt_caused; [done |]; intros f; apply conflict_now |].
  right. destruct He as [[-> Ht] | [-> Ht]]; (split; [done |]); eexists; (split; [done |]); left; simpl; eauto.
Qed.

Lemma caused_mono (X Y : exn → Store → Prop) e s :
  (∀ e, X e s → Y e s) → caused X e s → caused Y e s.
Proof. intros HXY [[He Hf] | [He HX]]; [left; split; eauto | right; auto]. Qed.

(** A failed look-up and a failed update as causes. *)
Lemma missing_caused X own taken e i s :
  (∀ e, conflict_cause R own taken e s ∨ missing_cause i e s → X e s) →
  stmt_error conflict_of (λ f, shared f s) e ∨ missing_cause i e s → caused X e s.
Proof.
  intros HX [He | He].
  - eapply stmt_caused; [done |]. intros f Hf. apply HX. left. by apply conflict_now.
  - right. split; [by eapply missing_not_foreign | apply HX; by right].
Qed.
Lemma update_caused X own taken i e s s2 (P : Prop) :
  (∀ e, conflict_cause R own taken e s ∨ missing_cause i e s ∨ stale_cause R i e s → X e s) →
  (P → own s s2) →
  stmt_error conflict_of (λ f, shared f s ∨ P ∧ shared f s2) e ∨ missing_cause i e s ∨ stale_cause R i e s →
  caused X e s.
Proof.
  intros HX Hown [He | He].
  - eapply stmt_caused; [done |]. intros f [Hf | [HP Hf]]; apply HX; left; [by apply conflict_now |].
    eapply conflict_own; [by apply Hown | apply rtc_refl | done].
  - right. split; [destruct He; [by eapply missing_not_foreign | by eapply stale_not_foreign] |]. apply HX. by right.
Qed.

Lemma update_body_outcome c w d :
  in_tx w d d →
  wp (update_body c) (λ r w', ∃ d' s', in_tx w' d' s' ∧
    body_outcome (write_outcome R (λ x s1 s2, update_effect c (UserDTO_from_domain x) s1 s2) (update_cause R c))
      (update_cause R c) d r d') w.
Proof.
  intros Htx. unfold update_body. eapply wp_find_required; [done | |].
  2:{ intros e w1 d1 s1 Hd Hs Htx1 He.
      eapply (abort_with (write_outcome R _ _)); [done | done | done | exact Hs |].
      eapply missing_caused; [| exact He]. intros e' [He' | He']; [left; exact He' | right; by left]. }
  intros row w1 d1 s1 Hd1 Hs1 Hrow Hid Hok Htx1.
  eapply (wp_clock_mutate (OpUpdateProfile (uc_username c) (uc_email c))); try done.
  2:{ intros t w2 e Ht Hrun -> Htx2.
      eapply (abort_with (write_outcome R _ _)); [done | done | done | exact Hs1 |].
      right. split; [done |]. right; right; right. by apply (naive_status_never_fails _ t) in Hrun. }
  intros t x w2 Ht Hrun Hx Hxid Hxc Hxv Htx2. destruct (profile_names _ _ _ _ _ Hrun) as [Hn Hm].
  assert (Hxi : u_id x = mk_user_id (uc_user_id c)) by by rewrite Hxid.
  eapply wp_ensure_unique; [done | |].
  2:{ intros e w3 d3 s3 Hd3 Hs3 Htx3 He.
      eapply (abort_with (write_outcome R _ _) _ e w3 d d3 s3 s3); [done | done | rel_trans | rel_trans |].
      eapply caused_mono; [| eapply taken_caused; [exact Hn | exact Hm |]]; [intros e' He'; by left |].
      rewrite <- Hxi. exact He. }
  intros w3 d3 s3 s3' Hd3 Hs3 Hs3' _ _ Htx3.
  assert (Hstep : ∀ s4, st_users s4 !! mk_user_id (uc_user_id c) = Some row →
    row_step (mk_user_id (uc_user_id c)) (OpUpdateProfile (uc_username c) (uc_email c)) s4
      (with_version (u_version row + 1) x)) by (intros; exists row, t, x; by split_and!).
  eapply (wp_update (uc_user_id c) row x (λ y, uow_commit;;; ret y)%prog _ w3 d3 s1 s3');
    [done | rel_trans | done | done | done | done | done | done | |].
  - intros w4 d4 s4 Hd4 Hs4 Hrow4 Htx4. rewrite <- Hxi in Htx4.
    eapply (wp_commit_then _ _ _ _ d d4 _ s4); [| done | rel_trans | rel_trans |].
    + intros f s' Hs' Hsh. left. eapply conflict_own; [| by apply later_of_rely | done]. eexists. by split; [apply Hstep |].
    + eexists. split; [by apply Hstep | done].
  - intros e w4 d4 s4 Hd4 Hs4 Htx4 He.
    eapply (abort_with (write_outcome R _ _) _ e w4 d d4 s4 s4); [done | done | rel_trans | rel_trans |].
    eapply update_caused; [| | exact He];
      [intros e' [He' | [He' | He']]; [left; exact He' | right; by left | right; right; by left] |].
    intros Hrow4. exists (with_version (u_version row + 1) x). split; [by apply Hstep |].
    unfold put_user. simpl. by rewrite Hxi.
Qed.

Lemma change_status_body_outcome c w d :
  in_tx w d d →
  wp (change_status_body c) (λ r w', ∃ d' s', in_tx w' d' s' ∧
    body_outcome (write_outcome R (λ x s1 s2, status_effect R c (UserDTO_from_domain x) s1 s2) (status_cause R c))
      (status_cause R c) d r d') w.
Proof.
  intros Htx. unfold change_status_body. eapply wp_find_required; [done | |].
  2:{ intros e w1 d1 s1 Hd Hs Htx1 He.
      eapply (abort_with (write_outcome R _ _)); [done | done | done | exact Hs |].
      eapply missing_caused; [| exact He]. intros e' [He' | He']; [left; exact He' | right; by left]. }
  intros row w1 d1 s1 Hd1 Hs1 Hrow Hid Hok Htx1.
  eapply (wp_clock_mutate (OpChangeStatus (sc_status c))); try done.
  2:{ intros t w2 e Ht Hrun -> Htx2. by apply (naive_status_never_fails _ t) in Hrun. }
  intros t x w2 Ht Hrun Hx Hxid Hxc Hxv Htx2.
  assert (Hst : u_status x = sc_status c).
  { cbv [run_user_op User_change_status validate_local_datetime] in Hrun. unprog.
    rewrite Ht in Hrun. by simplify_eq/=. }
  assert (Hxi : u_id x = mk_user_id (sc_user_id c)) by by rewrite Hxid.
  assert (Hstep : ∀ s4, st_users s4 !! mk_user_id (sc_user_id c) = Some row →
    row_step (mk_user_id (sc_user_id c)) (OpChangeStatus (sc_status c)) s4
      (with_version (u_version row + 1) x)) by (intros; exists row, t, x; by split_and!).
  eapply (wp_update (sc_user_id c) row x (change_status_finish c) _ w2 d1 s1 s1);
    [done | done | done | done | done | done | done | done | |].
  2:{ intros e w4 d4 s4 Hd4 Hs4 Htx4 He.
      eapply (abort_with (write_outcome R _ _) _ e w4 d d4 s4 s4); [done | done | rel_trans | rel_trans |].
      eapply update_caused; [| | exact He]; [intros e' [He' | [He' | He']]; [left; exact He' | right; by left | right; by right] |].
      intros Hrow4. exists (with_version (u_version row + 1) x). split; [by apply Hstep |].
      unfold put_user. simpl. by rewrite Hxi. }
  intros w4 d4 s4 Hd4 Hs4 Hrow4 Htx4. specialize (Hstep s4 Hrow4). rewrite <- Hxi in Htx4.
  assert (Hown : ∀ s5 f, later R (put_user (with_version (u_version row + 1) x) s4) s5 → shared f s5 →
    status_cause R c (UserConflictError f) s4).
  { intros s5 f Hl Hsh. left. eapply conflict_own; [| exact Hl | done]. eexists. by split. }
  unfold change_status_finish. simpl. rewrite Hst. destruct (decide (sc_status c = DISABLED)) as [Hdis | Hact].
  - apply wp_bind. eapply wp_tx; [apply session_remove_for_user_law | done | |].
    + intros a w5 d5 s5 s6 Hd5 Hs5 [-> _] Htx5. apply wp_ret.
      eapply (wp_commit_then _ _ _ w5 d d5 _ s4); [| done | rel_trans | rel_trans |].
      * intros f s' Hs' Hsh. apply (Hown s'); [| done]. etrans; [by apply later_of_rely |].
        etrans; [| by apply later_of_rely]. by apply later_of_users.
      * exists (with_version (u_version row + 1) x). split; [done |]. split; [done |].
        rewrite Hdis. by exists s5.
    + intros e w5 d5 s5 Hd5 Hs5 He Htx5.
      eapply (abort_with (write_outcome R _ _) _ e w5 d d5 s5 s4); [done | done | rel_trans | rel_trans |].
      eapply stmt_caused; [done |]. intros f. apply Hown. by apply later_of_rely.
  - apply wp_bind, wp_ret.
    eapply (wp_commit_then _ _ _ w4 d d4 _ s4); [| done | rel_trans | rel_trans |].
    + intros f s' Hs'. apply Hown. by apply later_of_rely.
    + exists (with_version (u_version row + 1) x). split; [done |]. split; [done |].
      by destruct (sc_status c).
Qed.

Lemma reset_password_body_outcome c h w d :
  hash_ok h = true → in_tx w d d →
  wp (reset_password_body (rc_user_id c) h) (λ r w', ∃ d' s', in_tx w' d' s' ∧
    body_outcome (write_outcome R (reset_effect R c) (reset_cause R c)) (reset_cause R c) d r d') w.
Proof.
  intros Hh Htx. unfold reset_password_body. eapply wp_find_required; [done | |].
  2:{ intros e w1 d1 s1 Hd Hs Htx1 He.
      eapply (abort_with (write_outcome R _ _)); [done | done | done | exact Hs |].
      eapply missing_caused; [| exact He]. intros e' [He' | He']; left; [left; exact He' | right; by left]. }
  intros row w1 d1 s1 Hd1 Hs1 Hrow Hid Hok Htx1.
  eapply (wp_clock_mutate (OpResetPassword h)); try done.
  2:{ intros t w2 e Ht Hrun -> Htx2. by apply (naive_status_never_fails _ t) in Hrun. }
  intros t x w2 Ht Hrun Hx Hxid Hxc Hxv Htx2.
  assert (Hxi : u_id x = mk_user_id (rc_user_id c)) by by rewrite Hxid.
  assert (Hstep : ∀ s4, st_users s4 !! mk_user_id (rc_user_id c) = Some row →
    row_step (mk_user_id (rc_user_id c)) (OpResetPassword h) s4
      (with_version (u_version row + 1) x)) by (intros; exists row, t, x; by split_and!).
  eapply (wp_update (rc_user_id c) row x (λ _, sessions_remove_for_user (mk_user_id (rc_user_id c));;;
    uow_commit)%prog _ w2 d1 s1 s1);
    [done | done | done | done | done | done | done | done | |].
  2:{ intros e w4 d4 s4 Hd4 Hs4 Htx4 He.
      eapply (abort_with (write_outcome R _ _) _ e w4 d d4 s4 s4); [done | done | rel_trans | rel_trans |].
      eapply update_caused; [| | exact He];
        [intros e' [He' | [He' | He']]; left; [left; exact He' | right; by left | right; by right] |].
      intros Hrow4. exists h. split; [done |]. exists (with_version (u_version row + 1) x). split; [by apply Hstep |].
      unfold put_user. simpl. by rewrite Hxi. }
  intros w4 d4 s4 Hd4 Hs4 Hrow4 Htx4. specialize (Hstep s4 Hrow4). rewrite <- Hxi in Htx4.
  assert (Hown : ∀ s5 f, later R (put_user (with_version (u_version row + 1) x) s4) s5 → shared f s5 →
    reset_cause R c (UserConflictError f) s4).
  { intros s5 f Hl Hsh. left. left. eapply conflict_own; [| exact Hl | done].
    exists h. split; [done |]. eexists. by split. }
  eapply wp_tx; [apply session_remove_for_user_law | done | |].
  - intros a w5 d5 s5 s6 Hd5 Hs5 [-> _] Htx5. eapply wp_commit; [done | |].
    + intros w6 s7 Hs7 Hu Htx6. eapply body_ok; [done |].
      eexists s4, _, s7. split_and!; [rel_trans | | exact Hs7 | done | reflexivity].
      exists h, (with_version (u_version row + 1) x). split_and!; [done | done |]. by exists s5.
    + intros e w6 d6 s7 Hd6 Htx6 He.
      eapply (abort_with (write_outcome R _ _) _ e w6 d d6 s7 s4); [done | done | rel_trans | rel_trans |].
      eapply commit_caused; [exact He |]. intros f s' Hs'. apply Hown.
      etrans; [by apply later_of_rely |]. etrans; [| by apply later_of_rely]. by apply later_of_users.
  - intros e w5 d5 s5 Hd5 Hs5 He Htx5.
    eapply (abort_with (write_outcome R _ _) _ e w5 d d5 s5 s4); [done | done | rel_trans | rel_trans |].
    eapply stmt_caused; [done |]. intros f. apply Hown. by apply later_of_rely.
Qed.

Lemma create_write_outcome c x i h now w d :
  User_create i (cc_username c) (cc_email c) h now = Ok x → hash_ok h = true →
  Username_new (cc_username c) = Ok (u_username x) → EmailAddress_new (cc_email c) = Ok (u_email x) →
  user_ok x = true → u_id x = mk_user_id i →
  (∀ d', R d d' → st_users d' !! mk_user_id i = None) → idle w d →
  wp (create_write x) (λ r w', ∃ d', idle w' d' ∧
    outcome R (λ _, create_effect c (UserDTO_from_domain x)) (create_cause R c) d r d') w.
Proof.
  intros Hx Hh Hn Hm Hok Hid Hfresh Hidle. unfold create_write.
  apply wp_write_uow; [done |].
  intros w1 d1 Hd1 Htx1. eapply wp_ensure_unique; [done | |].
  2:{ intros e w3 d3 s3 Hd3 Hs3 Htx3 He.
      eapply (abort_with (write_outcome R _ _)); [done | done | done | exact Hs3 |].
      eapply caused_mono; [| eapply taken_caused; [exact Hn | exact Hm |]]; [intros e' He'; left; exact He' |].
      destruct He as [He | [[He (i' & y & Hy & Hny & _)] | [He (i' & y & Hy & Hmy & _)]]]; [by left | right; left | right; right];
        (split; [done |]); by exists i', y. }
  intros w3 d3 s3 s3' Hd3 Hs3 Hs3' _ _ Htx3.
  assert (Hown : ∀ s4 s5 f, R d1 s4 → later R (put_user x s4) s5 → shared f s5 →
    create_cause R c (UserConflictError f) s4).
  { intros s4 s5 f Hs4 Hl Hsh. left. eapply conflict_own; [| exact Hl | done].
    exists (UserDTO_from_domain x), i, h, now, x. split_and!; auto. apply Hfresh. rel_trans. }
  eapply wp_tx; [by apply add_law | done | |].
  - intros a w4 d4 s4 s5 Hd4 Hs4 Hpost Htx4.
    rewrite Hpost in Htx4 by (rewrite Hid; apply Hfresh; rel_trans). clear Hpost. eapply wp_commit; [done | |].
    + intros w6 s7 Hs7 Hu Htx6. eapply body_ok; [done |].
      eexists s4, _, s7. split_and!; [rel_trans | | exact Hs7 | done | reflexivity].
      exists i, h, now, x. split_and!; auto. apply Hfresh; rel_trans.
    + intros e w6 d6 s7 Hd6 Htx6 He.
      eapply (abort_with (write_outcome R _ _) _ e w6 d1 d6 s7 s4); [done | done | rel_trans | rel_trans |].
      eapply commit_caused; [exact He |]. intros f s' Hs'. apply Hown; [rel_trans | by apply later_of_rely].
  - intros e w5 d5 s5 Hd5 Hs5 He Htx5.
    eapply (abort_with (write_outcome R _ _) _ e w5 d1 d5 s5 s5); [done | done | rel_trans | rel_trans |].
    eapply stmt_caused; [done |]. intros f Hf. left. by apply conflict_now.
Qed.

(** Identifiers generated from [d] on never clash with a user. *)
Definition fresh_ids d : Prop :=
  ∀ w1 d1 w2 i d2, R d d1 → idle w1 d1 → new_user_id w1 = (w2, Ok i) →
    R d1 d2 → st_users d2 !! mk_user_id i = None.

Lemma fresh_ids_later d d' : R d d' → fresh_ids d → fresh_ids d'.
Proof. intros Hd Hf w1 d1 w2 i d2 H1 Hi Hn H2. eapply (Hf w1 d1 w2 i d2); [rel_trans | done | done | done]. Qed.

(** What follows the hashing of the password. *)
Lemma create_hashed_outcome c n m h w d :
  Username_new (cc_username c) = Ok n → EmailAddress_new (cc_email c) = Ok m → hash_ok h = true →
  idle w d → fresh_ids d →
  wp (let* i := new_user_id in let* now := clock in
      let* x := lift (User_create i (username_value n) (email_value m) h now) in
      create_write x;;; ret (UserDTO_from_domain x))%prog
    (λ r w', ∃ d', idle w' d' ∧ outcome R (create_effect c) (create_cause R c) d r d') w.
Proof.
  intros Hn Hm Hh Hi Hids. apply wp_bind. eapply wp_of_run. intros w1 r Hrun.
  pose proof (wp_run _ _ _ _ _ (new_user_id_law w d Hi) Hrun) as (i & -> & Hi1).
  assert (Hfresh : ∀ d', R d d' → st_users d' !! mk_user_id i = None).
  { intros d' Hd'. by eapply (Hids w d w1 i d'); [reflexivity | | |]. }
  apply wp_bind. eapply wp_mono; [apply clock_law |]. cbv beta.
  intros r w2 (t & -> & Ht & Hk & _). specialize (Hk _ Hi1).
  pose proof (Username_new_ok _ _ Hn) as [_ Hnok]. pose proof (EmailAddress_new_ok _ _ Hm) as [_ Hmok].
  set (x := mk_user (mk_user_id i) n m h ACTIVE t t 1).
  assert (Hx : ∀ a b, Username_new a = Ok n → EmailAddress_new b = Ok m → User_create i a b h t = Ok x).
  { intros a b Ha Hb. unfold User_create. rewrite Ha, Hb. simpl.
    unfold User_new, validate_local_datetime, validate_version, guard. simpl. by rewrite Ht. }
  rewrite Hx by (by apply Username_new_of_ok || by apply EmailAddress_new_of_ok).
  apply wp_bind, wp_lift. apply wp_bind. eapply wp_mono.
  { apply (create_write_outcome c x i h t); try done; [by apply Hx |].
    apply user_ok_iff. simpl. split_and!; done || lia. }
  cbv beta. intros [[] | e] w3 (d3 & Hi3 & Ho); [apply wp_ret |]; exists d3; (split; [done |]).
  { destruct Ho as [Ho | (? & ? & ? & ?)]; [by left | done]. }
  destruct Ho as [Ho | (e' & a & ? & ? & ?)]; [by left | right].
  exists e', (UserDTO_from_domain x). repeat (split; [congruence || done |]). done.
Qed.

(** User creation.  A return means that, at one point, the row for a
    fresh identifier was inserted with the normalised name and address,
    status active and version 1, and committed with both unique
    constraints satisfied; any exception of the user context means that
    nothing was committed and the input was invalid or conflicted. *)
Theorem service_create_correct c w d :
  idle w d → fresh_ids d →
  wp (service_create c) (λ r w', ∃ d', idle w' d' ∧
    outcome R (create_effect c) (create_cause R c) d r d') w.
Proof.
  intros Hidle Hids. unfold service_create.
  assert (Hinv : ∀ e, create_cause R c e d → outcome R (create_effect c) (create_cause R c) d (Err e) d)
    by (intros e He; left; split; [reflexivity | right; exists d; split; [reflexivity | done]]).
  apply wp_bind_lift; [intros n Hn |].
  2:{ intros e He. exists d. split; [done |]. apply Hinv. right; left. split; [| by left].
      by apply domain_errors in He. }
  apply wp_bind_lift; [intros m Hm |].
  2:{ intros e He. exists d. split; [done |]. apply Hinv. right; left. split; [| by right].
      by apply domain_errors in He. }
  apply wp_bind_lift; [intros p Hp |].
  2:{ intros e He. exists d. split; [done |]. apply Hinv. right; right. split; [| done].
      by apply domain_errors in He. }
  apply wp_bind. eapply wp_mono.
  { apply (wp_read_uow _ (λ _ _, True) (create_cause R c) w d); [done |].
    intros w1 d1 Hd1 Htx1.
    assert (Hb : wp (bind (ensure_unique_values n m None) ret) (λ r w2, ∃ d2 s2, in_tx w2 d2 s2 ∧
      body_outcome (read_outcome R (λ _ _, True) (create_cause R c)) (create_cause R c) d1 r d2) w1).
    { eapply wp_ensure_unique; [done | |].
      - intros w3 d3 s3 s3' ? ? ? _ _ ?. apply wp_ret. eapply body_ok; [done |].
        split; [done |]. by exists d1.
      - intros e w3 d3 s3 Hd3 Hs3 Htx3 He.
        eapply (abort_with (read_outcome R _ _)); [done | done | done | exact Hs3 |].
        eapply caused_mono; [| by eapply taken_caused; [exact Hn | exact Hm |]]. intros e' He'. by left. }
    eapply wp_run in Hb; [| apply surjective_pairing]. revert Hb. unfold wp, bind, ret.
    by destruct (ensure_unique_values n m None w1) as [? [[] |]]. }
  cbv beta. intros [[] | e] w1 (d1 & Hi1 & Ho1); [| exists d1; split; [done | by left]].
  destruct Ho1 as [Hd1 _]. apply wp_bind. eapply wp_mono; [by apply hash_law |]. cbv beta.
  intros [h | e] w2 (d2 & Hd2 & Hi2 & Hh).
  2:{ exists d2. split; [done |]. left. split; [rel_trans | by left]. }
  assert (Hd02 : R d d2) by rel_trans.
  eapply wp_mono; [apply (create_hashed_outcome c n m h w2 d2 Hn Hm Hh Hi2 (fresh_ids_later _ _ Hd02 Hids)) |].
  cbv beta. intros r w3 (d3 & Hi3 & Ho). exists d3. split; [done |].
  eapply outcome_pre; [apply _ | exact Hd02 | exact Ho].
Qed.


Lemma service_update_outcome c w d :
  idle w d →
  wp (service_update c) (λ r w', ∃ d', idle w' d' ∧
    outcome R (update_effect c) (update_cause R c) d r d') w.
Proof.
  intros Hidle. apply wp_map_outcome, wp_write_uow; [done |].
  intros w1 d1 _ Htx. by apply update_body_outcome.
Qed.


(** Status change.  The row read is the row replaced; disabling also
    removes every session of the user in the same commit, enabling leaves
    the sessions alone. *)
Theorem service_change_status_correct c w d :
  idle w d →
  wp (service_change_status c) (λ r w', ∃ d', idle w' d' ∧
    outcome R (status_effect R c) (status_cause R c) d r d') w.
Proof.
  intros Hidle. apply wp_map_outcome, wp_write_uow; [done |].
  intros w1 d1 _ Htx. by apply change_status_body_outcome.
Qed.

(** Password reset.  The new hash replaces the one of the row read and
    all sessions of the user are removed in the same commit; a missing
    user or an invalid password commits nothing. *)
Theorem service_reset_password_correct c w d :
  idle w d →
  wp (service_reset_password c) (λ r w', ∃ d', idle w' d' ∧
    outcome R (reset_effect R c) (reset_cause R c) d r d') w.
Proof.
  intros Hidle. unfold service_reset_password. apply wp_bind_lift; [intros p Hp |].
  2:{ intros e He. exists d. split; [done |]. left. split; [reflexivity |]. right. exists d.
      split; [reflexivity |]. right. split; [by apply domain_errors in He | done]. }
  apply wp_bind. eapply wp_mono.
  { apply (wp_read_uow _ (λ _ _, True) (reset_cause R c) w d); [done |].
    intros w1 d1 _ Htx1. eapply wp_find_required; [done | |].
    - intros x w2 d2 s2 ? ? _ _ _ ?. apply wp_ret. eapply body_ok; [done |].
      split; [done |]. by exists d1.
    - intros e w2 d2 s2 Hd2 Hs2 Htx2 He. eapply (abort_with (read_outcome R _ _)); [done | done | done | exact Hs2 |].
      eapply missing_caused; [| exact He]. intros e' [He' | He']; left; [left; exact He' | right; by left]. }
  cbv beta. intros [[] | e] w1 (d1 & Hi1 & Ho1); [| exists d1; split; [done | by left]].
  destruct Ho1 as [Hd1 _]. apply wp_bind. eapply wp_mono; [by apply hash_law |]. cbv beta.
  intros [h | e] w2 (d2 & Hd2 & Hi2 & Hh).
  2:{ exists d2. split; [done |]. left. split; [rel_trans | by left]. }
  eapply wp_mono.
  { apply (wp_write_uow (reset_password_body (rc_user_id c) h) (reset_effect R c) (reset_cause R c) w2 d2);
      [done |].
    intros w3 d3 _ Htx. by apply reset_password_body_outcome. }
  cbv beta. intros r w3 (d3 & Hi3 & Ho3). assert (Hd : R d d2) by rel_trans.
  exists d3. split; [done |].
  eapply outcome_pre; [apply _ | exact Hd | done].
Qed.


(** Deletion removes the user and, by the foreign key, its sessions in
    one commit; deleting a missing user raises and changes nothing. *)
Theorem service_delete_correct i w d :
  idle w d →
  wp (service_delete i) (λ r w', ∃ d', idle w' d' ∧
    outcome R (delete_effect i) (delete_cause R i) d r d') w.
Proof.
  intros Hidle. unfold service_delete.
  apply (wp_write_uow _ (delete_effect i) (delete_cause R i)); [done |].
  intros w1 d1 _ Htx. eapply wp_tx; [apply remove_law | done | |].
  - cbv beta. intros a w2 d2 s1 s2 Hd Hs Hpost Htx2.
    destruct (st_users s1 !! mk_user_id i) as [x |] eqn:Hx; destruct Hpost as [-> ->].
    + apply wp_bind, wp_ret.
      assert (Heff : delete_effect i tt s1 (drop_sessions (session_of (mk_user_id i)) (set_users (delete (mk_user_id i)) s1)))
        by (split; [by rewrite Hx | done]).
      eapply wp_commit; [done | |].
      * intros w3 s3 Hs3 Hu Htx3. eapply body_ok; [done |].
        eexists s1, _, s3. split_and!; [done | exact Heff | exact Hs3 | done | reflexivity].
      * intros e w3 d3 s3 Hd3 Htx3 He.
        eapply (abort_with (write_outcome R _ _) _ e w3 d1 d3 s3 s1); [done | done | rel_trans | rel_trans |].
        eapply commit_caused; [exact He |]. intros f s' Hs' Hsh. left.
        eapply conflict_own; [exact Heff | by apply later_of_rely | done].
    + apply wp_bind, wp_raise.
      eapply (abort_with (write_outcome R _ _)); [done | done | done | exact Hs |].
      right. split; [done |]. right. by split.
  - intros e w2 d2 s2 Hd Hs He Htx2.
    eapply (abort_with (write_outcome R _ _)); [done | done | done | exact Hs |].
    eapply stmt_caused; [done |]. intros f Hf. left. by apply conflict_now.
Qed.

(** Reading.  [get] returns the snapshot of the stored aggregate, or
    [UserNotFoundError] when there is none, and writes nothing. *)
Theorem service_get_correct i w d :
  idle w d →
  wp (service_get i) (λ r w', ∃ d', idle w' d' ∧
    read_outcome R (λ dto s, ∃ x, st_users s !! mk_user_id i = Some x ∧ dto = UserDTO_from_domain x)
      (lookup_cause R no_write i) d r d') w.
Proof.
  intros Hidle. unfold service_get. apply wp_bind. eapply wp_mono.
  { apply (wp_read_uow _ (λ a s, a = st_users s !! mk_user_id i) (lookup_cause R no_write i) w d); [done |].
    intros w1 d1 _ Htx. eapply wp_mono; [by apply (find_law (mk_user_id i)) |]. cbv beta.
    intros [a | e] w2 (d2 & s1 & Hd & Hs & Hr).
    - destruct Hr as (s2 & [-> ->] & Htx2). eapply body_ok; [done |]. split; [done |]. by exists s1.
    - destruct Hr as [He Htx2]. eapply (abort_with (read_outcome R _ _)); [done | done | done | exact Hs |].
      eapply stmt_caused; [done |]. intros f Hf. left. by apply conflict_now. }
  cbv beta. intros [[x |] | e] w1 (d1 & Hi & Ho).
  - destruct Ho as (Hd & s & Hs & Hx). apply wp_ret. exists d1. split; [done |]. split; [done |].
    exists s. split; [done |]. by exists x.
  - destruct Ho as (Hd & s & Hs & Hx). apply wp_raise. exists d1. split; [done |]. split; [done |].
    right. exists s. split; [done |]. right. by split.
  - exists d1. split; [done | apply Ho].
Qed.

(** Listing.  A page is a slice of all users, newest first and ties by
    descending identifier, with the total counted just before; the echo of
    offset and limit is exact and nothing is written. *)
Theorem service_list_correct offset limit w d :
  idle w d →
  wp (service_list offset limit) (λ r w', ∃ d', idle w' d' ∧ R d d' ∧
    match r with
    | Ok p => ∃ s0 s1 page, R d s0 ∧ R s0 s1 ∧ page_of s1 offset limit page
        ∧ p = mk_page_dto (map UserDTO_from_domain page) (Z.of_nat (size (st_users s0))) offset limit
    | Err e => foreign e = true ∨ ∃ s, R d s ∧ reported_conflict R e s
    end) w.
Proof.
  intros Hidle. unfold service_list. apply wp_bind. eapply wp_mono.
  { apply (wp_read_uow _ (λ a s1, ∃ s0, R d s0 ∧ R s0 s1 ∧ a.2 = Z.of_nat (size (st_users s0))
        ∧ page_of s1 offset limit a.1) (reported_conflict R) w d); [done |].
    intros w1 d1 Hd1 Htx. eapply wp_mono; [by apply find_page_law |]. cbv beta.
    intros r w2 (d2 & s0 & s1 & Hd & Hs0 & Hs1 & Htx2 & Hr).
    destruct r as [a | e].
    - eapply body_ok; [done |]. split; [done |]. exists s1. split; [rel_trans |]. exists s0. split; [rel_trans |]. by split.
    - eapply (abort_with (read_outcome R _ _) _ e w2 d1 d2 s1 s1); [done | done | done | rel_trans |].
      eapply stmt_caused; [done |]. intros f. apply conflict_now. }
  cbv beta. intros [[page total] | e] w1 (d1 & Hi & Ho).
  - destruct Ho as (Hd & s1 & Hs & s0 & Hs0 & Hs1 & Ht & Hp). apply wp_ret. exists d1. split_and!; auto.
    simpl in Ht. subst total. by exists s0, s1, page.
  - destruct Ho as [Hd He]. exists d1. split_and!; auto.
Qed.

(** The check of the unique values fails when, from [d] on, the name stays
    taken or the address stays taken. *)
Definition stays_taken n m d : Prop :=
  (∀ s, R d s → username_taken n None s) ∨ (∀ s, R d s → email_taken m None s).

Lemma wp_known_conflict n m w d :
  stays_taken n m d → idle w d →
  wp (with_uow (ensure_unique_values n m None)) (λ r _, ∃ e, r = Err e) w.
Proof.
  intros Htaken Hidle. eapply wp_mono.
  { apply (wp_read_uow _ (λ _ _, False) (λ _ _, True) w d); [done |].
    intros w1 d1 Hd1 Htx.
    assert (Hb : wp (bind (ensure_unique_values n m None) ret) (λ r w2, ∃ d2 s2, in_tx w2 d2 s2 ∧
      body_outcome (read_outcome R (λ _ _, False) (λ _ _, True)) (λ _ _, True) d1 r d2) w1).
    { eapply wp_ensure_unique; [done | |].
      - intros w2 d2 s1 s2 Hd2 Hs1 Hs2 Hn Hm Htx2. exfalso.
        destruct Htaken as [Ht | Ht]; [apply Hn | apply Hm]; apply Ht; rel_trans.
      - intros e w2 d2 s2 Hd2 Hs2 Htx2 He.
        eapply (abort_with (read_outcome R _ _)); [done | done | done | exact Hs2 |].
        destruct He as [[? _] | [[-> _] | [-> _]]]; [left; by split | by right | by right]. }
    eapply wp_run in Hb; [| apply surjective_pairing]. revert Hb. unfold wp, bind, ret.
    by destruct (ensure_unique_values n m None w1) as [? [[] |]]. }
  cbv beta. intros [[] | e] w' (d' & Hi & Ho); [| by eexists]. by destruct Ho as (_ & s & _ & ?).
Qed.
End ServiceTheorems.

(** A known conflict is refused before any password hashing: the outcome
    and the world are the same whatever the hasher does. *)
Theorem service_create_conflict_before_hashing {W} {T : UnicodeTables} {TL : UnicodeLaws}
    {U : UserUnitOfWork W} {R : relation Store} {L : UowLaws W R} {SD : UserServiceDeps W}
    (PH1 PH2 : PasswordHasher W) c n m w d :
  Username_new (cc_username c) = Ok n → EmailAddress_new (cc_email c) = Ok m →
  stays_taken (R := R) n m d → idle w d →
  service_create (H1 := PH1) c w = service_create (H1 := PH2) c w
  ∧ is_ok (service_create (H1 := PH1) c w).2 = false.
Proof.
  intros Hn Hm Ht Hidle. unfold service_create. rewrite Hn, Hm. unfold lift at 1 2 4 5 7 8.
  unfold bind at 1 2 4 5. destruct (Password_new (cc_password c)) as [p | e]; [| done].
  pose proof (wp_known_conflict n m w d Ht Hidle) as Hc. unfold wp in Hc.
  unfold bind, lift. simpl.
  destruct (with_uow (ensure_unique_values n m None) w) as [w' r]. by destruct Hc as [e ->].
Qed.

(** ** Concrete runs *)
Section Demo.
Abbreviation DemoWorld := (UowFields * MemDb)%type.
Abbreviation demo_rely := (store_rely (RT := (=))).

#[export] Instance demo_hasher : PasswordHasher DemoWorld := {
  ph_hash p := lift (match PasswordHash_new (u "hash:" ++ password_value p) with
                     | Ok h => Ok h | Err _ => Err RuntimeError end);
  ph_verify_or_dummy p h := ret (bool_decide (h = Some (mk_password_hash (u "hash:" ++ p))));
}.
#[export] Instance demo_deps : UserServiceDeps DemoWorld := {
  new_user_id := ret (demo_uuid 2);
  clock := ret (demo_time 1000);
}.
#[export] Instance demo_service_laws : ServiceLaws DemoWorld.
Proof.
  split.
  - intros w. exists (demo_time 1000). by split_and!.
  - intros w d Hi. by exists (demo_uuid 2).
  - intros w d p Hi. simpl. exists d. split_and!; [reflexivity | done |].
    destruct (PasswordHash_new _) as [h | e] eqn:Hh; [| done].
    by apply PasswordHash_new_ok in Hh as [_ ?].
Qed.

Lemma demo_fresh : fresh_ids demo_store.
Proof.
  intros w1 d1 w2 i d2 H1 _ [= <- <-] H2. unfold store_rely in *.
  pose proof (tables_user_lookup d2 (mk_user_id (demo_uuid 2))) as Hl.
  rewrite <- H2, <- H1, tables_user_lookup in Hl. by destruct (st_users d2 !! _).
Qed.

Definition demo_create := mk_create_cmd (u " Bob ") (u "bob@example.org") (u "long password").
Definition demo_update := mk_update_cmd alice_id (u "alice2") (u "a2@example.org").
Definition demo_disable := mk_status_cmd alice_id DISABLED.
Definition demo_reset := mk_reset_cmd alice_id (u "new password").

Lemma service_create_correct_witness :
  is_ok (service_create demo_create demo_world).2 = true ∧
  wp (service_create demo_create) (λ r w', ∃ d', idle w' d' ∧
    outcome demo_rely (create_effect demo_create) (create_cause demo_rely demo_create) demo_store r d') demo_world.
Proof.
  split; [by vm_compute |].
  apply (service_create_correct demo_create demo_world demo_store); [apply demo_idle | apply demo_fresh].
Defined.


Lemma service_change_status_correct_witness :
  is_ok (service_change_status demo_disable demo_world).2 = true ∧
  wp (service_change_status demo_disable) (λ r w', ∃ d', idle w' d' ∧
    outcome demo_rely (status_effect demo_rely demo_disable)
      (status_cause demo_rely demo_disable) demo_store r d') demo_world.
Proof.
  split; [by vm_compute |].
  apply (service_change_status_correct demo_disable demo_world demo_store). apply demo_idle.
Defined.

Lemma service_reset_password_correct_witness :
  is_ok (service_reset_password demo_reset demo_world).2 = true ∧
  wp (service_reset_password demo_reset) (λ r w', ∃ d', idle w' d' ∧
    outcome demo_rely (reset_effect demo_rely demo_reset) (reset_cause demo_rely demo_reset)
      demo_store r d') demo_world.
Proof.
  split; [by vm_compute |].
  apply (service_reset_password_correct demo_reset demo_world demo_store). apply demo_idle.
Defined.

Lemma service_delete_correct_witness :
  is_ok (service_delete alice_id demo_world).2 = true ∧
  wp (service_delete alice_id) (λ r w', ∃ d', idle w' d' ∧
    outcome demo_rely (delete_effect alice_id) (delete_cause demo_rely alice_id) demo_store r d') demo_world.
Proof.
  split; [by vm_compute |].
  apply (service_delete_correct alice_id demo_world demo_store). apply demo_idle.
Defined.

Lemma service_get_correct_witness :
  is_ok (service_get alice_id demo_world).2 = true ∧
  wp (service_get alice_id) (λ r w', ∃ d', idle w' d' ∧
    read_outcome demo_rely
      (λ dto s, ∃ x, st_users s !! mk_user_id alice_id = Some x ∧ dto = UserDTO_from_domain x)
      (lookup_cause demo_rely no_write alice_id) demo_store r d') demo_world.
Proof.
  split; [by vm_compute |].
  apply (service_get_correct alice_id demo_world demo_store). apply demo_idle.
Defined.

Lemma service_list_correct_witness :
  is_ok (service_list 0 10 demo_world).2 = true ∧
  wp (service_list 0 10) (λ r w', ∃ d', idle w' d' ∧ demo_rely demo_store d' ∧
    match r with
    | Ok p => ∃ s0 s1 page, demo_rely demo_store s0 ∧ demo_rely s0 s1 ∧ page_of s1 0 10 page
        ∧ p = mk_page_dto (map UserDTO_from_domain page) (Z.of_nat (size (st_users s0))) 0 10
    | Err e => foreign e = true ∨ ∃ s, demo_rely demo_store s ∧ reported_conflict demo_rely e s
    end) demo_world.
Proof.
  split; [by vm_compute |].
  apply (service_list_correct 0 10 demo_world demo_store). apply demo_idle.
Defined.

Definition demo_conflict := mk_create_cmd (u "ALICE") (u "new@example.org") (u "long password").
Lemma demo_taken : stays_taken (R := demo_rely) (mk_username (u "alice")) (mk_email (u "new@example.org")) demo_store.
Proof.
  left. intros s Hs. exists (u_id alice), alice. split_and!; [| done | done].
  pose proof (tables_user_lookup s (u_id alice)) as Hl. unfold store_rely in Hs.
  rewrite <- Hs, tables_user_lookup in Hl. cbn [demo_store st_users] in Hl.
  rewrite lookup_singleton_eq in Hl. destruct (st_users s !! u_id alice) as [x |]; [| done].
  cbn [fmap option_fmap option_map] in Hl. apply (inj Some), (inj user_to_model) in Hl. by rewrite Hl.
Qed.

Lemma service_create_conflict_before_hashing_witness :
  let other : PasswordHasher DemoWorld :=
    {| ph_hash _ := raise OverflowError; ph_verify_or_dummy _ _ := raise OverflowError |} in
  service_create (H1 := demo_hasher) demo_conflict demo_world
    = service_create (H1 := other) demo_conflict demo_world
  ∧ is_ok (service_create (H1 := demo_hasher) demo_conflict demo_world).2 = false.
Proof.
  intros other.
  apply (service_create_conflict_before_hashing (R := demo_rely) demo_hasher other demo_conflict
    (mk_username (u "alice")) (mk_email (u "new@example.org")) demo_world demo_store).
  - by vm_compute.
  - by vm_compute.
  - apply demo_taken.
  - apply demo_idle.
Defined.
End Demo.
