(* ===== verification/AuthService.v ===== *)
(** * AuthService: login, sessions and log-out

    Models [app/contexts/user/application/auth_service.py].  The login
    limiter is optional, as in the source; a session is added, the limiter
    cleared and the transaction committed in that order. *)

From S2P Require Import Prelude Text Errors UserDomain UserContracts.
From S2P Require Import UserPersistence UserRefinement UserMemory UserService.
Local Open Scope prog_scope.

(** [__post_init__] of the service. *)
Definition AuthApplicationService_new (session_ttl_seconds : Z) : result exn Z :=
  let? _ := guard (0 <? session_ttl_seconds)%Z ValueError in Ok session_ttl_seconds.

Section Auth.
Context {W : Type} `{UnicodeTables, UserUnitOfWork W, PasswordHasher W, UserServiceDeps W,
  SessionTokenCodec W}.
Context (session_ttl_seconds : Z) (login_attempts : option (LoginAttemptLimiter W)).

Definition raise_if_locked (identity : pystr) : io W unit :=
  match login_attempts with
  | None => ret tt
  | Some l =>
      let* retry_after := la_retry_after identity in
      match retry_after with
      | Some seconds => raise (login_locked seconds)
      | None => ret tt
      end
  end.

Definition reject_credentials {A} (identity : pystr) : io W A :=
  match login_attempts with
  | Some l =>
      let* status := la_record_failure identity in
      match fs_retry_after_seconds status with
      | Some seconds => raise (login_locked seconds)
      | None => raise (invalid_credentials (Some (fs_remaining_attempts status)))
      end
  | None => raise (invalid_credentials None)
  end.

(** The account is still the one the password was verified against. *)
Definition unchanged_account (snapshot current : User) : bool :=
  bool_decide (u_status current = ACTIVE)
  && bool_decide (u_password_hash current = u_password_hash snapshot)
  && bool_decide (u_username current = u_username snapshot).

Definition clear_attempts (identity : pystr) : io W unit :=
  match login_attempts with Some l => la_clear identity | None => ret tt end.

Definition new_session (credential : SessionCredential) (user_id : UserId) (now : datetime) : UserSession :=
  {| s_token_digest := tc_digest credential; s_user_id := user_id; s_issued_at := now;
     s_expires_at := dt_add_seconds now session_ttl_seconds |}.

(** The second transaction of [login]. *)
Definition login_write (identity : pystr) (snapshot : User) : io W (SessionCredential * User) :=
  let* found := users_find (u_id snapshot) in
  let* current := match found with None => reject_credentials identity | Some x => ret x end in
  (if unchanged_account snapshot current then ret tt else reject_credentials identity);;;
  let* credential := tc_issue in
  let* now := clock in
  sessions_remove_expired now;;;
  let* session := lift (UserSession_new (new_session credential (u_id current) now)) in
  sessions_add session;;;
  clear_attempts identity;;;
  uow_commit;;;
  ret (credential, current).

Definition login_identity (c : LoginCommand) : pystr := py_lower (py_strip (lc_username c)).

(** Everything after the user name was accepted. *)
Definition login_verified (c : LoginCommand) (username : Username) : io W TokenDTO :=
  let identity := login_identity c in
  let* snapshot := with_uow (users_find_by_username username) in
  let* verified := ph_verify_or_dummy (lc_password c) (u_password_hash <$> snapshot) in
  let* snapshot :=
    match snapshot with
    | Some x => if (verified : bool) && bool_decide (u_status x = ACTIVE) then ret x
                else reject_credentials identity
    | None => reject_credentials identity
    end in
  let* res := with_uow (login_write identity snapshot) in
  ret {| tk_access_token := cr_token res.1; tk_expires_in := session_ttl_seconds;
         tk_user_id := user_id_value (u_id res.2); tk_token_type := u "bearer" |}.

Definition login (c : LoginCommand) : io W TokenDTO :=
  let identity := login_identity c in
  raise_if_locked identity;;;
  match Username_new (lc_username c) with
  | Ok username => login_verified c username
  | Err InvalidUserDataError =>
      ph_verify_or_dummy (lc_password c) None;;;
      reject_credentials identity
  | Err e => raise e
  end.

Definition cleanup_expired_sessions : io W Z :=
  with_uow (
    let* now := clock in
    let* removed_count := sessions_remove_expired now in
    uow_commit;;;
    ret removed_count).

Definition current_user (credential : SessionCredential) : io W UserDTO :=
  with_uow (
    let* found := sessions_find (tc_digest credential) in
    let* session := match found with None => raise AuthenticationRequiredError | Some x => ret x end in
    let* now := clock in
    let* valid := lift (UserSession_is_valid session now) in
    (if (valid : bool) then ret tt else raise AuthenticationRequiredError);;;
    let* found := users_find (s_user_id session) in
    match found with
    | Some x => if decide (u_status x = ACTIVE) then ret (UserDTO_from_domain x)
                else raise AuthenticationRequiredError
    | None => raise AuthenticationRequiredError
    end).

Definition logout (credential : SessionCredential) : io W unit :=
  with_uow (sessions_remove (tc_digest credential);;; uow_commit).
End Auth.

(** ** Laws of the collaborators *)

(** [m] leaves the user store to others, inside or outside a transaction,
    and its outcome satisfies [P]. *)
Definition frames {W A} `{L : UowLaws W (H := T) (U := U) R} (m : io W A) (P : result exn A → Prop) : Prop :=
  (∀ w d, idle w d → wp m (λ r w', P r ∧ ∃ d', R d d' ∧ idle w' d') w) ∧
  (∀ w d s, in_tx w d s → wp m (λ r w', P r ∧ ∃ d' s', R d d' ∧ R s s' ∧ in_tx w' d' s') w).

(** A fault of a collaborator that is not a conflict of the user tables. *)
Definition fault `{L : UowLaws W (H := T) (U := U) R} (e : exn) : Prop := foreign e = true ∧ conflict_of e = None.
Definition foreign_or_ok `{L : UowLaws W (H := T) (U := U) R} {A} (Q : A → Prop) (r : result exn A) : Prop :=
  match r with Ok a => Q a | Err e => fault e end.

Class AuthLaws (W : Type) `{SL : ServiceLaws W, TK : SessionTokenCodec W} (lim : option (LoginAttemptLimiter W)) : Prop := {
  verify_law pw h w d : idle w d →
    wp (ph_verify_or_dummy pw h) (λ r w', foreign_or_ok (λ _, True) r ∧ ∃ d', R d d' ∧ idle w' d') w;
  issue_law w d s : in_tx w d s →
    wp tc_issue (λ r w', foreign_or_ok (λ c, SessionCredential_new c = Ok c) r ∧ in_tx w' d s) w;
  digest_law c : fullmatch digest_pattern (tc_digest c) = true;
  retry_after_law l i : lim = Some l → frames (la_retry_after i) (foreign_or_ok (λ o, ∀ n, o = Some n → (0 < n)%Z));
  record_failure_law l i : lim = Some l →
    frames (la_record_failure i) (foreign_or_ok (λ st, LoginFailureStatus_new st = Ok st));
  clear_law l i : lim = Some l → frames (la_clear i) (foreign_or_ok (λ _, True));
}.

(** ** Effects and causes *)

Definition rejection (e : exn) : Prop :=
  (∃ n, e = InvalidCredentialsError n) ∨ (∃ n, e = LoginTemporarilyLockedError n).
Definition login_cause (R : relation Store) (e : exn) (s : Store) : Prop := reported_conflict R e s ∨ rejection e.

(** The account is found unchanged and active, expired sessions are removed,
    and the session for the digest of the issued credential is added. *)
Definition login_effect `{SessionTokenCodec W} (R : relation Store) (ttl : Z) (snapshot : User)
    (res : SessionCredential * User) (s1 s2 : Store) : Prop :=
  ∃ now s1b s1c, st_users s1 !! u_id snapshot = Some res.2
    ∧ unchanged_account snapshot res.2 = true ∧ dt_naive now = true
    ∧ R s1 s1b ∧ R (drop_sessions (session_expired now) s1b) s1c
    ∧ s2 = set_sessions (insert (tc_digest res.1) (new_session ttl res.1 (u_id snapshot) now)) s1c.

(** The name resolved to a user whose password the hasher accepted. *)
Definition authenticated `{PasswordHasher W} (R : relation Store) (n : Username) (pw : pystr)
    (d : Store) (x : User) : Prop :=
  (∃ s, R d s ∧ st_users s !! u_id x = Some x) ∧ u_username x = n ∧ u_status x = ACTIVE
  ∧ ∃ w w', ph_verify_or_dummy pw (Some (u_password_hash x)) w = (w', Ok true).

Section AuthTheorems.
Context {W : Type} {T : UnicodeTables} {TL : UnicodeLaws} {U : UserUnitOfWork W}
  {R : relation Store} {L : UowLaws W R} {PH : PasswordHasher W} {SD : UserServiceDeps W}
  {SL : ServiceLaws W} {TK : SessionTokenCodec W} (ttl : Z) (lim : option (LoginAttemptLimiter W))
  {AL : AuthLaws W lim}.
Implicit Types (w : W) (d s : Store).

(** Digests of issued credentials never clash with a stored session. *)
Definition fresh_tokens d : Prop :=
  ∀ w d0 s w' c now s1 s2, R d s → in_tx w d0 s → tc_issue w = (w', Ok c) →
    R s s1 → R (drop_sessions (session_expired now) s1) s2 → st_sessions s2 !! tc_digest c = None.

(** *** The limiter *)

Lemma frames_bind {A B} (m : io W A) (k : A → io W B) Q P :
  frames m (foreign_or_ok Q) → (∀ e, fault e → P (Err e)) →
  (∀ a, Q a → frames (k a) P) → frames (bind m k) P.
Proof.
  intros [Hi Ht] Herr Hk. split.
  - intros w d Hd. apply wp_bind. eapply wp_mono; [by apply Hi |]. cbv beta.
    intros [a | e] w1 (HQ & d1 & Hd1 & Hi1); [| by eauto].
    eapply wp_mono; [by apply (proj1 (Hk a HQ)) |]. cbv beta.
    intros r w2 (? & d2 & ? & ?). split; [done |]. exists d2. split; [rel_trans | done].
  - intros w d s Hd. apply wp_bind. eapply wp_mono; [by eapply Ht |]. cbv beta.
    intros [a | e] w1 (HQ & d1 & s1 & Hd1 & Hs1 & Hi1); [| by eauto 10].
    eapply wp_mono; [by eapply (proj2 (Hk a HQ)) |]. cbv beta.
    intros r w2 (? & d2 & s2 & ? & ? & ?). split; [done |]. exists d2, s2.
    split_and!; [rel_trans | rel_trans | done].
Qed.

Lemma frames_raise {A} e (P : result exn A → Prop) : P (Err e) → frames (raise e) P.
Proof.
  intros HP. split; intros; apply wp_raise; (split; [done |]); repeat eexists; done || reflexivity.
Qed.

Definition rejected {A} (r : result exn A) : Prop := ∃ e, r = Err e ∧ (fault e ∨ rejection e).

Lemma status_positive st : LoginFailureStatus_new st = Ok st →
  match fs_retry_after_seconds st with
  | Some n => login_locked n = LoginTemporarilyLockedError n
  | None => invalid_credentials (Some (fs_remaining_attempts st)) =
            InvalidCredentialsError (Some (fs_remaining_attempts st))
  end.
Proof.
  unfold LoginFailureStatus_new, guard, result_bind, login_locked, invalid_credentials.
  destruct st as [n [m |]]; simpl; intros Hst; repeat case_bool; simplify_eq/=; to_prop; auto; lia.
Qed.

Lemma frames_reject {A} identity : frames (@reject_credentials W lim A identity) rejected.
Proof.
  unfold reject_credentials. pose proof record_failure_law as Hrec. destruct lim as [l |].
  - eapply frames_bind; [by apply Hrec | by intros e He; exists e; auto |].
    intros st Hst%status_positive. destruct (fs_retry_after_seconds st) as [n |]; rewrite Hst;
      apply frames_raise; eexists; (split; [done |]); right; [right | left]; eauto.
  - apply frames_raise. eexists. split; [done |]. right; left. by eexists.
Qed.

Lemma frames_locked identity : frames (@raise_if_locked W lim identity)
  (λ r, match r with Ok _ => True | Err e => fault e ∨ rejection e end).
Proof.
  unfold raise_if_locked. pose proof retry_after_law as Hlaw. destruct lim as [l |].
  - eapply frames_bind; [by apply Hlaw | by intros e He; left |]. intros [n |] Hn.
    + apply frames_raise. right. right. unfold login_locked. specialize (Hn n eq_refl).
      rewrite (proj2 (Z.leb_gt n 0)) by lia. by eexists.
    + split; intros; apply wp_ret; (split; [done |]); repeat eexists; done || reflexivity.
  - split; intros; apply wp_ret; (split; [done |]); repeat eexists; done || reflexivity.
Qed.

Lemma frames_clear identity : frames (@clear_attempts W lim identity) (foreign_or_ok (λ _, True)).
Proof.
  unfold clear_attempts. pose proof clear_law as Hlaw. destruct lim as [l |]; [by apply Hlaw |].
  split; intros; apply wp_ret; (split; [done |]); repeat eexists; done || reflexivity.
Qed.

(** Rejecting inside the second transaction, in front of a continuation. *)
Lemma wp_reject_tx {A B} identity (k : A → io W B) Q w d0 d s :
  in_tx w d s → R d0 d →
  wp (bind (reject_credentials lim identity) k)
    (λ r w', ∃ d' s', in_tx w' d' s' ∧ body_outcome (write_outcome R Q (login_cause R)) (login_cause R) d0 r d') w.
Proof.
  intros Htx Hd. apply wp_bind. eapply wp_mono; [by eapply (proj2 (frames_reject (A := A) identity)) |].
  cbv beta. intros r w' ((e & -> & He) & d' & s' & ? & ? & ?).
  eapply (abort_with (write_outcome R _ _) _ e w' d0 d' s' d0); [done | done | rel_trans | reflexivity |].
  destruct He as [[? ?] | He]; [by apply caused_foreign | right]. split; [by destruct He as [[? ->] | [? ->]] | by right].
Qed.

Lemma new_session_ok c i now : (0 < ttl)%Z → dt_naive now = true →
  UserSession_new (new_session ttl c i now) = Ok (new_session ttl c i now)
  ∧ session_ok (new_session ttl c i now) = true.
Proof.
  intros Httl Hnow. pose proof (digest_law c) as Hdig.
  assert (Hexp : (dt_us now < dt_us (dt_add_seconds now ttl))%Z) by (simpl; lia).
  assert (Hn2 : dt_naive (dt_add_seconds now ttl) = true) by done.
  unfold UserSession_new, session_ok, session_local_datetime, guard, dt_leb, dt_ltb.
  cbn [new_session s_token_digest s_issued_at s_expires_at]. rewrite Hdig, Hnow, Hn2. simpl.
  rewrite (proj2 (Z.leb_gt _ _)) by done. split; [done | by apply Z.ltb_lt].
Qed.

(** The transaction after the credential was issued, from the store [s]. *)
Lemma login_add_outcome identity snapshot cur w0 c now w d0 d s1 s :
  (0 < ttl)%Z → dt_naive now = true → in_tx w d s → R d0 d → R d0 s1 → R s1 s →
  st_users s1 !! u_id snapshot = Some cur → u_id cur = u_id snapshot →
  unchanged_account snapshot cur = true →
  fresh_tokens s1 → (∃ wi dd, in_tx wi dd s1 ∧ tc_issue wi = (w0, Ok c)) →
  wp (sessions_remove_expired now;;;
      let* session := lift (UserSession_new (new_session ttl c (u_id cur) now)) in
      sessions_add session;;; clear_attempts lim identity;;; uow_commit;;; ret (c, cur))%prog
    (λ r w', ∃ d' s', in_tx w' d' s' ∧
      body_outcome (write_outcome R (login_effect R ttl snapshot) (login_cause R)) (login_cause R) d0 r d') w.
Proof.
  intros Httl Hnow Htx Hd Hs1 Hs Hcur Hid Hun Hfresh (wi & dd & Htxi & Hissue).
  destruct (new_session_ok c (u_id cur) now Httl Hnow) as [Hnew Hok].
  assert (Hcon : ∀ s', later R s1 s' → ∀ f, shared f s' → login_cause R (UserConflictError f) s1).
  { intros s' Hl f Hf. left. by eapply conflict_later. }
  eapply wp_tx; [apply (session_remove_expired_law now) | done | |].
  2:{ intros e w1 d1 s2 Hd1 Hs2 He Htx1.
      eapply (abort_with (write_outcome R _ _)); [done | done | rel_trans | exact Hs1 |].
      eapply stmt_caused; [done |]. apply Hcon, later_of_rely. rel_trans. }
  intros n w1 d1 s1b ? Hd1 Hs1b [-> _] Htx1. rewrite Hnew. apply wp_bind, wp_lift.
  assert (Hl1 : later R s1 (drop_sessions (session_expired now) s1b)).
  { transitivity s1b; [apply later_of_rely; rel_trans | by apply later_of_users]. }
  eapply wp_tx; [by apply session_add_law | done | |].
  2:{ intros e w2 d2 s2 Hd2 Hs2 He Htx2.
      eapply (abort_with (write_outcome R _ _)); [done | done | rel_trans | exact Hs1 |].
      eapply stmt_caused; [done |]. apply Hcon. etrans; [exact Hl1 | by apply later_of_rely]. }
  intros [] w2 d2 s1c s2 Hd2 Hs1c Hadd Htx2.
  rewrite Hadd in Htx2.
  2:{ eapply (Hfresh wi dd s1); [reflexivity | done | done | | exact Hs1c]. rel_trans. }
  apply wp_bind. eapply wp_mono; [by eapply (proj2 (frames_clear identity)) |]. cbv beta.
  intros [[] | e] w3 (He & d3 & s3 & Hd3 & Hs3 & Htx3).
  2:{ destruct He. eapply (abort_with (write_outcome R _ _)); [done | done | rel_trans | exact Hs1 | by apply caused_foreign]. }
  eapply (wp_mono _ (λ r w', ∃ d' s', in_tx w' d' s' ∧ body_outcome (write_outcome R
    (λ res sa sb, ∃ sm, login_effect R ttl snapshot res sa sm ∧ R sm sb) (login_cause R)) (login_cause R) d0 r d')).
  - eapply (wp_commit_then _ _ _ _ d0 d3 s3 s1); [| done | rel_trans | done |].
    + intros f s' Hs'. apply Hcon. etrans; [exact Hl1 |]. etrans; [by apply later_of_rely |].
      transitivity (set_sessions (insert (tc_digest c) (new_session ttl c (u_id cur) now)) s1c);
        [by apply later_of_users |]. apply later_of_rely. etrans; [exact Hs3 | exact Hs'].
    + eexists. split; [| exact Hs3]. rewrite Hid. exists now, s1b, s1c. split_and!; auto. rel_trans.
  - intros [a | e] w' (d' & s' & Htx' & Ho & HX); exists d', s'; (split; [done |]); [| by split].
    split; [| done].
    destruct Ho as (sa & sb & sc & H1 & (sm & Hm & H2) & H3 & H4 & H5).
    exists sa, sm, sc. split_and!; auto. rel_trans.
Qed.

Lemma login_write_outcome identity snapshot w d :
  (0 < ttl)%Z → fresh_tokens d → in_tx w d d →
  wp (login_write ttl lim identity snapshot) (λ r w', ∃ d' s', in_tx w' d' s' ∧
    body_outcome (write_outcome R (login_effect R ttl snapshot) (login_cause R)) (login_cause R) d r d') w.
Proof.
  intros Httl Hfresh Htx. unfold login_write.
  eapply wp_tx; [apply (find_law (u_id snapshot)) | done | |].
  2:{ intros e w1 d1 s1 Hd Hs He Htx1.
      eapply (abort_with (write_outcome R _ _)); [done | done | done | exact Hs |].
      eapply stmt_caused; [done |]. intros f Hf. left. by apply conflict_now. }
  intros found w1 d1 s1 ? Hd1 Hs1 [-> ->] Htx1.
  destruct (st_users s1 !! u_id snapshot) as [cur |] eqn:Hcur; [| by eapply wp_reject_tx].
  apply wp_bind, wp_ret. destruct (unchanged_account snapshot cur) eqn:Hun; [| by eapply wp_reject_tx].
  apply wp_bind, wp_ret. apply wp_bind, wp_of_run. intros w2 r Hissue.
  pose proof (wp_run _ _ _ _ _ (issue_law w1 d1 s1 Htx1) Hissue) as [Hr Htx2].
  destruct r as [c | e].
  2:{ destruct Hr. eapply (abort_with (write_outcome R _ _)); [done | done | done | exact Hs1 | by apply caused_foreign]. }
  apply wp_bind. eapply wp_mono; [apply clock_law |]. cbv beta.
  intros r w3 (now & -> & Hnow & _ & Hkeep). specialize (Hkeep _ _ Htx2).
  destruct (store_user_ok _ _ _ _ _ Htx1 Hcur) as [Hid _].
  eapply login_add_outcome; eauto; [reflexivity |].
  intros wa da s wb c' now' sa sb Hs. apply Hfresh. rel_trans.
Qed.

Lemma fresh_tokens_later d d' : R d d' → fresh_tokens d → fresh_tokens d'.
Proof. intros Hd Hf w d0 s w' c now s1 s2 Hs. apply Hf. rel_trans. Qed.

(** Rejecting outside a transaction. *)
Lemma wp_reject_idle {A B} identity (k : A → io W B) Q w d0 d :
  idle w d → R d0 d →
  wp (bind (reject_credentials lim identity) k)
    (λ r w', ∃ d', idle w' d' ∧ outcome R Q (login_cause R) d0 r d') w.
Proof.
  intros Hi Hd. apply wp_bind. eapply wp_mono; [by apply (proj1 (frames_reject (A := A) identity)) |].
  cbv beta. intros r w' ((e & -> & He) & d' & ? & ?). exists d'. split; [done |]. left.
  split; [rel_trans |]. destruct He as [[? _] | ?]; [by left | right]. exists d0. split; [reflexivity | by right].
Qed.

Definition login_token (res : SessionCredential * User) : TokenDTO :=
  {| tk_access_token := cr_token res.1; tk_expires_in := ttl;
     tk_user_id := user_id_value (u_id res.2); tk_token_type := u "bearer" |}.

Definition login_done (c : LoginCommand) (n : Username) d (dto : TokenDTO) (s1 s2 : Store) : Prop :=
  ∃ x res, authenticated R n (lc_password c) d x ∧ login_effect R ttl x res s1 s2 ∧ dto = login_token res.

Lemma login_found n w d :
  idle w d →
  wp (with_uow (users_find_by_username n)) (λ r w', ∃ d', idle w' d' ∧
    read_outcome R (λ a s, ∀ x, a = Some x → st_users s !! u_id x = Some x ∧ u_username x = n)
      (login_cause R) d r d') w.
Proof.
  intros Hi. apply wp_read_uow; [done |]. intros w1 d1 Hd1 Htx.
  eapply wp_mono; [by apply (find_by_username_law n) |]. cbv beta.
  intros [a | e] w2 (d2 & s1 & Hd & Hs & Hr).
  - destruct Hr as (s2 & [-> Ha] & Htx2). eapply body_ok; [done |]. split; [done |].
    exists s1. split; [done |]. by intros x ->.
  - destruct Hr as [He Htx2]. eapply (abort_with (read_outcome R _ _)); [done | done | done | exact Hs |].
    eapply stmt_caused; [done |]. intros f Hf. left. by apply conflict_now.
Qed.

Lemma login_verified_outcome c n w d0 d :
  (0 < ttl)%Z → fresh_tokens d → idle w d → R d0 d →
  wp (login_verified ttl lim c n) (λ r w', ∃ d', idle w' d' ∧
    outcome R (login_done c n d0) (login_cause R) d0 r d') w.
Proof.
  intros Httl Hfresh Hi Hd. unfold login_verified. apply wp_bind.
  eapply wp_mono; [by apply (login_found n) |]. cbv beta.
  intros [a | e] w1 (d1 & Hi1 & Ho1).
  2:{ exists d1. split; [done |]. left. eapply aborted_pre; [apply _ | exact Hd | exact Ho1]. }
  destruct Ho1 as (Hd1 & s & Hs & Ha). apply wp_bind, wp_of_run. intros w2 r Hrun.
  pose proof (wp_run _ _ _ _ _ (verify_law _ _ _ _ Hi1) Hrun) as (Hr & d2 & Hd2 & Hi2).
  destruct r as [verified | e]; [| destruct Hr; exists d2; split; [done |]; left; split; [rel_trans | by left]].
  destruct a as [x |]; [| eapply wp_reject_idle; [exact Hi2 | rel_trans]].
  destruct (verified && bool_decide (u_status x = ACTIVE)) eqn:Hv; [| eapply wp_reject_idle; [exact Hi2 | rel_trans]].
  apply andb_true_iff in Hv as [-> Hact%bool_decide_eq_true].
  apply wp_bind, wp_ret, wp_map_outcome.
  destruct (Ha x eq_refl) as [Hx Hn].
  eapply wp_mono.
  { apply (wp_write_uow _ (login_effect R ttl x) (login_cause R) w2 d2); [done |].
    intros w3 d3 Hd3 Htx3. apply login_write_outcome; [done | | done].
    eapply fresh_tokens_later; [| exact Hfresh]. rel_trans. }
  cbv beta. intros r w3 (d3 & Hi3 & Ho3). exists d3. split; [done |].
  assert (Hauth : authenticated R n (lc_password c) d0 x).
  { split_and!; auto; [exists s; split; [rel_trans | done] | by exists w1, w2]. }
  assert (Hd02 : R d0 d2) by rel_trans.
  eapply outcome_pre; [apply _ | exact Hd02 |].
  revert Ho3. apply outcome_mono. intros res sa sb He. by exists x, res.
Qed.

Lemma login_outcome c w d :
  (0 < ttl)%Z → fresh_tokens d → idle w d →
  wp (login ttl lim c) (λ r w', ∃ d', idle w' d' ∧
    outcome R (λ dto s1 s2, ∃ n, Username_new (lc_username c) = Ok n ∧ login_done c n d dto s1 s2)
      (login_cause R) d r d') w.
Proof.
  intros Httl Hfresh Hi. unfold login. apply wp_bind.
  eapply wp_mono; [by apply (proj1 (frames_locked (login_identity c))) |]. cbv beta.
  intros [[] | e] w1 (Hr & d1 & Hd1 & Hi1).
  2:{ exists d1. split; [done |]. left. split; [done |]. destruct Hr as [[? _] | ?]; [by left | right].
      exists d. split; [reflexivity | by right]. }
  destruct (Username_new (lc_username c)) as [n | e] eqn:Hn.
  - eapply wp_mono; [by apply (login_verified_outcome c n w1 d d1); [| eapply fresh_tokens_later | |] |].
    cbv beta. intros r w' (d' & Hi' & Ho). exists d'. split; [done |].
    revert Ho. apply outcome_mono. intros dto sa sb Hdone. by exists n.
  - pose proof Hn as ->%domain_errors. apply wp_bind.
    eapply wp_mono; [by apply verify_law |]. cbv beta. intros [v | e] w2 (Hv & d2 & Hd2 & Hi2).
    2:{ destruct Hv. exists d2. split; [done |]. left. split; [rel_trans | by left]. }
    eapply wp_mono; [by apply (proj1 (frames_reject (login_identity c))) |]. cbv beta.
    intros r w3 ((e & -> & He) & d3 & ? & ?). exists d3. split; [done |]. left. split; [rel_trans |].
    destruct He as [[? _] | ?]; [by left | right]. exists d. split; [reflexivity | by right].
Qed.


(** The session and its user, read one after the other, and why a credential
    is refused. *)
Definition session_accepted c d (dto : UserDTO) s : Prop :=
  ∃ s0 x y now, R d s0 ∧ R s0 s ∧ st_sessions s0 !! tc_digest c = Some x
    ∧ UserSession_is_valid x now = Ok true ∧ st_users s !! s_user_id x = Some y
    ∧ u_status y = ACTIVE ∧ dto = UserDTO_from_domain y.
Definition session_refused c (e : exn) s : Prop :=
  reported_conflict R e s ∨ e = AuthenticationRequiredError ∧
    (st_sessions s !! tc_digest c = None
     ∨ (∃ x now, st_sessions s !! tc_digest c = Some x ∧ dt_naive now = true
         ∧ UserSession_is_valid x now = Ok false)
     ∨ ∃ s0 x, R s0 s ∧ st_sessions s0 !! tc_digest c = Some x
         ∧ ∀ y, st_users s !! s_user_id x = Some y → u_status y ≠ ACTIVE).

(** A session authenticates exactly when it is stored under the digest
    of the credential, the current time lies in its validity, and its user is
    stored and active; then the user is returned.  Every other state is
    refused with [AuthenticationRequiredError]; nothing is ever written. *)
Theorem current_user_correct c w d :
  idle w d →
  wp (current_user c) (λ r w', ∃ d', idle w' d' ∧
    read_outcome R (session_accepted c d) (session_refused c) d r d') w.
Proof.
  intros Hi. unfold current_user. apply wp_read_uow; [done |].
  intros w1 d1 Hd1 Htx. eapply wp_tx; [apply (session_find_law (tc_digest c)) | done | |].
  2:{ intros e w2 d2 s2 Hd Hs He Htx2.
      eapply (abort_with (read_outcome R _ _)); [done | done | done | exact Hs |].
      eapply stmt_caused; [done |]. intros f Hf. left. by apply conflict_now. }
  intros a w2 d2 s2 ? Hd2 Hs2 [-> ->] Htx2.
  destruct (st_sessions s2 !! tc_digest c) as [x |] eqn:Hx.
  2:{ apply wp_bind, wp_raise.
      eapply (abort_with (read_outcome R _ _)); [done | done | done | exact Hs2 |].
      right. split; [done |]. right. by auto. }
  apply wp_bind, wp_ret. apply wp_bind. eapply wp_mono; [apply clock_law |]. cbv beta.
  intros r w3 (now & -> & Hnow & _ & Hkeep). specialize (Hkeep _ _ Htx2).
  assert (Hval : ∃ b, UserSession_is_valid x now = Ok b).
  { unfold UserSession_is_valid, session_local_datetime, guard. rewrite Hnow. by eexists. }
  destruct Hval as [b Hb]. rewrite Hb. apply wp_bind, wp_lift. destruct b.
  2:{ apply wp_bind, wp_raise.
      eapply (abort_with (read_outcome R _ _)); [done | done | done | exact Hs2 |].
      right. split; [done |]. right. split; [done |]. right; left. by exists x, now. }
  apply wp_bind, wp_ret. eapply wp_tx; [apply (find_law (s_user_id x)) | done | |].
  2:{ intros e w4 d4 s4 Hd Hs He Htx4.
      eapply (abort_with (read_outcome R _ _) _ e w4 d1 d4 s4 s4); [done | done | rel_trans | rel_trans |].
      eapply stmt_caused; [done |]. intros f Hf. left. by apply conflict_now. }
  intros a w4 d4 s4 ? Hd4 Hs4 [-> ->] Htx4.
  assert (Href : (∀ y, st_users s4 !! s_user_id x = Some y → u_status y ≠ ACTIVE) →
    wp (raise AuthenticationRequiredError) (λ r w', ∃ d' s', in_tx w' d' s' ∧
      body_outcome (read_outcome R (session_accepted c d) (session_refused c)) (session_refused c) d1 r d') w4).
  { intros Hno. apply wp_raise. eapply (abort_with (read_outcome R _ _) _ _ w4 d1 d4 s4 s4);
      [done | done | rel_trans | rel_trans |].
    right. split; [done |]. right. split; [done |]. right; right. by exists s2, x. }
  destruct (st_users s4 !! s_user_id x) as [y |] eqn:Hy; [destruct (decide (u_status y = ACTIVE)) |].
  - apply wp_ret. eapply body_ok; [done |]. split; [rel_trans |]. exists s4.
    split; [rel_trans |]. exists s2, x, y, now. split_and!; auto. rel_trans.
  - apply Href. by intros ? [= <-].
  - by apply Href.
Qed.


(** Log-out is idempotent: it returns whether or not the session exists,
    and what it commits is a store without that session and otherwise equal. *)
Theorem logout_correct c w d :
  idle w d →
  wp (logout c) (λ r w', ∃ d', idle w' d' ∧
    outcome R (λ _ s1 s2, s2 = set_sessions (delete (tc_digest c)) s1) (reported_conflict R) d r d') w.
Proof.
  intros Hi. unfold logout. apply wp_write_uow; [done |].
  intros w1 d1 Hd1 Htx. eapply wp_tx; [apply (session_remove_law (tc_digest c)) | done | |].
  2:{ intros e w2 d2 s2 Hd Hs He Htx2.
      eapply (abort_with (write_outcome R _ _)); [done | done | done | exact Hs |].
      eapply stmt_caused; [done |]. intros f. apply conflict_now. }
  intros [] w2 d2 s1 s2 Hd2 Hs1 -> Htx2. eapply wp_commit; [done | |].
  - intros w3 s3 Hs3 Hu Htx3. eapply body_ok; [done |].
    eexists s1, _, s3. split_and!; [done | reflexivity | exact Hs3 | done | reflexivity].
  - intros e w3 d3 s3 Hd3 Htx3 He.
    eapply (abort_with (write_outcome R _ _) _ e w3 d1 d3 s3 s1); [done | done | rel_trans | done |].
    eapply commit_caused; [exact He |]. intros f s' Hs'. eapply conflict_later.
    etrans; [| by apply later_of_rely]. by apply later_of_users.
Qed.

(** The clean-up commits the removal of exactly the sessions that have
    expired at the time it read, and returns their number. *)
Theorem cleanup_expired_sessions_correct w d :
  idle w d →
  wp cleanup_expired_sessions (λ r w', ∃ d', idle w' d' ∧
    outcome R (λ n s1 s2, ∃ now, s2 = drop_sessions (session_expired now) s1
                 ∧ n = count_sessions (session_expired now) s1)
      (reported_conflict R) d r d') w.
Proof.
  intros Hi. unfold cleanup_expired_sessions. apply wp_write_uow; [done |].
  intros w1 d1 Hd1 Htx. apply wp_bind. eapply wp_mono; [apply clock_law |]. cbv beta.
  intros r w2 (now & -> & Hnow & _ & Hkeep). specialize (Hkeep _ _ Htx).
  eapply wp_tx; [apply (session_remove_expired_law now) | done | |].
  2:{ intros e w3 d3 s3 Hd Hs He Htx3.
      eapply (abort_with (write_outcome R _ _)); [done | done | done | exact Hs |].
      eapply stmt_caused; [done |]. intros f. apply conflict_now. }
  intros n w3 d3 s1 s2 Hd3 Hs1 [-> ->] Htx3.
  eapply wp_commit_then; [| done | done | exact Hs1 | by exists now].
  intros f s' Hs'. eapply conflict_later. etrans; [| by apply later_of_rely]. by apply later_of_users.
Qed.
End AuthTheorems.

(** Rejecting never returns, so what follows it is skipped. *)
Lemma reject_bind {W A B} (lim : option (LoginAttemptLimiter W)) identity (k : A → io W B) :
  prog_eq (bind (reject_credentials lim identity) k) (reject_credentials lim identity).
Proof.
  intros w. unfold bind, reject_credentials. destruct lim as [l |]; [| done]. unfold bind.
  destruct (la_record_failure identity w) as [w' [st | e]]; [| done].
  by destruct (fs_retry_after_seconds st).
Qed.

(** A locked identity is refused before the database is opened and
    before any password hashing, and so is every account that does not exist
    or cannot exist only after the same hashing work as a real one: the call
    order is fixed whatever the collaborators do. *)
Theorem login_gate_order {W} {T : UnicodeTables} {U : UserUnitOfWork W} {PH : PasswordHasher W}
    {SD : UserServiceDeps W} {TK : SessionTokenCodec W} ttl (l : LoginAttemptLimiter W)
    (c : LoginCommand) (w : W) :
  let identity := login_identity c in
  (∀ w' n, la_retry_after identity w = (w', Ok (Some n)) →
     login ttl (Some l) c w = (w', Err (login_locked n)))
  ∧ (∀ w' e, la_retry_after identity w = (w', Err e) → login ttl (Some l) c w = (w', Err e))
  ∧ (∀ w', la_retry_after identity w = (w', Ok None) →
     Username_new (lc_username c) = Err InvalidUserDataError →
     login ttl (Some l) c w =
       (ph_verify_or_dummy (lc_password c) None;;; reject_credentials (Some l) identity)%prog w')
  ∧ (∀ n w' w1 w2, la_retry_after identity w = (w', Ok None) →
     Username_new (lc_username c) = Ok n →
     with_uow (users_find_by_username n) w' = (w1, Ok None) →
     ph_verify_or_dummy (lc_password c) None w1 = (w2, Ok false) →
     login ttl (Some l) c w = reject_credentials (Some l) identity w2).
Proof.
  intros identity. unfold login, raise_if_locked, bind. fold identity.
  split_and!; intros *; intros Hl; rewrite Hl; try done; unfold ret; simpl.
  - intros ->. done.
  - intros ->. unfold login_verified, bind. intros Hf Hv. rewrite Hf. simpl. rewrite Hv.
    apply (reject_bind (Some l) identity).
Qed.

(** ** Concrete runs *)
Section AuthDemo.
Abbreviation DemoWorld := (UowFields * MemDb)%type.
Abbreviation demo_rely := (store_rely (RT := (=))).

Definition demo_credential : SessionCredential := mk_credential (replicate 43 65%N).
Definition demo_digest : pystr := replicate 64 98%N.
#[export] Instance demo_tokens : SessionTokenCodec DemoWorld := {
  tc_issue := ret demo_credential;
  tc_digest _ := demo_digest;
}.
Definition demo_limiter : LoginAttemptLimiter DemoWorld := {|
  la_retry_after _ := ret None;
  la_record_failure _ := ret (mk_failure_status 4 None);
  la_clear _ := ret tt;
|}.

Lemma demo_frames {A} (a : A) (Q : A → Prop) :
  Q a → frames (L := sql_uow_laws) (ret a : io DemoWorld A) (foreign_or_ok Q).
Proof.
  intros Ha. split; [intros w d Hi | intros w d s Htx]; apply wp_ret; (split; [done |]).
  - exists d. by split; [reflexivity |].
  - exists d, s. by split_and!.
Qed.

#[export] Instance demo_auth_laws : AuthLaws DemoWorld (Some demo_limiter).
Proof.
  split.
  - intros pw h w d Hi. apply wp_ret. split; [done |]. exists d. by split.
  - intros w d s Htx. apply wp_ret. split; [| done]. by vm_compute.
  - intros c. by vm_compute.
  - intros l i [= <-]. by apply demo_frames.
  - intros l i [= <-]. by apply demo_frames.
  - intros l i [= <-]. by apply demo_frames.
Qed.

(** The stored password of this user is the demo hash of "correct horse". *)
Definition carol : User := demo_user 3 "carol" "carol@example.org" "hash:correct horse" ACTIVE.
Definition login_store : Store := {| st_users := {[ u_id carol := carol ]}; st_sessions := ∅ |}.
Definition login_world : DemoWorld := (uow_fresh, mk_mem (tables_of login_store) None).
Definition carol_login : LoginCommand := mk_login_cmd (u " Carol") (u "correct horse").

Lemma login_idle : idle (UowLaws := sql_uow_laws) login_world login_store.
Proof.
  split; [split_and!; try done; by apply unique_ok_spec; vm_compute |].
  split; [| by intros k x Hx; cbn [login_store st_sessions] in Hx; rewrite lookup_empty in Hx].
  intros k x Hx. cbn [login_store st_users] in Hx.
  apply lookup_singleton_Some in Hx as [<- <-]. split; [done | by vm_compute].
Qed.

Lemma demo_sessions_eq s s' : demo_rely s s' → ∀ t, st_sessions s !! t = None → st_sessions s' !! t = None.
Proof.
  intros Heq%(f_equal tb_sessions) t Ht. apply (f_equal (.!! t)) in Heq. cbn [tables_of tb_sessions] in Heq.
  rewrite !lookup_fmap, Ht in Heq. by destruct (st_sessions s' !! t).
Qed.

Lemma login_fresh : fresh_tokens login_store.
Proof.
  intros w d0 s w' c now s1 s2 H1 _ _ H2 H3. apply (demo_sessions_eq _ _ H3).
  apply map_lookup_filter_None. left. apply (demo_sessions_eq _ _ H2), (demo_sessions_eq _ _ H1).
  apply lookup_empty.
Qed.


Definition alice_credential : SessionCredential := mk_credential (replicate 43 66%N).
#[export] Instance alice_tokens : SessionTokenCodec DemoWorld | 5 := {
  tc_issue := ret alice_credential;
  tc_digest _ := alice_digest;
}.

Lemma current_user_correct_witness :
  (current_user (H3 := alice_tokens) alice_credential demo_world).2 = Ok (UserDTO_from_domain alice) ∧
  wp (current_user (H3 := alice_tokens) alice_credential) (λ r w', ∃ d', idle w' d' ∧
    read_outcome demo_rely (session_accepted (R := demo_rely) (TK := alice_tokens) alice_credential demo_store)
      (session_refused (R := demo_rely) (TK := alice_tokens) alice_credential) demo_store r d') demo_world.
Proof.
  split; [by vm_compute |].
  apply (current_user_correct (TK := alice_tokens) alice_credential demo_world demo_store). apply demo_idle.
Defined.

Lemma logout_correct_witness :
  is_ok (logout alice_credential demo_world).2 = true ∧
  wp (logout (H3 := alice_tokens) alice_credential) (λ r w', ∃ d', idle w' d' ∧
    outcome demo_rely (λ _ s1 s2, s2 = set_sessions (delete alice_digest) s1)
      (reported_conflict demo_rely) demo_store r d') demo_world.
Proof.
  split; [by vm_compute |].
  apply (logout_correct (TK := alice_tokens) alice_credential demo_world demo_store). apply demo_idle.
Defined.

Lemma cleanup_expired_sessions_correct_witness :
  (cleanup_expired_sessions demo_world).2 = Ok 0%Z ∧
  wp cleanup_expired_sessions (λ r w', ∃ d', idle w' d' ∧
    outcome demo_rely (λ n s1 s2, ∃ now, s2 = drop_sessions (session_expired now) s1
                 ∧ n = count_sessions (session_expired now) s1)
      (reported_conflict demo_rely) demo_store r d') demo_world.
Proof.
  split; [by vm_compute |].
  apply (cleanup_expired_sessions_correct demo_world demo_store). apply demo_idle.
Defined.
End AuthDemo.
