(* ===== verification/Floats.v ===== *)
(** * Floats: what the sources compute with binary64 floats

    [math.ceil], [int / int], [round(x, k)], the comparison of a float with an
    integer, and the milliseconds between two readings of [perf_counter], on
    the spec floats of the standard library. *)

From Stdlib Require Import Floats.SpecFloat.
From S2P Require Import Prelude Text PyVal Errors.
Local Open Scope prog_scope.

Definition float_ceil (f : spec_float) : result exn Z :=
  match f with
  | S754_zero _ => Ok 0%Z
  | S754_finite s m e =>
      let n := (if s then Zneg m else Zpos m) in
      Ok (if (0 <=? e)%Z then (n * 2 ^ e)%Z else (- ((- n) / 2 ^ (- e)))%Z)
  | S754_infinity _ => Err OverflowError
  | S754_nan => Err ValueError
  end.
Definition signed_float (z : Z) : spec_float :=
  match z with Z0 => S754_zero false | Zpos p => S754_finite false p 0 | Zneg p => S754_finite true p 0 end.
(** [ZeroDivisionError] *)
Definition zero_division : exn := OtherException 1.
Definition int_div (a b : Z) : result exn spec_float :=
  if (b =? 0)%Z then Err zero_division
  else Ok (match a with Z0 => S754_zero (b <? 0)%Z | _ => SFdiv 53 1024 (signed_float a) (signed_float b) end).
(** The multiple of [10 ^ -k] nearest to the exact value, ties to even, as a double. *)
Definition round_half_even (num den : Z) : Z :=
  let q := (num / den)%Z in
  let r := (num mod den)%Z in
  if (2 * r <? den)%Z then q else if (den <? 2 * r)%Z then (q + 1)%Z else if Z.even q then q else (q + 1)%Z.
Definition py_round (k : Z) (f : spec_float) : spec_float :=
  match f with
  | S754_finite s m e =>
      let n := if (0 <=? e)%Z then (Zpos m * 2 ^ e * 10 ^ k)%Z else round_half_even (Zpos m * 10 ^ k) (2 ^ (- e)) in
      match n with
      | Zpos p => SFdiv 53 1024 (S754_finite s p 0) (signed_float (10 ^ k))
      | _ => S754_zero s
      end
  | _ => f
  end.
(** [f >= z], exactly. *)
Definition float_ge_int (f : spec_float) (z : Z) : bool :=
  match f with
  | S754_zero _ => (z <=? 0)%Z
  | S754_finite s m e =>
      let n := (if s then Zneg m else Zpos m) in
      if (0 <=? e)%Z then (z <=? n * 2 ^ e)%Z else (z * 2 ^ (- e) <=? n)%Z
  | S754_infinity s => negb s
  | S754_nan => false
  end.
(** [round((now - started_at) * 1000, 3)] *)
Definition elapsed_ms (started_at now : spec_float) : spec_float :=
  py_round 3 (SFmul 53 1024 (SFsub 53 1024 now started_at) (signed_float 1000)).

(** The integer a ceiling gives is the least one above the value. *)
Lemma float_ceil_least s m e z :
  (e < 0)%Z → float_ceil (S754_finite s m e) = Ok z →
  let n := (if s then Zneg m else Zpos m) in (n <= z * 2 ^ (- e) < n + 2 ^ (- e))%Z.
Proof.
  intros He. simpl. rewrite (proj2 (Z.leb_gt 0 e)) by done. intros [= <-].
  remember (if s then Zneg m else Zpos m) as n eqn:En. clear En.
  assert (Hp : (0 < 2 ^ (- e))%Z) by (apply Z.pow_pos_nonneg; lia).
  pose proof (Z.div_mod (- n) (2 ^ (- e))) as Hd. pose proof (Z.mod_pos_bound (- n) (2 ^ (- e)) Hp) as Hm. nia.
Qed.
