(* ===== verification/Lazy.v ===== *)
(** * Lazy: the concurrent, closable lazy resource

    Models [app/infrastructure/resources/lazy.py].  [AsyncLazy] is a state
    machine whose steps are the code between two awaits, for any number of
    tasks inside [get] and [aclose]; what a factory or closer does, and when
    a task is cancelled, is up to the environment.  [lazy_get] and
    [lazy_aclose] are the same methods as programs of one task. *)

From S2P Require Import Prelude Text Errors.
Local Open Scope prog_scope.

Abbreviation task := nat.
Abbreviation resource := nat.

(** Where a task stands. *)
Inductive pc :=
| GetStart                       (* get() called *)
| GetWait                        (* waiting for the lock *)
| GetCreate                      (* holds the lock, awaits the factory *)
| GetReturned (r : resource)
| GetRaised                      (* RuntimeError, the factory's error or cancellation *)
| CloseStart                     (* aclose() called *)
| CloseWait
| CloseRun (r : resource)        (* holds the lock, awaits the closer *)
| CloseDone
| CloseFailed.

Record lazy_state := mk_lazy {
  lz_value : option resource;    (* self._value *)
  lz_closed : bool;              (* self._closed *)
  lz_lock : option task;         (* holder of self._lock *)
  lz_pc : gmap task pc;
  lz_live : gset resource;       (* created by the factory, not closed *)
}.

Definition at_pc (s : lazy_state) (t : task) (p : pc) : Prop := lz_pc s !! t = Some p.
Definition goto (t : task) (p : pc) (s : lazy_state) : lazy_state :=
  mk_lazy (lz_value s) (lz_closed s) (lz_lock s) (<[t := p]> (lz_pc s)) (lz_live s).
Definition with_lock (l : option task) (s : lazy_state) : lazy_state :=
  mk_lazy (lz_value s) (lz_closed s) l (lz_pc s) (lz_live s).
Definition sealed (s : lazy_state) : lazy_state :=
  mk_lazy (lz_value s) true (lz_lock s) (lz_pc s) (lz_live s).
Definition with_value (v : option resource) (live : gset resource) (s : lazy_state) : lazy_state :=
  mk_lazy v (lz_closed s) (lz_lock s) (lz_pc s) live.

(** The outcome of the last check of [get] after the factory returned. *)
Definition get_result (s : lazy_state) (r : resource) : pc :=
  if lz_closed s then GetRaised else GetReturned r.

Inductive lazy_step : lazy_state → lazy_state → Prop :=
| step_call s t p : lz_pc s !! t = None → p = GetStart ∨ p = CloseStart →
    lazy_step s (goto t p s)
| step_get_refused s t : at_pc s t GetStart → lz_closed s = true → lazy_step s (goto t GetRaised s)
| step_get_queue s t : at_pc s t GetStart → lz_closed s = false → lazy_step s (goto t GetWait s)
| step_get_closed s t : at_pc s t GetWait → lz_lock s = None → lz_closed s = true →
    lazy_step s (goto t GetRaised s)
| step_get_hit s t r : at_pc s t GetWait → lz_lock s = None → lz_closed s = false →
    lz_value s = Some r → lazy_step s (goto t (GetReturned r) s)
| step_get_miss s t : at_pc s t GetWait → lz_lock s = None → lz_closed s = false →
    lz_value s = None → lazy_step s (with_lock (Some t) (goto t GetCreate s))
| step_created s t r : at_pc s t GetCreate → r ∉ lz_live s →
    lazy_step s (with_lock None (with_value (Some r) ({[r]} ∪ lz_live s) (goto t (get_result s r) s)))
| step_create_failed s t : at_pc s t GetCreate → lazy_step s (with_lock None (goto t GetRaised s))
| step_cancel_wait s t : at_pc s t GetWait → lazy_step s (goto t GetRaised s)
| step_begin_close s : lazy_step s (sealed s)
| step_close s t : at_pc s t CloseStart → lazy_step s (sealed (goto t CloseWait s))
| step_close_empty s t : at_pc s t CloseWait → lz_lock s = None → lz_value s = None →
    lazy_step s (goto t CloseDone s)
| step_close_run s t r : at_pc s t CloseWait → lz_lock s = None → lz_value s = Some r →
    lazy_step s (with_lock (Some t) (goto t (CloseRun r) s))
| step_closed s t r : at_pc s t (CloseRun r) →
    lazy_step s (with_lock None (with_value None (lz_live s ∖ {[r]}) (goto t CloseDone s)))
| step_close_failed s t r : at_pc s t (CloseRun r) → lazy_step s (with_lock None (goto t CloseFailed s))
| step_cancel_close s t : at_pc s t CloseWait → lazy_step s (goto t CloseFailed s).

Definition lazy_init : lazy_state := mk_lazy None false None ∅ ∅.
Definition lazy_reachable : lazy_state → Prop := rtc lazy_step lazy_init.

Definition holds_lock (p : pc) : bool :=
  match p with GetCreate | CloseRun _ => true | _ => false end.
Definition closing (p : pc) : bool :=
  match p with CloseWait | CloseRun _ | CloseDone | CloseFailed => true | _ => false end.
Definition opt_set (v : option resource) : gset resource :=
  match v with Some r => {[r]} | None => ∅ end.

(** The invariant behind the properties. *)
Record lazy_inv (s : lazy_state) : Prop := {
  inv_live : lz_live s = opt_set (lz_value s);
  inv_lock t p : at_pc s t p → holds_lock p = true → lz_lock s = Some t;
  inv_create t : at_pc s t GetCreate → lz_value s = None;
  inv_run t r : at_pc s t (CloseRun r) → lz_value s = Some r;
  inv_closing t p : at_pc s t p → closing p = true → lz_closed s = true;
  inv_done t : at_pc s t CloseDone → lz_value s = None;
  inv_done_create t t' : at_pc s t CloseDone → at_pc s t' GetCreate → False;
  inv_returned t r : at_pc s t (GetReturned r) → lz_value s = Some r ∨ lz_value s = None ∧ lz_closed s = true;
  inv_create_first t t' r : at_pc s t GetCreate → at_pc s t' (GetReturned r) → False;
  inv_same t t' r r' : at_pc s t (GetReturned r) → at_pc s t' (GetReturned r') → r = r';
}.

Lemma at_goto s t p t' p' : at_pc (goto t p s) t' p' ↔ (t' = t ∧ p' = p) ∨ (t' ≠ t ∧ at_pc s t' p').
Proof. unfold at_pc, goto; simpl. rewrite lookup_insert_Some. naive_solver. Qed.

(** Reduce where a task stands after a step to where it stood before. *)
Ltac pc_cases :=
  repeat match goal with
  | H : at_pc (with_lock _ ?s) ?t ?p |- _ => change (at_pc s t p) in H
  | H : at_pc (sealed ?s) ?t ?p |- _ => change (at_pc s t p) in H
  | H : at_pc (with_value _ _ ?s) ?t ?p |- _ => change (at_pc s t p) in H
  | H : at_pc (goto _ _ _) _ _ |- _ => apply at_goto in H as [[? ?] | [? H]]; subst
  | H : at_pc ?s ?t ?p, H' : at_pc ?s ?t ?q |- _ =>
      assert (p = q) by (unfold at_pc in H, H'; congruence); clear H'
  end.

Lemma lazy_step_inv s s' : lazy_inv s → lazy_step s s' → lazy_inv s'.
Proof.
  intros [Hlive Hlock Hcreate Hrun Hclosing Hdone Hdc Hret Hfirst Hsame] Hstep.
  assert (Hfree : lz_lock s = None → ∀ t p, at_pc s t p → holds_lock p = true → False).
  { intros Hnone t p Hp E. by rewrite (Hlock t p Hp E) in Hnone. }
  assert (Huniq : ∀ t t' p p', at_pc s t p → at_pc s t' p' → holds_lock p = true → holds_lock p' = true → t = t').
  { intros t t' p p' H1 H2 E1 E2. pose proof (Hlock _ _ H1 E1). pose proof (Hlock _ _ H2 E2). congruence. }
  destruct Hstep; try (match goal with H : _ ∨ _ |- _ => destruct H as [-> | ->] end); split; simpl.
  all: intros; pc_cases; unfold get_result in *; simpl in *; repeat case_bool; simpl in *;
    try discriminate; try done; try congruence.
  all: try solve [eapply Hlock; eauto | eapply Hcreate; eauto | eapply Hrun; eauto
    | eapply Hclosing; eauto | eapply Hdone; eauto | eapply Hdc; eauto
    | eapply Hret; eauto | eapply Hfirst; eauto | eapply Hsame; eauto
    | exfalso; eapply Hfirst; eauto | auto].
  all: try solve [match goal with H : at_pc _ _ (GetReturned _) |- _ => destruct (Hret _ _ H) as [? | [? ?]] end;
    auto; congruence].
  all: try (exfalso; eapply Hfree; [eassumption | eassumption | done]).
  all: try (exfalso; match goal with
    | H1 : at_pc ?s ?t ?p, H2 : at_pc ?s ?t' ?q, Hne : ?t ≠ ?t' |- _ =>
        apply Hne; eapply (Huniq t t' p q); [exact H1 | exact H2 | done | done]
    | H1 : at_pc ?s ?t ?p, H2 : at_pc ?s ?t' ?q, Hne : ?t' ≠ ?t |- _ =>
        apply Hne; eapply (Huniq t' t q p); [exact H2 | exact H1 | done | done]
    end).
  - left. congruence.
  - assert (lz_closed s = true) by (eapply Hclosing; eauto). congruence.
  - rewrite Hlive, (Hcreate t) by done. set_solver.
  - exfalso. by eapply Hdc.
  - left. congruence.
  - rewrite Hlive, (Hrun t r) by done. set_solver.
  - right. split; [done |]. by apply (Hclosing t (CloseRun r)).
Qed.

Lemma lazy_reachable_inv s : lazy_reachable s → lazy_inv s.
Proof.
  intros Hr. cut (∀ s0, lazy_inv s0 → rtc lazy_step s0 s → lazy_inv s).
  { intros Hc. apply (Hc lazy_init); [| done]. split; try done; intros; by unfold at_pc in *; simpl in *. }
  clear Hr. intros s0 Hi Hr. induction Hr; eauto using lazy_step_inv.
Qed.

(** A step that hands a resource to a task hands it the live one. *)
Lemma lazy_step_returns s s' t r :
  lazy_inv s → lazy_step s s' → at_pc s' t (GetReturned r) → ¬ at_pc s t (GetReturned r) →
  lz_value s' = Some r ∧ lz_closed s' = false.
Proof.
  intros Hi Hstep Hp Hn. destruct Hstep; try (match goal with H : _ ∨ _ |- _ => destruct H as [-> | ->] end);
    pc_cases; unfold get_result in *; simpl in *; repeat case_bool; simplify_eq; done.
Qed.

(** C26: in every reachable state, with any number of concurrent [get] and
    [aclose] calls, at most one resource is alive, it is the one the object
    refers to, and no two tasks are inside the factory or the closer.  All
    tasks that were ever given a resource were given the same one; it is the
    one the object refers to until closing has released it; and at the moment
    a task is given it, it is alive and closing has not begun. *)
Theorem lazy_single_resource s :
  lazy_reachable s →
  lz_live s = opt_set (lz_value s) ∧ size (lz_live s) ≤ 1
  ∧ (∀ t t' p p', at_pc s t p → at_pc s t' p' → holds_lock p = true → holds_lock p' = true → t = t')
  ∧ (∀ t t' r r', at_pc s t (GetReturned r) → at_pc s t' (GetReturned r') → r = r')
  ∧ (∀ t r, at_pc s t (GetReturned r) → lz_live s = {[r]} ∨ lz_value s = None ∧ lz_closed s = true)
  ∧ ∀ s' t r, lazy_step s s' → at_pc s' t (GetReturned r) → ¬ at_pc s t (GetReturned r) →
      lz_live s' = {[r]} ∧ lz_value s' = Some r ∧ lz_closed s' = false.
Proof.
  intros Hr. pose proof (lazy_reachable_inv s Hr) as Hi. split; [apply (inv_live s Hi) |].
  split; [| split; [| split; [| split]]].
  - rewrite (inv_live s Hi). unfold opt_set.
    destruct (lz_value s) as [r |]; [rewrite size_singleton; lia | rewrite size_empty; lia].
  - intros t t' p p' H1 H2 E1 E2. pose proof (inv_lock s Hi _ _ H1 E1). pose proof (inv_lock s Hi _ _ H2 E2).
    congruence.
  - intros t t' r r'. apply (inv_same s Hi).
  - intros t r Ht. rewrite (inv_live s Hi). destruct (inv_returned s Hi t r Ht) as [-> | ?]; auto.
  - intros s' t r Hstep Hp Hn. destruct (lazy_step_returns s s' t r Hi Hstep Hp Hn) as [Hv Hc].
    split; [| by split]. by rewrite (inv_live s' (lazy_step_inv s s' Hi Hstep)), Hv.
Qed.

Lemma lazy_step_closed s s' : lazy_step s s' → lz_closed s = true → lz_closed s' = true.
Proof. destruct 1; simpl; auto. Qed.

(** Sealing is final.  Once closing has begun no [get] returns a resource
    any more, whatever was already under way. *)
Theorem lazy_no_get_after_close s s' t r :
  lz_closed s = true → rtc lazy_step s s' → at_pc s' t (GetReturned r) → at_pc s t (GetReturned r).
Proof.
  intros Hc Hr. induction Hr as [| s1 s2 s3 Hstep Hr IH]; [done |].
  intros Hp. apply (IH (lazy_step_closed _ _ Hstep Hc)) in Hp. clear IH Hr.
  destruct Hstep; pc_cases; unfold get_result in *; repeat case_bool; try congruence; try done.
  destruct H0; congruence.
Qed.

(** Nothing leaks.  After some [aclose] has returned normally, no resource
    is alive and none is created any more. *)
Theorem lazy_closed_no_leak s s' t :
  lazy_reachable s → at_pc s t CloseDone → rtc lazy_step s s' → lz_live s' = ∅ ∧ lz_value s' = None.
Proof.
  intros Hr Hd Hs.
  assert (Hkeep : at_pc s' t CloseDone).
  { clear Hr. induction Hs as [| s1 s2 s3 Hstep Hs IH]; [done |]. apply IH. clear IH Hs.
    destruct Hstep; unfold at_pc in *; simpl; try done;
      (rewrite lookup_insert_ne; [done | intros Heq; subst; congruence]). }
  assert (Hi : lazy_inv s') by (apply lazy_reachable_inv; unfold lazy_reachable in *; by etrans).
  pose proof (inv_done s' Hi _ Hkeep) as Hv. rewrite (inv_live s' Hi), Hv. done.
Qed.

(** ** The methods as programs of one task

    [lz] gives access to the fields [_value] and [_closed] in the world; the
    factory and the closer may do anything, including closing the object. *)
Record lazy_fields (A : Type) := mk_fields { lf_value : option A; lf_closed : bool }.
Arguments mk_fields {A}.
Arguments lf_value {A}.
Arguments lf_closed {A}.

Record lazy_ref (W A : Type) := mk_ref {
  ref_get : W → lazy_fields A;
  ref_set : lazy_fields A → W → W;
}.
Arguments mk_ref {W A}.
Arguments ref_get {W A}.
Arguments ref_set {W A}.

Section AsyncLazy.
Context {W A : Type} (lz : lazy_ref W A) (factory : io W A) (closer : A → io W unit).

Definition lazy_initialized (w : W) : bool := bool_decide (is_Some (lf_value (ref_get lz w))).
Definition lazy_begin_close : io W unit :=
  modify (λ w, ref_set lz (mk_fields (lf_value (ref_get lz w)) true) w).
Definition lazy_refuse_closed : io W unit :=
  let* z := read (ref_get lz) in if lf_closed z then raise RuntimeError else ret tt.
Definition lazy_put (v : option A) : io W unit :=
  modify (λ w, ref_set lz (mk_fields v (lf_closed (ref_get lz w))) w).

Definition lazy_get : io W A :=
  lazy_refuse_closed;;;
  lazy_refuse_closed;;;               (* again, under the lock *)
  let* z := read (ref_get lz) in
  let* v :=
    match lf_value z with
    | Some v => ret v
    | None => let* v := factory in lazy_put (Some v);;; ret v
    end in
  lazy_refuse_closed;;;
  ret v.

Definition lazy_aclose : io W unit :=
  lazy_begin_close;;;
  let* z := read (ref_get lz) in
  match lf_value z with
  | None => ret tt
  | Some v => closer v;;; lazy_put None
  end.
End AsyncLazy.

(** ** A concrete run: one [get], then one [aclose] *)
Definition run_get (s : lazy_state) : lazy_state :=
  let s1 := goto 1 GetWait (goto 1 GetStart s) in
  let s2 := with_lock (Some 1) (goto 1 GetCreate s1) in
  with_lock None (with_value (Some 7) ({[7]} ∪ lz_live s2) (goto 1 (get_result s2 7) s2)).
Definition run_close (s : lazy_state) : lazy_state :=
  let s1 := sealed (goto 2 CloseWait (goto 2 CloseStart s)) in
  let s2 := with_lock (Some 2) (goto 2 (CloseRun 7) s1) in
  with_lock None (with_value None (lz_live s2 ∖ {[7]}) (goto 2 CloseDone s2)).

Lemma run_get_reachable : lazy_reachable (run_get lazy_init).
Proof.
  eapply rtc_l; [apply (step_call _ 1 GetStart); auto |].
  eapply rtc_l; [by apply (step_get_queue _ 1) |].
  eapply rtc_l; [by apply (step_get_miss _ 1) |].
  eapply rtc_l; [by apply (step_created _ 1 7) |]. constructor.
Defined.

Lemma run_close_steps : rtc lazy_step (run_get lazy_init) (run_close (run_get lazy_init)).
Proof.
  eapply rtc_l; [apply (step_call _ 2 CloseStart); auto |].
  eapply rtc_l; [by apply (step_close _ 2) |].
  eapply rtc_l; [by apply (step_close_run _ 2 7) |].
  eapply rtc_l; [by apply (step_closed _ 2 7) |]. constructor.
Defined.

Lemma lazy_single_resource_witness :
  at_pc (run_get lazy_init) 1 (GetReturned 7) ∧ lz_live (run_get lazy_init) = {[7]}
  ∧ size (lz_live (run_get lazy_init)) ≤ 1.
Proof.
  destruct (lazy_single_resource (run_get lazy_init) run_get_reachable) as (Hl & Hs & _).
  split; [by vm_compute | split; [exact Hl | exact Hs]].
Defined.

Lemma lazy_no_get_after_close_witness :
  at_pc (run_close (run_get lazy_init)) 1 (GetReturned 7).
Proof.
  assert (Hc : at_pc (run_close (run_get lazy_init)) 1 (GetReturned 7)) by done.
  pose proof (lazy_no_get_after_close (run_close (run_get lazy_init)) (run_close (run_get lazy_init)) 1 7
    eq_refl (rtc_refl _ _) Hc) as H. exact H.
Defined.

Lemma lazy_closed_no_leak_witness :
  lz_live (run_close (run_get lazy_init)) = ∅ ∧ lz_value (run_close (run_get lazy_init)) = None.
Proof.
  apply (lazy_closed_no_leak (run_close (run_get lazy_init)) (run_close (run_get lazy_init)) 2).
  - unfold lazy_reachable. etrans; [apply run_get_reachable | apply run_close_steps].
  - done.
  - constructor.
Defined.
