(* ===== verification/Threads.v ===== *)
(** * Threads: blocking work in a thread, awaited under cancellation

    Models [_run_sync] and [_finish_worker] of the Milvus and Chroma drivers and
    [_run] of the password hasher: the same machine with and without [on_cancel].
    The work and the clean-up are threads that end when they end; the caller may
    be cancelled at any await, any number of times.  A resource is what the work
    created; [th_live] are those nobody has closed. *)

From S2P Require Import Prelude Text Errors.
Local Open Scope prog_scope.

Inductive thread := Running | Ended (r : result exn nat).
Inductive caller :=
| Awaiting                          (* await asyncio.shield(work) *)
| Finishing                         (* cancelled: _finish_worker(work) *)
| Cleaning (resource : nat)         (* _finish_worker(cleanup) *)
| Left (r : result exn nat).
Record ThreadState := mk_threads { th_work : thread; th_caller : caller; th_cleanup : option thread; th_live : gset nat }.
Definition threads_init : ThreadState := mk_threads Running Awaiting None ∅.

Section Threads.
Context (on_cancel : bool).

(** [if not work.cancelled() and work.exception() is None and on_cancel is not None] *)
Definition after_finish (s : ThreadState) (r : result exn nat) : ThreadState :=
  match r with
  | Ok resource =>
      if on_cancel then mk_threads (th_work s) (Cleaning resource) (Some Running) (th_live s)
      else mk_threads (th_work s) (Left (Err CancelledError)) (th_cleanup s) (th_live s)
  | Err _ => mk_threads (th_work s) (Left (Err CancelledError)) (th_cleanup s) (th_live s)
  end.
Inductive thread_step : ThreadState → ThreadState → Prop :=
| work_created c k l resource : resource ∉ l → thread_step (mk_threads Running c k l) (mk_threads (Ended (Ok resource)) c k ({[resource]} ∪ l))
| work_failed c k l e : thread_step (mk_threads Running c k l) (mk_threads (Ended (Err e)) c k l)
| await_returned r k l : r ≠ Err CancelledError → thread_step (mk_threads (Ended r) Awaiting k l) (mk_threads (Ended r) (Left r) k l)
| await_cancelled w k l : thread_step (mk_threads w Awaiting k l) (mk_threads w Finishing k l)
| finish_cancelled w k l : thread_step (mk_threads w Finishing k l) (mk_threads w Finishing k l)
| finish_done r k l : thread_step (mk_threads (Ended r) Finishing k l) (after_finish (mk_threads (Ended r) Finishing k l) r)
| cleanup_closed w resource l :
    thread_step (mk_threads w (Cleaning resource) (Some Running) l) (mk_threads w (Cleaning resource) (Some (Ended (Ok resource))) (l ∖ {[resource]}))
| cleanup_failed w resource l e :
    thread_step (mk_threads w (Cleaning resource) (Some Running) l) (mk_threads w (Cleaning resource) (Some (Ended (Err e))) l)
| cleanup_cancelled w resource k l : thread_step (mk_threads w (Cleaning resource) k l) (mk_threads w (Cleaning resource) k l)
| cleanup_done w resource r l :
    thread_step (mk_threads w (Cleaning resource) (Some (Ended r)) l) (mk_threads w (Left (Err CancelledError)) (Some (Ended r)) l).
Definition threads_reachable : ThreadState → Prop := rtc thread_step threads_init.

Definition thread_ended (t : option thread) : bool := match t with Some Running => false | _ => true end.
(** What is alive when the caller is in a state. *)
Definition thread_inv (s : ThreadState) : Prop :=
  let created := match th_work s with Ended (Ok resource) => {[resource]} | _ => ∅ end in
  match th_caller s with
  | Awaiting | Finishing => th_cleanup s = None ∧ th_live s = created
  | Cleaning resource =>
      th_work s = Ended (Ok resource) ∧ on_cancel = true
      ∧ match th_cleanup s with
        | Some Running | Some (Ended (Err _)) => th_live s = {[resource]}
        | Some (Ended (Ok _)) => th_live s = ∅
        | None => False
        end
  | Left r =>
      th_work s ≠ Running ∧ thread_ended (th_cleanup s) = true
      ∧ match r with
        | Ok resource => th_work s = Ended (Ok resource) ∧ th_live s = {[resource]}
        | Err e =>
            th_live s = ∅ ∨ (e = CancelledError ∧ th_live s = created ∧ (on_cancel = false ∨ ∃ e', th_cleanup s = Some (Ended (Err e'))))
        end
  end.
Lemma thread_step_inv s s' : thread_step s s' → thread_inv s → thread_inv s'.
Proof.
  destruct 1 as [c k l n Hn | c k l e | r k l Hr | w k l | w k l | r k l | w n l | w n l e | w n k l | w n r l]; unfold thread_inv; cbn.
  - destruct c as [| | m | r]; cbn; [intros [-> ->] | intros [-> ->] | by intros [? _] | by intros [[] _]]; split; [done | set_solver | done | set_solver].
  - destruct c as [| | m | r]; cbn; [intros [-> ->] | intros [-> ->] | by intros [? _] | by intros [[] _]]; done.
  - intros [-> ->]. split; [done |]. split; [done |]. destruct r; [done | by left].
  - done.
  - done.
  - intros [-> ->]. destruct r as [n | e]; cbn; [destruct on_cancel eqn:Hc; cbn |].
    + done.
    + split; [done |]. split; [done |]. right. auto.
    + split; [done |]. split; [done |]. by left.
  - intros (-> & Hc & ->). split; [done |]. split; [done |]. set_solver.
  - intros (-> & Hc & ->). done.
  - done.
  - intros (-> & Hc & Hl). split; [done |]. split; [done |]. destruct r as [m | e]; [by left |]. right. split; [done |]. split; [done |]. right. eauto.
Qed.
Lemma threads_reachable_inv s : threads_reachable s → thread_inv s.
Proof.
  intros Hs. unfold threads_reachable in Hs. assert (Hi : thread_inv threads_init) by done. revert Hi.
  induction Hs as [| x y z Hxy _ IH]; eauto using thread_step_inv.
Qed.
Lemma threads_progress s : thread_inv s → ∃ s' r, rtc thread_step s s' ∧ th_caller s' = Left r.
Proof.
  intros Hi. assert (Hwork : ∃ s1, rtc thread_step s s1 ∧ thread_inv s1 ∧ th_work s1 ≠ Running).
  { destruct s as [[| r] c k l]; [| by eexists; split; [apply rtc_refl |]].
    exists (mk_threads (Ended (Err RuntimeError)) c k l). assert (Hst : thread_step (mk_threads Running c k l) (mk_threads (Ended (Err RuntimeError)) c k l)) by constructor.
    split; [by apply rtc_once |]. split; [by eapply thread_step_inv | done]. }
  destruct Hwork as (s1 & Hs1 & Hi1 & Hw).
  assert (Hclean : ∀ w n k l, thread_inv (mk_threads w (Cleaning n) k l) → ∃ s' r, rtc thread_step (mk_threads w (Cleaning n) k l) s' ∧ th_caller s' = Left r).
  { intros w n k l Hi2. unfold thread_inv in Hi2. cbn in Hi2. destruct Hi2 as (Hw2 & _ & Hk). destruct k as [[| r] |]; [| | done].
    - eexists _, _. split; [eapply rtc_l; [apply cleanup_closed |]; apply rtc_once, cleanup_done | done].
    - eexists _, _. split; [apply rtc_once, cleanup_done | done]. }
  assert (Hend : ∃ s' r, rtc thread_step s1 s' ∧ th_caller s' = Left r).
  { clear Hs1. destruct s1 as [[| r] [| | n | r'] k l]; try done.
    - assert (Hd : r = Err CancelledError ∨ r ≠ Err CancelledError) by (destruct r as [n | e]; [by right |]; destruct e; first [by left | by right]).
      destruct Hd as [-> | Hr]; [| eexists _, _; split; [by apply rtc_once, await_returned | done]].
      eexists _, _. split; [eapply rtc_l; [apply await_cancelled |]; apply rtc_once, finish_done | done].
    - assert (Hi2 : thread_inv (after_finish (mk_threads (Ended r) Finishing k l) r)) by (eapply thread_step_inv; [apply finish_done | done]).
      assert (Hf : ∃ s' r', rtc thread_step (after_finish (mk_threads (Ended r) Finishing k l) r) s' ∧ th_caller s' = Left r').
      { unfold after_finish in *. destruct r as [n | e]; [destruct on_cancel |]; [by apply Hclean | eexists _, _; split; [apply rtc_refl | done]..]. }
      destruct Hf as (s' & r' & Hs' & Hl). exists s', r'. split; [| done]. eapply rtc_l; [apply finish_done | exact Hs'].
    - by apply Hclean.
    - eexists _, _. split; [apply rtc_refl | done]. }
  destruct Hend as (s' & r & Hs' & Hl). exists s', r. split; [by transitivity s1 | done].
Qed.
End Threads.

(** C11: awaiting a thread.  However often the caller is cancelled, it leaves
    only when no thread of its own runs; with a result it owns the resource, and
    without one the resource was closed or never created, unless closing itself
    failed; and it can always leave once the threads end. *)
Theorem run_sync_correct s :
  threads_reachable true s →
  (∀ r, th_caller s = Left r →
     th_work s ≠ Running ∧ thread_ended (th_cleanup s) = true
     ∧ match r with
       | Ok resource => th_live s = {[resource]}
       | Err e => th_live s = ∅ ∨ (e = CancelledError ∧ ∃ e', th_cleanup s = Some (Ended (Err e')))
       end)
  ∧ ∃ s' r, rtc (thread_step true) s s' ∧ th_caller s' = Left r.
Proof.
  intros Hs. pose proof (threads_reachable_inv _ _ Hs) as Hi. split; [| by apply threads_progress].
  intros r Hr. unfold thread_inv in Hi. rewrite Hr in Hi. destruct Hi as (Hw & Hc & Hl). split; [done |]. split; [done |].
  destruct r as [n | e]; [by destruct Hl |]. destruct Hl as [? | (-> & _ & [? | ?])]; [by left | done | by right].
Qed.
(** Without [on_cancel], the caller leaves only when the work has ended. *)
Lemma run_ends_after_work s r : threads_reachable false s → th_caller s = Left r → ∃ x, th_work s = Ended x.
Proof.
  intros Hs Hr. pose proof (threads_reachable_inv _ _ Hs) as Hi. unfold thread_inv in Hi. rewrite Hr in Hi. destruct Hi as (Hw & _).
  destruct (th_work s) as [| x]; [done | by exists x].
Qed.

(** A caller cancelled twice whose client is then created and closed. *)
Definition demo_threads : ThreadState := mk_threads (Ended (Ok 4)) (Left (Err CancelledError)) (Some (Ended (Ok 4))) ∅.
Lemma demo_threads_reachable : threads_reachable true demo_threads.
Proof.
  assert (Hs : th_live demo_threads = ({[4]} ∪ ∅) ∖ {[4]}) by (cbn; set_solver).
  replace demo_threads with (mk_threads (Ended (Ok 4)) (Left (Err CancelledError)) (Some (Ended (Ok 4))) (({[4]} ∪ ∅) ∖ {[4]})) by (unfold demo_threads in *; cbn in Hs; by rewrite <- Hs).
  eapply rtc_l; [apply await_cancelled |]. eapply rtc_l; [apply finish_cancelled |]. eapply rtc_l; [apply (work_created _ _ _ _ 4), not_elem_of_empty |].
  eapply rtc_l; [apply finish_done |]. eapply rtc_l; [apply cleanup_closed |]. apply rtc_once, cleanup_done.
Qed.
Lemma run_sync_correct_witness : th_caller demo_threads = Left (Err CancelledError) ∧ th_live demo_threads = ∅.
Proof.
  split; [reflexivity |].
  destruct (run_sync_correct demo_threads demo_threads_reachable) as [Hl _]. destruct (Hl (Err CancelledError) eq_refl) as (_ & _ & [He | [_ [e' He']]]);
    [exact He | discriminate He'].
Defined.
