(* ===== verification/Runtime.v ===== *)
(** * Runtime: closing resources, the container and its life cycle

    Models [infrastructure/resources/closing.py], [runtime/container.py],
    [runtime/lifecycle.py] and [runtime/trace.py].  A callback is a program
    over an arbitrary world.  [CancelScope(shield=True)] keeps outside
    cancellation away, so the loops run to their end. *)

From S2P Require Import Prelude Text Errors Lazy.
Local Open Scope prog_scope.

Section Closing.
Context {W : Type}.

(** [for c in callbacks: try: c() except BaseException as e: errors.append(e)] *)
Fixpoint collect_errors (callbacks : list (io W unit)) : io W (list exn) :=
  match callbacks with
  | [] => ret []
  | c :: rest =>
      let* r := attempt c in
      let* errors := collect_errors rest in
      ret (option_list (result_err r) ++ errors)
  end.

Definition raise_group (errors : list exn) : io W unit :=
  match errors with [] => ret tt | _ => raise (ExceptionGroup errors) end.

(** A handle of a manager: [begin_close] and [aclose] of one [AsyncLazy]. *)
Record handle := mk_handle { h_begin_close : io W unit; h_aclose : io W unit }.

Fixpoint seal_all (l : list handle) : io W unit :=
  match l with [] => ret tt | h :: l => h_begin_close h;;; seal_all l end.

Definition close_lazy_resources (resources : list handle) : io W unit :=
  seal_all resources;;;
  let* errors := collect_errors (map h_aclose (reverse resources)) in
  raise_group errors.

(** *** ApplicationContainer *)
Record container := mk_container {
  startup_callbacks : list (io W unit);
  async_shutdown_callbacks : list (io W unit);
  shutdown_callbacks : list (io W unit);
}.

Fixpoint run_callbacks (l : list (io W unit)) : io W unit :=
  match l with [] => ret tt | c :: l => c;;; run_callbacks l end.
Definition container_start (c : container) : io W unit := run_callbacks (startup_callbacks c).

Definition container_close (c : container) : io W unit :=
  let* errors := collect_errors (reverse (shutdown_callbacks c)) in
  raise_group errors.

Definition container_aclose (c : container) : io W unit :=
  let* errors := collect_errors (reverse (async_shutdown_callbacks c)) in
  let* r := attempt (container_close c) in
  let errors := errors ++
    match r with
    | Ok _ => []
    | Err (ExceptionGroup es) => es
    | Err e => [e]
    end in
  raise_group errors.

(** *** ApplicationRuntime: [rt] is the field [_container], which refers to
    a container object of type [C] with the callbacks [callbacks_of] *)
Record runtime_ref (C : Type) := mk_runtime {
  rt_get : W → option C;
  rt_set : option C → W → W;
}.
Context {C : Type} (rt : runtime_ref C) (callbacks_of : C → container) (container_factory : io W C).

Definition runtime_aclose : io W unit :=
  let* c := read (rt_get C rt) in
  modify (rt_set C rt None);;;
  match c with Some c => container_aclose (callbacks_of c) | None => ret tt end.

Definition runtime_start : io W C :=
  let* current := read (rt_get C rt) in
  (if current then raise RuntimeError else ret tt);;;
  let* c := container_factory in
  modify (rt_set C rt (Some c));;;
  let* r := attempt (container_start (callbacks_of c)) in
  match r with
  | Ok _ => ret c
  | Err startup_error =>
      let* r := attempt runtime_aclose in
      match r with
      | Ok _ => raise startup_error
      | Err cleanup_error => raise (ExceptionGroup [startup_error; cleanup_error])
      end
  end.

(** *** Tracing: [tv] is the context variable *)
Definition bind_trace_context {A X} (get : W → option X) (set : option X → W → W)
    (c : X) (body : io W A) : io W A :=
  let* token := read get in
  modify (set (Some c));;;
  finally body (modify (set token)).
End Closing.

Record TraceContext := mk_trace {
  tr_correlation_id : option pystr; tr_request_id : option pystr; tr_command_id : option pystr;
}.
Definition current_correlation_id (c : option TraceContext) : option pystr := c ≫= tr_correlation_id.

(** ** Helper lemmas *)

(** The world and the errors after running each callback once, in order. *)
Fixpoint run_all {W} (l : list (io W unit)) (w : W) : W * list exn :=
  match l with
  | [] => (w, [])
  | c :: l =>
      let '(w1, r) := c w in
      let '(w2, es) := run_all l w1 in
      (w2, option_list (result_err r) ++ es)
  end.

Lemma collect_errors_run {W} (l : list (io W unit)) w :
  collect_errors l w = let '(w', es) := run_all l w in (w', Ok es).
Proof.
  revert w. induction l as [| c l IH]; intros w; simpl; [done |]. unfold bind, attempt, ret.
  destruct (c w) as [w1 r]. rewrite IH. by destruct (run_all l w1).
Qed.

Lemma run_all_app {W} (l1 l2 : list (io W unit)) w :
  run_all (l1 ++ l2) w =
    let '(w1, es1) := run_all l1 w in let '(w2, es2) := run_all l2 w1 in (w2, es1 ++ es2).
Proof.
  revert w. induction l1 as [| c l1 IH]; intros w; simpl; [by destruct (run_all l2 w) |].
  destruct (c w) as [w1 r]. rewrite IH. destruct (run_all l1 w1) as [w2 es1].
  destruct (run_all l2 w2) as [w3 es2]. by rewrite <- app_assoc.
Qed.

Definition group_result (es : list exn) : result exn unit :=
  match es with [] => Ok tt | _ => Err (ExceptionGroup es) end.

Lemma raise_group_run {W} es (w : W) : raise_group es w = (w, group_result es).
Proof. by destruct es. Qed.

Lemma container_aclose_run {W} (c : @container W) w :
  container_aclose c w =
    let '(w', es) := run_all (reverse (async_shutdown_callbacks c) ++ reverse (shutdown_callbacks c)) w in
    (w', group_result es).
Proof.
  unfold container_aclose, container_close, bind, attempt. rewrite collect_errors_run, run_all_app.
  destruct (run_all (reverse (async_shutdown_callbacks c)) w) as [w1 es1]. rewrite collect_errors_run.
  destruct (run_all _ w1) as [w2 es2]. rewrite raise_group_run. simpl. rewrite raise_group_run.
  destruct es2 as [| e es2]; simpl; [by rewrite app_nil_r |]. done.
Qed.

(** ** Properties *)

(** Shutting down the application runs every asynchronous callback and
    then every synchronous one, each exactly once and in reverse order of
    declaration, whatever fails; and it raises exactly when something failed,
    with all failures in the order they happened. *)
Theorem container_shutdown_complete {W} (c : @container W) w :
  let '(w', es) := run_all (reverse (async_shutdown_callbacks c) ++ reverse (shutdown_callbacks c)) w in
  container_aclose c w = (w', match es with [] => Ok tt | _ => Err (ExceptionGroup es) end)
  ∧ (is_ok (container_aclose c w).2 = true ↔ es = []).
Proof.
  rewrite container_aclose_run. destruct (run_all _ w) as [w' es].
  split; [done |]. by destruct es.
Qed.

(** A start either leaves the started container in place or leaves none:
    after a failure every shutdown callback has run, the reference is gone,
    and the start-up error is raised, grouped with a failed clean-up. *)
Theorem runtime_start_all_or_nothing {W C} (rt : @runtime_ref W C) callbacks_of factory (w0 w1 w2 : W) c r :
  rt_get C rt w0 = None → factory w0 = (w1, Ok c) →
  container_start (callbacks_of c) (rt_set C rt (Some c) w1) = (w2, r) → rt_get C rt w2 = Some c →
  match r with
  | Ok _ => runtime_start rt callbacks_of factory w0 = (w2, Ok c)
  | Err e =>
      let '(w3, es) :=
        run_all (reverse (async_shutdown_callbacks (callbacks_of c)) ++ reverse (shutdown_callbacks (callbacks_of c)))
          (rt_set C rt None w2) in
      runtime_start rt callbacks_of factory w0 =
        (w3, Err match es with [] => e | _ => ExceptionGroup [e; ExceptionGroup es] end)
  end.
Proof.
  intros H0 Hf Hs H2. unfold runtime_start. unprog. rewrite H0, Hf, Hs.
  destruct r as [[] | e]; [done |]. unfold runtime_aclose. unprog. rewrite H2, container_aclose_run.
  destruct (run_all _ _) as [w3 es]. by destruct es.
Qed.

Lemma seal_all_run {W} (l : list (@handle W)) w :
  Forall (λ h, ∀ w, is_ok (h_begin_close h w).2 = true) l →
  seal_all l w = (foldl (λ w h, (h_begin_close h w).1) w l, Ok tt).
Proof.
  intros Hl. revert w. induction Hl as [| h l Hh Hl IH]; intros w; [done |]. simpl. unfold bind.
  specialize (Hh w). destruct (h_begin_close h w) as [w1 [[] | e]]; [apply IH | done].
Qed.

(** Closing a group of resources seals all of them, in order, before the
    first one is closed, then closes every one in reverse order; failures do
    not stop it and are all reported. *)
Theorem close_lazy_resources_complete {W} (resources : list (@handle W)) w :
  Forall (λ h, ∀ w, is_ok (h_begin_close h w).2 = true) resources →
  let sealed := foldl (λ w h, (h_begin_close h w).1) w resources in
  let '(w', es) := run_all (map h_aclose (reverse resources)) sealed in
  close_lazy_resources resources w = (w', match es with [] => Ok tt | _ => Err (ExceptionGroup es) end).
Proof.
  intros Hl sealed. unfold close_lazy_resources, bind. rewrite seal_all_run by done. fold sealed.
  rewrite collect_errors_run. destruct (run_all _ sealed) as [w' es]. by rewrite raise_group_run.
Qed.

(** ** Concrete runs: a world that records what ran *)
Abbreviation DemoWorld := (option bool * list nat)%type.
Definition log_step (n : nat) (r : result exn unit) : io DemoWorld unit :=
  λ w, ((w.1, w.2 ++ [n]), r).
Definition demo_runtime : @runtime_ref DemoWorld bool :=
  {| rt_get w := w.1; rt_set v w := (v, w.2) |}.
Definition demo_container (_ : bool) : @container DemoWorld :=
  {| startup_callbacks := [log_step 0 (Ok tt); log_step 1 (Err TypeError)];
     async_shutdown_callbacks := [log_step 2 (Ok tt); log_step 3 (Err ValueError)];
     shutdown_callbacks := [log_step 4 (Ok tt)] |}.

Lemma runtime_start_all_or_nothing_witness :
  runtime_start demo_runtime demo_container (ret true) (None, []) =
    ((None, [0; 1; 3; 2; 4]), Err (ExceptionGroup [TypeError; ExceptionGroup [ValueError]])).
Proof.
  apply (runtime_start_all_or_nothing demo_runtime demo_container (ret true) (None, []) (None, [])
    (Some true, [0; 1]) true (Err TypeError)); reflexivity.
Defined.

Lemma close_lazy_resources_complete_witness :
  close_lazy_resources
    [mk_handle (log_step 0 (Ok tt)) (log_step 10 (Err ValueError));
     mk_handle (log_step 1 (Ok tt)) (log_step 11 (Err TypeError))] (None, []) =
    ((None, [0; 1; 11; 10]), Err (ExceptionGroup [TypeError; ValueError])).
Proof.
  apply (close_lazy_resources_complete
    [mk_handle (log_step 0 (Ok tt)) (log_step 10 (Err ValueError));
     mk_handle (log_step 1 (Ok tt)) (log_step 11 (Err TypeError))]).
  repeat constructor.
Defined.
