(* ===== verification/Cache.v ===== *)
(** * Cache: keys, expiration, storages and the named cache manager

    Models [app/infrastructure/cache]: [key.py], [clients/managed.py],
    [clients/redis.py], [storages/], [providers/registry.py] and
    [manager.py].  The redis-py and memcachio clients are the classes
    [RedisDriver] and [MemcachedDriver]; what they return is untyped and the
    storages check it. *)

From S2P Require Import Prelude Text Errors PyVal Lazy Runtime.
Local Open Scope prog_scope.

(** ** Keys *)

Definition MAX_CACHE_KEY_BYTES : Z := 250.
(** [[\x00-\x20\x7f]] *)
Definition invalid_key_char (c : N) : bool := (c <=? 32)%N || (c =? 127)%N.
Definition colon : N := 58.

Record CacheKeyBuilder := mk_key_builder { kb_namespace : pystr; kb_prefix : pystr }.

Definition endswith (p s : pystr) : bool := startswith (reverse p) (reverse s).

Definition validate_config_segment (value : pystr) : result exn unit :=
  let? _ := guard (negb (bool_decide (value = []))) CacheConfigurationError in
  let? _ := guard (negb (startswith [colon] value || endswith [colon] value)) CacheConfigurationError in
  guard (negb (existsb invalid_key_char value)) CacheConfigurationError.

Definition CacheKeyBuilder_new (b : CacheKeyBuilder) : result exn CacheKeyBuilder :=
  let? _ := validate_config_segment (kb_namespace b) in
  let? _ := if bool_decide (kb_prefix b = []) then Ok tt else validate_config_segment (kb_prefix b) in
  Ok b.

Definition key_parts (b : CacheKeyBuilder) (key : pystr) : list pystr :=
  List.filter (λ p, negb (bool_decide (p = []))) [kb_namespace b; kb_prefix b; key].

Definition cache_key (b : CacheKeyBuilder) (key : pystr) : result exn pystr :=
  let? _ := guard (negb (bool_decide (key = []))) CacheKeyError in
  let? _ := guard (negb (existsb invalid_key_char key)) CacheKeyError in
  let final_key := join [colon] (key_parts b key) in
  let? _ := guard (negb (MAX_CACHE_KEY_BYTES <? utf8_length final_key)%Z) CacheKeyError in
  Ok final_key.

(** ** ManagedCacheClient over a byte storage *)

Class KeyValueStorage (W : Type) := {
  kv_get : pystr → io W (option pybytes);
  kv_set : pystr → pybytes → option Z → io W bool;
  kv_delete : pystr → io W bool;
  kv_exists : pystr → io W bool;
}.

(** [CacheTTL = int | CacheExpiration]; the integer is checked at run time. *)
Inductive CacheTTL := DEFAULT_EXPIRATION | NO_EXPIRATION | TTL (v : pyval).

Definition resolve_ttl (default_ttl : option Z) (ttl : CacheTTL) : result exn (option Z) :=
  match ttl with
  | DEFAULT_EXPIRATION => Ok default_ttl
  | NO_EXPIRATION => Ok None
  | TTL v =>
      match is_int v with
      | Some z => if (z <=? 0)%Z then Err ValueError else Ok (Some z)
      | None => Err ValueError
      end
  end.

Section ManagedClient.
Context {W : Type} `{KeyValueStorage W} (kb : CacheKeyBuilder) (default_ttl : option Z).

Definition client_get (key : pystr) : io W (option pybytes) :=
  let* k := lift (cache_key kb key) in kv_get k.
Definition client_set (key : pystr) (value : pyval) (ttl : CacheTTL) : io W unit :=
  match is_bytes value with
  | None => raise TypeError
  | Some b =>
      let* k := lift (cache_key kb key) in
      let* t := lift (resolve_ttl default_ttl ttl) in
      let* stored := kv_set k b t in
      if (stored : bool) then ret tt else raise CacheOperationError
  end.
Definition client_delete (key : pystr) : io W bool :=
  let* k := lift (cache_key kb key) in kv_delete k.
Definition client_exists (key : pystr) : io W bool :=
  let* k := lift (cache_key kb key) in kv_exists k.
End ManagedClient.

(** ** Redis storages over the driver *)

(** The Lua scripts shipped with the sources. *)
Inductive lua_script := IncrementWithTtl | DeleteBelow | AcquireWindow.

Class RedisDriver (W : Type) := {
  rd_get : pystr → io W pyval;
  rd_set : pystr → pybytes → option Z → io W pyval;
  rd_set_nx : pystr → pybytes → Z → io W pyval;
  rd_delete : pystr → io W Z;
  rd_exists : pystr → io W Z;
  rd_expire : pystr → Z → io W pyval;
  rd_ttl : pystr → io W pyval;
  rd_hgetall : pystr → io W pyval;
  rd_hset : pystr → list (pystr * pybytes) → io W pyval;
  rd_sadd : pystr → pybytes → io W pyval;
  rd_zadd : pystr → pybytes → pyval → bool → io W pyval;
  rd_zrem : pystr → pybytes → io W pyval;
  rd_zrangebyscore : pystr → pyval → pyval → Z → Z → io W pyval;
  rd_eval : lua_script → list pystr → list pyval → io W pyval;
}.

(** [except Exception as error: raise CacheOperationError from error] *)
Definition cache_operation {W A} (m : io W A) : io W A :=
  catch m (λ e, if is_exception e then raise CacheOperationError else raise e).

Section RedisStorages.
Context {W : Type} `{RedisDriver W}.

(** *** storages/redis/string.py and key.py *)
Definition string_get (key : pystr) : io W (option pybytes) :=
  let* value := cache_operation (rd_get key) in
  match value with
  | VNone => ret None
  | VBytes b => ret (Some b)
  | _ => raise CacheOperationError
  end.
Definition string_set (key : pystr) (value : pybytes) (ttl : option Z) : io W bool :=
  let* r := cache_operation (rd_set key value ttl) in ret (is_true r).
Definition string_set_if_absent (key : pystr) (value : pybytes) (ttl_ms : Z) : io W bool :=
  cache_operation (
    let* r := rd_set_nx key value ttl_ms in
    match r with
    | VBool true => ret true
    | VNone => ret false
    | _ => raise TypeError
    end).
Definition key_delete (key : pystr) : io W bool :=
  cache_operation (let* n := rd_delete key in ret (0 <? n)%Z).
Definition key_exists (key : pystr) : io W bool :=
  cache_operation (let* n := rd_exists key in ret (0 <? n)%Z).
Definition key_expire (key : pystr) (ttl : Z) : io W bool :=
  cache_operation (let* r := rd_expire key ttl in ret (truth r)).
Definition key_ttl (key : pystr) : io W Z :=
  let* value := cache_operation (rd_ttl key) in
  match is_int value with
  | Some z => if (z <? -2)%Z then raise CacheOperationError else ret z
  | None => raise CacheOperationError
  end.

(** *** hash.py, set.py, sorted_set.py, script.py *)
Fixpoint byte_fields (raw : list (pyval * pyval)) : result exn (list (pybytes * pybytes)) :=
  match raw with
  | [] => Ok []
  | (VBytes field, VBytes value) :: rest =>
      let? fields := byte_fields rest in Ok ((field, value) :: fields)
  | _ => Err TypeError
  end.
Definition hash_get_all (key : pystr) : io W (list (pybytes * pybytes)) :=
  cache_operation (
    let* raw := rd_hgetall key in
    match raw with VDict l => lift (byte_fields l) | _ => raise TypeError end).
Definition hash_set (key : pystr) (mapping : list (pystr * pybytes)) : io W Z :=
  cache_operation (
    let* r := rd_hset key mapping in
    match is_int r with
    | Some n => if (n <? 0)%Z then raise TypeError else ret n
    | None => raise TypeError
    end).
(** SADD, ZADD and ZREM answer 0 or 1. *)
Definition one_or_zero (r : pyval) : result exn bool :=
  match is_int r with
  | Some n => if (n =? 1)%Z then Ok true else if (n =? 0)%Z then Ok false else Err TypeError
  | None => Err TypeError
  end.
Definition set_add (key : pystr) (member : pybytes) : io W bool :=
  cache_operation (let* r := rd_sadd key member in lift (one_or_zero r)).
Definition sorted_set_add (key : pystr) (member : pybytes) (score : pyval) (nx : bool) : io W bool :=
  cache_operation (let* r := rd_zadd key member score nx in lift (one_or_zero r)).
Definition sorted_set_remove (key : pystr) (member : pybytes) : io W bool :=
  cache_operation (let* r := rd_zrem key member in lift (one_or_zero r)).
Definition byte_members (raw : list pyval) : result exn (list pybytes) :=
  map_result (λ v, match v with VBytes b => Ok b | _ => Err TypeError end) raw.
Definition sorted_set_range (key : pystr) (minimum maximum : pyval) (offset count : Z) : io W (list pybytes) :=
  cache_operation (
    let* raw := rd_zrangebyscore key minimum maximum offset count in
    match raw with VList l => lift (byte_members l) | _ => raise TypeError end).
Definition script_execute (script : lua_script) (keys : list pystr) (args : list pyval) : io W pyval :=
  cache_operation (rd_eval script keys args).

#[export] Instance redis_storage : KeyValueStorage W := {
  kv_get := string_get; kv_set := string_set; kv_delete := key_delete; kv_exists := key_exists;
}.

(** *** clients/redis.py *)
Context (kb : CacheKeyBuilder) (default_ttl : option Z).

Definition is_script_arg (v : pyval) : bool :=
  match v with VStr _ | VBytes _ | VInt _ => true | _ => false end.
Definition redis_execute_script (script : lua_script) (keys : list pystr) (args : list pyval) : io W pyval :=
  assert_or (negb (bool_decide (keys = []))) ValueError;;;
  assert_or (forallb is_script_arg args) ValueError;;;
  let* normalized := lift (map_result (cache_key kb) keys) in
  script_execute script normalized args.
Definition redis_expire (key : pystr) (ttl : CacheTTL) : io W bool :=
  let* resolved_ttl := lift (resolve_ttl default_ttl ttl) in
  match resolved_ttl with
  | None => raise ValueError
  | Some t => let* k := lift (cache_key kb key) in key_expire k t
  end.
Definition redis_ttl (key : pystr) : io W Z :=
  let* k := lift (cache_key kb key) in key_ttl k.
Definition redis_set_if_absent (key : pystr) (value ttl_ms : pyval) : io W bool :=
  match is_bytes value, is_int ttl_ms with
  | None, _ => raise TypeError
  | Some b, Some ms =>
      if (ms <=? 0)%Z then raise ValueError
      else let* k := lift (cache_key kb key) in string_set_if_absent k b ms
  | Some _, None => raise ValueError
  end.
Definition redis_hash_get_all (key : pystr) : io W (list (pybytes * pybytes)) :=
  let* k := lift (cache_key kb key) in hash_get_all k.
Definition hash_field (kv : pyval * pyval) : result exn (pystr * pybytes) :=
  match kv with
  | (VStr (c :: field), VBytes value) => Ok (c :: field, value)
  | _ => Err TypeError
  end.
Definition redis_hash_set (key : pystr) (mapping : pyval) : io W Z :=
  match mapping with
  | VDict (kv :: l) =>
      let* fields := lift (map_result hash_field (kv :: l)) in
      let* k := lift (cache_key kb key) in hash_set k fields
  | _ => raise ValueError
  end.
Definition redis_set_add (key : pystr) (member : pyval) : io W bool :=
  match is_bytes member with
  | None => raise TypeError
  | Some b => let* k := lift (cache_key kb key) in set_add k b
  end.
Definition validate_score (score : pyval) : result exn unit :=
  match score with
  | VInt _ => Ok tt
  | VFloat f => guard (match f with SpecFloat.S754_nan => false | _ => true end) ValueError
  | _ => Err ValueError
  end.
Definition redis_sorted_set_add (key : pystr) (member score nx : pyval) : io W bool :=
  match is_bytes member with
  | None => raise TypeError
  | Some b =>
      lift (validate_score score);;;
      match nx with
      | VBool nx => let* k := lift (cache_key kb key) in sorted_set_add k b score nx
      | _ => raise TypeError
      end
  end.
Definition redis_sorted_set_remove (key : pystr) (member : pyval) : io W bool :=
  match is_bytes member with
  | None => raise TypeError
  | Some b => let* k := lift (cache_key kb key) in sorted_set_remove k b
  end.
Definition redis_sorted_set_range (key : pystr) (minimum maximum count offset : pyval) : io W (list pybytes) :=
  lift (validate_score minimum);;;
  lift (validate_score maximum);;;
  match is_int offset, is_int count with
  | Some o, Some n =>
      if ((o <? 0) || (n <=? 0))%Z then raise ValueError
      else let* k := lift (cache_key kb key) in sorted_set_range k minimum maximum o n
  | _, _ => raise ValueError
  end.
End RedisStorages.

(** ** Memcached storage *)

Class MemcachedDriver (W : Type) := {
  mc_get : pystr → io W (option pybytes);
  mc_set : pystr → pybytes → Z → io W pyval;
  mc_delete : pystr → io W pyval;
  mc_time : io W Z;                         (* int(time.time()) *)
}.

Definition MEMCACHED_RELATIVE_EXPIRY_LIMIT : Z := 60 * 60 * 24 * 30.

Section MemcachedStorage.
Context {W : Type} `{MemcachedDriver W}.

Definition memcached_expiry (ttl : option Z) : io W Z :=
  match ttl with
  | None => ret 0%Z
  | Some t =>
      if (t <=? MEMCACHED_RELATIVE_EXPIRY_LIMIT)%Z then ret t
      else let* now := mc_time in ret (now + t)%Z
  end.
Definition memcached_get (key : pystr) : io W (option pybytes) := cache_operation (mc_get key).
Definition memcached_set (key : pystr) (value : pybytes) (ttl : option Z) : io W bool :=
  let* r := cache_operation (let* expiry := memcached_expiry ttl in mc_set key value expiry) in
  ret (is_true r).
Definition memcached_delete (key : pystr) : io W bool :=
  let* r := cache_operation (mc_delete key) in ret (is_true r).
Definition memcached_exists (key : pystr) : io W bool :=
  let* v := memcached_get key in ret (bool_decide (is_Some v)).
End MemcachedStorage.

(** ** Providers and the manager *)

Record CacheResourceDefinition := mk_cache_definition { cd_driver : pystr; cd_key_prefix : pystr }.
Record CacheProvider := mk_cache_provider {
  cp_driver : pystr;
  cp_prepare : pydict pyval → result exn CacheResourceDefinition;
}.

Fixpoint register_providers (providers : list CacheProvider) (registered : pydict CacheProvider)
    : result exn (pydict CacheProvider) :=
  match providers with
  | [] => Ok registered
  | p :: rest =>
      let? _ := guard (negb (bool_decide (cp_driver p = []))) CacheConfigurationError in
      let? _ := guard (negb (bool_decide (cp_driver p ∈ dict_keys registered))) CacheConfigurationError in
      register_providers rest (registered ++ [(cp_driver p, p)])
  end.
Definition CacheProviderRegistry_new (providers : list CacheProvider) := register_providers providers [].

Definition registry_prepare (registry : pydict CacheProvider) (raw : pydict pyval)
    : result exn CacheResourceDefinition :=
  match dict_get raw (u "driver") with
  | Some (VStr (c :: driver)) =>
      match dict_get registry (c :: driver) with
      | Some p => cp_prepare p raw
      | None => Err CacheConfigurationError
      end
  | _ => Err CacheConfigurationError
  end.

Record CacheSettings := mk_cache_settings {
  cs_default : option pystr;
  cs_namespace : pystr;
  cs_default_ttl : option Z;
  cs_connections : pydict (pydict pyval);
}.

Definition isspace (s : pystr) : bool := negb (bool_decide (s = [])) && forallb is_space s.

Definition prepare_connection (registry : pydict CacheProvider) (namespace name : pystr) (raw : pydict pyval)
    : result exn CacheResourceDefinition :=
  let? _ := guard (negb (bool_decide (name = []) || isspace name)) CacheConfigurationError in
  match (let? definition := registry_prepare registry raw in
         let? _ := CacheKeyBuilder_new (mk_key_builder namespace (cd_key_prefix definition)) in
         Ok definition) with
  | Ok definition => Ok definition
  | Err ValidationError | Err CacheConfigurationError => Err CacheConfigurationError
  | Err e => Err e
  end.

Fixpoint prepare_all (registry : pydict CacheProvider) (namespace : pystr) (l : pydict (pydict pyval))
    : result exn (pydict CacheResourceDefinition) :=
  match l with
  | [] => Ok []
  | (name, raw) :: rest =>
      let? d := prepare_connection registry namespace name raw in
      let? ds := prepare_all registry namespace rest in
      Ok ((name, d) :: ds)
  end.

Definition prepare_connections (registry : pydict CacheProvider) (s : CacheSettings)
    : result exn (pydict CacheResourceDefinition) :=
  let? _ := guard (match cs_default s with
                   | Some n => bool_decide (n ∈ dict_keys (cs_connections s))
                   | None => true
                   end) CacheConfigurationError in
  let? _ := guard (bool_decide (cs_connections s = []) || negb (bool_decide (cs_namespace s = [])))
              CacheConfigurationError in
  prepare_all registry (cs_namespace s) (cs_connections s).

(** [_resolve_name] of the cache and database managers. *)
Definition resolve_name (missing : exn) (default name : option pystr) : result exn pystr :=
  match name with
  | Some n => Ok n
  | None => match default with Some n => Ok n | None => Err missing end
  end.

(** The clients of the resources: the Redis one has more operations. *)
Inductive cache_client := PlainClient | RedisClient.

Section CacheManager.
Context {W : Type} (default : option pystr) (definitions : pydict CacheResourceDefinition)
  (resources : pydict (io W cache_client)) (closed : W → bool) (set_closed : W → W)
  (handles : list (@handle W)).

Definition cache_require_redis (name : option pystr) : result exn pystr :=
  let? resolved := resolve_name CacheConfigurationError default name in
  match dict_get definitions resolved with
  | None => Err CacheConfigurationError
  | Some d => let? _ := guard (bool_decide (cd_driver d = u "redis")) CacheConfigurationError in Ok resolved
  end.

Definition cache_get_resource (name : option pystr) : io W cache_client :=
  let* is_closed := read closed in
  (if (is_closed : bool) then raise RuntimeError else ret tt);;;
  let* resolved := lift (resolve_name CacheConfigurationError default name) in
  match dict_get resources resolved with
  | None => raise CacheConfigurationError
  | Some get => get
  end.

Definition cache_get_redis (name : option pystr) : io W cache_client :=
  let* resolved := lift (cache_require_redis name) in
  let* client := cache_get_resource (Some resolved) in
  match client with RedisClient => ret client | PlainClient => raise CacheConfigurationError end.

Definition cache_aclose : io W unit :=
  modify set_closed;;;
  close_lazy_resources handles.
End CacheManager.

(** [_create]: the client that goes with a definition. *)
Definition cache_create (namespace : pystr) (d : CacheResourceDefinition) (storage_is_redis : bool)
    : result exn (CacheKeyBuilder * cache_client) :=
  let? kb := CacheKeyBuilder_new (mk_key_builder namespace (cd_key_prefix d)) in
  if bool_decide (cd_driver d = u "redis") then
    let? _ := guard storage_is_redis CacheConfigurationError in Ok (kb, RedisClient)
  else Ok (kb, PlainClient).

(** ** Helper lemmas *)

Lemma utf8_length_app a b : utf8_length (a ++ b) = (utf8_length a + utf8_length b)%Z.
Proof. unfold utf8_length. induction a as [| c a IH]; simpl; [done |]. rewrite IH. lia. Qed.

Definition segment_head (s : pystr) : pystr := if bool_decide (s = []) then [] else s ++ [colon].
Definition key_head (b : CacheKeyBuilder) : pystr := segment_head (kb_namespace b) ++ segment_head (kb_prefix b).

Lemma key_parts_join b key : key ≠ [] → join [colon] (key_parts b key) = key_head b ++ key.
Proof.
  unfold key_parts, key_head, segment_head. destruct b as [ns p]. intros Hk.
  destruct ns, p, key; try done; simpl; repeat (rewrite <- ?app_assoc; simpl); done.
Qed.

(** The final key is the fixed head of the builder and the given key. *)
Lemma cache_key_shape b key k : cache_key b key = Ok k →
  k = key_head b ++ key ∧ key ≠ [] ∧ existsb invalid_key_char key = false ∧ (utf8_length k ≤ 250)%Z.
Proof.
  unfold cache_key, MAX_CACHE_KEY_BYTES. rewrite !guard_bind_ok, !negb_true_iff.
  intros (Hne & Hc & Hl & [= <-]). to_prop. rewrite key_parts_join in * by done. done.
Qed.

Lemma segment_head_clean s : validate_config_segment s = Ok tt → existsb invalid_key_char (segment_head s) = false.
Proof.
  unfold validate_config_segment, segment_head, guard. intros Hs. repeat case_bool; simplify_eq/=; try done.
  rewrite existsb_app. simpl. by destruct (existsb invalid_key_char s).
Qed.

Lemma key_head_clean b : CacheKeyBuilder_new b = Ok b → existsb invalid_key_char (key_head b) = false.
Proof.
  unfold CacheKeyBuilder_new, key_head. rewrite existsb_app. intros Hb.
  destruct (validate_config_segment (kb_namespace b)) as [[] | e] eqn:Hn; [| done].
  rewrite segment_head_clean by done. cbn [result_bind orb] in *.
  destruct (bool_decide (kb_prefix b = [])) eqn:Hp; [unfold segment_head; by rewrite Hp |].
  destruct (validate_config_segment (kb_prefix b)) as [[] | e] eqn:He; [| done].
  by apply segment_head_clean.
Qed.

(** ** Properties *)

(** A cache key that is built is accepted by both drivers: not empty, at
    most 250 bytes, without white space and control characters; and different
    keys of one client never collide. *)
Theorem cache_key_safe (b : CacheKeyBuilder) key k :
  CacheKeyBuilder_new b = Ok b → cache_key b key = Ok k →
  (1 ≤ length k ∧ (utf8_length k ≤ 250)%Z ∧ Forall (λ c, (32 < c)%N ∧ c ≠ 127%N) k)
  ∧ ∀ key', cache_key b key' = Ok k → key' = key.
Proof.
  intros Hb Hk. apply cache_key_shape in Hk as (-> & Hne & Hc & Hl). split.
  - split_and!; [| done |].
    + rewrite length_app. destruct key; [done | simpl; lia].
    + assert (Hall : existsb invalid_key_char (key_head b ++ key) = false)
        by (rewrite existsb_app, key_head_clean; done).
      apply existsb_false_forallb, forallb_Forall_true in Hall.
      rewrite Forall_forall in Hall |- *. intros c Hx%Hall. unfold invalid_key_char in Hx.
      apply negb_true_iff in Hx. to_prop. split; [lia | done].
  - intros key' Hk'. apply cache_key_shape in Hk' as (Heq & _). by apply app_inv_head in Heq.
Qed.

Lemma cache_key_safe_witness :
  let b := mk_key_builder (u "app") (u "main") in
  (1 ≤ length (u "app:main:users:7") ∧ (utf8_length (u "app:main:users:7") ≤ 250)%Z
    ∧ Forall (λ c, (32 < c)%N ∧ c ≠ 127%N) (u "app:main:users:7"))
  ∧ ∀ key', cache_key b key' = Ok (u "app:main:users:7") → key' = u "users:7".
Proof. intros b. apply (cache_key_safe b (u "users:7")); by vm_compute. Defined.

(** Memcached entries live exactly as long as asked.  Memcached reads an
    expiry of 0 as never, up to 30 days as relative and anything larger as an
    absolute time; with the conversion, an entry without TTL never expires and
    one with a TTL expires that many seconds after it was written. *)
Theorem memcached_expiry_exact {W} `{MemcachedDriver W} (deadline : Z → Z → option Z) (ttl : option Z) (w w' : W) now :
  (∀ t, deadline t 0%Z = None) →
  (∀ t e, (0 < e ≤ 2592000)%Z → deadline t e = Some (t + e)%Z) →
  (∀ t e, (2592000 < e)%Z → deadline t e = Some e) →
  mc_time w = (w', Ok now) → (0 ≤ now)%Z → match ttl with Some t => (0 < t)%Z | None => True end →
  ∃ w2 e, memcached_expiry ttl w = (w2, Ok e) ∧ deadline now e = option_map (Z.add now) ttl.
Proof.
  intros H0 Hrel Habs Ht Hnow Hpos. unfold memcached_expiry, MEMCACHED_RELATIVE_EXPIRY_LIMIT.
  destruct ttl as [t |]; [| by exists w, 0%Z]. destruct (t <=? _)%Z eqn:Hle; to_prop.
  - exists w, t. split; [done |]. simpl. apply Hrel. lia.
  - exists w', (now + t)%Z. unfold bind. rewrite Ht. split; [done |]. apply Habs. lia.
Qed.

Lemma memcached_expiry_exact_witness :
  let drv : MemcachedDriver unit := {| mc_get _ := ret None; mc_set _ _ _ := ret (VBool true);
    mc_delete _ := ret (VBool true); mc_time := ret 1700000000%Z |} in
  let deadline t e := if (e =? 0)%Z then None else if (e <=? 2592000)%Z then Some (t + e)%Z else Some e in
  ∃ w2 e, memcached_expiry (Some 2592001%Z) tt = (w2, Ok e)
    ∧ deadline 1700000000%Z e = Some (1700000000 + 2592001)%Z.
Proof.
  intros drv deadline.
  apply (memcached_expiry_exact (H := drv) deadline (Some 2592001%Z) tt tt 1700000000%Z); try done.
  - intros t e He. unfold deadline. rewrite (proj2 (Z.eqb_neq e 0)), (proj2 (Z.leb_le e _)) by lia. done.
  - intros t e He. unfold deadline. rewrite (proj2 (Z.eqb_neq e 0)), (proj2 (Z.leb_gt e _)) by lia. done.
Defined.

Lemma prepare_all_spec registry ns l ds :
  prepare_all registry ns l = Ok ds →
  dict_keys ds = dict_keys l ∧
  Forall (λ nd, CacheKeyBuilder_new (mk_key_builder ns (cd_key_prefix nd.2)) = Ok (mk_key_builder ns (cd_key_prefix nd.2))
    ∧ nd.1 ≠ [] ∧ isspace nd.1 = false) ds.
Proof.
  revert ds. induction l as [| [name raw] l IH]; simpl; intros ds Hds; [by simplify_eq/= |].
  destruct (prepare_connection registry ns name raw) as [d | e] eqn:Hd; [| done]. cbn [result_bind] in Hds.
  destruct (prepare_all registry ns l) as [ds' | e] eqn:Hl; [| done]. simplify_eq/=.
  destruct (IH _ eq_refl) as [Hkeys Hall]. split; [by f_equal |]. constructor; [| done]. simpl.
  unfold prepare_connection, guard in Hd. destruct (bool_decide (name = [])) eqn:Hn; [done |].
  destruct (isspace name) eqn:Hs; [done |]. cbn [negb orb result_bind] in Hd. to_prop.
  destruct (registry_prepare registry raw) as [d' | e]; cbn [result_bind] in Hd; [| by destruct e].
  destruct (CacheKeyBuilder_new _) as [kb | e] eqn:Hkb; cbn [result_bind] in Hd; [| by destruct e].
  injection Hd as ->. split_and!; auto. revert Hkb. unfold CacheKeyBuilder_new, result_bind.
  repeat step_case; naive_solver.
Qed.

(** After the cache configuration was accepted, no later step can find it
    wrong: the definitions are exactly the declared connections, the default
    one is among them, and for each of them the key builder is legal, so that
    creating its client can only fail for lack of a Redis storage. *)
Theorem cache_configuration_sound registry settings ds :
  prepare_connections registry settings = Ok ds →
  dict_keys ds = dict_keys (cs_connections settings)
  ∧ (∀ n, cs_default settings = Some n → resolve_name CacheConfigurationError (cs_default settings) None = Ok n
       ∧ n ∈ dict_keys ds)
  ∧ ∀ name d, (name, d) ∈ ds → name ≠ []
      ∧ is_ok (cache_create (cs_namespace settings) d true) = true.
Proof.
  unfold prepare_connections, guard. intros Hp.
  destruct (match cs_default settings with Some _ => _ | None => _ end) eqn:Hdef; [| done].
  cbn [result_bind] in Hp. destruct (_ || _); [| done]. cbn [result_bind] in Hp.
  apply prepare_all_spec in Hp as [Hkeys Hall]. split_and!; [done | |].
  - intros n Hn. rewrite Hn in Hdef. apply bool_decide_eq_true in Hdef. split; [by rewrite Hn |].
    by rewrite Hkeys.
  - intros name d Hin. rewrite Forall_forall in Hall. apply list_elem_of_In in Hin. destruct (Hall _ Hin) as (Hkb & Hne & _).
    split; [done |]. unfold cache_create. simpl in Hkb. rewrite Hkb. simpl. by case_bool_decide.
Qed.

Lemma cache_configuration_sound_witness :
  let registry := [(u "redis", mk_cache_provider (u "redis")
    (λ _, Ok (mk_cache_definition (u "redis") (u "main"))))] in
  let settings := mk_cache_settings (Some (u "r")) (u "app") (Some 300%Z) [(u "r", [(u "driver", VStr (u "redis"))])] in
  let ds := [(u "r", mk_cache_definition (u "redis") (u "main"))] in
  dict_keys ds = dict_keys (cs_connections settings)
  ∧ (∀ n, cs_default settings = Some n → resolve_name CacheConfigurationError (cs_default settings) None = Ok n
       ∧ n ∈ dict_keys ds)
  ∧ ∀ name d, (name, d) ∈ ds → name ≠ [] ∧ is_ok (cache_create (cs_namespace settings) d true) = true.
Proof.
  intros registry settings ds. apply (cache_configuration_sound registry settings ds). by vm_compute.
Defined.
