(* ===== verification/Decimal.v ===== *)
(** * Decimal: decimal texts, their values and their order

    [str] of a natural number, as Python's f-strings, Redis's INCR and Lua
    print it, the numeric value of a digit string, and the comparison of two
    canonical decimal strings by length and then by bytes. *)

From S2P Require Import Prelude Text PyVal.

(** [str(n)]: [k] bounds the number of digits. *)
Fixpoint decimal_upto (k : nat) (n : N) : list N :=
  match k with
  | O => []
  | S k => if (n <? 10)%N then [48 + n]%N else decimal_upto k (n / 10)%N ++ [48 + n mod 10]%N
  end.
Definition decimal (n : N) : pystr := decimal_upto (S (N.to_nat (N.log2 n))) n.
Definition str_int (z : Z) : pystr :=
  if (z <? 0)%Z then 45%N :: decimal (Z.to_N (- z)) else decimal (Z.to_N z).

(** The ASCII bytes of a text, and back. *)
Definition ascii_bytes (s : pystr) : pybytes := omap Byte.of_N s.
Definition dec_bytes (n : N) : pybytes := ascii_bytes (decimal n).

(** [^[1-9][0-9]*$] *)
Definition canonical (s : pystr) : bool :=
  match s with
  | [] => false
  | c :: rest => in_range 49 57 c && forallb is_09 rest
  end.
Definition digits_value (s : pystr) : N := of_digits 10 (map (λ c, c - 48)%N s).

#[global] Arguments decimal : simpl never.
#[global] Arguments dec_bytes : simpl never.

(** Comparison of two strings of the same length, byte by byte. *)
Fixpoint text_ltb (a b : pystr) : bool :=
  match a, b with
  | _, [] => false
  | [], _ :: _ => true
  | x :: a, y :: b => (x <? y)%N || (x =? y)%N && text_ltb a b
  end.
(** [#a < #b or (#a == #b and a < b)] *)
Definition shortlex_ltb (a b : pystr) : bool :=
  bool_decide (length a < length b) || bool_decide (length a = length b) && text_ltb a b.

(** ** The value of a printed number *)

Lemma decimal_upto_value k n : (n < 2 ^ N.of_nat k)%N → digits_value (decimal_upto k n) = n.
Proof.
  revert n. induction k as [| k IH]; intros n Hn; [simpl in *; by assert (n = 0)%N as -> by lia |].
  unfold digits_value in *. cbn [decimal_upto]. destruct (n <? 10)%N eqn:Hs; to_prop.
  - cbn [map]. unfold of_digits. simpl. lia.
  - rewrite map_app. cbn [map]. rewrite of_digits_app, IH.
    + pose proof (N.div_mod n 10 ltac:(done)). revert H. generalize (n mod 10)%N, (n / 10)%N. lia.
    + apply N.Div0.div_lt_upper_bound. rewrite Nat2N.inj_succ, N.pow_succ_r' in Hn. lia.
Qed.

Lemma decimal_value_of n : digits_value (decimal n) = n.
Proof.
  apply decimal_upto_value. rewrite Nat2N.inj_succ, N2Nat.id.
  destruct (decide (n = 0)%N) as [-> | Hn]; [done |]. apply N.log2_spec. lia.
Qed.

#[export] Instance decimal_inj : Inj (=) (=) decimal.
Proof. intros a b Hab. by rewrite <- (decimal_value_of a), Hab, decimal_value_of. Qed.

Lemma decimal_upto_canonical k n : (0 < n < 2 ^ N.of_nat k)%N → canonical (decimal_upto k n) = true.
Proof.
  revert n. induction k as [| k IH]; intros n Hn; [simpl in *; lia |]. cbn [decimal_upto].
  destruct (n <? 10)%N eqn:Hs; to_prop.
  - simpl. unfold in_range. rewrite andb_true_r. apply andb_true_iff. split; apply N.leb_le; lia.
  - assert (Hc : canonical (decimal_upto k (n / 10)) = true).
    { apply IH. split; [apply N.div_str_pos; lia |]. apply N.Div0.div_lt_upper_bound.
      rewrite Nat2N.inj_succ, N.pow_succ_r' in Hn. lia. }
    destruct (decimal_upto k (n / 10)) as [| c l]; [done |]. simpl in *.
    apply andb_true_iff in Hc as [-> Hl]. rewrite forallb_app, Hl. simpl. rewrite andb_true_r.
    pose proof (N.mod_lt n 10 ltac:(done)) as Hm. revert Hm. generalize (n mod 10)%N. intros m Hm. unfold is_09, in_range. apply andb_true_iff. split; apply N.leb_le; lia.
Qed.

Lemma decimal_canonical n : (0 < n)%N → canonical (decimal n) = true.
Proof.
  intros Hn. apply decimal_upto_canonical. rewrite Nat2N.inj_succ, N2Nat.id. split; [done |].
  by apply N.log2_spec.
Qed.

(** ** The order of canonical texts is the order of their values *)

Lemma of_digits_acc b l a : fold_left (λ a d, a * b + d)%N l a = (a * b ^ N.of_nat (length l) + of_digits b l)%N.
Proof.
  unfold of_digits. revert a. induction l as [| d l IH]; intros a; cbn [fold_left length]; [simpl; lia |].
  rewrite IH, (IH (0 * b + d)%N), Nat2N.inj_succ, N.pow_succ_r'. lia.
Qed.

Lemma digits_value_cons c s :
  digits_value (c :: s) = ((c - 48) * 10 ^ N.of_nat (length s) + digits_value s)%N.
Proof. unfold digits_value. cbn [map]. unfold of_digits at 1. cbn [fold_left]. by rewrite of_digits_acc, length_map. Qed.

Lemma digits_value_bound s : forallb is_09 s = true → (digits_value s < 10 ^ N.of_nat (length s))%N.
Proof.
  induction s as [| c s IH]; [done |]. cbn [forallb length]. intros [Hc Hs]%andb_true_iff.
  rewrite digits_value_cons, Nat2N.inj_succ, N.pow_succ_r'. specialize (IH Hs).
  unfold is_09, in_range in Hc. to_prop. nia.
Qed.

Lemma canonical_digits s : canonical s = true → forallb is_09 s = true.
Proof.
  destruct s as [| c s]; [done |]. simpl. intros [Hc ->]%andb_true_iff. rewrite andb_true_r.
  unfold is_09, in_range in *. to_prop. apply andb_true_iff; split; apply N.leb_le; lia.
Qed.

Lemma text_ltb_value a b : forallb is_09 a = true → forallb is_09 b = true → length a = length b →
  text_ltb a b = (digits_value a <? digits_value b)%N.
Proof.
  revert b. induction a as [| x a IH]; intros [| y b]; [done | done | done |].
  cbn [forallb length text_ltb]. intros [Hx Ha]%andb_true_iff [Hy Hb]%andb_true_iff [= Hl].
  rewrite !digits_value_cons, Hl, (IH b) by done.
  pose proof (digits_value_bound a Ha) as Hba. pose proof (digits_value_bound b Hb) as Hbb. rewrite Hl in Hba.
  unfold is_09, in_range in Hx, Hy. to_prop.
  set (p := (10 ^ N.of_nat (length b))%N) in *.
  destruct (N.lt_trichotomy x y) as [Hlt | [-> | Hlt]].
  - rewrite (proj2 (N.ltb_lt x y)) by done. simpl. symmetry. apply N.ltb_lt. nia.
  - rewrite N.ltb_irrefl, N.eqb_refl. simpl. apply eq_true_iff_eq. rewrite !N.ltb_lt. lia.
  - rewrite (proj2 (N.ltb_ge x y)), (proj2 (N.eqb_neq x y)) by lia. simpl. symmetry. apply N.ltb_ge. nia.
Qed.

Lemma canonical_lower s : canonical s = true → (10 ^ N.of_nat (pred (length s)) ≤ digits_value s)%N.
Proof.
  destruct s as [| c s]; [done |]. simpl. intros [Hc Hs]%andb_true_iff. rewrite digits_value_cons.
  unfold in_range in Hc. to_prop. nia.
Qed.

(** The Lua comparison of two canonical numbers is exact at any size. *)
Lemma shortlex_value a b : canonical a = true → canonical b = true →
  shortlex_ltb a b = (digits_value a <? digits_value b)%N.
Proof.
  intros Ha Hb. pose proof (canonical_digits a Ha) as Hda. pose proof (canonical_digits b Hb) as Hdb.
  unfold shortlex_ltb. destruct (decide (length a = length b)) as [Hl | Hl].
  - rewrite bool_decide_false, bool_decide_true by lia. simpl. by apply text_ltb_value.
  - rewrite (bool_decide_false (length a = length b)), andb_false_l, orb_false_r by done.
    pose proof (canonical_lower a Ha). pose proof (canonical_lower b Hb).
    pose proof (digits_value_bound a Hda). pose proof (digits_value_bound b Hdb).
    destruct (decide (length a < length b)) as [Hlt | Hge].
    + rewrite bool_decide_true by done. symmetry. apply N.ltb_lt.
      assert (10 ^ N.of_nat (length a) ≤ 10 ^ N.of_nat (pred (length b)))%N by (apply N.pow_le_mono_r; lia). lia.
    + rewrite bool_decide_false by done. symmetry. apply N.ltb_ge.
      assert (10 ^ N.of_nat (length b) ≤ 10 ^ N.of_nat (pred (length a)))%N by (apply N.pow_le_mono_r; lia). lia.
Qed.

(** ** Bytes *)

Lemma ascii_bytes_text s : forallb is_09 s = true → map byte_N (ascii_bytes s) = s.
Proof.
  unfold ascii_bytes, byte_N. induction s as [| c s IH]; [done |]. cbn [forallb omap list_omap].
  intros [Hc Hs]%andb_true_iff. unfold is_09, in_range in Hc. to_prop.
  destruct (Byte.of_N c) as [x |] eqn:Hx; simpl.
  - rewrite IH by done. f_equal. by apply Byte.to_of_N.
  - apply Byte.of_N_None_iff in Hx. lia.
Qed.

Lemma dec_bytes_text n : map byte_N (dec_bytes n) = decimal n.
Proof.
  destruct (decide (n = 0)%N) as [-> | Hn]; [done |].
  apply ascii_bytes_text, canonical_digits, decimal_canonical. lia.
Qed.

Lemma dec_bytes_int n : (0 < n)%N → bytes_isdigit (dec_bytes n) = true ∧ bytes_int (dec_bytes n) = Z.of_N n.
Proof.
  intros Hn. pose proof (dec_bytes_text n) as Ht. pose proof (canonical_digits _ (decimal_canonical n Hn)) as Hd.
  pose proof (decimal_canonical n Hn) as Hc. unfold bytes_isdigit, bytes_int, decimal_value. split.
  - apply andb_true_iff. split.
    + apply negb_true_iff, bool_decide_eq_false. intros Hb. rewrite Hb in Ht. simpl in Ht. by rewrite <- Ht in Hc.
    + rewrite <- Ht in Hd. by rewrite forallb_map in Hd.
  - rewrite Ht. f_equal. apply decimal_value_of.
Qed.
