(* ===== verification/ClientAddress.v ===== *)
(** * ClientAddress: the identity a request is counted under

    Models [_client_identity] of [interfaces/http/middleware/rate_limit.py] with
    what it uses of the standard library's [ipaddress]: the two parsers (scope
    identifiers, IPv4 suffixes and [::] included), [ipv4_mapped] and
    [compressed].  A refusal, an [AddressValueError], is [None]. *)

From S2P Require Import Prelude Text Decimal.
Local Open Scope prog_scope.

Definition DOT : N := 46.
Definition COLON : N := 58.
Definition PERCENT : N := 37.
Definition SLASH : N := 47.

(** ** IPv4 *)
(** [_parse_octet] *)
Definition parse_octet (s : pystr) : option N :=
  if bool_decide (s = []) || negb (forallb is_09 s) || (3 <? length s) then None
  else if negb (bool_decide (s = u "0")) && match s with c :: _ => (c =? 48)%N | [] => false end then None
  else let n := digits_value s in if (255 <? n)%N then None else Some n.
Definition ipv4_int (s : pystr) : option N :=
  let octets := split_on DOT s [] in
  if length octets =? 4 then of_digits 256 <$> mapM parse_octet octets else None.
Definition ipv4_text (n : N) : pystr := join (u ".") (map decimal (to_digits 256 4 n)).

(** ** IPv6 *)
(** [_parse_hextet]; [int("", 16)] raises. *)
Definition parse_hextet (s : pystr) : option N :=
  if 4 <? length s then None else match s with [] => None | _ => hex_parse s end.
(** ["%x"] of a 16-bit number *)
Fixpoint drop_zeros (s : pystr) : pystr :=
  match s with c :: ((_ :: _) as t) => if (c =? 48)%N then drop_zeros t else s | _ => s end.
Definition hex_text (n : N) : pystr := drop_zeros (hex_of 4 n).
(** The empty parts between the endpoints, by index. *)
Fixpoint empty_parts (i : nat) (l : list pystr) : list nat :=
  match l with [] => [] | p :: l => if bool_decide (p = []) then i :: empty_parts (S i) l else empty_parts (S i) l end.
Definition is_empty (p : option pystr) : bool := bool_decide (p = Some []).
(** An IPv4 suffix becomes two hextets. *)
Definition expand_suffix (parts : list pystr) : option (list pystr) :=
  match list.last parts with
  | Some p =>
      if bool_decide (DOT ∈ p) then n ← ipv4_int p; Some (removelast parts ++ [hex_text (n / 65536); hex_text (n mod 65536)])
      else Some parts
  | None => Some parts
  end.
Definition hextets_value (parts : list pystr) (hi skipped lo : nat) : option N :=
  a ← mapM parse_hextet (take hi parts);
  b ← mapM parse_hextet (drop (length parts - lo) parts);
  Some (of_digits 65536 (a ++ replicate skipped 0%N ++ b)).
Definition ipv6_int (s : pystr) : option N :=
  let parts := split_on COLON s [] in
  if length parts <? 3 then None
  else
    parts ← expand_suffix parts;
    if 9 <? length parts then None
    else
      match empty_parts 1 (removelast (tail parts)) with
      | [] =>
          if negb (length parts =? 8) || is_empty (head parts) || is_empty (list.last parts) then None
          else hextets_value parts 8 0 0
      | [skip_index] =>
          let hi := if is_empty (head parts) then skip_index - 1 else skip_index in
          let lo := if is_empty (list.last parts) then length parts - skip_index - 2 else length parts - skip_index - 1 in
          if (is_empty (head parts) && negb (hi =? 0)) || (is_empty (list.last parts) && negb (lo =? 0)) || (8 <? hi + lo + 1) then None
          else hextets_value parts hi (8 - (hi + lo)) lo
      | _ => None
      end.
(** [_split_scope_id] *)
Fixpoint partition_percent (s : pystr) : pystr * option pystr :=
  match s with
  | [] => ([], None)
  | c :: s => if (c =? PERCENT)%N then ([], Some s) else let '(a, scope) := partition_percent s in (c :: a, scope)
  end.
Definition scope_ok (scope : option pystr) : bool :=
  match scope with Some t => negb (bool_decide (t = [])) && negb (bool_decide (PERCENT ∈ t)) | None => true end.

(** [_compress_hextets]: the first longest run of zeros, as index and length. *)
Fixpoint longest_zeros (l : list pystr) (index len : nat) (best : nat * nat) : nat * nat :=
  match l with
  | [] => best
  | h :: l =>
      if bool_decide (h = u "0") then
        longest_zeros l (S index) (S len) (if snd best <? S len then (S index - S len, S len) else best)
      else longest_zeros l (S index) 0 best
  end.
Definition compress_hextets (l : list pystr) : list pystr :=
  let '(start, len) := longest_zeros l 0 0 (0, 0) in
  if 1 <? len then
    (if start =? 0 then [[]] else []) ++ take start l ++ [[]] ++ drop (start + len) l ++ (if start + len =? length l then [[]] else [])
  else l.
Definition ipv6_text (n : N) : pystr := join (u ":") (compress_hextets (map hex_text (to_digits 65536 8 n))).

(** ** Addresses *)
Inductive address := IPv4Address (n : N) | IPv6Address (n : N) (scope : option pystr).
#[export] Instance address_eq_dec : EqDecision address. Proof. solve_decision. Defined.
Definition IPv6Address_new (s : pystr) : option address :=
  if bool_decide (SLASH ∈ s) then None
  else
    let '(addr, scope) := partition_percent s in
    if scope_ok scope then n ← ipv6_int addr; Some (IPv6Address n scope) else None.
Definition ip_address (s : pystr) : option address :=
  match ipv4_int s with Some n => Some (IPv4Address n) | None => IPv6Address_new s end.
Definition compressed (a : address) : pystr :=
  match a with
  | IPv4Address n => ipv4_text n
  | IPv6Address n scope => ipv6_text n ++ match scope with Some t => u "%" ++ t | None => [] end
  end.
(** [ipv4_mapped]: an IPv4 address is always true. *)
Definition unmapped (a : address) : address :=
  match a with
  | IPv6Address n _ => if (n / 2 ^ 32 =? 65535)%N then IPv4Address (n mod 2 ^ 32) else a
  | IPv4Address _ => a
  end.
(** [host]: the first component of [scope["client"]]. *)
Definition client_identity (host : option pystr) : pystr :=
  match host with
  | None => u "ip:unknown"
  | Some h => match ip_address h with None => u "ip:unknown" | Some a => u "ip:" ++ compressed (unmapped a) end
  end.

Example identities :
  map client_identity [Some (u "192.0.2.7"); Some (u "::ffff:192.0.2.7"); Some (u "2001:0DB8:0:0:1::"); Some (u "fe80::1%eth0"); Some (u "::");
    Some (u "192.0.2.007"); Some (u "unix"); None; Some (u "1:2:3:4:5:6:7:0:0"); Some (u "::1:2:3:4:5:6:1.2.3.4"); Some (u "1::2::3")]
  = [u "ip:192.0.2.7"; u "ip:192.0.2.7"; u "ip:2001:db8:0:0:1::"; u "ip:fe80::1%eth0"; u "ip:::";
    u "ip:unknown"; u "ip:unknown"; u "ip:unknown"; u "ip:unknown"; u "ip:unknown"; u "ip:unknown"].
Proof. vm_compute. reflexivity. Qed.

(** ** Proofs: texts of octets and hextets *)

Lemma parse_octet_decimal o : (o < 256)%N → parse_octet (decimal o) = Some o ∧ Forall (λ c, c ≠ DOT) (decimal o).
Proof.
  intros Ho. set (f := λ o, bool_decide (parse_octet (decimal o) = Some o) && forallb (λ c, negb (c =? DOT)%N) (decimal o)).
  assert (Hall : forallb f (map N.of_nat (seq 0 256)) = true) by (vm_compute; reflexivity).
  rewrite forallb_forall in Hall. specialize (Hall o). assert (Hf : f o = true).
  { apply Hall, in_map_iff. exists (N.to_nat o). split; [apply N2Nat.id | apply in_seq; lia]. }
  apply andb_true_iff in Hf as [H1 H2]. to_prop. split; [done |]. apply forallb_Forall_true in H2. eapply List.Forall_impl; [| exact H2].
  intros c Hc. by apply negb_true_iff, N.eqb_neq in Hc.
Qed.
Lemma octet_bound s o : parse_octet s = Some o → (o < 256)%N ∧ forallb is_09 s = true.
Proof.
  unfold parse_octet. destruct (forallb is_09 s); [| by rewrite orb_true_r]. repeat case_match; try done. intros [= <-]. to_prop. split; [lia | done].
Qed.
Lemma mapM_map_some {A B} (f : A → option B) (g : B → A) l : Forall (λ x, f (g x) = Some x) l → mapM f (map g l) = Some l.
Proof. induction 1 as [| x l Hx Hl IH]; [done |]. simpl. by rewrite Hx, IH. Qed.
Lemma mapM_octets l : Forall (λ o, o < 256)%N l → mapM parse_octet (map decimal l) = Some l.
Proof. intros Hl. apply mapM_map_some. eapply List.Forall_impl; [| exact Hl]. intros o Ho. by apply parse_octet_decimal. Qed.
Lemma ipv4_text_read n : (n < 2 ^ 32)%N → ipv4_int (ipv4_text n) = Some n.
Proof.
  intros Hn. unfold ipv4_int, ipv4_text. change (u ".") with [DOT].
  pose proof (to_digits_bound 256 4 n ltac:(lia)) as Hd. pose proof (length_to_digits 256 4 n) as Hl.
  rewrite split_join; [| by destruct (to_digits 256 4 n) | ].
  - rewrite List.length_map, Hl. cbn [Nat.eqb]. rewrite mapM_octets by done. change (Some (of_digits 256 (to_digits 256 4 n)) = Some n). f_equal. by apply of_to_digits_small.
  - apply Forall_map. eapply List.Forall_impl; [| exact Hd]. intros o Ho. by apply parse_octet_decimal.
Qed.

(** What an IPv4 text is made of. *)
Lemma split_on_cover d s part c : c ≠ d → c ∈ s ∨ c ∈ part → ∃ p, p ∈ split_on d s part ∧ c ∈ p.
Proof.
  intros Hc. revert part. induction s as [| e s IH]; intros part Hin; cbn [split_on].
  - destruct Hin as [Hin%elem_of_nil | Hin]; [done |]. exists (reverse part). split; [left | by apply elem_of_reverse].
  - destruct (e =? d)%N eqn:He.
    + to_prop. subst e. destruct Hin as [Hin | Hin].
      * apply elem_of_cons in Hin as [-> | Hin]; [done |]. destruct (IH [] (or_introl Hin)) as (p & Hp & Hcp). exists p. split; [by right | done].
      * exists (reverse part). split; [left | by apply elem_of_reverse].
    + apply IH. destruct Hin as [Hin | Hin]; [apply elem_of_cons in Hin as [-> | Hin]; [right; left | by left] | right; by right].
Qed.
Lemma mapM_some_in {A B} (f : A → option B) l r x : mapM f l = Some r → x ∈ l → ∃ y, f x = Some y ∧ y ∈ r.
Proof.
  intros Hm%mapM_Some Hx. apply list_elem_of_lookup in Hx as [i Hi]. destruct (Forall2_lookup_l _ _ _ _ _ Hm Hi) as (y & Hy & Hf).
  exists y. split; [done | by eapply list_elem_of_lookup_2].
Qed.
Lemma ipv4_chars s n c : ipv4_int s = Some n → c ∈ s → c = DOT ∨ is_09 c = true.
Proof.
  unfold ipv4_int. destruct (length _ =? 4); [| done]. intros (l & Hl & _)%fmap_Some Hc. destruct (decide (c = DOT)) as [| Hd]; [by left |]. right.
  destruct (split_on_cover DOT s [] c Hd (or_introl Hc)) as (p & Hp & Hcp). destruct (mapM_some_in _ _ _ _ Hl Hp) as (y & [_ Hy]%octet_bound & _).
  rewrite forallb_forall in Hy. apply Hy. by apply list_elem_of_In.
Qed.
Lemma ipv4_bound s n : ipv4_int s = Some n → (n < 2 ^ 32)%N.
Proof.
  unfold ipv4_int. destruct (length _ =? 4) eqn:H4; [| done]. apply Nat.eqb_eq in H4. intros (l & Hl & ->)%fmap_Some.
  assert (Hlen : length l = 4) by (apply mapM_Some in Hl; apply Forall2_length in Hl; congruence).
  change (2 ^ 32)%N with (256 ^ N.of_nat 4)%N. rewrite <- Hlen. apply of_digits_bound; [lia |].
  rewrite list.Forall_forall. intros o Ho. apply mapM_Some in Hl. apply list_elem_of_lookup in Ho as [i Hi].
  destruct (Forall2_lookup_r _ _ _ _ _ Hl Hi) as (p & _ & Hp). by apply octet_bound in Hp as [? _].
Qed.

Lemma drop_zeros_hex s : s ≠ [] → hex_parse (drop_zeros s) = hex_parse s.
Proof.
  intros _. induction s as [| c [| d s] IH]; [done.. |]. change (drop_zeros (c :: d :: s)) with (if (c =? 48)%N then drop_zeros (d :: s) else c :: d :: s). destruct (c =? 48)%N eqn:Hc; [| done]. to_prop. subst c.
  rewrite IH. unfold hex_parse. change (mapM hex_val (48%N :: d :: s)) with (l ← mapM hex_val (d :: s); Some (0%N :: l)).
  by destruct (mapM hex_val (d :: s)) as [l |].
Qed.
Lemma drop_zeros_chars P s : Forall P s → Forall P (drop_zeros s).
Proof. induction s as [| c [| d s] IH]; [done.. |]. change (drop_zeros (c :: d :: s)) with (if (c =? 48)%N then drop_zeros (d :: s) else c :: d :: s). intros Hs. destruct (c =? 48)%N; [| done]. apply IH. by apply list.Forall_cons in Hs as [_ Hs]. Qed.
Lemma drop_zeros_nonempty s : s ≠ [] → drop_zeros s ≠ [].
Proof. induction s as [| c [| d s] IH]; [done.. |]. change (drop_zeros (c :: d :: s)) with (if (c =? 48)%N then drop_zeros (d :: s) else c :: d :: s). intros _. destruct (c =? 48)%N; [by apply IH | done]. Qed.
Lemma drop_zeros_length s : length (drop_zeros s) ≤ length s.
Proof. induction s as [| c [| d s] IH]; [done.. |]. change (drop_zeros (c :: d :: s)) with (if (c =? 48)%N then drop_zeros (d :: s) else c :: d :: s). destruct (c =? 48)%N; [cbn [length] in *; lia | done]. Qed.

Lemma hex_text_nonempty h : hex_text h ≠ [].
Proof. apply drop_zeros_nonempty. unfold hex_of. intros Hn. apply (f_equal length) in Hn. by rewrite List.length_map, length_to_digits in Hn. Qed.
Lemma parse_hextet_text h : (h < 65536)%N → parse_hextet (hex_text h) = Some h.
Proof.
  intros Hh. unfold parse_hextet. assert (Hl : length (hex_text h) ≤ 4) by (etransitivity; [apply drop_zeros_length | by rewrite length_hex_of]).
  rewrite (proj2 (Nat.ltb_ge _ _)) by lia. assert (Hp : hex_parse (hex_text h) = Some h).
  { unfold hex_text. rewrite drop_zeros_hex; [by apply hex_parse_of |]. intros Hn. apply (f_equal length) in Hn. by rewrite length_hex_of in Hn. }
  rewrite Hp. by destruct (hex_text h) eqn:He; [apply hex_text_nonempty in He |].
Qed.
Lemma hex_text_chars h : (h < 65536)%N → Forall (λ c, is_hex_lower c = true) (hex_text h).
Proof.
  intros Hh. apply drop_zeros_chars. unfold hex_of. apply Forall_map. eapply List.Forall_impl; [| by apply (to_digits_bound 16 4 h)].
  intros d Hd. by apply hex_char_lower.
Qed.
Lemma hex_text_zero h : (h < 65536)%N → hex_text h = u "0" ↔ h = 0%N.
Proof.
  intros Hh. split; [| intros ->; vm_compute; reflexivity]. intros Ht. apply parse_hextet_text in Hh. rewrite Ht in Hh. vm_compute in Hh. by injection Hh as <-.
Qed.
Lemma hex_not c : is_hex_lower c = true → c ≠ DOT ∧ c ≠ COLON ∧ c ≠ PERCENT ∧ c ≠ SLASH.
Proof. intros Hc. split_and!; intros ->; vm_compute in Hc; discriminate Hc. Qed.
Lemma mapM_hextets l : Forall (λ h, h < 65536)%N l → mapM parse_hextet (map hex_text l) = Some l.
Proof. intros Hl. apply mapM_map_some. eapply List.Forall_impl; [| exact Hl]. intros h Hh. by apply parse_hextet_text. Qed.

(** ** Proofs: the run of zeros *)
Abbreviation ZERO := (u "0").
Definition zeros_at (l : list pystr) (i n : nat) : Prop := i + n ≤ length l ∧ ∀ k, i ≤ k < i + n → l !! k = Some ZERO.
Lemma longest_zeros_run l P len best :
  len ≤ length P → zeros_at (P ++ l) (length P - len) len → zeros_at (P ++ l) best.1 best.2 →
  let r := longest_zeros l (length P) len best in zeros_at (P ++ l) r.1 r.2.
Proof.
  revert P len best. induction l as [| h l IH]; intros P len best Hlen Hrun Hbest; cbn [longest_zeros]; [exact Hbest |].
  replace (P ++ h :: l) with ((P ++ [h]) ++ l) in * by (by rewrite <- app_assoc).
  replace (S (length P)) with (length (P ++ [h])) by (rewrite length_app; cbn; lia).
  case_bool_decide as Hh.
  - assert (Hnew : zeros_at ((P ++ [h]) ++ l) (length (P ++ [h]) - S len) (S len)).
    { destruct Hrun as [Hr1 Hr2]. split; rewrite !length_app in *; cbn in *; [lia |]. intros k Hk. destruct (decide (k = length P)) as [-> | Hne].
      - rewrite <- app_assoc. cbn [app]. rewrite list_lookup_middle by done. by rewrite Hh.
      - apply Hr2. lia. }
    apply IH; [rewrite length_app; cbn; lia | exact Hnew |]. destruct (snd best <? S len); [exact Hnew | exact Hbest].
  - apply IH; [lia | | exact Hbest]. split; [rewrite !length_app; cbn; lia |]. intros k Hk. lia.
Qed.
Lemma compress_cases (hs : list N) : Forall (λ h, h < 65536)%N hs →
  let l := map hex_text hs in
  compress_hextets l = l
  ∨ ∃ A n B, hs = A ++ replicate n 0%N ++ B ∧ 2 ≤ n
      ∧ compress_hextets l = (if length A =? 0 then [[]] else []) ++ map hex_text A ++ [[]] ++ map hex_text B ++ (if length B =? 0 then [[]] else []).
Proof.
  intros Hb l. pose proof (longest_zeros_run l [] 0 (0, 0)) as Hz. cbn [app length] in Hz. unfold compress_hextets.
  assert (H0 : zeros_at l 0 0) by (split; [lia | intros k Hk; lia]). specialize (Hz ltac:(lia) H0 H0).
  destruct (longest_zeros l 0 0 (0, 0)) as [start len]. cbn [fst snd] in Hz. destruct Hz as [Hz1 Hz2]. destruct (1 <? len) eqn:Hl; [| by left].
  apply Nat.ltb_lt in Hl. right. assert (Hlen : length l = length hs) by apply List.length_map.
  assert (Hmid : take len (drop start hs) = replicate len 0%N).
  { apply list_eq. intros i. destruct (decide (i < len)) as [Hi | Hi].
    - rewrite lookup_take_lt, lookup_drop, lookup_replicate_2 by lia. specialize (Hz2 (start + i) ltac:(lia)). unfold l in Hz2.
      rewrite list_lookup_fmap in Hz2. apply fmap_Some in Hz2 as (h & Hh & Ht). rewrite Hh. f_equal.
      apply hex_text_zero; [| by symmetry]. rewrite list.Forall_forall in Hb. apply Hb. by eapply list_elem_of_lookup_2.
    - rewrite lookup_take_ge by lia. symmetry. apply lookup_ge_None_2. rewrite length_replicate. lia. }
  exists (take start hs), len, (drop (start + len) hs). split; [| split; [lia |]].
  - rewrite <- Hmid. rewrite <- drop_drop. rewrite take_drop. by rewrite take_drop.
  - rewrite length_take, length_drop, Nat.min_l by lia. unfold l. rewrite <- !firstn_map, <- !skipn_map.
    replace (length hs - (start + len) =? 0) with (start + len =? length hs); [by rewrite List.length_map |].
    destruct (Nat.eqb_spec (start + len) (length hs)), (Nat.eqb_spec (length hs - (start + len)) 0); try done; lia.
Qed.

(** ** Proofs: reading a compressed address *)
Lemma empty_parts_none i l : Forall (λ p, p ≠ []) l → empty_parts i l = [].
Proof. revert i. induction l as [| p l IH]; intros i Hl; [done |]. apply list.Forall_cons in Hl as [Hp Hl]. cbn. rewrite bool_decide_false by done. by apply IH. Qed.
Lemma empty_parts_app i a b : empty_parts i (a ++ b) = empty_parts i a ++ empty_parts (i + length a) b.
Proof.
  revert i. induction a as [| p a IH]; intros i; cbn; [by rewrite Nat.add_0_r |]. rewrite IH, Nat.add_succ_r. by case_bool_decide.
Qed.
Lemma expand_suffix_none parts : Forall (λ p, DOT ∉ p) parts → expand_suffix parts = Some parts.
Proof.
  intros Hp. unfold expand_suffix. destruct (list.last parts) as [p |] eqn:Hl; [| done]. rewrite bool_decide_false; [done |].
  rewrite list.Forall_forall in Hp. apply Hp. rewrite last_lookup in Hl. by eapply list_elem_of_lookup_2.
Qed.
(** The parts of a text with one gap. *)
Lemma ipv6_gap parts k hi lo a b :
  Forall (λ p, COLON ∉ p ∧ DOT ∉ p) parts → 3 ≤ length parts ≤ 9 →
  empty_parts 1 (removelast (tail parts)) = [k] →
  hi = (if is_empty (head parts) then k - 1 else k) →
  lo = (if is_empty (list.last parts) then length parts - k - 2 else length parts - k - 1) →
  (is_empty (head parts) = true → hi = 0) → (is_empty (list.last parts) = true → lo = 0) → hi + lo ≤ 7 →
  mapM parse_hextet (take hi parts) = Some a → mapM parse_hextet (drop (length parts - lo) parts) = Some b →
  ipv6_int (join [COLON] parts) = Some (of_digits 65536 (a ++ replicate (8 - (hi + lo)) 0%N ++ b)).
Proof.
  intros Hp Hlen Hk Hhi Hlo Hh Hl Hsum Ha Hb. unfold ipv6_int. rewrite split_join.
  - rewrite (proj2 (Nat.ltb_ge _ _)) by lia. rewrite expand_suffix_none by (eapply List.Forall_impl; [| exact Hp]; by intros p [_ ?]).
    cbn [mbind option_bind]. rewrite (proj2 (Nat.ltb_ge _ _)) by lia. rewrite Hk, <- Hhi, <- Hlo.
    assert (Hok : (is_empty (head parts) && negb (hi =? 0)) || (is_empty (list.last parts) && negb (lo =? 0)) || (8 <? hi + lo + 1) = false).
    { rewrite (proj2 (Nat.ltb_ge 8 (hi + lo + 1))) by lia.
      destruct (is_empty (head parts)); [rewrite (Hh eq_refl) |]; (destruct (is_empty (list.last parts)); [rewrite (Hl eq_refl) |]); done. }
    rewrite Hok. unfold hextets_value. by rewrite Ha, Hb.
  - intros ->. cbn in Hlen. lia.
  - eapply List.Forall_impl; [| exact Hp]. intros p [Hc _]. apply list.Forall_forall. by intros c Hin ->.
Qed.
Lemma hex_texts_clean l : Forall (λ h, h < 65536)%N l → Forall (λ p, COLON ∉ p ∧ DOT ∉ p) (map hex_text l).
Proof.
  intros Hl. apply Forall_map. eapply List.Forall_impl; [| exact Hl]. intros h Hh%hex_text_chars. rewrite list.Forall_forall in Hh.
  split; intros (Hd & Hc & _)%Hh%hex_not; done.
Qed.
Lemma hex_texts_nonempty l : Forall (λ p, p ≠ []) (map hex_text l).
Proof. apply Forall_map, list.Forall_forall. intros h _. apply hex_text_nonempty. Qed.
Lemma removelast_nonempty (l : list pystr) : Forall (λ p, p ≠ []) l → Forall (λ p, p ≠ []) (removelast l).
Proof. induction 1 as [| p l Hp Hl IH]; [done |]. cbn. destruct l; [done |]. by constructor. Qed.
Lemma head_hex a l : is_empty (head (map hex_text (a :: l))) = false.
Proof. unfold is_empty. cbn. apply bool_decide_eq_false. intros [= Hn]. by apply (hex_text_nonempty a). Qed.
Lemma last_hex l r b : is_empty (list.last (r ++ map hex_text (b :: l))) = false.
Proof.
  unfold is_empty. apply bool_decide_eq_false. rewrite last_app. destruct (list.last (map hex_text (b :: l))) as [p |] eqn:Hp.
  - intros [= ->]. rewrite last_lookup in Hp. apply list_elem_of_lookup_2 in Hp. pose proof (hex_texts_nonempty (b :: l)) as Hn. rewrite list.Forall_forall in Hn. by apply (Hn []).
  - by apply last_None in Hp.
Qed.
Lemma clean_gap A B post : Forall (λ h, h < 65536)%N A → Forall (λ h, h < 65536)%N B → post = [] ∨ post = [[]] →
  Forall (λ p, COLON ∉ p ∧ DOT ∉ p) (map hex_text A ++ [[]] ++ map hex_text B ++ post).
Proof.
  intros HA HB Hpost. assert (He : COLON ∉ ([] : pystr) ∧ DOT ∉ ([] : pystr)) by (split; by intros ?%elem_of_nil).
  rewrite !Forall_app. split_and!; [by apply hex_texts_clean | by constructor | by apply hex_texts_clean | destruct Hpost as [-> | ->]; [constructor | by constructor]].
Qed.
(** A gap at the front, at the end, and inside. *)
Lemma ipv6_front_read n b B : Forall (λ h, h < 65536)%N (b :: B) → n + S (length B) = 8 → 2 ≤ n →
  ipv6_int (join [COLON] ([] :: [] :: map hex_text (b :: B))) = Some (of_digits 65536 (replicate n 0%N ++ b :: B)).
Proof.
  intros HB Hlen Hn.
  assert (Hlength : length (([] : pystr) :: [] :: map hex_text (b :: B)) = length B + 3) by (simpl; rewrite List.length_map; lia).
  rewrite (ipv6_gap _ 1 0 (S (length B)) [] (b :: B)).
  - cbn [app]. by replace (8 - (0 + S (length B))) with n by lia.
  - constructor; [split; by intros ?%elem_of_nil |]. constructor; [split; by intros ?%elem_of_nil |]. by apply hex_texts_clean.
  - rewrite Hlength. lia.
  - cbn [tail]. change ([] :: map hex_text (b :: B)) with ([[]] ++ map hex_text (b :: B)). rewrite removelast_app by done.
    cbn [app]. cbn [empty_parts]. rewrite bool_decide_true by done. f_equal. apply empty_parts_none, removelast_nonempty, hex_texts_nonempty.
  - done.
  - pose proof (last_hex B [[]; []] b) as Hl. cbn [app] in Hl. rewrite Hl, Hlength. lia.
  - done.
  - pose proof (last_hex B [[]; []] b) as Hl. cbn [app] in Hl. rewrite Hl. done.
  - lia.
  - done.
  - rewrite Hlength. replace (length B + 3 - S (length B)) with 2 by lia. cbn [drop]. by apply mapM_hextets.
Qed.
Lemma ipv6_end_read a A n : Forall (λ h, h < 65536)%N (a :: A) → S (length A) + n = 8 → 2 ≤ n →
  ipv6_int (join [COLON] (map hex_text (a :: A) ++ [[]; []])) = Some (of_digits 65536 ((a :: A) ++ replicate n 0%N)).
Proof.
  intros HA Hlen Hn.
  assert (Hl : list.last (map hex_text (a :: A) ++ [[]; []]) = Some []) by by rewrite last_app.
  assert (Hlength : length (map hex_text (a :: A) ++ [[]; []]) = length A + 3) by (rewrite length_app, List.length_map; cbn [length]; lia).
  rewrite (ipv6_gap _ (S (length A)) (S (length A)) 0 (a :: A) []).
  - replace (8 - (S (length A) + 0)) with n by lia. by rewrite app_nil_r.
  - by apply (clean_gap (a :: A) [] [[]]); [| | right].
  - rewrite Hlength. lia.
  - cbn [map app tail]. rewrite removelast_app by done. rewrite empty_parts_app, empty_parts_none by apply hex_texts_nonempty.
    cbn [removelast empty_parts app]. rewrite bool_decide_true by done. by rewrite List.length_map.
  - cbn [map app head]. pose proof (head_hex a A) as Hh. cbn [map head] in Hh. by rewrite Hh.
  - rewrite Hlength, Hl. unfold is_empty. rewrite bool_decide_true by done. lia.
  - cbn [map app head]. pose proof (head_hex a A) as Hh. cbn [map head] in Hh. by rewrite Hh.
  - done.
  - lia.
  - rewrite take_app_length' by (by rewrite List.length_map). by apply mapM_hextets.
  - rewrite Nat.sub_0_r, drop_all. done.
Qed.
Lemma ipv6_inner_read a A n b B : Forall (λ h, h < 65536)%N (a :: A) → Forall (λ h, h < 65536)%N (b :: B) → S (length A) + n + S (length B) = 8 → 2 ≤ n →
  ipv6_int (join [COLON] (map hex_text (a :: A) ++ [[]] ++ map hex_text (b :: B))) = Some (of_digits 65536 ((a :: A) ++ replicate n 0%N ++ b :: B)).
Proof.
  intros HA HB Hlen Hn.
  assert (Hlength : length (map hex_text (a :: A) ++ [[]] ++ map hex_text (b :: B)) = length A + length B + 3) by (rewrite !length_app, !List.length_map; cbn [length]; lia).
  assert (Hl : is_empty (list.last (map hex_text (a :: A) ++ [[]] ++ map hex_text (b :: B))) = false) by (rewrite app_assoc; apply last_hex).
  rewrite (ipv6_gap _ (S (length A)) (S (length A)) (S (length B)) (a :: A) (b :: B)).
  - by replace (8 - (S (length A) + S (length B))) with n by lia.
  - pose proof (clean_gap (a :: A) (b :: B) [] HA HB (or_introl eq_refl)) as Hc. by rewrite app_nil_r in Hc.
  - rewrite Hlength. lia.
  - cbn [map app tail]. rewrite removelast_app by done. rewrite empty_parts_app, empty_parts_none by apply hex_texts_nonempty. cbn [app].
    change ([] :: hex_text b :: map hex_text B) with ([[]] ++ map hex_text (b :: B)). rewrite removelast_app by done. cbn [app empty_parts].
    rewrite bool_decide_true by done. rewrite empty_parts_none by apply removelast_nonempty, hex_texts_nonempty. by rewrite List.length_map.
  - cbn [map app head]. pose proof (head_hex a A) as Hh. cbn [map head] in Hh. by rewrite Hh.
  - rewrite Hlength, Hl. lia.
  - cbn [map app head]. pose proof (head_hex a A) as Hh. cbn [map head] in Hh. by rewrite Hh.
  - by rewrite Hl.
  - lia.
  - rewrite take_app_length' by (by rewrite List.length_map). by apply mapM_hextets.
  - rewrite Hlength. replace (length A + length B + 3 - S (length B)) with (length (map hex_text (a :: A) ++ [[]])) by (rewrite length_app, List.length_map; cbn [length]; lia).
    rewrite app_assoc, drop_app_length. by apply mapM_hextets.
Qed.
Lemma ipv6_gap_read A n B : Forall (λ h, h < 65536)%N A → Forall (λ h, h < 65536)%N B → length A + n + length B = 8 → 2 ≤ n →
  ipv6_int (join [COLON] ((if length A =? 0 then [[]] else []) ++ map hex_text A ++ [[]] ++ map hex_text B ++ (if length B =? 0 then [[]] else [])))
  = Some (of_digits 65536 (A ++ replicate n 0%N ++ B)).
Proof.
  intros HA HB Hlen Hn. destruct A as [| a A], B as [| b B]; cbn [length Nat.eqb app map] in *.
  - replace n with 8 by lia. vm_compute. reflexivity.
  - rewrite app_nil_r. apply (ipv6_front_read n b B); [done | lia | done].
  - rewrite app_nil_r. apply (ipv6_end_read a A n); [done | lia | done].
  - rewrite app_nil_r. apply (ipv6_inner_read a A n b B); [done | done | lia | done].
Qed.
Lemma ipv6_full_read hs : Forall (λ h, h < 65536)%N hs → length hs = 8 → ipv6_int (join [COLON] (map hex_text hs)) = Some (of_digits 65536 hs).
Proof.
  intros Hh Hlen. pose proof (hex_texts_clean hs Hh) as Hc. unfold ipv6_int. rewrite split_join.
  - rewrite List.length_map, Hlen. cbn [Nat.ltb Nat.leb]. rewrite expand_suffix_none by (eapply List.Forall_impl; [| exact Hc]; by intros p [_ ?]).
    cbn [mbind option_bind]. rewrite List.length_map, Hlen. cbn [Nat.ltb Nat.leb Nat.eqb negb orb].
    assert (He : empty_parts 1 (removelast (tail (map hex_text hs))) = []).
    { apply empty_parts_none, removelast_nonempty. pose proof (hex_texts_nonempty hs) as Hn. destruct hs; [done |]. cbn [map tail] in *. by apply list.Forall_cons in Hn as [_ ?]. }
    rewrite He. assert (Hhead : is_empty (head (map hex_text hs)) = false) by (destruct hs; [done | apply head_hex]).
    assert (Hlast : is_empty (list.last (map hex_text hs)) = false) by (destruct hs as [| h hs]; [done | apply (last_hex hs [] h)]).
    rewrite Hhead, Hlast. cbn [orb]. unfold hextets_value. rewrite take_ge by (rewrite List.length_map; lia).
    rewrite Nat.sub_0_r, drop_all, mapM_hextets by done. cbn. by rewrite app_nil_r.
  - by destruct hs.
  - eapply List.Forall_impl; [| exact Hc]. intros p [Hp _]. apply list.Forall_forall. by intros c Hin ->.
Qed.
Lemma ipv6_text_read n : (n < 2 ^ 128)%N → ipv6_int (ipv6_text n) = Some n.
Proof.
  intros Hn. unfold ipv6_text. change (u ":") with [COLON]. pose proof (to_digits_bound 65536 8 n ltac:(lia)) as Hd. pose proof (length_to_digits 65536 8 n) as Hl.
  assert (Hv : of_digits 65536 (to_digits 65536 8 n) = n) by by apply of_to_digits_small.
  destruct (compress_cases (to_digits 65536 8 n) Hd) as [-> | (A & k & B & Heq & Hk & ->)]; [by rewrite ipv6_full_read, Hv |].
  rewrite Heq in Hd, Hl. rewrite !Forall_app in Hd. destruct Hd as (HA & _ & HB). rewrite !length_app, length_replicate in Hl.
  rewrite (ipv6_gap_read A k B) by (done || lia). by rewrite <- Heq, Hv.
Qed.
(** Its characters. *)
Lemma in_join (sep : pystr) parts c : c ∈ join sep parts → c ∈ sep ∨ ∃ p, p ∈ parts ∧ c ∈ p.
Proof.
  induction parts as [| p parts IH]; [by intros ?%elem_of_nil |]. destruct parts as [| q parts].
  - cbn. intros Hc. right. exists p. split; [left | done].
  - change (join sep (p :: q :: parts)) with (p ++ sep ++ join sep (q :: parts)). rewrite !elem_of_app. intros [Hc | [Hc | Hc]].
    + right. exists p. split; [left | done].
    + by left.
    + destruct (IH Hc) as [? | (r & Hr & Hcr)]; [by left |]. right. exists r. split; [by right | done].
Qed.
Lemma ipv6_text_chars n c : c ∈ ipv6_text n → c ≠ PERCENT ∧ c ≠ SLASH.
Proof.
  unfold ipv6_text. intros Hc. apply in_join in Hc as [Hc | (p & Hp & Hc)]; [apply list_elem_of_singleton in Hc as ->; done |].
  pose proof (to_digits_bound 65536 8 n ltac:(lia)) as Hd.
  assert (Hp' : p = [] ∨ ∃ h, (h < 65536)%N ∧ p = hex_text h).
  { rewrite list.Forall_forall in Hd. assert (Hin : ∀ l, p ∈ map hex_text l → (∀ h, h ∈ l → (h < 65536)%N) → ∃ h, (h < 65536)%N ∧ p = hex_text h).
    { intros l Hl Hall. apply list_elem_of_In, in_map_iff in Hl as (h & <- & Hh). exists h. split; [apply Hall; by apply list_elem_of_In | done]. }
    destruct (compress_cases (to_digits 65536 8 n) ltac:(by apply list.Forall_forall)) as [Heq | (A & k & B & Heq & Hk & Hcomp)].
    - rewrite Heq in Hp. right. by apply (Hin _ Hp).
    - rewrite Hcomp in Hp. rewrite Heq in Hd. rewrite !elem_of_app in Hp. destruct Hp as [Hp | [Hp | [Hp | [Hp | Hp]]]].
      + destruct (length A =? 0); [left; by apply list_elem_of_singleton in Hp | by apply elem_of_nil in Hp].
      + right. apply (Hin _ Hp). intros h Hh. apply Hd. rewrite !elem_of_app. auto.
      + left. by apply list_elem_of_singleton in Hp.
      + right. apply (Hin _ Hp). intros h Hh. apply Hd. rewrite !elem_of_app. auto.
      + destruct (length B =? 0); [left; by apply list_elem_of_singleton in Hp | by apply elem_of_nil in Hp]. }
  destruct Hp' as [-> | (h & Hh & ->)]; [by apply elem_of_nil in Hc |]. apply hex_text_chars in Hh. rewrite list.Forall_forall in Hh.
  apply Hh, hex_not in Hc. tauto.
Qed.
Lemma join_two (sep : N) p q parts : sep ∈ join [sep] (p :: q :: parts).
Proof. change (join [sep] (p :: q :: parts)) with (p ++ [sep] ++ join [sep] (q :: parts)). rewrite !elem_of_app. right. left. left. Qed.
Lemma ipv6_text_colon n : (n < 2 ^ 128)%N → COLON ∈ ipv6_text n.
Proof.
  intros Hn. apply ipv6_text_read in Hn. unfold ipv6_text in *. change (u ":") with [COLON] in *.
  destruct (compress_hextets _) as [| p [| q parts]] eqn:Hc; [vm_compute in Hn; discriminate Hn | | apply join_two].
  exfalso. pose proof (to_digits_bound 65536 8 n ltac:(lia)) as Hd. pose proof (length_to_digits 65536 8 n) as Hl.
  destruct (compress_cases (to_digits 65536 8 n) Hd) as [Heq | (A & k & B & _ & _ & Heq)]; rewrite Heq in Hc; apply (f_equal length) in Hc.
  - rewrite List.length_map, Hl in Hc. done.
  - rewrite !length_app, !List.length_map in Hc. destruct A, B; cbn in Hc; lia.
Qed.

(** ** Proofs: addresses *)
Definition address_ok (a : address) : Prop :=
  match a with
  | IPv4Address n => (n < 2 ^ 32)%N
  | IPv6Address n scope => (n < 2 ^ 128)%N ∧ scope_ok scope = true ∧ match scope with Some t => SLASH ∉ t | None => True end
  end.
Lemma partition_percent_at a scope : PERCENT ∉ a →
  partition_percent (a ++ match scope with Some t => u "%" ++ t | None => [] end) = (a, scope).
Proof.
  induction a as [| c a IH]; intros Ha.
  - cbn [app]. destruct scope as [t |]; reflexivity.
  - cbn [app partition_percent]. rewrite (proj2 (N.eqb_neq c PERCENT)); [| intros ->; apply Ha; left]. rewrite IH; [done |]. intros Hin. apply Ha. by right.
Qed.
Lemma compressed_read a : address_ok a → ip_address (compressed a) = Some a.
Proof.
  destruct a as [n | n scope]; cbn [address_ok compressed]; intros Ha; unfold ip_address.
  - by rewrite ipv4_text_read.
  - destruct Ha as (Hn & Hs & Ht). set (s := ipv6_text n ++ _).
    assert (H4 : ipv4_int s = None).
    { destruct (ipv4_int s) as [m |] eqn:He; [| done]. exfalso. destruct (ipv4_chars s m COLON He) as [Hx | Hx]; [| discriminate Hx..].
      unfold s. apply elem_of_app. left. by apply ipv6_text_colon. }
    rewrite H4. unfold IPv6Address_new. rewrite bool_decide_false.
    + unfold s. rewrite partition_percent_at; [| intros Hp%ipv6_text_chars; by destruct Hp]. rewrite Hs, ipv6_text_read by done. reflexivity.
    + unfold s. rewrite elem_of_app. intros [Hp | Hp]; [apply ipv6_text_chars in Hp; by destruct Hp |]. destruct scope as [t |]; [| by apply elem_of_nil in Hp].
      apply elem_of_app in Hp as [Hp | Hp]; [| done]. by apply list_elem_of_singleton in Hp.
Qed.
Lemma hex_val_bound c d : hex_val c = Some d → (d < 16)%N.
Proof. unfold hex_val, is_09, in_range. repeat case_match; try done; intros [= <-]; to_prop; lia. Qed.
Lemma mapM_bound {A} (f : A → option N) l r b : (∀ x y, f x = Some y → (y < b)%N) → mapM f l = Some r → Forall (λ y, y < b)%N r ∧ length r = length l.
Proof.
  intros Hf Hm%mapM_Some. split; [| by apply Forall2_length in Hm]. apply list.Forall_forall. intros y Hy. apply list_elem_of_lookup in Hy as [i Hi].
  destruct (Forall2_lookup_r _ _ _ _ _ Hm Hi) as (x & _ & Hx). by eapply Hf.
Qed.
Lemma hextet_bound s h : parse_hextet s = Some h → (h < 65536)%N.
Proof.
  unfold parse_hextet. destruct (4 <? length s) eqn:Hl; [done |]. apply Nat.ltb_ge in Hl. destruct s as [| c s]; [done |].
  unfold hex_parse. intros (l & Hm & ->)%fmap_Some. destruct (mapM_bound _ _ _ 16 hex_val_bound Hm) as [Hb Hlen].
  pose proof (of_digits_bound 16 l ltac:(lia) Hb) as Ho. eapply N.lt_le_trans; [exact Ho |]. change 65536%N with (16 ^ 4)%N.
  apply N.pow_le_mono_r; [done |]. lia.
Qed.
Lemma hextets_bound parts hi skipped lo n : hextets_value parts hi skipped lo = Some n → hi + skipped + lo ≤ 8 → (n < 2 ^ 128)%N.
Proof.
  unfold hextets_value. intros (a & Ha & Hn)%bind_Some Hs. apply bind_Some in Hn as (b & Hb & [= <-]).
  destruct (mapM_bound _ _ _ _ hextet_bound Ha) as [Ha1 Ha2], (mapM_bound _ _ _ _ hextet_bound Hb) as [Hb1 Hb2]. rewrite length_take in Ha2. rewrite length_drop in Hb2.
  eapply N.lt_le_trans; [apply of_digits_bound; [lia |] |].
  - rewrite !Forall_app. split_and!; [done | | done]. apply list.Forall_forall. intros x Hx. apply elem_of_replicate in Hx as [-> _]. lia.
  - change (2 ^ 128)%N with (65536 ^ 8)%N. apply N.pow_le_mono_r; [done |]. rewrite !length_app, length_replicate. lia.
Qed.
Lemma ipv6_bound s n : ipv6_int s = Some n → (n < 2 ^ 128)%N.
Proof.
  unfold ipv6_int. destruct (_ <? 3); [done |]. intros (parts & _ & Hn)%bind_Some. destruct (9 <? length parts); [done |].
  destruct (empty_parts 1 _) as [| k [| ? ?]]; [| | done].
  - destruct (_ || _ || _); [done |]. eapply hextets_bound; [exact Hn | lia].
  - set (hi := if is_empty (head parts) then _ else _) in *. set (lo := if is_empty (list.last parts) then _ else _) in *.
    destruct (8 <? hi + lo + 1) eqn:H8; [by rewrite orb_true_r in Hn |]. apply Nat.ltb_ge in H8. destruct (_ || _ || _); [done |].
    eapply hextets_bound; [exact Hn | lia].
Qed.
Lemma partition_percent_in s a t c : partition_percent s = (a, Some t) → c ∈ t → c ∈ s.
Proof.
  revert a. induction s as [| d s IH]; intros a; cbn; [done |]. destruct (d =? PERCENT)%N; [intros [= <- <-] Hc; by right |].
  destruct (partition_percent s) as [a' scope]. intros [= <- ->] Hc. right. by eapply IH.
Qed.
Lemma ip_address_ok s a : ip_address s = Some a → address_ok a.
Proof.
  unfold ip_address, IPv6Address_new. destruct (ipv4_int s) as [n |] eqn:H4; [intros [= <-]; by eapply ipv4_bound |].
  case_bool_decide as Hs; [done |]. destruct (partition_percent s) as [addr scope] eqn:Hp. destruct (scope_ok scope) eqn:Ho; [| done].
  intros (n & Hn & [= <-])%bind_Some. split; [by eapply ipv6_bound |]. split; [done |]. destruct scope as [t |]; [| done].
  intros Ht. apply Hs. by eapply partition_percent_in.
Qed.
Lemma unmapped_ok a : address_ok a → address_ok (unmapped a).
Proof. destruct a as [n | n scope]; cbn [unmapped]; [done |]. destruct (_ =? _)%N; [| done]. intros _. apply N.mod_lt. lia. Qed.
Lemma prefixed_inj (p a b : pystr) : p ++ a = p ++ b → a = b.
Proof. apply app_inv_head. Qed.

(** C7: the identity of a client.  Every address the server reports has one
    canonical text, which reads back as that address; so two spellings share a
    counter exactly when they name the same address, an IPv4 address and its
    IPv6-mapped form being the same one.  What is not an address, or missing, shares
    one counter, which no address has. *)
Theorem client_identity_correct :
  (∀ s a, ip_address s = Some a → ip_address (compressed a) = Some a)
  ∧ (∀ s t a b, ip_address s = Some a → ip_address t = Some b →
       client_identity (Some s) = client_identity (Some t) ↔ unmapped a = unmapped b)
  ∧ (∀ n s t, ip_address s = Some (IPv4Address n) → (n < 2 ^ 32)%N → ip_address t = Some (IPv6Address (65535 * 2 ^ 32 + n) None) →
       client_identity (Some t) = client_identity (Some s))
  ∧ (∀ host, client_identity host = u "ip:unknown" ↔ match host with Some h => ip_address h = None | None => True end).
Proof.
  assert (Hread : ∀ s a, ip_address s = Some a → ip_address (compressed (unmapped a)) = Some (unmapped a))
    by (intros s a Ha; by eapply compressed_read, unmapped_ok, ip_address_ok).
  split; [| split; [| split]].
  - intros s a Ha. by eapply compressed_read, ip_address_ok.
  - intros s t a b Ha Hb. unfold client_identity. rewrite Ha, Hb. split; [| by intros ->]. intros Heq%prefixed_inj.
    apply Hread in Ha, Hb. rewrite Heq in Ha. congruence.
  - intros n s t Hs Hn Ht. unfold client_identity. rewrite Hs, Ht. cbn [unmapped]. rewrite N.div_add_l, N.div_small, N.add_0_r, N.eqb_refl by done.
    by rewrite N.add_comm, N.Div0.mod_add, N.mod_small.
  - intros [h |]; cbn [client_identity]; [| done]. destruct (ip_address h) as [a |] eqn:Ha; [| done]. split; [| done]. intros Heq%(prefixed_inj (u "ip:") _ (u "unknown")).
    apply Hread in Ha. rewrite Heq in Ha. vm_compute in Ha. discriminate Ha.
Qed.
