(* ===== verification/Redis.v ===== *)
(** * Redis: the Lua scripts of the sources over a Redis server

    Models [contexts/user/infrastructure/security/scripts/*.lua] and
    [infrastructure/rate_limit/scripts/acquire_window.lua].  The server is
    the class [RedisServer]: the primitive commands the scripts issue, with
    their documented behaviour in [RedisServerLaws] over the visible key
    space [rs_view].  A script runs atomically.  [RedisLink] says what a
    call through the Python driver may do to the server, with lost replies
    and connection failures. *)

From S2P Require Import Prelude Text Errors PyVal Decimal Cache.
Local Open Scope prog_scope.

Inductive redis_error := ErrorReply.
Abbreviation redis S := (prog S redis_error).

(** A Lua number: a finite one by its floor and whether it is integral. *)
Inductive lua_number := LNum (floor : Z) (integral : bool) | LInf (negative : bool) | LNaN.

(** A live key's value and the time in milliseconds it lives until. *)
Abbreviation keyspace := (gmap pystr (pybytes * option Z)).

Class RedisServer (S : Type) := {
  rs_get : pystr → redis S (option pybytes);
  rs_incr : pystr → redis S Z;
  rs_expire : pystr → pybytes → redis S Z;
  rs_ttl : pystr → redis S Z;
  rs_pttl : pystr → redis S Z;
  rs_set_px : pystr → pybytes → Z → redis S unit;
  rs_del : pystr → redis S Z;
  rs_elapse : Z → S → S;                    (* milliseconds pass *)
  rs_now : S → Z;
  lua_tonumber : pybytes → option lua_number;
  arg_text : pyval → pybytes;               (* how the driver sends an argument *)
  rs_view : S → keyspace;
}.

(** ** The scripts *)

Inductive script_reply := ReplyInt (z : Z) | ReplyList (l : list Z).

Definition bytes_text (b : pybytes) : pystr := map byte_N b.
Definition is_canonical (b : pybytes) : bool := canonical (bytes_text b).

(** [count < 1], [count >= limit] on Lua numbers. *)
Definition lua_below_one (n : lua_number) : bool :=
  match n with LNum f _ => (f <? 1)%Z | LInf negative => negative | LNaN => false end.
Definition lua_integral (n : lua_number) : bool :=
  match n with LNum _ integral => integral | LInf _ => true | LNaN => false end.
Definition lua_ge (a b : lua_number) : bool :=
  match a, b with
  | LNaN, _ | _, LNaN => false
  | LInf false, _ | _, LInf true => true
  | LInf true, _ | _, LInf false => false
  | LNum f _, LNum g integral => if integral then (g <=? f)%Z else (g <? f)%Z
  end.

Section Scripts.
Context {S : Type} `{RedisServer S}.

(** increment_with_ttl.lua *)
Definition increment_with_ttl (key : pystr) (window : pybytes) : redis S Z :=
  let* value := rs_incr key in
  when (value =? 1)%Z (let* _ := rs_expire key window in ret tt);;;
  ret value.

(** delete_below.lua *)
Definition int64_max : N := 9223372036854775807.
Definition delete_below (key : pystr) (threshold : pybytes) : redis S Z :=
  assert_or (is_canonical threshold) ErrorReply;;;
  let* raw := rs_get key in
  match raw with
  | None => ret 0%Z
  | Some raw =>
      let maximum := decimal int64_max in
      assert_or (is_canonical raw && negb (bool_decide (length maximum < length raw))
        && negb (bool_decide (length raw = length maximum) && text_ltb maximum (bytes_text raw))) ErrorReply;;;
      if shortlex_ltb (bytes_text raw) (bytes_text threshold) then rs_del key else ret 0%Z
  end.

(** acquire_window.lua: [SET … PX] with a number that is not an integer,
    and a comparison with [nil], are errors. *)
Definition acquire_window (key : pystr) (limit_arg window_arg : pybytes) : redis S (list Z) :=
  let limit := lua_tonumber limit_arg in
  let window_ms := lua_tonumber window_arg in
  let* raw := rs_get key in
  match raw with
  | None =>
      match window_ms with
      | Some (LNum ms true) => rs_set_px key (dec_bytes 1) ms;;; ret [1; 0]%Z
      | _ => raise ErrorReply
      end
  | Some raw =>
      let count := lua_tonumber raw in
      let* ttl := rs_pttl key in
      match count with
      | None => raise ErrorReply
      | Some count =>
          if lua_below_one count || negb (lua_integral count) || (ttl <? 0)%Z then raise ErrorReply
          else match limit with
               | None => raise ErrorReply
               | Some limit =>
                   if lua_ge count limit then ret [0; ttl]%Z
                   else let* _ := rs_incr key in ret [1; 0]%Z
               end
      end
  end.

Definition run_script (script : lua_script) (keys : list pystr) (args : list pybytes) : redis S script_reply :=
  match script, keys, args with
  | IncrementWithTtl, key :: _, window :: _ => let* n := increment_with_ttl key window in ret (ReplyInt n)
  | DeleteBelow, key :: _, threshold :: _ => let* n := delete_below key threshold in ret (ReplyInt n)
  | AcquireWindow, key :: _, limit :: window :: _ => let* l := acquire_window key limit window in ret (ReplyList l)
  | _, _, _ => raise ErrorReply
  end.
End Scripts.

(** ** Documented behaviour of the commands *)

(** Time-outs the server accepts (far more than any setting allows). *)
Definition max_expire : N := 10 ^ 12.
Definition alive (now : Z) (e : pybytes * option Z) : option (pybytes * option Z) :=
  match e.2 with Some deadline => if (deadline <? now)%Z then None else Some e | None => Some e end.

(** [commanded m s Q]: the command takes no time, and its result and the
    key space after it satisfy [Q]. *)
Definition commanded {S A} `{RedisServer S} (m : redis S A) (s : S)
    (Q : result redis_error A → keyspace → Prop) : Prop :=
  wp m (λ r s', Q r (rs_view s') ∧ rs_now s' = rs_now s) s.

Class RedisServerLaws (S : Type) `{RedisServer S} : Prop := {
  rs_live s k b t : rs_view s !! k = Some (b, Some t) → (rs_now s ≤ t)%Z;
  rs_get_law k s : commanded (rs_get k) s (λ r v, r = Ok (fst <$> rs_view s !! k) ∧ v = rs_view s);
  rs_incr_new k s : rs_view s !! k = None →
    commanded (rs_incr k) s (λ r v, r = Ok 1%Z ∧ v = <[k := (dec_bytes 1, None)]> (rs_view s));
  rs_incr_next k s n t : rs_view s !! k = Some (dec_bytes n, t) → (0 < n < int64_max)%N →
    commanded (rs_incr k) s (λ r v, r = Ok (Z.of_N n + 1)%Z ∧ v = <[k := (dec_bytes (n + 1), t)]> (rs_view s));
  rs_incr_limit k s t : rs_view s !! k = Some (dec_bytes int64_max, t) →
    commanded (rs_incr k) s (λ r v, r = Err ErrorReply ∧ v = rs_view s);
  rs_incr_time k s : rs_now (rs_incr k s).1 = rs_now s;
  rs_expire_law k s n : (0 < n ≤ max_expire)%N →
    commanded (rs_expire k (dec_bytes n)) s (λ r v,
      match rs_view s !! k with
      | None => r = Ok 0%Z ∧ v = rs_view s
      | Some (b, _) => r = Ok 1%Z ∧ v = <[k := (b, Some (rs_now s + Z.of_N n * 1000)%Z)]> (rs_view s)
      end);
  rs_ttl_law k s : commanded (rs_ttl k) s (λ r v, v = rs_view s ∧
      match rs_view s !! k with
      | None => r = Ok (-2)%Z
      | Some (_, None) => r = Ok (-1)%Z
      | Some (_, Some _) => ∃ t, r = Ok t ∧ (0 ≤ t)%Z
      end);
  rs_pttl_law k s : commanded (rs_pttl k) s (λ r v, v = rs_view s ∧
      r = Ok (match rs_view s !! k with
              | None => -2
              | Some (_, None) => -1
              | Some (_, Some t) => t - rs_now s
              end)%Z);
  rs_set_px_law k b ms s : (0 < ms ≤ Z.of_N max_expire)%Z →
    commanded (rs_set_px k b ms) s (λ r v, r = Ok tt ∧ v = <[k := (b, Some (rs_now s + ms)%Z)]> (rs_view s));
  rs_del_law k s : commanded (rs_del k) s (λ r v, v = delete k (rs_view s) ∧
      r = Ok (match rs_view s !! k with Some _ => 1 | None => 0 end)%Z);
  rs_elapse_law d s : (0 ≤ d)%Z →
    rs_now (rs_elapse d s) = (rs_now s + d)%Z ∧ rs_view (rs_elapse d s) = omap (alive (rs_now s + d)) (rs_view s);
  lua_tonumber_law n : (n ≤ 2 ^ 53)%N → lua_tonumber (dec_bytes n) = Some (LNum (Z.of_N n) true);
  arg_text_law z : (0 < z)%Z → arg_text (VInt z) = dec_bytes (Z.to_N z);
}.

(** ** Scripts on a counter in normal state *)

(** [counter s k n t]: the key holds the number [n] with [t] to live. *)
Definition counter {S} `{RedisServer S} (s : S) (k : pystr) (n : N) (t : option Z) : Prop :=
  rs_view s !! k = Some (dec_bytes n, t) ∧ (0 < n ≤ int64_max)%N.

Section ScriptLemmas.
Context {S : Type} `{RedisServerLaws S}.

Lemma is_canonical_dec n : (0 < n)%N → is_canonical (dec_bytes n) = true.
Proof. intros Hn. unfold is_canonical, bytes_text. rewrite dec_bytes_text. by apply decimal_canonical. Qed.

Lemma shortlex_dec a b : (0 < a)%N → (0 < b)%N →
  shortlex_ltb (bytes_text (dec_bytes a)) (bytes_text (dec_bytes b)) = (a <? b)%N.
Proof.
  intros Ha Hb. unfold bytes_text. rewrite !dec_bytes_text, shortlex_value by by apply decimal_canonical.
  by rewrite !decimal_value_of.
Qed.

(** The range check of delete_below.lua accepts every INCR result. *)
Lemma counter_state_ok n : (0 < n ≤ int64_max)%N →
  negb (bool_decide (length (decimal int64_max) < length (dec_bytes n)))
  && negb (bool_decide (length (dec_bytes n) = length (decimal int64_max))
           && text_ltb (decimal int64_max) (bytes_text (dec_bytes n))) = true.
Proof.
  intros Hn. pose proof (shortlex_dec int64_max n ltac:(done) ltac:(lia)) as Hs.
  rewrite (proj2 (N.ltb_ge int64_max n)) in Hs by lia. unfold shortlex_ltb in Hs.
  apply orb_false_iff in Hs as [Hl Hc]. unfold bytes_text in *. rewrite (dec_bytes_text int64_max) in Hl, Hc.
  rewrite length_map in Hl, Hc. rewrite Hl. simpl. apply negb_true_iff.
  rewrite (bool_decide_ext (length (dec_bytes n) = _) (length (decimal int64_max) = length (dec_bytes n))); done.
Qed.

Lemma commanded_bind {A B} (m : redis S A) (k : A → redis S B) (s : S) Q :
  commanded m s (λ r v, ∀ s', rs_view s' = v → rs_now s' = rs_now s →
    match r with Ok a => commanded (k a) s' Q | Err e => Q (Err e) v end) →
  commanded (bind m k) s Q.
Proof.
  unfold commanded. intros Hm. apply wp_bind. eapply wp_mono; [exact Hm |]. intros r s' [Hr Hnow].
  specialize (Hr s' eq_refl Hnow). destruct r; [| by split].
  eapply wp_mono; [exact Hr |]. intros r s2 [HQ ->]. by split.
Qed.

Lemma commanded_mono {A} (m : redis S A) (s : S) (P Q : result redis_error A → keyspace → Prop) :
  commanded m s P → (∀ r v, P r v → Q r v) → commanded m s Q.
Proof. intros Hm Himp. eapply wp_mono; [exact Hm |]. intros r s' [HP Hnow]. split; auto. Qed.

Lemma commanded_lift {A} (r : result redis_error A) (s : S) (Q : result redis_error A → keyspace → Prop) :
  Q r (rs_view s) → commanded (lift r) s Q.
Proof. by split. Qed.

(** A command that only takes no time. *)
Lemma commanded_time {A} (m : redis S A) (s : S) :
  rs_now (m s).1 = rs_now s ↔ commanded m s (λ _ _, True).
Proof. unfold commanded, wp. destruct (m s). simpl. naive_solver. Qed.

Lemma commanded_fst {A} (m : redis S A) (s : S) Q :
  commanded m s Q → ∃ r, Q r (rs_view (m s).1) ∧ rs_now (m s).1 = rs_now s.
Proof. unfold commanded, wp. destruct (m s) as [s' r]. simpl. eauto. Qed.

(** Step over the first command by its law. *)
Ltac command law :=
  apply commanded_bind; eapply commanded_mono; [by apply law |]; cbn beta.

Lemma increment_new k s w : rs_view s !! k = None → (0 < w ≤ max_expire)%N →
  commanded (increment_with_ttl k (dec_bytes w)) s (λ r v, r = Ok 1%Z ∧
    v = <[k := (dec_bytes 1, Some (rs_now s + Z.of_N w * 1000)%Z)]> (rs_view s)).
Proof.
  intros Hk Hw. command rs_incr_new. intros r v [-> ->] s1 Hv1 Hn1. cbn [when Z.eqb Pos.eqb].
  apply commanded_bind. command rs_expire_law. intros r v. rewrite Hv1, lookup_insert_eq.
  intros [-> ->] s2 Hv2 Hn2. apply (commanded_lift (Ok tt)). intros s3 Hv3 Hn3. apply (commanded_lift (Ok 1%Z)).
  split; [done |]. by rewrite Hv3, Hv2, insert_insert_eq, Hn1.
Qed.

Lemma increment_next k s w n t : rs_view s !! k = Some (dec_bytes n, t) → (0 < n < int64_max)%N →
  commanded (increment_with_ttl k w) s (λ r v, r = Ok (Z.of_N n + 1)%Z ∧
    v = <[k := (dec_bytes (n + 1), t)]> (rs_view s)).
Proof.
  intros Hk Hn. apply commanded_bind. eapply commanded_mono; [by eapply rs_incr_next |].
  intros r v [-> ->] s1 Hv1 _. rewrite (proj2 (Z.eqb_neq _ _)) by lia.
  split; [by rewrite Hv1 | done].
Qed.

Lemma increment_limit k s w t : rs_view s !! k = Some (dec_bytes int64_max, t) →
  commanded (increment_with_ttl k w) s (λ r v, r = Err ErrorReply ∧ v = rs_view s).
Proof.
  intros Hk. apply commanded_bind. eapply commanded_mono; [by eapply rs_incr_limit |]. by intros r v [-> ->].
Qed.

Lemma increment_time k s w : (0 < w ≤ max_expire)%N → rs_now (increment_with_ttl k (dec_bytes w) s).1 = rs_now s.
Proof.
  intros Hw. apply commanded_time, commanded_bind. eapply commanded_mono; [apply commanded_time, rs_incr_time |].
  intros [z |] v _ s1 Hv1 Hn1; [| done]. apply commanded_bind. unfold when.
  case_bool; [| by apply (commanded_lift (Ok tt))]. apply commanded_bind.
  eapply commanded_mono; [by apply rs_expire_law |]. intros [? |] ? _ s2 _ _; [| done].
  apply (commanded_lift (Ok tt)). intros. by apply (commanded_lift (Ok z)).
Qed.

Lemma delete_below_time k s m : rs_now (delete_below k m s).1 = rs_now s.
Proof.
  apply commanded_time. unfold delete_below. apply commanded_bind, commanded_lift.
  intros s0 _ _. destruct (guard _ _); [| done]. command rs_get_law. intros r v [-> _] s1 _ _.
  destruct (_ <$> _) as [raw |]; [| by apply (commanded_lift (Ok 0%Z))].
  apply commanded_bind, commanded_lift. intros s2 _ _. destruct (guard _ _); [| done].
  case_bool; [| by apply (commanded_lift (Ok 0%Z))]. eapply commanded_mono; [apply rs_del_law |]. done.
Qed.

(** The comparison on strings deletes exactly the counters below [m]. *)
Lemma delete_below_counter k s n t m : counter s k n t → (0 < m)%N →
  commanded (delete_below k (dec_bytes m)) s (λ r v,
    r = Ok (if (n <? m)%N then 1 else 0)%Z ∧ v = if (n <? m)%N then delete k (rs_view s) else rs_view s).
Proof.
  intros [Hk Hn] Hm. unfold delete_below. rewrite is_canonical_dec by done. apply commanded_bind, commanded_lift.
  intros s0 Hv0 Hn0. command rs_get_law. intros r v [-> ->] s1 Hv1 Hn1.
  rewrite Hv0, Hk. cbn [fmap option_fmap option_map fst].
  rewrite is_canonical_dec, shortlex_dec by lia. apply commanded_bind, commanded_lift.
  rewrite andb_true_l, counter_state_ok by done. intros s2 Hv2 Hn2.
  destruct (n <? m)%N; [| by split; [rewrite Hv2, Hv1, Hv0 |]].
  eapply commanded_mono; [apply rs_del_law |]. intros r v. rewrite Hv2, Hv1, Hv0, Hk. naive_solver.
Qed.

Lemma delete_below_absent k s m : rs_view s !! k = None → (0 < m)%N →
  commanded (delete_below k (dec_bytes m)) s (λ r v, r = Ok 0%Z ∧ v = rs_view s).
Proof.
  intros Hk Hm. unfold delete_below. rewrite is_canonical_dec by done. apply commanded_bind, commanded_lift.
  intros s0 Hv0 Hn0. command rs_get_law. intros r v [-> ->] s1 Hv1 Hn1. rewrite Hv0, Hk.
  split; [by rewrite Hv1, Hv0 | done].
Qed.

(** acquire_window.lua on an absent key and on a counter. *)
Lemma acquire_window_new k s limit w : rs_view s !! k = None → (0 < w ≤ 10 ^ 9)%N →
  commanded (acquire_window k (dec_bytes limit) (dec_bytes w)) s (λ r v, r = Ok [1; 0]%Z ∧
    v = <[k := (dec_bytes 1, Some (rs_now s + Z.of_N w)%Z)]> (rs_view s)).
Proof.
  intros Hk Hw. unfold acquire_window. command rs_get_law. intros r v [-> ->] s1 Hv1 Hn1. rewrite Hk.
  cbn [fmap option_fmap option_map]. rewrite (lua_tonumber_law w) by lia.
  apply commanded_bind. eapply commanded_mono; [apply rs_set_px_law; unfold max_expire; lia |].
  intros r v [-> ->] s2 Hv2 Hn2. split; [split; [done |] | done]. by rewrite Hv2, Hv1, Hn1.
Qed.

Lemma acquire_window_next k s limit w n t :
  rs_view s !! k = Some (dec_bytes n, Some t) → (0 < n ≤ 10 ^ 9)%N → (0 < limit ≤ 10 ^ 9)%N →
  commanded (acquire_window k (dec_bytes limit) w) s (λ r v,
    if (n <? limit)%N then r = Ok [1; 0]%Z ∧ v = <[k := (dec_bytes (n + 1), Some t)]> (rs_view s)
    else r = Ok [0; t - rs_now s]%Z ∧ v = rs_view s).
Proof.
  intros Hk Hn Hl. unfold acquire_window. command rs_get_law. intros r v [-> ->] s1 Hv1 Hn1. rewrite Hk.
  cbn [fmap option_fmap option_map fst]. command rs_pttl_law. intros r v. rewrite Hv1, Hk, Hn1.
  intros [-> ->] s2 Hv2 Hn2. rewrite !lua_tonumber_law by lia. cbn [lua_below_one lua_integral lua_ge negb orb].
  pose proof (rs_live s k _ _ Hk). rewrite (proj2 (Z.ltb_ge (Z.of_N n) 1)), (proj2 (Z.ltb_ge (t - _) 0)) by lia.
  cbn [orb]. destruct (n <? limit)%N eqn:Hnl; to_prop.
  - rewrite (proj2 (Z.leb_gt _ _)) by lia. apply commanded_bind.
    eapply commanded_mono; [eapply rs_incr_next; [by rewrite Hv2, Hk | unfold int64_max; lia] |].
    intros r v [-> ->] s3 Hv3 _. split; [split; [done | by rewrite Hv3, Hv2] | done].
  - rewrite (proj2 (Z.leb_le _ _)) by lia. split; [by split | done].
Qed.
End ScriptLemmas.

(** ** A server in memory, for the witnesses *)

Record mem_redis := mk_mem_redis { mr_stored : keyspace; mr_now : Z }.
Definition mr_view (s : mem_redis) : keyspace := omap (alive (mr_now s)) (mr_stored s).
Definition mr_put (k : pystr) (e : pybytes * option Z) (s : mem_redis) : mem_redis :=
  mk_mem_redis (<[k := e]> (mr_stored s)) (mr_now s).
Definition mr_number (b : pybytes) : option N :=
  if bytes_isdigit b then Some (digits_value (bytes_text b)) else None.

#[global] Arguments mr_view : simpl never.
#[global] Arguments mr_number : simpl never.
#[global] Arguments mr_put : simpl never.

#[export] Instance mem_redis_server : RedisServer mem_redis := {
  rs_get k s := (s, Ok (fst <$> mr_view s !! k));
  rs_incr k s :=
    match mr_view s !! k with
    | None => (mr_put k (dec_bytes 1, None) s, Ok 1%Z)
    | Some (b, t) =>
        match mr_number b with
        | Some n => if (n <? int64_max)%N then (mr_put k (dec_bytes (n + 1), t) s, Ok (Z.of_N n + 1)%Z)
                    else (s, Err ErrorReply)
        | None => (s, Err ErrorReply)
        end
    end;
  rs_expire k text s :=
    match mr_view s !! k, mr_number text with
    | Some (b, _), Some n => (mr_put k (b, Some (mr_now s + Z.of_N n * 1000)%Z) s, Ok 1%Z)
    | None, _ => (s, Ok 0%Z)
    | _, None => (s, Err ErrorReply)
    end;
  rs_ttl k s := (s, Ok match mr_view s !! k with
    | None => -2 | Some (_, None) => -1 | Some (_, Some t) => (t - mr_now s + 500) / 1000 end%Z);
  rs_pttl k s := (s, Ok match mr_view s !! k with
    | None => -2 | Some (_, None) => -1 | Some (_, Some t) => t - mr_now s end%Z);
  rs_set_px k b ms s := (mr_put k (b, Some (mr_now s + ms)%Z) s, Ok tt);
  rs_del k s := (mk_mem_redis (delete k (mr_stored s)) (mr_now s),
    Ok (match mr_view s !! k with Some _ => 1 | None => 0 end)%Z);
  rs_elapse d s := mk_mem_redis (mr_stored s) (mr_now s + d)%Z;
  rs_now := mr_now;
  lua_tonumber b := (λ n, LNum (Z.of_N n) true) <$> mr_number b;
  arg_text v := match v with VInt z => dec_bytes (Z.to_N z) | VBytes b => b | _ => [] end;
  rs_view := mr_view;
}.

Lemma mr_view_put k e s : alive (mr_now s) e = Some e → mr_view (mr_put k e s) = <[k := e]> (mr_view s).
Proof. intros He. unfold mr_view, mr_put. cbn [mr_stored mr_now]. by rewrite (omap_insert_Some _ _ _ _ e). Qed.

Lemma mr_view_alive k e s : mr_view s !! k = Some e → alive (mr_now s) e = Some e.
Proof.
  unfold mr_view. rewrite lookup_omap_Some. intros (e' & Ha & _). unfold alive in *. repeat case_match; simplify_eq/=; congruence.
Qed.

Lemma mr_number_dec n : mr_number (dec_bytes n) = Some n.
Proof.
  unfold mr_number, bytes_text. rewrite dec_bytes_text, decimal_value_of.
  destruct (decide (n = 0)%N) as [-> | Hn]; [done |]. by rewrite (proj1 (dec_bytes_int n ltac:(lia))).
Qed.

Lemma alive_later now d e : (0 ≤ d)%Z → alive now e ≫= alive (now + d) = alive (now + d) e.
Proof.
  intros Hd. unfold alive. destruct (e.2) as [t |] eqn:He; simpl; [| by rewrite He].
  destruct (t <? now)%Z eqn:Ht; simpl; [| by rewrite He]. to_prop. by rewrite (proj2 (Z.ltb_lt _ _)) by lia.
Qed.

#[export] Instance mem_redis_laws : RedisServerLaws mem_redis.
Proof.
  split.
  - intros s k b t Hk%mr_view_alive. unfold alive in Hk. cbn [snd] in Hk. case_match eqn:Ht; [done |]. by to_prop.
  - done.
  - intros k s Hk. unfold commanded, wp. cbn. cbn in Hk. rewrite Hk. by rewrite mr_view_put.
  - intros k s n t Hk Hn. unfold commanded, wp. cbn. cbn in Hk. rewrite Hk, mr_number_dec, (proj2 (N.ltb_lt _ _)) by lia.
    rewrite mr_view_put; [done |]. apply mr_view_alive in Hk. revert Hk. unfold alive. simpl. by repeat case_match.
  - intros k s t Hk. unfold commanded, wp. cbn. cbn in Hk. by rewrite Hk, mr_number_dec.
  - intros k s. cbn. by repeat case_match.
  - intros k s n Hn. unfold commanded, wp. cbn. destruct (mr_view s !! k) as [[b t] |] eqn:Hk; [| done].
    rewrite mr_number_dec. rewrite mr_view_put; [done |]. unfold alive. simpl.
    rewrite (proj2 (Z.ltb_ge _ _)); [done | lia].
  - intros k s. unfold commanded, wp. cbn. destruct (mr_view s !! k) as [[b [t |]] |] eqn:Hk; try done.
    split; [| done]. split; [done |]. eexists. split; [done |]. apply mr_view_alive in Hk. unfold alive in Hk.
    cbn [snd] in Hk. case_match eqn:Ht; [done |]. to_prop. apply Z.div_pos; lia.
  - intros k s. unfold commanded, wp. cbn. by repeat case_match.
  - intros k b ms s Hms. unfold commanded, wp. cbn. rewrite mr_view_put; [done |]. unfold alive. simpl.
    rewrite (proj2 (Z.ltb_ge _ _)); [done | lia].
  - intros k s. unfold commanded, wp. cbn. split; [| done]. split; [| done]. unfold mr_view. simpl. by rewrite omap_delete.
  - intros d s Hd. split; [done |]. unfold rs_view, rs_elapse, mem_redis_server, mr_view. simpl.
    apply map_eq. intros k. rewrite !lookup_omap. destruct (mr_stored s !! k); simpl; [by rewrite alive_later | done].
  - intros n _. cbn. by rewrite mr_number_dec.
  - done.
Qed.
