(* ===== verification/LoginLimiter.v ===== *)
(** * LoginLimiter: the Redis login-failure limiter

    Models [contexts/user/infrastructure/security/redis_login_attempts.py]
    over the managed Redis client.  The theorems hold for any number of
    clients: [RedisLink] lets every other client act on the key between two
    commands of this one ([limiter_steps]), loses replies and fails calls. *)

From S2P Require Import Prelude Text Errors PyVal UserContracts Decimal Cache Redis.
Local Open Scope prog_scope.

(** The managed client a factory returns: its keys and default expiry. *)
Record redis_client := mk_redis_client { rc_keys : CacheKeyBuilder; rc_default_ttl : option Z }.

Section LoginLimiter.
Context {W : Type} {T : UnicodeTables} {RD : RedisDriver W}.
Context (sha256_hex : pystr → result exn pystr) (client_factory : io W redis_client).
Context (max_failures failure_window_seconds lock_seconds : Z).

Definition RedisLoginAttemptLimiter_new : result exn unit :=
  guard (forallb (λ v, 0 <? v)%Z [max_failures; failure_window_seconds; lock_seconds]) ValueError.

Definition limiter_key (identity : pystr) : result exn pystr :=
  let? digest := sha256_hex (py_lower (py_strip identity)) in
  Ok (u "auth:login:" ++ digest ++ u ":failures").

(** [int(value)] refuses more than 4300 digits. *)
Definition int_max_str_digits : nat := 4300.
Definition decode_count (value : pybytes) : result exn Z :=
  let? _ := guard (bytes_isdigit value) CacheOperationError in
  let? _ := guard (bool_decide (length value ≤ int_max_str_digits)) ValueError in
  let count := bytes_int value in
  let? _ := guard (0 <? count)%Z CacheOperationError in
  Ok count.

Definition retry_after (identity : pystr) : io W (option Z) :=
  let* client := client_factory in
  let* key := lift (limiter_key identity) in
  let* raw_count := client_get (rc_keys client) key in
  match raw_count with
  | None => ret None
  | Some raw_count =>
      let* count := lift (decode_count raw_count) in
      if (count <? max_failures)%Z then ret None
      else
        let* ttl := redis_ttl (rc_keys client) key in
        if (ttl =? -2)%Z then ret None
        else if (ttl =? -1)%Z then raise CacheOperationError
        else ret (Some (Z.max 1 ttl))
  end.

Definition record_failure (identity : pystr) : io W LoginFailureStatus :=
  let* client := client_factory in
  let* key := lift (limiter_key identity) in
  let* count := redis_execute_script (rc_keys client) IncrementWithTtl [key] [VInt failure_window_seconds] in
  match is_int count with
  | Some count =>
      if (count <=? 0)%Z then raise CacheOperationError
      else if (count <? max_failures)%Z
      then lift (LoginFailureStatus_new (mk_failure_status (max_failures - count) None))
      else
        let* updated := redis_expire (rc_keys client) (rc_default_ttl client) key (TTL (VInt lock_seconds)) in
        if (updated : bool)
        then lift (LoginFailureStatus_new (mk_failure_status 0 (Some lock_seconds)))
        else raise CacheOperationError
  | None => raise CacheOperationError
  end.

Definition clear (identity : pystr) : io W unit :=
  let* client := client_factory in
  let* key := lift (limiter_key identity) in
  let* r := redis_execute_script (rc_keys client) DeleteBelow [key] [VInt max_failures] in
  match is_int r with
  | Some z => if (z =? 0)%Z || (z =? 1)%Z then ret tt else raise CacheOperationError
  | None => raise CacheOperationError
  end.

Definition redis_login_limiter : LoginAttemptLimiter W := {|
  la_retry_after := retry_after; la_record_failure := record_failure; la_clear := clear;
|}.
End LoginLimiter.

(** ** The driver in front of a server *)

(** What a call that issues the command [m] may do, when others act by [R]:
    a reply comes from an execution; an exception may hide one. *)
Definition called {S A} (R : relation S) (m : redis S A) (to_py : A → pyval)
    (s : S) (r : result exn pyval) (s' : S) : Prop :=
  match r with
  | Ok v => ∃ s1 s2 a, R s s1 ∧ m s1 = (s2, Ok a) ∧ v = to_py a ∧ R s2 s'
  | Err _ => ∃ s1, R s s1 ∧ (s1 = s' ∨ R (m s1).1 s')
  end.

Definition reply_value (r : script_reply) : pyval :=
  match r with ReplyInt z => VInt z | ReplyList l => VList (map VInt l) end.
Definition bulk_value (o : option pybytes) : pyval :=
  match o with Some b => VBytes b | None => VNone end.

Class RedisLink (W S : Type) `{RedisDriver W, RedisServer S} (R : relation S) := {
  srv : W → S;
  link_get k w : wp (rd_get k) (λ r w', called R (rs_get k) bulk_value (srv w) r (srv w')) w;
  link_ttl k w : wp (rd_ttl k) (λ r w', called R (rs_ttl k) VInt (srv w) r (srv w')) w;
  link_expire k n w : (0 < n)%Z →
    wp (rd_expire k n) (λ r w', called R (rs_expire k (dec_bytes (Z.to_N n))) (λ z, VBool (z =? 1)%Z) (srv w) r (srv w')) w;
  link_eval script keys args w :
    wp (rd_eval script keys args) (λ r w',
      called R (run_script script keys (map arg_text args)) reply_value (srv w) r (srv w')) w;
}.

(** ** What the clients of one limiter do to its key *)

Section LimiterSteps.
Context {S : Type} `{RedisServerLaws S} (k : pystr) (max window lock : N).

Inductive limiter_step : S → S → Prop :=
| ls_increment s : limiter_step s (increment_with_ttl k (dec_bytes window) s).1
| ls_lock s : limiter_step s (rs_expire k (dec_bytes lock) s).1
| ls_clear s : limiter_step s (delete_below k (dec_bytes max) s).1
| ls_elapse d s : (0 ≤ d)%Z → limiter_step s (rs_elapse d s)
| ls_other s s' : rs_view s' !! k = rs_view s !! k → rs_now s' = rs_now s → limiter_step s s'.
Definition limiter_steps : relation S := rtc limiter_step.

(** Until time [D] the key holds a count that locks the login. *)
Definition locked_until (D : Z) (s : S) : Prop :=
  (D ≤ rs_now s + Z.of_N lock * 1000)%Z ∧
  ((rs_now s ≤ D)%Z → ∃ n t, counter s k n (Some t) ∧ (max ≤ n)%N ∧ (D ≤ t)%Z).

Lemma locked_keep D s s' n t :
  locked_until D s → rs_now s' = rs_now s → (max ≤ n ≤ int64_max)%N → (0 < n)%N → (D ≤ t)%Z →
  rs_view s' !! k = Some (dec_bytes n, Some t) → locked_until D s'.
Proof.
  intros [HD _] Hnow Hn Hp Ht Hk. split; [by rewrite Hnow |]. intros _. exists n, t.
  split_and!; [| lia | done]. split; [done | lia].
Qed.

Lemma locked_expired D s s' : locked_until D s → rs_now s' = rs_now s → ¬ (rs_now s ≤ D)%Z → locked_until D s'.
Proof. intros [HD _] Hnow Hlate. split; rewrite Hnow; [done | intros; exfalso; lia]. Qed.

Hypothesis Hmax : (0 < max)%N.
Hypothesis Hlock : (0 < lock ≤ max_expire)%N.
Hypothesis Hwindow : (0 < window ≤ max_expire)%N.

Lemma locked_step D s s' : limiter_step s s' → locked_until D s → locked_until D s'.
Proof.
  intros Hstep HL. destruct (decide (rs_now s ≤ D)%Z) as [Hin | Hlate].
  2: { destruct Hstep as [s | s | s | d s Hd | s s' Hv Hn].
    - apply (locked_expired D s); [done | by apply increment_time | done].
    - destruct (commanded_fst _ _ _ (rs_expire_law k s lock Hlock)) as (r & _ & Hn). by apply (locked_expired D s).
    - apply (locked_expired D s); [done | by apply delete_below_time | done].
    - destruct (rs_elapse_law d s Hd) as [Hn _]. destruct HL as [HD _]. split; rewrite Hn; [lia | intros; exfalso; lia].
    - by apply (locked_expired D s). }
  destruct (proj2 HL Hin) as (n & t & [Hk Hn] & Hm & HD). destruct Hstep as [s | s | s | d s Hd | s s' Hv Hnow].
  - destruct (decide (n = int64_max)) as [-> | Hne].
    + destruct (commanded_fst _ _ _ (increment_limit k s (dec_bytes window) _ Hk)) as (r & [_ Hv] & Hnow).
      apply (locked_keep D s _ int64_max t); [done | done | lia | lia | lia | by rewrite Hv].
    + destruct (commanded_fst _ _ _ (increment_next k s (dec_bytes window) n _ Hk ltac:(lia))) as (r & [_ Hv] & Hnow).
      apply (locked_keep D s _ (n + 1) t); [done | done | lia | lia | lia | by rewrite Hv, lookup_insert_eq].
  - destruct (commanded_fst _ _ _ (rs_expire_law k s lock Hlock)) as (r & Hv & Hnow). rewrite Hk in Hv.
    destruct Hv as [_ Hv]. pose proof HL as [HD' _].
    apply (locked_keep D s _ n (rs_now s + Z.of_N lock * 1000)); [done | by rewrite ?Hnow | lia | lia | lia |].
    by rewrite Hv, lookup_insert_eq.
  - destruct (commanded_fst _ _ _ (delete_below_counter k s n _ max (conj Hk Hn) Hmax)) as (r & [_ Hv] & Hnow).
    rewrite (proj2 (N.ltb_ge n max)) in Hv by done. apply (locked_keep D s _ n t); [done | done | lia | lia | lia | by rewrite Hv].
  - destruct (rs_elapse_law d s Hd) as [Hnow Hv]. destruct HL as [HD' _]. split; rewrite Hnow; [lia |].
    intros Hin'. exists n, t. split_and!; [split; [| done] | done | done]. rewrite Hv, lookup_omap, Hk. simpl.
    unfold alive. simpl. by rewrite (proj2 (Z.ltb_ge _ _)) by lia.
  - apply (locked_keep D s _ n t); [done | done | lia | lia | lia | by rewrite Hv].
Qed.

Lemma locked_steps D s s' : limiter_steps s s' → locked_until D s → locked_until D s'.
Proof. induction 1; eauto using locked_step. Qed.

Lemma step_time s s' : limiter_step s s' → (rs_now s ≤ rs_now s')%Z.
Proof.
  intros [s1 | s1 | s1 | d s1 Hd | s1 s2 Hv Hn].
  - by rewrite increment_time.
  - destruct (commanded_fst _ _ _ (rs_expire_law k s1 lock Hlock)) as (r & _ & ->). done.
  - by rewrite delete_below_time.
  - destruct (rs_elapse_law d s1 Hd) as [-> _]. lia.
  - lia.
Qed.

Lemma steps_time s s' : limiter_steps s s' → (rs_now s ≤ rs_now s')%Z.
Proof. induction 1 as [| a b c Hab]; [lia |]. apply step_time in Hab. lia. Qed.

Lemma other_step s s' : rs_view s' = rs_view s → rs_now s' = rs_now s → limiter_steps s s'.
Proof. intros Hv Hn. apply rtc_once, ls_other; [by rewrite Hv | done]. Qed.

Lemma get_steps s : limiter_steps s (rs_get k s).1.
Proof. destruct (commanded_fst _ _ _ (rs_get_law k s)) as (r & [_ Hv] & Hn). by apply other_step. Qed.

Lemma ttl_steps s : limiter_steps s (rs_ttl k s).1.
Proof. destruct (commanded_fst _ _ _ (rs_ttl_law k s)) as (r & [Hv _] & Hn). by apply other_step. Qed.
End LimiterSteps.

(** ** The calls of the limiter through the link *)

(** [replied R m s r s']: the call returned what one execution of [m]
    answered, or raised. *)
Definition replied {S A} (R : relation S) (m : redis S A) (s : S) (r : result exn A) (s' : S) : Prop :=
  match r with
  | Ok a => ∃ s1 s2, R s s1 ∧ m s1 = (s2, Ok a) ∧ R s2 s'
  | Err _ => R s s'
  end.

Section Calls.
Context {W S : Type} {RD : RedisDriver W} {RS : RedisServer S} (R : relation S) {L : RedisLink W S R}.
Hypothesis R_pre : PreOrder R.

Lemma replied_R {A} (m : redis S A) s r s' : (∀ s, R s (m s).1) → replied R m s r s' → R s s'.
Proof.
  intros Hm. destruct r as [a | e]; [| done]. intros (s1 & s2 & H1 & H2 & H3). specialize (Hm s1).
  rewrite H2 in Hm. simpl in Hm. by rewrite H1, Hm.
Qed.

(** One driver call, its exceptions wrapped, and a decoding of its reply. *)
Lemma call_replied {A} (call : io W pyval) (m : redis S A) to_py (decode : pyval → result exn A) w :
  (∀ s, R s (m s).1) → (∀ a a', decode (to_py a) = Ok a' → a' = a) →
  wp call (λ r w', called R m to_py (srv w) r (srv w')) w →
  wp (let* v := cache_operation call in lift (decode v)) (λ r w', replied R m (srv w) r (srv w')) w.
Proof.
  intros Hm Hd Hc. apply wp_bind, wp_catch. eapply wp_mono; [exact Hc |]. intros [v | e] w' H; simpl in *.
  - destruct H as (s1 & s2 & a & H1 & H2 & -> & H3). unfold wp, lift. destruct (decode (to_py a)) as [a' | e] eqn:He.
    + apply Hd in He as ->. exists s1, s2. eauto.
    + specialize (Hm s1). rewrite H2 in Hm. simpl in *. by rewrite H1, Hm.
  - assert (R (srv w) (srv w')) by (destruct H as (s1 & H1 & [-> | H2]); [done | by rewrite H1, (Hm s1)]).
    by destruct (is_exception e).
Qed.

Lemma wp_prog_eq {A} (m1 m2 : io W A) Φ (w : W) : prog_eq m1 m2 → wp m2 Φ w → wp m1 Φ w.
Proof. intros Heq. unfold wp. by rewrite (Heq w). Qed.

Context (kb : CacheKeyBuilder) (key k : pystr) (Hkey : cache_key kb key = Ok k).

Lemma client_get_replied w : (∀ s, R s (rs_get k s).1) →
  wp (client_get kb key) (λ r w', replied R (rs_get k) (srv w) r (srv w')) w.
Proof.
  intros HR. eapply wp_prog_eq, (call_replied (rd_get k) (rs_get k) bulk_value
    (λ v, match v with VNone => Ok None | VBytes b => Ok (Some b) | _ => Err CacheOperationError end));
    [| done | by intros [b |] a' [= <-] | apply link_get].
  unfold client_get. rewrite Hkey. intros w0. simpl. unfold kv_get, redis_storage, string_get, bind, lift.
  by destruct (cache_operation (rd_get k) w0) as [w1 [[] |]].
Qed.

Lemma redis_ttl_replied w : (∀ s, R s (rs_ttl k s).1) →
  wp (redis_ttl kb key) (λ r w', replied R (rs_ttl k) (srv w) r (srv w')) w.
Proof.
  intros HR. eapply wp_prog_eq, (call_replied (rd_ttl k) (rs_ttl k) VInt
    (λ v, match is_int v with Some z => if (z <? -2)%Z then Err CacheOperationError else Ok z
          | None => Err CacheOperationError end));
    [| done | | apply link_ttl].
  - unfold redis_ttl. rewrite Hkey. intros w0. simpl. unfold key_ttl, bind, lift.
    destruct (cache_operation (rd_ttl k) w0) as [w1 [v |]]; [| done]. destruct (is_int v); [| done]. by case_bool.
  - intros a a'. simpl. case_bool; naive_solver.
Qed.

Lemma redis_expire_replied default_ttl n w : (0 < n)%Z → (∀ s, R s (rs_expire k (dec_bytes (Z.to_N n)) s).1) →
  wp (redis_expire kb default_ttl key (TTL (VInt n))) (λ r w',
    replied R (let* z := rs_expire k (dec_bytes (Z.to_N n)) in ret (z =? 1)%Z) (srv w) r (srv w')) w.
Proof.
  intros Hn HR. eapply wp_prog_eq, (call_replied (rd_expire k n) _ VBool (λ v, Ok (truth v)));
    [| | by intros a a' [= <-] |].
  - unfold redis_expire, resolve_ttl. simpl. rewrite (proj2 (Z.leb_gt n 0)) by done. intros w0.
    unfold bind at 1, lift. rewrite Hkey. unfold key_expire, cache_operation, catch, bind, lift, ret.
    destruct (rd_expire k n w0) as [w1 [v | e]]; [done |]. by destruct (is_exception e).
  - intros s. specialize (HR s). unfold bind, ret. by destruct (rs_expire _ _ s) as [s' []].
  - eapply wp_mono; [by apply link_expire |]. intros [v | e] w'; simpl.
    + intros (s1 & s2 & z & H1 & H2 & -> & H3). exists s1, s2, (z =? 1)%Z. unfold bind, ret. by rewrite H2.
    + intros (s1 & H1 & H2). exists s1. split; [done |]. unfold bind, ret.
      by destruct (rs_expire _ _ s1) as [s' []].
Qed.

Lemma execute_script_replied script args w :
  forallb is_script_arg args = true → (∀ s, R s (run_script script [k] (map arg_text args) s).1) →
  wp (redis_execute_script kb script [key] args) (λ r w',
    replied R (let* a := run_script script [k] (map arg_text args) in ret (reply_value a)) (srv w) r (srv w')) w.
Proof.
  intros Ha HR. eapply wp_prog_eq, (call_replied (rd_eval script [k] args) _ id Ok); [| | by intros a a' [= <-] |].
  - unfold redis_execute_script, assert_or. rewrite Ha. simpl. rewrite Hkey. intros w0. unfold bind, lift, guard.
    simpl. unfold script_execute. by destruct (cache_operation _ w0) as [w1 []].
  - intros s. specialize (HR s). unfold bind, ret. by destruct (run_script _ _ _ s) as [s' []].
  - eapply wp_mono; [apply link_eval |]. intros [v | e] w'; simpl.
    + intros (s1 & s2 & a & H1 & H2 & -> & H3). exists s1, s2, (reply_value a). unfold bind, ret. by rewrite H2.
    + intros (s1 & H1 & H2). exists s1. split; [done |]. unfold bind, ret.
      by destruct (run_script _ _ _ s1) as [s' []].
Qed.
End Calls.

(** ** Properties *)

Section LimiterTheorems.
Context {W S : Type} {T : UnicodeTables} {RD : RedisDriver W} {RS : RedisServer S} {RSL : RedisServerLaws S}.
Context (sha256_hex : pystr → result exn pystr) (client_factory : io W redis_client).
Context (kb : CacheKeyBuilder) (k : pystr) (max window lock : N).
Context {L : RedisLink W S (limiter_steps k max window lock)}.
Abbreviation R := (limiter_steps k max window lock).
Hypothesis Hmax : (0 < max)%N.
Hypothesis Hlock : (0 < lock ≤ max_expire)%N.
Hypothesis Hwindow : (0 < window ≤ max_expire)%N.
(** Getting the client leaves the server to the others. *)
Hypothesis factory_law : ∀ w, wp client_factory (λ r w',
  R (srv w) (srv w') ∧ ∀ c, r = Ok c → rc_keys c = kb) w.

Lemma increment_reply (s s' : S) v :
  (let* a := run_script IncrementWithTtl [k] (map arg_text [VInt (Z.of_N window)]) in ret (reply_value a)) s = (s', Ok v) →
  ∃ a, v = VInt a ∧ increment_with_ttl k (dec_bytes window) s = (s', Ok a).
Proof.
  cbn [map]. rewrite arg_text_law, N2Z.id by lia. simpl. unfold bind, ret.
  destruct (increment_with_ttl k (dec_bytes window) s) as [s1 [a | e]]; naive_solver.
Qed.

Lemma increment_R (s : S) : R s (run_script IncrementWithTtl [k] (map arg_text [VInt (Z.of_N window)]) s).1.
Proof.
  cbn [map]. rewrite arg_text_law, N2Z.id by lia. simpl. unfold bind, ret.
  etrans; [apply rtc_once, ls_increment |]. by destruct (increment_with_ttl k (dec_bytes window) s) as [s1 [a | e]].
Qed.

Lemma clear_reply (s s' : S) v :
  (let* a := run_script DeleteBelow [k] (map arg_text [VInt (Z.of_N max)]) in ret (reply_value a)) s = (s', Ok v) →
  ∃ a, v = VInt a ∧ delete_below k (dec_bytes max) s = (s', Ok a).
Proof.
  cbn [map]. rewrite arg_text_law, N2Z.id by lia. simpl. unfold bind, ret.
  destruct (delete_below k (dec_bytes max) s) as [s1 [a | e]]; naive_solver.
Qed.

Lemma clear_R (s : S) : R s (run_script DeleteBelow [k] (map arg_text [VInt (Z.of_N max)]) s).1.
Proof.
  cbn [map]. rewrite arg_text_law, N2Z.id by lia. simpl. unfold bind, ret.
  etrans; [apply rtc_once, ls_clear |]. by destruct (delete_below k (dec_bytes max) s) as [s1 [a | e]].
Qed.

Lemma lock_R (s : S) : R s (rs_expire k (dec_bytes (Z.to_N (Z.of_N lock))) s).1.
Proof. rewrite N2Z.id. apply rtc_once, ls_lock. Qed.

(** An EXPIRE that found a locking count locks until its deadline. *)
Lemma expire_locks (s s' : S) n t : rs_expire k (dec_bytes lock) s = (s', Ok 1%Z) →
  counter s k n t → (max ≤ n)%N → locked_until k max lock (rs_now s + Z.of_N lock * 1000) s'.
Proof.
  intros Hrun [Hk Hn] Hm. destruct (commanded_fst _ _ _ (rs_expire_law k s lock Hlock)) as (r & Hv & Hnow).
  rewrite Hk, Hrun in *. simpl in *. destruct Hv as [_ Hv]. split; [lia |]. intros _.
  eexists n, _. split_and!; [| done | reflexivity]. split; [by rewrite Hv, lookup_insert_eq | done].
Qed.

(** Between two commands of the limiter. *)
Ltac run_client failed :=
  apply wp_bind; eapply wp_mono; [apply factory_law |]; intros [client | e] w1 [HR1 Hkb]; [| failed];
  rewrite (Hkb client eq_refl); apply wp_bind_lift; [| intros ? _; failed].

Lemma decode_counter n : (0 < n ≤ int64_max)%N → decode_count (dec_bytes n) = Ok (Z.of_N n).
Proof.
  intros Hn. unfold decode_count. destruct (dec_bytes_int n) as [-> ->]; [lia |]. simpl.
  rewrite bool_decide_true; [simpl; by rewrite (proj2 (Z.ltb_lt _ _)) by lia |].
  pose proof (canonical_lower _ (decimal_canonical n ltac:(lia))) as Hl. rewrite decimal_value_of in Hl.
  assert (Hlen : length (dec_bytes n) = length (decimal n)) by (by rewrite <- (dec_bytes_text n), length_map).
  rewrite Hlen. assert (10 ^ N.of_nat (pred (length (decimal n))) < 10 ^ 19)%N as Hp%N.pow_lt_mono_r_iff; [| | lia].
  - unfold int64_max in Hn. lia.
  - unfold int_max_str_digits. lia.
Qed.

(** What a read of a locked key sees. *)
Lemma locked_get D (s s' : S) o : rs_get k s = (s', Ok o) → locked_until k max lock D s →
  (D < rs_now s')%Z ∨ ∃ n, o = Some (dec_bytes n) ∧ (max ≤ n)%N ∧ (0 < n ≤ int64_max)%N.
Proof.
  intros Hrun [_ HL]. pose proof (rs_get_law k s) as Hg. unfold commanded, wp in Hg. rewrite Hrun in Hg.
  destruct Hg as [[[= ->] _] Hnow]. destruct (decide (rs_now s ≤ D)%Z) as [Hin | Hlate]; [right | left; lia].
  destruct (HL Hin) as (n & t & [Hk Hn] & Hm & _). exists n. by rewrite Hk.
Qed.

Lemma locked_ttl D (s s' : S) : rs_ttl k s = (s', Ok (-2)%Z) → locked_until k max lock D s → (D < rs_now s')%Z.
Proof.
  intros Hrun [_ HL]. pose proof (rs_ttl_law k s) as Hg. unfold commanded, wp in Hg. rewrite Hrun in Hg.
  destruct Hg as [[_ Ht] Hnow]. destruct (decide (rs_now s ≤ D)%Z) as [Hin | Hlate]; [| lia].
  destruct (HL Hin) as (n & t & [Hk _] & _). rewrite Hk in Ht. destruct Ht as (? & [= <-] & ?). lia.
Qed.

(** Recording a failed login counts it exactly once, whatever others do
    meanwhile: the status is the one of the count the server answered, and on
    reaching the limit the key is set to live for the lock time.  From then
    on the login is locked, unless the count expired between the two
    commands. *)
Theorem record_failure_correct (identity key : pystr) w :
  limiter_key sha256_hex identity = Ok key → cache_key kb key = Ok k →
  wp (record_failure sha256_hex client_factory (Z.of_N max) (Z.of_N window) (Z.of_N lock) identity) (λ r w',
    R (srv w) (srv w') ∧
    ∀ status, r = Ok status → ∃ s1 s2 count,
      R (srv w) s1 ∧ increment_with_ttl k (dec_bytes window) s1 = (s2, Ok count) ∧ R s2 (srv w') ∧
      if (count <? Z.of_N max)%Z then status = mk_failure_status (Z.of_N max - count) None
      else status = mk_failure_status 0 (Some (Z.of_N lock)) ∧
        ∃ s3 s4, R s2 s3 ∧ rs_expire k (dec_bytes lock) s3 = (s4, Ok 1%Z) ∧ R s4 (srv w') ∧
          ∀ n t, counter s3 k n t → (max ≤ n)%N →
            locked_until k max lock (rs_now s3 + Z.of_N lock * 1000) (srv w')) w.
Proof.
  intros Hid Hkey. unfold record_failure. run_client ltac:(by split). intros key' Hk'. rewrite Hid in Hk'. injection Hk' as <-.
  apply wp_bind. eapply wp_mono; [eapply (execute_script_replied R _ kb key k Hkey _ [VInt (Z.of_N window)]); [done | apply increment_R] |].
  intros [v | e] w2; simpl; [| intros HR2; split; [by transitivity (srv w1) | done]].
  intros (s1 & s2 & H1 & (count & -> & Hinc)%increment_reply & H2). cbn [is_int].
  assert (Hstep : R s1 s2) by (pose proof (rtc_once _ _ (ls_increment k max window lock s1)) as H; by rewrite Hinc in H).
  assert (HR2 : R (srv w) (srv w2)) by by transitivity (srv w1); [| transitivity s1; [| transitivity s2]].
  destruct (count <=? 0)%Z eqn:Hpos; [by split |]. to_prop. destruct (count <? Z.of_N max)%Z eqn:Hlt.
  - to_prop. apply wp_lift. split; [done |]. intros status. unfold LoginFailureStatus_new. cbn.
    rewrite guard_bind_ok, guard_bind_ok. intros (_ & _ & [= <-]). exists s1, s2, count.
    split_and!; [by transitivity (srv w1) | done | done |]. by rewrite (proj2 (Z.ltb_lt _ _)).
  - apply wp_bind. eapply wp_mono; [eapply (redis_expire_replied R _ kb key k Hkey); [lia | apply lock_R] |].
    intros [b | e] w3; simpl; [| intros HR3; split; [by transitivity (srv w2) | done]]. rewrite N2Z.id.
    intros (s3 & s4 & H3 & Hexp & H4). unfold bind, ret in Hexp.
    destruct (rs_expire k (dec_bytes lock) s3) as [s4' [z | e]] eqn:Hrun; [| done]. injection Hexp as -> <-.
    assert (HR34 : R s3 s4) by (pose proof (rtc_once _ _ (ls_lock k max window lock s3)) as H; by rewrite Hrun in H).
    assert (HR3 : R (srv w) (srv w3)) by by transitivity (srv w2); [| transitivity s3; [| transitivity s4]].
    destruct (z =? 1)%Z eqn:Hz; [| by split]. to_prop. subst z. apply wp_lift. split; [done |].
    intros status. unfold LoginFailureStatus_new. cbn [fs_remaining_attempts fs_retry_after_seconds].
    rewrite !guard_bind_ok. intros (_ & _ & _ & [= <-]). exists s1, s2, count.
    split_and!; [by transitivity (srv w1) | done | by transitivity (srv w2); [| transitivity s3; [| transitivity s4]] |]. rewrite (proj2 (Z.ltb_ge count _)) by done.
    split; [done |]. exists s3, s4. split_and!; [by transitivity (srv w2) | done | done |].
    intros n t Hc Hm. eapply locked_steps; [done | done | done | exact H4 |]. by eapply expire_locks.
Qed.

(** The rest of [retry_after], after the count was read. *)
Lemma retry_ttl D key w : cache_key kb key = Ok k → locked_until k max lock D (srv w) →
  wp (let* ttl := redis_ttl kb key in
      if (ttl =? -2)%Z then ret None
      else if (ttl =? -1)%Z then raise CacheOperationError
      else ret (Some (Z.max 1 ttl))) (λ r w',
    locked_until k max lock D (srv w') ∧
    match r with Ok None => (D < rs_now (srv w'))%Z | Ok (Some t) => (1 ≤ t)%Z | Err _ => True end) w.
Proof.
  intros Hkey HL. apply wp_bind. eapply wp_mono; [eapply (redis_ttl_replied R _ _ key k Hkey); apply ttl_steps |].
  intros [z | e] w' Hr; [| by split; [eapply locked_steps |]]. destruct Hr as (s1 & s2 & H1 & Hrun & H2).
  assert (HL1 : locked_until k max lock D s1) by by eapply locked_steps.
  assert (HR : R s1 s2) by (pose proof (ttl_steps k max window lock s1) as H; by rewrite Hrun in H).
  assert (HL' : locked_until k max lock D (srv w')) by (eapply locked_steps; [done.. | | exact HL1]; by transitivity s2).
  destruct (z =? -2)%Z eqn:Hz; to_prop.
  - subst z. split; [done |]. apply (locked_ttl D) in Hrun; [| done].
    apply (steps_time k max window lock Hmax Hlock Hwindow) in H2. lia.
  - destruct (z =? -1)%Z; split; try done. simpl. lia.
Qed.

(** C6: a locked login stays locked: whatever all clients do meanwhile -
    further failures, successful logins clearing the count, time passing -
    asking before the deadline never answers that the login is free. *)
Theorem login_lockout_holds (identity key : pystr) w D :
  limiter_key sha256_hex identity = Ok key → cache_key kb key = Ok k →
  locked_until k max lock D (srv w) →
  wp (retry_after sha256_hex client_factory (Z.of_N max) identity) (λ r w',
    locked_until k max lock D (srv w') ∧
    match r with
    | Ok None => (D < rs_now (srv w'))%Z
    | Ok (Some t) => (1 ≤ t)%Z
    | Err _ => True
    end) w.
Proof.
  intros Hid Hkey HL. unfold retry_after. run_client ltac:(split; [by eapply locked_steps | done]). intros key' Hk'. rewrite Hid in Hk'. injection Hk' as <-.
  apply wp_bind. eapply wp_mono; [eapply (client_get_replied R _ kb key k Hkey); apply get_steps |].
  intros [o | e] w2; simpl; [| intros HR2; split; [| done]; eapply (locked_steps k max window lock); [done.. | | exact HL]; by transitivity (srv w1)].
  intros (s1 & s2 & H1 & Hget & H2).
  assert (HL1 : locked_until k max lock D s1) by (eapply (locked_steps k max window lock); [done.. | | exact HL]; by transitivity (srv w1)).
  assert (HR12 : R s1 s2) by (pose proof (get_steps k max window lock s1) as H; by rewrite Hget in H).
  assert (HL2 : locked_until k max lock D (srv w2))
    by (eapply (locked_steps k max window lock); [done.. | | exact HL1]; by transitivity s2).
  pose proof (steps_time k max window lock Hmax Hlock Hwindow _ _ H2) as Ht2.
  destruct (locked_get D _ _ _ Hget HL1) as [Hlate | (n & -> & Hm & Hn)].
  - destruct o as [raw |]; [| split; [done | simpl; lia]]. apply wp_bind, wp_lift.
    destruct (decode_count raw) as [count | e]; [| by split].
    destruct (count <? Z.of_N max)%Z; [split; [done | simpl; lia] |].
    by apply retry_ttl.
  - rewrite (decode_counter n Hn). apply wp_bind, wp_lift. rewrite (proj2 (Z.ltb_ge _ _)) by lia.
    by apply retry_ttl.
Qed.

(** Clearing after a successful login removes the count exactly when it is
    below the limit, at any size of the two numbers, and never opens a lock. *)
Theorem clear_keeps_locks (identity key : pystr) w D :
  limiter_key sha256_hex identity = Ok key → cache_key kb key = Ok k →
  wp (clear sha256_hex client_factory (Z.of_N max) identity) (λ r w',
    (locked_until k max lock D (srv w) → locked_until k max lock D (srv w')) ∧
    (r = Ok tt → ∃ s1 s2 a, R (srv w) s1 ∧ delete_below k (dec_bytes max) s1 = (s2, Ok a) ∧ R s2 (srv w') ∧
      ∀ n t, counter s1 k n t →
        rs_view s2 = if (n <? max)%N then delete k (rs_view s1) else rs_view s1)) w.
Proof.
  intros Hid Hkey. unfold clear.
  run_client ltac:(split; [by intros; eapply locked_steps | done]). intros key' Hk'. rewrite Hid in Hk'. injection Hk' as <-.
  apply wp_bind. eapply wp_mono; [eapply (execute_script_replied R _ kb key k Hkey _ [VInt (Z.of_N max)]); [done | apply clear_R] |].
  intros [v | e] w2; simpl; [| intros HR2; split; [| done]; intros; eapply (locked_steps k max window lock);
    [done.. | by transitivity (srv w1) | done]].
  intros (s1 & s2 & H1 & (a & -> & Hdel)%clear_reply & H2). cbn [is_int].
  assert (R s1 s2) by (pose proof (rtc_once _ _ (ls_clear k max window lock s1)) as H; by rewrite Hdel in H).
  assert (HR2 : R (srv w) (srv w2)) by by transitivity (srv w1); [| transitivity s1; [| transitivity s2]].
  assert (Hkeep : locked_until k max lock D (srv w) → locked_until k max lock D (srv w2))
    by by intros; eapply locked_steps.
  case_bool; [| by split]. split; [done |]. intros _. exists s1, s2, a. split_and!; [by transitivity (srv w1) | done | done |].
  intros n t Hc. pose proof (delete_below_counter k s1 n t max Hc Hmax) as Hd. unfold commanded, wp in Hd.
  rewrite Hdel in Hd. by destruct Hd as [[_ Hv] _].
Qed.
End LimiterTheorems.

(** ** Witnesses: a driver straight in front of a server in memory *)

Definition direct {A} (m : redis mem_redis A) (to_py : A → pyval) : io mem_redis pyval :=
  λ s, match m s with
       | (s', Ok a) => (s', Ok (to_py a))
       | (s', Err _) => (s', Err (OtherException 1))
       end.
#[export] Instance mem_driver : RedisDriver mem_redis := {
  rd_get k := direct (rs_get k) bulk_value;
  rd_set k b ttl := match ttl with
    | Some t => direct (rs_set_px k b (t * 1000)) (λ _, VBool true)
    | None => raise (OtherException 2)
    end;
  rd_set_nx _ _ _ := raise (OtherException 2);
  rd_delete k s := match rs_del k s with (s', Ok z) => (s', Ok z) | (s', Err _) => (s', Err (OtherException 1)) end;
  rd_exists k s := (s, Ok (match rs_view s !! k with Some _ => 1 | None => 0 end)%Z);
  rd_expire k n := direct (rs_expire k (dec_bytes (Z.to_N n))) (λ z, VBool (z =? 1)%Z);
  rd_ttl k := direct (rs_ttl k) VInt;
  rd_hgetall _ := raise (OtherException 2);
  rd_hset _ _ := raise (OtherException 2);
  rd_sadd _ _ := raise (OtherException 2);
  rd_zadd _ _ _ _ := raise (OtherException 2);
  rd_zrem _ _ := raise (OtherException 2);
  rd_zrangebyscore _ _ _ _ _ := raise (OtherException 2);
  rd_eval script keys args := direct (run_script script keys (map arg_text args)) reply_value;
}.

Lemma direct_called {A} (R : relation mem_redis) (m : redis mem_redis A) to_py s :
  PreOrder R → wp (direct m to_py) (λ r s', called R m to_py s r s') s.
Proof.
  intros HR. unfold wp, direct. destruct (m s) as [s' [a | e]] eqn:Hm; simpl.
  - exists s, s', a. by split_and!.
  - exists s. split; [done |]. right. by rewrite Hm.
Qed.

#[export] Instance mem_link (R : relation mem_redis) `{!PreOrder R} : RedisLink mem_redis mem_redis R.
Proof. refine {| srv := λ s, s |}; intros; by apply direct_called. Defined.

Section Demo.
#[local] Instance demo_unicode : UnicodeTables := {| lower_rest s := s; digit_rest _ := false |}.

Definition demo_sha (_ : pystr) : result exn pystr := Ok (u "3f79bb7b435b05321651daefd374cdc6").
Definition demo_keys : CacheKeyBuilder := mk_key_builder (u "app") [].
Definition demo_client : io mem_redis redis_client := ret (mk_redis_client demo_keys None).
Definition demo_limiter_key : pystr := u "auth:login:3f79bb7b435b05321651daefd374cdc6:failures".
Definition demo_key : pystr := u "app:" ++ demo_limiter_key.
(** Four failures counted; a lock counted until 60 s. *)
Definition demo_counting : mem_redis := mk_mem_redis {[ demo_key := (dec_bytes 4, Some 300000%Z) ]} 0.
Definition demo_locked : mem_redis := mk_mem_redis {[ demo_key := (dec_bytes 5, Some 60000%Z) ]} 0.

Lemma demo_factory_law (R : relation mem_redis) `{!PreOrder R} w : wp demo_client (λ r w',
  R w w' ∧ ∀ c, r = Ok c → rc_keys c = demo_keys) w.
Proof. split; [done | by intros c [= <-]]. Qed.

Lemma demo_is_locked : locked_until demo_key 5 60 60000 demo_locked.
Proof.
  split; [by vm_compute |]. intros _. exists 5%N, 60000%Z. split_and!; [split | |]; try (by vm_compute).
Qed.

Lemma record_failure_correct_witness :
  let R := limiter_steps demo_key 5 300 60 in
  wp (record_failure demo_sha demo_client 5 300 60 (u "alice")) (λ r w',
    R demo_counting w' ∧
    ∀ status, r = Ok status → ∃ s1 s2 count,
      R demo_counting s1 ∧ increment_with_ttl demo_key (dec_bytes 300) s1 = (s2, Ok count) ∧ R s2 w' ∧
      if (count <? 5)%Z then status = mk_failure_status (5 - count) None
      else status = mk_failure_status 0 (Some 60%Z) ∧
        ∃ s3 s4, R s2 s3 ∧ rs_expire demo_key (dec_bytes 60) s3 = (s4, Ok 1%Z) ∧ R s4 w' ∧
          ∀ n t, counter s3 demo_key n t → (5 ≤ n)%N →
            locked_until demo_key 5 60 (rs_now s3 + Z.of_N 60 * 1000) w') demo_counting
  ∧ (record_failure demo_sha demo_client 5 300 60 (u "alice") demo_counting).2 = Ok (mk_failure_status 0 (Some 60%Z)).
Proof.
  intros R. split; [| by vm_compute].
  apply (record_failure_correct demo_sha demo_client demo_keys demo_key 5 300 60 (L := mem_link _)) with (key := demo_limiter_key).
  - done.
  - split; [done | by vm_compute].
  - split; [done | by vm_compute].
  - intros w. by apply demo_factory_law, _.
  - done.
  - by vm_compute.
Defined.

Lemma login_lockout_holds_witness :
  wp (retry_after demo_sha demo_client 5 (u "alice")) (λ r w',
    locked_until demo_key 5 60 60000 w' ∧
    match r with
    | Ok None => (60000 < rs_now w')%Z
    | Ok (Some t) => (1 ≤ t)%Z
    | Err _ => True
    end) demo_locked
  ∧ (retry_after demo_sha demo_client 5 (u "alice") demo_locked).2 = Ok (Some 60%Z).
Proof.
  split; [| by vm_compute].
  apply (login_lockout_holds demo_sha demo_client demo_keys demo_key 5 300 60 (L := mem_link _)) with (key := demo_limiter_key).
  - done.
  - split; [done | by vm_compute].
  - split; [done | by vm_compute].
  - intros w. by apply demo_factory_law, _.
  - done.
  - by vm_compute.
  - apply demo_is_locked.
Defined.

Lemma clear_keeps_locks_witness :
  let R := limiter_steps demo_key 5 300 60 in
  wp (clear demo_sha demo_client 5 (u "alice")) (λ r w',
    (locked_until demo_key 5 60 60000 demo_counting → locked_until demo_key 5 60 60000 w') ∧
    (r = Ok tt → ∃ s1 s2 a, R demo_counting s1 ∧ delete_below demo_key (dec_bytes 5) s1 = (s2, Ok a) ∧
      R s2 w' ∧ ∀ n t, counter s1 demo_key n t →
        rs_view s2 = if (n <? 5)%N then delete demo_key (rs_view s1) else rs_view s1)) demo_counting
  ∧ (clear demo_sha demo_client 5 (u "alice") demo_counting).2 = Ok tt.
Proof.
  intros R. split; [| by vm_compute].
  apply (clear_keeps_locks demo_sha demo_client demo_keys demo_key 5 300 60 (L := mem_link _)) with (key := demo_limiter_key).
  - done.
  - split; [done | by vm_compute].
  - split; [done | by vm_compute].
  - intros w. by apply demo_factory_law, _.
  - done.
  - by vm_compute.
Defined.
End Demo.
