(* ===== verification/RateLimit.v ===== *)
(** * RateLimit: the shared fixed-window quota and its middleware

    Models [infrastructure/rate_limit/redis.py] over the managed Redis client
    and [interfaces/http/middleware/rate_limit.py].  The quota theorem is
    about the server: any number of clients run acquire_window.lua on one key
    while time passes. *)

From S2P Require Import Prelude Text Errors PyVal Decimal Cache Redis LoginLimiter.
Local Open Scope prog_scope.

Record RateLimitDecision := mk_decision { rl_allowed : bool; rl_retry_after_seconds : Z }.

Section Limiter.
Context {W : Type} {RD : RedisDriver W}.
Context (sha256_hex : pystr → result exn pystr) (client_factory : io W redis_client).
Context (max_requests window_seconds : Z).

Definition RedisFixedWindowLimiter_new : result exn unit :=
  guard ((1 <=? max_requests) && (max_requests <=? 1000000)
    && (1 <=? window_seconds) && (window_seconds <=? 86400))%Z ValueError.

Definition parse_result (r : pyval) : result exn (bool * Z) :=
  match is_sequence r with
  | Some [allowed; ttl] =>
      match is_int allowed, is_int ttl with
      | Some a, Some t =>
          let? _ := guard (((a =? 0) || (a =? 1)) && (0 <=? t) && (t <=? window_seconds * 1000))%Z CacheOperationError in
          let? _ := guard (negb ((a =? 1) && negb (t =? 0)))%Z CacheOperationError in
          Ok ((a =? 1)%Z, t)
      | _, _ => Err CacheOperationError
      end
  | _ => Err CacheOperationError
  end.

Definition window_key (digest : pystr) : pystr :=
  u "rate-limit:http:ip:" ++ str_int max_requests ++ u ":" ++ str_int window_seconds ++ u ":" ++ digest.

Definition is_cache_failure (e : exn) : bool :=
  match e with CacheConnectionError | CacheOperationError => true | _ => false end.

Definition acquire (identity : pystr) : io W RateLimitDecision :=
  let* digest := lift (sha256_hex identity) in
  let key := window_key digest in
  let* parsed :=
    catch (let* client := client_factory in
           let* r := redis_execute_script (rc_keys client) AcquireWindow [key]
                       [VInt max_requests; VInt (window_seconds * 1000)] in
           lift (parse_result r))
      (λ e, if is_cache_failure e then raise RateLimitUnavailableError else raise e) in
  let allowed : bool := fst parsed in
  ret (mk_decision allowed (if allowed then 0 else Z.max 1 ((snd parsed + 999) / 1000))%Z).
End Limiter.

(** ** The middleware *)

(** What the middleware reads of an ASGI scope. *)
Record http_scope := mk_scope {
  sc_type : pystr; sc_path : pystr; sc_root_path : pystr; sc_method : pystr;
  sc_has_origin : bool; sc_has_request_method : bool;
}.

Definition relative_path (path root : pystr) : pystr :=
  if negb (bool_decide (root = [])) && startswith root path then
    let relative := removeprefix root path in
    if bool_decide (relative = []) || startswith (u "/") relative then relative else path
  else path.

Definition should_limit (s : http_scope) : bool :=
  if negb (bool_decide (sc_type s = u "http")) then false
  else
    let path := relative_path (sc_path s) (sc_root_path s) in
    if negb (bool_decide (path = u "/api")) && negb (startswith (u "/api/") path) then false
    else negb (bool_decide (sc_method s = u "OPTIONS") && sc_has_origin s && sc_has_request_method s).

Inductive rate_limit_code := SERVICE_UNAVAILABLE | TOO_MANY_REQUESTS.

Section Middleware.
Context {W : Type} (app : io W unit) (respond : rate_limit_code → option Z → io W unit).
Context (fail_open : bool) (limiter : option (io W RateLimitDecision)).

Definition rate_limit_middleware (s : http_scope) : io W unit :=
  if negb (should_limit s) then app
  else match limiter with
  | None => raise RuntimeError
  | Some acquire =>
      let* r := attempt acquire in
      match r with
      | Err RateLimitUnavailableError => if fail_open then app else respond SERVICE_UNAVAILABLE None
      | Err e => raise e
      | Ok d => if rl_allowed d then app else respond TOO_MANY_REQUESTS (Some (rl_retry_after_seconds d))
      end
  end.
End Middleware.

(** ** What all clients do to one quota key *)

Section Window.
Context {S : Type} `{RedisServerLaws S} (k : pystr) (limit window : N).

Definition acquire_on (s : S) : S * result redis_error (list Z) :=
  acquire_window k (dec_bytes limit) (dec_bytes window) s.
Definition admissions (now : Z) (r : result redis_error (list Z)) : list Z :=
  match r with Ok (a :: _) => if (a =? 1)%Z then [now] else [] | _ => [] end.

(** One step and the times of the requests it admitted. *)
Inductive window_step : S → list Z → S → Prop :=
| ws_acquire s : window_step s (admissions (rs_now s) (acquire_on s).2) (acquire_on s).1
| ws_elapse d s : (0 ≤ d)%Z → window_step s [] (rs_elapse d s)
| ws_other s s' : rs_view s' !! k = rs_view s !! k → rs_now s' = rs_now s → window_step s [] s'.

(** A run with its log of admissions, the latest first. *)
Inductive window_run : S → list Z → S → Prop :=
| wr_nil s : window_run s [] s
| wr_step s1 log s2 a s3 : window_run s1 log s2 → window_step s2 a s3 → window_run s1 (a ++ log) s3.

Definition window_steps : relation S := rtc (λ s s', ∃ a, window_step s a s').

(** *** The windows of a log *)
Abbreviation chunk := (Z * list Z)%type.
Definition chunk_ok (c : chunk) : Prop :=
  1 ≤ length c.2 ≤ N.to_nat limit ∧ Forall (λ t, c.1 ≤ t ≤ c.1 + Z.of_N window)%Z c.2.
(** Windows, the latest first, each opened after the previous one closed. *)
Definition later (a b : chunk) : Prop := (b.1 + Z.of_N window < a.1)%Z.
Definition chunks_ok (l : list chunk) : Prop := Forall chunk_ok l ∧ StronglySorted later l.

Definition window_inv (s : S) (log : list Z) : Prop :=
  ∃ l, chunks_ok l ∧ log = concat (map snd l) ∧
    match rs_view s !! k with
    | None => Forall (λ c, c.1 + Z.of_N window < rs_now s)%Z l
    | Some e => ∃ c rest, l = c :: rest ∧ e = (dec_bytes (N.of_nat (length c.2)), Some (c.1 + Z.of_N window)%Z)
        ∧ (c.1 ≤ rs_now s)%Z
    end.

Hypothesis Hlimit : (0 < limit ≤ 10 ^ 9)%N.
Hypothesis Hwindow : (0 < window ≤ 10 ^ 9)%N.

Lemma acquire_inv s log : window_inv s log →
  window_inv (acquire_on s).1 (admissions (rs_now s) (acquire_on s).2 ++ log).
Proof.
  intros (l & [Hall Hs] & -> & Hk). unfold acquire_on.
  destruct (rs_view s !! k) as [e |] eqn:Hv.
  - destruct Hk as (c & rest & -> & -> & Hc). pose proof (rs_live _ _ _ _ Hv) as Hlive.
    pose proof (Forall_inv Hall) as [Hlen Hts].
    pose proof (acquire_window_next k s limit (dec_bytes window) _ _ Hv ltac:(lia) Hlimit) as Ha.
    unfold commanded, wp in Ha. destruct (acquire_window _ _ _ s) as [s' r]. destruct Ha as [Ha Hn].
    destruct (_ <? _)%N eqn:Hlt; to_prop; destruct Ha as [-> Hv']; simpl.
    + exists ((c.1, rs_now s :: c.2) :: rest). split_and!; [| done |].
      * split; [constructor; [| by apply Forall_inv_tail in Hall] | by inversion Hs; constructor].
        split; simpl; [lia |]. constructor; [lia | done].
      * rewrite Hv', lookup_insert_eq. eexists _, rest. split_and!; [done | | simpl; lia].
        simpl. do 2 f_equal. lia.
    + exists (c :: rest). split_and!; [done | done |]. rewrite Hv', Hv. exists c, rest. by rewrite Hn.
  - pose proof (acquire_window_new k s limit window Hv Hwindow) as Ha.
    unfold commanded, wp in Ha. destruct (acquire_window _ _ _ s) as [s' r]. destruct Ha as [[-> Hv'] Hn]. simpl.
    exists ((rs_now s, [rs_now s]) :: l). split_and!; [| done |].
    + split; constructor; try done. split; simpl; [lia |]. constructor; [lia | done].
    + rewrite Hv', lookup_insert_eq. eexists _, l. split_and!; [done.. | simpl; lia].
Qed.

Lemma step_inv s a s' log : window_step s a s' → window_inv s log → window_inv s' (a ++ log).
Proof.
  intros [s1 | d s1 Hd | s1 s2 Hv Hn] Hi; [by apply acquire_inv | |];
    destruct Hi as (l & Hl & -> & Hk); exists l; (split_and!; [done | done |]).
  - destruct (rs_elapse_law d s1 Hd) as [Hn Hv]. rewrite Hv, lookup_omap, Hn.
    destruct (rs_view s1 !! k) as [e |]; simpl.
    + destruct Hk as (c & rest & -> & -> & Hc). unfold alive. simpl. case_bool; to_prop.
      * destruct Hl as [_ Hs]. inversion Hs as [| ? ? _ Hlater]; subst. constructor; [done |].
        eapply Forall_impl; [| exact Hlater]. unfold later. simpl. lia.
      * exists c, rest. split_and!; [done | done | lia].
    + eapply Forall_impl; [| exact Hk]. simpl. lia.
  - rewrite Hv, Hn. done.
Qed.

Lemma run_inv s log s' : window_run s log s' → rs_view s !! k = None → window_inv s' log.
Proof.
  intros Hr Hk. induction Hr as [s | s1 log s2 a s3 Hr IH Hstep].
  - exists []. split_and!; [split; constructor | done |]. by rewrite Hk.
  - eapply step_inv; [done | by apply IH].
Qed.

(** *** Counting in an interval of one window's length *)
Definition within (t : Z) (l : list Z) : nat :=
  length (List.filter (λ x, (t <=? x)%Z && (x <=? t + Z.of_N window)%Z) l).

Lemma within_app t a b : within t (a ++ b) = within t a + within t b.
Proof. unfold within. by rewrite List.filter_app, length_app. Qed.

Lemma within_le t l : within t l ≤ length l.
Proof. apply List.filter_length_le. Qed.

Lemma within_none t l : Forall (λ x, x < t ∨ t + Z.of_N window < x)%Z l → within t l = 0.
Proof.
  unfold within. induction 1 as [| x l Hx _ IH]; [done |]. simpl.
  replace ((t <=? x)%Z && (x <=? t + Z.of_N window)%Z) with false; [done |].
  symmetry. apply andb_false_iff. rewrite !Z.leb_gt. lia.
Qed.

Lemma closed_before t l : Forall chunk_ok l → Forall (λ c, c.1 + Z.of_N window < t)%Z l →
  Forall (λ x, x < t)%Z (concat (map snd l)).
Proof.
  intros Hall Hold. apply Forall_concat, Forall_map.
  induction l as [| c l IH]; [done |]. inversion Hall as [| ? ? [_ Hts]]; inversion Hold; subst. constructor; [| by apply IH].
  eapply Forall_impl; [| exact Hts]. simpl. lia.
Qed.

Lemma within_old t l : chunks_ok l → Forall (λ c, c.1 + Z.of_N window < t)%Z l → within t (concat (map snd l)) = 0.
Proof.
  intros [Hall _] Hold. apply within_none. eapply Forall_impl; [| by apply (closed_before t l)]. simpl. lia.
Qed.

Lemma within_one t l : chunks_ok l → match l with c :: _ => c.1 ≤ t | [] => True end%Z →
  within t (concat (map snd l)) ≤ N.to_nat limit.
Proof.
  destruct l as [| c l]; [unfold within; simpl; lia |]. intros [Hall Hs] Hc. simpl. rewrite within_app.
  inversion Hall as [| ? ? [Hlen _] Hall']; inversion Hs as [| ? ? Hs' Hl]; subst.
  rewrite (within_old t l); [pose proof (within_le t c.2); lia | done |].
  eapply Forall_impl; [| exact Hl]. unfold later. lia.
Qed.

Lemma within_two t l : chunks_ok l → within t (concat (map snd l)) ≤ 2 * N.to_nat limit.
Proof.
  induction l as [| c l IH]; [unfold within; simpl; lia |]. intros [Hall Hs].
  destruct (decide (c.1 ≤ t)%Z) as [Hold | Hnew]; [pose proof (within_one t (c :: l) (conj Hall Hs) Hold); lia |].
  simpl. rewrite within_app. inversion Hall as [| ? ? [Hlen Hts] Hall']; inversion Hs as [| ? ? Hs' Hl]; subst.
  destruct (decide (t + Z.of_N window < c.1)%Z) as [Hfut | Hin].
  - rewrite within_none; [by apply IH |]. eapply Forall_impl; [| exact Hts]. simpl. lia.
  - pose proof (within_le t c.2). assert (within t (concat (map snd l)) ≤ N.to_nat limit); [| lia].
    apply within_one; [done |]. destruct l as [| c' l]; [done |]. inversion Hl as [| ? ? Hlater]; subst.
    unfold later in Hlater. lia.
Qed.

Lemma acquire_R (s : S) : window_steps s (acquire_on s).1.
Proof. apply rtc_once. eexists. apply ws_acquire. Qed.

(** C8: the quota is kept for every interleaving of clients: in any interval of
    one window's length at most twice the limit is admitted; and a request is
    admitted exactly when no window is open or the open one, whose requests it
    counts, has admitted less than the limit - a refused one is told how long
    the window stays open. *)
Theorem window_quota (s s' : S) log :
  rs_view s !! k = None → window_run s log s' →
  (∀ t, length (List.filter (λ x, (t <=? x)%Z && (x <=? t + Z.of_N window)%Z) log) ≤ 2 * N.to_nat limit) ∧
  ∃ opened admitted older, log = admitted ++ older ∧ length admitted ≤ N.to_nat limit ∧
    Forall (λ t, opened ≤ t)%Z admitted ∧ Forall (λ t, t < opened)%Z older ∧
    (acquire_on s').2 = Ok (if (rs_now s' <=? opened + Z.of_N window)%Z && bool_decide (length admitted = N.to_nat limit)
                            then [0; opened + Z.of_N window - rs_now s'] else [1; 0])%Z.
Proof.
  intros Hk Hr. destruct (run_inv s log s' Hr Hk) as (l & Hl & -> & Hst). split; [by intros t; apply within_two |].
  destruct (rs_view s' !! k) as [e |] eqn:Hv.
  - destruct Hst as (c & rest & -> & -> & Hc). exists c.1, c.2, (concat (map snd rest)).
    destruct Hl as [Hall Hs]. inversion Hall as [| ? ? [Hlen Hts] Hall']; inversion Hs as [| ? ? Hs' Hold]; subst.
    split_and!; [done | lia | by eapply Forall_impl; [| exact Hts]; simpl; lia | by apply (closed_before _ rest) |].
    pose proof (rs_live _ _ _ _ Hv). rewrite (proj2 (Z.leb_le _ _)) by done. simpl.
    pose proof (acquire_window_next k s' limit (dec_bytes window) _ _ Hv ltac:(lia) Hlimit) as Ha.
    unfold acquire_on, commanded, wp in *. destruct (acquire_window _ _ _ s') as [s2 r]. destruct Ha as [Ha _]. simpl.
    destruct (_ <? _)%N eqn:Hlt; to_prop; destruct Ha as [-> _]; case_bool_decide; try done; lia.
  - exists (rs_now s'), [], (concat (map snd l)). split_and!; [done | simpl; lia | by apply List.Forall_nil | apply (closed_before _ l); [apply Hl | done] |].
    pose proof (acquire_window_new k s' limit window Hv Hwindow) as Ha.
    unfold acquire_on, commanded, wp in *. destruct (acquire_window _ _ _ s') as [s2 r]. destruct Ha as [[-> _] _]. simpl.
    rewrite bool_decide_false by lia. by rewrite andb_false_r.
Qed.
End Window.

(** ** The limiter over the driver *)

Section AcquireCorrect.
Context {W S : Type} {RD : RedisDriver W} {RS : RedisServer S} {RSL : RedisServerLaws S}.
Context (sha256_hex : pystr → result exn pystr) (client_factory : io W redis_client).
Context (kb : CacheKeyBuilder) (k : pystr) (max_requests window_seconds : N).
Abbreviation window_ms := (window_seconds * 1000)%N.
Context {L : RedisLink W S (window_steps k max_requests window_ms)}.
Abbreviation R := (window_steps k max_requests window_ms).
Hypothesis factory_law : ∀ w, wp client_factory (λ r w',
  R (srv w) (srv w') ∧ ∀ c, r = Ok c → rc_keys c = kb) w.

Lemma acquire_reply (s s' : S) v : (0 < max_requests)%N → (0 < window_seconds)%N →
  (let* a := run_script AcquireWindow [k] (map arg_text [VInt (Z.of_N max_requests); VInt (Z.of_N window_seconds * 1000)])
   in ret (reply_value a)) s = (s', Ok v) →
  ∃ l, v = VList (map VInt l) ∧ acquire_on k max_requests window_ms s = (s', Ok l).
Proof.
  intros H1 H2. cbn [map]. rewrite !arg_text_law, N2Z.id by lia. replace (Z.to_N (Z.of_N window_seconds * 1000)) with window_ms by lia.
  simpl. unfold acquire_on, bind, ret.
  destruct (acquire_window k (dec_bytes max_requests) (dec_bytes window_ms) s) as [s1 [a | e]]; naive_solver.
Qed.

Lemma acquire_run_R (s : S) : (0 < max_requests)%N → (0 < window_seconds)%N →
  R s (run_script AcquireWindow [k] (map arg_text [VInt (Z.of_N max_requests); VInt (Z.of_N window_seconds * 1000)]) s).1.
Proof.
  intros H1 H2. cbn [map]. rewrite !arg_text_law, N2Z.id by lia. replace (Z.to_N (Z.of_N window_seconds * 1000)) with window_ms by lia.
  etrans; [apply (acquire_R k max_requests window_ms) |]. unfold acquire_on. simpl. unfold bind, ret.
  by destruct (acquire_window k (dec_bytes max_requests) (dec_bytes window_ms) s) as [s1 [a | e]].
Qed.

Lemma parse_result_ok l allowed ttl : parse_result (Z.of_N window_seconds) (VList (map VInt l)) = Ok (allowed, ttl) →
  l = [if allowed then 1 else 0; ttl]%Z ∧ (0 ≤ ttl ≤ Z.of_N window_ms)%Z ∧ (allowed = true → ttl = 0%Z).
Proof.
  unfold parse_result. destruct l as [| a [| t []]]; try done. simpl. rewrite !guard_bind_ok.
  intros (H1 & H2 & [= <- <-]). rewrite !andb_true_iff, orb_true_iff, negb_true_iff, andb_false_iff in *.
  destruct (a =? 1)%Z eqn:Ha; to_prop; subst; destruct_and?; to_prop.
  - split_and!; [done | lia | lia |]. intros _. destruct H2 as [H2 | H2]; [done | by to_prop].
  - assert (a = 0)%Z as -> by (clear H2; destruct_or?; by to_prop). split_and!; [done | lia | lia | done].
Qed.

Lemma retry_seconds ttl : (0 ≤ ttl)%Z → let n0 := Z.max 1 ((ttl + 999) / 1000) in
  (1 ≤ n0)%Z ∧ (ttl ≤ n0 * 1000)%Z ∧ ∀ n, (1 ≤ n)%Z → (ttl ≤ n * 1000)%Z → (n0 ≤ n)%Z.
Proof.
  intros Ht n0. pose proof (Z.div_mod (ttl + 999) 1000 ltac:(done)) as Hd.
  pose proof (Z.mod_pos_bound (ttl + 999) 1000 ltac:(done)). unfold n0. split_and!; lia.
Qed.

(** The decision of the limiter is the answer of one atomic execution on
    the shared key: allowed when the server admitted the request, otherwise
    refused with the least whole number of seconds, at least one, after which
    the window has ended.  An unreachable or damaged storage is always reported
    as unavailable, never as a decision. *)
Theorem acquire_correct (identity digest : pystr) w :
  (0 < max_requests)%N → (0 < window_seconds)%N →
  sha256_hex identity = Ok digest →
  cache_key kb (window_key (Z.of_N max_requests) (Z.of_N window_seconds) digest) = Ok k →
  wp (acquire sha256_hex client_factory (Z.of_N max_requests) (Z.of_N window_seconds) identity) (λ r w',
    R (srv w) (srv w') ∧
    match r with
    | Ok d => ∃ s1 s2, R (srv w) s1 ∧ R s2 (srv w') ∧
        if rl_allowed d
        then acquire_on k max_requests window_ms s1 = (s2, Ok [1; 0]%Z) ∧ rl_retry_after_seconds d = 0%Z
        else ∃ ttl, acquire_on k max_requests window_ms s1 = (s2, Ok [0; ttl]%Z) ∧ (0 ≤ ttl ≤ Z.of_N window_ms)%Z ∧
          (1 ≤ rl_retry_after_seconds d)%Z ∧ (ttl ≤ rl_retry_after_seconds d * 1000)%Z ∧
          ∀ n, (1 ≤ n)%Z → (ttl ≤ n * 1000)%Z → (rl_retry_after_seconds d ≤ n)%Z
    | Err e => is_cache_failure e = false
    end) w.
Proof.
  intros Hm Hw Hsha Hkey. unfold acquire. rewrite Hsha. apply wp_bind, wp_lift. cbn beta zeta.
  apply wp_bind, wp_catch, wp_bind. eapply wp_mono; [apply factory_law |].
  intros [client | e] w1 [HR1 Hkb]; [| by destruct (is_cache_failure e) eqn:He].
  rewrite (Hkb client eq_refl). apply wp_bind.
  eapply wp_mono; [eapply (execute_script_replied R _ kb _ k Hkey AcquireWindow
    [VInt (Z.of_N max_requests); VInt (Z.of_N window_seconds * 1000)]); [done | by intros; apply acquire_run_R] |].
  intros [v | e] w2; simpl; [| intros HR2; assert (R (srv w) (srv w2)) by (by transitivity (srv w1));
    by destruct (is_cache_failure e) eqn:He].
  intros (s1 & s2 & H1 & (l & -> & Hacq)%acquire_reply & H2); [| done..].
  assert (R s1 s2) by (pose proof (acquire_R k max_requests window_ms s1) as HR; by rewrite Hacq in HR).
  assert (R (srv w) s1) by by transitivity (srv w1).
  assert (HR2 : R (srv w) (srv w2)) by by transitivity s1; [| transitivity s2].
  apply wp_lift. destruct (parse_result _ _) as [[allowed ttl] | e] eqn:Hp; [| by destruct (is_cache_failure e) eqn:He].
  split; [done |]. exists s1, s2. split_and!; [done | done |]. simpl.
  apply parse_result_ok in Hp as (-> & Hb & Hz). destruct allowed; [by rewrite Hz in Hacq |].
  exists ttl. split; [done |]. split; [done |]. apply (retry_seconds ttl). lia.
Qed.
End AcquireCorrect.

(** ** Witnesses *)

Definition demo_window_key : pystr := u "app:rate-limit:http:ip:2:1:3f79bb7b435b05321651daefd374cdc6".
Definition demo_empty : mem_redis := mk_mem_redis ∅ 0.
(** Three requests at once under a limit of two: the third is refused. *)
Definition demo_one : mem_redis := (acquire_on demo_window_key 2 1000 demo_empty).1.
Definition demo_two : mem_redis := (acquire_on demo_window_key 2 1000 demo_one).1.
Definition demo_three : mem_redis := (acquire_on demo_window_key 2 1000 demo_two).1.

Lemma window_quota_witness :
  (∀ t, length (List.filter (λ x, (t <=? x)%Z && (x <=? t + Z.of_N 1000)%Z) [0; 0]%Z) ≤ 2 * N.to_nat 2) ∧
  ∃ opened admitted older, [0; 0]%Z = admitted ++ older ∧ length admitted ≤ N.to_nat 2 ∧
    Forall (λ t, opened ≤ t)%Z admitted ∧ Forall (λ t, t < opened)%Z older ∧
    (acquire_on demo_window_key 2 1000 demo_three).2 =
      Ok (if (rs_now demo_three <=? opened + Z.of_N 1000)%Z && bool_decide (length admitted = N.to_nat 2)
          then [0; opened + Z.of_N 1000 - rs_now demo_three] else [1; 0])%Z.
Proof.
  apply (window_quota demo_window_key 2 1000 ltac:(done) ltac:(done) demo_empty); [done |].
  change [0; 0]%Z with (admissions (rs_now demo_two) (acquire_on demo_window_key 2 1000 demo_two).2 ++
    admissions (rs_now demo_one) (acquire_on demo_window_key 2 1000 demo_one).2 ++
    admissions (rs_now demo_empty) (acquire_on demo_window_key 2 1000 demo_empty).2 ++ []).
  eapply wr_step; [eapply wr_step; [eapply wr_step; [apply wr_nil |] |] |]; apply ws_acquire.
Defined.

Lemma acquire_correct_witness :
  let R := window_steps demo_window_key 2 (1 * 1000) in
  wp (acquire demo_sha demo_client 2 1 (u "ip:10.0.0.1")) (λ r w',
    R demo_two w' ∧
    match r with
    | Ok d => ∃ s1 s2, R demo_two s1 ∧ R s2 w' ∧
        if rl_allowed d
        then acquire_on demo_window_key 2 (1 * 1000) s1 = (s2, Ok [1; 0]%Z) ∧ rl_retry_after_seconds d = 0%Z
        else ∃ ttl, acquire_on demo_window_key 2 (1 * 1000) s1 = (s2, Ok [0; ttl]%Z)
          ∧ (0 ≤ ttl ≤ Z.of_N (1 * 1000))%Z ∧
          (1 ≤ rl_retry_after_seconds d)%Z ∧ (ttl ≤ rl_retry_after_seconds d * 1000)%Z ∧
          ∀ n, (1 ≤ n)%Z → (ttl ≤ n * 1000)%Z → (rl_retry_after_seconds d ≤ n)%Z
    | Err e => is_cache_failure e = false
    end) demo_two
  ∧ (acquire demo_sha demo_client 2 1 (u "ip:10.0.0.1") demo_two).2 = Ok (mk_decision false 1).
Proof.
  intros R. split; [| by vm_compute].
  apply (acquire_correct demo_sha demo_client demo_keys demo_window_key 2 1 (L := mem_link _))
    with (digest := u "3f79bb7b435b05321651daefd374cdc6").
  - intros w. by apply demo_factory_law, _.
  - done.
  - done.
  - done.
  - by vm_compute.
Defined.
