(* ===== verification/QueueJob.v ===== *)
(** * QueueJob: job types, their descriptions and the worker's directory

    Models [infrastructure/queue/policies.py], [job.py] and
    [interfaces/worker/resolver.py].  A job class is a record of the class
    attributes the code reads, untyped where the code checks them; its codec
    is given by the class (pydantic by default). *)

From Stdlib Require Import QArith.
From S2P Require Import Prelude Text Errors PyVal.
Local Open Scope prog_scope.
Local Close Scope Q_scope.

(** ** JobPolicy: a float is its rational value, [None] when not finite *)
Abbreviation pyfloat := (option Q).
Record JobPolicy := mk_policy {
  jp_max_attempts : pyval; jp_backoff_seconds : list pyfloat; jp_timeout_seconds : pyfloat;
}.
Definition finite_positive (f : pyfloat) : bool :=
  match f with Some q => negb (Qle_bool q 0) | None => false end.
Definition finite_nonnegative (f : pyfloat) : bool :=
  match f with Some q => Qle_bool 0 q | None => false end.

Definition JobPolicy_new (p : JobPolicy) : result exn JobPolicy :=
  let? _ := guard (match is_int (jp_max_attempts p) with Some n => 1 <=? n | None => false end)%Z ValueError in
  let? _ := guard (finite_positive (jp_timeout_seconds p)) ValueError in
  let? _ := guard (forallb finite_nonnegative (jp_backoff_seconds p)) ValueError in
  Ok p.
Definition default_policy : JobPolicy :=
  mk_policy (VInt 3) [Some 1%Q; Some 5%Q] (Some 30%Q).
Definition policy_attempts (p : JobPolicy) : Z := default 0%Z (is_int (jp_max_attempts p)).

(** [l[i]], counting from the end when negative. *)
Definition py_index {A} (l : list A) (i : Z) : option A :=
  let j := if (i <? 0)%Z then (Z.of_nat (length l) + i)%Z else i in
  if (j <? 0)%Z then None else l !! Z.to_nat j.

Definition retry_delay (p : JobPolicy) (failed_attempt : Z) : pyfloat :=
  match jp_backoff_seconds p with
  | [] => Some 0%Q
  | delays => default None (py_index delays (Z.min (failed_attempt - 1) (Z.of_nat (length delays) - 1)))
  end.

(** ** References: [[A-Za-z0-9][A-Za-z0-9_.:-]{0,499}] *)
Definition is_reference_char (c : N) : bool :=
  is_alnum c || (c =? 95)%N || (c =? 46)%N || (c =? 58)%N || (c =? 45)%N.
Definition reference_pattern : regex := RCat (RCls is_alnum) (RRep (RCls is_reference_char) 0 (Some 499)).
Definition validate_job_reference (value : pyval) : result exn pystr :=
  match is_str value with
  | Some s => if fullmatch reference_pattern s then Ok s else Err QueueConfigurationError
  | None => Err QueueConfigurationError
  end.

Section Jobs.
Context {W Ctx : Type}.

(** A job object: its type and its [handle]. *)
Record job_instance := mk_job { ji_type : nat; ji_handle : Ctx → io W unit }.
Abbreviation JobDecoder := (pybytes → result exn job_instance).
Record JobCodec := mk_codec { jc_encode : job_instance → result exn pybytes; jc_decode : JobDecoder }.

Inductive codec_attribute := NoCodec | GivenCodec (c : JobCodec) | BadCodec.

(** The class attributes; [None] stands for a value of another type. *)
Record job_class := mk_class {
  k_id : nat;
  k_is_job : bool;                                    (* issubclass(…, QueueJob) *)
  k_abstract : bool;
  k_module : pystr; k_qualname : pystr;
  k_reference : pyval;
  k_legacy_references : pyval;
  k_version : pyval;
  k_policy : option JobPolicy;
  k_codec : codec_attribute;
  k_json_codec : result exn JobCodec;                 (* JsonJobCodec(job_type) *)
  k_legacy_decoders : option (list (pyval * option JobDecoder));
}.

Record JobDescriptor := mk_descriptor {
  jd_reference : pystr;
  jd_legacy_references : list pystr;
  jd_version : Z;
  jd_job_type : nat;
  jd_codec : JobCodec;
  jd_legacy_decoders : list (Z * JobDecoder);
  jd_policy : JobPolicy;
}.

Record EncodedJob := mk_encoded { ej_job_type : pystr; ej_version : Z; ej_payload : pybytes }.

Definition descriptor_encode (d : JobDescriptor) (job : job_instance) : result exn EncodedJob :=
  let? _ := guard (bool_decide (ji_type job = jd_job_type d)) TypeError in
  let? payload := jc_encode (jd_codec d) job in
  Ok (mk_encoded (jd_reference d) (jd_version d) payload).

Fixpoint zdict_get {V} (d : list (Z * V)) (k : Z) : option V :=
  match d with
  | [] => None
  | (k', v) :: d => if (k' =? k)%Z then Some v else zdict_get d k
  end.

Definition decoder_for (d : JobDescriptor) (version : pyval) : result exn JobDecoder :=
  match is_int version with
  | None => Err UnsupportedJobVersionError
  | Some v =>
      if (v <? 1)%Z then Err UnsupportedJobVersionError
      else if (v =? jd_version d)%Z then Ok (jc_decode (jd_codec d))
      else match zdict_get (jd_legacy_decoders d) v with
           | Some decoder => Ok decoder
           | None => Err UnsupportedJobVersionError
           end
  end.

(** [sub in s] *)
Fixpoint contains (sub s : pystr) : bool :=
  startswith sub s || match s with [] => false | _ :: s => contains sub s end.

Definition job_type_path (k : job_class) : result exn pystr :=
  let module := py_strip (k_module k) in
  let qualified_name := py_strip (k_qualname k) in
  if bool_decide (module = []) || bool_decide (qualified_name = []) || contains (u "<locals>") qualified_name
  then Err QueueConfigurationError
  else validate_job_reference (VStr (module ++ u ":" ++ qualified_name)).

Definition job_reference (k : job_class) : result exn pystr :=
  let? default_reference := job_type_path k in
  match k_reference k with
  | VNone => Ok default_reference
  | configured => validate_job_reference configured
  end.

Definition validate_legacy_references (k : job_class) (reference : pystr) : result exn (list pystr) :=
  match k_legacy_references k with
  | VTuple configured =>
      let? legacy := map_result validate_job_reference configured in
      if bool_decide (reference ∈ legacy) || negb (bool_decide (NoDup legacy)) then Err QueueConfigurationError
      else Ok legacy
  | _ => Err QueueConfigurationError
  end.

(** The loop over the configured decoders; a later equal key replaces. *)
Definition zdict_set {V} (d : list (Z * V)) (k : Z) (v : V) : list (Z * V) :=
  if bool_decide (is_Some (zdict_get d k))
  then map (λ kv, if (kv.1 =? k)%Z then (k, v) else kv) d
  else d ++ [(k, v)].
Fixpoint collect_decoders (version : Z) (l : list (pyval * option JobDecoder)) (acc : list (Z * JobDecoder))
    : result exn (list (Z * JobDecoder)) :=
  match l with
  | [] => Ok acc
  | (legacy_version, decoder) :: l =>
      match is_int legacy_version with
      | None => Err QueueConfigurationError
      | Some v =>
          if negb ((1 <=? v) && (v <? version))%Z then Err QueueConfigurationError
          else match decoder with
               | None => Err QueueConfigurationError
               | Some dec => collect_decoders version l (zdict_set acc v dec)
               end
      end
  end.

Definition describe_job (k : job_class) : result exn JobDescriptor :=
  let? _ := guard (k_is_job k) QueueConfigurationError in
  let? _ := guard (negb (k_abstract k)) QueueConfigurationError in
  let? reference := job_reference k in
  let? legacy_references := validate_legacy_references k reference in
  match is_int (k_version k) with
  | None => Err QueueConfigurationError
  | Some version =>
      let? _ := guard (1 <=? version)%Z QueueConfigurationError in
      match k_policy k with
      | None => Err QueueConfigurationError
      | Some policy =>
          let? codec := match k_codec k with
                        | NoCodec => k_json_codec k
                        | GivenCodec c => Ok c
                        | BadCodec => Err QueueConfigurationError
                        end in
          match k_legacy_decoders k with
          | None => Err QueueConfigurationError
          | Some configured =>
              let? decoders := collect_decoders version configured [] in
              Ok (mk_descriptor reference legacy_references version (k_id k) codec decoders policy)
          end
      end
  end.

(** [encode_job(job)], with the class of the object. *)
Definition encode_job (k : job_class) (job : job_instance) : result exn EncodedJob :=
  let? _ := guard (k_is_job k) QueueConfigurationError in
  let? d := describe_job k in
  descriptor_encode d job.

(** ** JobBinding *)
Record JobBinding := mk_binding { jb_descriptor : JobDescriptor; jb_decoder : JobDecoder }.
Definition binding_policy (b : JobBinding) : JobPolicy := jd_policy (jb_descriptor b).

(** How the decoder's exceptions are classified. *)
Definition decoder_failure (e : exn) : exn :=
  match e with
  | JobDecodeError => JobDecodeError
  | InvalidMessageError | ValidationError => JobDecodeError
  | e => if is_exception e then JobDefinitionError else e
  end.
Definition binding_execute (b : JobBinding) (payload : pybytes) (context : Ctx) : io W unit :=
  match jb_decoder b payload with
  | Err e => raise (decoder_failure e)
  | Ok job =>
      if negb (bool_decide (ji_type job = jd_job_type (jb_descriptor b))) then raise JobDefinitionError
      else ji_handle job context
  end.

(** ** JobResolver *)
Record JobResolver := mk_resolver {
  jr_descriptors : list JobDescriptor;
  jr_bindings : list ((pystr * Z) * JobBinding);
  jr_references : list pystr;
}.

Definition references_of (d : JobDescriptor) : list pystr := jd_reference d :: jd_legacy_references d.
Definition versions_of (d : JobDescriptor) : list Z := jd_version d :: map fst (jd_legacy_decoders d).

(** Each reference of a job must be new. *)
Fixpoint add_references (d : JobDescriptor) (refs : list pystr) (known : pydict JobDescriptor)
    : result exn (pydict JobDescriptor) :=
  match refs with
  | [] => Ok known
  | r :: refs =>
      let? _ := guard (negb (bool_decide (r ∈ dict_keys known))) QueueConfigurationError in
      add_references d refs (dict_set known r d)
  end.

Fixpoint bdict_get (d : list ((pystr * Z) * JobBinding)) (k : pystr * Z) : option JobBinding :=
  match d with
  | [] => None
  | (k', b) :: d => if decide (k' = k) then Some b else bdict_get d k
  end.
(** Assignments to [bindings]: the latest entry of a key counts. *)
Fixpoint bind_versions (d : JobDescriptor) (r : pystr) (vs : list Z) (bindings : list ((pystr * Z) * JobBinding))
    : result exn (list ((pystr * Z) * JobBinding)) :=
  match vs with
  | [] => Ok bindings
  | v :: vs =>
      let? decoder := decoder_for d (VInt v) in
      bind_versions d r vs (((r, v), mk_binding d decoder) :: bindings)
  end.
Fixpoint bind_references (d : JobDescriptor) (refs : list pystr) (bindings : list ((pystr * Z) * JobBinding))
    : result exn (list ((pystr * Z) * JobBinding)) :=
  match refs with
  | [] => Ok bindings
  | r :: refs => let? bindings := bind_versions d r (versions_of d) bindings in bind_references d refs bindings
  end.

Fixpoint resolve_types (types : list job_class) (known : pydict JobDescriptor)
    (bindings : list ((pystr * Z) * JobBinding)) (descriptors : list JobDescriptor)
    : result exn (pydict JobDescriptor * list ((pystr * Z) * JobBinding) * list JobDescriptor) :=
  match types with
  | [] => Ok (known, bindings, descriptors)
  | k :: types =>
      let? d := match describe_job k with
                | Ok d => Ok d
                | Err e => Err (if is_exception e then QueueConfigurationError else e)
                end in
      let? known := add_references d (references_of d) known in
      let? bindings := bind_references d (references_of d) bindings in
      resolve_types types known bindings (descriptors ++ [d])
  end.

(** [list.sort(key=…)]: stable. *)
Fixpoint insert_sorted (d : JobDescriptor) (l : list JobDescriptor) : list JobDescriptor :=
  match l with
  | [] => [d]
  | x :: l => if text_leb (jd_reference d) (jd_reference x) then d :: x :: l else x :: insert_sorted d l
  end.
Definition sort_descriptors (l : list JobDescriptor) : list JobDescriptor := foldr insert_sorted [] l.

Definition JobResolver_new (types : list job_class) : result exn JobResolver :=
  let? r := resolve_types types [] [] [] in
  let '(known, bindings, descriptors) := r in
  Ok (mk_resolver (sort_descriptors descriptors) bindings (dict_keys known)).

Definition resolve (r : JobResolver) (reference : pystr) (version : pyval) : result exn JobBinding :=
  let? _ := guard (bool_decide (reference ∈ jr_references r)) UnknownJobError in
  match is_int version with
  | None => Err UnsupportedJobVersionError
  | Some v =>
      let? _ := guard (1 <=? v)%Z UnsupportedJobVersionError in
      match bdict_get (jr_bindings r) (reference, v) with
      | Some b => Ok b
      | None => Err UnsupportedJobVersionError
      end
  end.
End Jobs.
#[global] Arguments references_of : simpl never.
Arguments job_instance : clear implicits.
Arguments job_class : clear implicits.
Arguments JobDescriptor : clear implicits.
Arguments JobBinding : clear implicits.
Arguments JobResolver : clear implicits.
Arguments JobCodec : clear implicits.

(** ** Lemmas *)

Lemma map_result_Forall {E A B} (f : A → result E B) (P : B → Prop) l bs :
  (∀ a b, f a = Ok b → P b) → map_result f l = Ok bs → Forall P bs.
Proof.
  intros Hf. revert bs. induction l as [| a l IH]; simpl; intros bs Hb; [by injection Hb as <- |].
  rewrite result_bind_ok in Hb. destruct Hb as (b & Hb & Hr). rewrite result_bind_ok in Hr.
  destruct Hr as (bs' & Hbs & [= <-]). constructor; eauto.
Qed.


Section JobLemmas.
Context {W Ctx : Type}.
Implicit Types d : JobDescriptor W Ctx.

Lemma validate_job_reference_ok v s : validate_job_reference v = Ok s →
  v = VStr s ∧ fullmatch reference_pattern s = true.
Proof. unfold validate_job_reference. destruct v; try done. simpl. case_bool; naive_solver. Qed.

Lemma job_reference_ok (k : job_class W Ctx) s : job_reference k = Ok s → fullmatch reference_pattern s = true.
Proof.
  unfold job_reference. rewrite result_bind_ok. intros (r & Hr & Hs).
  destruct (k_reference k); try by apply validate_job_reference_ok in Hs as [_ ?].
  injection Hs as <-. unfold job_type_path in Hr. case_bool; [done |]. by apply validate_job_reference_ok in Hr as [_ ?].
Qed.

Lemma map_validate_ok l refs : map_result validate_job_reference l = Ok refs →
  Forall (λ s, fullmatch reference_pattern s = true) refs.
Proof. apply map_result_Forall. intros v s Hs. by apply validate_job_reference_ok in Hs as [_ ?]. Qed.

Lemma zdict_get_map {V} (l : list (Z * V)) k v k' : is_Some (zdict_get l k) →
  zdict_get (map (λ kv, if (kv.1 =? k)%Z then (k, v) else kv) l) k' = if (k =? k')%Z then Some v else zdict_get l k'.
Proof.
  induction l as [| [k0 v0] l IH]; simpl; [by intros [? ?] |]. intros Hk.
  destruct (k0 =? k)%Z eqn:H0; to_prop; simpl.
  - subst k0. destruct (k =? k')%Z eqn:H1; to_prop; [done |].
    destruct (zdict_get l k) eqn:Hl; [by rewrite IH by done |].
    clear IH Hk. induction l as [| [k1 v2] l IH]; [done |]. simpl in *.
    destruct (k1 =? k)%Z eqn:H2; to_prop; [done |]. simpl. case_bool; [done | by apply IH].
  - destruct (k0 =? k')%Z eqn:H1; to_prop; [subst; by rewrite (proj2 (Z.eqb_neq k k')) by done |]. by apply IH.
Qed.

Lemma zdict_get_set {V} (l : list (Z * V)) k v k' :
  zdict_get (zdict_set l k v) k' = if (k =? k')%Z then Some v else zdict_get l k'.
Proof.
  unfold zdict_set. case_bool_decide as Hk; [by apply zdict_get_map |].
  assert (Hn : zdict_get l k = None) by (destruct (zdict_get l k); [by destruct Hk | done]). clear Hk.
  induction l as [| [k0 v0] l IH]; simpl in *; [done |].
  destruct (k0 =? k)%Z eqn:H0; to_prop; [done |]. destruct (k0 =? k')%Z eqn:H1; to_prop; [| by apply IH].
  subst. by rewrite (proj2 (Z.eqb_neq _ _)) by done.
Qed.

Lemma zdict_get_keys {V} (l : list (Z * V)) k : is_Some (zdict_get l k) ↔ k ∈ map fst l.
Proof.
  induction l as [| [k0 v0] l IH]; simpl; [split; [by intros [] | set_solver] |].
  destruct (k0 =? k)%Z eqn:H0; to_prop; [subst; split; [set_solver | eauto] |]. rewrite IH. set_solver.
Qed.

Lemma collect_decoders_ok version (l : list (pyval * option (pybytes → result exn (job_instance W Ctx)))) acc ds :
  collect_decoders version l acc = Ok ds →
  (∀ v, is_Some (zdict_get acc v) → 1 ≤ v < version)%Z → (∀ v, is_Some (zdict_get ds v) → 1 ≤ v < version)%Z.
Proof.
  revert acc. induction l as [| [lv dec] l IH]; simpl; intros acc Hc Hacc; [by injection Hc as <- |].
  destruct (is_int lv) as [v |]; [| done]. case_bool; [done |]. to_prop. destruct dec as [dec |]; [| done].
  apply (IH _ Hc). intros v'. rewrite zdict_get_set. case_bool; to_prop; [| apply Hacc]. intros _. subst.
  destruct_and?. to_prop. lia.
Qed.

(** What a described job type satisfies. *)
Record described d : Prop := {
  ds_reference : Forall (λ s, fullmatch reference_pattern s = true) (references_of d);
  ds_distinct : NoDup (references_of d);
  ds_version : (1 ≤ jd_version d)%Z;
  ds_legacy : ∀ v, is_Some (zdict_get (jd_legacy_decoders d) v) → (1 ≤ v < jd_version d)%Z;
}.

Lemma describe_job_ok (k : job_class W Ctx) d : describe_job k = Ok d → described d.
Proof.
  unfold describe_job. rewrite !guard_bind_ok, result_bind_ok. intros (_ & _ & ref & Href & Hd).
  rewrite result_bind_ok in Hd. destruct Hd as (legacy & Hleg & Hd).
  destruct (is_int (k_version k)) as [version |]; [| done]. rewrite guard_bind_ok in Hd. destruct Hd as [Hv Hd].
  destruct (k_policy k) as [policy |]; [| done]. rewrite result_bind_ok in Hd. destruct Hd as (codec & _ & Hd).
  destruct (k_legacy_decoders k) as [configured |]; [| done]. rewrite result_bind_ok in Hd.
  destruct Hd as (decs & Hdecs & [= <-]). to_prop. unfold validate_legacy_references in Hleg.
  destruct (k_legacy_references k) as [| | | | | | | l | |]; try done. rewrite result_bind_ok in Hleg.
  destruct Hleg as (legacy' & Hmap & Hleg). case_bool; [done |]. injection Hleg as <-. to_prop.
  split; simpl; [| | done |].
  - constructor; [by eapply job_reference_ok | by eapply map_validate_ok].
  - by constructor.
  - eapply collect_decoders_ok; [done |]. by intros v [].
Qed.

Lemma decoder_for_ok d v : described d → is_ok (decoder_for d (VInt v)) = true ↔ v ∈ versions_of d.
Proof.
  intros Hd. unfold decoder_for, versions_of. simpl. rewrite elem_of_cons, <- zdict_get_keys.
  pose proof (ds_version d Hd). pose proof (ds_legacy d Hd v) as Hl.
  destruct (v <? 1)%Z eqn:H1; to_prop; [split; [done |]; intros [-> | Hs]; [lia | apply Hl in Hs; lia] |].
  destruct (v =? _)%Z eqn:H2; to_prop; [by split; [left |] |].
  destruct (zdict_get _ v) eqn:Hz; simpl; [by split; [right |] | split; [done | intros [? | [? ?]]; done]].
Qed.

(** *** The directory *)

Definition directory_lookup (ds : list (JobDescriptor W Ctx)) (reference : pystr) : option (JobDescriptor W Ctx) :=
  List.find (λ d, bool_decide (reference ∈ references_of d)) ds.
Definition binding_of (od : option (JobDescriptor W Ctx)) (v : Z) : option (JobBinding W Ctx) :=
  d ← od; match decoder_for d (VInt v) with Ok dec => Some (mk_binding d dec) | Err _ => None end.
Definition all_references (ds : list (JobDescriptor W Ctx)) : list pystr := concat (map references_of ds).

Lemma directory_app ds d r : r ∉ all_references ds ∨ r ∉ references_of d →
  directory_lookup (ds ++ [d]) r =
    if bool_decide (r ∈ references_of d) then Some d else directory_lookup ds r.
Proof.
  unfold directory_lookup, all_references. induction ds as [| d0 ds IH]; [by intros _; simpl; case_bool_decide |]; cbn [List.find concat map app]; intros Hr.
  rewrite elem_of_app in Hr. destruct (decide (r ∈ references_of d0)) as [Hin | Hout].
  - rewrite (bool_decide_true (r ∈ references_of d0)) by done. rewrite bool_decide_false; [done |]. naive_solver.
  - rewrite (bool_decide_false (r ∈ references_of d0)) by done. apply IH. naive_solver.
Qed.

Lemma add_references_ok d refs known known' :
  add_references d refs known = Ok known' → dict_keys known' = dict_keys known ++ refs ∧
    (NoDup (dict_keys known) → NoDup (dict_keys known ++ refs)).
Proof.
  revert known. induction refs as [| r refs IH]; simpl; intros known Ha; [injection Ha as <-; by rewrite app_nil_r |].
  rewrite guard_bind_ok in Ha. destruct Ha as [Hn Ha]. to_prop. apply IH in Ha as [Hk Hnd]. revert Hk Hnd.
  unfold dict_set. rewrite bool_decide_false by done. unfold dict_keys. rewrite map_app, <- app_assoc. simpl.
  intros Hk Hnd. split; [done |]. intros Hd. replace (map fst known ++ r :: refs) with ((map fst known ++ [r]) ++ refs) by by rewrite <- app_assoc.
  rewrite <- app_assoc. apply Hnd. apply list.NoDup_app. split_and!; [done | set_solver | by apply list.NoDup_singleton].
Qed.

Lemma add_references_new d refs known :
  NoDup (dict_keys known ++ refs) → is_ok (add_references d refs known) = true.
Proof.
  revert known. induction refs as [| r refs IH]; simpl; intros known Hnd; [done |].
  assert (Hr : r ∉ dict_keys known) by (intros Hin; apply list.NoDup_app in Hnd as (_ & Hd & _); apply (Hd r Hin); set_solver).
  rewrite bool_decide_false by done. simpl. apply IH. unfold dict_set. rewrite bool_decide_false by done.
  unfold dict_keys. rewrite map_app, <- app_assoc. done.
Qed.

Lemma bind_versions_ok d r vs bindings bindings' :
  bind_versions d r vs bindings = Ok bindings' → ∀ r' v,
  bdict_get bindings' (r', v) =
    if bool_decide (r' = r ∧ v ∈ vs) then binding_of (Some d) v else bdict_get bindings (r', v).
Proof.
  revert bindings. induction vs as [| v0 vs IH]; intros bindings Hb r' v.
  - injection Hb as <-. rewrite bool_decide_false; [done |]. set_solver.
  - cbn [bind_versions] in Hb. rewrite result_bind_ok in Hb. destruct Hb as (dec & Hdec & Hb).
    rewrite (IH _ Hb). cbn [bdict_get]. destruct (decide ((r, v0) = (r', v))) as [[= <- <-] | Hne].
    + rewrite (bool_decide_true (r = r ∧ v0 ∈ v0 :: vs)) by set_solver. simpl. rewrite Hdec. by case_bool_decide.
    + rewrite (bool_decide_ext (r' = r ∧ v ∈ v0 :: vs) (r' = r ∧ v ∈ vs)); [done |]. set_solver.
Qed.

Lemma bind_references_ok d refs bindings bindings' : described d →
  bind_references d refs bindings = Ok bindings' → ∀ r v,
  bdict_get bindings' (r, v) =
    if bool_decide (r ∈ refs) then
      match binding_of (Some d) v with Some b => Some b | None => bdict_get bindings (r, v) end
    else bdict_get bindings (r, v).
Proof.
  intros Hd. revert bindings. induction refs as [| r0 refs IH]; intros bindings Hb r v; [by injection Hb as <- |].
  cbn [bind_references] in Hb. rewrite result_bind_ok in Hb. destruct Hb as (bs & Hbs & Hb). rewrite (IH _ Hb).
  rewrite (bind_versions_ok _ _ _ _ _ Hbs). pose proof (decoder_for_ok d v Hd) as Hdec.
  destruct (decide (r = r0)) as [-> | Hne].
  - rewrite (bool_decide_true (r0 ∈ r0 :: refs)) by set_solver. cbn [binding_of mbind option_bind].
    destruct (decide (v ∈ versions_of d)) as [Hin | Hout].
    + rewrite (bool_decide_true (r0 = r0 ∧ _)) by done. apply Hdec in Hin.
      destruct (decoder_for d (VInt v)); [by case_bool_decide | done].
    + rewrite (bool_decide_false (r0 = r0 ∧ _)) by naive_solver.
      destruct (decoder_for d (VInt v)); [by destruct Hout; apply Hdec | by case_bool_decide].
  - rewrite (bool_decide_false (r = r0 ∧ _)) by naive_solver.
    rewrite (bool_decide_ext (r ∈ r0 :: refs) (r ∈ refs)); [done |]. set_solver.
Qed.

Lemma bind_references_total d refs bindings : described d → is_ok (bind_references d refs bindings) = true.
Proof.
  intros Hd. revert bindings. induction refs as [| r refs IH]; intros bindings; [done |]. cbn [bind_references].
  assert (Hv : ∀ vs bs, vs ⊆ versions_of d → is_ok (bind_versions d r vs bs) = true).
  { induction vs as [| v vs IHv]; intros bs Hsub; [done |]. cbn [bind_versions].
    assert (Hin : v ∈ versions_of d) by set_solver. apply (decoder_for_ok d v Hd) in Hin.
    destruct (decoder_for d (VInt v)) as [dec |]; [| done]. apply IHv. set_solver. }
  specialize (Hv (versions_of d) bindings (reflexivity _)). destruct (bind_versions _ _ _ _) as [bs |]; [apply IH | done].
Qed.

(** The state of the loop after the descriptions [ds]. *)
Record directory_inv (ds : list (JobDescriptor W Ctx)) (known : pydict (JobDescriptor W Ctx))
    (bindings : list ((pystr * Z) * JobBinding W Ctx)) : Prop := {
  di_known : dict_keys known = all_references ds;
  di_distinct : NoDup (all_references ds);
  di_bindings : ∀ r v, bdict_get bindings (r, v) = binding_of (directory_lookup ds r) v;
}.

Lemma directory_step ds known bindings d known' bindings' : described d → directory_inv ds known bindings →
  add_references d (references_of d) known = Ok known' →
  bind_references d (references_of d) bindings = Ok bindings' →
  directory_inv (ds ++ [d]) known' bindings'.
Proof.
  intros Hd [Hk Hnd Hb] Ha Hbind. apply add_references_ok in Ha as [Hk' Hnd'].
  assert (Hall : all_references (ds ++ [d]) = all_references ds ++ references_of d).
  { unfold all_references. rewrite map_app, concat_app. cbn [map concat]. by rewrite app_nil_r. }
  rewrite Hk in Hk', Hnd'. split; [by rewrite Hall | rewrite Hall; auto |].
  intros r v. rewrite (bind_references_ok _ _ _ _ Hd Hbind), Hb.
  assert (Hdis : r ∉ all_references ds ∨ r ∉ references_of d).
  { destruct (decide (r ∈ references_of d)) as [Hin | ?]; [left | by right]. intros Hin'.
    specialize (Hnd' Hnd). apply list.NoDup_app in Hnd' as (_ & Hdis & _). by apply (Hdis r). }
  rewrite directory_app by done. case_bool_decide as Hin; [| done].
  destruct (binding_of (Some d) v) eqn:Hv; [done |].
  destruct Hdis as [Hout | ?]; [| done]. unfold directory_lookup.
  destruct (List.find _ ds) as [d' |] eqn:Hf; [| done]. apply List.find_some in Hf as [Hd' Hr]. to_prop.
  destruct Hout. unfold all_references. apply list_elem_of_In, in_concat. exists (references_of d').
  split; [by apply in_map | by apply list_elem_of_In].
Qed.

Lemma resolve_types_ok types ds0 known bindings known' bindings' ds :
  directory_inv ds0 known bindings → resolve_types types known bindings ds0 = Ok (known', bindings', ds) →
  directory_inv ds known' bindings' ∧ ∃ ds1, ds = ds0 ++ ds1 ∧ map_result describe_job types = Ok ds1.
Proof.
  revert ds0 known bindings. induction types as [| k types IH]; intros ds0 known bindings Hi Hr.
  - injection Hr as <- <- <-. split; [done |]. exists []. by rewrite app_nil_r.
  - cbn [resolve_types] in Hr. destruct (describe_job k) as [d | e] eqn:Hd; [| by destruct (is_exception e)].
    cbn [result_bind] in Hr. rewrite result_bind_ok in Hr. destruct Hr as (known1 & Ha & Hr).
    rewrite result_bind_ok in Hr. destruct Hr as (bindings1 & Hb & Hr).
    pose proof (directory_step _ _ _ _ _ _ (describe_job_ok _ _ Hd) Hi Ha Hb) as Hi1.
    destruct (IH _ _ _ Hi1 Hr) as [Hi2 (ds1 & -> & Hds)]. split; [done |]. exists (d :: ds1).
    split; [by rewrite <- app_assoc |]. cbn [map_result]. rewrite Hd. cbn [result_bind]. by rewrite Hds.
Qed.

Lemma resolve_types_total types ds0 known bindings ds1 :
  directory_inv ds0 known bindings → map_result describe_job types = Ok ds1 → NoDup (all_references (ds0 ++ ds1)) →
  is_ok (resolve_types types known bindings ds0) = true.
Proof.
  revert ds0 known bindings ds1. induction types as [| k types IH]; intros ds0 known bindings ds1 Hi Hm Hnd; [done |].
  cbn [map_result] in Hm. rewrite result_bind_ok in Hm. destruct Hm as (d & Hd & Hm).
  rewrite result_bind_ok in Hm. destruct Hm as (ds2 & Hds2 & [= <-]). cbn [resolve_types]. rewrite Hd. cbn [result_bind].
  replace (ds0 ++ d :: ds2) with ((ds0 ++ [d]) ++ ds2) in Hnd by by rewrite <- app_assoc.
  assert (Ha : is_ok (add_references d (references_of d) known) = true).
  { apply add_references_new. rewrite (di_known _ _ _ Hi). unfold all_references in *.
    rewrite !map_app, !concat_app in Hnd. cbn [map concat] in Hnd. rewrite app_nil_r in Hnd.
    by apply list.NoDup_app in Hnd as (? & _ & _). }
  destruct (add_references _ _ known) as [known1 |] eqn:Hadd; [| done]. cbn [result_bind].
  pose proof (bind_references_total d (references_of d) bindings (describe_job_ok _ _ Hd)) as Hb.
  destruct (bind_references _ _ bindings) as [bindings1 |] eqn:Hbind; [| done]. cbn [result_bind].
  eapply IH; [| done | done]. by eapply directory_step; [eapply describe_job_ok | ..].
Qed.

Lemma sort_descriptors_elem d (l : list (JobDescriptor W Ctx)) : d ∈ sort_descriptors l ↔ d ∈ l.
Proof.
  assert (Hi : ∀ x l, d ∈ insert_sorted x l ↔ d = x ∨ d ∈ l).
  { intros x. induction l0 as [| y l0 IH]; simpl; [set_solver |]. case_bool; set_solver. }
  induction l as [| x l IH]; simpl; [done |]. rewrite Hi, IH. set_solver.
Qed.

(** The lookups of [resolve] in the two tables of a built directory. *)
Lemma resolve_lookup ds (r : JobResolver W Ctx) reference v :
  Forall described ds → jr_references r = all_references ds →
  (∀ ref v, bdict_get (jr_bindings r) (ref, v) = binding_of (directory_lookup ds ref) v) →
  resolve r reference (VInt v) =
    match directory_lookup ds reference with
    | None => Err UnknownJobError
    | Some d => match decoder_for d (VInt v) with Ok decoder => Ok (mk_binding d decoder) | Err e => Err e end
    end.
Proof.
  intros Hds Href Hb. unfold resolve. cbn [is_int]. rewrite Href, (Hb reference v). unfold directory_lookup.
  destruct (List.find _ ds) as [d |] eqn:Hf.
  - apply List.find_some in Hf as [Hd Hr]. to_prop. rewrite bool_decide_true.
    + cbn [result_bind guard binding_of mbind option_bind]. unfold decoder_for. cbn [is_int].
      destruct (v <? 1)%Z eqn:Hv; to_prop.
      * by rewrite (proj2 (Z.leb_gt 1 v)).
      * rewrite (proj2 (Z.leb_le 1 v)) by done. cbn [guard result_bind].
        destruct (v =? jd_version d)%Z; [done |]. by destruct (zdict_get (jd_legacy_decoders d) v).
    + unfold all_references. apply list_elem_of_In, in_concat. exists (references_of d).
      split; [by apply in_map | by apply list_elem_of_In].
  - rewrite bool_decide_false; [done |]. unfold all_references. intros Hin%list_elem_of_In.
    apply in_concat in Hin as (l & (d & <- & Hd)%in_map_iff & Hr). pose proof (List.find_none _ _ Hf _ Hd) as Hn.
    apply list_elem_of_In in Hr. by apply bool_decide_eq_false in Hn.
Qed.
End JobLemmas.

(** ** Properties *)

(** The description of a job type is consistent: its references are legal
    message identifiers and pairwise distinct, and a message version can be
    decoded exactly when it is the current version or a declared older one, all
    of which lie between 1 and the current one. *)
Theorem describe_job_sound {W Ctx} (k : job_class W Ctx) d : describe_job k = Ok d →
  Forall (λ s, matches reference_pattern s) (references_of d) ∧ NoDup (references_of d) ∧
  Forall (λ v, 1 ≤ v ≤ jd_version d)%Z (versions_of d) ∧
  ∀ v, (∃ dec, decoder_for d (VInt v) = Ok dec) ↔ v ∈ versions_of d.
Proof.
  intros Hd%describe_job_ok. pose proof Hd as [Hr Hnd Hv Hl]. split_and!; [| done | |].
  - eapply Forall_impl; [| exact Hr]. intros s. apply fullmatch_spec.
  - unfold versions_of. constructor; [lia |]. apply Forall_forall. intros v Hin%list_elem_of_In%zdict_get_keys%Hl. lia.
  - intros v. rewrite <- (decoder_for_ok d v Hd). destruct (decoder_for d (VInt v)); simpl; naive_solver.
Qed.

(** The worker's directory is exact.  It is built when every type has a
    consistent description and no two types share a reference, current or old;
    it then resolves a reference and version to the one type that declares the
    reference, with the decoder of that version, and tells unknown references
    from unsupported versions. *)
Theorem job_resolver_exact {W Ctx} (types : list (job_class W Ctx)) :
  ((∃ r, JobResolver_new types = Ok r) ↔
     ∃ ds, map_result describe_job types = Ok ds ∧ NoDup (all_references ds)) ∧
  ∀ r, JobResolver_new types = Ok r → ∃ ds, map_result describe_job types = Ok ds ∧
    (∀ d, d ∈ jr_descriptors r ↔ d ∈ ds) ∧
    ∀ reference v, resolve r reference (VInt v) =
      match directory_lookup ds reference with
      | None => Err UnknownJobError
      | Some d => match decoder_for d (VInt v) with
                  | Ok decoder => Ok (mk_binding d decoder)
                  | Err e => Err e
                  end
      end.
Proof.
  assert (H0 : @directory_inv W Ctx [] [] []) by by split; [| constructor |].
  unfold JobResolver_new. split; [split |].
  - intros [r Hr]. rewrite result_bind_ok in Hr. destruct Hr as ([[known bs] ds] & Hr & _).
    apply (resolve_types_ok _ _ _ _ _ _ _ H0) in Hr as [[_ Hnd _] (ds1 & -> & Hm)]. by exists ds1.
  - intros (ds & Hm & Hnd). pose proof (resolve_types_total types [] [] [] ds H0 Hm Hnd) as Ht.
    destruct (resolve_types _ _ _ _) as [[[known bs] ds'] |]; [by eexists | done].
  - intros r Hr. rewrite result_bind_ok in Hr. destruct Hr as ([[known bs] ds] & Hr & [= <-]).
    apply (resolve_types_ok _ _ _ _ _ _ _ H0) in Hr as [[Hk Hnd Hb] (ds1 & -> & Hm)]. exists ds1.
    split_and!; [done | intros d; apply sort_descriptors_elem |]. intros reference v. apply (resolve_lookup ds1); auto.
    eapply map_result_Forall; [apply describe_job_ok | done].
Qed.

(** ** Witnesses *)

Definition demo_codec (id : nat) : JobCodec unit unit :=
  mk_codec (λ _, Ok []) (λ _, Ok (mk_job id (λ _, ret tt))).
(** The clean-up job of the user context, with an old version and an old name. *)
Definition demo_job : job_class unit unit :=
  mk_class 1 true false (u "app.contexts.user.jobs.cleanup") (u "CleanupExpiredSessions")
    (VStr (u "user.cleanup-expired-sessions")) (VTuple [VStr (u "sessions.cleanup")]) (VInt 2) (Some default_policy)
    NoCodec (Ok (demo_codec 1)) (Some [(VInt 1, Some (jc_decode (demo_codec 1)))]).
Definition demo_descriptor : JobDescriptor unit unit :=
  mk_descriptor (u "user.cleanup-expired-sessions") [u "sessions.cleanup"] 2 1 (demo_codec 1)
    [(1%Z, jc_decode (demo_codec 1))] default_policy.

Lemma describe_job_sound_witness :
  describe_job demo_job = Ok demo_descriptor ∧
  Forall (λ s, matches reference_pattern s) (references_of demo_descriptor) ∧ NoDup (references_of demo_descriptor) ∧
  Forall (λ v, 1 ≤ v ≤ jd_version demo_descriptor)%Z (versions_of demo_descriptor) ∧
  ∀ v, (∃ dec, decoder_for demo_descriptor (VInt v) = Ok dec) ↔ v ∈ versions_of demo_descriptor.
Proof. split; [by vm_compute |]. apply (describe_job_sound demo_job). by vm_compute. Defined.

Lemma job_resolver_exact_witness :
  (∃ r, JobResolver_new [demo_job] = Ok r) ∧
  ∃ r, JobResolver_new [demo_job] = Ok r ∧
    resolve r (u "sessions.cleanup") (VInt 1) = Ok (mk_binding demo_descriptor (jc_decode (demo_codec 1))) ∧
    resolve r (u "sessions.cleanup") (VInt 3) = Err UnsupportedJobVersionError.
Proof.
  destruct (job_resolver_exact [demo_job]) as [[_ Hnew] Hr].
  assert (Hds : map_result describe_job [demo_job] = Ok [demo_descriptor]) by by vm_compute.
  assert (Hnd : NoDup (all_references [demo_descriptor])) 
    by (apply (proj1 (bool_decide_eq_true (NoDup (all_references [demo_descriptor])))); vm_compute; reflexivity).
  destruct (Hnew (ex_intro _ [demo_descriptor] (conj Hds Hnd))) as [r Hn].
  split; [by exists r |]. exists r. split; [done |]. destruct (Hr r Hn) as (ds & Hm & _ & Hres).
  rewrite Hds in Hm. injection Hm as <-. rewrite !Hres. split; vm_compute; reflexivity.
Defined.
