(* ===== verification/QueueMessage.v ===== *)
(** * QueueMessage: envelopes, Base64 and queue names

    Models [infrastructure/queue/contracts/message.py], [codecs/envelope_json.py]
    and the name checks of [config/queue.py].  Base64 is written out; the JSON
    text of an envelope is the class [EnvelopeJson] (pydantic and [json]). *)

From S2P Require Import Prelude Text Errors PyVal.
Local Open Scope prog_scope.

(** ** Base64 *)

Definition b64_char (v : N) : N :=
  if (v <? 26)%N then (65 + v)%N else if (v <? 52)%N then (71 + v)%N
  else if (v <? 62)%N then (v - 4)%N else if (v =? 62)%N then 43%N else 47%N.
Definition b64_value (c : N) : option N :=
  if is_upper_az c then Some (c - 65)%N else if is_lower_az c then Some (c - 71)%N
  else if is_09 c then Some (c + 4)%N else if (c =? 43)%N then Some 62%N
  else if (c =? 47)%N then Some 63%N else None.
Definition b64_pad : N := 61.

(** [base64.b64encode(b).decode("ascii")] of the bytes' numbers. *)
Fixpoint b64_encode (l : list N) : pystr :=
  match l with
  | [] => []
  | [a] => map b64_char (to_digits 64 2 (a * 16)) ++ [b64_pad; b64_pad]
  | [a; b] => map b64_char (to_digits 64 3 (of_digits 256 [a; b] * 4)) ++ [b64_pad]
  | a :: b :: c :: rest => map b64_char (to_digits 64 4 (of_digits 256 [a; b; c])) ++ b64_encode rest
  end%N.
(** [base64.b64decode(s, validate=True)]; [None] is [binascii.Error]. *)
Fixpoint b64_decode (s : pystr) : option (list N) :=
  match s with
  | [] => Some []
  | w :: x :: y :: z :: rest =>
      if (z =? b64_pad)%N then
        match rest with
        | [] =>
            if (y =? b64_pad)%N
            then vs ← mapM b64_value [w; x]; Some (to_digits 256 1 (of_digits 64 vs / 16)%N)
            else vs ← mapM b64_value [w; x; y]; Some (to_digits 256 2 (of_digits 64 vs / 4)%N)
        | _ => None
        end
      else
        vs ← mapM b64_value [w; x; y; z]; tail ← b64_decode rest; Some (to_digits 256 3 (of_digits 64 vs) ++ tail)
  | _ => None
  end.

Definition bytes_of (l : list N) : option pybytes := mapM Byte.of_N l.
Definition b64encode (b : pybytes) : pystr := b64_encode (map byte_N b).
Definition b64decode (s : pystr) : result exn pybytes :=
  match b64_decode s ≫= bytes_of with Some b => Ok b | None => Err ValueError end.

(** ** MessageEnvelope and EnvelopeData *)

Record MessageEnvelope := mk_envelope {
  me_job_id : uuid; me_job_type : pystr; me_job_version : Z; me_payload : pybytes;
  me_enqueued_at : datetime; me_correlation_id : option pystr; me_replay_of : option uuid;
}.

Record EnvelopeData := mk_data {
  ed_schema_version : Z; ed_job_id : uuid; ed_job_type : pystr; ed_job_version : Z; ed_payload : pystr;
  ed_enqueued_at : datetime; ed_correlation_id : option pystr; ed_replay_of : option uuid;
}.
#[export] Instance envelope_data_eq_dec : EqDecision EnvelopeData.
Proof. solve_decision. Defined.

(** The constraints of the fields and the two validators. *)
Definition EnvelopeData_new (d : EnvelopeData) : result exn EnvelopeData :=
  let? _ := guard (ed_schema_version d =? 2)%Z ValidationError in
  let? _ := guard ((1 <=? len (ed_job_type d)) && (len (ed_job_type d) <=? 500))%Z ValidationError in
  let? _ := guard (negb (bool_decide (py_strip (ed_job_type d) = []))) ValidationError in
  let? _ := guard (1 <=? ed_job_version d)%Z ValidationError in
  let? _ := guard (dt_naive (ed_enqueued_at d)) ValidationError in
  let? _ := guard (match ed_correlation_id d with Some c => len c <=? 200 | None => true end)%Z ValidationError in
  Ok d.

(** The JSON libraries: the text of an envelope, its parse into typed
    fields, and [json.loads] refusing NaN and Infinity. *)
Class EnvelopeJson := {
  dump_json : EnvelopeData → result exn pybytes;
  parse_json : pybytes → result exn EnvelopeData;
  check_json : pybytes → result exn unit;
}.
Class EnvelopeJsonLaws `{EnvelopeJson} : Prop := {
  parse_dump d raw : dump_json d = Ok raw → parse_json raw = Ok d;
  parse_error raw e : parse_json raw = Err e → e = ValidationError;
  check_error raw e : check_json raw = Err e → e = ValueError ∨ e = RecursionError;
}.

Section Codec.
Context `{EnvelopeJson} (max_bytes : Z).

Definition check_size (raw : pybytes) : result exn unit :=
  guard (negb (max_bytes <? Z.of_nat (length raw))%Z) InvalidMessageError.

Definition map_error {A} (caught : exn → bool) (r : result exn A) : result exn A :=
  match r with Err e => Err (if caught e then InvalidMessageError else e) | r => r end.
Definition is_type_error (e : exn) : bool := match e with TypeError => true | _ => false end.
Definition is_recursion_error (e : exn) : bool := match e with RecursionError => true | _ => false end.

Definition envelope_encode (m : MessageEnvelope) : result exn pybytes :=
  map_error (λ e, is_value_error e || is_type_error e) (
    let? _ := check_json (me_payload m) in
    let? data := EnvelopeData_new (mk_data 2 (me_job_id m) (me_job_type m) (me_job_version m)
      (b64encode (me_payload m)) (me_enqueued_at m) (me_correlation_id m) (me_replay_of m)) in
    let? raw := dump_json data in
    let? _ := check_size raw in
    Ok raw).

Definition envelope_decode (raw : pybytes) : result exn MessageEnvelope :=
  map_error (λ e, is_value_error e || is_type_error e || is_recursion_error e) (
    let? _ := check_size raw in
    let? parsed := parse_json raw in
    let? data := EnvelopeData_new parsed in
    let? payload := b64decode (ed_payload data) in
    let? _ := check_json payload in
    Ok (mk_envelope (ed_job_id data) (ed_job_type data) (ed_job_version data) payload
      (ed_enqueued_at data) (ed_correlation_id data) (ed_replay_of data))).
End Codec.

(** ** config/queue.py: queue names and concurrency *)

(** [^[A-Za-z0-9._-]+$] *)
Definition is_queue_char (c : N) : bool := is_alnum c || (c =? 46)%N || (c =? 95)%N || (c =? 45)%N.
Definition queue_name_pattern : regex := RRep (RCls is_queue_char) 1 None.
Definition validate_queue_name (value : pyval) : result exn pystr :=
  match is_str value with
  | None => Err ValueError
  | Some s =>
      let? _ := guard (negb (bool_decide (s = []) || (200 <? len s)%Z)) ValueError in
      let? _ := guard (negb (bool_decide (s = u ".") || bool_decide (s = u "..")
                             || negb (fullmatch queue_name_pattern s))) ValueError in
      Ok s
  end.
Definition validate_worker_concurrency (value : pyval) : result exn Z :=
  match is_int value with
  | Some n => if ((1 <=? n) && (n <=? 1024))%Z then Ok n else Err ValueError
  | None => Err ValueError
  end.

(** ** Lemmas: Base64 *)

Lemma b64_value_char v : (v < 64)%N → b64_value (b64_char v) = Some v.
Proof.
  intros Hv. assert (Hall : forallb (λ n, bool_decide (b64_value (b64_char (N.of_nat n)) = Some (N.of_nat n))) (seq 0 64) = true)
    by by vm_compute.
  rewrite forallb_forall in Hall. specialize (Hall (N.to_nat v)). rewrite N2Nat.id in Hall.
  apply (proj1 (bool_decide_eq_true (b64_value (b64_char v) = Some v))), Hall, in_seq. lia.
Qed.

Lemma b64_char_not_pad v : (v < 64)%N → (b64_char v =? b64_pad)%N = false.
Proof.
  intros Hv. apply N.eqb_neq. intros Hp. pose proof (b64_value_char v Hv) as H. rewrite Hp in H. by vm_compute in H.
Qed.

Lemma mapM_b64 l : Forall (λ v, v < 64)%N l → mapM b64_value (map b64_char l) = Some l.
Proof. induction 1 as [| v l Hv _ IH]; [done |]. simpl. rewrite b64_value_char by done. simpl. by rewrite IH. Qed.

(** One group of three bytes, in full or with one or two bytes missing. *)
Lemma b64_group l (pad : N) : Forall (λ x, x < 256)%N l → (0 < pad)%N →
  (of_digits 256 l * pad < 64 ^ N.of_nat (S (length l)))%N →
  to_digits 256 (length l) (of_digits 64 (to_digits 64 (S (length l)) (of_digits 256 l * pad)) / pad) = l.
Proof. intros Hl Hp Hb. rewrite of_to_digits_small, N.div_mul, to_of_digits by (done || lia). done. Qed.

Lemma to_digits_form k n : ∃ l, to_digits 64 k n = l ∧ length l = k ∧ Forall (λ v, v < 64)%N l.
Proof. eexists. split; [done |]. split; [apply length_to_digits | by apply to_digits_bound]. Qed.

Lemma b64_quad l rest : length l = 3 → Forall (λ x, x < 256)%N l →
  b64_decode (map b64_char (to_digits 64 4 (of_digits 256 l)) ++ rest) =
    (tail ← b64_decode rest; Some (l ++ tail)).
Proof.
  intros Hlen Hl. pose proof (b64_group l 1 Hl ltac:(done)) as Hg. rewrite Hlen, N.mul_1_r in Hg.
  assert (Hb : (of_digits 256 l < 64 ^ N.of_nat 4)%N) by (pose proof (of_digits_bound 256 l ltac:(done) Hl) as Hd; by rewrite Hlen in Hd).
  specialize (Hg Hb). rewrite N.div_1_r in Hg.
  destruct (to_digits_form 4 (of_digits 256 l)) as (vs & Hvs & Hvl & Hvf). rewrite Hvs in *.
  destruct vs as [| w [| x [| y [| z []]]]]; try done. pose proof (mapM_b64 _ Hvf) as Hm.
  cbn [map app b64_decode] in *. inversion_clear Hvf as [| ? ? _ Hvf']. inversion_clear Hvf' as [| ? ? _ Hvf]. 
  inversion_clear Hvf as [| ? ? _ Hvf']. inversion_clear Hvf' as [| ? ? Hz _].
  rewrite b64_char_not_pad by done. rewrite Hm. cbn [mbind option_bind]. by rewrite Hg.
Qed.

(** Forget which digits a group is made of, keep that they are legal. *)
Ltac group_digits l pad :=
  let Hg := fresh "Hg" in let vs := fresh "vs" in
  let Hvs := fresh in let Hvl := fresh in let Hvf := fresh "Hvf" in let Hm := fresh "Hm" in
  pose proof (b64_group l pad) as Hg; cbn [length] in Hg;
  match type of Hg with context [to_digits 64 ?k ?n] =>
    destruct (to_digits_form k n) as (vs & Hvs & Hvl & Hvf); rewrite Hvs in *;
    pose proof (mapM_b64 vs Hvf) as Hm
  end.

Lemma b64_one a : (a < 256)%N → b64_decode (b64_encode [a]) = Some [a].
Proof.
  intros Ha. cbn [b64_encode]. replace (a * 16)%N with (of_digits 256 [a] * 16)%N by (unfold of_digits; simpl; lia).
  assert (Hl : Forall (λ x, x < 256)%N [a]) by by repeat constructor.
  group_digits [a] 16%N. destruct vs as [| w [| x []]]; try done. cbn [map app b64_decode] in *.
  change (b64_pad =? b64_pad)%N with true. cbn iota. rewrite Hm. cbn [mbind option_bind]. rewrite Hg; [done | done | done |].
  unfold of_digits. simpl. lia.
Qed.

Lemma b64_two a b : (a < 256)%N → (b < 256)%N → b64_decode (b64_encode [a; b]) = Some [a; b].
Proof.
  intros Ha Hb. cbn [b64_encode]. assert (Hl : Forall (λ x, x < 256)%N [a; b]) by by repeat constructor.
  group_digits [a; b] 4%N. destruct vs as [| w [| x [| y []]]]; try done. cbn [map app b64_decode] in *.
  change (b64_pad =? b64_pad)%N with true. cbn iota.
  rewrite b64_char_not_pad by (rewrite !list.Forall_cons in Hvf; tauto).
  rewrite Hm. cbn [mbind option_bind]. rewrite Hg; [done | done | done |].
  unfold of_digits. simpl. lia.
Qed.

Lemma b64_roundtrip_upto n l : length l ≤ n → Forall (λ x, x < 256)%N l → b64_decode (b64_encode l) = Some l.
Proof.
  revert l. induction n as [| n IH]; intros l Hlen Hl; [by destruct l; simpl in *; [| lia] |].
  destruct l as [| a [| b [| c rest]]]; [done | | |].
  - apply b64_one. by inversion Hl.
  - inversion_clear Hl as [| ? ? Ha Hl']. apply b64_two; [done | by inversion Hl'].
  - cbn [b64_encode]. change (a :: b :: c :: rest) with ([a; b; c] ++ rest) in *. apply Forall_app in Hl as [Habc Hrest].
    rewrite b64_quad by done. rewrite IH; [done | simpl in Hlen; lia | done].
Qed.

Lemma bytes_of_map b : bytes_of (map byte_N b) = Some b.
Proof. unfold bytes_of, byte_N. induction b as [| x b IH]; [done |]. simpl. rewrite Byte.of_to_N. simpl. by rewrite IH. Qed.

Lemma b64decode_encode b : b64decode (b64encode b) = Ok b.
Proof.
  unfold b64decode, b64encode. rewrite (b64_roundtrip_upto (length (map byte_N b))); [| done |].
  - simpl. by rewrite bytes_of_map.
  - apply Forall_forall. intros x (y & <- & _)%in_map_iff. unfold byte_N. pose proof (Byte.to_N_bounded y). lia.
Qed.

Lemma envelope_roundtrip_aux `{EnvelopeJsonLaws} (max_bytes : Z) (m : MessageEnvelope) raw :
  envelope_encode max_bytes m = Ok raw → envelope_decode max_bytes raw = Ok m.
Proof.
  unfold envelope_encode, envelope_decode, map_error. destruct (check_json (me_payload m)) as [[] | e] eqn:Hj; [| done].
  cbn [result_bind]. destruct (EnvelopeData_new _) as [d | e] eqn:Hd; [| done]. cbn [result_bind].
  destruct (dump_json d) as [raw' | e] eqn:Hdump; [| done]. cbn [result_bind].
  destruct (check_size max_bytes raw') as [[] | e] eqn:Hs; [| done]. cbn [result_bind]. intros [= <-].
  rewrite Hs. cbn [result_bind]. rewrite (parse_dump _ _ Hdump). cbn [result_bind].
  assert (d = mk_data 2 (me_job_id m) (me_job_type m) (me_job_version m) (b64encode (me_payload m))
    (me_enqueued_at m) (me_correlation_id m) (me_replay_of m)) as ->.
  { unfold EnvelopeData_new in Hd. rewrite !guard_bind_ok in Hd. naive_solver. }
  rewrite Hd. cbn [result_bind ed_payload]. rewrite b64decode_encode. cbn [result_bind]. rewrite Hj. by destruct m.
Qed.

(** ** Properties *)

(** C38: an encoded envelope decodes to the message it was made from: type,
    version, times, tracing data and the payload byte by byte. *)
Theorem envelope_roundtrip `{EnvelopeJsonLaws} (max_bytes : Z) (m : MessageEnvelope) raw :
  envelope_encode max_bytes m = Ok raw → envelope_decode max_bytes raw = Ok m.
Proof. apply envelope_roundtrip_aux. Qed.

(** A raw message decodes to an envelope that meets every constraint of the
    protocol, or is reported as an invalid message and nothing else - the one
    error the worker turns into a recorded failure. *)
Theorem envelope_decode_total `{EnvelopeJsonLaws} (max_bytes : Z) (raw : pybytes) :
  match envelope_decode max_bytes raw with
  | Ok m => (Z.of_nat (length raw) ≤ max_bytes)%Z ∧ (1 ≤ len (me_job_type m) ≤ 500)%Z ∧ py_strip (me_job_type m) ≠ []
      ∧ (1 ≤ me_job_version m)%Z ∧ dt_offset (me_enqueued_at m) = None
      ∧ (∀ c, me_correlation_id m = Some c → len c ≤ 200)%Z ∧ check_json (me_payload m) = Ok tt
  | Err e => e = InvalidMessageError
  end.
Proof.
  unfold envelope_decode, map_error, check_size, guard. destruct (negb _) eqn:Hs; [| done]. cbn [result_bind].
  destruct (parse_json raw) as [d | e] eqn:Hp; cbn [result_bind]; [| by rewrite (parse_error _ _ Hp)].
  destruct (EnvelopeData_new d) as [d' | e] eqn:Hd; cbn [result_bind].
  2: { unfold EnvelopeData_new in Hd. rewrite !guard_bind_err in Hd.
    assert (e = ValidationError) as -> by naive_solver. done. }
  unfold EnvelopeData_new in Hd. rewrite !guard_bind_ok in Hd. destruct Hd as (_ & H1 & H2 & H3 & H4 & H5 & [= <-]).
  unfold b64decode. destruct (b64_decode _ ≫= bytes_of) as [payload |]; cbn [result_bind]; [| done].
  destruct (check_json payload) as [[] | e] eqn:Hj; cbn [result_bind];
    [| by destruct (check_error _ _ Hj) as [-> | ->]].
  unfold dt_naive in H4. to_prop. split_and!; simpl; try done; try lia.
  intros c Hc. rewrite Hc in H5. by to_prop.
Qed.

(** ** Witnesses: JSON libraries that know two envelopes *)

Definition demo_id : uuid := @mk_uuid 7 I.
Definition demo_message : MessageEnvelope :=
  mk_envelope demo_id (u "user.cleanup-expired-sessions") 1 [Byte.x7b; Byte.x7d] (mk_dt 1000 None) (Some (u "trace")) None.
Definition demo_data : EnvelopeData :=
  mk_data 2 demo_id (u "user.cleanup-expired-sessions") 1 (u "e30=") (mk_dt 1000 None) (Some (u "trace")) None.
Definition demo_raw : pybytes := [Byte.x7b; Byte.x22].

(** The same message sent again. *)
Definition demo_replay_id : uuid := @mk_uuid 9 I.
Definition demo_replay_data : EnvelopeData :=
  mk_data 2 demo_replay_id (u "user.cleanup-expired-sessions") 1 (u "e30=") (mk_dt 3000 None) (Some (u "trace")) (Some demo_id).
Definition demo_replay_raw : pybytes := [Byte.x7b; Byte.x23].

#[export] Instance demo_json : EnvelopeJson := {
  dump_json d := if decide (d = demo_data) then Ok demo_raw
                 else if decide (d = demo_replay_data) then Ok demo_replay_raw else Err ValueError;
  parse_json raw := if decide (raw = demo_raw) then Ok demo_data
                    else if decide (raw = demo_replay_raw) then Ok demo_replay_data else Err ValidationError;
  check_json raw := if decide (raw = [Byte.x7b; Byte.x7d]) then Ok tt else Err ValueError;
}.
#[export] Instance demo_json_laws : EnvelopeJsonLaws.
Proof.
  split; cbn; intros; repeat case_decide; simplify_eq; auto.
Qed.

Lemma envelope_roundtrip_witness :
  envelope_encode 1048576 demo_message = Ok demo_raw ∧ envelope_decode 1048576 demo_raw = Ok demo_message.
Proof.
  assert (He : envelope_encode 1048576 demo_message = Ok demo_raw) by (vm_compute; reflexivity).
  split; [exact He | exact (envelope_roundtrip 1048576 demo_message demo_raw He)].
Defined.

Lemma envelope_decode_total_witness :
  match envelope_decode 1048576 [] with
  | Ok m => (Z.of_nat (length (@nil Byte.byte)) ≤ 1048576)%Z ∧ (1 ≤ len (me_job_type m) ≤ 500)%Z
      ∧ py_strip (me_job_type m) ≠ []
      ∧ (1 ≤ me_job_version m)%Z ∧ dt_offset (me_enqueued_at m) = None
      ∧ (∀ c, me_correlation_id m = Some c → len c ≤ 200)%Z ∧ check_json (me_payload m) = Ok tt
  | Err e => e = InvalidMessageError
  end.
Proof. exact (envelope_decode_total 1048576 []). Defined.
