(* ===== verification/QueueManager.v ===== *)
(** * QueueManager: dispatching, consuming, replaying and closing

    Models [infrastructure/queue/dispatcher.py] and [manager.py].  A backend
    is a record of its operations (Redis, Kafka and RabbitMQ drivers provide
    one); [with_timeout] is [asyncio.timeout] around a call. *)

From Stdlib Require Import QArith.
From S2P Require Import Prelude Text Errors PyVal Lazy Runtime Cache QueueJob QueueMessage.
Local Open Scope prog_scope.
Local Close Scope Q_scope.

Section Queue.
Context {W Ctx : Type} `{EnvelopeJson}.

Record Delivery := mk_delivery {
  dl_payload : pybytes; dl_identity : pystr; dl_possibly_redelivered : bool; dl_acknowledge : io W unit;
}.
Record QueueConsumer := mk_consumer { qc_id : nat; qc_receive : io W Delivery; qc_aclose : io W unit }.
Record QueueBackend := mk_backend {
  qb_publish : pystr → pybytes → io W unit;
  qb_consumer : pystr → Z → io W QueueConsumer;
}.
Record QueueConnection := mk_connection { qn_default_queue : pystr; qn_publish_timeout : Q }.

Context (with_timeout : Q → io W unit → io W unit) (new_id : io W uuid) (clock : io W datetime)
  (current_correlation : W → option pystr).

(** ** Dispatcher *)
Record Dispatcher := mk_dispatcher {
  dp_publisher : QueueBackend; dp_max_bytes : Z; dp_default_queue : pystr; dp_publish_timeout : Q;
  dp_ensure_active : io W unit;
}.

(** [except TypeError, ValueError: raise error] *)
Definition name_or {A} (error : exn) (r : result exn A) : result exn A :=
  match r with
  | Err e => Err (if is_value_error e || is_type_error e then error else e)
  | r => r
  end.

Definition publish_envelope (d : Dispatcher) (m : MessageEnvelope) (queue : option pystr) : io W unit :=
  dp_ensure_active d;;;
  let* target := lift (name_or QueueError (validate_queue_name (VStr (default (dp_default_queue d) queue)))) in
  let* payload := lift (envelope_encode (dp_max_bytes d) m) in
  catch (with_timeout (dp_publish_timeout d) (qb_publish (dp_publisher d) target payload))
    (λ e, if is_exception e then raise QueueError else raise e).

(** [dispatch(job)]; [k] is [type(job)]. *)
Definition dispatch (d : Dispatcher) (k : job_class W Ctx) (job : job_instance W Ctx)
    (queue correlation_id : option pystr) : io W uuid :=
  let* encoded := lift (encode_job k job) in
  let* current := read current_correlation in
  let active := match correlation_id with Some c => Some c | None => current end in
  let* job_id := new_id in
  let* now := clock in
  let message := mk_envelope job_id (ej_job_type encoded) (ej_version encoded) (ej_payload encoded) now active None in
  publish_envelope d message queue;;;
  ret job_id.

(** ** QueueManager *)

(** [self._validate(settings)] *)
Definition validate_connections (parse_connection : pydict pyval → result exn QueueConnection)
    (default_name : option pystr) (connections : pydict (pydict pyval)) : result exn (pydict QueueConnection) :=
  let? _ := guard (match default_name with Some n => bool_decide (n ∈ dict_keys connections) | None => true end)
              QueueConfigurationError in
  map_result (λ nc,
    let? _ := guard (negb (bool_decide (py_strip nc.1 = []) || (200 <? len nc.1)%Z)) QueueConfigurationError in
    match parse_connection nc.2 with
    | Ok c => Ok (nc.1, c)
    | Err ValidationError => Err QueueConfigurationError
    | Err e => Err e
    end) connections.

(** The fields the manager changes: [_closed], and [_consumers] as references
    to consumer objects; [qm_object] is the object behind a reference. *)
Record manager_ref := mk_manager_ref {
  qm_closed : W → bool;
  qm_set_closed : W → W;
  qm_consumers : W → list nat;
  qm_set_consumers : list nat → W → W;
  qm_object : nat → QueueConsumer;
}.

Context (self : manager_ref) (max_bytes : Z) (default_name : option pystr) (configs : pydict QueueConnection).
(** [_resources[name].get()] and the closing handles, in the order of the configuration. *)
Context (resources : pydict (io W QueueBackend)) (handles : list (@handle W)).

Definition ensure_open : io W unit :=
  let* closed := read (qm_closed self) in
  if (closed : bool) then raise QueueError else ret tt.

Definition qm_resolve_name (name : option pystr) : io W pystr :=
  ensure_open;;;
  match (match name with None => default_name | Some n => Some n end) with
  | None => raise QueueConfigurationError
  | Some resolved =>
      if bool_decide (resolved ∈ dict_keys resources) then ret resolved else raise QueueConfigurationError
  end.

(** [self._configs[name]], a [KeyError] when missing. *)
Definition config_of (name : pystr) : io W QueueConnection :=
  match dict_get configs name with Some c => ret c | None => raise KeyError end.

Definition get_backend (name : pystr) : io W QueueBackend :=
  catch (match dict_get resources name with Some get => get | None => raise KeyError end)
    (λ e, if is_queue_error e then raise e
          else if is_exception e then raise QueueError else raise e).

Definition qm_get (name : option pystr) : io W Dispatcher :=
  let* resolved := qm_resolve_name name in
  let* backend := get_backend resolved in
  let* config := config_of resolved in
  ret (mk_dispatcher backend max_bytes (qn_default_queue config) (qn_publish_timeout config) ensure_open).

Definition qm_dispatch (k : job_class W Ctx) (job : job_instance W Ctx)
    (connection queue correlation_id : option pystr) : io W uuid :=
  let* dispatcher := qm_get connection in
  dispatch dispatcher k job queue correlation_id.

Definition queue_name (connection queue : option pystr) : io W pystr :=
  let* resolved := qm_resolve_name connection in
  let* config := config_of resolved in
  lift (name_or QueueConfigurationError (validate_queue_name (VStr (default (qn_default_queue config) queue)))).

(** Leaving [consume]: close the consumer, then forget it. *)
Definition release_consumer (c : QueueConsumer) : io W unit :=
  finally (qc_aclose c)
    (modify (λ w, qm_set_consumers self (List.filter (λ i, negb (i =? qc_id c)) (qm_consumers self w)) w)).

(** The part of [consume] before the consumer is registered. *)
Definition open_consumer (connection queue : option pystr) (concurrency : pyval) : io W QueueConsumer :=
  let* resolved := qm_resolve_name connection in
  let* config := config_of resolved in
  let* target := lift (name_or QueueConfigurationError (validate_queue_name (VStr (default (qn_default_queue config) queue)))) in
  let* active_concurrency := lift (name_or QueueConfigurationError (validate_worker_concurrency concurrency)) in
  let* backend := get_backend resolved in
  let* consumer := catch (qb_consumer backend target active_concurrency)
    (λ e, if is_queue_error e then raise e else if is_exception e then raise QueueError else raise e) in
  let* closed := read (qm_closed self) in
  if (closed : bool) then qc_aclose consumer;;; raise QueueError else ret consumer.

Definition consume {A} (connection queue : option pystr) (concurrency : pyval) (body : QueueConsumer → io W A) : io W A :=
  let* consumer := open_consumer connection queue concurrency in
  modify (λ w, qm_set_consumers self (qm_consumers self w ++ [qc_id consumer]) w);;;
  finally (body consumer) (release_consumer consumer).

(** [failed_jobs]: the check before the store is first created. *)
Definition failed_jobs_database (database : pystr) (database_names : list pystr) : result exn pystr :=
  if bool_decide (py_strip database = []) || negb (bool_decide (database ∈ database_names))
  then Err QueueConfigurationError else Ok database.

Record FailedJobRecord := mk_failed {
  fj_failure_id : uuid; fj_payload : pybytes; fj_connection : pystr; fj_queue : pystr;
  fj_failed_at : datetime; fj_attempts : Z; fj_reason : pystr; fj_job_id : option uuid;
  fj_error_type : option pystr; fj_stacktrace : list ExceptionStackFrame;
}.

Definition replay (find : uuid → io W (option FailedJobRecord)) (failure_id : uuid) : io W uuid :=
  let* record := find failure_id in
  match record with
  | None => raise QueueError
  | Some record =>
      let* message := lift (envelope_decode max_bytes (fj_payload record)) in
      let* job_id := new_id in
      let* now := clock in
      let message := mk_envelope job_id (me_job_type message) (me_job_version message) (me_payload message) now
        (me_correlation_id message) (Some (fj_failure_id record)) in
      let* dispatcher := qm_get (Some (fj_connection record)) in
      publish_envelope dispatcher message (Some (fj_queue record));;;
      ret job_id
  end.

Definition qm_aclose : io W unit :=
  modify (qm_set_closed self);;;
  seal_all handles;;;
  let* consumers := read (qm_consumers self) in
  let* errors1 := collect_errors (map (λ i, qc_aclose (qm_object self i)) (reverse consumers)) in
  modify (qm_set_consumers self []);;;
  let* errors2 := collect_errors (map h_aclose (reverse handles)) in
  raise_group (errors1 ++ errors2).
End Queue.
Arguments Delivery : clear implicits.
Arguments QueueConsumer : clear implicits.
Arguments QueueBackend : clear implicits.

(** ** Properties *)

Lemma validate_queue_name_ok v s : validate_queue_name v = Ok s →
  v = VStr s ∧ matches queue_name_pattern s ∧ (1 ≤ len s ≤ 200)%Z ∧ s ≠ u "." ∧ s ≠ u "..".
Proof.
  unfold validate_queue_name. destruct v as [| | | | | t | | | |]; try done. simpl. rewrite !guard_bind_ok.
  rewrite !negb_true_iff, !orb_false_iff. intros (Ha & Hb & [= <-]). destruct_and?. to_prop.
  split_and!; [done | by apply fullmatch_spec | unfold len; destruct t; simpl; [done | lia] | lia | done | done].
Qed.

Section Theorems.
Context {W Ctx : Type} `{EJL : EnvelopeJsonLaws}.
Context (with_timeout : Q → io W unit → io W unit) (new_id : io W uuid) (clock : io W datetime)
  (current_correlation : W → option pystr).

Lemma publish_envelope_ok d m queue w w' :
  publish_envelope with_timeout d m queue w = (w', Ok tt) → ∃ target raw w1,
    matches queue_name_pattern target ∧ target = default (dp_default_queue d) queue ∧
    envelope_decode (dp_max_bytes d) raw = Ok m ∧
    with_timeout (dp_publish_timeout d) (qb_publish (dp_publisher d) target raw) w1 = (w', Ok tt).
Proof.
  unfold publish_envelope. rewrite bind_ok. intros (w1 & [] & _ & Hp). rewrite bind_ok in Hp.
  destruct Hp as (w2 & target & Ht & Hp). unfold lift in Ht. injection Ht as <- Ht. rewrite bind_ok in Hp.
  destruct Hp as (w2 & raw & Hr & Hp). unfold lift in Hr. injection Hr as <- Hr. apply envelope_roundtrip_aux in Hr.
  destruct (validate_queue_name _) as [t | e] eqn:Hv; [| done]. injection Ht as ->. apply validate_queue_name_ok in Hv.
  destruct Hv as ([= ->] & Hm & _). exists target, raw, w1. split_and!; try done.
  unfold catch in Hp. destruct (with_timeout _ _ w1) as [w3 [[] | e]]; [done |]. by destruct (is_exception e).
Qed.

(** A dispatch that returns an id has put exactly one message on the wire:
    the backend confirmed, within the time limit and on a legal queue, bytes
    that decode to an envelope with that id, the job's current reference,
    version and payload, and the caller's correlation id. *)
Theorem dispatch_correct d (k : job_class W Ctx) job queue correlation_id w w' id :
  dispatch with_timeout new_id clock current_correlation d k job queue correlation_id w = (w', Ok id) →
  ∃ encoded m target raw w1,
    encode_job k job = Ok encoded ∧
    m = mk_envelope id (ej_job_type encoded) (ej_version encoded) (ej_payload encoded) (me_enqueued_at m)
          (match correlation_id with Some c => Some c | None => current_correlation w end) None ∧
    matches queue_name_pattern target ∧ target = default (dp_default_queue d) queue ∧
    envelope_decode (dp_max_bytes d) raw = Ok m ∧
    with_timeout (dp_publish_timeout d) (qb_publish (dp_publisher d) target raw) w1 = (w', Ok tt).
Proof.
  unfold dispatch. rewrite bind_ok. intros (w1 & encoded & He & Hd). unfold lift in He. injection He as <- He.
  rewrite bind_ok in Hd. destruct Hd as (w1 & current & Hc & Hd). injection Hc as <- <-.
  rewrite bind_ok in Hd. destruct Hd as (w2 & id' & _ & Hd). rewrite bind_ok in Hd. destruct Hd as (w3 & now & _ & Hd).
  rewrite bind_ok in Hd. destruct Hd as (w4 & [] & Hp & Hr). injection Hr as -> ->.
  apply publish_envelope_ok in Hp as (target & raw & w5 & Hm & Ht & Hdec & Hrun).
  eexists encoded, _, target, raw, w5. split_and!; [exact He | | exact Hm | exact Ht | exact Hdec | exact Hrun]. done.
Qed.

(** Replaying a failed job sends its original message again, under a new id
    and time and with [replay_of] pointing at the failure, on the connection
    and queue it came from. *)
Theorem replay_correct (self : manager_ref) max_bytes default_name configs resources
    (find : uuid → io W (option FailedJobRecord)) failure_id w w' id :
  replay with_timeout new_id clock self max_bytes default_name configs resources find failure_id w = (w', Ok id) →
  ∃ w1 record original m target raw backend config w2,
    find failure_id w = (w1, Ok (Some record)) ∧
    envelope_decode max_bytes (fj_payload record) = Ok original ∧
    m = mk_envelope id (me_job_type original) (me_job_version original) (me_payload original) (me_enqueued_at m)
          (me_correlation_id original) (Some (fj_failure_id record)) ∧
    envelope_decode max_bytes raw = Ok m ∧
    dict_get configs (fj_connection record) = Some config ∧ target = fj_queue record ∧
    with_timeout (qn_publish_timeout config) (qb_publish backend target raw) w2 = (w', Ok tt).
Proof.
  unfold replay. rewrite bind_ok. intros (w1 & [record |] & Hf & Hd); [| done].
  rewrite bind_ok in Hd. destruct Hd as (w2 & original & Ho & Hd). unfold lift in Ho. injection Ho as <- Ho.
  rewrite bind_ok in Hd. destruct Hd as (w2 & id' & _ & Hd). rewrite bind_ok in Hd. destruct Hd as (w3 & now & _ & Hd).
  rewrite bind_ok in Hd. destruct Hd as (w4 & dispatcher & Hg & Hd). rewrite bind_ok in Hd.
  destruct Hd as (w5 & [] & Hp & Hr). injection Hr as -> ->. unfold qm_get in Hg. rewrite bind_ok in Hg.
  destruct Hg as (w6 & resolved & Hres & Hg). rewrite bind_ok in Hg. destruct Hg as (w7 & backend & _ & Hg).
  rewrite bind_ok in Hg. destruct Hg as (w8 & config & Hc & Hg). injection Hg as -> <-.
  assert (resolved = fj_connection record) as ->.
  { unfold qm_resolve_name in Hres. rewrite bind_ok in Hres. destruct Hres as (? & ? & _ & Hres).
    case_bool; [by injection Hres | done]. }
  unfold config_of in Hc. destruct (dict_get configs _) as [config' |] eqn:Hcfg; [| done]. injection Hc as -> ->.
  apply publish_envelope_ok in Hp as (target & raw & w9 & Hm & Ht & Hdec & Hrun).
  eexists w1, record, original, _, target, raw, backend, config, w9.
  split_and!; [exact Hf | exact Ho | | exact Hdec | exact Hcfg | exact Ht | exact Hrun]. done.
Qed.
End Theorems.

(** Access to the two fields is consistent. *)
Record manager_ref_laws {W} (self : @manager_ref W) : Prop := {
  ml_consumers l w : qm_consumers self (qm_set_consumers self l w) = l;
}.

(** A consumer never outlives its block.  Once it was handed out, it is
    registered before the body runs; whatever the body does - return, raise, be
    cancelled - it is closed and forgotten, and the caller sees the body's
    outcome unless closing failed. *)
Theorem consume_releases {W A} (self : @manager_ref W) default_name configs resources
    connection queue concurrency (body : QueueConsumer W → io W A) w w' r :
  manager_ref_laws self →
  consume self default_name configs resources connection queue concurrency body w = (w', r) →
  (∃ e, r = Err e ∧ open_consumer self default_name configs resources connection queue concurrency w = (w', Err e)) ∨
  ∃ consumer w0 w1 w2 w3 rb ra,
    open_consumer self default_name configs resources connection queue concurrency w = (w0, Ok consumer) ∧
    w1 = qm_set_consumers self (qm_consumers self w0 ++ [qc_id consumer]) w0 ∧
    body consumer w1 = (w2, rb) ∧ qc_aclose consumer w2 = (w3, ra) ∧
    qc_id consumer ∈ qm_consumers self w1 ∧ qc_id consumer ∉ qm_consumers self w' ∧
    r = match ra with Ok _ => rb | Err e => Err e end.
Proof.
  intros Hself. unfold consume, bind, modify, finally, release_consumer. intros Hr.
  destruct (open_consumer _ _ _ _ _ _ _ w) as [w0 [consumer | e]]; [right | left; naive_solver].
  revert Hr. set (w1 := qm_set_consumers self _ w0) in *. destruct (body consumer w1) as [w2 rb] eqn:Hb.
  destruct (qc_aclose consumer w2) as [w3 ra] eqn:Ha.
  unfold finally, modify. rewrite Ha. intros Hr. exists consumer, w0, w1, w2, w3, rb, ra.
  assert (Hw' : w' = qm_set_consumers self (List.filter (λ i, negb (i =? qc_id consumer)) (qm_consumers self w3)) w3
    ∧ r = match ra with Ok _ => rb | Err e => Err e end) by (by destruct ra; simplify_eq/=).
  destruct Hw' as [-> ->]. split_and!; try done.
  - unfold w1. rewrite (ml_consumers _ Hself). set_solver.
  - rewrite (ml_consumers _ Hself). intros [_ Hc]%list_elem_of_In%filter_In. by rewrite Nat.eqb_refl in Hc.
Qed.

(** ** Witnesses: a manager whose backend keeps an outbox *)

(** Messages sent, consumers registered, consumers closed. *)
Record Outbox := mk_outbox { ob_sent : list (pystr * pybytes); ob_consumers : list nat; ob_closed : list nat }.
Definition empty_outbox : Outbox := mk_outbox [] [] [].
Definition demo_wire (t : Q) (m : io Outbox unit) : io Outbox unit := m.
Definition demo_consumer : QueueConsumer Outbox :=
  mk_consumer 1 (raise CancelledError) (modify (λ w, mk_outbox (ob_sent w) (ob_consumers w) (1 :: ob_closed w))).
Definition demo_backend : QueueBackend Outbox :=
  mk_backend (λ q b, modify (λ w, mk_outbox (ob_sent w ++ [(q, b)]) (ob_consumers w) (ob_closed w))) (λ _ _, ret demo_consumer).
Definition demo_dispatcher : Dispatcher := mk_dispatcher demo_backend 1048576 (u "default") 10%Q (ret tt).
Definition demo_self : manager_ref :=
  mk_manager_ref (λ _, false) id ob_consumers (λ l w, mk_outbox (ob_sent w) l (ob_closed w)) (λ _, demo_consumer).
Definition demo_configs : pydict QueueConnection := [(u "main", mk_connection (u "default") 10%Q)].
Definition demo_resources : pydict (io Outbox (QueueBackend Outbox)) := [(u "main", ret demo_backend)].
Definition demo_task_codec : JobCodec Outbox unit :=
  mk_codec (λ _, Ok [Byte.x7b; Byte.x7d]) (λ _, Ok (mk_job 1 (λ _, ret tt))).
Definition demo_task : job_class Outbox unit :=
  mk_class 1 true false (u "app.contexts.user.jobs.cleanup") (u "CleanupExpiredSessions")
    (VStr (u "user.cleanup-expired-sessions")) (VTuple []) (VInt 1) (Some default_policy)
    NoCodec (Ok demo_task_codec) (Some []).
Definition demo_sent : Outbox := mk_outbox [(u "mail", demo_raw)] [] [].
Definition demo_dispatch : io Outbox uuid :=
  dispatch demo_wire (ret demo_id) (ret (mk_dt 1000 None)) (λ _, Some (u "trace")) demo_dispatcher demo_task
    (mk_job 1 (λ _, ret tt)) (Some (u "mail")) None.

Lemma dispatch_correct_witness :
  demo_dispatch empty_outbox = (demo_sent, Ok demo_id) ∧
  ∃ encoded m target raw w1,
    encode_job demo_task (mk_job 1 (λ _, ret tt)) = Ok encoded ∧
    m = mk_envelope demo_id (ej_job_type encoded) (ej_version encoded) (ej_payload encoded) (me_enqueued_at m)
          (Some (u "trace")) None ∧
    matches queue_name_pattern target ∧ target = u "mail" ∧
    envelope_decode 1048576 raw = Ok m ∧
    demo_wire 10%Q (qb_publish demo_backend target raw) w1 = (demo_sent, Ok tt).
Proof.
  assert (Hd : demo_dispatch empty_outbox = (demo_sent, Ok demo_id)) by (vm_compute; reflexivity).
  split; [exact Hd |]. unfold demo_dispatch in Hd.
  exact (dispatch_correct demo_wire (ret demo_id) (ret (mk_dt 1000 None)) (λ _, Some (u "trace")) demo_dispatcher
    demo_task (mk_job 1 (λ _, ret tt)) (Some (u "mail")) None empty_outbox demo_sent demo_id Hd).
Defined.

(** A body that is cancelled while it waits. *)
Definition demo_body (c : QueueConsumer Outbox) : io Outbox unit := let* _ := qc_receive c in ret tt.
Definition demo_after : Outbox := mk_outbox [] [] [1].

Lemma consume_releases_witness :
  consume demo_self None demo_configs demo_resources (Some (u "main")) None (VInt 1) demo_body empty_outbox
    = (demo_after, Err CancelledError) ∧
  ((∃ e, @Err exn unit CancelledError = Err e ∧
     open_consumer demo_self None demo_configs demo_resources (Some (u "main")) None (VInt 1) empty_outbox = (demo_after, Err e)) ∨
   ∃ consumer w0 w1 w2 w3 rb ra,
    open_consumer demo_self None demo_configs demo_resources (Some (u "main")) None (VInt 1) empty_outbox = (w0, Ok consumer) ∧
    w1 = qm_set_consumers demo_self (qm_consumers demo_self w0 ++ [qc_id consumer]) w0 ∧
    demo_body consumer w1 = (w2, rb) ∧ qc_aclose consumer w2 = (w3, ra) ∧
    qc_id consumer ∈ qm_consumers demo_self w1 ∧ qc_id consumer ∉ qm_consumers demo_self demo_after ∧
    Err CancelledError = match ra with Ok _ => rb | Err e => Err e end).
Proof.
  assert (Hr : consume demo_self None demo_configs demo_resources (Some (u "main")) None (VInt 1) demo_body empty_outbox
    = (demo_after, Err CancelledError)) by (vm_compute; reflexivity).
  split; [exact Hr |].
  refine (consume_releases demo_self None demo_configs demo_resources (Some (u "main")) None (VInt 1) demo_body
    empty_outbox demo_after (Err CancelledError) _ Hr).
  by split.
Defined.

Definition demo_failure : FailedJobRecord :=
  mk_failed demo_id demo_raw (u "main") (u "mail") (mk_dt 2000 None) 3 (u "handler_error") (Some demo_id) (Some (u "builtins.TypeError")) [].
Definition demo_replayed : Outbox := mk_outbox [(u "mail", demo_replay_raw)] [] [].

Lemma replay_correct_witness :
  ∃ w1 record original m target raw backend config w2,
    (ret (Some demo_failure) : io Outbox _) empty_outbox = (w1, Ok (Some record)) ∧
    envelope_decode 1048576 (fj_payload record) = Ok original ∧
    m = mk_envelope demo_replay_id (me_job_type original) (me_job_version original) (me_payload original) (me_enqueued_at m)
          (me_correlation_id original) (Some (fj_failure_id record)) ∧
    envelope_decode 1048576 raw = Ok m ∧
    dict_get demo_configs (fj_connection record) = Some config ∧ target = fj_queue record ∧
    demo_wire (qn_publish_timeout config) (qb_publish backend target raw) w2 = (demo_replayed, Ok tt).
Proof.
  apply (replay_correct demo_wire (ret demo_replay_id) (ret (mk_dt 3000 None)) demo_self 1048576 None demo_configs
    demo_resources (λ _, ret (Some demo_failure)) demo_id). vm_compute. reflexivity.
Defined.
