(* ===== verification/Worker.v ===== *)
(** * Worker: attempts, failure records and acknowledgement

    Models [interfaces/worker/executor.py] and [context.py]: the retry loop and
    the execution of one delivery.  [timed] is [async with asyncio.timeout(t)]
    around a call, with the outcome of the block and [expired()]; the failure
    store, the acknowledgement and the log are operations on the world. *)

From Stdlib Require Import QArith.
From S2P Require Import Prelude Text Errors PyVal Runtime QueueJob QueueMessage QueueManager.
Local Open Scope prog_scope.
Local Close Scope Q_scope.

(** ** interfaces/worker/context.py *)
Record JobMetadata := mk_metadata {
  jm_id : uuid; jm_reference : pystr; jm_version : Z; jm_enqueued_at : datetime;
  jm_queue_connection : pystr; jm_queue_name : pystr;
  jm_correlation_id : option pystr; jm_replay_of : option uuid;
}.
(** [C] is [WorkerContext]: the settings and the container. *)
Record JobExecutionContext (C : Type) := mk_context { jx_worker : C; jx_job : JobMetadata }.
Arguments mk_context {C}.
Arguments jx_worker {C}.
Arguments jx_job {C}.

(** ** The result of one delivery *)
Record ExecutionResult := mk_result {
  er_attempts : Z; er_failure_reason : option pystr;
  er_error_type : option pystr; er_stacktrace : list ExceptionStackFrame;
}.
Definition result_of (attempts : Z) (reason : option pystr) : ExecutionResult := mk_result attempts reason None [].
Definition failed_result `{Tracebacks} (attempts : Z) (reason : pystr) (e : exn) : ExecutionResult :=
  let '(error_type, stacktrace) := safe_exception_details e in
  mk_result attempts (Some reason) (Some error_type) stacktrace.

(** What one attempt means: the end of the loop, an exception, or a retry. *)
Inductive verdict := Finish (r : ExecutionResult) | Abort (e : exn) | Retry (reason : pystr) (e : exn).

Definition is_definition_error (e : exn) : bool := match e with JobDefinitionError => true | _ => false end.
Definition is_retryable (e : exn) : bool := match e with RetryableJobError => true | _ => false end.

Definition classify_job_error `{Tracebacks} (attempt : Z) (e : exn) : verdict :=
  if is_definition_error e then Abort e else Finish (failed_result attempt (u "invalid_job_payload") e).

Definition attempt_verdict `{Tracebacks} (attempt : Z) (outcome : result exn unit) (expired : bool) : verdict :=
  match outcome with
  | Ok _ => Finish (result_of attempt (if expired then Some (u "timeout_suppressed") else None))
  | Err e =>
      if is_retryable e then Retry (u "retry_exhausted") e
      else if is_timeout_error e then
        if negb expired then Finish (failed_result attempt (u "handler_timeout_error") e)
        else Retry (u "execution_timeout") e
      else if is_invalid_message e || is_definition_error e then classify_job_error attempt e
      else if is_exception e then Finish (failed_result attempt (u "handler_error") e)
      else Abort e
  end.

(** ** The identity of a failure *)

(** [repr] of a string; [printable] is [str.isprintable] outside ASCII. *)
Definition escaped (c : N) (rest : pystr) : pystr := 92%N :: c :: rest.
Definition repr_char (printable : N → bool) (quote c : N) : pystr :=
  if (c =? quote)%N || (c =? 92)%N then escaped c []
  else if (c =? 9)%N then escaped 116 [] else if (c =? 10)%N then escaped 110 []
  else if (c =? 13)%N then escaped 114 []
  else if (c <? 32)%N || (c =? 127)%N then escaped 120 (hex_of 2 c)
  else if (c <? 128)%N || printable c then [c]
  else if (c <? 256)%N then escaped 120 (hex_of 2 c)
  else if (c <? 65536)%N then escaped 117 (hex_of 4 c)
  else escaped 85 (hex_of 8 c).
Definition repr_quote (s : pystr) : N :=
  if bool_decide (39%N ∈ s) && negb (bool_decide (34%N ∈ s)) then 34%N else 39%N.
Definition py_repr (printable : N → bool) (s : pystr) : pystr :=
  let q := repr_quote s in [q] ++ concat (map (repr_char printable q) s) ++ [q].
(** [repr(("queue-failure", connection, queue, identity))] *)
Definition failure_name (printable : N → bool) (connection queue identity : pystr) : pystr :=
  let r := py_repr printable in
  u "(" ++ r (u "queue-failure") ++ u ", " ++ r connection ++ u ", " ++ r queue ++ u ", " ++ r identity ++ u ")".

Section Worker.
Context {W C : Type} `{EnvelopeJson, Tracebacks}.
Abbreviation JobCtx := (JobExecutionContext C).
Context (timed : pyfloat → io W unit → io W (result exn unit * bool)) (sleep : pyfloat → io W unit).

(** ** run_attempts: [n] attempts are left, this one is number [attempt] *)
Section Attempts.
Context (binding : JobBinding W JobCtx) (payload : pybytes) (context : JobCtx).

Definition one_attempt : io W (result exn unit * bool) :=
  timed (jp_timeout_seconds (binding_policy binding)) (binding_execute binding payload context).
Definition max_attempts : Z := policy_attempts (binding_policy binding).

Fixpoint attempts_from (n : nat) (attempt : Z) : io W ExecutionResult :=
  match n with
  | O => raise RuntimeError
  | S n =>
      let* o := one_attempt in
      match attempt_verdict attempt o.1 o.2 with
      | Finish r => ret r
      | Abort e => raise e
      | Retry reason e =>
          if (attempt =? max_attempts)%Z then ret (failed_result attempt reason e)
          else sleep (retry_delay (binding_policy binding) attempt);;; attempts_from n (attempt + 1)%Z
      end
  end.
Definition run_attempts : io W ExecutionResult := attempts_from (Z.to_nat max_attempts) 1.
End Attempts.

(** ** JobExecutor *)
Record JobExecutor := mk_executor {
  je_connection : pystr; je_queue : pystr;
  je_resolver : JobResolver W JobCtx;
  je_find : uuid → io W (option FailedJobRecord);      (* self.failures *)
  je_save : FailedJobRecord → io W unit;
  je_max_bytes : Z;
  je_context : C;
  je_clock : io W datetime;
}.
Context (self : JobExecutor).
(** [uuid5(NAMESPACE_URL, …)], [sha256(…).hexdigest()], the trace variable and
    the log. *)
Context (uuid5_url : pystr → uuid) (sha256_hex : pybytes → pystr) (printable : N → bool).
Context (get_trace : W → option TraceContext) (set_trace : option TraceContext → W → W).
Context (log_result : ExecutionResult → option MessageEnvelope → io W unit).

Definition failure_id (identity : pystr) : uuid :=
  uuid5_url (failure_name printable (je_connection self) (je_queue self) identity).

Definition delivery_identity (d : Delivery W) : result exn (option MessageEnvelope * uuid) :=
  match envelope_decode (je_max_bytes self) (dl_payload d) with
  | Ok m => Ok (Some m, failure_id (uuid_str (me_job_id m)))
  | Err e => if is_invalid_message e then Ok (None, failure_id (u "raw:" ++ sha256_hex (dl_payload d))) else Err e
  end.

Definition finish (d : Delivery W) (m : option MessageEnvelope) (r : ExecutionResult) (fid : uuid) : io W unit :=
  match er_failure_reason r with
  | Some reason =>
      let* now := je_clock self in
      je_save self (mk_failed fid (dl_payload d) (je_connection self) (je_queue self) now (er_attempts r) reason
        (me_job_id <$> m) (er_error_type r) (er_stacktrace r));;;
      log_result r m;;;
      dl_acknowledge d
  | None => dl_acknowledge d;;; log_result r m
  end.

(** [delivery.possibly_redelivered and await self.failures.find(id) is not None] *)
Definition already_failed (d : Delivery W) (fid : uuid) : io W bool :=
  if dl_possibly_redelivered d then
    let* record := je_find self fid in
    ret (match record with Some _ => true | None => false end)
  else ret false.

Definition job_context (m : MessageEnvelope) : JobCtx :=
  mk_context (je_context self) (mk_metadata (me_job_id m) (me_job_type m) (me_job_version m) (me_enqueued_at m)
    (je_connection self) (je_queue self) (me_correlation_id m) (me_replay_of m)).

Definition resolve_and_run (m : MessageEnvelope) : io W ExecutionResult :=
  match resolve (je_resolver self) (me_job_type m) (VInt (me_job_version m)) with
  | Err UnknownJobError => ret (result_of 0 (Some (u "unknown_job")))
  | Err UnsupportedJobVersionError => ret (result_of 0 (Some (u "unsupported_job_version")))
  | Err e => raise e
  | Ok binding => run_attempts binding (me_payload m) (job_context m)
  end.

Definition execute (d : Delivery W) : io W unit :=
  let* identity := lift (delivery_identity d) in
  let fid := snd identity in
  match fst identity with
  | None =>
      let* failed := already_failed d fid in
      if (failed : bool) then dl_acknowledge d
      else finish d None (result_of 0 (Some (u "invalid_envelope"))) fid
  | Some m =>
      bind_trace_context get_trace set_trace (mk_trace (me_correlation_id m) None None) (
        let* failed := already_failed d fid in
        if (failed : bool) then dl_acknowledge d
        else
          let* r := resolve_and_run m in
          finish d (Some m) r fid)
  end.
End Worker.

(** ** The retry loop *)

Section AttemptTheorems.
Context {W C : Type} `{Tracebacks}.
Context (timed : pyfloat → io W unit → io W (result exn unit * bool)) (sleep : pyfloat → io W unit).
Context (binding : JobBinding W (JobExecutionContext C)) (payload : pybytes) (context : JobExecutionContext C).
Abbreviation attempt := (one_attempt timed binding payload context).
Abbreviation limit := (max_attempts binding).

(** [retried w n w1]: the attempts before number [n] all asked for a retry and
    each was followed by its delay; attempt [n] starts in [w1]. *)
Inductive retried (w : W) : Z → W → Prop :=
| retried_first : retried w 1 w
| retried_next n w1 out expired w2 reason e w3 :
    retried w n w1 → attempt w1 = (w2, Ok (out, expired)) → attempt_verdict n out expired = Retry reason e →
    (n < limit)%Z → sleep (retry_delay (binding_policy binding) n) w2 = (w3, Ok tt) →
    retried w (n + 1) w3.

(** How the loop may end at attempt [n], started in [w1]. *)
Definition ended (n : Z) (w1 : W) (r : result exn ExecutionResult) (w' : W) : Prop :=
  match r with
  | Ok res => er_attempts res = n ∧ ∃ out expired, attempt w1 = (w', Ok (out, expired)) ∧
      match attempt_verdict n out expired with
      | Finish res' => res = res'
      | Retry reason e => n = limit ∧ res = failed_result n reason e
      | Abort _ => False
      end
  | Err e => attempt w1 = (w', Err e) ∨ ∃ out expired w2, attempt w1 = (w2, Ok (out, expired)) ∧
      ((attempt_verdict n out expired = Abort e ∧ w' = w2) ∨
       (∃ reason e', attempt_verdict n out expired = Retry reason e' ∧ (n < limit)%Z ∧
          sleep (retry_delay (binding_policy binding) n) w2 = (w', Err e)))
  end.

Lemma verdict_attempts n out expired res : attempt_verdict n out expired = Finish res → er_attempts res = n.
Proof.
  unfold attempt_verdict, classify_job_error. destruct out as [[] | e]; [by intros [= <-] |].
  repeat case_bool; try done; by intros [= <-].
Qed.

Lemma attempts_from_ends w n k w1 : retried w n w1 → (1 ≤ n)%Z → (n + Z.of_nat k = limit + 1)%Z → 0 < k →
  wp (attempts_from timed sleep binding payload context k n) (λ r w',
    ∃ n' w1', retried w n' w1' ∧ (1 ≤ n' ≤ limit)%Z ∧ ended n' w1' r w') w1.
Proof.
  revert n w1. induction k as [| k IH]; intros n w1 Hr Hn Hk Hpos; [lia |]. cbn [attempts_from].
  unfold wp, bind. destruct (attempt w1) as [w2 [[out expired] | e]] eqn:Ha.
  2: { exists n, w1. split_and!; [done | lia | lia | by left]. }
  cbn [fst snd]. destruct (attempt_verdict n out expired) as [res | e | reason e] eqn:Hv.
  - exists n, w1. split_and!; [done | lia | lia |]. split; [by eapply verdict_attempts |]. exists out, expired.
    by rewrite Hv.
  - exists n, w1. split_and!; [done | lia | lia |]. right. exists out, expired, w2. split; [done |]. by left.
  - destruct (n =? limit)%Z eqn:Hlim; to_prop.
    + exists n, w1. split_and!; [done | lia | lia |]. split; [done |]. exists out, expired. by rewrite Hv.
    + destruct (sleep _ w2) as [w3 [[] | e']] eqn:Hs.
      * apply IH; [| lia | lia | lia]. eapply retried_next; [done.. | lia | done].
      * exists n, w1. split_and!; [done | lia | lia |]. right. exists out, expired, w2. split; [done |].
        right. exists reason, e. split_and!; [done | lia | done].
Qed.

(** C13: a job is attempted at least once and at most [max_attempts] times; it is
    attempted again only after a retryable error or an expired time limit and
    after the configured delay; the result reports the number of attempts and
    the classification of the last one, and "retries exhausted" or "timed out"
    only at the last permitted attempt. *)
Theorem run_attempts_bounded w : (1 ≤ limit)%Z →
  wp (run_attempts timed sleep binding payload context) (λ r w',
    ∃ n w1, retried w n w1 ∧ (1 ≤ n ≤ limit)%Z ∧ ended n w1 r w') w.
Proof. intros Hl. apply attempts_from_ends; [constructor | lia | lia | lia]. Qed.
End AttemptTheorems.

(** ** Acknowledgement *)

Section ExecuteTheorems.
Context {W C : Type} `{EnvelopeJson, Tracebacks}.
Context (timed : pyfloat → io W unit → io W (result exn unit * bool)) (sleep : pyfloat → io W unit).
Context (self : @JobExecutor W C).
Context (uuid5_url : pystr → uuid) (sha256_hex : pybytes → pystr) (printable : N → bool).
Context (get_trace : W → option TraceContext) (set_trace : option TraceContext → W → W).
Context (log_result : ExecutionResult → option MessageEnvelope → io W unit).
Context (d : Delivery W) (acked : W → bool) (failures : W → uuid → option FailedJobRecord).
Abbreviation execute_it := (execute timed sleep self uuid5_url sha256_hex printable get_trace set_trace log_result d).
Abbreviation identity_of := (delivery_identity self uuid5_url sha256_hex printable d).
Abbreviation run_it := (run_attempts timed sleep).

(** What the operations do to the delivery and to the failure store. *)
Record worker_laws : Prop := {
  wl_find i w : wp (je_find self i) (λ r w', acked w' = acked w ∧ ∀ o, r = Ok o → o = failures w' i) w;
  wl_save record w : wp (je_save self record) (λ r w',
    acked w' = acked w ∧ (r = Ok tt → is_Some (failures w' (fj_failure_id record)))) w;
  wl_clock w : wp (je_clock self) (λ _ w', acked w' = acked w) w;
  wl_log r m w : wp (log_result r m) (λ _ w', acked w' = acked w ∧ failures w' = failures w) w;
  (* a job of this worker has no access to the delivery *)
  wl_attempt reference version binding payload (context : JobExecutionContext C) w :
    resolve (je_resolver self) reference (VInt version) = Ok binding →
    wp (one_attempt timed binding payload context) (λ _ w', acked w' = acked w) w;
  wl_sleep t w : wp (sleep t) (λ _ w', acked w' = acked w) w;
  wl_trace t w : acked (set_trace t w) = acked w;
  wl_ack w : wp (dl_acknowledge d) (λ r w', r = Ok tt → acked w' = true) w;
}.

(** The failure is recorded, or the job has just succeeded. *)
Definition settled (w : W) : Prop :=
  (∃ om fid, identity_of = Ok (om, fid) ∧ is_Some (failures w fid)) ∨
  (∃ m binding w0 r, envelope_decode (je_max_bytes self) (dl_payload d) = Ok m ∧
     resolve (je_resolver self) (me_job_type m) (VInt (me_job_version m)) = Ok binding ∧
     run_it binding (me_payload m) (job_context self m) w0 = (w, Ok r) ∧ er_failure_reason r = None).

(** A run of [execute]: it acknowledges when it returns, and only when settled. *)
Definition safe_run (r : result exn unit) (w' : W) : Prop :=
  (r = Ok tt → acked w' = true) ∧
  (acked w' = true → ∃ w1 w2 ra, dl_acknowledge d w1 = (w2, ra) ∧ acked w1 = false ∧ settled w1).

Hypothesis laws : worker_laws.

Lemma attempts_keep_acked reference version binding payload context k n w :
  resolve (je_resolver self) reference (VInt version) = Ok binding →
  wp (attempts_from timed sleep binding payload context k n) (λ _ w', acked w' = acked w) w.
Proof.
  intros Hres. revert n w. induction k as [| k IH]; intros n w; [done |]. cbn [attempts_from]. apply wp_bind.
  eapply wp_mono; [by eapply (wl_attempt laws) |]. intros [[out expired] | e] w1 Hw1; [| done]. cbn [fst snd].
  destruct (attempt_verdict n out expired); [done | done |]. case_bool; [done |]. apply wp_bind.
  eapply wp_mono; [apply (wl_sleep laws) |]. intros [[] | e'] w2 Hw2; [| congruence].
  eapply wp_mono; [apply IH |]. intros ? w3. cbn beta. congruence.
Qed.

Lemma safe_raise e w : acked w = false → safe_run (Err e) w.
Proof. intros Hw. split; [done | by rewrite Hw]. Qed.

Lemma acknowledge_safe w : acked w = false → settled w → wp (dl_acknowledge d) safe_run w.
Proof.
  intros Hw Hs. apply wp_of_run. intros w' r Hr. split; [| intros _; by exists w, w', r].
  intros ->. by apply (wp_run _ _ _ _ _ (wl_ack laws w) Hr).
Qed.

Lemma finish_safe om r fid w : acked w = false → identity_of = Ok (om, fid) →
  (er_failure_reason r = None → settled w) → wp (finish self log_result d om r fid) safe_run w.
Proof.
  intros Hw Hid Hs. unfold finish. destruct (er_failure_reason r) as [reason |].
  - apply wp_bind. eapply wp_mono; [apply (wl_clock laws) |]. intros [now | e] w1 Hw1; [| apply safe_raise; congruence].
    apply wp_bind. eapply wp_mono; [apply (wl_save laws) |].
    intros [[] | e] w2 [Hw2 Hsaved]; [| apply safe_raise; congruence]. specialize (Hsaved eq_refl).
    apply wp_bind. eapply wp_mono; [apply (wl_log laws) |].
    intros [[] | e] w3 [Hw3 Hf]; [| apply safe_raise; congruence].
    apply acknowledge_safe; [congruence |]. left. exists om, fid. by rewrite Hf.
  - specialize (Hs eq_refl). apply wp_bind. eapply wp_mono; [by apply acknowledge_safe |].
    intros [[] | e] w1 [Hok Hsafe]; [| by split]. eapply wp_mono; [apply (wl_log laws) |].
    intros r' w2 [Hw2 _]. rewrite <- Hw2 in Hok, Hsafe. split; [intros _; by apply Hok | done].
Qed.

Lemma suppressed_safe om fid (k : io W unit) w : acked w = false → identity_of = Ok (om, fid) →
  (∀ w', acked w' = false → wp k safe_run w') →
  wp (let* failed := already_failed self d fid in if (failed : bool) then dl_acknowledge d else k) safe_run w.
Proof.
  intros Hw Hid Hk. unfold already_failed. apply wp_bind. destruct (dl_possibly_redelivered d); [| by apply Hk].
  apply wp_bind. eapply wp_mono; [apply (wl_find laws) |].
  intros [o | e] w1 [Hw1 Ho]; [| apply safe_raise; congruence]. apply wp_ret. specialize (Ho o eq_refl).
  destruct o as [record |]; [| apply Hk; congruence]. apply acknowledge_safe; [congruence |].
  left. exists om, fid. split; [done |]. by rewrite <- Ho.
Qed.

Lemma resolve_and_run_keeps m w :
  wp (resolve_and_run timed sleep self m) (λ r w', acked w' = acked w ∧ ∀ res, r = Ok res →
    er_failure_reason res = None → ∃ binding,
      resolve (je_resolver self) (me_job_type m) (VInt (me_job_version m)) = Ok binding ∧
      run_it binding (me_payload m) (job_context self m) w = (w', Ok res)) w.
Proof.
  unfold resolve_and_run. destruct (resolve _ _ _) as [binding | e] eqn:Hres.
  - apply wp_of_run. intros w' r Hr. split.
    + unfold run_attempts in Hr. by apply (wp_run _ _ _ _ _ (attempts_keep_acked _ _ _ _ _ _ _ _ Hres) Hr).
    + intros res -> _. by exists binding.
  - destruct e; split; try done; by intros res [= <-].
Qed.

Lemma traced_safe c (body : io W unit) w : acked w = false → (∀ w', acked w' = false → wp body safe_run w') →
  wp (bind_trace_context get_trace set_trace c body) safe_run w.
Proof.
  intros Hw Hb. unfold bind_trace_context. apply wp_bind, wp_ret, wp_bind, wp_ret. cbn beta.
  assert (Hw1 : acked (set_trace (Some c) w) = false) by by rewrite (wl_trace laws).
  specialize (Hb _ Hw1). unfold wp, finally, modify in *. destruct (body _) as [w2 r].
  destruct Hb as [Hok Hsafe]. by split; rewrite (wl_trace laws).
Qed.

(** C12: no message is lost and none is dropped silently: a delivery is
    acknowledged only after its job has succeeded or its failure has been
    recorded, and if its execution returns it has been acknowledged; in every
    other case it stays with the backend. *)
Theorem acknowledged_only_when_settled w : acked w = false → wp execute_it safe_run w.
Proof.
  intros Hw. unfold execute. apply wp_bind_lift; [| intros e _; by apply safe_raise].
  intros [om fid] Hid. cbn [fst snd]. destruct om as [m |].
  - apply traced_safe; [done |]. intros w1 Hw1. apply (suppressed_safe (Some m) fid); [done | done |].
    intros w2 Hw2. apply wp_bind. eapply wp_mono; [apply resolve_and_run_keeps |].
    intros [r | e] w3 [Hw3 Hs]; [| apply safe_raise; congruence]. apply (finish_safe (Some m)); [congruence | done |].
    intros Hr. right. destruct (Hs r eq_refl Hr) as (binding & Hres & Hrun). exists m, binding, w2, r.
    split_and!; [| done | done | done]. unfold delivery_identity in Hid.
    destruct (envelope_decode _ _) as [m' | e']; [congruence | by case_bool].
  - apply (suppressed_safe None fid); [done | done |]. intros w1 Hw1. by apply (finish_safe None).
Qed.
End ExecuteTheorems.

(** A redelivered message whose failure is already recorded is only
    acknowledged: whatever the job, its policy and its directory are, nothing
    is executed and nothing is recorded again. *)
Theorem recorded_failure_not_rerun {W C} `{EnvelopeJson, Tracebacks}
    (timed : pyfloat → io W unit → io W (result exn unit * bool)) (sleep : pyfloat → io W unit) (self : @JobExecutor W C)
    uuid5_url sha256_hex printable (get_trace : W → option TraceContext) (set_trace : option TraceContext → W → W)
    log_result (d : Delivery W) om fid w w1 record :
  let w0 := match om with Some m => set_trace (Some (mk_trace (me_correlation_id m) None None)) w | None => w end in
  dl_possibly_redelivered d = true →
  delivery_identity self uuid5_url sha256_hex printable d = Ok (om, fid) →
  je_find self fid w0 = (w1, Ok (Some record)) →
  execute timed sleep self uuid5_url sha256_hex printable get_trace set_trace log_result d w =
    let '(w2, r) := dl_acknowledge d w1 in
    (match om with Some _ => set_trace (get_trace w) w2 | None => w2 end, r).
Proof.
  intros w0 Hred Hid Hfind. unfold execute, bind at 1, lift. rewrite Hid. cbn [fst snd].
  assert (Hf : already_failed self d fid w0 = (w1, Ok true)).
  { unfold already_failed. rewrite Hred. unfold bind, ret. by rewrite Hfind. }
  destruct om as [m |]; subst w0.
  - unfold bind_trace_context, finally, bind, read, modify. rewrite Hf.
    by destruct (dl_acknowledge d w1) as [w2 r].
  - unfold bind. rewrite Hf. by destruct (dl_acknowledge d w1) as [w2 r].
Qed.

(** ** Witnesses *)

Record DemoWorker := mk_demo { dw_acked : bool; dw_failures : gmap uuid FailedJobRecord; dw_runs : nat }.
Definition dw_failed (w : DemoWorker) (i : uuid) : option FailedJobRecord := dw_failures w !! i.
#[local] Instance demo_tracebacks : Tracebacks :=
  {| exc_module _ := u "app"; exc_qualname _ := u "Error"; exc_traceback _ := [] |}.
Definition demo_timed (t : pyfloat) (m : io DemoWorker unit) : io DemoWorker (result exn unit * bool) :=
  λ w, let '(w', r) := m w in (w', Ok (r, false)).
(** A job that asks for a retry the first time. *)
Definition demo_handle (c : JobExecutionContext unit) : io DemoWorker unit :=
  λ w, (mk_demo (dw_acked w) (dw_failures w) (S (dw_runs w)),
        if dw_runs w =? 0 then Err RetryableJobError else Ok tt).
Definition demo_job_codec : JobCodec DemoWorker (JobExecutionContext unit) :=
  mk_codec (λ _, Ok []) (λ _, Ok (mk_job 1 demo_handle)).
Definition demo_job_descriptor : JobDescriptor DemoWorker (JobExecutionContext unit) :=
  mk_descriptor (u "user.cleanup-expired-sessions") [] 1 1 demo_job_codec [] default_policy.
Definition demo_binding : JobBinding DemoWorker (JobExecutionContext unit) :=
  mk_binding demo_job_descriptor (jc_decode demo_job_codec).
Definition demo_resolver : JobResolver DemoWorker (JobExecutionContext unit) :=
  mk_resolver [demo_job_descriptor] [((u "user.cleanup-expired-sessions", 1%Z), demo_binding)]
    [u "user.cleanup-expired-sessions"].
Definition demo_executor : @JobExecutor DemoWorker unit :=
  mk_executor (u "main") (u "mail") demo_resolver
    (λ i w, (w, Ok (dw_failures w !! i)))
    (λ r, modify (λ w, mk_demo (dw_acked w) (<[fj_failure_id r := r]> (dw_failures w)) (dw_runs w)))
    1048576 tt (ret (mk_dt 2000 None)).
Definition demo_delivery (redelivered : bool) : Delivery DemoWorker :=
  mk_delivery demo_raw (u "1-0") redelivered (modify (λ w, mk_demo true (dw_failures w) (dw_runs w))).
Definition demo_uuid5 (_ : pystr) : uuid := demo_replay_id.
Definition demo_sleep (_ : pyfloat) : io DemoWorker unit := ret tt.
Definition demo_log (_ : ExecutionResult) (_ : option MessageEnvelope) : io DemoWorker unit := ret tt.
Definition demo_execute (redelivered : bool) : io DemoWorker unit :=
  execute demo_timed demo_sleep demo_executor demo_uuid5 (λ _, []) (λ _, true) (λ _, None) (λ _ w, w) demo_log
    (demo_delivery redelivered).
Definition demo_start : DemoWorker := mk_demo false ∅ 0.

Lemma demo_laws redelivered : worker_laws demo_timed demo_sleep demo_executor (λ _ w, w) demo_log
  (demo_delivery redelivered) dw_acked dw_failed.
Proof.
  split; try (by intros; unfold wp; cbn; naive_solver).
  - intros record w. unfold wp. cbn. split; [done |]. intros _. unfold dw_failed. cbn. by rewrite lookup_insert_eq.
  - intros reference version binding payload context w Hres. unfold resolve in Hres. rewrite guard_bind_ok in Hres.
    destruct Hres as [_ Hres]. cbn [is_int] in Hres. rewrite guard_bind_ok in Hres. destruct Hres as [_ Hres].
    cbn [jr_bindings demo_resolver je_resolver demo_executor bdict_get] in Hres.
    destruct (decide _); [| done]. injection Hres as <-. by vm_compute.
Qed.

Lemma run_attempts_bounded_witness :
  let context := mk_context tt (mk_metadata demo_id [] 1 (mk_dt 0 None) [] [] None None) in
  wp (run_attempts demo_timed demo_sleep demo_binding [] context) (λ r w', ∃ n w1,
    retried demo_timed demo_sleep demo_binding [] context demo_start n w1 ∧ (1 ≤ n ≤ max_attempts demo_binding)%Z ∧
    ended demo_timed demo_sleep demo_binding [] context n w1 r w') demo_start ∧
  (run_attempts demo_timed demo_sleep demo_binding [] context demo_start).2 = Ok (result_of 2 None).
Proof.
  intros context. split; [| by vm_compute].
  apply (run_attempts_bounded demo_timed demo_sleep demo_binding [] context demo_start). by vm_compute.
Defined.

Lemma acknowledged_only_when_settled_witness :
  wp (demo_execute false) (safe_run demo_timed demo_sleep demo_executor demo_uuid5 (λ _, []) (λ _, true)
    (demo_delivery false) dw_acked dw_failed) demo_start ∧
  dw_acked (demo_execute false demo_start).1 = true.
Proof.
  split; [| by vm_compute].
  apply (acknowledged_only_when_settled demo_timed demo_sleep demo_executor demo_uuid5 (λ _, []) (λ _, true)
    (λ _, None) (λ _ w, w) demo_log (demo_delivery false) dw_acked dw_failed (demo_laws false) demo_start).
  reflexivity.
Defined.

(** The message comes again after its failure was recorded. *)
Definition demo_failed_before : DemoWorker :=
  mk_demo false {[ demo_replay_id := demo_failure ]} 0.

Lemma recorded_failure_not_rerun_witness :
  demo_execute true demo_failed_before = (mk_demo true {[ demo_replay_id := demo_failure ]} 0, Ok tt).
Proof.
  assert (Hid : delivery_identity demo_executor demo_uuid5 (λ _, []) (λ _, true) (demo_delivery true)
    = Ok (Some demo_message, demo_replay_id)) by (vm_compute; reflexivity).
  assert (Hf : je_find demo_executor demo_replay_id demo_failed_before = (demo_failed_before, Ok (Some demo_failure)))
    by (cbn [je_find demo_executor dw_failures demo_failed_before]; by rewrite lookup_singleton_eq).
  exact (recorded_failure_not_rerun demo_timed demo_sleep demo_executor demo_uuid5 (λ _, []) (λ _, true)
    (λ _, None) (λ _ w, w) demo_log (demo_delivery true) (Some demo_message) demo_replay_id demo_failed_before
    demo_failed_before demo_failure eq_refl Hid Hf).
Defined.
