(* ===== verification/Database.v ===== *)
(** * Database: named connections, providers and ULID keys

    Models [infrastructure/database/connections/resolver.py],
    [providers/registry.py], [manager.py] and [identifiers.py].  A provider's
    own checks and the engine behind a resource are parameters. *)

From S2P Require Import Prelude Text Errors PyVal Decimal Lazy Runtime Cache.
Local Open Scope prog_scope.

(** ** ULID *)

Definition crockford_base32 : pystr := u "0123456789abcdefghjkmnpqrstvwxyz".
Definition ulid_length : nat := 26.
Definition max_ulid_timestamp : Z := Z.shiftl 1 48 - 1.
Definition crockford (d : N) : N := default 0%N (crockford_base32 !! N.to_nat d).

(** The loop over [encoded], from the last character to the first. *)
Fixpoint ulid_fill (k : nat) (value : N) (encoded : pystr) : pystr :=
  match k with
  | O => encoded
  | S k => ulid_fill k (N.shiftr value 5) (crockford (N.land value 31) :: encoded)
  end.
(** [new_ulid()] at a time in nanoseconds with ten random bytes. *)
Definition new_ulid (time_ns : Z) (random : N) : result exn pystr :=
  let timestamp_ms := (time_ns / 1000000)%Z in
  let? _ := guard ((0 <=? timestamp_ms) && (timestamp_ms <=? max_ulid_timestamp))%Z OverflowError in
  let value := N.lor (N.shiftl (Z.to_N timestamp_ms) 80) random in
  Ok (ulid_fill ulid_length value []).

Section Connections.
Context {Definition_ : Type}.

(** ** DatabaseProviderRegistry *)
Record DatabaseProvider := mk_db_provider {
  dbp_drivers : list pystr;
  dbp_prepare : pydict pyval → result exn Definition_;
}.

Fixpoint register_drivers (p : DatabaseProvider) (drivers : list pystr) (registered : pydict DatabaseProvider)
    : result exn (pydict DatabaseProvider) :=
  match drivers with
  | [] => Ok registered
  | driver :: drivers =>
      let? _ := guard (negb (bool_decide (driver = []))) DatabaseConfigurationError in
      let? _ := guard (negb (bool_decide (driver ∈ dict_keys registered))) DatabaseConfigurationError in
      register_drivers p drivers (dict_set registered driver p)
  end.
Fixpoint register_databases (providers : list DatabaseProvider) (registered : pydict DatabaseProvider)
    : result exn (pydict DatabaseProvider) :=
  match providers with
  | [] => Ok registered
  | p :: providers =>
      let? _ := guard (negb (bool_decide (dbp_drivers p = []))) DatabaseConfigurationError in
      let? registered := register_drivers p (dbp_drivers p) registered in
      register_databases providers registered
  end.
Definition DatabaseProviderRegistry_new (providers : list DatabaseProvider) := register_databases providers [].

Definition database_prepare (registry : pydict DatabaseProvider) (raw : pydict pyval) : result exn Definition_ :=
  match dict_get raw (u "driver") ≫= is_str with
  | None => Err DatabaseConfigurationError
  | Some driver =>
      let? _ := guard (negb (bool_decide (driver = []))) DatabaseConfigurationError in
      match dict_get registry driver with
      | None => Err DatabaseConfigurationError
      | Some p => dbp_prepare p raw
      end
  end.

(** ** connections/resolver.py *)
Definition apply_database_connection_defaults (raw : pydict pyval) (connection_defaults : pydict (pydict pyval))
    : pydict pyval :=
  let defaults := match dict_get raw (u "driver") with
                  | Some (VStr driver) => default [] (dict_get connection_defaults driver)
                  | _ => []
                  end in
  dict_merge defaults raw.

Definition validate_database_definition (registry : pydict DatabaseProvider) (raw : pydict pyval)
    : result exn Definition_ :=
  match database_prepare registry raw with
  | Err ValidationError => Err DatabaseConfigurationError
  | r => r
  end.

Record DatabaseSettings := mk_db_settings {
  ds_default : option pystr;
  ds_connection_defaults : pydict (pydict pyval);
  ds_connections : pydict (pydict pyval);
}.

Definition resolve_database_definition (registry : pydict DatabaseProvider) (s : DatabaseSettings) (name : option pystr)
    : result exn Definition_ :=
  match (match name with Some n => Some n | None => ds_default s end) with
  | None => Err DatabaseConfigurationError
  | Some resolved =>
      match dict_get (ds_connections s) resolved with
      | None => Err DatabaseConfigurationError
      | Some raw =>
          validate_database_definition registry
            (apply_database_connection_defaults raw (ds_connection_defaults s))
      end
  end.
End Connections.
Arguments DatabaseProvider : clear implicits.

(** ** DatabaseManager *)
Section Manager.
Context {W Definition_ Resource : Type}.
Context (registry : pydict (DatabaseProvider Definition_)) (settings : DatabaseSettings)
  (create_database_resource : pystr → Definition_ → io W Resource).
Context (closed : W → bool) (set_closed : W → W) (resources : pydict (io W Resource)) (handles : list (@handle W)).

Definition database_resolve_name (name : option pystr) : result exn pystr :=
  match name with
  | Some n => Ok n
  | None => match ds_default settings with Some n => Ok n | None => Err DatabaseConfigurationError end
  end.

(** [self._create]: the factory of the lazy resource [name]. *)
Definition database_create (name : pystr) (raw : pydict pyval) : io W Resource :=
  let* definition := lift (validate_database_definition registry
    (apply_database_connection_defaults raw (ds_connection_defaults settings))) in
  create_database_resource name definition.

Definition database_get (name : option pystr) : io W Resource :=
  let* is_closed := read closed in
  (if (is_closed : bool) then raise RuntimeError else ret tt);;;
  let* resolved := lift (database_resolve_name name) in
  match dict_get resources resolved with
  | None => raise DatabaseConfigurationError
  | Some get => get
  end.

(** [async with session(name)]: [open] makes a session of a resource and
    [close] is its [__aexit__]. *)
Definition database_session {Session A} (open : Resource → io W Session) (close : Session → io W unit)
    (name : option pystr) (body : Session → io W A) : io W A :=
  let* resource := database_get name in
  let* session := open resource in
  finally (body session) (close session).

Definition database_aclose : io W unit :=
  modify set_closed;;;
  close_lazy_resources handles.
End Manager.

(** ** Lemmas: digits and their order *)

Lemma digits_ltb b l1 l2 : (0 < b)%N → Forall (λ d, d < b)%N l1 → Forall (λ d, d < b)%N l2 → length l1 = length l2 →
  text_ltb l1 l2 = (of_digits b l1 <? of_digits b l2)%N.
Proof.
  intros Hb. revert l2. induction l1 as [| x l1 IH]; intros [| y l2] H1 H2 Hl; try done. injection Hl as Hl.
  apply list.Forall_cons in H1 as [Hx H1], H2 as [Hy H2]. cbn [text_ltb]. rewrite (IH l2) by done.
  assert (Hc : ∀ d l, of_digits b (d :: l) = (d * b ^ N.of_nat (length l) + of_digits b l)%N).
  { intros d l. unfold of_digits at 1. cbn [fold_left]. by rewrite of_digits_acc. }
  rewrite !Hc, Hl. pose proof (of_digits_bound b l1 Hb H1) as B1. pose proof (of_digits_bound b l2 Hb H2) as B2.
  rewrite Hl in B1. set (p := (b ^ N.of_nat (length l2))%N) in *.
  destruct (N.lt_trichotomy x y) as [Hlt | [-> | Hlt]].
  - rewrite (proj2 (N.ltb_lt x y)) by done. symmetry. apply N.ltb_lt. nia.
  - rewrite N.ltb_irrefl, N.eqb_refl. simpl. apply eq_true_iff_eq. rewrite !N.ltb_lt. lia.
  - rewrite (proj2 (N.ltb_ge x y)), (proj2 (N.eqb_neq x y)) by lia. symmetry. apply N.ltb_ge. nia.
Qed.

Lemma ulid_fill_digits k v acc : ulid_fill k v acc = map crockford (to_digits 32 k v) ++ acc.
Proof.
  revert v acc. induction k as [| k IH]; intros v acc; [done |]. cbn [ulid_fill to_digits].
  etransitivity; [apply IH |]. rewrite map_app, <- app_assoc, N.shiftr_div_pow2. change 31%N with (N.ones 5). rewrite N.land_ones. done.
Qed.

(** The alphabet is strictly increasing: order and identity are kept. *)
Lemma crockford_order x y : (x < 32)%N → (y < 32)%N →
  (crockford x <? crockford y)%N = (x <? y)%N ∧ (crockford x =? crockford y)%N = (x =? y)%N
  ∧ existsb (N.eqb (crockford x)) crockford_base32 = true.
Proof.
  intros Hx Hy. assert (Hall : forallb (λ n, forallb (λ m,
      Bool.eqb (crockford (N.of_nat n) <? crockford (N.of_nat m))%N (N.of_nat n <? N.of_nat m)%N
      && Bool.eqb (crockford (N.of_nat n) =? crockford (N.of_nat m))%N (N.of_nat n =? N.of_nat m)%N
      && existsb (N.eqb (crockford (N.of_nat n))) crockford_base32)
    (seq 0 32)) (seq 0 32) = true) by by vm_compute.
  rewrite forallb_forall in Hall. specialize (Hall (N.to_nat x) ltac:(apply in_seq; lia)).
  rewrite forallb_forall in Hall. specialize (Hall (N.to_nat y) ltac:(apply in_seq; lia)).
  rewrite !N2Nat.id in Hall. apply andb_true_iff in Hall as [Hall H3]. apply andb_true_iff in Hall as [H1 H2].
  apply eqb_prop in H1, H2. done.
Qed.

Lemma crockford_ltb l1 l2 : Forall (λ d, d < 32)%N l1 → Forall (λ d, d < 32)%N l2 →
  text_ltb (map crockford l1) (map crockford l2) = text_ltb l1 l2.
Proof.
  revert l2. induction l1 as [| x l1 IH]; intros [| y l2] H1 H2; try done.
  apply list.Forall_cons in H1 as [Hx H1], H2 as [Hy H2]. cbn [map text_ltb].
  destruct (crockford_order x y Hx Hy) as (-> & -> & _). by rewrite IH.
Qed.

Lemma crockford_inj l1 l2 : Forall (λ d, d < 32)%N l1 → Forall (λ d, d < 32)%N l2 →
  map crockford l1 = map crockford l2 → l1 = l2.
Proof.
  revert l2. induction l1 as [| x l1 IH]; intros [| y l2] H1 H2; try done. cbn [map]. intros [= Hc Hl].
  apply list.Forall_cons in H1 as [Hx H1], H2 as [Hy H2]. f_equal; [| by apply IH].
  destruct (crockford_order x y Hx Hy) as (_ & He & _). rewrite Hc, N.eqb_refl in He. by apply N.eqb_eq.
Qed.

Lemma ulid_value t r ulid : (r < 2 ^ 80)%N → new_ulid t r = Ok ulid →
  ∃ ms, (t / 1000000)%Z = Z.of_N ms ∧ (ms < 2 ^ 48)%N ∧
    ulid = map crockford (to_digits 32 26 (ms * 2 ^ 80 + r)) ∧ (ms * 2 ^ 80 + r < 2 ^ 130)%N.
Proof.
  intros Hr. unfold new_ulid. rewrite guard_bind_ok. intros [Ht Hu]. to_prop.
  assert (Hulid : ulid = ulid_fill ulid_length (N.lor (N.shiftl (Z.to_N (t / 1000000)) 80) r) []) by congruence.
  clear Hu. subst ulid.
  change max_ulid_timestamp with 281474976710655%Z in *.
  exists (Z.to_N (t / 1000000)). split_and!; [lia | lia | | lia].
  rewrite ulid_fill_digits, app_nil_r. do 2 f_equal. set (ms := Z.to_N (t / 1000000)).
  rewrite N.shiftl_mul_pow2. apply N.bits_inj. intros i.
  rewrite N.lor_spec. destruct (decide (i < 80)%N) as [Hi | Hi].
  - rewrite N.mul_pow2_bits_low by done. simpl. symmetry.
    rewrite <- (N.mod_pow2_bits_low (ms * 2 ^ 80 + r) 80) by done.
    by rewrite N.add_comm, N.Div0.mod_add, N.mod_small.
  - rewrite N.mul_pow2_bits_high by lia. rewrite (N.bits_above_log2 r).
    2: { destruct (decide (r = 0)%N) as [-> | ?]; [simpl; lia |]. apply N.log2_lt_pow2; [lia |].
         eapply N.lt_le_trans; [exact Hr |]. apply N.pow_le_mono_r; lia. }
    rewrite orb_false_r. replace i with (i - 80 + 80)%N at 2 by lia. rewrite <- N.div_pow2_bits.
    by rewrite N.div_add_l, N.div_small, N.add_0_r.
Qed.

Lemma existsb_crockford l : Forall (λ d, d < 32)%N l →
  forallb (λ c, existsb (N.eqb c) crockford_base32) (map crockford l) = true.
Proof.
  induction 1 as [| d l Hd _ IH]; [done |]. cbn [map forallb]. rewrite IH.
  by destruct (crockford_order d d Hd Hd) as (_ & _ & ->).
Qed.

(** Two keys made at times [t1], [t2] with random parts [r1], [r2] have 26
    characters of the alphabet each; as texts they compare the way the pairs
    (millisecond, random part) compare, so keys of a later millisecond sort
    after all keys of an earlier one; and they are equal only when both the
    millisecond and the random part are.  A key cannot be made exactly when the
    time is before 1970 or past the 48-bit range. *)
Theorem new_ulid_sortable t1 t2 r1 r2 :
  (r1 < 2 ^ 80)%N → (r2 < 2 ^ 80)%N →
  ((new_ulid t1 r1 = Err OverflowError) ↔ ¬ (0 <= t1 / 1000000 < 2 ^ 48)%Z) ∧
  ∀ k1 k2, new_ulid t1 r1 = Ok k1 → new_ulid t2 r2 = Ok k2 →
    length k1 = 26 ∧ forallb (λ c, existsb (N.eqb c) crockford_base32) k1 = true ∧
    (text_ltb k1 k2 = true ↔
      (t1 / 1000000 < t2 / 1000000)%Z ∨ (t1 / 1000000)%Z = (t2 / 1000000)%Z ∧ (r1 < r2)%N) ∧
    (k1 = k2 ↔ (t1 / 1000000)%Z = (t2 / 1000000)%Z ∧ r1 = r2).
Proof.
  intros H1 H2. split.
  - unfold new_ulid. change max_ulid_timestamp with 281474976710655%Z. unfold guard.
    destruct (_ && _)%bool eqn:Hg; cbn [result_bind]; to_prop; split; try done; intros; try lia.
  - intros k1 k2 (m1 & -> & B1 & -> & C1)%ulid_value (m2 & -> & B2 & -> & C2)%ulid_value; [| done | done].
    rewrite length_map, length_to_digits. pose proof (to_digits_bound 32 26 (m1 * 2 ^ 80 + r1) eq_refl) as D1.
    pose proof (to_digits_bound 32 26 (m2 * 2 ^ 80 + r2) eq_refl) as D2.
    rewrite crockford_ltb, (digits_ltb 32) by (done || by rewrite !length_to_digits).
    rewrite !of_to_digits_small by done.
    split_and!; [done | by apply existsb_crockford | rewrite N.ltb_lt; lia |]. split.
    + intros Heq%crockford_inj; [| done | done]. apply (f_equal (of_digits 32)) in Heq.
      rewrite !of_to_digits_small in Heq by done. split; lia.
    + intros [Hm ->]. apply N2Z.inj in Hm. by subst.
Qed.

Lemma new_ulid_sortable_witness :
  new_ulid 1700000000000000000 5 = Ok (u "01hf7yat000000000000000005") ∧
  text_ltb (u "01hf7yat000000000000000005") (u "01hf7yat010000000000000003") = true.
Proof.
  assert (E1 : new_ulid 1700000000000000000 5 = Ok (u "01hf7yat000000000000000005")) by by vm_compute.
  assert (E2 : new_ulid 1700000000001000000 3 = Ok (u "01hf7yat010000000000000003")) by by vm_compute.
  split; [exact E1 |].
  pose proof (new_ulid_sortable 1700000000000000000 1700000000001000000 5 3 eq_refl eq_refl) as [_ H].
  destruct (H _ _ E1 E2) as (_ & _ & [_ Hlt] & _). apply Hlt. left. by vm_compute.
Defined.
