(* ===== verification/Json.v ===== *)
(** * Json: the texts [json.dumps] writes for scalars

    The standard library's JSON encoder on the scalar values the sources
    give it, with [ensure_ascii=False]; a reader for these literals, as every
    JSON-like grammar reads them; and that reading undoes writing.  The
    shortest decimal form of a float is the class [FloatRepr]. *)

From Stdlib Require Import Floats.SpecFloat.
From S2P Require Import Prelude Text PyVal Decimal.

(** [float.__repr__] and the reader of float literals. *)
Class FloatRepr := { float_repr : spec_float → pystr; float_parse : pystr → option spec_float }.
Definition is_number_char (c : N) : bool :=
  is_09 c || (c =? 43)%N || (c =? 45)%N || (c =? 46)%N || (c =? 101)%N.
Definition is_int_text (s : pystr) : bool :=
  match s with
  | 45%N :: (_ :: _) as digits => forallb is_09 digits
  | _ :: _ => forallb is_09 s
  | [] => false
  end.
Class FloatReprLaws `{FloatRepr} : Prop := {
  float_parse_repr f : f ≠ S754_nan → float_parse (float_repr f) = Some f;
  float_repr_chars f : (∃ b, f = S754_zero b) ∨ (∃ b m e, f = S754_finite b m e) →
    forallb is_number_char (float_repr f) = true ∧ float_repr f ≠ [] ∧ is_int_text (float_repr f) = false;
}.

(** ** Strings *)

Definition json_escape (c : N) : pystr :=
  if (c =? 34)%N then [92; 34]%N else if (c =? 92)%N then [92; 92]%N
  else if (c =? 10)%N then [92; 110]%N else if (c =? 13)%N then [92; 114]%N
  else if (c =? 9)%N then [92; 116]%N else if (c =? 12)%N then [92; 102]%N
  else if (c =? 8)%N then [92; 98]%N
  else if (c <? 32)%N then 92%N :: 117%N :: hex_of 4 c
  else [c].
Definition json_body (s : pystr) : pystr := concat (map json_escape s).
Definition json_string (s : pystr) : pystr := 34%N :: json_body s ++ [34%N].

Definition unescape_char (c : N) : option N :=
  if (c =? 34)%N then Some 34%N else if (c =? 92)%N then Some 92%N else if (c =? 47)%N then Some 47%N
  else if (c =? 110)%N then Some 10%N else if (c =? 114)%N then Some 13%N else if (c =? 116)%N then Some 9%N
  else if (c =? 102)%N then Some 12%N else if (c =? 98)%N then Some 8%N else None.
(** The rest of a string literal after its opening quote, and what follows it. *)
Fixpoint read_string (s : pystr) : option (pystr * pystr) :=
  match s with
  | [] => None
  | c :: s1 =>
      if (c =? 34)%N then Some ([], s1)
      else if (c =? 92)%N then
        match s1 with
        | [] => None
        | e :: s2 =>
            if (e =? 117)%N then
              match s2 with
              | h1 :: h2 :: h3 :: h4 :: s3 =>
                  v ← hex_parse [h1; h2; h3; h4]; '(t, rest) ← read_string s3; Some (v :: t, rest)
              | _ => None
              end
            else v ← unescape_char e; '(t, rest) ← read_string s2; Some (v :: t, rest)
        end
      else '(t, rest) ← read_string s1; Some (c :: t, rest)
  end.

(** ** Scalars *)

Definition json_scalar `{FloatRepr} (v : pyval) : option pystr :=
  match v with
  | VStr s => Some (json_string s)
  | VInt z => Some (str_int z)
  | VFloat f => Some (float_repr f)
  | VBool true => Some (u "true")
  | VBool false => Some (u "false")
  | _ => None
  end.

Definition int_value (s : pystr) : Z :=
  match s with
  | 45%N :: digits => - Z.of_N (digits_value digits)
  | _ => Z.of_N (digits_value s)
  end.
Fixpoint span (p : N → bool) (s : pystr) : pystr * pystr :=
  match s with
  | [] => ([], [])
  | c :: s' => if p c then let '(a, b) := span p s' in (c :: a, b) else ([], s)
  end.
Definition read_number `{FloatRepr} (s : pystr) : option (pyval * pystr) :=
  match span is_number_char s with
  | ([], _) => None
  | (t, rest) =>
      if is_int_text t then Some (VInt (int_value t), rest)
      else f ← float_parse t; Some (VFloat f, rest)
  end.
Definition read_scalar `{FloatRepr} (s : pystr) : option (pyval * pystr) :=
  match s with
  | 34%N :: s' => '(t, rest) ← read_string s'; Some (VStr t, rest)
  | _ =>
      match strip_prefix (u "true") s, strip_prefix (u "false") s with
      | Some rest, _ => Some (VBool true, rest)
      | _, Some rest => Some (VBool false, rest)
      | _, _ => read_number s
      end
  end.

(** ** Reading undoes writing *)

Lemma read_string_escape c s t rest : read_string s = Some (t, rest) →
  read_string (json_escape c ++ s) = Some (c :: t, rest).
Proof.
  intros Hs. unfold json_escape.
  repeat (case_bool; to_prop; [subst; simpl; by rewrite Hs |]).
  case_bool; to_prop.
  - pose proof (hex_parse_of 4 c ltac:(simpl; lia)) as Hp. pose proof (length_hex_of 4 c) as Hl.
    destruct (hex_of 4 c) as [| h1 [| h2 [| h3 [| h4 [| ? ?]]]]]; try done.
    cbn [app read_string N.eqb Pos.eqb]. rewrite Hp. simpl. by rewrite Hs.
  - cbn [app read_string]. rewrite (proj2 (N.eqb_neq c 34)), (proj2 (N.eqb_neq c 92)) by done. by rewrite Hs.
Qed.

Lemma read_string_body s rest : read_string (json_body s ++ 34%N :: rest) = Some (s, rest).
Proof.
  unfold json_body. induction s as [| c s IH]; [done |]. cbn [map concat]. rewrite <- app_assoc.
  by apply read_string_escape.
Qed.

Lemma span_app p a b : forallb p a = true → match b with c :: _ => p c = false | [] => True end → span p (a ++ b) = (a, b).
Proof.
  intros Ha Hb. induction a as [| c a IH]; simpl in *.
  - destruct b as [| c b]; [done |]. simpl. by rewrite Hb.
  - apply andb_true_iff in Ha as [-> Ha]. by rewrite IH.
Qed.

Lemma decimal_digits n : forallb is_09 (decimal n) = true ∧ decimal n ≠ [].
Proof.
  destruct (decide (n = 0)%N) as [-> | Hn]; [by vm_compute |].
  pose proof (decimal_canonical n ltac:(lia)) as Hc. split; [by apply canonical_digits |]. by intros He; rewrite He in Hc.
Qed.

Lemma str_int_read z : is_int_text (str_int z) = true ∧ int_value (str_int z) = z
  ∧ forallb is_number_char (str_int z) = true ∧ str_int z ≠ [].
Proof.
  unfold str_int. assert (Hchars : ∀ s, forallb is_09 s = true → forallb is_number_char s = true).
  { intros s. apply forallb_impl. intros c Hc. unfold is_number_char. by rewrite Hc. }
  destruct (z <? 0)%Z eqn:Hz; to_prop.
  - destruct (decimal_digits (Z.to_N (- z))) as [Hd Hn]. pose proof (decimal_value_of (Z.to_N (- z))) as Hv.
    split_and!; [| | cbn [forallb]; by rewrite (Hchars _ Hd) | done].
    + simpl. by destruct (decimal _).
    + simpl. rewrite Hv. lia.
  - destruct (decimal_digits (Z.to_N z)) as [Hd Hn]. pose proof (decimal_value_of (Z.to_N z)) as Hv.
    destruct (decimal (Z.to_N z)) as [| c s]; [done |].
    assert (Hc : c ≠ 45%N).
    { cbn [forallb] in Hd. apply andb_true_iff in Hd as [Hd _]. unfold is_09, in_range in Hd. to_prop. lia. }
    split_and!; [| | by apply Hchars | done].
    + unfold is_int_text. destruct (decide (c = 45%N)); [done |]. repeat case_match; try done; by subst.
    + transitivity (Z.of_N (digits_value (c :: s))); [| rewrite Hv; lia].
      unfold int_value. repeat case_match; try done; by simplify_eq.
Qed.

(** A text that can follow a literal without being read as part of it. *)
Definition ends_number (rest : pystr) : Prop := match rest with c :: _ => is_number_char c = false | [] => True end.

Lemma read_number_app `{FloatRepr} t rest : forallb is_number_char t = true → t ≠ [] → ends_number rest →
  read_number (t ++ rest) =
    if is_int_text t then Some (VInt (int_value t), rest)
    else f ← float_parse t; Some (VFloat f, rest).
Proof. intros Ht Hn Hr. unfold read_number. rewrite span_app by done. by destruct t. Qed.

Lemma number_not_word c s : is_number_char c = true →
  c ≠ 34%N ∧ strip_prefix (u "true") (c :: s) = None ∧ strip_prefix (u "false") (c :: s) = None.
Proof.
  intros Hc. assert (c ≠ 34 ∧ c ≠ 116 ∧ c ≠ 102)%N as (? & ? & ?).
  { unfold is_number_char, is_09, in_range in Hc. rewrite !orb_true_iff, !N.eqb_eq in Hc. split_and!; intros ->; simpl in Hc; naive_solver. }
  split; [done |].
  change (u "true") with [116; 114; 117; 101]%N. change (u "false") with [102; 97; 108; 115; 101]%N.
  cbn [strip_prefix]. rewrite (proj2 (N.eqb_neq 116 c)), (proj2 (N.eqb_neq 102 c)) by done. done.
Qed.

Lemma read_scalar_number `{FloatRepr} t rest : forallb is_number_char t = true → t ≠ [] →
  read_scalar (t ++ rest) = read_number (t ++ rest).
Proof.
  intros Ht Hn. destruct t as [| c t]; [done |]. cbn [forallb app] in *. apply andb_true_iff in Ht as [Hc _].
  destruct (number_not_word c (t ++ rest) Hc) as (Hq & H1 & H2). unfold read_scalar. rewrite H1, H2.
  repeat case_match; try done; by simplify_eq.
Qed.

(** The scalars metadata may hold. *)
Definition plain_scalar (v : pyval) : bool :=
  match v with
  | VStr _ | VInt _ | VBool _ => true
  | VFloat (S754_zero _) | VFloat (S754_finite _ _ _) => true
  | _ => false
  end.

Lemma read_scalar_json `{FloatReprLaws} v t rest : plain_scalar v = true → json_scalar v = Some t → ends_number rest →
  read_scalar (t ++ rest) = Some (v, rest).
Proof.
  intros Hv Ht Hr. destruct v as [| b | z | f | | s | | | |]; try done; simpl in Ht.
  - destruct b; injection Ht as <-; reflexivity.
  - injection Ht as <-. destruct (str_int_read z) as (Hi & Hval & Hc & Hn).
    by rewrite read_scalar_number, read_number_app, Hi, Hval.
  - injection Ht as <-. destruct (float_repr_chars f) as (Hc & Hn & Hi); [destruct f; naive_solver |].
    rewrite read_scalar_number, read_number_app, Hi by done. rewrite float_parse_repr; [done | by destruct f].
  - injection Ht as <-. unfold json_string, read_scalar. cbn [app]. rewrite <- app_assoc. cbn [app].
    by rewrite read_string_body.
Qed.

(** One value the class admits: mantissa and binary exponent. *)
Definition sign_text (b : bool) : pystr := if b then [45%N] else [].
#[export] Instance binary_repr : FloatRepr := {|
  float_repr f :=
    match f with
    | S754_zero b => sign_text b ++ u "0.0"
    | S754_finite b m e => sign_text b ++ decimal (Npos m) ++ 101%N :: str_int e
    | S754_infinity b => sign_text b ++ u "e"
    | S754_nan => u "ee"
    end;
  float_parse s :=
    let '(b, s) := match s with 45%N :: s => (true, s) | _ => (false, s) end in
    match span is_09 s with
    | (_, 46%N :: _) => Some (S754_zero b)
    | ([], _) => Some (S754_infinity b)
    | (m, 101%N :: e) =>
        match digits_value m with Npos p => Some (S754_finite b p (int_value e)) | N0 => None end
    | _ => None
    end;
|}.

Lemma sign_dropped b s : match s with c :: _ => c ≠ 45%N | [] => True end →
  match sign_text b ++ s with 45%N :: s' => (true, s') | _ => (false, sign_text b ++ s) end = (b, s).
Proof. destruct b; [done |]. simpl. destruct s as [| c s]; [done |]. intros Hc. repeat case_match; by simplify_eq. Qed.

#[export] Instance binary_repr_laws : FloatReprLaws.
Proof.
  assert (Hnum : ∀ s, forallb is_09 s = true → forallb is_number_char s = true).
  { intros s. apply forallb_impl. intros c Hc. unfold is_number_char. by rewrite Hc. }
  split.
  - intros f Hf. destruct f as [[] | [] | | b m e]; [done.. |]. unfold float_parse, float_repr, binary_repr.
    destruct (decimal_digits (Npos m)) as [Hd Hn]. rewrite sign_dropped.
    2: { destruct (decimal (Npos m)) as [| c s]; [done |]. simpl in *. apply andb_true_iff in Hd as [Hc _].
         intros ->. done. }
    rewrite span_app by done. pose proof (decimal_value_of (Npos m)) as Hv.
    destruct (decimal (Npos m)) as [| c s]; [done |]. rewrite Hv. by destruct (str_int_read e) as (_ & -> & _).
  - intros f Hf. destruct f as [[] | [] | | b m e]; try (by vm_compute); [naive_solver.. |]. clear Hf.
    unfold float_repr, binary_repr. destruct (decimal_digits (Npos m)) as [Hd Hn].
    destruct (str_int_read e) as (_ & _ & He & _). split_and!.
    + rewrite forallb_app. apply andb_true_iff. split; [by destruct b |]. rewrite forallb_app, (Hnum _ Hd). simpl. done.
    + by destruct b, (decimal (Npos m)).
    + assert (Hno : ∀ l, forallb is_09 (l ++ 101%N :: str_int e) = false).
      { intros l. rewrite forallb_app. simpl. apply andb_false_r. }
      destruct b; cbn [sign_text app]; [destruct (decimal (Npos m)) as [| c s] eqn:Hm; [done |]; simpl; apply (Hno (c :: s)) |].
      destruct (decimal (Npos m)) as [| c s] eqn:Hm; [done |]. unfold is_int_text. cbn [app].
      simpl in Hd. apply andb_true_iff in Hd as [Hc _].
      repeat case_match; simplify_eq; try done; apply (Hno (_ :: s)).
Qed.
