(* ===== verification/JsonText.v ===== *)
(** * JsonText: JSON values, [json.dumps] and [json.loads]

    The encoder and the decoder of the standard library on the values JSON
    has, as the sources call them: [separators=(",", ":")] and
    [ensure_ascii=False] when writing, the defaults when reading (which accept
    [NaN] and [Infinity], keep the last of several equal keys, refuse control
    characters in strings and integers of more than 4300 digits, and stop at
    the recursion limit).  Json.v has the scalars; floats are the class
    [FloatRepr] there. *)

From Stdlib Require Import Floats.SpecFloat.
From S2P Require Import Prelude Text PyVal Errors Decimal Json.
Local Open Scope prog_scope.

Inductive json :=
| JNull | JBool (b : bool) | JInt (z : Z) | JFloat (f : spec_float) | JStr (s : pystr)
| JArr (l : list json) | JObj (l : list (pystr * json)).

(** Induction with the members of arrays and objects. *)
Section Induction.
Context (P : json → Prop) (Hnull : P JNull) (Hbool : ∀ b, P (JBool b)) (Hint : ∀ z, P (JInt z)) (Hfloat : ∀ f, P (JFloat f))
  (Hstr : ∀ s, P (JStr s)) (Harr : ∀ l, Forall P l → P (JArr l)) (Hobj : ∀ l, Forall (λ kv, P kv.2) l → P (JObj l)).
Fixpoint json_induction (j : json) : P j :=
  match j with
  | JNull => Hnull
  | JBool b => Hbool b
  | JInt z => Hint z
  | JFloat f => Hfloat f
  | JStr s => Hstr s
  | JArr l => Harr l ((fix go l : Forall P l := match l with [] => @List.Forall_nil _ P | x :: l => @List.Forall_cons _ P x l (json_induction x) (go l) end) l)
  | JObj l => Hobj l ((fix go l : Forall (λ kv : pystr * json, P kv.2) l :=
      match l with [] => @List.Forall_nil _ _ | kv :: l => @List.Forall_cons _ (λ kv, P kv.2) kv l (json_induction kv.2) (go l) end) l)
  end.
End Induction.

(** ** Writing *)

Definition max_str_digits : nat := 4300.
Definition int_digits (z : Z) : nat := length (decimal (Z.to_N (Z.abs z))).
(** Every integer can be converted to text. *)
Fixpoint ints_ok (j : json) : bool :=
  match j with
  | JInt z => int_digits z <=? max_str_digits
  | JArr l => forallb ints_ok l
  | JObj l => forallb (λ kv, ints_ok kv.2) l
  | _ => true
  end.

Abbreviation commas := (join [44%N]).
Definition float_text `{FloatRepr} (f : spec_float) : pystr :=
  match f with
  | S754_nan => u "NaN"
  | S754_infinity false => u "Infinity"
  | S754_infinity true => u "-Infinity"
  | _ => float_repr f
  end.
Fixpoint json_text `{FloatRepr} (j : json) : pystr :=
  match j with
  | JNull => u "null"
  | JBool true => u "true"
  | JBool false => u "false"
  | JInt z => str_int z
  | JFloat f => float_text f
  | JStr s => json_string s
  | JArr l => 91%N :: commas (map json_text l) ++ [93%N]
  | JObj l => 123%N :: commas (map (λ kv, json_string kv.1 ++ 58%N :: json_text kv.2) l) ++ [125%N]
  end.
(** [json.dumps(j, separators=(",", ":"), ensure_ascii=False)] *)
Definition dumps `{FloatRepr} (j : json) : result exn pystr := if ints_ok j then Ok (json_text j) else Err ValueError.

(** ** Reading *)

Definition is_ws (c : N) : bool := (c =? 32)%N || (c =? 9)%N || (c =? 10)%N || (c =? 13)%N.
Fixpoint skip_ws (s : pystr) : pystr :=
  match s with c :: t => if is_ws c then skip_ws t else s | [] => [] end.

Definition high_surrogate (v : N) : bool := in_range 55296 56319 v.
Definition low_surrogate (v : N) : bool := in_range 56320 57343 v.
Definition join_surrogates (hi lo : N) : N := (65536 + (hi - 55296) * 1024 + (lo - 56320))%N.
Definition cons_char (c : N) (r : result exn (pystr * pystr)) : result exn (pystr * pystr) :=
  let? (t, rest) := r in Ok (c :: t, rest).
(** The rest of a string literal after its opening quote ([scanstring], strict). *)
Fixpoint read_text (s : pystr) : result exn (pystr * pystr) :=
  match s with
  | [] => Err ValueError
  | c :: s1 =>
      if (c =? 34)%N then Ok ([], s1)
      else if (c <? 32)%N then Err ValueError
      else if (c =? 92)%N then
        match s1 with
        | [] => Err ValueError
        | e :: s2 =>
            if (e =? 117)%N then
              match s2 with
              | h1 :: h2 :: h3 :: h4 :: s3 =>
                  match hex_parse [h1; h2; h3; h4] with
                  | None => Err ValueError
                  | Some v =>
                      match s3 with
                      | b :: w :: l1 :: l2 :: l3 :: l4 :: s4 =>
                          match (if high_surrogate v && (b =? 92)%N && (w =? 117)%N then hex_parse [l1; l2; l3; l4] else None) with
                          | Some lo => if low_surrogate lo then cons_char (join_surrogates v lo) (read_text s4)
                                       else cons_char v (read_text s3)
                          | None => cons_char v (read_text s3)
                          end
                      | _ => cons_char v (read_text s3)
                      end
                  end
              | _ => Err ValueError
              end
            else match unescape_char e with Some v => cons_char v (read_text s2) | None => Err ValueError end
        end
      else cons_char c (read_text s1)
  end.

(** The literal of a number, whether it is a float, and the rest. *)
Definition digits_of (s : pystr) : pystr * pystr := span is_09 s.
Definition fraction_of (s : pystr) : pystr * pystr :=
  match s with
  | c :: t => if (c =? 46)%N then (let '(d, rest) := digits_of t in match d with [] => ([], s) | _ => (c :: d, rest) end) else ([], s)
  | [] => ([], [])
  end.
Definition exponent_of (s : pystr) : pystr * pystr :=
  match s with
  | c :: t =>
      if (c =? 101)%N || (c =? 69)%N then
        let '(sign, t) := match t with x :: t' => if (x =? 43)%N || (x =? 45)%N then ([x], t') else ([], t) | [] => ([], t) end in
        let '(d, rest) := digits_of t in
        match d with [] => ([], s) | _ => (c :: sign ++ d, rest) end
      else ([], s)
  | [] => ([], [])
  end.
Definition integer_of (s : pystr) : option (pystr * pystr) :=
  match s with
  | c :: t => if (c =? 48)%N then Some ([c], t) else if in_range 49 57 c then Some (digits_of s) else None
  | [] => None
  end.
Definition sign_of (s : pystr) : pystr * pystr :=
  match s with c :: t => if (c =? 45)%N then ([c], t) else ([], s) | [] => ([], []) end.
Definition number_literal (s : pystr) : option (pystr * bool * pystr) :=
  let '(sign, s1) := sign_of s in
  '(digits, s2) ← integer_of s1;
  let '(fraction, s3) := fraction_of s2 in
  let '(exponent, s4) := exponent_of s3 in
  Some (sign ++ digits ++ fraction ++ exponent, negb (bool_decide (fraction ++ exponent = [])), s4).

Section Read.
Context `{FloatRepr}.

Definition read_number_value (s : pystr) : result exn (json * pystr) :=
  match number_literal s with
  | None => Err ValueError
  | Some (literal, true, rest) => match float_parse literal with Some f => Ok (JFloat f, rest) | None => Err ValueError end
  | Some (literal, false, rest) =>
      if length (sign_of literal).2 <=? max_str_digits then Ok (JInt (int_value literal), rest) else Err ValueError
  end.
Definition words : list (pystr * json) :=
  [(u "null", JNull); (u "true", JBool true); (u "false", JBool false); (u "NaN", JFloat S754_nan);
   (u "Infinity", JFloat (S754_infinity false)); (u "-Infinity", JFloat (S754_infinity true))].
Fixpoint read_word (ws : list (pystr * json)) (s : pystr) : option (json * pystr) :=
  match ws with
  | [] => None
  | (w, j) :: ws => match strip_prefix w s with Some rest => Some (j, rest) | None => read_word ws s end
  end.
Definition read_scalar_value (s : pystr) : result exn (json * pystr) :=
  match read_word words s with Some r => Ok r | None => read_number_value s end.

(** Equal keys: the last value, at the first place. *)
Definition object_of (members : list (pystr * json)) : list (pystr * json) := dict_merge [] members.

(** The text after the character [c], when it is next. *)
Definition next (c : N) (s : pystr) : option pystr :=
  match s with d :: t => if (d =? c)%N then Some t else None | [] => None end.

(** [scan_once]; [depth]: how many more containers may be entered. *)
Fixpoint read_json (fuel depth : nat) (s : pystr) : result exn (json * pystr) :=
  match fuel, s with
  | O, _ | _, [] => Err ValueError
  | S fuel, c :: t =>
      if (c =? 34)%N then let? (text, rest) := read_text t in Ok (JStr text, rest)
      else if (c =? 123)%N then
        match depth with
        | O => Err RecursionError
        | S depth =>
            let t := skip_ws t in
            match next 125 t with
            | Some rest => Ok (JObj [], rest)
            | None => let? (members, rest) := read_members fuel depth t in Ok (JObj (object_of members), rest)
            end
        end
      else if (c =? 91)%N then
        match depth with
        | O => Err RecursionError
        | S depth =>
            let t := skip_ws t in
            match next 93 t with
            | Some rest => Ok (JArr [], rest)
            | None => let? (items, rest) := read_items fuel depth t in Ok (JArr items, rest)
            end
        end
      else read_scalar_value s
  end
with read_members (fuel depth : nat) (s : pystr) : result exn (list (pystr * json) * pystr) :=
  match fuel, next 34 s with
  | S fuel, Some t =>
      let? (key, s1) := read_text t in
      match next 58 (skip_ws s1) with
      | None => Err ValueError
      | Some s2 =>
          let? (value, s3) := read_json fuel depth (skip_ws s2) in
          let s4 := skip_ws s3 in
          match next 125 s4, next 44 s4 with
          | Some rest, _ => Ok ([(key, value)], rest)
          | None, Some s5 => let? (members, rest) := read_members fuel depth (skip_ws s5) in Ok ((key, value) :: members, rest)
          | None, None => Err ValueError
          end
      end
  | _, _ => Err ValueError
  end
with read_items (fuel depth : nat) (s : pystr) : result exn (list json * pystr) :=
  match fuel with
  | O => Err ValueError
  | S fuel =>
      let? (value, s1) := read_json fuel depth s in
      let s2 := skip_ws s1 in
      match next 93 s2, next 44 s2 with
      | Some rest, _ => Ok ([value], rest)
      | None, Some s3 => let? (items, rest) := read_items fuel depth (skip_ws s3) in Ok (value :: items, rest)
      | None, None => Err ValueError
      end
  end.

(** [json.loads(s)] *)
Definition loads (depth : nat) (s : pystr) : result exn json :=
  let s := skip_ws s in
  let? (j, rest) := read_json (2 * length s + 2) depth s in
  match skip_ws rest with [] => Ok j | _ => Err ValueError end.
End Read.

(** ** Laws of float literals *)
Class FloatTextLaws `{FloatReprLaws} : Prop := {
  float_literal f : (∃ b, f = S754_zero b) ∨ (∃ b m e, f = S754_finite b m e) →
    number_literal (float_repr f) = Some (float_repr f, true, []);
}.

(** ** Strings *)

Lemma read_text_escape c s t rest : read_text s = Ok (t, rest) → read_text (json_escape c ++ s) = Ok (c :: t, rest).
Proof.
  intros Hs. unfold json_escape.
  do 7 (case_bool; to_prop; [subst; simpl; by rewrite Hs |]).
  case_bool; to_prop.
  - pose proof (hex_parse_of 4 c ltac:(simpl; lia)) as Hp. pose proof (length_hex_of 4 c) as Hl.
    destruct (hex_of 4 c) as [| h1 [| h2 [| h3 [| h4 [| ? ?]]]]]; try done.
    cbn [app read_text]. cbn [N.eqb N.ltb N.compare Pos.compare Pos.compare_cont Pos.eqb]. rewrite Hp.
    assert (Hh : high_surrogate c = false).
    { unfold high_surrogate, in_range. apply andb_false_iff. left. apply N.leb_gt. lia. }
    rewrite Hh, Hs. cbn [andb]. by destruct s as [| ? [| ? [| ? [| ? [| ? [| ? ?]]]]]].
  - cbn [app read_text]. rewrite (proj2 (N.eqb_neq c 34)), (proj2 (N.eqb_neq c 92)), (proj2 (N.ltb_ge c 32)) by done. by rewrite Hs.
Qed.
Lemma read_text_body s rest : read_text (json_body s ++ 34%N :: rest) = Ok (s, rest).
Proof.
  unfold json_body. induction s as [| c s IH]; [done |]. cbn [map concat]. rewrite <- app_assoc. by apply read_text_escape.
Qed.

(** ** Numbers *)

(** No character of [rest] continues a number. *)
Definition number_ends (rest : pystr) : Prop :=
  match rest with c :: _ => is_09 c = false ∧ c ≠ 46%N ∧ c ≠ 101%N ∧ c ≠ 69%N ∧ c ≠ 43%N ∧ c ≠ 45%N | [] => True end.

Lemma digits_more s d t rest : number_ends rest → digits_of s = (d, t) → digits_of (s ++ rest) = (d, t ++ rest).
Proof.
  intros Hr. revert d t. unfold digits_of. induction s as [| c s IH]; intros d t; simpl.
  - intros [= <- <-]. destruct rest as [| c rest]; [done |]. simpl. by destruct Hr as [-> _].
  - destruct (is_09 c); [| by intros [= <- <-]]. destruct (span is_09 s) as [a b]. intros [= <- <-]. by rewrite (IH a b).
Qed.
Lemma fraction_more s f t rest : number_ends rest → fraction_of s = (f, t) → fraction_of (s ++ rest) = (f, t ++ rest).
Proof.
  intros Hr. destruct s as [| c s]; simpl.
  - intros [= <- <-]. destruct rest as [| c rest]; [done |]. simpl. destruct Hr as (_ & Hc & _). by rewrite (proj2 (N.eqb_neq c 46)).
  - destruct (c =? 46)%N; [| by intros [= <- <-]]. destruct (digits_of s) as [d r] eqn:Hd. rewrite (digits_more s d r) by done.
    by destruct d; intros [= <- <-].
Qed.
Lemma exponent_more s e t rest : number_ends rest → exponent_of s = (e, t) → exponent_of (s ++ rest) = (e, t ++ rest).
Proof.
  intros Hr. destruct s as [| c s]; simpl.
  - intros [= <- <-]. destruct rest as [| c rest]; [done |]. simpl. destruct Hr as (_ & _ & H1 & H2 & _).
    by rewrite (proj2 (N.eqb_neq c 101)), (proj2 (N.eqb_neq c 69)).
  - destruct ((c =? 101)%N || (c =? 69)%N); [| by intros [= <- <-]].
    assert (Hs : ∀ sign r, (match s with x :: t' => if (x =? 43)%N || (x =? 45)%N then ([x], t') else ([], s) | [] => ([], s) end) = (sign, r) →
      (match s ++ rest with x :: t' => if (x =? 43)%N || (x =? 45)%N then ([x], t') else ([], s ++ rest) | [] => ([], s ++ rest) end)
        = (sign, r ++ rest)).
    { intros sign r. destruct s as [| x s]; simpl.
      - intros [= <- <-]. destruct rest as [| x rest]; [done |]. destruct Hr as (_ & _ & _ & _ & H1 & H2).
        by rewrite (proj2 (N.eqb_neq x 43)), (proj2 (N.eqb_neq x 45)).
      - destruct ((x =? 43)%N || (x =? 45)%N); by intros [= <- <-]. }
    destruct (match s with [] => _ | _ => _ end) as [sign r] eqn:Hsr. rewrite (Hs sign r eq_refl).
    destruct (digits_of r) as [d r'] eqn:Hd. rewrite (digits_more r d r') by done. by destruct d; intros [= <- <-].
Qed.
Lemma integer_more s i t rest : number_ends rest → integer_of s = Some (i, t) → integer_of (s ++ rest) = Some (i, t ++ rest).
Proof.
  intros Hr. destruct s as [| c s]; [done |]. cbn [app integer_of]. destruct (c =? 48)%N; [by intros [= <- <-] |].
  destruct (in_range 49 57 c); [| done]. intros [= Hd]. f_equal. by apply (digits_more (c :: s)).
Qed.

Lemma number_literal_app s literal fl rest :
  number_ends rest → number_literal s = Some (literal, fl, []) → number_literal (s ++ rest) = Some (literal, fl, rest).
Proof.
  intros Hr. unfold number_literal. destruct (sign_of s) as [sign s1] eqn:Hsign.
  destruct (integer_of s1) as [[i s2] |] eqn:Hi; [| done].
  assert (Hs : sign_of (s ++ rest) = (sign, s1 ++ rest)).
  { destruct s as [| c s]; [by injection Hsign as <- <- |]. simpl in *. destruct (c =? 45)%N; by injection Hsign as <- <-. }
  rewrite Hs, (integer_more s1 i s2) by done. cbn [mbind option_bind].
  destruct (fraction_of s2) as [f s3] eqn:Hf. rewrite (fraction_more s2 f s3) by done.
  destruct (exponent_of s3) as [e s4] eqn:He. rewrite (exponent_more s3 e s4) by done. by intros [= <- <- ->].
Qed.

Lemma span_all p s : forallb p s = true → span p s = (s, []).
Proof. intros Hs. rewrite <- (app_nil_r s) at 1. by apply span_app. Qed.
Lemma decimal_literal n : integer_of (decimal n) = Some (decimal n, []).
Proof.
  destruct (decide (n = 0)%N) as [-> | Hn]; [done |]. pose proof (decimal_canonical n ltac:(lia)) as Hc.
  pose proof (canonical_digits _ Hc) as Hd. destruct (decimal n) as [| c s]; [done |]. simpl in Hc.
  apply andb_true_iff in Hc as [Hc _]. cbn [integer_of]. rewrite Hc. unfold digits_of. rewrite span_all by done.
  unfold in_range in Hc. to_prop. by rewrite (proj2 (N.eqb_neq c 48)) by lia.
Qed.
Lemma decimal_no_sign n : sign_of (decimal n) = ([], decimal n).
Proof.
  destruct (decimal_digits n) as [Hd Hn]. destruct (decimal n) as [| c s]; [done |]. simpl in *.
  apply andb_true_iff in Hd as [Hc _]. unfold is_09, in_range in Hc. to_prop. by rewrite (proj2 (N.eqb_neq c 45)) by lia.
Qed.
Lemma str_int_literal z :
  number_literal (str_int z) = Some (str_int z, false, []) ∧ length (sign_of (str_int z)).2 = int_digits z.
Proof.
  unfold str_int, int_digits, number_literal. destruct (z <? 0)%Z eqn:Hz; to_prop.
  - cbn [sign_of]. change (45 =? 45)%N with true. cbv iota. rewrite decimal_literal. simpl. rewrite app_nil_r.
    split; [done |]. by rewrite Z.abs_neq by lia.
  - rewrite decimal_no_sign, decimal_literal. simpl. rewrite app_nil_r. split; [done |]. by rewrite Z.abs_eq by lia.
Qed.

Lemma strip_prefix_head a p c s : a ≠ c → strip_prefix (a :: p) (c :: s) = None.
Proof. intros Hne. simpl. by rewrite (proj2 (N.eqb_neq a c)). Qed.
Lemma number_head s r : number_literal s = Some r →
  ∃ c t, is_09 c = true ∧ (s = c :: t ∨ s = 45%N :: c :: t).
Proof.
  unfold number_literal. destruct (sign_of s) as [sign s1] eqn:Hs. destruct (integer_of s1) as [[i s2] |] eqn:Hi; [| done]. intros _.
  destruct s1 as [| c t]; [done |]. exists c, t. split.
  - simpl in Hi. unfold is_09. destruct (N.eqb_spec c 48) as [-> | ?]; [done |].
    destruct (in_range 49 57 c) eqn:Hc; [| done]. unfold in_range in *. to_prop. apply andb_true_iff. split; apply N.leb_le; lia.
  - destruct s as [| x s]; [by injection Hs as <- |]. simpl in Hs. destruct (N.eqb_spec x 45) as [-> | ?]; injection Hs as <- <-; eauto.
    simplify_eq. eauto.
Qed.
Lemma number_no_word s r rest : number_literal s = Some r → read_word words (s ++ rest) = None.
Proof.
  intros (c & t & Hc & Hs)%number_head. unfold is_09, in_range in Hc. to_prop.
  let ws := eval vm_compute in words in change words with ws.
  destruct Hs as [-> | ->]; cbn [app read_word].
  - repeat (rewrite strip_prefix_head by lia). done.
  - do 5 (rewrite strip_prefix_head by lia).
    cbn [strip_prefix]. rewrite N.eqb_refl. by rewrite (proj2 (N.eqb_neq 73 c)) by lia.
Qed.

(** ** Reading undoes writing *)

(** How many containers are nested in a value. *)
Fixpoint nesting (j : json) : nat :=
  match j with
  | JArr l => S (List.list_max (map nesting l))
  | JObj l => S (List.list_max (map (λ kv, nesting kv.2) l))
  | _ => 0
  end.
(** The keys of an object are distinct, as those of a dict. *)
Fixpoint keys_distinct (j : json) : bool :=
  match j with
  | JArr l => forallb keys_distinct l
  | JObj l => bool_decide (NoDup (dict_keys l)) && forallb (λ kv, keys_distinct kv.2) l
  | _ => true
  end.

Lemma dict_merge_fresh {V} (a b : pydict V) : NoDup (dict_keys (a ++ b)) → dict_merge a b = a ++ b.
Proof.
  unfold dict_merge. revert a. induction b as [| [k v] b IH]; intros a Hn; [by rewrite app_nil_r |]. cbn [fold_left fst snd].
  assert (Hk : k ∉ dict_keys a).
  { unfold dict_keys in Hn. rewrite map_app in Hn. apply list.NoDup_app in Hn as (_ & Hd & _). intros Hin. apply (Hd k Hin). simpl. left. }
  unfold dict_set. rewrite bool_decide_false by done. change ((k, v) :: b) with ([(k, v)] ++ b) in Hn |- *.
  rewrite app_assoc in Hn |- *. by apply IH.
Qed.
Lemma object_of_distinct l : NoDup (dict_keys l) → object_of l = l.
Proof. intros Hn. unfold object_of. by rewrite dict_merge_fresh. Qed.

Lemma digit_starts c : is_09 c = true →
  is_ws c = false ∧ (c =? 34)%N = false ∧ (c =? 123)%N = false ∧ (c =? 91)%N = false ∧ c ≠ 93%N.
Proof.
  intros Hc. unfold is_09, in_range in Hc. to_prop. unfold is_ws. rewrite !orb_false_iff, !N.eqb_neq. lia.
Qed.

Section RoundTrip.
Context `{FloatTextLaws}.

Lemma float_value f rest : number_ends rest →
  read_scalar_value (float_text f ++ rest) = Ok (JFloat f, rest)
  ∧ ∃ c t, float_text f = c :: t ∧ is_ws c = false ∧ (c =? 34)%N = false ∧ (c =? 123)%N = false ∧ (c =? 91)%N = false ∧ c ≠ 93%N.
Proof.
  intros Hr. assert (Hfin : ((∃ b, f = S754_zero b) ∨ (∃ b m e, f = S754_finite b m e)) ∨ f = S754_nan ∨ ∃ b, f = S754_infinity b).
  { destruct f; naive_solver. }
  destruct Hfin as [Hfin | [-> | [b ->]]].
  - assert (Ht : float_text f = float_repr f) by (destruct f; naive_solver). rewrite Ht.
    pose proof (float_literal f Hfin) as Hl. split.
    + unfold read_scalar_value, read_number_value. rewrite (number_no_word _ _ _ Hl), (number_literal_app _ _ _ _ Hr Hl).
      rewrite float_parse_repr; [done | destruct f; naive_solver].
    + apply number_head in Hl as (c & t & Hc & [-> | ->]); eexists _, _; (split; [reflexivity |]); [by apply digit_starts | by vm_compute].
  - split; [reflexivity |]. eexists _, _. split; [reflexivity |]. by vm_compute.
  - destruct b; (split; [reflexivity |]); (eexists _, _; split; [reflexivity |]; by vm_compute).
Qed.

Lemma int_value_read z rest : number_ends rest → (int_digits z <=? max_str_digits) = true →
  read_scalar_value (str_int z ++ rest) = Ok (JInt z, rest).
Proof.
  intros Hr Hz. destruct (str_int_literal z) as [Hl Hd]. destruct (str_int_read z) as (_ & Hv & _).
  unfold read_scalar_value, read_number_value. rewrite (number_no_word _ _ _ Hl), (number_literal_app _ _ _ _ Hr Hl). cbv iota.
  by rewrite Hd, Hz, Hv.
Qed.

(** The first character of a value. *)
Lemma json_head j : ∃ c t, json_text j = c :: t ∧ is_ws c = false ∧ c ≠ 93%N
  ∧ match j with
    | JStr _ | JArr _ | JObj _ => True
    | _ => (c =? 34)%N = false ∧ (c =? 123)%N = false ∧ (c =? 91)%N = false
    end.
Proof.
  destruct j as [| [] | z | f | s | l | l]; try (eexists _, _; split; [reflexivity | by vm_compute]).
  - destruct (str_int_literal z) as [(c & t & Hc & Hs)%number_head _]. cbn [json_text].
    destruct Hs as [-> | ->]; eexists _, _; (split; [reflexivity |]); [| by vm_compute].
    destruct (digit_starts c Hc) as (? & ? & ? & ? & ?). done.
  - destruct (float_value f []) as [_ (c & t & Ht & Hw & Hq1 & Hq2 & Hq3 & Hq4)]; [done |]. cbn [json_text]. rewrite Ht. eauto 10.
Qed.
Lemma skip_ws_value j rest : skip_ws (json_text j ++ rest) = json_text j ++ rest.
Proof. destruct (json_head j) as (c & t & -> & Hw & _). simpl. by rewrite Hw. Qed.

Definition reads (j : json) : Prop := ∀ rest depth fuel,
  ints_ok j = true → keys_distinct j = true → nesting j ≤ depth → 2 * length (json_text j ++ rest) < fuel → number_ends rest →
  read_json fuel depth (json_text j ++ rest) = Ok (j, rest).

Lemma reads_scalar j : match j with JNull | JBool _ | JInt _ | JFloat _ => True | _ => False end → reads j.
Proof.
  intros Hj rest depth fuel Hi _ _ Hf Hr. destruct (json_head j) as (c & t & Ht & _ & _ & Hc).
  assert (Hs : read_scalar_value (json_text j ++ rest) = Ok (j, rest)).
  { destruct j as [| [] | z | f | | |]; try done; cbn [json_text]; try reflexivity; [by apply int_value_read | by apply float_value]. }
  assert (Hsplit : (c =? 34)%N = false ∧ (c =? 123)%N = false ∧ (c =? 91)%N = false) by (destruct j; done).
  destruct fuel as [| fuel]; [lia |]. rewrite Ht in Hs |- *. cbn [app read_json]. destruct Hsplit as (-> & -> & ->). exact Hs.
Qed.

Lemma commas_cons p q ps : commas (p :: q :: ps) = p ++ 44%N :: commas (q :: ps).
Proof. done. Qed.

Lemma read_items_text l rest depth fuel :
  l ≠ [] → Forall reads l → forallb ints_ok l = true → forallb keys_distinct l = true → List.list_max (map nesting l) ≤ depth →
  2 * length (commas (map json_text l) ++ 93%N :: rest) + 1 < fuel →
  read_items fuel depth (commas (map json_text l) ++ 93%N :: rest) = Ok (l, rest).
Proof.
  intros Hn Hl. revert fuel rest. induction Hl as [| x l Hx Hl IH]; [done |]. intros fuel rest Hi Hk Hd Hf.
  cbn [forallb map] in *. apply andb_true_iff in Hi as [Hix Hi], Hk as [Hkx Hk].
  change (List.list_max (nesting x :: map nesting l)) with (Nat.max (nesting x) (List.list_max (map nesting l))) in Hd.
  destruct fuel as [| fuel]; [lia |]. destruct l as [| y l].
  - cbn [map join read_items] in *. rewrite Hx; [done | done | done | lia | lia | by vm_compute].
  - cbn [map] in *. rewrite commas_cons, <- app_assoc in *. cbn [read_items].
    rewrite Hx; [| done | done | lia | lia | by vm_compute]. cbn [result_bind app skip_ws is_ws N.eqb Pos.eqb orb next].
    assert (Hskip : skip_ws (commas (json_text y :: map json_text l) ++ 93%N :: rest) = commas (json_text y :: map json_text l) ++ 93%N :: rest).
    { destruct l; [apply skip_ws_value | cbn [map]; rewrite commas_cons, <- app_assoc; apply skip_ws_value]. }
    rewrite Hskip, IH; [done | done | done | done | lia |]. rewrite ?length_app in *. cbn [app length] in *. rewrite ?length_app in *. lia.
Qed.

Definition member_text (kv : pystr * json) : pystr := json_string kv.1 ++ 58%N :: json_text kv.2.
Lemma read_members_text l rest depth fuel :
  l ≠ [] → Forall (λ kv, reads kv.2) l → forallb (λ kv, ints_ok kv.2) l = true → forallb (λ kv, keys_distinct kv.2) l = true →
  List.list_max (map (λ kv, nesting kv.2) l) ≤ depth →
  2 * length (commas (map member_text l) ++ 125%N :: rest) < fuel →
  read_members fuel depth (commas (map member_text l) ++ 125%N :: rest) = Ok (l, rest).
Proof.
  intros Hn Hl. revert fuel rest. induction Hl as [| [k x] l Hx Hl IH]; [done |]. intros fuel rest Hi Hk Hd Hf.
  cbn [forallb map snd] in *. apply andb_true_iff in Hi as [Hix Hi], Hk as [Hkx Hk].
  change (List.list_max (nesting x :: map (λ kv, nesting kv.2) l)) with (Nat.max (nesting x) (List.list_max (map (λ kv, nesting kv.2) l))) in Hd.
  destruct fuel as [| fuel]; [lia |].
  assert (Hhead : ∀ tail, member_text (k, x) ++ tail = 34%N :: json_body k ++ 34%N :: 58%N :: json_text x ++ tail).
  { intros tail. unfold member_text, json_string. cbn [fst snd app]. by rewrite <- !app_assoc. }
  assert (Hstep : ∀ tail, number_ends tail → 2 * length (member_text (k, x) ++ tail) < S fuel →
    read_members (S fuel) depth (member_text (k, x) ++ tail) =
      let s4 := skip_ws tail in
      match next 125 s4, next 44 s4 with
      | Some rest, _ => Ok ([(k, x)], rest)
      | None, Some s5 => let? (members, rest) := read_members fuel depth (skip_ws s5) in Ok ((k, x) :: members, rest)
      | None, None => Err ValueError
      end).
  { intros tail Ht Hlen. rewrite Hhead in Hlen |- *. cbn [read_members next N.eqb Pos.eqb]. rewrite read_text_body. cbn [result_bind skip_ws is_ws N.eqb Pos.eqb orb next].
    rewrite skip_ws_value, Hx; [done | done | done | lia | | done]. cbn [length] in Hlen. rewrite ?length_app in *. cbn [length] in *. rewrite ?length_app in Hlen. lia. }
  destruct l as [| y l].
  - cbn [map join] in *. rewrite Hstep; [done | by vm_compute | lia].
  - cbn [map] in *. rewrite commas_cons, <- app_assoc in *. rewrite Hstep; [| by vm_compute | lia].
    cbn [app skip_ws is_ws N.eqb Pos.eqb orb next].
    assert (Hskip : skip_ws (commas (member_text y :: map member_text l) ++ 125%N :: rest) = commas (member_text y :: map member_text l) ++ 125%N :: rest).
    { destruct l; [done | cbn [map]; by rewrite commas_cons, <- app_assoc]. }
    rewrite Hskip, IH; [done | done | done | done | lia |]. rewrite ?length_app in *. cbn [app length] in *. rewrite ?length_app in *. lia.
Qed.

Lemma all_read j : reads j.
Proof.
  induction j as [| b | z | f | s | l IH | l IH] using json_induction; try by apply reads_scalar.
  - intros rest depth fuel _ _ _ Hf _. destruct fuel as [| fuel]; [lia |]. cbn [json_text]. unfold json_string. cbn [app read_json]. cbn [N.eqb Pos.eqb].
    rewrite <- app_assoc. cbn [app]. by rewrite read_text_body.
  - intros rest depth fuel Hi Hk Hd Hf _. cbn [json_text ints_ok keys_distinct nesting] in *. destruct fuel as [| fuel]; [lia |]. destruct depth as [| depth]; [lia |].
    cbn [app read_json]. cbn [N.eqb Pos.eqb]. rewrite <- app_assoc in *. cbn [app] in *. destruct l as [| x l]; [done |].
    assert (Hskip : skip_ws (commas (map json_text (x :: l)) ++ 93%N :: rest) = commas (map json_text (x :: l)) ++ 93%N :: rest
      ∧ ∃ c t, commas (map json_text (x :: l)) ++ 93%N :: rest = c :: t ∧ c ≠ 93%N).
    { destruct (json_head x) as (c & t & Ht & Hw & Hc & _).
      destruct l; cbn [map join]; rewrite <- ?app_assoc, Ht; cbn [app skip_ws]; rewrite Hw; eauto. }
    destruct Hskip as [Hskip (c & t & Hct & Hc)]. rewrite Hskip, Hct.
    cbn [next]. rewrite (proj2 (N.eqb_neq c 93)) by done.
    rewrite <- Hct, read_items_text; [done | done | done | done | done | lia |]. cbn [length] in Hf. rewrite ?length_app in *. cbn [length] in *. lia.
  - intros rest depth fuel Hi Hk Hd Hf _. cbn [json_text ints_ok keys_distinct nesting] in *. destruct fuel as [| fuel]; [lia |]. destruct depth as [| depth]; [lia |].
    apply andb_true_iff in Hk as [Hn Hk]. apply bool_decide_eq_true in Hn.
    cbn [app read_json]. cbn [N.eqb Pos.eqb]. rewrite <- app_assoc in *. cbn [app] in *. destruct l as [| x l]; [done |].
    change (λ kv : pystr * json, json_string kv.1 ++ 58%N :: json_text kv.2) with member_text in *.
    assert (Hct : ∃ t, commas (map member_text (x :: l)) ++ 125%N :: rest = 34%N :: t) by (destruct l; eexists; reflexivity).
    destruct Hct as [t Hct]. rewrite Hct. cbn [skip_ws is_ws N.eqb Pos.eqb orb next].
    rewrite <- Hct, read_members_text; [| done | done | done | done | lia |]; [cbn [result_bind]; by rewrite object_of_distinct |].
    cbn [length] in Hf. rewrite ?length_app in *. cbn [length] in *. lia.
Qed.

(** [json.loads(json.dumps(j))] is [j], within the recursion limit. *)
Theorem loads_dumps j s depth :
  dumps j = Ok s → keys_distinct j = true → nesting j ≤ depth → loads depth s = Ok j.
Proof.
  unfold dumps. destruct (ints_ok j) eqn:Hi; [| done]. intros [= <-] Hk Hd. unfold loads.
  rewrite <- (app_nil_r (json_text j)). rewrite skip_ws_value. rewrite all_read; [done | done | done | done | lia | done].
Qed.
End RoundTrip.

(** ** The fuel is enough for every text *)

Lemma next_length c s t : next c s = Some t → length s = S (length t).
Proof. destruct s as [| d s]; simpl; [done |]. destruct (d =? c)%N; [| done]. by intros [= ->]. Qed.
Lemma skip_ws_length s : length (skip_ws s) ≤ length s.
Proof. induction s as [| c s IH]; simpl; [done |]. destruct (is_ws c); simpl; lia. Qed.
Lemma cons_char_ok c r t rest : cons_char c r = Ok (t, rest) → ∃ t', r = Ok (t', rest).
Proof. unfold cons_char. rewrite result_bind_ok. intros ([t' r'] & -> & [= <- <-]). eauto. Qed.
Lemma read_text_length s t rest : read_text s = Ok (t, rest) → length rest < length s.
Proof.
  remember (length s) as n eqn:Hn. revert s t Hn. induction (lt_wf n) as [n _ IH]. intros s t -> Hr.
  destruct s as [| c s1]; [done |]. cbn [read_text] in Hr.
  assert (Hsub : ∀ s' t', length s' < length (c :: s1) → read_text s' = Ok (t', rest) → length rest < length (c :: s1)).
  { intros s' t' Hl Hs'. pose proof (IH (length s') Hl s' t' eq_refl Hs'). lia. }
  assert (Hcons : ∀ v s', length s' ≤ length s1 → cons_char v (read_text s') = Ok (t, rest) → length rest < length (c :: s1)).
  { intros v s' Hl [t' Ht']%cons_char_ok. eapply Hsub; [| exact Ht']. simpl. lia. }
  destruct (c =? 34)%N; [injection Hr as _ <-; simpl; lia |]. destruct (c <? 32)%N; [done |].
  destruct (c =? 92)%N; [| by eapply Hcons; [| exact Hr]]. destruct s1 as [| e s2]; [done |].
  destruct (e =? 117)%N; [| destruct (unescape_char e); [| done]; eapply Hcons; [| exact Hr]; simpl; lia].
  destruct s2 as [| h1 [| h2 [| h3 [| h4 s3]]]]; try done. destruct (hex_parse _) as [v |]; [| done].
  destruct s3 as [| b [| w [| l1 [| l2 [| l3 [| l4 s4]]]]]]; try (eapply Hcons; [| exact Hr]; simpl; lia).
  destruct (if high_surrogate v && _ && _ then _ else None) as [lo |]; [destruct (low_surrogate lo) |]; (eapply Hcons; [| exact Hr]; simpl; lia).
Qed.

Lemma digits_length s d t : digits_of s = (d, t) → length t ≤ length s ∧ (d ≠ [] → length t < length s).
Proof.
  unfold digits_of. revert d t. induction s as [| c s IH]; intros d t; simpl; [intros [= <- <-]; done |].
  destruct (is_09 c); [| intros [= <- <-]; done]. destruct (span is_09 s) as [a b]. intros [= <- <-].
  destruct (IH a b eq_refl). simpl. lia.
Qed.
Lemma fraction_length s f t : fraction_of s = (f, t) → length t ≤ length s.
Proof.
  destruct s as [| c s]; simpl; [by intros [= <- <-] |]. destruct (c =? 46)%N; [| by intros [= <- <-]].
  destruct (digits_of s) as [d r] eqn:Hd. apply digits_length in Hd as [Hd _]. destruct d; intros [= <- <-]; simpl; lia.
Qed.
Lemma exponent_length s e t : exponent_of s = (e, t) → length t ≤ length s.
Proof.
  destruct s as [| c s]; simpl; [by intros [= <- <-] |]. destruct (_ || _); [| by intros [= <- <-]].
  destruct (match s with [] => _ | _ => _ end) as [sign r] eqn:Hs.
  assert (Hr : length r ≤ length s) by (destruct s as [| x s]; simpl in *; [| destruct (_ || _)]; simplify_eq/=; lia).
  destruct (digits_of r) as [d r'] eqn:Hd. apply digits_length in Hd as [Hd _]. destruct d; intros [= <- <-]; simpl; lia.
Qed.
Lemma number_length s literal fl rest : number_literal s = Some (literal, fl, rest) → length rest < length s.
Proof.
  unfold number_literal. destruct (sign_of s) as [sign s1] eqn:Hsign. destruct (integer_of s1) as [[i s2] |] eqn:Hi; [| done].
  cbn [mbind option_bind]. destruct (fraction_of s2) as [f s3] eqn:Hf. destruct (exponent_of s3) as [e s4] eqn:He. intros [= _ _ <-].
  apply fraction_length in Hf. apply exponent_length in He.
  assert (length s1 ≤ length s) by (destruct s as [| c s]; simpl in Hsign; [| destruct (_ =? _)%N]; simplify_eq/=; lia).
  assert (length s2 < length s1); [| lia].
  destruct s1 as [| c t]; [done |]. simpl in Hi. destruct (c =? 48)%N; [by simplify_eq/=; lia |].
  destruct (in_range 49 57 c) eqn:Hc; [| done]. injection Hi as Hi. simpl in Hi. apply digits_length in Hi as Hd.
  apply Hd. unfold digits_of in Hi. simpl in Hi.
  assert (Hc9 : is_09 c = true) by (unfold is_09, in_range in *; to_prop; apply andb_true_iff; split; apply N.leb_le; lia).
  rewrite Hc9 in Hi. destruct (span is_09 t). by injection Hi as <-.
Qed.
Lemma strip_prefix_length p s t : strip_prefix p s = Some t → length s = length p + length t.
Proof.
  revert s. induction p as [| a p IH]; intros s; simpl; [by intros [= ->] |]. destruct s as [| b s]; [done |].
  destruct (a =? b)%N; [| done]. intros Hs. simpl. by rewrite (IH s).
Qed.
Lemma read_word_length ws s j rest : Forall (λ w, 0 < length w.1) ws → read_word ws s = Some (j, rest) → length rest < length s.
Proof.
  induction 1 as [| [w x] ws Hw _ IH]; simpl; [done |]. destruct (strip_prefix w s) as [t |] eqn:Ht; [| done].
  intros [= _ <-]. apply strip_prefix_length in Ht. simpl in Hw. lia.
Qed.
Lemma scalar_length `{FloatRepr} s j rest : read_scalar_value s = Ok (j, rest) → length rest < length s.
Proof.
  unfold read_scalar_value. destruct (read_word words s) as [r |] eqn:Hw.
  - intros [= ->]. eapply read_word_length; [| exact Hw]. repeat constructor; simpl; lia.
  - unfold read_number_value. destruct (number_literal s) as [[[l fl] t] |] eqn:Hl; [| done]. apply number_length in Hl.
    destruct fl; repeat case_match; intros [= _ <-]; done.
Qed.

Section Fuel.
Context `{FloatRepr}.
Ltac shorter :=
  repeat match goal with
  | H : next _ _ = Some _ |- _ => apply next_length in H
  | H : read_text _ = Ok _ |- _ => apply read_text_length in H
  end;
  repeat match goal with
  | |- context [length (skip_ws ?s)] => pose proof (skip_ws_length s); generalize dependent (length (skip_ws s)); intros
  | H : context [length (skip_ws ?s)] |- _ => pose proof (skip_ws_length s); generalize dependent (length (skip_ws s)); intros
  end; simpl in *; lia.

(** What is read is consumed. *)
Lemma read_shrinks fuel :
  (∀ depth s j rest, read_json fuel depth s = Ok (j, rest) → length rest < length s)
  ∧ (∀ depth s l rest, read_members fuel depth s = Ok (l, rest) → length rest < length s)
  ∧ (∀ depth s l rest, read_items fuel depth s = Ok (l, rest) → length rest < length s).
Proof.
  induction fuel as [| fuel (IHj & IHm & IHi)]; [done |]. split_and!; intros depth s.
  - intros j rest. destruct s as [| c t]; [done |]. cbn [read_json].
    destruct (c =? 34)%N; [rewrite result_bind_ok; intros ([text r] & Ht & [= _ <-]); shorter |].
    destruct (c =? 123)%N; [| destruct (c =? 91)%N; [| apply scalar_length]].
    + destruct depth as [| depth]; [done |]. cbv zeta. destruct (next 125 _) as [r |] eqn:Hn; [intros [= _ <-]; shorter |].
      rewrite result_bind_ok. intros ([l r] & Hr%IHm & [= _ <-]). shorter.
    + destruct depth as [| depth]; [done |]. cbv zeta. destruct (next 93 _) as [r |] eqn:Hn; [intros [= _ <-]; shorter |].
      rewrite result_bind_ok. intros ([l r] & Hr%IHi & [= _ <-]). shorter.
  - intros l rest. cbn [read_members]. destruct (next 34 s) as [t |] eqn:Hq; [| done]. rewrite result_bind_ok.
    intros ([key s1] & Hk & Hr). destruct (next 58 _) as [s2 |] eqn:Hc; [| done]. rewrite result_bind_ok in Hr.
    destruct Hr as ([v s3] & Hv%IHj & Hr). cbv zeta in Hr. destruct (next 125 _) as [r |] eqn:H1; [injection Hr as _ <-; shorter |].
    destruct (next 44 _) as [s5 |] eqn:H2; [| done]. rewrite result_bind_ok in Hr. destruct Hr as ([ms r] & Hm%IHm & [= _ <-]). shorter.
  - intros l rest. cbn [read_items]. rewrite result_bind_ok. intros ([v s1] & Hv%IHj & Hr). cbv zeta in Hr.
    destruct (next 93 _) as [r |] eqn:H1; [injection Hr as _ <-; shorter |].
    destruct (next 44 _) as [s5 |] eqn:H2; [| done]. rewrite result_bind_ok in Hr. destruct Hr as ([ms r] & Hm%IHi & [= _ <-]). shorter.
Qed.

(** One more unit changes nothing when there is enough. *)
Lemma more_fuel fuel :
  (∀ depth s, 2 * length s < fuel → read_json (S fuel) depth s = read_json fuel depth s)
  ∧ (∀ depth s, 2 * length s < fuel → read_members (S fuel) depth s = read_members fuel depth s)
  ∧ (∀ depth s, 2 * length s + 1 < fuel → read_items (S fuel) depth s = read_items fuel depth s).
Proof.
  induction fuel as [| fuel (IHj & IHm & IHi)]; [split_and!; intros; lia |]. destruct (read_shrinks fuel) as (Sj & Sm & Si).
  split_and!; intros depth s Hs.
  - destruct s as [| c t]; [done |]. set (f1 := S fuel) in |- * at 1. cbn [read_json]. subst f1.
    destruct (c =? 34)%N; [done |]. pose proof (skip_ws_length t). simpl in Hs.
    destruct (c =? 123)%N; [destruct depth; [done |]; cbv zeta; destruct (next 125 _); [done |]; rewrite IHm; [done | lia] |].
    destruct (c =? 91)%N; [| done]. destruct depth; [done |]. cbv zeta. destruct (next 93 _); [done |]. rewrite IHi; [done | lia].
  - set (f1 := S fuel) in |- * at 1. cbn [read_members]. subst f1. destruct (next 34 s) as [t |] eqn:Hq; [| done].
    destruct (read_text t) as [[key s1] |] eqn:Ht; [| done]. cbn [result_bind]. destruct (next 58 _) as [s2 |] eqn:Hc; [| done].
    rewrite IHj by shorter. destruct (read_json fuel depth (skip_ws s2)) as [[v s3] |] eqn:Hv; [| done]. cbn [result_bind]. cbv zeta.
    apply Sj in Hv. destruct (next 125 _); [done |]. destruct (next 44 _) as [s5 |] eqn:Hn; [| done]. rewrite IHm; [done | shorter].
  - set (f1 := S fuel) in |- * at 1. cbn [read_items]. subst f1. rewrite IHj by lia.
    destruct (read_json fuel depth s) as [[v s1] |] eqn:Hv; [| done]. cbn [result_bind]. cbv zeta. apply Sj in Hv.
    destruct (next 93 _); [done |]. destruct (next 44 _) as [s3 |] eqn:Hn; [| done]. rewrite IHi; [done | shorter].
Qed.
(** [loads] does not depend on its bound: with any larger one it is the same. *)
Theorem loads_fuel extra depth s :
  loads depth s = (let s := skip_ws s in
                   let? (j, rest) := read_json (extra + (2 * length s + 2)) depth s in
                   match skip_ws rest with [] => Ok j | _ => Err ValueError end).
Proof.
  unfold loads. cbv zeta. assert (Hf : read_json (extra + (2 * length (skip_ws s) + 2)) depth (skip_ws s) = read_json (2 * length (skip_ws s) + 2) depth (skip_ws s)).
  { induction extra as [| n IH]; [done |]. cbn [Nat.add]. destruct (more_fuel (n + (2 * length (skip_ws s) + 2))) as (Hj & _). rewrite Hj; [done | lia]. }
  by rewrite Hf.
Qed.

Definition json_error (e : exn) : Prop := e = ValueError ∨ e = RecursionError.
Lemma read_text_error s e : read_text s = Err e → e = ValueError.
Proof.
  remember (length s) as n eqn:Hn. revert s Hn. induction (lt_wf n) as [n _ IH]. intros s -> Hr.
  destruct s as [| c s1]; [by injection Hr |]. cbn [read_text] in Hr.
  assert (Hcons : ∀ v s', length s' ≤ length s1 → cons_char v (read_text s') = Err e → e = ValueError).
  { intros v s' Hl Hc. unfold cons_char in Hc. destruct (read_text s') as [[] |] eqn:Hs'; [done |]. injection Hc as ->.
    apply (IH (length s')) with (s := s'); [simpl; lia | done | done]. }
  destruct (c =? 34)%N; [done |]. destruct (c <? 32)%N; [by injection Hr |].
  destruct (c =? 92)%N; [| by eapply Hcons; [| exact Hr]]. destruct s1 as [| x s2]; [by injection Hr |].
  destruct (x =? 117)%N; [| destruct (unescape_char x); [| by injection Hr]; eapply Hcons; [| exact Hr]; simpl; lia].
  destruct s2 as [| h1 [| h2 [| h3 [| h4 s3]]]]; try by injection Hr. destruct (hex_parse _) as [v |]; [| by injection Hr].
  destruct s3 as [| b [| w [| l1 [| l2 [| l3 [| l4 s4]]]]]]; try (eapply Hcons; [| exact Hr]; simpl; lia).
  destruct (if high_surrogate v && _ && _ then _ else None) as [lo |]; [destruct (low_surrogate lo) |]; (eapply Hcons; [| exact Hr]; simpl; lia).
Qed.
Lemma read_errors fuel :
  (∀ depth s e, read_json fuel depth s = Err e → json_error e)
  ∧ (∀ depth s e, read_members fuel depth s = Err e → json_error e)
  ∧ (∀ depth s e, read_items fuel depth s = Err e → json_error e).
Proof.
  assert (Hv : ∀ e, ValueError = e → json_error e) by (intros e <-; by left).
  assert (Hrec : ∀ e, RecursionError = e → json_error e) by (intros e <-; by right).
  assert (Ht : ∀ s e, read_text s = Err e → json_error e) by (intros s e ->%read_text_error; by left).
  induction fuel as [| fuel (IHj & IHm & IHi)]; [split_and!; intros depth s e [= <-]; by left |]. split_and!; intros depth s e.
  - destruct s as [| c t]; [intros [= ?]; auto |]. cbn [read_json].
    destruct (c =? 34)%N; [destruct (read_text t) as [[] |] eqn:E; [done | intros [= <-]; eauto] |].
    destruct (c =? 123)%N; [| destruct (c =? 91)%N].
    + destruct depth; [intros [= ?]; auto |]. cbv zeta. destruct (next 125 _); [done |].
      destruct (read_members _ _ _) as [[] |] eqn:E; [done | intros [= <-]; eauto].
    + destruct depth; [intros [= ?]; auto |]. cbv zeta. destruct (next 93 _); [done |].
      destruct (read_items _ _ _) as [[] |] eqn:E; [done | intros [= <-]; eauto].
    + unfold read_scalar_value. destruct (read_word words (c :: t)); [done |]. unfold read_number_value.
      destruct (number_literal (c :: t)) as [[[l []] r] |]; repeat case_match; intros [= ?]; auto.
  - cbn [read_members]. destruct (next 34 s) as [t |]; [| intros [= ?]; auto].
    destruct (read_text t) as [[key s1] |] eqn:E; [| intros [= <-]; eauto]. cbn [result_bind]. destruct (next 58 _); [| intros [= ?]; auto].
    destruct (read_json _ _ _) as [[v s3] |] eqn:E2; [| intros [= <-]; eauto]. cbn [result_bind]. cbv zeta.
    destruct (next 125 _); [done |]. destruct (next 44 _); [| intros [= ?]; auto].
    destruct (read_members _ _ _) as [[] |] eqn:E3; [done | intros [= <-]; eauto].
  - cbn [read_items]. destruct (read_json _ _ _) as [[v s3] |] eqn:E2; [| intros [= <-]; eauto]. cbn [result_bind]. cbv zeta.
    destruct (next 93 _); [done |]. destruct (next 44 _); [| intros [= ?]; auto].
    destruct (read_items _ _ _) as [[] |] eqn:E3; [done | intros [= <-]; eauto].
Qed.
Lemma loads_error depth s e : loads depth s = Err e → json_error e.
Proof.
  unfold loads. cbv zeta. destruct (read_json _ _ _) as [[j rest] |] eqn:E; cbn [result_bind].
  - destruct (skip_ws rest); [done |]. intros [= <-]. by left.
  - intros [= <-]. by apply (proj1 (read_errors _)) in E.
Qed.
End Fuel.

(** ** The text of a value has no control characters *)
Lemma escape_visible c : forallb (λ c, 32 <=? c)%N (json_escape c) = true.
Proof.
  unfold json_escape. repeat (case_bool; [done |]). case_bool; to_prop; [| simpl; by rewrite (proj2 (N.leb_le 32 c))].
  cbn [forallb]. unfold hex_of. apply andb_true_iff. split; [done |]. apply andb_true_iff. split; [done |].
  apply forallb_forall. intros x [d [<- _]]%in_map_iff. unfold hex_char. case_bool; apply N.leb_le; lia.
Qed.
Lemma string_visible s : forallb (λ c, 32 <=? c)%N (json_string s) = true.
Proof.
  unfold json_string, json_body. cbn [forallb]. rewrite forallb_app. apply andb_true_iff. split; [done |]. rewrite andb_true_r.
  induction s as [| c s IH]; [done |]. cbn [map concat]. by rewrite forallb_app, escape_visible.
Qed.

(** ** A concrete instance *)
#[export] Instance binary_text_laws : @FloatTextLaws binary_repr binary_repr_laws.
Proof.
  split. intros f Hf. destruct f as [b | | | b m e]; try (by destruct b; vm_compute); [naive_solver.. |]. clear Hf.
  unfold float_repr, binary_repr. pose proof (decimal_literal (Npos m)) as Hd. pose proof (decimal_no_sign (Npos m)) as Hs.
  assert (Hr : exponent_of (101%N :: str_int e) = (101%N :: str_int e, [])).
  { destruct (decimal_digits (Z.to_N e)) as [Hd1 Hn1], (decimal_digits (Z.to_N (- e))) as [Hd2 Hn2].
    unfold str_int. destruct (e <? 0)%Z; cbn [exponent_of N.eqb Pos.eqb orb].
    - unfold digits_of. rewrite span_all by done. by destruct (decimal (Z.to_N (- e))).
    - pose proof (decimal_no_sign (Z.to_N e)) as Hsg. destruct (decimal (Z.to_N e)) as [| c s] eqn:Hde; [done |].
      simpl in Hd1. apply andb_true_iff in Hd1 as [Hc Hd1]. assert (Hc' := Hc). unfold is_09, in_range in Hc. to_prop.
      rewrite (proj2 (N.eqb_neq c 43)), (proj2 (N.eqb_neq c 45)) by lia. cbn [orb]. unfold digits_of. rewrite span_all; [done |]. simpl. by rewrite Hc'. }
  assert (Hi : ∀ rest, integer_of (decimal (Npos m) ++ 101%N :: rest) = Some (decimal (Npos m), 101%N :: rest)).
  { intros rest. pose proof (canonical_digits _ (decimal_canonical (Npos m) ltac:(lia))) as Hdd.
    destruct (decimal (Npos m)) as [| c s]; [done |]. cbn [app integer_of] in *. destruct (c =? 48)%N eqn:H48.
    - injection Hd as Hc0 Hs0. by rewrite Hs0.
    - destruct (in_range 49 57 c); [| done]. unfold digits_of. f_equal. change (c :: s ++ 101%N :: rest) with ((c :: s) ++ 101%N :: rest). by apply span_app. }
  unfold number_literal. destruct b; cbn [sign_text app sign_of].
  - cbn [N.eqb Pos.eqb]. rewrite Hi. cbn [mbind option_bind fraction_of N.eqb Pos.eqb]. by rewrite Hr.
  - assert (Hsg : sign_of (decimal (Npos m) ++ 101%N :: str_int e) = ([], decimal (Npos m) ++ 101%N :: str_int e)).
    { destruct (decimal (Npos m)) as [| c s]; [done |]. simpl in Hs |- *. by destruct (c =? 45)%N. }
    rewrite Hsg, Hi. cbn [mbind option_bind fraction_of N.eqb Pos.eqb]. by rewrite Hr.
Qed.
