(* ===== verification/Urls.v ===== *)
(** * Urls: UTF-8 and percent-encoding

    [str.encode] and [bytes.decode] for UTF-8, and [quote], [quote_plus],
    [unquote] and [urlencode]'s escaping of [urllib.parse], as the standard
    library defines them.  Bytes are their numbers. *)

From S2P Require Import Prelude Text PyVal Errors.
Local Open Scope prog_scope.

(** ** UTF-8 *)

Definition is_surrogate (c : N) : bool := in_range 55296 57343 c.
(** [None]: a surrogate, or no code point at all. *)
Definition utf8_char (c : N) : option (list N) :=
  if (c <? 128)%N then Some [c]
  else if (c <? 2048)%N then Some [192 + c / 64; 128 + c mod 64]%N
  else if is_surrogate c then None
  else if (c <? 65536)%N then Some [224 + c / 4096; 128 + c / 64 mod 64; 128 + c mod 64]%N
  else if (c <? 1114112)%N then Some [240 + c / 262144; 128 + c / 4096 mod 64; 128 + c / 64 mod 64; 128 + c mod 64]%N
  else None.
(** [s.encode("utf-8")]; [UnicodeEncodeError] is a [ValueError]. *)
Definition utf8_encode (s : pystr) : result exn (list N) :=
  match mapM utf8_char s with Some bytes => Ok (concat bytes) | None => Err ValueError end.

(** One character or one ill-formed sequence at the front, and what follows it. *)
Definition is_cont (b : N) : bool := in_range 128 191 b.
Definition utf8_step (b : N) (rest : list N) : option N * list N :=
  if (b <? 128)%N then (Some b, rest)
  else if in_range 194 223 b then
    match rest with
    | b1 :: r1 => if is_cont b1 then (Some ((b - 192) * 64 + (b1 - 128))%N, r1) else (None, rest)
    | [] => (None, rest)
    end
  else if in_range 224 239 b then
    match rest with
    | b1 :: r1 =>
        if in_range (if (b =? 224)%N then 160 else 128) (if (b =? 237)%N then 159 else 191) b1 then
          match r1 with
          | b2 :: r2 => if is_cont b2 then (Some ((b - 224) * 4096 + (b1 - 128) * 64 + (b2 - 128))%N, r2) else (None, r1)
          | [] => (None, r1)
          end
        else (None, rest)
    | [] => (None, rest)
    end
  else if in_range 240 244 b then
    match rest with
    | b1 :: r1 =>
        if in_range (if (b =? 240)%N then 144 else 128) (if (b =? 244)%N then 143 else 191) b1 then
          match r1 with
          | b2 :: r2 =>
              if is_cont b2 then
                match r2 with
                | b3 :: r3 =>
                    if is_cont b3
                    then (Some ((b - 240) * 262144 + (b1 - 128) * 4096 + (b2 - 128) * 64 + (b3 - 128))%N, r3)
                    else (None, r2)
                | [] => (None, r2)
                end
              else (None, r1)
          | [] => (None, r1)
          end
        else (None, rest)
    | [] => (None, rest)
    end
  else (None, rest).
(** [bytes.decode("utf-8", errors)]: [on_error] is the replacement character or
    the refusal; every step takes at least one byte. *)
Fixpoint utf8_upto (on_error : option N) (fuel : nat) (l : list N) : option pystr :=
  match fuel, l with
  | _, [] => Some []
  | O, _ => None
  | S fuel, b :: rest =>
      let '(c, rest) := utf8_step b rest in
      c ← (match c with Some c => Some c | None => on_error end);
      cons c <$> utf8_upto on_error fuel rest
  end.
Definition utf8_decode (l : list N) : result exn pystr :=
  match utf8_upto None (length l) l with Some s => Ok s | None => Err ValueError end.
Definition utf8_replace (l : list N) : pystr := default [] (utf8_upto (Some 65533%N) (length l) l).

(** ** Percent-encoding *)

Definition hex_upper (d : N) : N := if (d <? 10)%N then (48 + d)%N else (55 + d)%N.
Definition always_safe (b : N) : bool := is_alnum b || bool_decide (b ∈ u "_.-~").
Definition quote_byte (safe : pystr) (b : N) : pystr :=
  if always_safe b || bool_decide (b ∈ safe) then [b] else [37; hex_upper (b / 16); hex_upper (b mod 16)]%N.
(** [quote(s, safe)] for ASCII characters [safe]. *)
Definition quote_with (safe s : pystr) : result exn pystr :=
  let? bytes := utf8_encode s in Ok (concat (map (quote_byte safe) bytes)).
Definition quote (s : pystr) : result exn pystr := quote_with (u "/") s.
(** [quote_plus(s)] *)
Definition quote_plus (s : pystr) : result exn pystr :=
  let? quoted := quote_with (u " ") s in Ok (map (λ c, if (c =? 32)%N then 43%N else c) quoted).

Definition hex_byte (a b : N) : option N := h ← hex_val a; l ← hex_val b; Some (h * 16 + l)%N.
(** [_unquote_impl] of an ASCII text. *)
Fixpoint unquote_bytes (s : pystr) : list N :=
  match s with
  | [] => []
  | c :: t =>
      if (c =? 37)%N then
        match t with
        | a :: b :: t' => match hex_byte a b with Some v => v :: unquote_bytes t' | None => c :: unquote_bytes t end
        | _ => c :: unquote_bytes t
        end
      else c :: unquote_bytes t
  end.
(** Runs of ASCII characters are decoded; the others are kept.  [run] is the
    current run, backwards. *)
Fixpoint unquote_from (run s : pystr) : pystr :=
  match s with
  | [] => utf8_replace (unquote_bytes (reverse run))
  | c :: t =>
      if is_ascii c then unquote_from (c :: run) t
      else utf8_replace (unquote_bytes (reverse run)) ++ c :: unquote_from [] t
  end.
(** [unquote(s)] and [unquote_plus(s)] *)
Definition unquote (s : pystr) : pystr := unquote_from [] s.
Definition unquote_plus (s : pystr) : pystr := unquote (map (λ c, if (c =? 43)%N then 32%N else c) s).

(** ** UTF-8 round trip *)

Lemma in_range_true lo hi c : in_range lo hi c = true ↔ (lo <= c <= hi)%N.
Proof. unfold in_range. rewrite andb_true_iff, !N.leb_le. done. Qed.
Lemma in_range_false lo hi c : in_range lo hi c = false ↔ (c < lo ∨ hi < c)%N.
Proof. unfold in_range. rewrite andb_false_iff, !N.leb_gt. done. Qed.
Ltac ranges :=
  repeat match goal with
  | H : in_range _ _ _ = true |- _ => apply in_range_true in H
  | H : in_range _ _ _ = false |- _ => apply in_range_false in H
  end.

(** The characters that have an encoding. *)
Definition encodable (c : N) : bool := (c <? 1114112)%N && negb (is_surrogate c).
Lemma utf8_char_encodable c : is_Some (utf8_char c) ↔ encodable c = true.
Proof.
  unfold utf8_char, encodable. rewrite is_Some_alt. destruct (N.ltb_spec c 128), (N.ltb_spec c 2048), (N.ltb_spec c 65536), (N.ltb_spec c 1114112); try lia;
    unfold is_surrogate; destruct (in_range 55296 57343 c) eqn:Hs; ranges; try lia; done.
Qed.
Lemma utf8_encode_encodable s : is_ok (utf8_encode s) = forallb encodable s.
Proof.
  unfold utf8_encode. induction s as [| c s IH]; [done |]. cbn [mapM forallb]. pose proof (utf8_char_encodable c) as Hc.
  destruct (utf8_char c) as [b |]; cbn [mbind option_bind].
  - rewrite (proj1 Hc) by done. cbn [andb]. rewrite <- IH. by destruct (mapM utf8_char s).
  - destruct (encodable c); [| done]. destruct (proj2 Hc eq_refl). done.
Qed.
Lemma utf8_encode_chars s bytes : utf8_encode s = Ok bytes → forallb encodable s = true.
Proof. intros Hs. by rewrite <- utf8_encode_encodable, Hs. Qed.

(** The bits of a code point, six at a time. *)
Lemma div64 c : ∃ q r, (c = q * 64 + r ∧ r < 64 ∧ c / 64 = q ∧ c mod 64 = r)%N.
Proof. exists (c / 64)%N, (c mod 64)%N. pose proof (N.div_mod c 64). pose proof (N.mod_lt c 64). split_and!; lia. Qed.
Lemma div_twice c a b : (a ≠ 0 → b ≠ 0 → c / a / b = c / (a * b))%N.
Proof. intros Ha Hb. apply N.Div0.div_div. Qed.

Ltac decide_ranges :=
  repeat match goal with
  | |- context [(?a <? ?b)%N] => first [rewrite (proj2 (N.ltb_lt a b)) by lia | rewrite (proj2 (N.ltb_ge a b)) by lia]
  | |- context [in_range ?a ?b ?c] => first [rewrite (proj2 (in_range_true a b c)) by lia | rewrite (proj2 (in_range_false a b c)) by lia]
  end; cbv iota.

Lemma utf8_step_char c bytes rest : utf8_char c = Some bytes →
  ∃ b tail, bytes = b :: tail ∧ utf8_step b (tail ++ rest) = (Some c, rest).
Proof.
  unfold utf8_char, is_surrogate. intros Hc.
  destruct (c <? 128)%N eqn:H1; [injection Hc as <-; do 2 eexists; split; [reflexivity |]; unfold utf8_step; by rewrite H1 |].
  apply N.ltb_ge in H1. destruct (div64 c) as (q & r & Hqr & Hr & Hq & Hm).
  destruct (c <? 2048)%N eqn:H2; [apply N.ltb_lt in H2 | apply N.ltb_ge in H2].
  { injection Hc as <-. rewrite Hq, Hm. do 2 eexists. split; [reflexivity |]. unfold utf8_step, is_cont. cbn [app]. decide_ranges.
    do 2 f_equal. lia. }
  destruct (in_range 55296 57343 c) eqn:Hs; [done |]. apply in_range_false in Hs.
  destruct (div64 q) as (q2 & r2 & Hqr2 & Hr2 & Hq2 & Hm2).
  assert (E1 : (c / 4096 = q2)%N) by (change 4096%N with (64 * 64)%N; rewrite <- div_twice, Hq by done; done).
  destruct (c <? 65536)%N eqn:H3; [apply N.ltb_lt in H3 | apply N.ltb_ge in H3].
  { injection Hc as <-. rewrite E1, Hq, Hm, Hm2. do 2 eexists. split; [reflexivity |]. unfold utf8_step, is_cont. cbn [app]. decide_ranges.
    rewrite (proj2 (in_range_true _ _ (128 + r2))); [decide_ranges; do 2 f_equal; lia |].
    destruct (N.eqb_spec (224 + q2) 224), (N.eqb_spec (224 + q2) 237); lia. }
  destruct (c <? 1114112)%N eqn:Hp; [apply N.ltb_lt in Hp | done].
  destruct (div64 q2) as (q3 & r3 & Hqr3 & Hr3 & Hq3 & Hm3).
  assert (E2 : (c / 262144 = q3)%N) by (change 262144%N with (4096 * 64)%N; rewrite <- div_twice, E1 by done; done).
  injection Hc as <-. rewrite E2, E1, Hq, Hm, Hm2, Hm3. do 2 eexists. split; [reflexivity |]. unfold utf8_step, is_cont. cbn [app]. decide_ranges.
  rewrite (proj2 (in_range_true _ _ (128 + r3))); [decide_ranges; do 2 f_equal; lia |].
  destruct (N.eqb_spec (240 + q3) 240), (N.eqb_spec (240 + q3) 244); lia.
Qed.

Lemma utf8_upto_encoded on_error s bytes n : utf8_encode s = Ok bytes → length bytes ≤ n →
  utf8_upto on_error n bytes = Some s.
Proof.
  unfold utf8_encode. destruct (mapM utf8_char s) as [chunks |] eqn:Hm; [| done]. intros [= <-]. revert s n Hm.
  induction chunks as [| chunk chunks IH]; intros s n Hm Hn.
  - destruct s as [| c s]; [by destruct n |]. simpl in Hm. destruct (utf8_char c); [| done]. simpl in Hm. by destruct (mapM utf8_char s).
  - destruct s as [| c s]; [done |]. cbn [mapM] in Hm. destruct (utf8_char c) as [ch1 |] eqn:Hc; [| done]. cbn [mbind option_bind] in Hm.
    destruct (mapM utf8_char s) as [chs |] eqn:Hs; [| done]. injection Hm as -> ->.
    destruct (utf8_step_char c chunk (concat chunks) Hc) as (b & tail & -> & Hstep).
    cbn [concat app] in Hn |- *. destruct n as [| n]; [simpl in Hn; lia |]. cbn [utf8_upto]. rewrite Hstep. cbn [mbind option_bind].
    rewrite (IH s); [done | done |]. simpl in Hn. rewrite length_app in Hn. lia.
Qed.
Lemma utf8_decode_encode s bytes : utf8_encode s = Ok bytes → utf8_decode bytes = Ok s.
Proof. intros He. unfold utf8_decode. by rewrite (utf8_upto_encoded None s bytes (length bytes)). Qed.
Lemma utf8_replace_encode s bytes : utf8_encode s = Ok bytes → utf8_replace bytes = s.
Proof. intros He. unfold utf8_replace. by rewrite (utf8_upto_encoded _ s bytes (length bytes)). Qed.

(** ** Percent-encoding round trip *)

Lemma utf8_char_bytes c bytes : utf8_char c = Some bytes → Forall (λ b, b < 256)%N bytes.
Proof.
  unfold utf8_char. intros Hc.
  assert (Hmod : ∀ x, (128 + x mod 64 < 256)%N) by (intros x; pose proof (N.mod_lt x 64); lia).
  assert (Hdiv : ∀ k, (k ≠ 0 → c / k * k <= c)%N) by (intros k Hk; pose proof (N.Div0.mul_div_le c k); lia).
  pose proof (Hdiv 64%N ltac:(done)). pose proof (Hdiv 4096%N ltac:(done)). pose proof (Hdiv 262144%N ltac:(done)).
  repeat (case_match; try discriminate); injection Hc as <-; to_prop; repeat constructor; try apply Hmod; lia.
Qed.
Lemma utf8_encode_bytes s bytes : utf8_encode s = Ok bytes → Forall (λ b, b < 256)%N bytes.
Proof.
  unfold utf8_encode. destruct (mapM utf8_char s) as [chunks |] eqn:Hm; [| done]. intros [= <-]. revert s Hm.
  induction chunks as [| chunk chunks IH]; intros s Hm; [constructor |].
  destruct s as [| c s]; [done |]. cbn [mapM] in Hm. destruct (utf8_char c) as [ch1 |] eqn:Hc; [| done]. cbn [mbind option_bind] in Hm.
  destruct (mapM utf8_char s) as [chs |] eqn:Hs; [| done]. injection Hm as -> ->.
  cbn [concat]. apply Forall_app. split; [by eapply utf8_char_bytes | by apply (IH s)].
Qed.

(** What [quote] may leave in a text. *)
Definition quoted_char (safe : pystr) (c : N) : bool := always_safe c || (c =? 37)%N || bool_decide (c ∈ safe).
Lemma hex_upper_ok d : (d < 16)%N → always_safe (hex_upper d) = true ∧ hex_val (hex_upper d) = Some d.
Proof.
  intros Hd. assert (Hall : forallb (λ n, always_safe (hex_upper (N.of_nat n))
    && bool_decide (hex_val (hex_upper (N.of_nat n)) = Some (N.of_nat n))) (seq 0 16) = true) by (vm_compute; reflexivity).
  rewrite forallb_forall in Hall. specialize (Hall (N.to_nat d) ltac:(apply in_seq; lia)). rewrite N2Nat.id in Hall.
  apply andb_true_iff in Hall as [H1 H2]. by apply bool_decide_eq_true in H2.
Qed.
Lemma quote_byte_ok safe b rest : (b < 256)%N → 37%N ∉ safe →
  forallb (quoted_char safe) (quote_byte safe b) = true ∧ unquote_bytes (quote_byte safe b ++ rest) = b :: unquote_bytes rest.
Proof.
  intros Hb Hsafe. unfold quote_byte. destruct (always_safe b || bool_decide (b ∈ safe)) eqn:Hs.
  - assert (Hne : b ≠ 37%N).
    { intros ->. apply orb_true_iff in Hs as [Hs | Hs]; [by vm_compute in Hs | by apply bool_decide_eq_true in Hs]. }
    cbn [forallb app unquote_bytes]. rewrite (proj2 (N.eqb_neq b 37)) by done. split; [| done]. unfold quoted_char.
    rewrite andb_true_r. apply orb_true_iff in Hs as [-> | ->]; [done | by rewrite orb_true_r].
  - assert (H1 : (b / 16 < 16)%N) by (apply N.Div0.div_lt_upper_bound; lia). pose proof (N.mod_lt b 16 ltac:(done)) as H2.
    destruct (hex_upper_ok _ H1) as [S1 V1], (hex_upper_ok _ H2) as [S2 V2]. split.
    + cbn [forallb]. unfold quoted_char. rewrite S1, S2. cbn [orb andb]. change (37 =? 37)%N with true. by rewrite orb_true_r.
    + cbn [app unquote_bytes]. unfold hex_byte. cbn [N.eqb Pos.eqb]. rewrite V1, V2. cbn [mbind option_bind]. f_equal.
      pose proof (N.div_mod b 16). lia.
Qed.
Lemma quote_bytes_ok safe bytes : Forall (λ b, b < 256)%N bytes → 37%N ∉ safe →
  forallb (quoted_char safe) (concat (map (quote_byte safe) bytes)) = true
  ∧ unquote_bytes (concat (map (quote_byte safe) bytes)) = bytes.
Proof.
  intros Hb Hs. induction Hb as [| b bytes Hb _ [IH1 IH2]]; [done |]. cbn [map concat]. rewrite forallb_app.
  destruct (quote_byte_ok safe b (concat (map (quote_byte safe) bytes)) Hb Hs) as [-> ->]. by rewrite IH1, IH2.
Qed.
Lemma unquote_from_ascii run s : forallb is_ascii s = true → unquote_from run s = utf8_replace (unquote_bytes (reverse run ++ s)).
Proof.
  revert run. induction s as [| c s IH]; intros run; simpl; [by rewrite app_nil_r |].
  intros [-> Hs]%andb_true_iff. rewrite IH by done. by rewrite reverse_cons, <- app_assoc.
Qed.

Lemma in_texts (l : pystr) c : bool_decide (c ∈ l) = existsb (N.eqb c) l.
Proof.
  apply eq_true_iff_eq. rewrite bool_decide_eq_true, existsb_exists. setoid_rewrite N.eqb_eq. rewrite list_elem_of_In. naive_solver.
Qed.
Lemma always_safe_ascii c : always_safe c = true → is_ascii c = true ∧ c ≠ 38%N ∧ c ≠ 61%N ∧ c ≠ 43%N ∧ c ≠ 32%N ∧ c ≠ 37%N.
Proof.
  unfold always_safe, is_ascii, is_alnum, is_lower_az, is_upper_az, is_09. rewrite in_texts.
  change (u "_.-~") with [95; 46; 45; 126]%N. cbn [existsb]. rewrite !orb_true_iff, !in_range_true, !N.eqb_eq, N.ltb_lt. lia.
Qed.
Lemma quoted_ascii safe s : forallb is_ascii safe = true → forallb (quoted_char safe) s = true → forallb is_ascii s = true.
Proof.
  intros Hs. apply forallb_impl. intros c. unfold quoted_char. rewrite !orb_true_iff. intros [[Hc | Hc] | Hc].
  - by destruct (always_safe_ascii c Hc).
  - apply N.eqb_eq in Hc as ->. done.
  - apply bool_decide_eq_true in Hc. rewrite forallb_forall in Hs. by apply Hs, list_elem_of_In.
Qed.

(** [unquote(quote(s))] is [s]. *)
Theorem unquote_quote s q : quote s = Ok q →
  unquote q = s ∧ forallb is_ascii q = true.
Proof.
  unfold quote, quote_with. rewrite result_bind_ok. intros (bytes & He & [= <-]).
  destruct (quote_bytes_ok (u "/") bytes) as [Hq Hu]; [by eapply utf8_encode_bytes | by vm_compute; set_solver |].
  apply (quoted_ascii (u "/")) in Hq; [| done]. split; [| done].
  unfold unquote. rewrite unquote_from_ascii by done. cbn [app]. change (reverse []) with (@nil N). cbn [app]. rewrite Hu. by apply utf8_replace_encode.
Qed.
(** [unquote_plus(quote_plus(s))] is [s], and the quoted text can stand in a
    query string. *)
Lemma unquote_quote_plus s q : quote_plus s = Ok q →
  unquote_plus q = s ∧ Forall (λ c, c ≠ 38 ∧ c ≠ 61)%N q.
Proof.
  unfold quote_plus, quote_with. rewrite result_bind_ok. intros (q0 & He0 & [= <-]). rewrite result_bind_ok in He0.
  destruct He0 as (bytes & He & [= <-]).
  destruct (quote_bytes_ok (u " ") bytes) as [Hq Hu]; [by eapply utf8_encode_bytes | by vm_compute; set_solver |].
  revert Hq Hu. generalize (concat (map (quote_byte (u " ")) bytes)). intros q Hq Hu. assert (Hchars : ∀ c, c ∈ q → c ≠ 38%N ∧ c ≠ 61%N ∧ c ≠ 43%N).
  { intros c Hc. rewrite forallb_forall in Hq. apply list_elem_of_In, Hq in Hc. unfold quoted_char in Hc. rewrite !orb_true_iff in Hc.
    destruct Hc as [[Hc%always_safe_ascii | Hc%N.eqb_eq] | Hc]; [tauto | by subst |].
    apply bool_decide_eq_true in Hc. change (u " ") with [32]%N in Hc. apply list_elem_of_singleton in Hc. by subst. }
  split.
  - unfold unquote_plus. rewrite map_map. rewrite (map_ext_in _ id), map_id.
    + unfold unquote. rewrite unquote_from_ascii by (by apply (quoted_ascii (u " "))). change (reverse []) with (@nil N). cbn [app]. rewrite Hu.
      by apply utf8_replace_encode.
    + intros c Hc%list_elem_of_In. destruct (Hchars c Hc) as (_ & _ & Hne). destruct (N.eqb_spec c 32) as [-> | ?]; [done |].
      by rewrite (proj2 (N.eqb_neq c 43)).
  - apply list.Forall_forall. intros c (d & <- & Hd)%list_elem_of_In%in_map_iff. apply list_elem_of_In in Hd.
    destruct (Hchars d Hd) as (? & ? & ?). by destruct (d =? 32)%N.
Qed.
