(* ===== verification/VectorModels.v ===== *)
(** * VectorModels: the values and the contract of the vector stores

    Models [infrastructure/vector/models.py] and [contracts/client.py]: the
    validators every driver calls first, the client interface, and what an
    implementation of it promises ([VectorClientLaws]) over an abstract store
    of collections.  The drivers are in VectorMilvus, VectorChroma and
    VectorElastic.  Containers and texts have the annotated types; the values
    whose types the code tests are [pyval]s. *)

From Stdlib Require Import Floats.SpecFloat.
From S2P Require Import Prelude Text PyVal Errors Decimal Json.
Local Open Scope prog_scope.

(** ** Numbers *)

(** [float(z)]: rounded to the nearest double, [OverflowError] past the range. *)
Definition int_float (z : Z) : result exn spec_float :=
  match binary_normalize 53 1024 z 0 false with
  | S754_infinity _ => Err OverflowError
  | f => Ok f
  end.
Definition float_of (v : pyval) : result exn spec_float :=
  match v with
  | VFloat f => Ok f
  | VInt z => int_float z
  | VBool b => int_float (if b then 1 else 0)
  | _ => Err TypeError
  end.
(** [math.isfinite] *)
Definition is_finite (f : spec_float) : bool :=
  match f with S754_zero _ | S754_finite _ _ _ => true | _ => false end.
Definition isfinite (v : pyval) : result exn bool :=
  let? f := float_of v in Ok (is_finite f).

(** ** models.py *)

Inductive VectorMetric := COSINE | DOT_PRODUCT | L2.
#[export] Instance metric_eq_dec : EqDecision VectorMetric.
Proof. solve_decision. Defined.

(** [^[a-z][a-z0-9_]*[a-z0-9]$] *)
Definition is_lower_09 (c : N) : bool := is_lower_az c || is_09 c.
Definition collection_name_pattern : regex :=
  RCat (RCls is_lower_az) (RCat (RRep (RCls (λ c, is_lower_09 c || (c =? 95)%N)) 0 None) (RCls is_lower_09)).
(** [^[A-Za-z_][A-Za-z0-9_]*$] *)
Definition is_key_start (c : N) : bool := is_lower_az c || is_upper_az c || (c =? 95)%N.
Definition is_key_char (c : N) : bool := is_alnum c || (c =? 95)%N.
Definition metadata_key_pattern : regex := RCat (RCls is_key_start) (RRep (RCls is_key_char) 0 None).
Definition reserved_metadata_keys : list pystr :=
  [u "id"; u "vector"; u "_vector_dimension"; u "_vector_metric"; u "_vector_record"].
Definition min_metadata_integer : Z := - 2 ^ 63.
Definition max_metadata_integer : Z := 2 ^ 63 - 1.

Definition validate_collection_name (name : pystr) : result exn unit :=
  guard ((3 <=? len name) && (len name <=? 63) && fullmatch collection_name_pattern name)%Z VectorConfigurationError.

(** [any(not a finite number for value in vector)], element by element. *)
Definition validate_component (v : pyval) : result exn unit :=
  match v with
  | VInt _ | VFloat _ => let? finite := isfinite v in guard finite VectorConfigurationError
  | _ => Err VectorConfigurationError
  end.
Definition all_ok {A} (f : A → result exn unit) (l : list A) : result exn unit :=
  let? _ := map_result f l in Ok tt.
Definition validate_vector (vector : list pyval) : result exn unit :=
  let? _ := guard (negb (bool_decide (length vector = 0))) VectorConfigurationError in
  all_ok validate_component vector.

Definition validate_metadata_item (item : pystr * pyval) : result exn unit :=
  let '(key, value) := item in
  let? _ := guard ((len key <=? 128)%Z && fullmatch metadata_key_pattern key) VectorConfigurationError in
  let? _ := guard (negb (bool_decide (key ∈ reserved_metadata_keys))) VectorConfigurationError in
  let? _ := guard (match value with
                   | VStr _ | VInt _ | VBool _ => true
                   | VFloat f => is_finite f
                   | _ => false
                   end) VectorConfigurationError in
  guard (match value with
         | VInt z => (min_metadata_integer <=? z) && (z <=? max_metadata_integer)
         | _ => true
         end)%Z VectorConfigurationError.
Definition validate_metadata (metadata : pydict pyval) : result exn unit := all_ok validate_metadata_item metadata.

(** [str.encode("utf-8")] refuses surrogates with a [UnicodeEncodeError]. *)
Definition encodable (s : pystr) : bool := forallb (λ c, negb (in_range 55296 57343 c)) s.
Definition validate_point_id (id : pystr) : result exn unit :=
  let? _ := guard (negb (bool_decide (id = []))) VectorConfigurationError in
  let? _ := guard (encodable id) ValueError in
  guard (utf8_length id <=? 512)%Z VectorConfigurationError.
Definition validate_unique_ids (ids : list pystr) : result exn unit :=
  guard (bool_decide (base.NoDup ids)) VectorConfigurationError.

Record VectorCollectionSpec := mk_spec { cs_name : pystr; cs_dimension : pyval; cs_metric : VectorMetric }.
Definition VectorCollectionSpec_new (s : VectorCollectionSpec) : result exn VectorCollectionSpec :=
  let? _ := validate_collection_name (cs_name s) in
  let? _ := guard (match is_int (cs_dimension s) with
                   | Some n => (1 <=? n) && (n <=? 4096)
                   | None => false
                   end)%Z VectorConfigurationError in
  Ok s.
Record VectorCollectionInfo := mk_info { ci_name : pystr; ci_dimension : Z; ci_metric : VectorMetric }.

Record VectorPoint := mk_point { vp_id : pystr; vp_vector : list pyval; vp_metadata : pydict pyval }.
Definition validate_point (p : VectorPoint) : result exn unit :=
  let? _ := validate_point_id (vp_id p) in
  let? _ := validate_vector (vp_vector p) in
  validate_metadata (vp_metadata p).
Definition VectorPoint_new (p : VectorPoint) : result exn VectorPoint := let? _ := validate_point p in Ok p.

Record VectorMatch := mk_match { vm_id : pystr; vm_score : spec_float; vm_metadata : pydict pyval }.

Definition validate_filters (filters : option (pydict pyval)) : result exn unit :=
  match filters with Some f => validate_metadata f | None => Ok tt end.
Definition validate_limit (limit : pyval) : result exn unit :=
  guard (match is_int limit with Some n => (1 <=? n) && (n <=? 10000) | None => false end)%Z VectorConfigurationError.
Definition validate_query_vector (vector : list pyval) : result exn unit := validate_vector vector.
Definition validate_points (points : list VectorPoint) : result exn unit :=
  let? _ := all_ok validate_point points in
  validate_unique_ids (map vp_id points).
Definition validate_ids (ids : list pystr) : result exn unit :=
  let? _ := all_ok validate_point_id ids in
  validate_unique_ids ids.

(** The items of an untyped dict under text keys. *)
Definition text_items (d : list (pyval * pyval)) : pydict pyval :=
  omap (λ kv, match kv.1 with VStr k => Some (k, kv.2) | _ => None end) d.

(** ** contracts/client.py *)

Class VectorClient (W : Type) := {
  create_collection : VectorCollectionSpec → io W unit;
  has_collection : pystr → io W bool;
  describe_collection : pystr → io W VectorCollectionInfo;
  delete_collection : pystr → io W unit;
  upsert : pystr → list VectorPoint → io W unit;
  vget : pystr → list pystr → io W (list VectorPoint);
  vdelete : pystr → list pystr → io W unit;
  vsearch : pystr → list pyval → pyval → option (pydict pyval) → io W (list VectorMatch);   (* vector, limit, filters *)
  vping : io W bool;
  vaclose : io W unit;
}.

(** [{point.id: point}] and [tuple(points[i] for i in ids if i in points)]. *)
Definition points_by_id (points : list VectorPoint) : pydict VectorPoint :=
  fold_left (λ d p, dict_set d (vp_id p) p) points [].
Definition in_order (ids : list pystr) (points : pydict VectorPoint) : list VectorPoint :=
  omap (dict_get points) ids.

(** ** The abstract store *)

Record Stored := mk_stored { st_vector : list spec_float; st_metadata : gmap pystr pyval }.
(** The dimension and the metric the store can tell; a collection that was not made
    through the interface may have none. *)
Record Collection := mk_collection { co_dimension : option Z; co_metric : option VectorMetric; co_points : gmap pystr Stored }.
Abbreviation Store := (gmap pystr Collection).

Definition map_points (f : gmap pystr Stored → gmap pystr Stored) (c : Collection) : Collection :=
  mk_collection (co_dimension c) (co_metric c) (f (co_points c)).
Definition store_put (coll id : pystr) (p : Stored) (s : Store) : Store := alter (map_points (insert id p)) coll s.
Definition store_remove (coll id : pystr) (s : Store) : Store := alter (map_points (delete id)) coll s.
Definition store_find (s : Store) (coll id : pystr) : option Stored := s !! coll ≫= λ c, co_points c !! id.
Definition new_collection (spec : VectorCollectionSpec) : Collection :=
  mk_collection (is_int (cs_dimension spec)) (Some (cs_metric spec)) ∅.

(** A dict as a map: the order of its keys does not matter. *)
Definition meta_map (d : pydict pyval) : gmap pystr pyval := list_to_map d.
(** [point_as p st]: [p] holds the numbers and the metadata of [st]. *)
Definition point_as (p : VectorPoint) (st : Stored) : Prop :=
  map_result float_of (vp_vector p) = Ok (st_vector st) ∧ meta_map (vp_metadata p) = st_metadata st.

(** The metadata of a point is a dict: no key twice. *)
Definition dict_point (p : VectorPoint) : Prop := base.NoDup (dict_keys (vp_metadata p)).

(** How a store and its client behave where the three differ. *)
Record StoreKind (W : Type) := mk_kind {
  (** A creation that loses a race against an identical one may succeed. *)
  sk_again : bool;
  (** A write to a collection that is gone makes an ordinary one. *)
  sk_auto : bool;
  (** [lag s s1]: a reading may show [s] while the store is in [s1]. *)
  sk_get_lag : relation Store;
  sk_search_lag : relation Store;
  (** The comparison of a stored value with the operand of a filter. *)
  sk_equal : pyval → pyval → bool;
  (** The metric the client takes a collection to have, if it goes by one. *)
  sk_metric : W → pystr → option VectorMetric;
  (** What an upsert asks of the caller. *)
  sk_alone : pystr → list pystr → Prop;
}.
Arguments mk_kind {W}.
Arguments sk_again {W}.
Arguments sk_auto {W}.
Arguments sk_get_lag {W}.
Arguments sk_search_lag {W}.
Arguments sk_equal {W}.
Arguments sk_metric {W}.
Arguments sk_alone {W}.

Section Contract.
Context {W : Type} (R : relation Store) (view : W → Store) (storage : list spec_float → list spec_float) (K : StoreKind W).

(** The database keeps the numbers of a vector at its own precision. *)
Definition stored_as (p : VectorPoint) (st : Stored) : Prop :=
  ∃ fs, map_result float_of (vp_vector p) = Ok fs ∧ st = mk_stored (storage fs) (meta_map (vp_metadata p)).

(** [R] is what others do.  The entries of a batch are written, or the
    ids removed, one after the other with others in between. *)
Inductive puts (coll : pystr) : list (pystr * Stored) → Store → Store → Prop :=
| puts_nil s s' : R s s' → puts coll [] s s'
| puts_cons id st l s s1 s' :
    R s s1 → is_Some (s1 !! coll) → puts coll l (store_put coll id st s1) s' → puts coll ((id, st) :: l) s s'
| puts_make dimension metric l s s1 s' :
    sk_auto K = true → R s s1 → s1 !! coll = None →
    puts coll l (<[coll := mk_collection dimension metric ∅]> s1) s' → puts coll l s s'.
Definition point_put (p : VectorPoint) (e : pystr * Stored) : Prop := e.1 = vp_id p ∧ stored_as p e.2.
Definition written (coll : pystr) (points : list VectorPoint) (s s' : Store) : Prop :=
  ∃ l, Forall2 point_put points l ∧ puts coll l s s'.
Inductive removed (coll : pystr) : list pystr → Store → Store → Prop :=
| removed_nil s s' : R s s' → removed coll [] s s'
| removed_cons id ids s s1 s' :
    R s s1 → removed coll ids (store_remove coll id s1) s' → removed coll (id :: ids) s s'.

(** A state the store went through between [w] and [w']. *)
Definition instant (w w' : W) (s : Store) : Prop := R (view w) s ∧ R s (view w').
(** A state a reading between [w] and [w'] may show. *)
Definition shown (lag : relation Store) (w w' : W) (s : Store) : Prop := ∃ s1, instant w w' s1 ∧ lag s s1.
(** One atomic step between [w] and [w']. *)
Definition atomic_step (w w' : W) (step : Store → Store → Prop) : Prop :=
  ∃ s1 s2, R (view w) s1 ∧ step s1 s2 ∧ R s2 (view w').

(** A creation that failed may have left an empty collection. *)
Definition half_created (name : pystr) (s s' : Store) : Prop :=
  s' = s ∨ (s !! name = None ∧ ∃ dimension metric, s' = <[name := mk_collection dimension metric ∅]> s).
Definition created (name : pystr) (c : Collection) (s s' : Store) : Prop :=
  (s !! name = None ∧ s' = <[name := c]> s)
  ∨ (sk_again K = true ∧ s' = s ∧ ∃ c0, s !! name = Some c0 ∧ co_dimension c0 = co_dimension c ∧ co_metric c0 = co_metric c).
Definition create_outcome (spec : VectorCollectionSpec) (r : result exn unit) (s s' : Store) : Prop :=
  match r with
  | Ok _ => created (cs_name spec) (new_collection spec) s s'
  | Err VectorCollectionConflictError => is_Some (s' !! cs_name spec) ∧ half_created (cs_name spec) s s'
  | Err _ => half_created (cs_name spec) s s'
  end.
Definition drop_outcome (name : pystr) (r : result exn unit) (s s' : Store) : Prop :=
  match r with
  | Ok _ => s' = delete name s
  | Err VectorCollectionNotFoundError => s' !! name = None ∧ (s' = s ∨ s' = delete name s)
  | Err _ => s' = s ∨ s' = delete name s
  end.
Definition upsert_outcome (coll : pystr) (points : list VectorPoint) (r : result exn unit) (w w' : W) : Prop :=
  match r with
  | Ok _ => validate_points points = Ok tt ∧ written coll points (view w) (view w')
  | Err VectorCollectionNotFoundError => ∃ s, instant w w' s ∧ s !! coll = None
  | Err _ => ∃ ps, ps ⊆+ points ∧ written coll ps (view w) (view w')
  end.
Definition delete_outcome (coll : pystr) (ids : list pystr) (r : result exn unit) (w w' : W) : Prop :=
  match r with
  | Ok _ => removed coll ids (view w) (view w')
  | Err VectorCollectionNotFoundError => ∃ s, instant w w' s ∧ s !! coll = None
  | Err _ => ∃ gone, gone ⊆+ ids ∧ removed coll gone (view w) (view w')
  end.
(** The answer lists the points found, in the order asked for, and shows for
    each id a state the reading may show. *)
Definition get_outcome (coll : pystr) (ids : list pystr) (r : result exn (list VectorPoint)) (w w' : W) : Prop :=
  R (view w) (view w') ∧
  match r with
  | Ok points => ∃ found : pydict VectorPoint, points = in_order ids found ∧
      ∀ id, id ∈ ids → ∃ s, shown (sk_get_lag K) w w' s ∧
        match dict_get found id with
        | Some p => vp_id p = id ∧ ∃ st, store_find s coll id = Some st ∧ point_as p st
        | None => store_find s coll id = None
        end
  | Err VectorCollectionNotFoundError => ∃ s, instant w w' s ∧ s !! coll = None
  | Err _ => True
  end.
Definition describe_outcome (name : pystr) (r : result exn VectorCollectionInfo) (w w' : W) : Prop :=
  R (view w) (view w') ∧
  match r with
  | Ok info => ci_name info = name ∧
      (∃ s c, instant w w' s ∧ s !! name = Some c ∧ co_dimension c = Some (ci_dimension info)) ∧
      (∃ s c, instant w w' s ∧ s !! name = Some c ∧ co_metric c = Some (ci_metric info))
  | Err VectorCollectionNotFoundError => ∃ s, instant w w' s ∧ s !! name = None
  | Err _ => True
  end.
Definition has_outcome (name : pystr) (r : result exn bool) (w w' : W) : Prop :=
  ∃ s, instant w w' s ∧ ∀ b, r = Ok b → b = bool_decide (is_Some (s !! name)).

(** A stored metadata meets every condition of the filters. *)
Definition meets (filters : option (pydict pyval)) (metadata : gmap pystr pyval) : Prop :=
  Forall (λ item, ∃ x, metadata !! item.1 = Some x ∧ sk_equal K x item.2 = true) (default [] filters).
Definition match_of (coll : pystr) (filters : option (pydict pyval)) (w w' : W) (m : VectorMatch) : Prop :=
  ∃ s st, shown (sk_search_lag K) w w' s ∧ store_find s coll (vm_id m) = Some st
    ∧ meta_map (vm_metadata m) = st_metadata st ∧ meets filters (st_metadata st).
(** Better matches first; a NaN compares to nothing. *)
Definition best_first (scores : list spec_float) : Prop := StronglySorted (λ a b, SFleb b a = true) scores.
(** During the call the collection had one metric, the one the client goes by. *)
Definition metric_settled (coll : pystr) (w w' : W) : Prop :=
  ∃ m, (∀ m', sk_metric K w coll = Some m' → m' = m)
    ∧ ∀ s c, instant w w' s ∨ shown (sk_search_lag K) w w' s → s !! coll = Some c → co_metric c = Some m.
Definition search_outcome (coll : pystr) (vector : list pyval) (limit : pyval) (filters : option (pydict pyval))
    (r : result exn (list VectorMatch)) (w w' : W) : Prop :=
  R (view w) (view w') ∧
  match r with
  | Ok matches =>
      validate_collection_name coll = Ok tt ∧ validate_query_vector vector = Ok tt ∧ validate_filters filters = Ok tt
      ∧ (∃ n, is_int limit = Some n ∧ (1 <= n <= 10000)%Z ∧ (Z.of_nat (length matches) <= n)%Z)
      ∧ Forall (match_of coll filters w w') matches
      ∧ (metric_settled coll w w' → best_first (map vm_score matches))
  | Err VectorCollectionNotFoundError => ∃ s, instant w w' s ∧ s !! coll = None
  | Err _ => True
  end.

Class VectorClientLaws `{VectorClient W} : Prop := {
  law_create spec w : VectorCollectionSpec_new spec = Ok spec →
    wp (create_collection spec) (λ r w', atomic_step w w' (create_outcome spec r)) w;
  law_has name w : wp (has_collection name) (λ r w', has_outcome name r w w') w;
  law_describe name w : wp (describe_collection name) (λ r w', describe_outcome name r w w') w;
  law_delete_collection name w :
    wp (delete_collection name) (λ r w', atomic_step w w' (drop_outcome name r)) w;
  law_upsert coll points w : Forall dict_point points → sk_alone K coll (map vp_id points) →
    wp (upsert coll points) (λ r w', upsert_outcome coll points r w w') w;
  law_get coll ids w : wp (vget coll ids) (λ r w', get_outcome coll ids r w w') w;
  law_delete coll ids w : wp (vdelete coll ids) (λ r w', delete_outcome coll ids r w w') w;
  law_search coll vector limit filters w :
    wp (vsearch coll vector limit filters) (λ r w', search_outcome coll vector limit filters r w w') w;
  law_ping w : wp vping (λ _ w', R (view w) (view w')) w;
  law_aclose w : wp vaclose (λ _ w', R (view w) (view w')) w;
}.
End Contract.

(** ** Lemmas on the store *)

Lemma store_find_put s coll id st coll' id' :
  is_Some (s !! coll) →
  store_find (store_put coll id st s) coll' id' =
    if decide (coll' = coll ∧ id' = id) then Some st else store_find s coll' id'.
Proof.
  intros [c Hc]. unfold store_find, store_put. destruct (decide (coll' = coll)) as [-> | Hcoll].
  - rewrite lookup_alter_eq, Hc. simpl. case_decide as Hd.
    + destruct Hd as [_ ->]. by rewrite lookup_insert_eq.
    + rewrite lookup_insert_ne; [done | naive_solver].
  - rewrite lookup_alter_ne by done. case_decide; naive_solver.
Qed.

Lemma store_find_remove s coll id coll' id' :
  store_find (store_remove coll id s) coll' id' =
    if decide (coll' = coll ∧ id' = id) then None else store_find s coll' id'.
Proof.
  unfold store_find, store_remove. destruct (decide (coll' = coll)) as [-> | Hcoll].
  - rewrite lookup_alter_eq. destruct (s !! coll) as [c |]; simpl; case_decide as Hd; try done.
    + destruct Hd as [_ ->]. by rewrite lookup_delete_eq.
    + rewrite lookup_delete_ne; [done | naive_solver].
  - rewrite lookup_alter_ne by done. case_decide; naive_solver.
Qed.

Lemma store_find_make s coll n m coll' id' : s !! coll = None →
  store_find (<[coll := mk_collection n m ∅]> s) coll' id' = store_find s coll' id'.
Proof.
  intros Hc. unfold store_find. destruct (decide (coll' = coll)) as [-> | Hn]; [| by rewrite lookup_insert_ne].
  rewrite lookup_insert_eq, Hc. cbn. apply lookup_empty.
Qed.

Lemma all_ok_Forall {A} (f : A → result exn unit) l : all_ok f l = Ok tt ↔ Forall (λ x, f x = Ok tt) l.
Proof.
  unfold all_ok. induction l as [| x l IH]; simpl; [by split |]. rewrite list.Forall_cons, <- IH.
  destruct (f x) as [[] | e]; simpl; [| naive_solver]. destruct (map_result f l); naive_solver.
Qed.

Lemma validate_points_ok points : validate_points points = Ok tt ↔
  Forall (λ p, validate_point p = Ok tt) points ∧ base.NoDup (map vp_id points).
Proof.
  unfold validate_points, validate_unique_ids. rewrite result_bind_ok, <- all_ok_Forall. unfold guard.
  split; [intros ([] & Ha & Hb); by case_bool_decide | intros [Ha Hb]; exists tt; by rewrite bool_decide_true].
Qed.

Lemma points_by_id_get points id :
  dict_get (points_by_id points) id = list.last (base.filter (λ p, vp_id p = id) points).
Proof.
  unfold points_by_id. rewrite <- (reverse_involutive points). generalize (reverse points). clear points. intros l.
  induction l as [| p l IH]; [done |]. rewrite reverse_cons, fold_left_app. cbn [fold_left].
  rewrite dict_get_set, list.filter_app, IH, list.filter_cons. case_decide as Hd; cbn [base.filter list_filter].
  - by rewrite last_snoc.
  - by rewrite app_nil_r.
Qed.


Section Roundtrip.
Context {W : Type} `{VectorClient W} (R : relation Store) `{!PreOrder R} (view : W → Store)
  (storage : list spec_float → list spec_float) (K : StoreKind W).

(** Other clients leave the points [ids] of [coll] alone. *)
Definition untouched (coll : pystr) (ids : list pystr) : Prop :=
  ∀ s s' id, R s s' → id ∈ ids → store_find s' coll id = store_find s coll id.

Lemma puts_find coll l s s' ids : puts R K coll l s s' → untouched coll ids → base.NoDup (dict_keys l) →
  ∀ id, id ∈ ids →
    store_find s' coll id = match dict_get l id with Some st => Some st | None => store_find s coll id end.
Proof.
  intros Hw Hu. induction Hw as [s s' HR | id0 st l s s1 s' HR Hc Hw IH | n m l s s1 s' _ HR Hc Hw IH]; intros Hnd id Hid; [by apply Hu | |].
  2: { rewrite (IH Hnd id Hid), store_find_make by done. destruct (dict_get l id); [done | by apply Hu]. }
  cbn [dict_keys map fst] in Hnd. apply list.NoDup_cons in Hnd as [Hni Hnd]. rewrite (IH Hnd id Hid).
  cbn [dict_get]. rewrite store_find_put by done. destruct (decide (id0 = id)) as [-> | Hp].
  - rewrite decide_True by done. destruct (dict_get l id) eqn:Hl; [| done].
    destruct Hni. by eapply dict_get_in.
  - rewrite decide_False by naive_solver. destruct (dict_get l id); [done |]. by apply Hu.
Qed.

Lemma put_of points l : Forall2 (point_put storage) points l → dict_keys l = map vp_id points.
Proof. induction 1 as [| p e points l [He _] Hl IH]; [done |]. cbn [dict_keys map]. f_equal; [done | apply IH]. Qed.

Lemma put_find points l p : Forall2 (point_put storage) points l → base.NoDup (map vp_id points) → p ∈ points →
  ∃ st, dict_get l (vp_id p) = Some st ∧ stored_as storage p st.
Proof.
  induction 1 as [| q [id st] points l [Hid Hst] Hl IH]; intros Hnd Hp; [by apply not_elem_of_nil in Hp |].
  cbn [map] in Hnd. apply list.NoDup_cons in Hnd as [Hni Hnd]. cbn [fst snd] in *. subst id. cbn [dict_get].
  apply elem_of_cons in Hp as [-> | Hp]; [rewrite decide_True by done; eauto |].
  rewrite decide_False; [by apply IH |]. intros Hq. apply Hni. rewrite Hq. by apply list_elem_of_fmap_2.
Qed.

Definition same_point (p q : VectorPoint) : Prop :=
  vp_id q = vp_id p ∧ meta_map (vp_metadata q) = meta_map (vp_metadata p) ∧
  ∃ fs, map_result float_of (vp_vector p) = Ok fs ∧ map_result float_of (vp_vector q) = Ok (storage fs).

Lemma got_same points (found : pydict VectorPoint) :
  Forall (λ p, ∃ q, dict_get found (vp_id p) = Some q ∧ same_point p q) points →
  Forall2 same_point points (in_order (map vp_id points) found).
Proof.
  induction 1 as [| p points (q & Hq & Hs) Hall IH]; [constructor |].
  unfold in_order in *. cbn [map omap list_omap]. rewrite Hq. by constructor.
Qed.

(** What was written can be read back: if a batch is stored and then read
    with the ids it was stored under, no other client touches these points and
    reads of the store are fresh, the answer has exactly the points of the batch, in its order, with their
    metadata and with their numbers at the store's precision.  It holds for
    every driver, by the contract alone. *)
Theorem vector_upsert_get_roundtrip coll points w :
  VectorClientLaws R view storage K → (∀ s s1, sk_get_lag K s s1 → s = s1) →
  sk_alone K coll (map vp_id points) → untouched coll (map vp_id points) → Forall dict_point points →
  wp (upsert coll points;;; vget coll (map vp_id points)) (λ r w', ∀ got, r = Ok got →
    Forall2 same_point points got) w.
Proof.
  intros L Hfresh Ha Hu Hdict. apply wp_bind. eapply wp_mono; [by apply (law_upsert R view storage K) |].
  intros [[] | e] w1; [| done]. intros [Hv (l & Hl & Hw)]. apply validate_points_ok in Hv as [_ Hnd].
  eapply wp_mono; [apply (law_get R view storage K) |]. intros r w2 [_ Hget] got ->.
  destruct Hget as (found & -> & Hfound). apply got_same. apply list.Forall_forall. intros p Hp.
  assert (Hin : vp_id p ∈ map vp_id points) by by apply list_elem_of_fmap_2.
  destruct (put_find _ _ _ Hl Hnd Hp) as (st & Hst & fs & Hfs & ->).
  assert (Hfind : store_find (view w1) coll (vp_id p) = Some (mk_stored (storage fs) (meta_map (vp_metadata p)))).
  { rewrite (puts_find _ _ _ _ _ Hw Hu ltac:(by rewrite (put_of _ _ Hl)) _ Hin). by rewrite Hst. }
  destruct (Hfound _ Hin) as (s & (s1 & [Hs _] & <-%Hfresh) & Hgot). rewrite (Hu _ _ _ Hs Hin), Hfind in Hgot.
  destruct (dict_get found (vp_id p)) as [q |]; [| done]. destruct Hgot as (Hid & st & [= <-] & [Hq Hm]).
  exists q. split; [done |]. split_and!; [done | done | by exists fs].
Qed.
End Roundtrip.

(** ** Lemmas the drivers share *)

(** The two exceptions that say something of the collection. *)
Definition plain_error (e : exn) : Prop := e ≠ VectorCollectionNotFoundError ∧ e ≠ VectorCollectionConflictError.
(** [m] raises only plain errors. *)
Definition raises_plain {A} (r : result exn A) : Prop := ∀ e, r = Err e → plain_error e.

Lemma plain_create {W} (K : StoreKind W) spec e s s' : plain_error e → half_created (cs_name spec) s s' →
  create_outcome K spec (Err e) s s'.
Proof. intros [_ He] Hs. by destruct e. Qed.
Lemma plain_drop name e s s' : plain_error e → s' = s ∨ s' = delete name s → drop_outcome name (Err e) s s'.
Proof. intros [He _] Hs. by destruct e. Qed.

Lemma meta_map_lookup d k : meta_map d !! k = dict_get d k.
Proof.
  unfold meta_map. induction d as [| [k' v] d IH]; [done |]. cbn [list_to_map foldr dict_get fst snd].
  change (<[k':=v]> (list_to_map d : gmap pystr pyval) !! k = if decide (k' = k) then Some v else dict_get d k).
  case_decide; [subst; by rewrite lookup_insert_eq | by rewrite lookup_insert_ne].
Qed.

Lemma dict_get_filter {V} (f : pystr → bool) (d : pydict V) k :
  dict_get (List.filter (λ kv, f kv.1) d) k = if f k then dict_get d k else None.
Proof.
  induction d as [| [k' v] d IH]; [by destruct (f k) |]. cbn [List.filter fst dict_get].
  destruct (f k') eqn:Hf; cbn [dict_get]; case_decide as Hk; subst; rewrite ?IH, ?Hf; done.
Qed.

Lemma validate_vector_floats l : validate_vector l = Ok tt → ∃ fs, map_result float_of l = Ok fs.
Proof.
  unfold validate_vector. rewrite guard_bind_ok. intros [_ Hl%all_ok_Forall]. clear -Hl.
  induction Hl as [| v l Hv Hl (fs & IH)]; [by exists [] |]. assert (∃ f, float_of v = Ok f) as [f Hf].
  { destruct v; simpl in *; try done; eauto. unfold isfinite in Hv. simpl in Hv. destruct (int_float z); [eauto | done]. }
  exists (f :: fs). cbn [map_result]. by rewrite Hf, IH.
Qed.

Lemma float_vector_of fs : map_result float_of (map VFloat fs) = Ok fs.
Proof. induction fs as [| f fs IH]; [done |]. cbn [map map_result]. by rewrite IH. Qed.

Lemma puts_exist storage points : Forall (λ p, validate_point p = Ok tt) points →
  ∃ l, Forall2 (point_put storage) points l.
Proof.
  induction 1 as [| p points Hp Hall (l & IH)]; [by exists [] |]. unfold validate_point in Hp.
  rewrite result_bind_ok in Hp. destruct Hp as ([] & _ & Hp). rewrite result_bind_ok in Hp.
  destruct Hp as ([] & (fs & Hfs)%validate_vector_floats & _).
  exists ((vp_id p, mk_stored (storage fs) (meta_map (vp_metadata p))) :: l). constructor; [| done]. split; [done |].
  by exists fs.
Qed.

Lemma sublist_Forall2 {A B} (P : A → B → Prop) l l' l0 : sublist l' l → Forall2 P l0 l →
  ∃ l1, sublist l1 l0 ∧ Forall2 P l1 l'.
Proof.
  intros Hs. revert l0. induction Hs as [| x l' l Hs IH | x l' l Hs IH]; intros l0 Hf.
  - apply Forall2_nil_inv_r in Hf as ->. exists []. by split; [constructor |].
  - apply Forall2_cons_inv_r in Hf as (y & l2 & Hy & Hl & ->). destruct (IH _ Hl) as (l1 & H1 & H2).
    exists (y :: l1). split; by constructor.
  - apply Forall2_cons_inv_r in Hf as (y & l2 & Hy & Hl & ->). destruct (IH _ Hl) as (l1 & H1 & H2).
    exists l1. split; [by constructor | done].
Qed.

(** Validation raises plain errors only. *)
Lemma plain_guard c : raises_plain (guard c VectorConfigurationError).
Proof. intros e He. unfold guard in He. by destruct c; simplify_eq. Qed.
Lemma plain_bind {A B} (r : result exn A) (k : A → result exn B) :
  raises_plain r → (∀ a, raises_plain (k a)) → raises_plain (result_bind r k).
Proof. intros Hr Hk e. destruct r as [a | e']; [apply Hk | intros [= <-]; by apply Hr]. Qed.
Lemma plain_ok {A} (a : A) : raises_plain (Ok a).
Proof. by intros e. Qed.
Lemma plain_map {A B} (f : A → result exn B) l : (∀ a, raises_plain (f a)) → raises_plain (map_result f l).
Proof.
  intros Hf. induction l as [| a l IH]; cbn [map_result]; [apply plain_ok |]. apply plain_bind; [done |].
  intros b. apply plain_bind; [done | intros; apply plain_ok].
Qed.
Lemma plain_all_ok {A} (f : A → result exn unit) l : (∀ a, raises_plain (f a)) → raises_plain (all_ok f l).
Proof. intros Hf. apply plain_bind; [by apply plain_map | intros; apply plain_ok]. Qed.
Lemma plain_err {A} e : plain_error e → raises_plain (A := A) (Err e).
Proof. by intros He ? [= <-]. Qed.
Lemma plain_float v : raises_plain (float_of v).
Proof.
  assert (∀ z, raises_plain (int_float z)) as Hz.
  { intros z. unfold int_float. case_match; first [apply plain_ok | by apply plain_err]. }
  destruct v; try apply plain_ok; try apply Hz; by apply plain_err.
Qed.

Create HintDb plain discriminated.
#[export] Hint Resolve plain_guard plain_ok plain_float : plain.
Ltac plain_tac :=
  repeat first
    [ progress intros
    | match goal with
      | |- raises_plain (result_bind _ _) => apply plain_bind
      | |- raises_plain (all_ok _ _) => apply plain_all_ok
      | |- raises_plain (map_result _ _) => apply plain_map
      | |- raises_plain (Err _) => by apply plain_err
      | |- raises_plain (match ?x with _ => _ end) => destruct x
      | |- raises_plain (if ?x then _ else _) => destruct x
      end
    | solve [eauto with plain] ].

Lemma name_plain name : raises_plain (validate_collection_name name).
Proof. apply plain_guard. Qed.
Lemma id_plain id : raises_plain (validate_point_id id).
Proof. unfold validate_point_id. plain_tac. unfold guard. plain_tac. Qed.
Lemma metadata_plain m : raises_plain (validate_metadata m).
Proof. unfold validate_metadata, validate_metadata_item. plain_tac. Qed.
Lemma vector_plain v : raises_plain (validate_vector v).
Proof. unfold validate_vector, validate_component, isfinite. plain_tac. Qed.
#[export] Hint Resolve name_plain id_plain metadata_plain vector_plain : plain.
Lemma points_plain points : raises_plain (validate_points points).
Proof. unfold validate_points, validate_point, validate_unique_ids. plain_tac. Qed.
Lemma ids_plain ids : raises_plain (validate_ids ids).
Proof. unfold validate_ids, validate_unique_ids. plain_tac. Qed.
Lemma point_new_plain p : raises_plain (VectorPoint_new p).
Proof. unfold VectorPoint_new, validate_point. plain_tac. Qed.
#[export] Hint Resolve points_plain ids_plain point_new_plain : plain.

Lemma dict_get_elem {V} (d : pydict V) k v : dict_get d k = Some v → (k, v) ∈ d.
Proof.
  induction d as [| [k0 v0] d IH]; [done |]. cbn [dict_get]. case_decide as Hk; [| intros; right; by apply IH].
  intros [= ->]. subst. left.
Qed.
Lemma dict_get_key {V} (d : pydict V) k : k ∈ dict_keys d → is_Some (dict_get d k).
Proof.
  induction d as [| [k0 v0] d IH]; [intros Hk; by apply not_elem_of_nil in Hk |]. cbn [dict_get dict_keys map fst].
  intros Hk. case_decide; [by eexists |]. apply IH. by apply elem_of_cons in Hk as [-> | Hk].
Qed.

Lemma metadata_key_chars key : fullmatch metadata_key_pattern key = true → forallb is_key_char key = true ∧ key ≠ [].
Proof.
  intros Hm%fullmatch_spec. apply matches_cat in Hm as (s1 & s2 & -> & (c & -> & Hc)%cls_matches & [Hs _]%cls_rep_matches).
  split; [| done]. cbn [app forallb]. rewrite Hs, andb_true_r. unfold is_key_start, is_key_char, is_alnum in *.
  rewrite !orb_true_iff in *. tauto.
Qed.

Lemma metadata_item_ok item : validate_metadata_item item = Ok tt →
  forallb is_key_char item.1 = true ∧ item.1 ≠ [] ∧ item.1 ∉ reserved_metadata_keys ∧ plain_scalar item.2 = true.
Proof.
  destruct item as [key value]. unfold validate_metadata_item. rewrite !guard_bind_ok. intros (Hk & Hr & Hv & _).
  apply andb_true_iff in Hk as [_ Hk]. to_prop. apply metadata_key_chars in Hk as [Hc Hn]. by split_and!.
Qed.

Lemma is_dict_List {V} (d : pydict V) : base.NoDup (dict_keys d) → List.NoDup (dict_keys d).
Proof. by rewrite NoDup_ListNoDup. Qed.

Lemma validated_keys metadata k : validate_metadata metadata = Ok tt → k ∈ reserved_metadata_keys →
  dict_get metadata k = None.
Proof.
  intros Hm%all_ok_Forall Hk. destruct (dict_get metadata k) as [v |] eqn:Hg; [exfalso | done].
  induction Hm as [| [k' v'] metadata Hi Hm IH]; [done |]. cbn [dict_get] in Hg. case_decide as Hkk; [| by apply IH].
  subst k'. by apply metadata_item_ok in Hi as (_ & _ & Hr & _).
Qed.

(** A dict made item by item: the last item of a key wins. *)
Lemma dict_of_items {V} (l : list (pystr * V)) k :
  match dict_get (fold_left (λ d e, dict_set d e.1 e.2) l []) k with
  | Some v => (k, v) ∈ l
  | None => k ∉ map fst l
  end.
Proof.
  induction l as [| [k' v'] l IH] using rev_ind; [simpl; by apply not_elem_of_nil |].
  rewrite fold_left_app. cbn [fold_left fst snd]. rewrite dict_get_set. case_decide as Hk.
  - subst. set_solver.
  - destruct (dict_get _ k); rewrite ?map_app; set_solver.
Qed.

Lemma fold_removed (coll : pystr) (ids : list pystr) (s : Store) :
  removed eq coll ids s (fold_left (λ s id, store_remove coll id s) ids s).
Proof. revert s. induction ids as [| i ids IH]; intros s; [by constructor |]. eapply removed_cons; [done | apply IH]. Qed.

Lemma sublist_map {A B} (f : A → B) (l l' : list A) : sublist l' l → sublist (map f l') (map f l).
Proof. induction 1; cbn [map]; by constructor. Qed.

Lemma Forall_within {A} (P : A → Prop) (l l' : list A) : Forall P l → (∀ x, x ∈ l' → x ∈ l) → Forall P l'.
Proof. rewrite !list.Forall_forall. auto. Qed.

(** Scores that are negated distances. *)
Lemma opp_compare a b : SFcompare (SFopp b) (SFopp a) = SFcompare a b.
Proof.
  destruct a as [sa | sa | | sa ma ea], b as [sb | sb | | sb mb eb]; try done; cbn; try (by destruct sa); try (by destruct sb);
    try (by destruct sa, sb).
  destruct sa, sb; cbn; try done; rewrite (Z.compare_antisym eb ea);
    destruct (eb ?= ea)%Z; cbn; try done; f_equal;
    change (Pos.compare_cont Eq ma mb) with (ma ?= mb)%positive; change (Pos.compare_cont Eq mb ma) with (mb ?= ma)%positive;
    rewrite (Pos.compare_antisym mb ma); by destruct (mb ?= ma)%positive.
Qed.
Lemma opp_leb a b : SFleb (SFopp b) (SFopp a) = SFleb a b.
Proof. unfold SFleb. by rewrite opp_compare. Qed.
Definition nearest_first (distances : list spec_float) : Prop := StronglySorted (λ a b, SFleb a b = true) distances.
Lemma nearest_best distances : nearest_first distances → best_first (map SFopp distances).
Proof.
  unfold nearest_first, best_first. induction 1 as [| d l Hs IH Hd]; cbn [map]; constructor; [done |].
  apply Forall_map. eapply list.Forall_impl; [exact Hd |]. intros x Hx. by rewrite opp_leb.
Qed.

Section Steps.
Context {W : Type} (R : relation Store) `{!PreOrder R} (view : W → Store) (K : StoreKind W).

(** What is left to show for a call that raised. *)
Lemma upsert_raised storage coll points e w w' :
  (e = VectorCollectionNotFoundError → ∃ s, instant R view w w' s ∧ s !! coll = None) →
  (∃ ps, ps ⊆+ points ∧ written R storage K coll ps (view w) (view w')) →
  upsert_outcome R view storage K coll points (Err e) w w'.
Proof. intros H1 H2. destruct e; first [exact H2 | exact (H1 eq_refl)]. Qed.
Lemma delete_raised coll ids e w w' :
  (e = VectorCollectionNotFoundError → ∃ s, instant R view w w' s ∧ s !! coll = None) →
  (∃ gone, gone ⊆+ ids ∧ removed R coll gone (view w) (view w')) →
  delete_outcome R view coll ids (Err e) w w'.
Proof. intros H1 H2. destruct e; first [exact H2 | exact (H1 eq_refl)]. Qed.
Lemma get_raised coll ids e w w' :
  (e = VectorCollectionNotFoundError → ∃ s, instant R view w w' s ∧ s !! coll = None) →
  R (view w) (view w') → get_outcome R view K coll ids (Err e) w w'.
Proof. intros H1 H2. split; [done |]. destruct e; first [exact I | exact (H1 eq_refl)]. Qed.
Lemma describe_raised name e w w' :
  (e = VectorCollectionNotFoundError → ∃ s, instant R view w w' s ∧ s !! name = None) →
  R (view w) (view w') → describe_outcome R view name (Err e) w w'.
Proof. intros H1 H2. split; [done |]. destruct e; first [exact I | exact (H1 eq_refl)]. Qed.
Lemma drop_raised name e w w' :
  (e = VectorCollectionNotFoundError → ∃ s, instant R view w w' s ∧ s !! name = None) →
  atomic_step R view w w' (λ s s', s' = s ∨ s' = delete name s) →
  atomic_step R view w w' (drop_outcome name (Err e)).
Proof.
  intros H1 H2. destruct e; try exact H2. destruct (H1 eq_refl) as (s & [Ha Hb] & Hn). exists s, s. split_and!; try done.
  split; [done | by left].
Qed.
Lemma create_raised spec e w w' :
  (e = VectorCollectionConflictError → ∃ s, instant R view w w' s ∧ is_Some (s !! cs_name spec)) →
  atomic_step R view w w' (half_created (cs_name spec)) →
  atomic_step R view w w' (create_outcome K spec (Err e)).
Proof.
  intros H1 H2. destruct e; try exact H2. destruct (H1 eq_refl) as (s & [Ha Hb] & Hn). exists s, s. split_and!; try done.
  split; [done | by left].
Qed.
Lemma nothing_written storage coll points w w' : R (view w) (view w') →
  ∃ ps, ps ⊆+ points ∧ written R storage K coll ps (view w) (view w').
Proof. intros HR. exists []. split; [apply submseteq_nil_l |]. exists []. split; [constructor | by constructor]. Qed.
Lemma nothing_removed coll ids (w w' : W) : R (view w) (view w') →
  ∃ gone, gone ⊆+ ids ∧ removed R coll gone (view w) (view w').
Proof. intros HR. exists []. split; [apply submseteq_nil_l | by constructor]. Qed.
Lemma no_step (w w' : W) (f : Store → Store) : R (view w) (view w') → atomic_step R view w w' (λ s s', s' = s ∨ s' = f s).
Proof. intros HR. exists (view w'), (view w'). split_and!; [done | by left | done]. Qed.
Lemma plain_not_found {P : Prop} e : plain_error e → e = VectorCollectionNotFoundError → P.
Proof. by intros [H1 _] H2. Qed.
Lemma plain_no_conflict {P : Prop} e : plain_error e → e = VectorCollectionConflictError → P.
Proof. by intros [_ H1] H2. Qed.

Lemma instant_here (w w' : W)  : R (view w) (view w') → instant R view w w' (view w').
Proof. by split. Qed.
Lemma instant_mono (w0 w w' w1 : W) s : instant R view w w' s → R (view w0) (view w) → R (view w') (view w1) →
  instant R view w0 w1 s.
Proof. intros [H1 H2] H0 H3. split; by etrans. Qed.
Lemma shown_mono lag (w0 w w' w1 : W) s : shown R view lag w w' s → R (view w0) (view w) → R (view w') (view w1) →
  shown R view lag w0 w1 s.
Proof. intros (s1 & Hs & Hl) H0 H1. exists s1. split; [by eapply instant_mono | done]. Qed.
Lemma shown_now (lag : relation Store) (w w' : W) s : (∀ s, lag s s) → instant R view w w' s → shown R view lag w w' s.
Proof. intros Hl Hs. by exists s. Qed.
Lemma half_step (w w' : W) name : R (view w) (view w') → atomic_step R view w w' (half_created name).
Proof. intros HR. exists (view w'), (view w'). split_and!; [done | by left | done]. Qed.
Lemma settled_mono coll (w0 w w' w1 : W) : metric_settled R view K coll w0 w1 → sk_metric K w coll = sk_metric K w0 coll →
  R (view w0) (view w) → R (view w') (view w1) → metric_settled R view K coll w w'.
Proof.
  intros (m & Hm & Hall) Hk H0 H1. exists m. rewrite Hk. split; [done |]. intros s c Hs. apply Hall.
  destruct Hs as [Hs | Hs]; [left; by eapply instant_mono | right; by eapply shown_mono].
Qed.
Lemma search_raised coll vector limit filters e w w' :
  (e = VectorCollectionNotFoundError → ∃ s, instant R view w w' s ∧ s !! coll = None) →
  R (view w) (view w') → search_outcome R view K coll vector limit filters (Err e) w w'.
Proof. intros H1 H2. split; [done |]. destruct e; first [exact I | exact (H1 eq_refl)]. Qed.
Lemma match_mono coll filters (w0 w w' w1 : W) m : match_of R view K coll filters w w' m → R (view w0) (view w) → R (view w') (view w1) →
  match_of R view K coll filters w0 w1 m.
Proof. intros (s & st & Hs & Hrest) H0 H1. exists s, st. split; [by eapply shown_mono | done]. Qed.
Lemma limit_ok limit : validate_limit limit = Ok tt → ∃ n, is_int limit = Some n ∧ (1 <= n <= 10000)%Z.
Proof.
  unfold validate_limit, guard. destruct (is_int limit) as [n |]; [| done]. destruct ((1 <=? n) && (n <=? 10000))%Z eqn:Hn; [| done].
  intros _. apply andb_true_iff in Hn as [H1%Z.leb_le H2%Z.leb_le]. by exists n.
Qed.
Lemma instant_R (w w' : W) s : instant R view w w' s → R (view w) (view w').
Proof. intros [H1 H2]. by etrans. Qed.
Lemma atomic_mono (w0 w w' w1 : W) step : atomic_step R view w w' step → R (view w0) (view w) → R (view w') (view w1) →
  atomic_step R view w0 w1 step.
Proof. intros (s1 & s2 & H1 & Hs & H2) H0 H3. exists s1, s2. split_and!; [by etrans | done | by etrans]. Qed.
Lemma atomic_weaken (w w' : W)  (step step' : Store → Store → Prop) : atomic_step R view w w' step →
  (∀ s s', step s s' → step' s s') → atomic_step R view w w' step'.
Proof. intros (s1 & s2 & H1 & Hs & H2) Hw. exists s1, s2. auto. Qed.
Lemma instant_atomic (w w' : W) (s : Store) (step : Store → Store → Prop) : instant R view w w' s → step s s → atomic_step R view w w' step.
Proof. intros [H1 H2] Hs. by exists s, s. Qed.
Lemma puts_before coll l s0 s s' : R s0 s → puts R K coll l s s' → puts R K coll l s0 s'.
Proof. intros H0 Hp. destruct Hp; [apply puts_nil; by etrans | eapply puts_cons; [by etrans | done..] | eapply puts_make; [done | by etrans | done..]]. Qed.
Lemma removed_before coll l s0 s s' : R s0 s → removed R coll l s s' → removed R coll l s0 s'.
Proof. intros H0 Hp. destruct Hp; [apply removed_nil; by etrans | eapply removed_cons; [by etrans | done]]. Qed.
Lemma puts_after coll l s s' s1 : puts R K coll l s s' → R s' s1 → puts R K coll l s s1.
Proof. intros Hp H1. induction Hp; [apply puts_nil; by etrans | eapply puts_cons; eauto | eapply puts_make; eauto]. Qed.
Lemma removed_after coll l s s' s1 : removed R coll l s s' → R s' s1 → removed R coll l s s1.
Proof. intros Hp H1. induction Hp; [apply removed_nil; by etrans | eapply removed_cons; eauto]. Qed.

(** The failures the operations share. *)
Lemma validations {B} (r : result exn unit) (k : io W B) (Φ : result exn B → W → Prop) w :
  raises_plain r → (r = Ok tt → wp k Φ w) → (∀ e, plain_error e → Φ (Err e) w) → wp (lift r;;; k) Φ w.
Proof. intros Hp Hk He. apply wp_bind_lift; [by intros [] -> ; apply Hk | intros e ->; by apply He, Hp]. Qed.

(** What a driver has to know of the records it got: each was stored under its
    id at some instant, and so was the absence of the others. *)
Lemma got_points (coll : pystr) (ids : list pystr) (found : list (pystr * Stored)) points (w w' : W) :
  R (view w) (view w') →
  Forall2 (λ e p, vp_id p = e.1 ∧ point_as p e.2) found points →
  Forall (λ e, ∃ s, shown R view (sk_get_lag K) w w' s ∧ store_find s coll e.1 = Some e.2) found →
  (∀ id, id ∈ ids → id ∈ map fst found ∨ ∃ s, shown R view (sk_get_lag K) w w' s ∧ store_find s coll id = None) →
  get_outcome R view K coll ids (Ok (in_order ids (points_by_id points))) w w'.
Proof.
  intros HR Hp Hf Hmiss. split; [done |]. exists (points_by_id points). split; [done |]. intros i Hi.
  rewrite points_by_id_get. rewrite list.Forall_forall in Hf. destruct (list.last _) as [p |] eqn:Hlast.
  - apply last_Some_elem_of, list_elem_of_filter in Hlast as [Hid Hin]. apply list_elem_of_lookup in Hin as [j Hj].
    destruct (Forall2_lookup_r _ _ _ _ _ Hp Hj) as ([id st] & Hfj & Hpf & Has). apply list_elem_of_lookup_2 in Hfj.
    destruct (Hf _ Hfj) as (s & Hs & Hfind). exists s. split; [done |]. split; [done |]. exists st.
    cbn [fst snd] in *. split; [congruence | done].
  - destruct (Hmiss i Hi) as [Hin | (s & Hs & Hn)]; [exfalso | by exists s].
    apply list_elem_of_fmap in Hin as (e & -> & Hin). apply list_elem_of_lookup in Hin as [j Hj].
    destruct (Forall2_lookup_l _ _ _ _ _ Hp Hj) as (p & Hpj & Hpf & _). apply last_None in Hlast.
    assert (p ∈ base.filter (λ p, vp_id p = e.1) points) as Hpin.
    { apply list_elem_of_filter. split; [done |]. by eapply list_elem_of_lookup_2. }
    rewrite Hlast in Hpin. by apply not_elem_of_nil in Hpin.
Qed.
End Steps.
