(* ===== verification/VectorMilvus.v ===== *)
(** * VectorMilvus: the Milvus driver

    Models [infrastructure/vector/drivers/milvus.py]: the client, the
    translation of points, hits and filters, and the conversion of the SDK's
    exceptions.  The SDK is the class [MilvusSdk]; [MilvusLaws] states what the
    driver relies on, with other clients acting between any two calls.  Milvus reads
    with bounded staleness unless it is told otherwise, and the driver does not: what a
    get or a search may show is a parameter of the laws.  The
    end of the file shows that the driver keeps the contract of VectorModels. *)

From Stdlib Require Import Floats.SpecFloat.
From S2P Require Import Prelude Text PyVal Errors Decimal Json VectorModels.
Local Open Scope prog_scope.

(** ** The SDK *)

Class MilvusSdk (W : Type) := {
  sdk_list_collections : io W unit;
  sdk_create_collection : pystr → pyval → pystr → io W unit;     (* name, dimension, metric_type *)
  sdk_has_collection : pystr → io W bool;
  sdk_describe_collection : pystr → io W (pydict pyval);
  sdk_describe_index : pystr → io W (pydict pyval);
  sdk_drop_collection : pystr → io W unit;
  sdk_upsert : pystr → list (pydict pyval) → io W unit;
  sdk_get : pystr → list pystr → io W (list (pydict pyval));
  sdk_delete : pystr → list pystr → io W unit;
  sdk_search : pystr → list pyval → pystr → Z → io W (list (list (pydict pyval)));
  sdk_close : io W unit;
  sdk_connection_errors : exn → bool;
  sdk_operation_errors : exn → bool;
}.

(** ** Metrics *)

Definition milvus_metric (m : VectorMetric) : pystr :=
  match m with COSINE => u "COSINE" | DOT_PRODUCT => u "IP" | L2 => u "L2" end.
Definition metric_from_milvus (v : option pyval) : option VectorMetric :=
  match v with
  | Some (VStr t) =>
      if bool_decide (t = u "COSINE") then Some COSINE
      else if bool_decide (t = u "IP") then Some DOT_PRODUCT
      else if bool_decide (t = u "L2") then Some L2 else None
  | _ => None
  end.

(** ** Entities, hits and filters *)

(** [d.get(key)] of an untyped dict. *)
Fixpoint vdict_get (d : list (pyval * pyval)) (k : pystr) : option pyval :=
  match d with
  | [] => None
  | (VStr k', v) :: d => if decide (k' = k) then Some v else vdict_get d k
  | _ :: d => vdict_get d k
  end.

Definition milvus_field_dimension (field : pyval) : option pyval :=
  match field with
  | VDict d =>
      match vdict_get d (u "name") with
      | Some (VStr n) =>
          if bool_decide (n = u "vector") then
            match vdict_get d (u "params") with
            | Some (VDict params) => dim ← vdict_get params (u "dim"); _ ← is_int_instance dim; Some dim
            | _ => None
            end
          else None
      | _ => None
      end
  | _ => None
  end.
Fixpoint first_some {A B} (f : A → option B) (l : list A) : option B :=
  match l with [] => None | a :: l => match f a with Some b => Some b | None => first_some f l end end.
Definition milvus_dimension (description : pydict pyval) : result exn Z :=
  match dict_get description (u "fields") with
  | Some (VList fields) =>
      match first_some milvus_field_dimension fields ≫= is_int_instance with
      | Some n => Ok n
      | None => Err VectorOperationError
      end
  | _ => Err VectorOperationError
  end.

Definition reserved_fields : list pystr := [u "id"; u "vector"].
Definition dynamic_fields (row : pydict pyval) : pydict pyval :=
  List.filter (λ kv, negb (bool_decide (kv.1 ∈ reserved_fields))) row.
(** [tuple(float(value) for value in vector)] *)
Definition float_vector (l : list pyval) : result exn (list pyval) :=
  map_result (λ v, let? f := float_of v in Ok (VFloat f)) l.

Definition milvus_entity (p : VectorPoint) : pydict pyval :=
  dict_merge [(u "id", VStr (vp_id p)); (u "vector", VList (vp_vector p))] (vp_metadata p).
Definition milvus_point (row : pydict pyval) : result exn VectorPoint :=
  match dict_get row (u "id"), dict_get row (u "vector") with
  | Some (VStr id), Some (VList vector) =>
      let? v := float_vector vector in
      VectorPoint_new (mk_point id v (dynamic_fields row))
  | _, _ => Err VectorOperationError
  end.

Definition milvus_match (hit : pydict pyval) (metric : VectorMetric) : result exn VectorMatch :=
  match dict_get hit (u "entity"), dict_get hit (u "id"), dict_get hit (u "distance") with
  | Some (VDict entity), Some (VStr id), Some distance =>
      match distance with
      | VInt _ | VFloat _ | VBool _ =>
          let? d := float_of distance in
          Ok (mk_match id (match metric with L2 => SFopp d | _ => d end) (dynamic_fields (text_items entity)))
      | _ => Err VectorOperationError
      end
  | _, _, _ => Err VectorOperationError
  end.

(** [f"{key} == {json.dumps(value, ensure_ascii=False)}"], joined. *)
Definition milvus_condition `{FloatRepr} (item : pystr * pyval) : result exn pystr :=
  match json_scalar item.2 with
  | Some t => Ok (item.1 ++ u " == " ++ t)
  | None => Err TypeError
  end.
Definition milvus_filter `{FloatRepr} (filters : option (pydict pyval)) : result exn pystr :=
  match filters with
  | None | Some [] => Ok []
  | Some items => let? conditions := map_result milvus_condition items in Ok (join (u " and ") conditions)
  end.

(** ** MilvusVectorClient: [metrics] is the field [_metrics] *)
Section Client.
Context {W : Type} `{MilvusSdk W, FloatRepr}.
Context (metrics : W → pydict VectorMetric) (set_metrics : pydict VectorMetric → W → W).

Definition milvus_error (e : exn) : exn :=
  if sdk_connection_errors e then VectorConnectionError
  else if sdk_operation_errors e then VectorOperationError
  else e.
Definition call {A} (m : io W A) : io W A :=
  catch m (λ e, raise (if is_exception e then milvus_error e else e)).

Definition milvus_ping : io W bool := call sdk_list_collections;;; ret true.

Definition milvus_has_collection (name : pystr) : io W bool :=
  lift (validate_collection_name name);;;
  call (sdk_has_collection name).

Definition milvus_create_collection (spec : VectorCollectionSpec) : io W unit :=
  let* exists_ := milvus_has_collection (cs_name spec) in
  (if (exists_ : bool) then raise VectorCollectionConflictError else ret tt);;;
  catch (call (sdk_create_collection (cs_name spec) (cs_dimension spec) (milvus_metric (cs_metric spec))))
    (λ e, if is_vector_operation_error e then
            let* exists_ := milvus_has_collection (cs_name spec) in
            if (exists_ : bool) then raise VectorCollectionConflictError else raise e
          else raise e);;;
  modify (λ w, set_metrics (dict_set (metrics w) (cs_name spec) (cs_metric spec)) w).

Definition milvus_require_collection (name : pystr) : io W unit :=
  let* exists_ := milvus_has_collection name in
  if (exists_ : bool) then ret tt else raise VectorCollectionNotFoundError.

Definition milvus_describe_collection (name : pystr) : io W VectorCollectionInfo :=
  milvus_require_collection name;;;
  let* description := call (sdk_describe_collection name) in
  let* index := call (sdk_describe_index name) in
  let* dimension := lift (milvus_dimension description) in
  match metric_from_milvus (dict_get index (u "metric_type")) with
  | None => raise VectorOperationError
  | Some metric =>
      modify (λ w, set_metrics (dict_set (metrics w) name metric) w);;;
      ret (mk_info name dimension metric)
  end.

(** [self._metrics.pop(name, None)] *)
Definition forget_metric (name : pystr) : io W unit :=
  modify (λ w, set_metrics (List.filter (λ kv, negb (bool_decide (kv.1 = name))) (metrics w)) w).
Definition milvus_delete_collection (name : pystr) : io W unit :=
  milvus_require_collection name;;;
  catch (call (sdk_drop_collection name))
    (λ e, if is_vector_operation_error e then
            let* exists_ := milvus_has_collection name in
            if (exists_ : bool) then raise e
            else forget_metric name;;; raise VectorCollectionNotFoundError
          else raise e);;;
  forget_metric name.

Definition milvus_upsert (collection : pystr) (points : list VectorPoint) : io W unit :=
  lift (validate_collection_name collection);;;
  lift (validate_points points);;;
  match points with
  | [] => ret tt
  | _ => milvus_require_collection collection;;; call (sdk_upsert collection (map milvus_entity points))
  end.

Definition milvus_get (collection : pystr) (ids : list pystr) : io W (list VectorPoint) :=
  lift (validate_collection_name collection);;;
  lift (validate_ids ids);;;
  match ids with
  | [] => ret []
  | _ =>
      milvus_require_collection collection;;;
      let* rows := call (sdk_get collection ids) in
      let* points := lift (map_result milvus_point rows) in
      ret (in_order ids (points_by_id points))
  end.

Definition milvus_delete (collection : pystr) (ids : list pystr) : io W unit :=
  lift (validate_collection_name collection);;;
  lift (validate_ids ids);;;
  match ids with
  | [] => ret tt
  | _ => milvus_require_collection collection;;; call (sdk_delete collection ids)
  end.

Definition milvus_search (collection : pystr) (vector : list pyval) (limit : pyval) (filters : option (pydict pyval))
    : io W (list VectorMatch) :=
  lift (validate_collection_name collection);;;
  lift (validate_query_vector vector);;;
  lift (validate_limit limit);;;
  lift (validate_filters filters);;;
  let* cached := read (λ w, dict_get (metrics w) collection) in
  let* metric := match cached with
                 | Some m => ret m
                 | None => let* info := milvus_describe_collection collection in ret (ci_metric info)
                 end in
  let* filter := lift (milvus_filter filters) in
  let* result := call (sdk_search collection vector filter (default 0%Z (is_int limit))) in
  lift (map_result (λ hit, milvus_match hit metric) (default [] (head result))).

Definition milvus_aclose : io W unit := sdk_close.

#[export] Instance milvus_client : VectorClient W := {|
  create_collection := milvus_create_collection;
  has_collection := milvus_has_collection;
  describe_collection := milvus_describe_collection;
  delete_collection := milvus_delete_collection;
  upsert := milvus_upsert;
  vget := milvus_get;
  vdelete := milvus_delete;
  vsearch := milvus_search;
  vping := milvus_ping;
  vaclose := milvus_aclose;
|}.
End Client.

(** ** Filters: what the expression means

    The reader of the boolean expressions Milvus documents, as far as the
    driver writes them: comparisons of a field with a literal, joined by
    [and]. *)
Fixpoint read_conditions `{FloatRepr} (fuel : nat) (s : pystr) : option (list (pystr * pyval)) :=
  match fuel with
  | O => None
  | S fuel =>
      let '(key, s1) := span is_key_char s in
      s2 ← strip_prefix (u " == ") s1;
      '(v, s3) ← read_scalar s2;
      match s3 with
      | [] => Some [(key, v)]
      | _ => s4 ← strip_prefix (u " and ") s3; rest ← read_conditions fuel s4; Some ((key, v) :: rest)
      end
  end.
Definition read_filter `{FloatRepr} (s : pystr) : option (list (pystr * pyval)) :=
  match s with [] => Some [] | _ => read_conditions (length s) s end.

Lemma strip_prefix_app p s : strip_prefix p (p ++ s) = Some s.
Proof. induction p as [| c p IH]; [done |]. simpl. by rewrite N.eqb_refl. Qed.

Lemma milvus_condition_ok `{FloatRepr} item : plain_scalar item.2 = true → ∃ t, json_scalar item.2 = Some t
  ∧ milvus_condition item = Ok (item.1 ++ u " == " ++ t).
Proof. intros Hv. unfold milvus_condition. destruct item as [k [| [] | | | | | | | |]]; try done; eexists; by split. Qed.

Lemma read_one `{FloatReprLaws} fuel key v t rest :
  forallb is_key_char key = true → plain_scalar v = true → json_scalar v = Some t → ends_number rest →
  read_conditions (S fuel) ((key ++ u " == " ++ t) ++ rest) =
    match rest with
    | [] => Some [(key, v)]
    | _ => s4 ← strip_prefix (u " and ") rest; tail ← read_conditions fuel s4; Some ((key, v) :: tail)
    end.
Proof.
  intros Hk Hv Ht Hr. cbn [read_conditions]. rewrite <- !app_assoc. rewrite span_app by done.
  rewrite strip_prefix_app. cbn [mbind option_bind]. by rewrite (read_scalar_json v t rest).
Qed.

Lemma read_all `{FloatReprLaws} items fuel : items ≠ [] → length items ≤ fuel →
  Forall (λ i, validate_metadata_item i = Ok tt) items →
  ∃ ts, map_result milvus_condition items = Ok ts ∧ length items ≤ length (join (u " and ") ts) ∧
    read_conditions fuel (join (u " and ") ts) = Some items.
Proof.
  revert fuel. induction items as [| item items IH]; [done |]. intros fuel _ Hf Hall.
  apply list.Forall_cons in Hall as [Hi Hall]. apply metadata_item_ok in Hi as (Hk & Hn & _ & Hv).
  destruct (milvus_condition_ok item Hv) as (t & Ht & Hcond). destruct fuel as [| fuel]; [simpl in Hf; lia |].
  cbn [map_result]. rewrite Hcond. cbn [result_bind]. destruct items as [| item2 items].
  - eexists. split; [done |]. cbn [join]. split; [simpl; destruct item.1; [done | simpl; lia] |].
    rewrite <- (app_nil_r (_ ++ _)), (read_one fuel item.1 item.2) by done. by destruct item.
  - destruct (IH fuel ltac:(done) ltac:(simpl in *; lia) Hall) as (ts & Hts & Hlen & Hread). rewrite Hts.
    cbn [result_bind]. eexists. split; [done |]. destruct ts as [| t2 ts]; [cbn in Hlen; lia |].
    change (join (u " and ") ((item.1 ++ u " == " ++ t) :: t2 :: ts))
      with ((item.1 ++ u " == " ++ t) ++ u " and " ++ join (u " and ") (t2 :: ts)). split.
    + rewrite !length_app. simpl in *. lia.
    + rewrite (read_one fuel item.1 item.2) by done. change (u " and " ++ ?x) with (32%N :: (tail (u " and ")) ++ x) at 1.
      cbv beta match. rewrite strip_prefix_app. cbn [mbind option_bind]. rewrite Hread. by destruct item.
Qed.

(** A filter cannot be subverted: for every filter that passes validation
    - whatever quotes, backslashes, control characters or words its texts
    contain - the expression sent to Milvus reads as exactly the conjunction of
    the conditions given, no more and no fewer. *)
Theorem milvus_filter_exact `{FloatReprLaws} (filters : option (pydict pyval)) :
  validate_filters filters = Ok tt →
  ∃ expression, milvus_filter filters = Ok expression ∧ read_filter expression = Some (default [] filters).
Proof.
  destruct filters as [[| item items] |]; [by exists [] | | by exists []]. intros Hv%all_ok_Forall.
  unfold milvus_filter. destruct (read_all (item :: items) (length (item :: items)) ltac:(done) ltac:(lia) Hv)
    as (ts & Hts & Hlen & _). rewrite Hts. cbn [result_bind]. eexists. split; [done |].
  destruct (read_all (item :: items) (length (join (u " and ") ts)) ltac:(done) Hlen Hv) as (ts' & Hts' & _ & Hread).
  rewrite Hts in Hts'. injection Hts' as <-. unfold read_filter. rewrite Hread.
  by destruct (join _ _); [simpl in Hlen; lia |].
Qed.

(** ** What the driver relies on *)

(** A row as an entity: primary key, vector field, dynamic fields. *)
Definition row_put (storage : list spec_float → list spec_float) (row : pydict pyval) (e : pystr * Stored) : Prop :=
  dict_get row (u "id") = Some (VStr e.1) ∧
  ∃ v fs, dict_get row (u "vector") = Some (VList v) ∧ map_result float_of v = Ok fs ∧
    e.2 = mk_stored (storage fs) (meta_map (dynamic_fields row)).
Definition row_as (row : pydict pyval) (id : pystr) (st : Stored) : Prop :=
  dict_get row (u "id") = Some (VStr id) ∧ dict_get row (u "vector") = Some (VList (map VFloat (st_vector st))) ∧
  meta_map (dynamic_fields row) = st_metadata st.
(** The description of a collection has one field named "vector", or none. *)
Definition has_vector_field (description : pydict pyval) (n : Z) : Prop :=
  ∃ pre field params post, dict_get description (u "fields") = Some (VList (pre ++ VDict field :: post)) ∧
    Forall (λ f, ∃ d, f = VDict d ∧ vdict_get d (u "name") ≠ Some (VStr (u "vector"))) pre ∧
    vdict_get field (u "name") = Some (VStr (u "vector")) ∧ vdict_get field (u "params") = Some (VDict params) ∧
    vdict_get params (u "dim") = Some (VInt n).
Definition no_vector_field (description : pydict pyval) : Prop :=
  ∃ fields, dict_get description (u "fields") = Some (VList fields) ∧
    Forall (λ f, ∃ d, f = VDict d ∧ vdict_get d (u "name") ≠ Some (VStr (u "vector"))) fields.
(** A hit of a search and the entity it shows. *)
Definition hit_as (hit : pydict pyval) (id : pystr) (distance : spec_float) (st : Stored) : Prop :=
  dict_get hit (u "id") = Some (VStr id) ∧ dict_get hit (u "distance") = Some (VFloat distance) ∧
  ∃ entity, dict_get hit (u "entity") = Some (VDict entity) ∧ meta_map (dynamic_fields (text_items entity)) = st_metadata st.
(** Milvus lists the best hits first: a similarity descends, a distance ascends. *)
Definition milvus_order (m : VectorMetric) (distances : list spec_float) : Prop :=
  match m with L2 => nearest_first distances | _ => best_first distances end.

Section Laws.
Context {W : Type} `{MilvusSdk W, FloatRepr}.
Context (R : relation Store) (view : W → Store) (storage : list spec_float → list spec_float)
  (set_metrics : pydict VectorMetric → W → W) (K : StoreKind W).

(** A failed call may have taken effect or not. *)
Class MilvusLaws : Prop := {
  sdk_list_law w : wp sdk_list_collections (λ r w', raises_plain r ∧ R (view w) (view w')) w;
  sdk_has_law name w :
    wp (sdk_has_collection name) (λ r w', raises_plain r ∧ has_outcome R view name r w w') w;
  sdk_create_law name dimension n m w : is_int dimension = Some n →
    wp (sdk_create_collection name dimension (milvus_metric m)) (λ r w', raises_plain r ∧
      atomic_step R view w w' (λ s s',
        match r with Ok _ => created K name (mk_collection (Some n) (Some m) ∅) s s' | Err _ => half_created name s s' end)) w;
  sdk_describe_law name w :
    wp (sdk_describe_collection name) (λ r w', raises_plain r ∧ R (view w) (view w') ∧ ∀ d, r = Ok d →
      ∃ s c, instant R view w w' s ∧ s !! name = Some c ∧
        match co_dimension c with Some n => has_vector_field d n | None => no_vector_field d end) w;
  sdk_index_law name w :
    wp (sdk_describe_index name) (λ r w', raises_plain r ∧ R (view w) (view w') ∧ ∀ d, r = Ok d →
      ∃ s c, instant R view w w' s ∧ s !! name = Some c ∧
        match co_metric c with
        | Some m => dict_get d (u "metric_type") = Some (VStr (milvus_metric m))
        | None => metric_from_milvus (dict_get d (u "metric_type")) = None
        end) w;
  sdk_drop_law name w :
    wp (sdk_drop_collection name) (λ r w', raises_plain r ∧ atomic_step R view w w' (λ s s',
      match r with Ok _ => s' = delete name s | Err _ => s' = s ∨ s' = delete name s end)) w;
  sdk_upsert_law coll rows l w : Forall2 (row_put storage) rows l →
    wp (sdk_upsert coll rows) (λ r w', raises_plain r ∧
      match r with
      | Ok _ => puts R K coll l (view w) (view w')
      | Err _ => ∃ l', sublist l' l ∧ puts R K coll l' (view w) (view w')
      end) w;
  sdk_get_law coll ids w :
    wp (sdk_get coll ids) (λ r w', raises_plain r ∧ R (view w) (view w') ∧ ∀ rows, r = Ok rows →
      Forall (λ row, ∃ id st s, shown R view (sk_get_lag K) w w' s ∧ store_find s coll id = Some st ∧ row_as row id st) rows ∧
      ∀ id, id ∈ ids → (∃ row, row ∈ rows ∧ dict_get row (u "id") = Some (VStr id)) ∨
        ∃ s, shown R view (sk_get_lag K) w w' s ∧ store_find s coll id = None) w;
  sdk_delete_law coll ids w :
    wp (sdk_delete coll ids) (λ r w', raises_plain r ∧
      match r with
      | Ok _ => removed R coll ids (view w) (view w')
      | Err _ => ∃ gone, sublist gone ids ∧ removed R coll gone (view w) (view w')
      end) w;
  (** One query: at most [limit] hits, each of which meets the conditions the
      expression reads as, in the order of the collection's metric. *)
  sdk_search_law coll vector expression limit w :
    wp (sdk_search coll vector expression limit) (λ r w', raises_plain r ∧ R (view w) (view w') ∧ ∀ result, r = Ok result →
      ∃ found : list (pystr * spec_float * Stored),
        Forall2 (λ hit f, hit_as hit f.1.1 f.1.2 f.2) (default [] (head result)) found ∧
        (Z.of_nat (length found) <= limit)%Z ∧
        Forall (λ f, (∃ s, shown R view (sk_search_lag K) w w' s ∧ store_find s coll f.1.1 = Some f.2) ∧
          ∀ conditions, read_filter expression = Some conditions → meets K (Some conditions) (st_metadata f.2)) found ∧
        ∀ m, (∀ s c, instant R view w w' s ∨ shown R view (sk_search_lag K) w w' s → s !! coll = Some c → co_metric c = Some m) →
          milvus_order m (map (λ f, f.1.2) found)) w;
  sdk_close_law w : wp sdk_close (λ _ w', R (view w) (view w')) w;
  set_metrics_law d w : view (set_metrics d w) = view w;
}.
End Laws.

(** ** Lemmas: rows *)

Lemma milvus_entity_get p k : dict_point p →
  dict_get (milvus_entity p) k = match dict_get (vp_metadata p) k with
    | Some v => Some v
    | None => dict_get [(u "id", VStr (vp_id p)); (u "vector", VList (vp_vector p))] k
    end.
Proof. intros Hd. unfold milvus_entity. by rewrite dict_get_merge by by apply is_dict_List. Qed.

Lemma dynamic_fields_get row k :
  dict_get (dynamic_fields row) k = if decide (k ∈ reserved_fields) then None else dict_get row k.
Proof.
  unfold dynamic_fields. pose proof (dict_get_filter (λ k, negb (bool_decide (k ∈ reserved_fields))) row k) as Hf.
  cbv beta in Hf. rewrite Hf. case_decide as Hk; [by rewrite bool_decide_true | by rewrite bool_decide_false].
Qed.

Lemma milvus_entity_row storage p e : validate_point p = Ok tt → dict_point p → point_put storage p e →
  row_put storage (milvus_entity p) e.
Proof.
  intros Hp Hd [Hid (fs & Hfs & He)]. unfold validate_point in Hp. rewrite result_bind_ok in Hp.
  destruct Hp as ([] & _ & Hp). rewrite result_bind_ok in Hp. destruct Hp as ([] & _ & Hm). split.
  - rewrite milvus_entity_get, (validated_keys _ (u "id") Hm) by (done || vm_compute; set_solver). cbn. by rewrite Hid.
  - exists (vp_vector p), fs. split_and!; [| done |].
    + by rewrite milvus_entity_get, (validated_keys _ (u "vector") Hm) by (done || vm_compute; set_solver).
    + rewrite He. f_equal. apply map_eq. intros k. rewrite !meta_map_lookup, dynamic_fields_get.
      case_decide as Hk; [apply (validated_keys _ k Hm); unfold reserved_fields, reserved_metadata_keys in *; set_solver |].
      rewrite milvus_entity_get by done. destruct (dict_get (vp_metadata p) k); [done |]. cbn [dict_get].
      unfold reserved_fields in Hk. rewrite !decide_False by set_solver. done.
Qed.

Lemma milvus_point_as row id st p : row_as row id st → milvus_point row = Ok p → vp_id p = id ∧ point_as p st.
Proof.
  intros (Hid & Hv & Hm). unfold milvus_point. rewrite Hid, Hv. unfold float_vector.
  assert (Hf : map_result (λ v, let? f := float_of v in Ok (VFloat f)) (map VFloat (st_vector st)) = Ok (map VFloat (st_vector st))).
  { generalize (st_vector st). intros l. induction l as [| f l IH]; [done |]. cbn [map map_result]. by rewrite IH. }
  rewrite Hf. cbn [result_bind]. unfold VectorPoint_new. rewrite result_bind_ok. intros ([] & _ & [= <-]).
  split; [done |]. split; [apply float_vector_of | done].
Qed.

Lemma milvus_dimension_of d n : has_vector_field d n → milvus_dimension d = Ok n.
Proof.
  intros (pre & field & params & post & Hd & Hpre & Hn & Hp & Hdim). unfold milvus_dimension. rewrite Hd.
  assert (Hfirst : first_some milvus_field_dimension (pre ++ VDict field :: post) = Some (VInt n)).
  { clear Hd. induction Hpre as [| f pre (d' & -> & Hf) Hpre IH].
    - cbn [app first_some milvus_field_dimension]. by rewrite Hn, bool_decide_true, Hp, Hdim.
    - cbn [app first_some milvus_field_dimension]. destruct (vdict_get d' (u "name")) as [[] |]; try apply IH.
      rewrite bool_decide_false by (intros ->; done). apply IH. }
  by rewrite Hfirst.
Qed.

Lemma milvus_dimension_none d : no_vector_field d → ∃ e, milvus_dimension d = Err e ∧ plain_error e.
Proof.
  intros (fields & Hd & Hall). exists VectorOperationError. split; [| done]. unfold milvus_dimension. rewrite Hd.
  assert (first_some milvus_field_dimension fields = None) as ->; [| done].
  clear Hd. induction Hall as [| f fields (d' & -> & Hf) Hall IH]; [done |]. cbn [first_some milvus_field_dimension].
  destruct (vdict_get d' (u "name")) as [[] |]; try apply IH. rewrite bool_decide_false by (intros ->; done). apply IH.
Qed.

Lemma milvus_match_of hit id d st m : hit_as hit id d st →
  ∃ metadata, milvus_match hit m = Ok (mk_match id (match m with L2 => SFopp d | _ => d end) metadata) ∧ meta_map metadata = st_metadata st.
Proof.
  intros (Hid & Hd & entity & He & Hm). unfold milvus_match. rewrite Hid, Hd, He. cbn [float_of result_bind]. by eexists.
Qed.

Lemma metric_from_milvus_of m : metric_from_milvus (Some (VStr (milvus_metric m))) = Some m.
Proof. by destruct m; vm_compute. Qed.

(** ** The driver keeps the contract *)

Section Refinement.
Context {W : Type} {SDK : MilvusSdk W} `{FloatReprLaws} (R : relation Store) `{!PreOrder R} (view : W → Store)
  (storage : list spec_float → list spec_float).
Context (metrics : W → pydict VectorMetric) (set_metrics : pydict VectorMetric → W → W).
Context (get_lag search_lag : relation Store) (equal : pyval → pyval → bool).
(** A creation may find an identical collection and succeed; reads may lag. *)
Definition milvus_kind : StoreKind W :=
  mk_kind true false get_lag search_lag equal (λ w coll, dict_get (metrics w) coll) (λ _ _, True).
Abbreviation K := milvus_kind.
Context {L : MilvusLaws R view storage set_metrics K}.
Abbreviation has := milvus_has_collection.
Abbreviation seen := (instant R view).

Lemma milvus_error_plain e : plain_error e → plain_error (milvus_error e).
Proof. intros He. unfold milvus_error. by repeat case_bool. Qed.

Lemma call_wp {A} (m : io W A) (Φ : result exn A → W → Prop) w :
  wp m (λ r w', raises_plain r ∧ Φ r w') w →
  wp (call m) (λ r w', match r with
                       | Ok _ => Φ r w'
                       | Err e => plain_error e ∧ ∃ e0, Φ (Err e0) w'
                       end) w.
Proof.
  intros Hm. apply wp_catch. eapply wp_mono; [exact Hm |]. intros [a | e] w' [Hp HΦ]; [done |]. apply wp_raise.
  split; [| by exists e]. specialize (Hp e eq_refl). case_bool; [by apply milvus_error_plain | done].
Qed.

Lemma has_ok name w : wp (has name) (λ r w', raises_plain r ∧ has_outcome R view name r w w') w.
Proof.
  apply wp_bind_lift.
  - intros [] _. eapply wp_mono; [apply call_wp, (sdk_has_law R view storage set_metrics K) |]. intros [b | e] w'; [by split |].
    intros [He (e0 & s & Hs & _)]. split; [by intros ? [= <-] | by exists s].
  - unfold validate_collection_name, guard. intros e He. case_bool; simplify_eq. split; [by intros ? [= <-] |].
    exists (view w). by split; [apply instant_here |].
Qed.

Lemma conj_apply {A} (d : A) (P : Prop) (Q : A → Prop) : P ∧ (∀ x : A, Ok (E := exn) d = Ok x → Q x) → P ∧ Q d.
Proof. intros [HP HQ]. split; [done | by apply HQ]. Qed.

(** Running [has] and going on with its answer. *)
Lemma has_then {B} name (k : bool → io W B) (Φ : result exn B → W → Prop) w :
  (∀ b w1 s, seen w w1 s → b = bool_decide (is_Some (s !! name)) → wp (k b) Φ w1) →
  (∀ e w1, plain_error e → R (view w) (view w1) → Φ (Err e) w1) →
  wp (let* b := has name in k b) Φ w.
Proof.
  intros Hok Herr. apply wp_bind. eapply wp_mono; [apply has_ok |].
  intros [b | e] w1 [Hp (s & Hs & Hb)]; [eapply Hok; eauto |].
  apply Herr; [by apply Hp | by eapply instant_R].
Qed.

Lemma require_then {B} name (k : io W B) (Φ : result exn B → W → Prop) w :
  (∀ w1, R (view w) (view w1) → wp k Φ w1) →
  (∀ w1 s, seen w w1 s → s !! name = None → Φ (Err VectorCollectionNotFoundError) w1) →
  (∀ e w1, plain_error e → R (view w) (view w1) → Φ (Err e) w1) →
  wp (milvus_require_collection name;;; k) Φ w.
Proof.
  intros Hok Hnf Herr. apply wp_bind, has_then; [| done]. intros b w1 s Hs ->. case_bool_decide as Hb.
  - apply wp_ret, Hok. by eapply instant_R.
  - apply wp_raise. eapply Hnf; [done |]. by apply eq_None_not_Some.
Qed.

Lemma create_refines spec w : VectorCollectionSpec_new spec = Ok spec →
  wp (milvus_create_collection metrics set_metrics spec) (λ r w', atomic_step R view w w' (create_outcome K spec r)) w.
Proof.
  intros Hspec. unfold VectorCollectionSpec_new in Hspec. rewrite result_bind_ok in Hspec.
  destruct Hspec as ([] & _ & Hspec). rewrite guard_bind_ok in Hspec. destruct Hspec as [Hdim _].
  destruct (is_int (cs_dimension spec)) as [n |] eqn:Hn; [clear Hdim | done].
  apply has_then; [| intros; eapply instant_atomic; [by apply instant_here | apply plain_create; [done | by left]]].
  intros b w1 s Hs ->. case_bool_decide as Hb; [apply wp_bind, wp_raise; eapply instant_atomic; [done |]; split; [done | by left] |].
  apply wp_bind, wp_ret, wp_bind, wp_catch. eapply wp_mono; [by apply call_wp, (sdk_create_law R view storage set_metrics K) |].
  assert (Hnew : mk_collection (Some n) (Some (cs_metric spec)) ∅ = new_collection spec) by (unfold new_collection; by rewrite Hn).
  rewrite Hnew. pose proof (instant_R _ _ _ _ _ Hs) as HR1. intros [[] | e] w2.
  - intros Hstep. eapply (atomic_mono R view w w1 w2 w2) in Hstep; [| done | done]. unfold wp, modify.
    destruct Hstep as (s1 & s2 & ? & ? & ?). exists s1, s2. by rewrite (set_metrics_law R view storage set_metrics K).
  - intros [He (e0 & Hstep)]. eapply (atomic_mono R view w w1 w2 w2) in Hstep; [| done | done].
    assert (Hkeep : ∀ e' w3, plain_error e' → R (view w2) (view w3) → atomic_step R view w w3 (create_outcome K spec (Err e'))).
    { intros e' w3 He' HR3. eapply (atomic_mono R view); [eapply (atomic_weaken R view); [exact Hstep |] | reflexivity | done].
      intros s1 s2. by apply plain_create. }
    case_bool; [| apply wp_raise; by apply Hkeep]. apply has_then; [| done]. intros b w3 s3 Hs3 ->.
    case_bool_decide as Hb3; apply wp_raise; [| apply Hkeep; [done | by eapply instant_R]].
    destruct Hstep as (s1 & s2 & Hs1 & [-> | (Hnone & n' & m' & ->)] & Hs2).
    + eapply instant_atomic; [eapply (instant_mono R view w w2 w3 w3); [done | by etrans; [| exact Hs2]; etrans | done] |].
      split; [done | by left].
    + exists s1, (<[cs_name spec:=mk_collection n' m' ∅]> s1). split_and!; [done | | by etrans; [| eapply instant_R]].
      split; [rewrite lookup_insert_eq; eauto | right; eauto].
Qed.

Lemma forget_atomic name step w w' (r : result exn unit) : atomic_step R view w w' step →
  atomic_step R view w (forget_metric metrics set_metrics name w').1 step.
Proof.
  unfold forget_metric, modify. cbn [fst]. unfold atomic_step. by rewrite (set_metrics_law R view storage set_metrics K).
Qed.

Lemma delete_collection_refines name w :
  wp (milvus_delete_collection metrics set_metrics name) (λ r w', atomic_step R view w w' (drop_outcome name r)) w.
Proof.
  apply require_then.
  2: { intros w1 s Hs Hn. eapply instant_atomic; [done |]. split; [done | by left]. }
  2: { intros e w1 He HR. eapply instant_atomic; [by apply instant_here |]. apply plain_drop; auto. }
  intros w1 HR1. apply wp_bind, wp_catch. eapply wp_mono; [apply call_wp, (sdk_drop_law R view storage set_metrics K) |]. intros [[] | e] w2.
  - intros Hstep. eapply (atomic_mono R view w w1 w2 w2) in Hstep; [| done | done].
    apply forget_atomic with (name := name) in Hstep; [| exact (Ok tt)]. by unfold wp.
  - intros [He (e0 & Hstep)]. eapply (atomic_mono R view w w1 w2 w2) in Hstep; [| done | done].
    assert (Hkeep : ∀ e' w3, plain_error e' → R (view w2) (view w3) → atomic_step R view w w3 (drop_outcome name (Err e'))).
    { intros e' w3 He' HR3. eapply (atomic_mono R view); [eapply (atomic_weaken R view); [exact Hstep |] | reflexivity | done].
      intros s1 s2. by apply plain_drop. }
    case_bool; [| apply wp_raise; by apply Hkeep]. apply has_then; [| done]. intros b w3 s3 Hs3 ->.
    case_bool_decide as Hb3; [apply wp_raise, Hkeep; [done | by eapply instant_R] |].
    assert (Hgone : atomic_step R view w w3 (drop_outcome name (Err VectorCollectionNotFoundError))).
    { destruct Hstep as (s1 & s2 & Hs1 & [-> | ->] & Hs2).
      - eapply instant_atomic; [eapply (instant_mono R view w w2 w3 w3); [done | by etrans; [| exact Hs2]; etrans | done] |].
        split; [by apply eq_None_not_Some | by left].
      - exists s1, (delete name s1). split_and!; [done | | by etrans; [| eapply instant_R]].
        split; [by rewrite lookup_delete_eq | by right]. }
    apply forget_atomic with (name := name) in Hgone; [| exact (Ok tt)]. by unfold wp, bind, raise.
Qed.

Lemma describe_refines name w :
  wp (milvus_describe_collection metrics set_metrics name) (λ r w', describe_outcome R view name r w w') w.
Proof.
  apply require_then; [| intros w1 s Hs Hn; split; [by eapply instant_R | by exists s] |
    intros e w1 [He _] HR; split; [done | by destruct e]].
  intros w1 HR1. apply wp_bind. eapply wp_mono; [apply call_wp, (sdk_describe_law R view storage set_metrics K) |].
  assert (Hfail : ∀ e w', plain_error e → R (view w1) (view w') → describe_outcome R view name (Err e) w w').
  { intros e w' [He _] HR. split; [by etrans | by destruct e]. }
  intros [d | e] w2; [| intros [He (e0 & HR & _)]; by apply Hfail]. intros [HR2 (s2 & c2 & Hs2 & Hc2 & Hd)]%(conj_apply d).
  apply wp_bind. eapply wp_mono; [apply call_wp, (sdk_index_law R view storage set_metrics K) |].
  intros [i | e] w3; [| intros [He (e0 & HR & _)]; apply Hfail; [done | by etrans]].
  intros [HR3 (s3 & c3 & Hs3 & Hc3 & Hi)]%(conj_apply i). assert (HR13 : R (view w1) (view w3)) by by etrans.
  destruct (co_dimension c2) as [n |] eqn:Hn; [| destruct (milvus_dimension_none d Hd) as (e & -> & He); by apply Hfail].
  destruct (co_metric c3) as [m |] eqn:Hm; [| rewrite (milvus_dimension_of d _ Hd), Hi; by apply Hfail].
  rewrite (milvus_dimension_of d _ Hd), Hi, metric_from_milvus_of.
  apply wp_bind, wp_lift. unfold wp, bind, modify, ret. unfold describe_outcome, instant.
  rewrite (set_metrics_law R view storage set_metrics K). split; [do 2 (etrans; [eassumption |]); done |].
  split; [done |]. split.
  - exists s2, c2. split; [| by split]. by apply (instant_mono R view w w1 w2 w3).
  - exists s3, c3. split; [| by split]. apply (instant_mono R view w w2 w3 w3); [done | by etrans | done].
Qed.

Lemma upsert_refines coll points w : Forall dict_point points →
  wp (milvus_upsert coll points) (λ r w', upsert_outcome R view storage K coll points r w w') w.
Proof.
  intros Hdict. assert (Hstop : ∀ e w', plain_error e → R (view w) (view w') →
    upsert_outcome R view storage K coll points (Err e) w w').
  { intros e w' [He _] HR. assert (∃ ps, ps ⊆+ points ∧ written R storage K coll ps (view w) (view w')) as Hn.
    { exists []. split; [apply submseteq_nil_l |]. exists []. split; [constructor | by constructor]. }
    by destruct e. }
  apply validations; [by apply name_plain | intros _ | intros e He; apply Hstop; done].
  apply validations; [by apply points_plain | intros Hv | intros e He; apply Hstop; done].
  pose proof Hv as [Hall Hnd]%validate_points_ok. destruct (puts_exist storage points Hall) as (l & Hl).
  destruct points as [| p points]; [apply wp_ret; split; [done |]; exists []; split; [done | by constructor] |].
  set (ps := p :: points) in *. apply require_then.
  2: { intros w1 s Hs Hn. by exists s. }
  2: { by apply Hstop. }
  intros w1 HR1. assert (Hrows : Forall2 (row_put storage) (map milvus_entity ps) l).
  { clear -Hl Hall Hdict. induction Hl as [| q e qs l Hq Hl IH]; [constructor |].
    apply list.Forall_cons in Hall as [Hv Hall], Hdict as [Hd Hdict]. cbn [map]. constructor; [by apply milvus_entity_row | by apply IH]. }
  eapply wp_mono; [apply call_wp, (sdk_upsert_law R view storage set_metrics K _ _ _ _ Hrows) |]. intros [[] | e] w2.
  - intros Hp. split; [done |]. exists l. split; [done |]. by eapply puts_before.
  - intros [[He _] (e0 & l' & Hs & Hp)]. destruct (sublist_Forall2 _ _ _ _ Hs Hl) as (qs & Hqs & Hl').
    assert (∃ qs, qs ⊆+ ps ∧ written R storage K coll qs (view w) (view w2)) as Hw.
    { exists qs. split; [by apply sublist_submseteq |]. exists l'. split; [done |]. by eapply puts_before. }
    by destruct e.
Qed.

Lemma delete_refines coll ids w :
  wp (milvus_delete coll ids) (λ r w', delete_outcome R view coll ids r w w') w.
Proof.
  assert (Hstop : ∀ e w' gone, plain_error e → sublist gone ids → removed R coll gone (view w) (view w') →
    delete_outcome R view coll ids (Err e) w w').
  { intros e w' gone [He _] Hg HR. assert (∃ gone, gone ⊆+ ids ∧ removed R coll gone (view w) (view w')) as Hn
      by (exists gone; split; [by apply sublist_submseteq | done]). by destruct e. }
  apply validations; [by apply name_plain | intros _ | intros e He; eapply Hstop; [done | apply sublist_nil_l | by constructor]].
  apply validations; [by apply ids_plain | intros Hv | intros e He; eapply Hstop; [done | apply sublist_nil_l | by constructor]].
  destruct ids as [| id ids]; [apply wp_ret; by constructor |]. apply require_then.
  2: { intros w1 s Hs Hn. by exists s. }
  2: { intros e w1 He HR. eapply Hstop; [done | apply sublist_nil_l | by constructor]. }
  intros w1 HR1. eapply wp_mono; [apply call_wp, (sdk_delete_law R view storage set_metrics K) |]. intros [[] | e] w2.
  - intros Hp. by eapply removed_before.
  - intros [He (e0 & gone & Hs & Hp)]. eapply Hstop; [done | done | by eapply removed_before].
Qed.

Lemma rows_plain rows e : map_result milvus_point rows = Err e → plain_error e.
Proof.
  assert (raises_plain (map_result milvus_point rows)) as Hrows by (unfold milvus_point, float_vector; plain_tac).
  apply Hrows.
Qed.

Lemma rows_points rows points : map_result milvus_point rows = Ok points →
  Forall2 (λ row p, milvus_point row = Ok p) rows points.
Proof.
  revert points. induction rows as [| row rows IH]; intros points; cbn [map_result]; [intros [= <-]; constructor |].
  rewrite result_bind_ok. intros (p & Hp & Hr). rewrite result_bind_ok in Hr. destruct Hr as (ps & Hps & [= <-]).
  constructor; [done | by apply IH].
Qed.

Lemma get_refines coll ids w :
  wp (milvus_get coll ids) (λ r w', get_outcome R view K coll ids r w w') w.
Proof.
  assert (Hstop : ∀ e w', plain_error e → R (view w) (view w') → get_outcome R view K coll ids (Err e) w w')
    by (intros e w' [He _] HR; split; [done | by destruct e]).
  apply validations; [by apply name_plain | intros _ | intros e He; apply Hstop; done].
  apply validations; [by apply ids_plain | intros Hv | intros e He; apply Hstop; done].
  destruct ids as [| id ids]; [apply wp_ret; split; [done |]; exists []; split; [done | set_solver] |].
  set (is_ := id :: ids) in *. apply require_then.
  2: { intros w1 s Hs Hn. split; [by eapply instant_R | by exists s]. }
  2: { by apply Hstop. }
  intros w1 HR1. apply wp_bind. eapply wp_mono; [apply call_wp, (sdk_get_law R view storage set_metrics K) |].
  intros [rows | e] w2; [| intros [He (e0 & HR & _)]; apply Hstop; [done | by etrans]].
  intros [HR2 Hrows]. destruct (Hrows rows eq_refl) as [Hgood Hall]. clear Hrows.
  assert (HR : R (view w) (view w2)) by by etrans.
  apply wp_bind_lift; [| intros e He; apply Hstop; [by eapply rows_plain | done]].
  intros points Hpoints%rows_points. apply wp_ret. split; [done |]. exists (points_by_id points). split; [done |].
  intros i Hi. rewrite points_by_id_get. destruct (list.last _) as [p |] eqn:Hlast.
  - apply last_Some_elem_of, list_elem_of_filter in Hlast as [Hid Hp].
    apply list_elem_of_lookup in Hp as [j Hj]. destruct (Forall2_lookup_r _ _ _ _ _ Hpoints Hj) as (row & Hrow & Hmp).
    rewrite list.Forall_forall in Hgood. destruct (Hgood row) as (i' & st & s & Hs & Hf & Has); [by eapply list_elem_of_lookup_2 |].
    destruct (milvus_point_as _ _ _ _ Has Hmp) as [Hi' Hpa]. exists s. split; [by eapply (shown_mono R view) |].
    split; [done |]. exists st. split; [| done]. congruence.
  - destruct (Hall i Hi) as [(row & Hrow & Hrid) | (s & Hs & Hf)]; [exfalso | exists s; split; [by eapply (shown_mono R view) | done]].
    apply list_elem_of_lookup in Hrow as [j Hj]. destruct (Forall2_lookup_l _ _ _ _ _ Hpoints Hj) as (p & Hp & Hmp).
    assert (Hpi : vp_id p = i).
    { unfold milvus_point in Hmp. rewrite Hrid in Hmp. destruct (dict_get row (u "vector")) as [[] |]; try done.
      rewrite result_bind_ok in Hmp. destruct Hmp as (? & _ & Hn). unfold VectorPoint_new in Hn.
      rewrite result_bind_ok in Hn. by destruct Hn as ([] & _ & [= <-]). }
    apply last_None in Hlast. assert (p ∈ base.filter (λ p, vp_id p = i) points) as Hin.
    { apply list_elem_of_filter. split; [done |]. by eapply list_elem_of_lookup_2. }
    rewrite Hlast in Hin. by apply not_elem_of_nil in Hin.
Qed.

Lemma ping_refines w : wp milvus_ping (λ _ w', R (view w) (view w')) w.
Proof.
  unfold milvus_ping. apply wp_bind. eapply wp_mono; [apply call_wp, (sdk_list_law R view storage set_metrics K) |].
  intros [[] | e] w'; [done | by intros [_ (_ & HR)]].
Qed.

(** The metric the client goes by: the cached one, or the one described. *)
Lemma metric_then {B} coll (k : VectorMetric → io W B) (Φ : result exn B → W → Prop) w :
  (∀ m w1, R (view w) (view w1) → (∀ w', R (view w1) (view w') → ∀ m0, (∀ m', dict_get (metrics w) coll = Some m' → m' = m0) →
     (∀ s c, seen w w' s → s !! coll = Some c → co_metric c = Some m0) → m = m0) → wp (k m) Φ w1) →
  (∀ e w1, describe_outcome R view coll (Err e) w w1 → Φ (Err e) w1) →
  wp (let* cached := read (λ w, dict_get (metrics w) coll) in
      let* metric := match cached with
                     | Some m => ret m
                     | None => let* info := milvus_describe_collection metrics set_metrics coll in ret (ci_metric info)
                     end in k metric) Φ w.
Proof.
  intros Hok Herr. unfold wp, bind at 1, read. destruct (dict_get (metrics w) coll) as [m |] eqn:Hm.
  - apply (Hok m w); [done |]. intros w' _ m0 Hc _. by apply Hc.
  - change (wp (let* metric := (let* info := milvus_describe_collection metrics set_metrics coll in ret (ci_metric info)) in k metric) Φ w).
    apply wp_bind, wp_bind. eapply wp_mono; [apply describe_refines |]. intros [info | e] w1 Hd; [| by apply Herr].
    destruct Hd as (HR & _ & _ & (s & c & Hs & Hc & Hcm)). apply wp_ret, Hok; [done |].
    intros w' HR' m0 _ Hall. pose proof (Hall s c (instant_mono R view w w w1 w' s Hs ltac:(done) HR') Hc). congruence.
Qed.

Lemma search_refines coll vector limit filters w :
  wp (milvus_search metrics set_metrics coll vector limit filters)
    (λ r w', search_outcome R view K coll vector limit filters r w w') w.
Proof.
  assert (Hstop : ∀ e w', plain_error e → R (view w) (view w') → search_outcome R view K coll vector limit filters (Err e) w w')
    by (intros e w' [He _] HR; by apply search_raised).
  apply validations; [by apply name_plain | intros Hname | intros e He; by apply Hstop].
  apply validations; [by apply vector_plain | intros Hvector | intros e He; by apply Hstop].
  apply validations; [apply plain_guard | intros Hlimit | intros e He; by apply Hstop].
  apply validations; [destruct filters; [by apply metadata_plain | apply plain_ok] | intros Hfilters | intros e He; by apply Hstop].
  apply metric_then.
  2: { intros e w1 [HR Hd]. apply search_raised; [| done]. by intros ->. }
  intros m w1 HR1 Hmetric. destruct (milvus_filter_exact filters Hfilters) as (expression & -> & Hread).
  apply wp_bind, wp_lift, wp_bind. eapply wp_mono; [apply call_wp, (sdk_search_law R view storage set_metrics K) |].
  intros [result | e] w2; [| intros [He (e0 & HR & _)]; apply Hstop; [done | by etrans]].
  intros [HR2 (found & Hhits & Hlen & Hfound & Horder)]%(conj_apply result). apply wp_lift.
  assert (HR : R (view w) (view w2)) by by etrans. destruct (limit_ok _ Hlimit) as (n & Hn & Hrange). rewrite Hn in Hlen. cbn in Hlen.
  set (score d := match m with L2 => SFopp d | _ => d end).
  assert (Hms : ∃ ms, map_result (λ hit, milvus_match hit m) (default [] (head result)) = Ok ms
    ∧ Forall2 (λ f x, vm_id x = f.1.1 ∧ vm_score x = score f.1.2 ∧ meta_map (vm_metadata x) = st_metadata f.2) found ms).
  { clear -Hhits. induction Hhits as [| hit f hits found Hh _ (ms & IH & Hall)]; [by exists [] |].
    destruct (milvus_match_of _ _ _ _ m Hh) as (md & Hm & Hmd). cbn [map_result]. rewrite Hm, IH. eexists. split; [done |]. by constructor. }
  destruct Hms as (ms & -> & Hms). split; [done |]. split; [done |]. split; [done |]. split; [done |]. split.
  { exists n. split; [done |]. split; [done |]. by rewrite <- (list.Forall2_length _ _ _ Hms). }
  split.
  - apply list.Forall_forall. intros x (i & Hx)%list_elem_of_lookup. destruct (Forall2_lookup_r _ _ _ _ _ Hms Hx) as (f & Hf & Hid & _ & Hmd).
    rewrite list.Forall_forall in Hfound. destruct (Hfound f) as ((s & Hs & Hst) & Hcond); [by eapply list_elem_of_lookup_2 |].
    exists s, f.2. split; [by eapply (shown_mono R view) |]. rewrite Hid, Hmd. split; [done |]. split; [done |]. by apply Hcond.
  - intros (m0 & Hknown & Hall). assert (m = m0) as ->.
    { apply (Hmetric w2 HR2); [done |]. intros s c Hs. apply Hall. by left. }
    assert (Ho : milvus_order m0 (map (λ f, f.1.2) found)).
    { apply Horder. intros s c Hs. apply Hall. destruct Hs as [Hs | Hs]; [left; by eapply (instant_mono R view w w1 w2 w2) | right; by eapply (shown_mono R view)]. }
    assert (map vm_score ms = map score (map (λ f, f.1.2) found)) as ->.
    { clear -Hms. induction Hms as [| f x found ms (_ & Hs & _) _ IH]; [done |]. cbn [map]. by rewrite Hs, IH. }
    unfold score, milvus_order in *. destruct m0; rewrite ?map_id; [done | done | by apply nearest_best].
Qed.

Lemma milvus_contract :
  VectorClientLaws R view storage K (H := milvus_client metrics set_metrics).
Proof.
  split.
  - apply create_refines.
  - intros name w. eapply wp_mono; [apply has_ok | by intros ? ? []].
  - apply describe_refines.
  - apply delete_collection_refines.
  - intros coll points w Hd _. by apply upsert_refines.
  - apply get_refines.
  - apply delete_refines.
  - apply search_refines.
  - apply ping_refines.
  - apply (sdk_close_law R view storage set_metrics K).
Qed.
(** C27: the Milvus driver is an implementation of the vector client's contract:
    over any server that meets the stated laws, and whatever other clients do
    between its calls, every operation takes effect as the contract says.  A
    collection is created only where none was, or an identical one is found; "exists" or "missing" is
    reported only when it was so; a batch is written completely or the call
    fails; a get shows for each id what was stored in a state the server may show,
    which under Milvus's bounded staleness may be an older one ([get_lag] is any
    relation); a search is validated, returns at most [limit] points that meet every condition
    of the filters, in such a state, and best first when the collection kept the
    metric the client goes by.  Ping and closing change nothing. *)
Theorem milvus_keeps_contract : VectorClientLaws R view storage milvus_kind (H := milvus_client metrics set_metrics).
Proof. exact milvus_contract. Qed.
End Refinement.

(** ** An in-memory server, for concrete runs: one client, nothing fails *)
Record MilvusWorld := mk_milvus { mw_store : Store; mw_metrics : pydict VectorMetric }.
Definition mem_read {A} (f : Store → result exn A) : io MilvusWorld A := λ w, (w, f (mw_store w)).
Definition mem_write (f : Store → result exn Store) : io MilvusWorld unit :=
  λ w, match f (mw_store w) with
       | Ok s => (mk_milvus s (mw_metrics w), Ok tt)
       | Err e => (w, Err e)
       end.
Definition sdk_failure : exn := OtherException 7.
Definition mem_row (row : pydict pyval) : option (pystr * Stored) :=
  match dict_get row (u "id"), dict_get row (u "vector") with
  | Some (VStr id), Some (VList v) =>
      match map_result float_of v with
      | Ok fs => Some (id, mk_stored fs (meta_map (dynamic_fields row)))
      | Err _ => None
      end
  | _, _ => None
  end.
Definition row_of (id : pystr) (st : Stored) : pydict pyval :=
  (u "id", VStr id) :: (u "vector", VList (map VFloat (st_vector st))) :: map_to_list (st_metadata st).
(** A stored entity cannot have two fields of one name. *)
Definition plain_metadata (st : Stored) : bool :=
  bool_decide (st_metadata st !! u "id" = None ∧ st_metadata st !! u "vector" = None).
Definition named_field (name : pystr) (rest : list (pyval * pyval)) : pyval :=
  VDict ((VStr (u "name"), VStr name) :: rest).

Definition mem_equal (a b : pyval) : bool :=
  match a, b with
  | VStr s, VStr t => bool_decide (s = t)
  | VInt x, VInt y => (x =? y)%Z
  | VBool x, VBool y => Bool.eqb x y
  | _, _ => false
  end.
Definition mem_meets (conditions : list (pystr * pyval)) (metadata : gmap pystr pyval) : bool :=
  forallb (λ item, match metadata !! item.1 with Some x => mem_equal x item.2 | None => false end) conditions.
Definition mem_points (s : Store) (coll : pystr) : list (pystr * Stored) :=
  match s !! coll with Some c => map_to_list (co_points c) | None => [] end.
(** This server finds all points equally far. *)
Definition hit_of (id : pystr) (st : Stored) : pydict pyval :=
  [(u "id", VStr id); (u "distance", VFloat (S754_zero false));
   (u "entity", VDict (map (λ kv, (VStr kv.1, kv.2)) (row_of id st)))].

#[export] Instance mem_sdk : MilvusSdk MilvusWorld := {|
  sdk_list_collections := ret tt;
  sdk_create_collection name d m := mem_write (λ s,
    match s !! name, metric_from_milvus (Some (VStr m)) with
    | None, Some metric => Ok (<[name := mk_collection (is_int d) (Some metric) ∅]> s)
    | _, _ => Err sdk_failure
    end);
  sdk_has_collection name := mem_read (λ s, Ok (bool_decide (is_Some (s !! name))));
  sdk_describe_collection name := mem_read (λ s,
    match s !! name with
    | Some c => Ok [(u "fields", VList (named_field (u "id") [] ::
        match co_dimension c with
        | Some n => [named_field (u "vector") [(VStr (u "params"), VDict [(VStr (u "dim"), VInt n)])]]
        | None => []
        end))]
    | None => Err sdk_failure
    end);
  sdk_describe_index name := mem_read (λ s,
    match s !! name with
    | Some c => Ok (match co_metric c with Some m => [(u "metric_type", VStr (milvus_metric m))] | None => [] end)
    | None => Err sdk_failure
    end);
  sdk_drop_collection name := mem_write (λ s, Ok (delete name s));
  sdk_upsert coll rows := mem_write (λ s,
    match s !! coll, mapM mem_row rows with
    | Some _, Some l => Ok (fold_left (λ s e, store_put coll e.1 e.2 s) l s)
    | _, _ => Err sdk_failure
    end);
  sdk_get coll ids := mem_read (λ s,
    let found := omap (λ id, pair id <$> store_find s coll id) ids in
    if forallb (λ e, plain_metadata e.2) found then Ok (map (λ e, row_of e.1 e.2) found) else Err sdk_failure);
  sdk_delete coll ids := mem_write (λ s, Ok (fold_left (λ s id, store_remove coll id s) ids s));
  sdk_search coll _ expression limit := mem_read (λ s,
    match read_filter expression with
    | Some conditions =>
        if (limit <? 0)%Z then Err sdk_failure else
        let found := firstn (Z.to_nat limit) (List.filter (λ e, plain_metadata e.2 && mem_meets conditions (st_metadata e.2)) (mem_points s coll)) in
        Ok [map (λ e, hit_of e.1 e.2) found]
    | None => Err sdk_failure
    end);
  sdk_close := ret tt;
  sdk_connection_errors _ := false;
  sdk_operation_errors e := match e with OtherException 7 => true | _ => false end;
|}.
Definition mem_set_metrics (d : pydict VectorMetric) (w : MilvusWorld) : MilvusWorld := mk_milvus (mw_store w) d.

Lemma mem_row_put row e : row_put id row e → mem_row row = Some e.
Proof. destruct e as [i st]. intros (Hid & v & fs & Hv & Hfs & Hst). unfold mem_row. cbn in *. by rewrite Hid, Hv, Hfs, Hst. Qed.

Definition mem_kind : StoreKind MilvusWorld := milvus_kind mw_metrics eq eq mem_equal.

Lemma fold_puts (coll : pystr) (l : list (pystr * Stored)) (s : Store) :
  is_Some (s !! coll) → puts eq mem_kind coll l s (fold_left (λ s e, store_put coll e.1 e.2 s) l s).
Proof.
  revert s. induction l as [| [i st] l IH]; intros s Hs; [by constructor |]. eapply puts_cons; [done | done |].
  apply IH. unfold store_put. rewrite lookup_alter_eq. destruct Hs as [c ->]. by eexists.
Qed.

Lemma map_to_list_get (m : gmap pystr pyval) k : dict_get (map_to_list m) k = m !! k.
Proof. rewrite <- meta_map_lookup. unfold meta_map. by rewrite list_to_map_to_list. Qed.

Lemma row_of_as id st : plain_metadata st = true → row_as (row_of id st) id st.
Proof.
  unfold plain_metadata. intros [Hi Hv]%bool_decide_eq_true. split_and!; [done | done |].
  apply map_eq. intros k. rewrite meta_map_lookup, dynamic_fields_get. unfold reserved_fields.
  case_decide as Hk; [set_solver |]. unfold row_of. cbn [dict_get]. rewrite !decide_False by set_solver.
  apply map_to_list_get.
Qed.

Lemma mem_shown (w : MilvusWorld) : shown eq mw_store eq w w (mw_store w).
Proof. by exists (mw_store w). Qed.
Lemma mem_plain {A} (r : result exn A) : (∀ e, r = Err e → e = sdk_failure) → raises_plain r.
Proof. intros Hr e He. by rewrite (Hr e He). Qed.

Lemma mem_points_find s coll id st : (id, st) ∈ mem_points s coll → store_find s coll id = Some st.
Proof.
  unfold mem_points, store_find. destruct (s !! coll) as [c |]; [| by intros ?%not_elem_of_nil].
  by intros ?%elem_of_map_to_list.
Qed.
Lemma mem_meets_ok conditions metadata : mem_meets conditions metadata = true → meets mem_kind (Some conditions) metadata.
Proof.
  unfold mem_meets, meets. rewrite forallb_forall. intros Hall. apply list.Forall_forall. intros item Hitem.
  specialize (Hall item (proj1 (list_elem_of_In _ _) Hitem)). destruct (metadata !! item.1) as [x |]; [by exists x | done].
Qed.
Lemma zeros_sorted (f : spec_float → spec_float → Prop) n : f (S754_zero false) (S754_zero false) →
  StronglySorted f (replicate n (S754_zero false)).
Proof.
  intros Hf. induction n as [| n IH]; cbn [replicate]; constructor; [done |].
  apply list.Forall_forall. by intros x [-> _]%elem_of_replicate.
Qed.
Lemma mem_order m n : milvus_order m (replicate n (S754_zero false)).
Proof. destruct m; by apply zeros_sorted. Qed.
Lemma hit_of_as id st : plain_metadata st = true → hit_as (hit_of id st) id (S754_zero false) st.
Proof.
  intros Hp. split_and!; [done | done |]. eexists. split; [done |].
  assert (text_items (map (λ kv, (VStr kv.1, kv.2)) (row_of id st)) = row_of id st) as ->; [| by apply row_of_as].
  generalize (row_of id st). intros d. unfold text_items. induction d as [| [k v] d IH]; [done |].
  cbn [map omap list_omap fst snd]. by f_equal.
Qed.
Lemma elem_of_take_in {A} (x : A) n l : x ∈ firstn n l → x ∈ l.
Proof. intros Hx. rewrite <- (firstn_skipn n l). apply elem_of_app. by left. Qed.

Lemma mem_search_law coll vector expression limit (w : MilvusWorld) :
  wp (sdk_search coll vector expression limit) (λ r w', raises_plain r ∧ mw_store w = mw_store w' ∧ ∀ result, r = Ok result →
    ∃ found : list (pystr * spec_float * Stored),
      Forall2 (λ hit f, hit_as hit f.1.1 f.1.2 f.2) (default [] (head result)) found ∧
      (Z.of_nat (length found) <= limit)%Z ∧
      Forall (λ f, (∃ s, shown eq mw_store eq w w' s ∧ store_find s coll f.1.1 = Some f.2) ∧
        ∀ conditions, read_filter expression = Some conditions → meets mem_kind (Some conditions) (st_metadata f.2)) found ∧
      ∀ m, (∀ s c, instant eq mw_store w w' s ∨ shown eq mw_store eq w w' s → s !! coll = Some c → co_metric c = Some m) →
        milvus_order m (map (λ f, f.1.2) found)) w.
Proof.
  cbn [sdk_search mem_sdk]. unfold mem_read, wp. destruct (read_filter expression) as [conditions |] eqn:He.
  2: { split; [apply mem_plain; congruence | done]. }
  destruct (limit <? 0)%Z eqn:Hneg; (split; [apply mem_plain; congruence |]); (split; [done |]); [done |]. intros result [= <-].
  set (found := firstn _ _). exists (map (λ e, (e.1, S754_zero false, e.2)) found). cbn [head default from_option].
  assert (Hin : ∀ e, e ∈ found → plain_metadata e.2 = true ∧ mem_meets conditions (st_metadata e.2) = true
    ∧ store_find (mw_store w) coll e.1 = Some e.2).
  { intros [id st] He'%elem_of_take_in. apply list_elem_of_In, filter_In in He' as [Hp Hb%andb_true_iff].
    split_and!; [tauto.. |]. by apply mem_points_find, list_elem_of_In. }
  split_and!.
  - clear He. induction found as [| e found IH]; [constructor |]. cbn [map]. constructor; [| apply IH; intros; apply Hin; by right].
    cbn. apply hit_of_as. by apply Hin; left.
  - rewrite length_map. subst found. rewrite length_take. apply Z.ltb_ge in Hneg. lia.
  - apply list.Forall_forall. intros f (e & -> & He')%list_elem_of_fmap. destruct (Hin e He') as (_ & Hm & Hs). split.
    + exists (mw_store w). split; [apply mem_shown | done].
    + intros conditions' [= <-]. by apply mem_meets_ok.
  - intros m _. rewrite map_map. cbn [fst snd]. assert (map (λ _ : pystr * Stored, S754_zero false) found = replicate (length found) (S754_zero false)) as ->.
    { clear. induction found; cbn [map replicate length]; [done | by f_equal]. }
    apply mem_order.
Qed.

#[export] Instance mem_milvus_laws : MilvusLaws eq mw_store id mem_set_metrics mem_kind.
Proof.
  split; cbn [sdk_list_collections sdk_has_collection sdk_create_collection sdk_describe_collection sdk_describe_index
    sdk_drop_collection sdk_upsert sdk_get sdk_delete sdk_search sdk_close mem_sdk]; unfold mem_read, mem_write, wp.
  - intros w. by split.
  - intros name w. split; [by apply mem_plain |]. exists (mw_store w). split; [done |]. by intros b [= <-].
  - intros name d n m w Hn. rewrite metric_from_milvus_of. destruct (mw_store w !! name) as [c |] eqn:Hc; simpl.
    + split; [apply mem_plain; congruence |]. exists (mw_store w), (mw_store w). split_and!; [done | by left | done].
    + split; [by apply mem_plain |]. exists (mw_store w), (<[name:=mk_collection (Some n) (Some m) ∅]> (mw_store w)).
      rewrite Hn. split_and!; [done | by left | done].
  - intros name w. destruct (mw_store w !! name) as [c |] eqn:Hc; (split; [apply mem_plain; congruence |]); split; try done.
    intros d [= <-]. exists (mw_store w), c. split_and!; [done.. |]. destruct (co_dimension c) as [n |].
    + exists [named_field (u "id") []]. eexists _, _, []. split; [reflexivity |]. split_and!; [| done..].
      constructor; [| done]. eexists. split; [done |]. by vm_compute.
    + eexists. split; [reflexivity |]. constructor; [| done]. eexists. split; [done |]. by vm_compute.
  - intros name w. destruct (mw_store w !! name) as [c |] eqn:Hc; (split; [apply mem_plain; congruence |]); split; try done.
    intros d [= <-]. exists (mw_store w), c. split_and!; [done.. |]. by destruct (co_metric c).
  - intros name w. split; [by apply mem_plain |]. by exists (mw_store w), (delete name (mw_store w)).
  - intros coll rows l w Hl. assert (Hm : mapM mem_row rows = Some l).
    { apply mapM_Some. eapply list.Forall2_impl; [exact Hl |]. by apply mem_row_put. }
    rewrite Hm. destruct (mw_store w !! coll) as [c |] eqn:Hc; (split; [apply mem_plain; congruence |]).
    + apply fold_puts. by rewrite Hc.
    + exists []. split; [apply sublist_nil_l | by constructor].
  - intros coll ids w. destruct (forallb _ _) eqn:Hp; (split; [apply mem_plain; congruence |]); split; try done.
    intros rows [= <-]. rewrite forallb_forall in Hp. split.
    + apply list.Forall_forall. intros row ([i st] & -> & Hin)%list_elem_of_fmap. cbn [fst snd]. exists i, st, (mw_store w).
      split; [apply mem_shown |]. split; [| apply row_of_as, (Hp (i, st)), list_elem_of_In, Hin].
      apply list_elem_of_omap in Hin as (i' & Hi' & Hf). destruct (store_find (mw_store w) coll i') eqn:Hs; by simplify_eq/=.
    + intros i Hi. destruct (store_find (mw_store w) coll i) as [st |] eqn:Hs; [left | right; exists (mw_store w); split; [apply mem_shown | done]].
      exists (row_of i st). split; [| done]. apply (list_elem_of_fmap_2 (λ e, row_of e.1 e.2) _ (i, st)).
      apply list_elem_of_omap. exists i. by rewrite Hs.
  - intros coll ids w. split; [by apply mem_plain | apply fold_removed].
  - exact mem_search_law.
  - by intros w.
  - by intros d w.
Qed.

(** ** Witnesses *)

(** [name == "a\" or \"b" and stock == -3] is what becomes of two conditions,
    the first with a hostile text. *)
Definition demo_filters : option (pydict pyval) :=
  Some [(u "name", VStr [97; 34; 32; 111; 114; 32; 34; 98]%N); (u "stock", VInt (-3))].
Definition demo_expression : pystr :=
  u "name == " ++ [34; 97; 92; 34; 32; 111; 114; 32; 92; 34; 98; 34]%N ++ u " and stock == -3".

Lemma milvus_filter_exact_witness :
  milvus_filter demo_filters = Ok demo_expression ∧
  ∃ e, milvus_filter demo_filters = Ok e ∧ read_filter e = Some (default [] demo_filters).
Proof.
  split; [by vm_compute |]. apply (milvus_filter_exact demo_filters). by vm_compute.
Defined.

Definition demo_collection : VectorCollectionSpec := mk_spec (u "docs") (VInt 2) COSINE.
Definition demo_points : list VectorPoint :=
  [mk_point (u "a") [VInt 1; VFloat (S754_zero false)] [(u "lang", VStr (u "en"))];
   mk_point (u "b") [VInt 2; VInt 3] []].
Definition demo_world : MilvusWorld :=
  mk_milvus {[ u "docs" := mk_collection (Some 2%Z) (Some COSINE) ∅ ]} [].

Lemma milvus_keeps_contract_witness :
  VectorClientLaws eq mw_store id mem_kind (H := milvus_client mw_metrics mem_set_metrics)
  ∧ match milvus_search mw_metrics mem_set_metrics (u "docs") [VInt 1; VInt 2] (VInt 5) (Some [(u "lang", VStr (u "en"))])
            (fst (milvus_upsert (u "docs") demo_points demo_world)) with
    | (_, Ok found) => map vm_id found = [u "a"]
    | _ => False
    end.
Proof.
  split; [| by vm_compute].
  exact (milvus_keeps_contract eq mw_store id mw_metrics mem_set_metrics eq eq mem_equal (L := mem_milvus_laws)).
Defined.

Lemma vector_upsert_get_roundtrip_witness :
  wp (milvus_upsert (u "docs") demo_points;;; milvus_get (u "docs") (map vp_id demo_points)) (λ r w', ∀ got,
    r = Ok got → Forall2 (same_point id) demo_points got) demo_world
  ∧ match (milvus_upsert (u "docs") demo_points;;; milvus_get (u "docs") (map vp_id demo_points)) demo_world with
    | (_, Ok got) => map vp_id got = [u "a"; u "b"]
    | _ => False
    end.
Proof.
  assert (Hu : untouched eq (u "docs") (map vp_id demo_points)) by by intros s s' i <-.
  assert (Hd : Forall dict_point demo_points) by (repeat constructor; by apply not_elem_of_nil).
  split; [| by vm_compute].
  exact (vector_upsert_get_roundtrip eq mw_store id mem_kind (H := milvus_client mw_metrics mem_set_metrics) (u "docs")
    demo_points demo_world (milvus_contract eq mw_store id mw_metrics mem_set_metrics eq eq mem_equal (L := mem_milvus_laws))
    (λ s s1 Hs, Hs) I Hu Hd).
Defined.
