(* ===== verification/VectorChroma.v ===== *)
(** * VectorChroma: the Chroma driver

    Models [infrastructure/vector/drivers/chroma.py]: exception conversion, the
    client, the replacement of metadata and the translation of points, hits
    and filters.  The SDK is the class [ChromaSdk]; an array result is the list
    its [tolist()] gives.  [ChromaLaws] states what the driver relies on while others
    do what a relation allows: [every], or [others] while this task holds the lock of
    [upsert].  The lock makes the upserts of one client exclusive; what other clients
    do meanwhile is the caller's business, as the source says ([coordinated]). *)

From Stdlib Require Import Floats.SpecFloat.
From S2P Require Import Prelude Text PyVal Errors Decimal Json VectorModels.
Local Open Scope prog_scope.
#[local] Remove Hints finite.finite_countable : typeclass_instances.

(** ** The SDK *)

(** A collection object: its name and its attribute [metadata]. *)
Record chroma_collection := mk_chroma { ch_name : pystr; ch_metadata : pyval }.

Class ChromaSdk (W : Type) := {
  ch_heartbeat : io W unit;
  ch_create_collection : pystr → pystr → pydict pyval → io W unit;   (* name, hnw space, metadata *)
  ch_get_collection : pystr → io W chroma_collection;
  ch_delete_collection : pystr → io W unit;
  ch_upsert : chroma_collection → list pystr → list (list pyval) → list (pydict pyval) → io W unit;
  ch_get : chroma_collection → list pystr → bool → io W (pydict pyval);   (* with embeddings? *)
  ch_delete : chroma_collection → list pystr → io W unit;
  ch_query : chroma_collection → list pyval → Z → pyval → io W (pydict pyval);
  ch_not_found : exn → bool;            (* isinstance(error, NotFoundError) *)
  ch_unique_constraint : exn → bool;
  ch_local : bool;                      (* the embedded client *)
  ch_close : option (io W unit);        (* its method [close], if it has one *)
  ch_unreachable : exn → bool;          (* TimeoutError, httpx.RequestError, OSError *)
}.

(** The [asyncio.Lock] of the client, as seen by one task: [holds] tells whether the
    task has it. *)
Class UpsertLock (W : Type) := { acquire : io W unit; release : io W unit; holds : W → bool }.

Definition chroma_metric (m : VectorMetric) : pystr :=
  match m with COSINE => u "cosine" | DOT_PRODUCT => u "ip" | L2 => u "l2" end.
Definition metric_value (m : VectorMetric) : pystr :=
  match m with COSINE => u "cosine" | DOT_PRODUCT => u "dot_product" | L2 => u "l2" end.
(** [VectorMetric(text)] *)
Definition metric_of_value (t : pystr) : option VectorMetric :=
  if bool_decide (t = u "cosine") then Some COSINE
  else if bool_decide (t = u "dot_product") then Some DOT_PRODUCT
  else if bool_decide (t = u "l2") then Some L2 else None.
Definition dimension_metadata : pystr := u "_vector_dimension".
Definition metric_metadata : pystr := u "_vector_metric".
Definition record_metadata : pystr := u "_vector_record".

(** ** Results *)

(** [_sequence]: [None] is empty, a sequence is itself. *)
Definition chroma_sequence (value : option pyval) : result exn (list pyval) :=
  match value with
  | None | Some VNone => Ok []
  | Some (VList l) | Some (VTuple l) => Ok l
  | Some (VStr s) => Ok (map (λ c, VStr [c]) s)
  | Some (VBytes b) => Ok (map (λ x, VInt (Z.of_N (byte_N x))) b)
  | _ => Err VectorOperationError
  end.
Definition first_sequence (value : option pyval) : result exn (list pyval) :=
  let? outer := chroma_sequence value in
  match outer with [] => Ok [] | v :: _ => chroma_sequence (Some v) end.

Definition clean_chroma_metadata (value : pyval) : result exn (pydict pyval) :=
  match value with
  | VNone => Ok []
  | VDict d => Ok (List.filter (λ kv, negb (bool_decide (kv.1 = record_metadata))) (text_items d))
  | _ => Err VectorOperationError
  end.

Definition text_of (v : pyval) : result exn pystr := match v with VStr s => Ok s | _ => Err VectorOperationError end.
(** [{id: clean(metadata) for id, metadata in zip(ids, metadatas)}] *)
Definition existing_metadata (ids : list pystr) (metadatas : list pyval) : result exn (pydict (pydict pyval)) :=
  let? cleaned := map_result clean_chroma_metadata metadatas in
  Ok (fold_left (λ d e, dict_set d e.1 e.2) (zip ids cleaned) []).
Definition replacement_metadata (existing : pydict (pydict pyval)) (p : VectorPoint) : pydict pyval :=
  let old := default [] (dict_get existing (vp_id p)) in
  let dropped := List.filter (λ k, negb (bool_decide (k ∈ dict_keys (vp_metadata p)))) (dict_keys old) in
  dict_merge (dict_merge (map (λ k, (k, VNone)) dropped) [(record_metadata, VBool true)]) (vp_metadata p).
Definition replacement_metadatas (answer : pydict pyval) (points : list VectorPoint) : result exn (list (pydict pyval)) :=
  let? ids := chroma_sequence (dict_get answer (u "ids")) in
  let? metadatas := chroma_sequence (dict_get answer (u "metadatas")) in
  let? _ := guard (bool_decide (length ids = length metadatas)) VectorOperationError in
  let? ids := map_result text_of ids in
  let? existing := existing_metadata ids metadatas in
  Ok (map (replacement_metadata existing) points).

(** [metadatas[index] if index < len(metadatas) else {}] *)
Definition nth_metadata (metadatas : list pyval) (i : nat) : pyval := default (VDict []) (metadatas !! i).
Fixpoint chroma_points_from (i : nat) (l : list (pyval * pyval)) (metadatas : list pyval) : result exn (list VectorPoint) :=
  match l with
  | [] => Ok []
  | (point_id, embedding) :: l =>
      let? id := text_of point_id in
      let? values := match embedding with
                     | VList v | VTuple v => Ok v
                     | VStr s => Ok (map (λ c, VStr [c]) s)
                     | VBytes b => Ok (map (λ x, VInt (Z.of_N (byte_N x))) b)
                     | _ => Err VectorOperationError
                     end in
      let? vector := map_result (λ v, let? f := float_of v in Ok (VFloat f)) values in
      let? metadata := clean_chroma_metadata (nth_metadata metadatas i) in
      let? point := VectorPoint_new (mk_point id vector metadata) in
      let? rest := chroma_points_from (S i) l metadatas in
      Ok (point :: rest)
  end.
Definition chroma_points (answer : pydict pyval) : result exn (list VectorPoint) :=
  let? ids := chroma_sequence (dict_get answer (u "ids")) in
  let? embeddings := chroma_sequence (dict_get answer (u "embeddings")) in
  let? metadatas := chroma_sequence (dict_get answer (u "metadatas")) in
  let? _ := guard (bool_decide (length ids = length embeddings)) VectorOperationError in
  chroma_points_from 0 (zip ids embeddings) metadatas.

Fixpoint chroma_matches_from (i : nat) (l : list (pyval * pyval)) (metadatas : list pyval) : result exn (list VectorMatch) :=
  match l with
  | [] => Ok []
  | (point_id, distance) :: l =>
      let? id := text_of point_id in
      let? _ := guard (match distance with VInt _ | VFloat _ | VBool _ => true | _ => false end) VectorOperationError in
      let? d := float_of distance in
      let? metadata := clean_chroma_metadata (nth_metadata metadatas i) in
      let? rest := chroma_matches_from (S i) l metadatas in
      Ok (mk_match id (SFopp d) metadata :: rest)
  end.
Definition chroma_matches (answer : pydict pyval) : result exn (list VectorMatch) :=
  let? ids := first_sequence (dict_get answer (u "ids")) in
  let? distances := first_sequence (dict_get answer (u "distances")) in
  let? metadatas := first_sequence (dict_get answer (u "metadatas")) in
  let? _ := guard (bool_decide (length ids = length distances)) VectorOperationError in
  chroma_matches_from 0 (zip ids distances) metadatas.

(** [{key: {"$eq": value}}] *)
Definition eq_predicate (item : pystr * pyval) : pyval := VDict [(VStr item.1, VDict [(VStr (u "$eq"), item.2)])].
Definition chroma_filter (filters : option (pydict pyval)) : pyval :=
  match filters with
  | None | Some [] => VNone
  | Some [item] => eq_predicate item
  | Some items => VDict [(VStr (u "$and"), VList (map eq_predicate items))]
  end.

(** ** The backend and ChromaVectorClient *)
Section Client.
Context {W : Type} `{ChromaSdk W, UpsertLock W}.

Definition chroma_error (e : exn) : exn :=
  if ch_not_found e then VectorCollectionNotFoundError
  else if ch_unique_constraint e then VectorCollectionConflictError
  else if ch_unreachable e then VectorConnectionError
  else VectorOperationError.
Definition chroma_call {A} (m : io W A) : io W A :=
  catch m (λ e, raise (if is_exception e then chroma_error e else e)).

Definition chroma_ping : io W bool := chroma_call ch_heartbeat;;; ret true.

Definition is_not_found (e : exn) : bool := match e with VectorCollectionNotFoundError => true | _ => false end.
Definition chroma_has_collection (name : pystr) : io W bool :=
  lift (validate_collection_name name);;;
  catch (chroma_call (ch_get_collection name);;; ret true)
    (λ e, if is_not_found e then ret false else raise e).
Definition chroma_require_collection (name : pystr) : io W chroma_collection :=
  lift (validate_collection_name name);;;
  chroma_call (ch_get_collection name).

Definition chroma_create_collection (spec : VectorCollectionSpec) : io W unit :=
  let* exists_ := chroma_has_collection (cs_name spec) in
  (if (exists_ : bool) then raise VectorCollectionConflictError else ret tt);;;
  chroma_call (ch_create_collection (cs_name spec) (chroma_metric (cs_metric spec))
    [(dimension_metadata, cs_dimension spec); (metric_metadata, VStr (metric_value (cs_metric spec)))]).

Definition chroma_info (name : pystr) (metadata : pyval) : result exn VectorCollectionInfo :=
  match metadata with
  | VDict d =>
      let d := text_items d in
      match dict_get d dimension_metadata ≫= is_int_instance, dict_get d metric_metadata with
      | Some dimension, Some (VStr t) =>
          match metric_of_value t with
          | Some metric => Ok (mk_info name dimension metric)
          | None => Err VectorOperationError
          end
      | _, _ => Err VectorOperationError
      end
  | _ => Err VectorOperationError
  end.
Definition chroma_describe_collection (name : pystr) : io W VectorCollectionInfo :=
  let* collection := chroma_require_collection name in
  lift (chroma_info name (ch_metadata collection)).

Definition chroma_drop_collection (name : pystr) : io W unit :=
  let* _ := chroma_require_collection name in
  chroma_call (ch_delete_collection name).

(** [async with self._upsert_lock] *)
Definition locked {A} (body : io W A) : io W A := acquire;;; finally body release.

Definition chroma_upsert (collection : pystr) (points : list VectorPoint) : io W unit :=
  lift (validate_collection_name collection);;;
  lift (validate_points points);;;
  match points with
  | [] => ret tt
  | _ =>
      let* points := lift (map_result VectorPoint_new points) in
      locked (
        let* target := chroma_require_collection collection in
        let* answer := chroma_call (ch_get target (map vp_id points) false) in
        let* metadatas := lift (replacement_metadatas answer points) in
        chroma_call (ch_upsert target (map vp_id points) (map vp_vector points) metadatas))
  end.

Definition chroma_get (collection : pystr) (ids : list pystr) : io W (list VectorPoint) :=
  lift (validate_collection_name collection);;;
  lift (validate_ids ids);;;
  match ids with
  | [] => ret []
  | _ =>
      let* target := chroma_require_collection collection in
      let* answer := chroma_call (ch_get target ids true) in
      let* points := lift (chroma_points answer) in
      ret (in_order ids (points_by_id points))
  end.

Definition chroma_delete (collection : pystr) (ids : list pystr) : io W unit :=
  lift (validate_collection_name collection);;;
  lift (validate_ids ids);;;
  match ids with
  | [] => ret tt
  | _ =>
      let* target := chroma_require_collection collection in
      chroma_call (ch_delete target ids)
  end.

Definition chroma_search (collection : pystr) (vector : list pyval) (limit : pyval) (filters : option (pydict pyval))
    : io W (list VectorMatch) :=
  lift (validate_collection_name collection);;;
  lift (validate_query_vector vector);;;
  lift (validate_limit limit);;;
  lift (validate_filters filters);;;
  let* target := chroma_require_collection collection in
  let* answer := chroma_call (ch_query target vector (default 0%Z (is_int limit)) (chroma_filter filters)) in
  lift (chroma_matches answer).

Definition chroma_aclose : io W unit :=
  if ch_local then
    match ch_close with
    | Some close => catch close (λ e, raise (if is_exception e then VectorOperationError else e))
    | None => ret tt
    end
  else ret tt.

#[export] Instance chroma_client : VectorClient W := {|
  create_collection := chroma_create_collection;
  has_collection := chroma_has_collection;
  describe_collection := chroma_describe_collection;
  delete_collection := chroma_drop_collection;
  upsert := chroma_upsert;
  vget := chroma_get;
  vdelete := chroma_delete;
  vsearch := chroma_search;
  vping := chroma_ping;
  vaclose := chroma_aclose;
|}.
End Client.

(** ** Filters: what the [where] document means *)

(** Chroma's documented operators, as far as the driver uses them; [eqv] is
    its comparison of a stored value with an operand. *)
Fixpoint where_holds (eqv : pyval → pyval → bool) (metadata : gmap pystr pyval) (w : pyval) : bool :=
  match w with
  | VDict [(VStr k, operand)] =>
      match operand with
      | VDict [(VStr op, v)] =>
          bool_decide (op = u "$eq") && match metadata !! k with Some stored => eqv stored v | None => false end
      | VList ws => bool_decide (k = u "$and") && forallb (where_holds eqv metadata) ws
      | _ => false
      end
  | VNone => true
  | _ => false
  end.

(** The filter document selects exactly the points whose metadata has every
    required key with an equal value, for none, one and several conditions. *)
Theorem chroma_filter_exact eqv metadata (filters : option (pydict pyval)) :
  where_holds eqv metadata (chroma_filter filters) =
    forallb (λ item, match metadata !! item.1 with Some stored => eqv stored item.2 | None => false end)
      (default [] filters).
Proof.
  destruct filters as [[| item [| item2 items]] |]; try done.
  - cbn. by rewrite andb_true_r.
  - unfold chroma_filter. cbn [where_holds default]. rewrite bool_decide_true by done. cbn [andb].
    generalize (item :: item2 :: items). intros l. induction l as [| i l IH]; [done |].
    cbn [map forallb]. rewrite IH. done.
Qed.

Lemma chroma_filter_meets {W} (K : StoreKind W) metadata (filters : option (pydict pyval)) :
  where_holds (sk_equal K) metadata (chroma_filter filters) = true → meets K filters metadata.
Proof.
  rewrite chroma_filter_exact, forallb_forall. unfold meets. intros Hall. apply list.Forall_forall. intros item Hitem.
  specialize (Hall item (proj1 (list_elem_of_In _ _) Hitem)). destruct (metadata !! item.1) as [x |]; [by exists x | done].
Qed.

(** ** What the driver relies on *)

Definition metadata_as (m : pyval) (st : Stored) : Prop :=
  match m with
  | VNone => st_metadata st = ∅
  | VDict d => meta_map (List.filter (λ kv, negb (bool_decide (kv.1 = record_metadata))) (text_items d)) = st_metadata st
  | _ => False
  end.
(** An upsert updates the metadata key by key and removes the keys given as
    [None]; the abstract store leaves the driver's marker out. *)
Definition merge_value (old new : option pyval) : option pyval :=
  match new with Some VNone => None | Some v => Some v | None => old end.
Definition merge_metadata (old : gmap pystr pyval) (d : pydict pyval) : gmap pystr pyval :=
  delete record_metadata (merge merge_value old (meta_map d)).
Definition old_metadata (s : Store) (coll id : pystr) : gmap pystr pyval :=
  default ∅ (st_metadata <$> store_find s coll id).
Record upsert_item := mk_item { ui_id : pystr; ui_floats : list spec_float; ui_metadata : pydict pyval }.
Record found_record := mk_found { fr_id : pystr; fr_metadata : pyval; fr_stored : Stored }.
(** What the metadata of a collection tell of its vectors. *)
Definition collection_shows (metadata : pyval) (c : Collection) : Prop :=
  match metadata with
  | VDict d =>
      (dict_get (text_items d) dimension_metadata ≫= is_int_instance) = co_dimension c ∧
      ((dict_get (text_items d) metric_metadata ≫= is_str) ≫= metric_of_value) = co_metric c
  | _ => co_dimension c = None ∧ co_metric c = None
  end.
(** A query returns a column of rows, one row for each vector asked for. *)
Definition first_row (answer : pydict pyval) (key : pystr) (row : list pyval) : Prop :=
  ∃ rows, dict_get answer key = Some (VList (VList row :: rows)).
Definition found_entry (f : found_record) : pystr * Stored := (fr_id f, fr_stored f).

Section Laws.
Context {W : Type} `{ChromaSdk W}.
Context (R : relation Store) (during : W → Prop) (view : W → Store) (storage : list spec_float → list spec_float)
  (K : StoreKind W) (got : chroma_collection → W → Prop).

Inductive merges (coll : pystr) : list upsert_item → Store → Store → Prop :=
| merges_nil s s' : R s s' → merges coll [] s s'
| merges_cons i l s s1 s' :
    R s s1 → is_Some (s1 !! coll) →
    merges coll l (store_put coll (ui_id i)
      (mk_stored (storage (ui_floats i)) (merge_metadata (old_metadata s1 coll (ui_id i)) (ui_metadata i))) s1) s' →
    merges coll (i :: l) s s'.

Definition missing_or (missing : Prop) (e : exn) (other : Prop) : Prop :=
  (is_exception e = true → ch_not_found e = true → missing) ∧ other.
Abbreviation gone w w' name := (∃ s : Store, instant R view w w' s ∧ s !! name = None).
(** An object stands for the collection it was got for: "not found" says that this one
    is gone since, whatever has its name now.  [got c w]: [c] was got by a call that
    began in [w]. *)
Definition lost (c : chroma_collection) (w w' : W) : Prop :=
  ∀ w0, got c w0 → R (view w0) (view w) → gone w0 w' (ch_name c).

(** While [during] holds, others do what [R] allows, and no call ends it. *)
Class ChromaLaws : Prop := {
  ch_create_law name d n m w : during w → is_int d = Some n →
    wp (ch_create_collection name (chroma_metric m) [(dimension_metadata, d); (metric_metadata, VStr (metric_value m))])
      (λ r w', during w' ∧
        match r with
        | Ok _ => atomic_step R view w w' (created K name (mk_collection (Some n) (Some m) ∅))
        | Err e =>
            atomic_step R view w w' (half_created name) ∧
            (is_exception e = true → ch_not_found e = false → ch_unique_constraint e = true →
             ∃ s, instant R view w w' s ∧ is_Some (s !! name))
        end) w;
  ch_get_collection_law name w : during w →
    wp (ch_get_collection name) (λ r w', during w' ∧ R (view w) (view w') ∧
      match r with
      | Ok c => ch_name c = name ∧ got c w ∧ ∃ s col, instant R view w w' s ∧ s !! name = Some col ∧ collection_shows (ch_metadata c) col
      | Err e => missing_or (gone w w' name) e
          (is_exception e = true → ch_not_found e = false → ch_unique_constraint e = false)
      end) w;
  ch_drop_law name w : during w →
    wp (ch_delete_collection name) (λ r w', during w' ∧
      match r with
      | Ok _ => atomic_step R view w w' (λ s s', s' = delete name s)
      | Err e => missing_or (gone w w' name) e (atomic_step R view w w' (λ s s', s' = s ∨ s' = delete name s))
      end) w;
  ch_upsert_law c embeddings items w : during w →
    Forall2 (λ v i, map_result float_of v = Ok (ui_floats i)) embeddings items → Forall (λ i, ui_metadata i ≠ []) items →
    wp (ch_upsert c (map ui_id items) embeddings (map ui_metadata items)) (λ r w', during w' ∧
      match r with
      | Ok _ => merges (ch_name c) items (view w) (view w')
      | Err e => missing_or (lost c w w') e
          (∃ l, sublist l items ∧ merges (ch_name c) l (view w) (view w'))
      end) w;
  (** A get sees what is stored; a search may lag behind. *)
  ch_get_law c ids embeddings w : during w →
    wp (ch_get c ids embeddings) (λ r w', during w' ∧ R (view w) (view w') ∧
      match r with
      | Ok d => ∃ found,
          dict_get d (u "ids") = Some (VList (map (λ f, VStr (fr_id f)) found)) ∧
          dict_get d (u "metadatas") = Some (VList (map fr_metadata found)) ∧
          (embeddings = true → dict_get d (u "embeddings") =
            Some (VList (map (λ f, VList (map VFloat (st_vector (fr_stored f)))) found))) ∧
          Forall (λ f, metadata_as (fr_metadata f) (fr_stored f) ∧
            ∃ s, instant R view w w' s ∧ store_find s (ch_name c) (fr_id f) = Some (fr_stored f)) found ∧
          ∀ id, id ∈ ids → id ∈ map fr_id found ∨ ∃ s, instant R view w w' s ∧ store_find s (ch_name c) id = None
      | Err e => missing_or (lost c w w') e True
      end) w;
  ch_delete_law c ids w : during w →
    wp (ch_delete c ids) (λ r w', during w' ∧
      match r with
      | Ok _ => removed R (ch_name c) ids (view w) (view w')
      | Err e => missing_or (lost c w w') e
          (∃ dropped, sublist dropped ids ∧ removed R (ch_name c) dropped (view w) (view w'))
      end) w;
  (** At most [n] results, each of which the condition holds of, nearest first. *)
  ch_query_law c vector n condition w : during w →
    wp (ch_query c vector n condition) (λ r w', during w' ∧ R (view w) (view w') ∧
      match r with
      | Ok answer => ∃ found : list (found_record * spec_float),
          first_row answer (u "ids") (map (λ f, VStr (fr_id f.1)) found) ∧
          first_row answer (u "distances") (map (λ f, VFloat f.2) found) ∧
          first_row answer (u "metadatas") (map (λ f, fr_metadata f.1) found) ∧
          (Z.of_nat (length found) <= n)%Z ∧ nearest_first (map snd found) ∧
          Forall (λ f, metadata_as (fr_metadata f.1) (fr_stored f.1) ∧
            where_holds (sk_equal K) (st_metadata (fr_stored f.1)) condition = true ∧
            ∃ s, shown R view (sk_search_lag K) w w' s ∧ store_find s (ch_name c) (fr_id f.1) = Some (fr_stored f.1)) found
      | Err e => missing_or (lost c w w') e True
      end) w;
  ch_heartbeat_law w : during w → wp ch_heartbeat (λ _ w', during w' ∧ R (view w) (view w')) w;
  ch_close_law close w : ch_close = Some close → during w → wp close (λ _ w', during w' ∧ R (view w) (view w')) w;
}.
End Laws.

(** Others add no metadata keys to the points [ids] of [coll]. *)
Definition coordinated (others : relation Store) (coll : pystr) (ids : list pystr) : Prop :=
  ∀ s s' id, others s s' → id ∈ ids → dom (old_metadata s' coll id) ⊆ dom (old_metadata s coll id).

(** The lock: a task waits for it, during which anything may happen, and keeps out the
    other upserts of the client from then on. *)
Class ChromaServer {W} `{ChromaSdk W, UpsertLock W} (every others : relation Store) (view : W → Store)
    (storage : list spec_float → list spec_float) (K : StoreKind W) (got : chroma_collection → W → Prop) : Prop := {
  server_outside :: ChromaLaws every (λ _, True) view storage K got;
  server_inside :: ChromaLaws others (λ w, holds w = true) view storage K got;
  server_others s s' : others s s' → every s s';
  acquire_law w : wp acquire (λ r w', every (view w) (view w') ∧
    match r with Ok _ => holds w' = true | Err e => plain_error e end) w;
  release_law w : holds w = true → wp release (λ r w', r = Ok tt ∧ view w' = view w) w;
}.

(** ** The lock among the upserts of one client

    Why [others] has no upsert of the same client: every task that upserts takes the
    one [asyncio.Lock] of the client before it reads the old metadata and gives it back
    after it has written, or when it fails. *)
Inductive upsert_phase := UpsertWaits | UpsertReads | UpsertWrites | UpsertDone.
Record lock_state := mk_lock { lk_owner : option nat; lk_phase : gmap nat upsert_phase }.
Definition lock_free : lock_state := mk_lock None ∅.
Definition in_lock (p : upsert_phase) : bool := match p with UpsertReads | UpsertWrites => true | _ => false end.
Inductive upsert_step (s : lock_state) : lock_state → Prop :=
| upsert_arrives t : lk_phase s !! t = None → upsert_step s (mk_lock (lk_owner s) (<[t := UpsertWaits]> (lk_phase s)))
| upsert_acquires t : lk_phase s !! t = Some UpsertWaits → lk_owner s = None →
    upsert_step s (mk_lock (Some t) (<[t := UpsertReads]> (lk_phase s)))
| upsert_cancelled t : lk_phase s !! t = Some UpsertWaits → upsert_step s (mk_lock (lk_owner s) (<[t := UpsertDone]> (lk_phase s)))
| upsert_has_read t : lk_phase s !! t = Some UpsertReads → upsert_step s (mk_lock (lk_owner s) (<[t := UpsertWrites]> (lk_phase s)))
| upsert_leaves t p : lk_phase s !! t = Some p → in_lock p = true →
    upsert_step s (mk_lock None (<[t := UpsertDone]> (lk_phase s))).
Definition lock_inv (s : lock_state) : Prop :=
  ∀ t p, lk_phase s !! t = Some p → in_lock p = true → lk_owner s = Some t.
Lemma lock_inv_step s s' : lock_inv s → upsert_step s s' → lock_inv s'.
Proof.
  intros Hi Hs t p. destruct Hs as [t' Ht' | t' Ht' Ho | t' Ht' | t' Ht' | t' p' Ht' Hp']; cbn [lk_owner lk_phase];
    (destruct (decide (t' = t)) as [-> | Hn]; [rewrite lookup_insert_eq; intros [= <-] | rewrite lookup_insert_ne by done]);
    intros; try done; try (by eapply Hi).
  - exfalso. pose proof (Hi t p) as Hq. rewrite Ho in Hq. naive_solver.
  - exfalso. pose proof (Hi t p) as H1. pose proof (Hi t' p' Ht' Hp'). naive_solver.
Qed.
(** At most one upsert of the client is between its first read and its last write. *)
Lemma upserts_exclusive s t t' p p' : rtc upsert_step lock_free s →
  lk_phase s !! t = Some p → lk_phase s !! t' = Some p' → in_lock p = true → in_lock p' = true → t = t'.
Proof.
  intros Hr. assert (Hi : lock_inv s).
  { assert (H0 : lock_inv lock_free) by by intros ? ?. clear -Hr H0. induction Hr; eauto using lock_inv_step. }
  intros Hp Hp' Hin Hin'. pose proof (Hi _ _ Hp Hin). pose proof (Hi _ _ Hp' Hin'). congruence.
Qed.

(** ** Lemmas: metadata *)

Lemma merge_metadata_lookup old d k :
  merge_metadata old d !! k = if decide (k = record_metadata) then None else merge_value (old !! k) (dict_get d k).
Proof.
  unfold merge_metadata. case_decide as Hk; [subst; by rewrite lookup_delete_eq |].
  rewrite lookup_delete_ne by done. rewrite lookup_merge, meta_map_lookup. unfold diag_None.
  by destruct (old !! k), (dict_get d k) as [[] |].
Qed.

Lemma dict_get_none_keys ks k :
  dict_get (map (λ k, (k, VNone)) ks) k = if decide (k ∈ ks) then Some VNone else None.
Proof.
  induction ks as [| k' ks IH]; [done |]. cbn [map dict_get]. destruct (decide (k' = k)) as [-> | Hk].
  - by rewrite decide_True by set_solver.
  - rewrite IH. repeat case_decide; set_solver.
Qed.

Lemma replacement_get existing p k : dict_point p →
  dict_get (replacement_metadata existing p) k =
    match dict_get (vp_metadata p) k with
    | Some v => Some v
    | None =>
        if decide (k = record_metadata) then Some (VBool true)
        else if decide (k ∈ dict_keys (default [] (dict_get existing (vp_id p)))) then Some VNone else None
    end.
Proof.
  intros Hd. unfold replacement_metadata. rewrite dict_get_merge by by rewrite <- NoDup_ListNoDup.
  destruct (dict_get (vp_metadata p) k) as [v |] eqn:Hv; [done |].
  rewrite dict_get_merge by (constructor; [intros [] | constructor]). cbn [dict_get].
  case_decide as Hk; [subst; by rewrite decide_True |]. rewrite (decide_False _ _ (not_eq_sym Hk)).
  rewrite dict_get_none_keys. set (old := default [] (dict_get existing (vp_id p))).
  assert (Hin : k ∈ List.filter (λ k, negb (bool_decide (k ∈ dict_keys (vp_metadata p)))) (dict_keys old) ↔ k ∈ dict_keys old).
  { rewrite !list_elem_of_In, List.filter_In. split; [tauto |]. intros Ho. split; [done |].
    apply negb_true_iff, bool_decide_eq_false. intros [v Hkey]%dict_get_key. by rewrite Hkey in Hv. }
  repeat case_decide; tauto.
Qed.

(** The metadata after the merge are exactly the point's. *)
Lemma replacement_replaces existing p old : dict_point p → validate_metadata (vp_metadata p) = Ok tt →
  dom old ⊆ dom (meta_map (default [] (dict_get existing (vp_id p)))) →
  merge_metadata old (replacement_metadata existing p) = meta_map (vp_metadata p).
Proof.
  intros Hd Hm Hold. apply map_eq. intros k. rewrite merge_metadata_lookup, meta_map_lookup, replacement_get by done.
  assert (Hrec : ∀ v, (k, v) ∈ vp_metadata p → k ≠ record_metadata ∧ v ≠ VNone).
  { intros v Hin. apply all_ok_Forall in Hm. rewrite list.Forall_forall in Hm. specialize (Hm _ Hin).
    apply metadata_item_ok in Hm as (_ & _ & Hr & Hv). cbn [fst snd] in *.
    split; [intros ->; apply Hr; unfold reserved_metadata_keys, record_metadata; set_solver | by intros ->]. }
  destruct (dict_get (vp_metadata p) k) as [v |] eqn:Hv.
  - destruct (Hrec v) as [Hk Hn]; [by apply dict_get_elem |].
    rewrite decide_False by done. by destruct v.
  - case_decide as Hk; [done |]. set (c := default [] (dict_get existing (vp_id p))) in *.
    case_decide as Hin; [by destruct (old !! k) |]. cbn [merge_value]. apply not_elem_of_dom. intros Hdom.
    apply Hold, elem_of_dom in Hdom as [v Hc]. rewrite meta_map_lookup in Hc. by apply dict_get_in in Hc.
Qed.

Lemma clean_ok m st : metadata_as m st → ∃ c, clean_chroma_metadata m = Ok c ∧ meta_map c = st_metadata st.
Proof. destruct m; try done; intros Hm; eexists; (split; [done |]); [by rewrite Hm | done]. Qed.

Lemma existing_ok found : Forall (λ f, ∃ c, clean_chroma_metadata (fr_metadata f) = Ok c ∧ meta_map c = st_metadata (fr_stored f)) found →
  ∃ existing, existing_metadata (map fr_id found) (map fr_metadata found) = Ok existing ∧
    ∀ id, match dict_get existing id with
          | Some c => ∃ f, f ∈ found ∧ fr_id f = id ∧ meta_map c = st_metadata (fr_stored f)
          | None => id ∉ map fr_id found
          end.
Proof.
  intros Hf. unfold existing_metadata.
  assert (∃ cs, map_result clean_chroma_metadata (map fr_metadata found) = Ok cs ∧
    Forall2 (λ f c, meta_map c = st_metadata (fr_stored f)) found cs) as (cs & Hcs & Hall).
  { induction Hf as [| f found (c & Hc & Hm) Hf (cs & IH & Hall)]; [by exists [] |].
    exists (c :: cs). cbn [map map_result]. rewrite Hc, IH. split; [done | by constructor]. }
  rewrite Hcs. cbn [result_bind]. eexists. split; [done |]. intros id.
  pose proof (dict_of_items (zip (map fr_id found) cs) id) as Hd. destruct (dict_get _ id) as [c |].
  - apply list_elem_of_lookup in Hd as [i Hi]. apply lookup_zip_Some in Hi as [Hid Hc].
    apply list_lookup_fmap_Some in Hid as (f & -> & Hfi).
    exists f. split; [by eapply list_elem_of_lookup_2 |]. split; [done |].
    by eapply (Forall2_lookup_lr _ _ _ _ _ _ Hall).
  - change (map fst (zip (map fr_id found) cs)) with ((zip (map fr_id found) cs).*1) in Hd.
    rewrite fst_zip in Hd; [done |]. rewrite length_map. by rewrite (list.Forall2_length _ _ _ Hall).
Qed.

(** ** The driver keeps the contract *)

Lemma wp_finally {W A} (m : io W A) (f : io W unit) (Φ : result exn A → W → Prop) w :
  wp m (λ r w1, wp f (λ rf w2, Φ (match rf with Ok _ => r | Err e => Err e end) w2) w1) w → wp (finally m f) Φ w.
Proof. unfold wp, finally. destruct (m w) as [w1 r]. by destruct (f w1) as [w2 [[] | e]]. Qed.

Section Calls.
Context {W : Type} {SDK : ChromaSdk W} (R : relation Store) `{!PreOrder R} (during : W → Prop) (view : W → Store)
  (storage : list spec_float → list spec_float) (K : StoreKind W) (got : chroma_collection → W → Prop).
Context {L : ChromaLaws R during view storage K got}.
Abbreviation seen := (instant R view).
Abbreviation gone w w' name := (∃ s : Store, instant R view w w' s ∧ s !! name = None).

Definition converted (e : exn) : exn := if is_exception e then chroma_error e else e.

Lemma chroma_call_wp {A} (m : io W A) (Φ : result exn A → W → Prop) w :
  wp m (λ r w', match r with Ok a => Φ (Ok a) w' | Err e => Φ (Err (converted e)) w' end) w →
  wp (chroma_call m) Φ w.
Proof. intros Hm. apply wp_catch. eapply wp_mono; [exact Hm |]. by intros [a | e] w'. Qed.

Lemma converted_not_found e : converted e = VectorCollectionNotFoundError → is_exception e = true ∧ ch_not_found e = true.
Proof.
  unfold converted, chroma_error. destruct (is_exception e) eqn:He; [| by intros ->].
  repeat case_bool; try done.
Qed.
Lemma converted_conflict e : converted e = VectorCollectionConflictError →
  is_exception e = true ∧ ch_not_found e = false ∧ ch_unique_constraint e = true.
Proof.
  unfold converted, chroma_error. destruct (is_exception e) eqn:He; [| by intros ->].
  repeat case_bool; try done.
Qed.
Lemma missing_gone (P Q : Prop) e : missing_or P e Q → (converted e = VectorCollectionNotFoundError → P) ∧ Q.
Proof. intros [HP HQ]. split; [| done]. intros [H1 H2]%converted_not_found. auto. Qed.
(** An object that is lost: its collection went away since it was got. *)
Lemma lost_gone c (w0 w w' : W) (Q : Prop) e : missing_or (lost R view got c w w') e Q → got c w0 → R (view w0) (view w) →
  (converted e = VectorCollectionNotFoundError → gone w0 w' (ch_name c)) ∧ Q.
Proof. intros Hm Hg HR. apply missing_gone in Hm as [Hl HQ]. split; [| done]. intros He. by apply (Hl He). Qed.

Lemma require_wp {B} name (k : chroma_collection → io W B) (Φ : result exn B → W → Prop) w : during w →
  (∀ c w1, during w1 → ch_name c = name → got c w → R (view w) (view w1) →
    (∃ s col, seen w w1 s ∧ s !! name = Some col ∧ collection_shows (ch_metadata c) col) → wp (k c) Φ w1) →
  (∀ e w1, during w1 → (e = VectorCollectionNotFoundError → gone w w1 name) → R (view w) (view w1) → Φ (Err e) w1) →
  wp (let* c := chroma_require_collection name in k c) Φ w.
Proof.
  intros Hd Hok Herr. apply wp_bind, wp_bind_lift.
  - intros [] _. apply chroma_call_wp. eapply wp_mono; [by apply (ch_get_collection_law R during view storage K got) |].
    intros [c | e] w1 (Hd1 & HR & Hc); [destruct Hc as (Hn & Hg & Hs); by apply Hok |].
    apply missing_gone in Hc as [Hc _]. by apply Herr.
  - intros e He. apply Herr; [done | | done]. intros Hnf. exfalso. by destruct (name_plain name e He).
Qed.
End Calls.

Section Refinement.
Context {W : Type} {SDK : ChromaSdk W} {LK : UpsertLock W} (every others : relation Store) `{!PreOrder every, !PreOrder others}
  (view : W → Store) (storage : list spec_float → list spec_float) (got : chroma_collection → W → Prop)
  (search_lag : relation Store) (equal : pyval → pyval → bool).
(** A get is fresh, and an upsert replaces if nobody else adds keys to its points
    meanwhile. *)
Definition chroma_kind : StoreKind W :=
  mk_kind false false eq search_lag equal (λ _ _, None) (coordinated others).
Abbreviation K := chroma_kind.
Context {SRV : ChromaServer every others view storage K got}.
Abbreviation R := every.
Abbreviation always := (λ _ : W, True).
Abbreviation inside := (λ w : W, holds w = true).
Abbreviation seen := (instant every view).
Abbreviation gone w w' name := (∃ s : Store, instant every view w w' s ∧ s !! name = None).

Lemma chroma_has_ok name w : wp (chroma_has_collection name) (λ r w', raises_plain r ∧ has_outcome R view name r w w') w.
Proof.
  assert (Hnone : ∀ e w', plain_error e → R (view w) (view w') →
    raises_plain (Err (A := bool) e) ∧ has_outcome R view name (Err e) w w').
  { intros e w' He HR. split; [by apply plain_err |]. exists (view w'). by split; [apply instant_here |]. }
  apply wp_bind_lift; [| intros e He; apply Hnone; [by eapply name_plain | done]].
  intros [] _. apply wp_catch, wp_bind, chroma_call_wp. eapply wp_mono; [by apply (ch_get_collection_law every always view storage K got) |].
  intros [c | e] w' (_ & HR & Hc).
  - destruct Hc as (_ & _ & s & col & Hs & Hcol & _). split; [apply plain_ok |]. exists s. split; [done |].
    intros b [= <-]. symmetry. apply bool_decide_eq_true. by eexists.
  - apply missing_gone in Hc as [Hc Hu]. destruct (is_not_found (converted e)) eqn:Hn.
    + assert (converted e = VectorCollectionNotFoundError) as He by by destruct (converted e).
      destruct (Hc He) as (s & Hs & Hnone'). split; [apply plain_ok |]. exists s. split; [done |].
      intros b [= <-]. symmetry. apply bool_decide_eq_false. by rewrite Hnone'; intros [].
    + split; [| by exists (view w'); split; [apply instant_here |]]. apply plain_err. split; [by intros He; rewrite He in Hn |].
      intros (H1 & H2 & H3)%converted_conflict. by rewrite Hu in H3.
Qed.

Lemma chroma_create_ok spec w : VectorCollectionSpec_new spec = Ok spec →
  wp (chroma_create_collection spec) (λ r w', atomic_step R view w w' (create_outcome K spec r)) w.
Proof.
  intros Hspec. unfold VectorCollectionSpec_new in Hspec. rewrite result_bind_ok in Hspec.
  destruct Hspec as ([] & _ & Hspec). rewrite guard_bind_ok in Hspec. destruct Hspec as [Hdim _].
  destruct (is_int (cs_dimension spec)) as [n |] eqn:Hn; [clear Hdim | done].
  assert (Hnew : mk_collection (Some n) (Some (cs_metric spec)) ∅ = new_collection spec) by (unfold new_collection; by rewrite <- Hn).
  apply wp_bind. eapply wp_mono; [apply chroma_has_ok |]. intros [b | e] w1 [Hp (s & Hs & Hb)].
  2: { apply create_raised; [intros ->; by destruct (Hp _ eq_refl) | apply (half_step R view); by eapply instant_R]. }
  specialize (Hb b eq_refl). pose proof (instant_R _ _ _ _ _ Hs) as HR1. subst b. case_bool_decide as Hb.
  { apply wp_bind, wp_raise, create_raised; [by exists s | by apply (half_step R view)]. }
  apply wp_bind, wp_ret, chroma_call_wp. eapply wp_mono; [by apply (ch_create_law every always view storage K got) |].
  rewrite Hnew. intros [[] | e] w2 [_ Hstep].
  - by eapply (atomic_mono R view w w1 w2 w2).
  - destruct Hstep as [Hstep Hu]. apply create_raised.
    + intros (H1 & H2 & H3)%converted_conflict. destruct (Hu H1 H2 H3) as (s2 & Hs2 & Hsome). exists s2.
      split; [by eapply (instant_mono R view w w1 w2 w2) | done].
    + by eapply (atomic_mono R view w w1 w2 w2).
Qed.

Lemma metric_of_value_of m : metric_of_value (metric_value m) = Some m.
Proof. by destruct m; vm_compute. Qed.

Lemma chroma_describe_ok name w :
  wp (chroma_describe_collection name) (λ r w', describe_outcome R view name r w w') w.
Proof.
  apply (require_wp every always view storage K got); [done | | intros e w1 _ He HR; by apply describe_raised].
  intros c w1 _ Hname _ HR (s & col & Hs & Hcol & Hmd). apply wp_lift. unfold chroma_info.
  assert (Hplain : describe_outcome R view name (Err VectorOperationError) w w1) by by apply describe_raised.
  destruct (ch_metadata c) as [| | | | | | | | d |]; try exact Hplain. destruct Hmd as [Hdim Hmet].
  destruct (dict_get (text_items d) dimension_metadata ≫= is_int_instance) as [n |]; [| exact Hplain].
  destruct (dict_get (text_items d) metric_metadata) as [[| | | | | t | | | |] |]; try exact Hplain.
  cbn [mbind option_bind is_str] in Hmet. destruct (metric_of_value t) as [m |]; [| exact Hplain].
  split; [done |]. split; [done |]. by split; exists s, col.
Qed.

Lemma chroma_drop_ok name w :
  wp (chroma_drop_collection name) (λ r w', atomic_step R view w w' (drop_outcome name r)) w.
Proof.
  apply (require_wp every always view storage K got); [done | | intros e w1 _ He HR; by apply drop_raised; [| apply (no_step R view w w1 (delete name))]].
  intros c w1 _ _ _ HR _. apply chroma_call_wp. eapply wp_mono; [by apply (ch_drop_law every always view storage K got) |].
  intros [[] | e] w2 [_ Hd]; [by eapply (atomic_mono R view w w1 w2 w2) |].
  apply missing_gone in Hd as [Hg Hd]. apply drop_raised; [| by eapply (atomic_mono R view w w1 w2 w2)].
  intros He. destruct (Hg He) as (s & Hs & Hn). exists s. split; [by eapply (instant_mono R view w w1 w2 w2) | done].
Qed.

(** The items of a batch. *)
Definition item_of (existing : pydict (pydict pyval)) (p : VectorPoint) (i : upsert_item) : Prop :=
  ui_id i = vp_id p ∧ map_result float_of (vp_vector p) = Ok (ui_floats i) ∧ ui_metadata i = replacement_metadata existing p.

Lemma items_exist existing points : Forall (λ p, validate_point p = Ok tt) points →
  ∃ items, Forall2 (item_of existing) points items.
Proof.
  induction 1 as [| p points Hp Hall (l & IH)]; [by exists [] |]. unfold validate_point in Hp.
  rewrite result_bind_ok in Hp. destruct Hp as ([] & _ & Hp). rewrite result_bind_ok in Hp.
  destruct Hp as ([] & (fs & Hfs)%validate_vector_floats & _).
  exists (mk_item (vp_id p) fs (replacement_metadata existing p) :: l). by constructor.
Qed.

Lemma items_columns existing points items : Forall2 (item_of existing) points items →
  map ui_id items = map vp_id points ∧ map ui_metadata items = map (replacement_metadata existing) points ∧
  Forall2 (λ v i, map_result float_of v = Ok (ui_floats i)) (map vp_vector points) items.
Proof.
  induction 1 as [| p i points items (H1 & H2 & H3) Hall (IH1 & IH2 & IH3)]; [by split_and! |].
  cbn [map]. split_and!; [congruence.. | by constructor].
Qed.

(** What an item stores, whatever keys the old metadata still have: the point itself. *)
Definition stored_point (i : upsert_item) (p : VectorPoint) : pystr * Stored :=
  (ui_id i, mk_stored (storage (ui_floats i)) (meta_map (vp_metadata p))).
(** The keys the point was known to have. *)
Definition known (existing : pydict (pydict pyval)) (id : pystr) : gset pystr := dom (meta_map (default [] (dict_get existing id))).

Lemma merges_puts (coll : pystr) existing (ids : list pystr) points items (s s' : Store) :
  coordinated others coll ids → merges others storage coll items s s' → Forall2 (item_of existing) points items →
  Forall dict_point points → Forall (λ p, validate_point p = Ok tt) points → base.NoDup (map ui_id items) →
  (∀ id, id ∈ map ui_id items → id ∈ ids) →
  (∀ id, id ∈ map ui_id items → dom (old_metadata s coll id) ⊆ known existing id) →
  puts every K coll (zip_with stored_point items points) s s'.
Proof.
  intros Hcoord Hm. revert points. induction Hm as [s s' HR | i l s s1 s' HR Hc Hm IH]; intros points Hitems Hd Hv Hnd Hids Hs.
  { apply puts_nil. by apply server_others. }
  apply Forall2_cons_inv_r in Hitems as (p & ps & (H1 & H2 & H3) & Hitems & ->).
  apply list.Forall_cons in Hd as [Hdp Hd], Hv as [Hvp Hv]. cbn [map zip_with] in *. apply list.NoDup_cons in Hnd as [Hni Hnd].
  assert (Hkeys : ∀ id, id ∈ ui_id i :: map ui_id l → dom (old_metadata s1 coll id) ⊆ known existing id).
  { intros id Hid. etrans; [apply (Hcoord s s1 id HR); by apply Hids | by apply Hs]. }
  assert (Hmerge : merge_metadata (old_metadata s1 coll (ui_id i)) (ui_metadata i) = meta_map (vp_metadata p)).
  { rewrite H3. apply replacement_replaces; [done | | rewrite <- H1; apply Hkeys; left].
    unfold validate_point in Hvp. rewrite result_bind_ok in Hvp. destruct Hvp as ([] & _ & Hvp).
    rewrite result_bind_ok in Hvp. by destruct Hvp as ([] & _ & ?). }
  rewrite Hmerge in *. unfold stored_point at 1. eapply puts_cons; [by apply server_others | done |].
  apply IH; try done; [intros id Hid; apply Hids; by right |]. intros id Hid.
  assert (old_metadata (store_put coll (ui_id i) (mk_stored (storage (ui_floats i)) (meta_map (vp_metadata p))) s1) coll id = old_metadata s1 coll id) as ->.
  { unfold old_metadata. rewrite store_find_put by done. rewrite decide_False; [done |]. intros [_ He]. apply Hni. by rewrite <- He. }
  apply Hkeys. by right.
Qed.

Lemma point_items existing points items : Forall2 (item_of existing) points items →
  Forall2 (point_put storage) points (zip_with stored_point items points).
Proof.
  induction 1 as [| p i points items (H1 & H2 & H3) Hall IH]; [constructor |]. cbn [zip_with].
  constructor; [split; [done | by exists (ui_floats i)] | done].
Qed.

Lemma replacement_not_empty existing p : dict_point p → replacement_metadata existing p ≠ [].
Proof.
  intros Hd He. pose proof (replacement_get existing p record_metadata Hd) as Hg. rewrite He in Hg.
  by destruct (dict_get (vp_metadata p) record_metadata).
Qed.

Lemma items_not_empty existing points items : Forall2 (item_of existing) points items → Forall dict_point points →
  Forall (λ i, ui_metadata i ≠ []) items.
Proof.
  induction 1 as [| p i points items (_ & _ & Hi) Hall IH]; intros Hd; [constructor |].
  apply list.Forall_cons in Hd as [Hp Hd]. constructor; [rewrite Hi; by apply replacement_not_empty | by apply IH].
Qed.

Lemma found_columns found :
  map_result text_of (map (λ f, VStr (fr_id f)) found) = Ok (map fr_id found).
Proof. induction found as [| f found IH]; [done |]. cbn [map map_result text_of result_bind]. by rewrite IH. Qed.

(** The answer of [get] tells the keys every point of the batch can have. *)
Lemma answer_metadatas (coll : pystr) points answer found (w w' : W) : coordinated others coll (map vp_id points) →
  dict_get answer (u "ids") = Some (VList (map (λ f, VStr (fr_id f)) found)) →
  dict_get answer (u "metadatas") = Some (VList (map fr_metadata found)) →
  Forall (λ f, metadata_as (fr_metadata f) (fr_stored f) ∧
    ∃ s, instant others view w w' s ∧ store_find s coll (fr_id f) = Some (fr_stored f)) found →
  (∀ id, id ∈ map vp_id points → id ∈ map fr_id found ∨ ∃ s, instant others view w w' s ∧ store_find s coll id = None) →
  ∃ existing, replacement_metadatas answer points = Ok (map (replacement_metadata existing) points) ∧
    ∀ id, id ∈ map vp_id points → dom (old_metadata (view w') coll id) ⊆ known existing id.
Proof.
  intros Hcoord Hids Hmd Hfound Hall. destruct (existing_ok found) as (existing & Hex & Hget).
  { eapply list.Forall_impl; [exact Hfound |]. intros f [Hm _]. by apply clean_ok. }
  exists existing. unfold replacement_metadatas. rewrite Hids, Hmd. cbn [chroma_sequence result_bind].
  rewrite !length_map, bool_decide_true by done. cbn [guard result_bind]. rewrite found_columns. cbn [result_bind].
  rewrite Hex. split; [done |]. intros id Hid. specialize (Hget id). unfold known.
  destruct (dict_get existing id) as [c |].
  - destruct Hget as (f & Hf & Hfid & Hc). rewrite list.Forall_forall in Hfound.
    destruct (Hfound f Hf) as (_ & s & [_ Hs] & Hfind). etrans; [by apply (Hcoord _ _ _ Hs) |].
    cbn [default from_option Datatypes.id]. rewrite Hc. unfold old_metadata. by rewrite <- Hfid, Hfind.
  - destruct (Hall id) as [Hin | (s & [_ Hs] & Hfind)]; [done | done |].
    etrans; [by apply (Hcoord _ _ _ Hs) |]. unfold old_metadata. rewrite Hfind. cbn. set_solver.
Qed.

Lemma merges_written (coll : pystr) existing (ids : list pystr) (points : list VectorPoint) (items : list upsert_item) (s0 s s' : Store) :
  coordinated others coll ids → every s0 s → merges others storage coll items s s' → Forall2 (item_of existing) points items →
  Forall dict_point points → Forall (λ p, validate_point p = Ok tt) points → base.NoDup (map vp_id points) →
  (∀ id, id ∈ map vp_id points → id ∈ ids ∧ dom (old_metadata s coll id) ⊆ known existing id) →
  written every storage K coll points s0 s'.
Proof.
  intros Hcoord HR Hm Hitems Hd Hv Hnd Hold. destruct (items_columns _ _ _ Hitems) as (Hids & _ & _).
  exists (zip_with stored_point items points). split; [by eapply point_items |]. eapply (puts_before every K); [exact HR |].
  eapply merges_puts; try done; [by rewrite Hids | |]; rewrite Hids; intros id Hid; by apply Hold.
Qed.

Lemma copied points : Forall (λ p, validate_point p = Ok tt) points → map_result VectorPoint_new points = Ok points.
Proof.
  induction 1 as [| p points Hp Hall IH]; [done |]. cbn [map_result]. unfold VectorPoint_new at 1. by rewrite Hp, IH.
Qed.

(** The part of an upsert under the lock. *)
Lemma upsert_body coll points w0 w : Forall dict_point points → coordinated others coll (map vp_id points) →
  validate_points points = Ok tt → every (view w0) (view w) → holds w = true →
  wp (let* target := chroma_require_collection coll in
      let* answer := chroma_call (ch_get target (map vp_id points) false) in
      let* metadatas := lift (replacement_metadatas answer points) in
      chroma_call (ch_upsert target (map vp_id points) (map vp_vector points) metadatas))
    (λ r w', holds w' = true ∧ upsert_outcome every view storage K coll points r w0 w') w.
Proof.
  intros Hdict Hcoord Hv H0 Hheld. pose proof Hv as [Hall Hnd]%validate_points_ok.
  assert (Hweak : ∀ w1 w2, others (view w1) (view w2) → every (view w1) (view w2)) by (intros w1 w2; apply server_others).
  assert (Hin : ∀ w1 w2 name, (∃ s, instant others view w1 w2 s ∧ s !! name = None) → every (view w0) (view w1) → gone w0 w2 name).
  { intros w1 w2 name (s & [H1 H2] & Hs) HR. exists s. split; [| done]. split; [etrans; [exact HR |]; by apply server_others | by apply server_others]. }
  assert (Hstop : ∀ e w', (e = VectorCollectionNotFoundError → gone w0 w' coll) → every (view w0) (view w') →
    upsert_outcome every view storage K coll points (Err e) w0 w').
  { intros e w' He HR. apply upsert_raised; [done | by apply nothing_written]. }
  apply (require_wp others inside view storage K got); [done | | intros e w1 Hh He HR; split; [done |]; apply Hstop; [intros Hn; eapply Hin; eauto | etrans; eauto]].
  intros c w1 Hh1 Hname Hgot HR1 _. rewrite <- Hname in *. apply wp_bind, chroma_call_wp.
  eapply wp_mono; [by apply (ch_get_law others inside view storage K got) |]. intros [answer | e] w2 (Hh2 & HR2 & Hget).
  2: { apply (lost_gone others view got c w) in Hget as [Hg _]; [| done | done]. split; [done |].
       apply Hstop; [intros He; eapply Hin; eauto | etrans; [exact H0 |]; etrans; eauto]. }
  destruct Hget as (found & Hids & Hmd & _ & Hfound & Hmiss).
  destruct (answer_metadatas (ch_name c) points answer found w1 w2 Hcoord Hids Hmd Hfound Hmiss) as (existing & -> & Hold).
  apply wp_bind, wp_lift, chroma_call_wp. destruct (items_exist existing points Hall) as (items & Hitems).
  destruct (items_columns _ _ _ Hitems) as (Hi & <- & Hvec). assert (HR : every (view w0) (view w2)) by (etrans; [exact H0 |]; etrans; eauto).
  rewrite <- Hi at 1. eapply wp_mono; [apply (ch_upsert_law others inside view storage K got); [done | exact Hvec | by eapply items_not_empty] |].
  intros [[] | e] w3 [Hh3 Hm]; (split; [done |]).
  - split; [done |]. eapply merges_written; eauto.
  - apply (lost_gone others view got c w) in Hm as [Hg (l & Hl & Hm)]; [| done | by etrans]. apply upsert_raised; [intros He; eapply Hin; eauto |].
    destruct (sublist_Forall2 _ _ _ _ Hl Hitems) as (qs & Hqs & Hqi). exists qs. split; [by apply sublist_submseteq |].
    assert (Hq : ∀ q, q ∈ qs → q ∈ points) by (intros q Hq; by eapply elem_of_sublist).
    assert (Hqid : ∀ id, id ∈ map vp_id qs → id ∈ map vp_id points) by (intros id Hid; by eapply elem_of_sublist, sublist_map).
    eapply merges_written; eauto using Forall_within. by eapply sublist_NoDup; [| apply sublist_map].
Qed.

Lemma chroma_upsert_ok coll points w : Forall dict_point points → coordinated others coll (map vp_id points) →
  wp (chroma_upsert coll points) (λ r w', upsert_outcome every view storage K coll points r w w') w.
Proof.
  intros Hdict Hcoord. assert (Hstop : ∀ e w', plain_error e → every (view w) (view w') →
    upsert_outcome every view storage K coll points (Err e) w w').
  { intros e w' [He _] HR. apply upsert_raised; [done | by apply nothing_written]. }
  apply validations; [by apply name_plain | intros _ | intros e He; by apply Hstop].
  apply validations; [by apply points_plain | intros Hv | intros e He; by apply Hstop].
  pose proof Hv as [Hall Hnd]%validate_points_ok.
  destruct points as [| p points]; [apply wp_ret; split; [done |]; exists []; split; [done | by constructor] |].
  set (ps := p :: points) in *. rewrite (copied ps Hall). apply wp_bind, wp_lift, wp_bind.
  eapply wp_mono; [apply acquire_law |]. intros [[] | e] w1 [HR1 Hheld]; [| by apply Hstop].
  apply wp_finally. eapply wp_mono; [by apply (upsert_body coll ps w w1) |]. intros r w2 [Hh Hout].
  eapply wp_mono; [by apply release_law |]. intros rf w3 [-> Hview].
  unfold upsert_outcome, written, instant in *. by rewrite Hview.
Qed.

Lemma float_values fs : map_result (λ v, let? f := float_of v in Ok (VFloat f)) (map VFloat fs) = Ok (map VFloat fs).
Proof. induction fs as [| f fs IH]; [done |]. cbn [map map_result]. by rewrite IH. Qed.

Lemma written_points i found metadatas points : (∀ j f, found !! j = Some f → nth_metadata metadatas (i + j) = fr_metadata f) →
  Forall (λ f, metadata_as (fr_metadata f) (fr_stored f)) found →
  chroma_points_from i (zip (map (λ f, VStr (fr_id f)) found)
    (map (λ f, VList (map VFloat (st_vector (fr_stored f)))) found)) metadatas = Ok points →
  Forall2 (λ f p, vp_id p = fr_id f ∧ point_as p (fr_stored f)) found points.
Proof.
  revert i points. induction found as [| f found IH]; intros i points Hmd Hall; [intros [= <-]; constructor |].
  apply list.Forall_cons in Hall as [Hf Hall]. destruct (clean_ok _ _ Hf) as (c & Hc & Hst).
  cbn [map zip zip_with chroma_points_from text_of result_bind]. rewrite float_values. cbn [result_bind].
  rewrite <- (Nat.add_0_r i) at 1. rewrite (Hmd 0 f eq_refl), Hc. cbn [result_bind]. rewrite result_bind_ok.
  intros (p & Hp & Hr). rewrite result_bind_ok in Hr. destruct Hr as (rest & Hrest & [= <-]).
  unfold VectorPoint_new in Hp. rewrite result_bind_ok in Hp. destruct Hp as ([] & _ & [= <-]). constructor.
  - split; [done |]. split; [apply float_vector_of | done].
  - apply (IH (S i)); [| done | done]. intros j g Hg. specialize (Hmd (S j) g Hg). by rewrite Nat.add_succ_r in Hmd.
Qed.

Lemma points_plain_error answer : raises_plain (chroma_points answer).
Proof.
  assert (Hfrom : ∀ l i metadatas, raises_plain (chroma_points_from i l metadatas)).
  { induction l as [| [id e] l IH]; intros i metadatas; cbn [chroma_points_from]; [apply plain_ok |].
    unfold text_of, clean_chroma_metadata. plain_tac. }
  unfold chroma_points, chroma_sequence, guard. plain_tac; auto.
Qed.

Lemma chroma_get_ok coll ids w :
  wp (chroma_get coll ids) (λ r w', get_outcome R view K coll ids r w w') w.
Proof.
  assert (Hstop : ∀ e w', (e = VectorCollectionNotFoundError → gone w w' coll) → R (view w) (view w') →
    get_outcome R view K coll ids (Err e) w w') by (intros e w' He HR; by apply get_raised).
  apply validations; [by apply name_plain | intros _ | intros e [He _]; by apply Hstop].
  apply validations; [by apply ids_plain | intros Hv | intros e [He _]; by apply Hstop].
  destruct ids as [| id ids]; [apply wp_ret; split; [done |]; exists []; split; [done | set_solver] |].
  set (is_ := id :: ids) in *. apply (require_wp every always view storage K got); [done | | by intros e w1 _; apply Hstop].
  intros c w1 _ Hname Hgot HR1 _. rewrite <- Hname in *. apply wp_bind, chroma_call_wp. eapply wp_mono; [by apply (ch_get_law every always view storage K got) |].
  intros [answer | e] w2 (_ & HR2 & Hget).
  2: { apply (lost_gone every view got c w) in Hget as [Hg _]; [| done | done]. apply Hstop; [done | by etrans]. }
  destruct Hget as (found & Hids & Hmd & Hem & Hfound & Hmiss). assert (HR : R (view w) (view w2)) by by etrans.
  apply wp_bind_lift; [| intros e He; apply Hstop; [by destruct (points_plain_error answer e He) | done]].
  intros points Hpoints. apply wp_ret. unfold chroma_points in Hpoints. rewrite Hids, Hmd, (Hem eq_refl) in Hpoints.
  cbn [chroma_sequence result_bind] in Hpoints. rewrite guard_bind_ok in Hpoints. destruct Hpoints as [_ Hpoints].
  apply written_points in Hpoints.
  - assert (Hshown : ∀ s, instant every view w1 w2 s → shown every view (sk_get_lag K) w w2 s).
    { intros s Hs. exists s. split; [by eapply (instant_mono every view w w1 w2 w2) | done]. }
    eapply (got_points every view K _ _ (map found_entry found)); [done | by apply Forall2_fmap_l | | ].
    + apply Forall_fmap. eapply list.Forall_impl; [exact Hfound |]. intros f (_ & s & Hs & Hf). exists s. split; [by apply Hshown | done].
    + rewrite map_map. intros i Hi. destruct (Hmiss i Hi) as [? | (s & Hs & Hf)]; [by left | right]. exists s. split; [by apply Hshown | done].
  - intros j f Hj. unfold nth_metadata. cbn [Nat.add]. change (map fr_metadata found) with (fr_metadata <$> found).
    by rewrite list_lookup_fmap, Hj.
  - eapply list.Forall_impl; [exact Hfound | by intros f []].
Qed.

Lemma chroma_delete_ok coll ids w :
  wp (chroma_delete coll ids) (λ r w', delete_outcome R view coll ids r w w') w.
Proof.
  assert (Hstop : ∀ e w', (e = VectorCollectionNotFoundError → gone w w' coll) → R (view w) (view w') →
    delete_outcome R view coll ids (Err e) w w').
  { intros e w' He HR. apply delete_raised; [done | by apply nothing_removed]. }
  apply validations; [by apply name_plain | intros _ | intros e [He _]; by apply Hstop].
  apply validations; [by apply ids_plain | intros Hv | intros e [He _]; by apply Hstop].
  destruct ids as [| id ids]; [apply wp_ret; by constructor |].
  set (is_ := id :: ids) in *. apply (require_wp every always view storage K got); [done | | by intros e w1 _; apply Hstop].
  intros c w1 _ Hname Hgot HR1 _. rewrite <- Hname in *. apply chroma_call_wp. eapply wp_mono; [by apply (ch_delete_law every always view storage K got) |]. intros [[] | e] w2 [_ Hp].
  - by eapply removed_before.
  - apply (lost_gone every view got c w) in Hp as [Hg (dropped & Hs & Hp)]; [| done | done]. apply delete_raised; [done |].
    exists dropped. split; [by apply sublist_submseteq | by eapply removed_before].
Qed.

Lemma chroma_matches_of i (found : list (found_record * spec_float)) metadatas :
  (∀ j f, found !! j = Some f → nth_metadata metadatas (i + j) = fr_metadata f.1) →
  Forall (λ f, metadata_as (fr_metadata f.1) (fr_stored f.1)) found →
  ∃ ms, chroma_matches_from i (zip (map (λ f, VStr (fr_id f.1)) found) (map (λ f, VFloat f.2) found)) metadatas = Ok ms ∧
    Forall2 (λ (f : found_record * spec_float) x, vm_id x = fr_id f.1 ∧ vm_score x = SFopp f.2 ∧ meta_map (vm_metadata x) = st_metadata (fr_stored f.1)) found ms.
Proof.
  revert i. induction found as [| f found IH]; intros i Hmd Hall; [by exists [] |].
  apply list.Forall_cons in Hall as [Hf Hall]. destruct (clean_ok _ _ Hf) as (c & Hc & Hst).
  destruct (IH (Datatypes.S i)) as (ms & Hms & Hsame); [| done |].
  { intros j g Hg. specialize (Hmd (Datatypes.S j) g Hg). by rewrite Nat.add_succ_r in Hmd. }
  assert (nth_metadata metadatas i = fr_metadata f.1) as Hm0 by (rewrite <- (Hmd 0 f eq_refl); by rewrite Nat.add_0_r).
  cbn [map zip zip_with chroma_matches_from text_of result_bind guard float_of]. rewrite Hm0, Hc. cbn [result_bind]. fold (zip (map (λ f, VStr (fr_id f.1)) found) (map (λ f, VFloat f.2) found)).
  rewrite Hms. eexists. split; [done |]. by constructor.
Qed.

Lemma chroma_search_ok coll vector limit filters w :
  wp (chroma_search coll vector limit filters) (λ r w', search_outcome every view K coll vector limit filters r w w') w.
Proof.
  assert (Hstop : ∀ e w', plain_error e → every (view w) (view w') → search_outcome every view K coll vector limit filters (Err e) w w')
    by (intros e w' [He _] HR; by apply search_raised).
  apply validations; [by apply name_plain | intros Hvname | intros e He; by apply Hstop].
  apply validations; [by apply vector_plain | intros Hvector | intros e He; by apply Hstop].
  apply validations; [apply plain_guard | intros Hlimit | intros e He; by apply Hstop].
  apply validations; [destruct filters; [by apply metadata_plain | apply plain_ok] | intros Hfilters | intros e He; by apply Hstop].
  apply (require_wp every always view storage K got); [done | | intros e w1 _ He HR; by apply search_raised].
  intros c w1 _ Hname Hgot HR1 _. rewrite <- Hname in *. apply wp_bind, chroma_call_wp.
  eapply wp_mono; [by apply (ch_query_law every always view storage K got) |]. intros [answer | e] w2 (_ & HR2 & Hq).
  2: { apply (lost_gone every view got c w) in Hq as [Hg _]; [| done | done]. apply search_raised; [done | by etrans]. }
  destruct Hq as (found & (r1 & Hids) & (r2 & Hdist) & (r3 & Hmd) & Hlen & Horder & Hfound).
  assert (HR : every (view w) (view w2)) by by etrans. apply wp_lift.
  destruct (chroma_matches_of 0 found (map (λ f, fr_metadata f.1) found)) as (ms & Hms & Hsame).
  { intros j f Hj. unfold nth_metadata. cbn [Nat.add]. change (map (λ f, fr_metadata f.1) found) with ((λ f, fr_metadata f.1) <$> found).
    by rewrite list_lookup_fmap, Hj. }
  { eapply list.Forall_impl; [exact Hfound | by intros f []]. }
  unfold chroma_matches, first_sequence. rewrite Hids, Hdist, Hmd. cbn [chroma_sequence result_bind].
  rewrite !length_map, bool_decide_true by done. cbn [guard result_bind]. rewrite Hms.
  destruct (limit_ok _ Hlimit) as (n & Hn & Hrange). rewrite Hn in *. cbn [default from_option Datatypes.id] in *.
  split; [done |]. split; [done |]. split; [done |]. split; [done |]. split.
  { exists n. split; [done |]. split; [done |]. by rewrite <- (list.Forall2_length _ _ _ Hsame). }
  split.
  - apply list.Forall_forall. intros x (i & Hx)%list_elem_of_lookup. destruct (Forall2_lookup_r _ _ _ _ _ Hsame Hx) as (f & Hf & Hid & _ & Hm).
    rewrite list.Forall_forall in Hfound. destruct (Hfound f) as (_ & Hcond & s & Hs & Hst); [by eapply list_elem_of_lookup_2 |].
    exists s, (fr_stored f.1). split; [by eapply (shown_mono every view) |]. rewrite Hid, Hm. split; [done |]. split; [done |].
    by apply chroma_filter_meets.
  - intros _. assert (map vm_score ms = map SFopp (map snd found)) as ->; [| by apply nearest_best].
    clear -Hsame. induction Hsame as [| f x found ms (_ & Hs & _) _ IH]; [done |]. cbn [map]. by rewrite Hs, IH.
Qed.

Lemma chroma_ping_ok w : wp chroma_ping (λ _ w', every (view w) (view w')) w.
Proof.
  apply wp_bind, chroma_call_wp. eapply wp_mono; [by apply (ch_heartbeat_law every always view storage K got) |].
  by intros [v | e] w' [_ HR].
Qed.
Lemma chroma_close_ok w : wp chroma_aclose (λ _ w', every (view w) (view w')) w.
Proof.
  unfold chroma_aclose. destruct ch_local; [| by apply wp_ret]. destruct ch_close as [close |] eqn:Hc; [| by apply wp_ret].
  apply wp_catch. eapply wp_mono; [by apply (ch_close_law every always view storage K got) |]. by intros [v | e] w' [_ HR].
Qed.

(** C33: the Chroma driver keeps the same contract.  Chroma merges metadata key by key,
    so the driver reads the old keys and sends deletions for them; it does both under
    the client's lock.  If nobody outside the client adds metadata keys to the points of
    the batch between the two ([coordinated]; other collections, other points, deletions
    and the client's own upserts are free), an upsert replaces the metadata.  Every
    operation takes effect as the contract says, a collection is reported missing only
    when it was, and a search is validated, returns at most [limit] points, each of which
    meets every filter, best first. *)
Theorem chroma_keeps_contract : VectorClientLaws every view storage chroma_kind (H := chroma_client).
Proof.
  split; [apply chroma_create_ok | | apply chroma_describe_ok | apply chroma_drop_ok
         | intros coll points w Hd Ha; by apply chroma_upsert_ok | apply chroma_get_ok
         | apply chroma_delete_ok | apply chroma_search_ok | apply chroma_ping_ok | apply chroma_close_ok].
  intros name w. eapply wp_mono; [apply chroma_has_ok | by intros ? ? []].
Qed.
End Refinement.

(** ** An in-memory server, for concrete runs: one client, nothing fails *)
Record ChromaWorld := mk_cworld { cw_store : Store; cw_locked : bool }.
Definition cmem_read {A} (f : Store → result exn A) : io ChromaWorld A := λ w, (w, f (cw_store w)).
Definition cmem_write (f : Store → result exn Store) : io ChromaWorld unit :=
  λ w, match f (cw_store w) with Ok s' => (mk_cworld s' (cw_locked w), Ok tt) | Err e => (w, Err e) end.
Definition sdk_failure : exn := OtherException 7.
Definition missing_collection : exn := OtherException 8.
Definition unique_collection : exn := OtherException 9.
Definition collection_object (name : pystr) (c : Collection) : chroma_collection :=
  mk_chroma name (VDict
    (match co_dimension c with Some n => [(VStr dimension_metadata, VInt n)] | None => [] end ++
     match co_metric c with Some m => [(VStr metric_metadata, VStr (metric_value m))] | None => [] end)).
(** The metadata as Chroma gives them back, the driver's marker among them. *)
Definition metadata_of (st : Stored) : pyval :=
  VDict ((VStr record_metadata, VBool true) :: map (λ kv, (VStr kv.1, kv.2)) (map_to_list (st_metadata st))).
Fixpoint cmem_put (coll : pystr) (ids : list pystr) (vectors : list (list spec_float)) (metadatas : list (pydict pyval))
    (s : Store) : Store :=
  match ids, vectors, metadatas with
  | id :: ids, v :: vectors, m :: metadatas =>
      cmem_put coll ids vectors metadatas (store_put coll id (mk_stored v (merge_metadata (old_metadata s coll id) m)) s)
  | _, _, _ => s
  end.
Definition stored_records (s : Store) (coll : pystr) (ids : list pystr) : list (pystr * Stored) :=
  omap (λ id, pair id <$> store_find s coll id) ids.
Definition with_collection {A} (s : Store) (coll : pystr) (r : result exn A) : result exn A :=
  match s !! coll with Some _ => r | None => Err missing_collection end.
Definition unmarked (st : Stored) : bool := bool_decide (st_metadata st !! record_metadata = None).

(** This server finds all points equally far, and compares texts only. *)
Definition text_equal (a b : pyval) : bool := match a, b with VStr s, VStr t => bool_decide (s = t) | _, _ => false end.
Definition cmem_found (s : Store) (coll : pystr) (condition : pyval) (n : Z) : list (pystr * Stored) :=
  firstn (Z.to_nat n) (List.filter (λ e, unmarked e.2 && where_holds text_equal (st_metadata e.2) condition)
    (match s !! coll with Some c => map_to_list (co_points c) | None => [] end)).

#[export] Instance cmem_sdk : ChromaSdk ChromaWorld := {|
  ch_heartbeat := ret tt;
  ch_create_collection name space metadata := cmem_write (λ s,
    match s !! name, dict_get metadata dimension_metadata ≫= is_int, dict_get metadata metric_metadata with
    | Some _, _, _ => Err unique_collection
    | None, Some n, Some (VStr t) => Ok (<[name := mk_collection (Some n) (metric_of_value t) ∅]> s)
    | _, _, _ => Err sdk_failure
    end);
  ch_get_collection name := cmem_read (λ s,
    match s !! name with Some c => Ok (collection_object name c) | None => Err missing_collection end);
  ch_delete_collection name := cmem_write (λ s, with_collection s name (Ok (delete name s)));
  ch_upsert c ids embeddings metadatas := cmem_write (λ s, with_collection s (ch_name c)
    (let? vectors := map_result (map_result float_of) embeddings in
     Ok (cmem_put (ch_name c) ids vectors metadatas s)));
  ch_get c ids embeddings := cmem_read (λ s, with_collection s (ch_name c)
    (let found := stored_records s (ch_name c) ids in
     let? _ := guard (forallb (λ e, unmarked e.2) found) sdk_failure in
     Ok ([(u "ids", VList (map (λ e, VStr e.1) found));
          (u "metadatas", VList (map (λ e, metadata_of e.2) found))] ++
         (if embeddings then [(u "embeddings", VList (map (λ e, VList (map VFloat (st_vector e.2))) found))] else []))));
  ch_delete c ids := cmem_write (λ s, with_collection s (ch_name c)
    (Ok (fold_left (λ s id, store_remove (ch_name c) id s) ids s)));
  ch_query c _ n condition := cmem_read (λ s, with_collection s (ch_name c)
    (let? _ := guard (0 <=? n)%Z sdk_failure in
     let found := cmem_found s (ch_name c) condition n in
     Ok [(u "ids", VList [VList (map (λ e, VStr e.1) found)]);
         (u "distances", VList [VList (map (λ _, VFloat (S754_zero false)) found)]);
         (u "metadatas", VList [VList (map (λ e, metadata_of e.2) found)])]));
  ch_local := true;
  ch_close := Some (ret tt);
  ch_not_found e := match e with OtherException 8 => true | _ => false end;
  ch_unique_constraint e := match e with OtherException 9 => true | _ => false end;
  ch_unreachable _ := false;
|}.

(** One task: the lock is free whenever it asks for it. *)
#[export] Instance cmem_lock : UpsertLock ChromaWorld := {|
  acquire w := if cw_locked w then (w, Err sdk_failure) else (mk_cworld (cw_store w) true, Ok tt);
  release w := (mk_cworld (cw_store w) false, Ok tt);
  holds := cw_locked;
|}.
Definition cmem_kind : StoreKind ChromaWorld := chroma_kind eq eq text_equal.

Lemma text_items_texts (d : pydict pyval) : text_items (map (λ kv, (VStr kv.1, kv.2)) d) = d.
Proof. induction d as [| [k v] d IH]; [done |]. cbn. by rewrite <- IH at 2. Qed.

Lemma metadata_of_as st : unmarked st = true → metadata_as (metadata_of st) st.
Proof.
  unfold unmarked. intros Hst%bool_decide_eq_true. unfold metadata_as, metadata_of. apply map_eq. intros k.
  rewrite meta_map_lookup. change (text_items ((?k, ?v) :: ?d)) with ((record_metadata, v) :: text_items d).
  rewrite text_items_texts.
  pose proof (dict_get_filter (λ k, negb (bool_decide (k = record_metadata)))
    ((record_metadata, VBool true) :: map_to_list (st_metadata st)) k) as Hf. cbv beta in Hf. rewrite Hf.
  case_bool_decide as Hk; [by subst |]. cbn [negb dict_get]. rewrite decide_False by auto.
  rewrite <- meta_map_lookup. unfold meta_map. by rewrite list_to_map_to_list.
Qed.

Lemma store_put_some (coll : pystr) id st (s : Store) : is_Some (s !! coll) → is_Some (store_put coll id st s !! coll).
Proof. intros [c Hc]. unfold store_put. rewrite lookup_alter_eq, Hc. by eexists. Qed.

Lemma cmem_put_merges (coll : pystr) embeddings (items : list upsert_item) (s : Store) :
  Forall2 (λ v i, map_result float_of v = Ok (ui_floats i)) embeddings items → is_Some (s !! coll) →
  map_result (map_result float_of) embeddings = Ok (map ui_floats items) ∧
  merges eq Datatypes.id coll items s (cmem_put coll (map ui_id items) (map ui_floats items) (map ui_metadata items) s).
Proof.
  intros Hall. revert s. induction Hall as [| v i embeddings items Hv Hall IH]; intros s Hs; [by split; [| constructor] |].
  destruct (IH (store_put coll (ui_id i) (mk_stored (ui_floats i) (merge_metadata (old_metadata s coll (ui_id i)) (ui_metadata i))) s)) as [Hm Hmerge]; [by apply store_put_some |].
  cbn [map map_result cmem_put]. rewrite Hv, Hm. split; [done |]. econstructor; [done | done | exact Hmerge].
Qed.

Lemma cmem_records (s : Store) (coll : pystr) (ids : list pystr) (e : pystr * Stored) :
  e ∈ stored_records s coll ids ↔ e.1 ∈ ids ∧ store_find s coll e.1 = Some e.2.
Proof.
  unfold stored_records. rewrite list_elem_of_omap. destruct e as [id st]. split.
  - intros (i & Hi & He). destruct (store_find s coll i) eqn:Hf; by simplify_eq/=.
  - intros [Hi Hf]. cbn in *. exists id. by rewrite Hf.
Qed.

Lemma cmem_ids (s : Store) (coll : pystr) (ids : list pystr) id : id ∈ ids →
  id ∈ map fst (stored_records s coll ids) ∨ store_find s coll id = None.
Proof.
  intros Hid. destruct (store_find s coll id) as [st |] eqn:Hf; [left | by right].
  apply (list_elem_of_fmap_2 fst _ (id, st)). by apply cmem_records.
Qed.

Lemma cmem_found_ok (s : Store) coll condition n e : e ∈ cmem_found s coll condition n →
  store_find s coll e.1 = Some e.2 ∧ unmarked e.2 = true ∧ where_holds text_equal (st_metadata e.2) condition = true.
Proof.
  unfold cmem_found. set (l := List.filter _ _). intros He. assert (He' : e ∈ l).
  { rewrite <- (firstn_skipn (Z.to_nat n) l). apply elem_of_app. by left. }
  apply list_elem_of_In, filter_In in He' as [Hin [Hu Hw]%andb_true_iff]. split; [| done]. apply list_elem_of_In in Hin.
  unfold store_find. destruct (s !! coll) as [c |]; [| by apply not_elem_of_nil in Hin]. destruct e. by apply elem_of_map_to_list in Hin.
Qed.
Lemma same_distances {A} (l : list A) : nearest_first (map (λ _, S754_zero false) l).
Proof. induction l as [| a l IH]; constructor; [done |]. apply Forall_map, list.Forall_forall. by intros. Qed.
Lemma object_shows name c : collection_shows (ch_metadata (collection_object name c)) c.
Proof. destruct c as [[n |] [m |] pts]; (split; [by vm_compute |]); try (by vm_compute); by destruct m; vm_compute. Qed.

Lemma cmem_query_law (during : ChromaWorld → Prop) c vector n condition w : during w →
  wp (ch_query c vector n condition) (λ r w', during w' ∧ cw_store w = cw_store w' ∧
    match r with
    | Ok answer => ∃ found : list (found_record * spec_float),
        first_row answer (u "ids") (map (λ f, VStr (fr_id f.1)) found) ∧
        first_row answer (u "distances") (map (λ f, VFloat f.2) found) ∧
        first_row answer (u "metadatas") (map (λ f, fr_metadata f.1) found) ∧
        (Z.of_nat (length found) <= n)%Z ∧ nearest_first (map snd found) ∧
        Forall (λ f, metadata_as (fr_metadata f.1) (fr_stored f.1) ∧
          where_holds text_equal (st_metadata (fr_stored f.1)) condition = true ∧
          ∃ s, shown eq cw_store eq w w' s ∧ store_find s (ch_name c) (fr_id f.1) = Some (fr_stored f.1)) found
    | Err e => missing_or (lost eq cw_store (λ _ _, True) c w w') e True
    end) w.
Proof.
  intros Hd. cbn [ch_query cmem_sdk]. unfold cmem_read, with_collection, wp.
  destruct (cw_store w !! ch_name c) as [col |] eqn:Hc.
  2: { split_and!; [done.. |]. split; [| done]. intros _ _ w0 _ Hw. exists (cw_store w). split; [by split | done]. }
  destruct (0 <=? n)%Z eqn:Hn; cbn [guard result_bind]; (split; [done |]); (split; [done |]); [| by split].
  set (l := cmem_found (cw_store w) (ch_name c) condition n).
  exists (map (λ e, (mk_found e.1 (metadata_of e.2) e.2, S754_zero false)) l). unfold first_row. rewrite !map_map. cbn [fst snd fr_id fr_metadata fr_stored].
  split; [by eexists |]. split; [by eexists |]. split; [by eexists |]. split_and!.
  - subst l. unfold cmem_found. rewrite length_map, length_take. apply Z.leb_le in Hn. lia.
  - apply same_distances.
  - apply Forall_fmap, list.Forall_forall. intros e (Hf & Hu & Hw)%cmem_found_ok. cbn. split; [by apply metadata_of_as |].
    split; [done |]. exists (cw_store w). split; [by exists (cw_store w) | done].
Qed.

Lemma cmem_laws (during : ChromaWorld → Prop) : (∀ w s, during w → during (mk_cworld s (cw_locked w))) →
  ChromaLaws eq during cw_store Datatypes.id cmem_kind (λ _ _, True).
Proof.
  intros Hkeep.
  assert (Hlost : ∀ c w w' (Q : Prop), cw_store w !! ch_name c = None → cw_store w' = cw_store w → Q →
    missing_or (lost eq cw_store (λ _ _, True) c w w') missing_collection Q).
  { intros c w w' Q Hn Hs HQ. split; [| done]. intros _ _ w0 _ Hw. exists (cw_store w). split; [split; congruence | done]. }
  split; cbn [ch_heartbeat ch_create_collection ch_get_collection ch_delete_collection ch_upsert ch_get ch_delete ch_close
    ch_not_found ch_unique_constraint cmem_sdk]; unfold cmem_read, cmem_write, with_collection, wp.
  - intros name d n m w Hd Hn. destruct (cw_store w !! name) as [c |] eqn:Hc.
    + split; [done |]. split; [exists (cw_store w), (cw_store w); split_and!; [done | by left | done] |].
      intros _ _ _. exists (cw_store w). by rewrite Hc.
    + destruct d; try done. injection Hn as ->. cbn [dict_get]. rewrite decide_True by done. cbn [mbind option_bind is_int].
      rewrite decide_False by by vm_compute. rewrite decide_True, metric_of_value_of by done. split; [by apply Hkeep |].
      exists (cw_store w), (<[name:=mk_collection (Some n) (Some m) ∅]> (cw_store w)). split_and!; [done | by left | done].
  - intros name w Hd. destruct (cw_store w !! name) as [c |] eqn:Hc; (split; [done |]); (split; [done |]).
    + split; [done |]. split; [done |]. exists (cw_store w), c. split; [by split |]. split; [done | apply object_shows].
    + split; [| done]. intros _ _. exists (cw_store w). by split.
  - intros name w Hd. destruct (cw_store w !! name) as [c |] eqn:Hc.
    + split; [by apply Hkeep |]. by exists (cw_store w), (delete name (cw_store w)).
    + split; [done |]. split; [| exists (cw_store w), (cw_store w); auto]. intros _ _. exists (cw_store w). by split.
  - intros c embeddings items w Hd Hall _. destruct (cw_store w !! ch_name c) as [col |] eqn:Hc.
    + destruct (cmem_put_merges (ch_name c) embeddings items (cw_store w) Hall) as [-> Hm]; [by rewrite Hc |].
      cbn [result_bind]. split; [by apply Hkeep | exact Hm].
    + split; [done |]. apply Hlost; [done.. |]. exists []. split; [apply sublist_nil_l | by constructor].
  - intros c ids embeddings w Hd. destruct (cw_store w !! ch_name c) as [col |] eqn:Hc; [| split; [done |]; split; [done |]; by apply Hlost].
    destruct (forallb _ _) eqn:Hu; cbn [guard result_bind]; (split; [done |]); (split; [done |]); [| by split].
    set (l := stored_records (cw_store w) (ch_name c) ids) in *. rewrite forallb_forall in Hu.
    exists (map (λ e, mk_found e.1 (metadata_of e.2) e.2) l). rewrite !map_map. cbn [fr_id fr_metadata fr_stored].
    split_and!; [done | done | by intros -> | |].
    + apply Forall_fmap, list.Forall_forall. intros e He. cbn. split; [by apply metadata_of_as, Hu, list_elem_of_In |].
      exists (cw_store w). split; [by split |]. by apply cmem_records in He as [_ ?].
    + intros id Hid. destruct (cmem_ids (cw_store w) (ch_name c) ids id Hid); [by left | right; by exists (cw_store w)].
  - intros c ids w Hd. destruct (cw_store w !! ch_name c) as [col |] eqn:Hc; [split; [by apply Hkeep | apply fold_removed] |].
    split; [done |]. apply Hlost; [done.. |]. exists []. split; [apply sublist_nil_l | by constructor].
  - exact (cmem_query_law during).
  - by intros w Hd.
  - by intros close w [= <-] Hd.
Qed.

#[export] Instance cmem_server : ChromaServer eq eq cw_store Datatypes.id cmem_kind (λ _ _, True).
Proof.
  split; [by apply cmem_laws | by apply cmem_laws | done | |]; unfold wp; cbn.
  - intros w. by destruct (cw_locked w).
  - by intros w.
Qed.

Definition demo_docs : ChromaWorld := mk_cworld {[ u "docs" := mk_collection (Some 1%Z) (Some COSINE) ∅ ]} false.
Definition demo_old : VectorPoint := mk_point (u "a") [VInt 1] [(u "lang", VStr (u "en")); (u "year", VInt 1999)].
Definition demo_new : VectorPoint := mk_point (u "a") [VInt 2] [(u "lang", VStr (u "fr"))].

(** An upsert over an older point replaces its metadata, and gives the lock back. *)
Lemma chroma_keeps_contract_witness :
  VectorClientLaws eq cw_store Datatypes.id cmem_kind (H := chroma_client)
  ∧ (let* _ := chroma_upsert (u "docs") [demo_old] in
     let* _ := chroma_upsert (u "docs") [demo_new] in
     let* got := chroma_get (u "docs") [u "a"] in
     let* found := chroma_search (u "docs") [VInt 1] (VInt 3) (Some [(u "lang", VStr (u "fr"))]) in
     ret (got, found)) demo_docs =
    (mk_cworld {[ u "docs" := mk_collection (Some 1%Z) (Some COSINE)
        {[ u "a" := mk_stored [binary_normalize 53 1024 2 0 false] {[ u "lang" := VStr (u "fr") ]} ]} ]} false,
     Ok ([mk_point (u "a") [VFloat (binary_normalize 53 1024 2 0 false)] [(u "lang", VStr (u "fr"))]],
         [mk_match (u "a") (S754_zero true) [(u "lang", VStr (u "fr"))]])).
Proof.
  split; [exact (chroma_keeps_contract eq eq cw_store Datatypes.id (λ _ _, True) eq text_equal (SRV := cmem_server)) |].
  by vm_compute.
Defined.
