(* ===== verification/VectorElastic.v ===== *)
(** * VectorElastic: the Elasticsearch driver

    Models [infrastructure/vector/drivers/elasticsearch.py]: the client, the
    conversion of exceptions and the reading of responses, of the per-document
    results of Bulk and Multi Get above all.  The SDK is the class
    [ElasticSdk]; [ElasticLaws] states what the driver relies on.  Elasticsearch
    makes an ordinary index when a Bulk request writes to one that is gone, unless it
    is told otherwise, and shows what was written to a search some time later; both
    are in the laws.  What others do covers the requests the transport repeats.
    Making the client from its settings is in VectorBackends. *)

From Stdlib Require Import Floats.SpecFloat.
From S2P Require Import Prelude Text PyVal Errors Decimal Json VectorModels.
Local Open Scope prog_scope.
#[local] Remove Hints finite.finite_countable : typeclass_instances.

(** ** The SDK *)

(** What a call returns: an [ObjectApiResponse] with a body, or a plain value. *)
Inductive es_response := ApiResponse (body : pyval) | Plain (value : pyval).

(** The lines of a Bulk request. *)
Inductive bulk_op := BulkIndex (index id : pystr) (vector : list pyval) (metadata : pydict pyval) | BulkDelete (index id : pystr).

Record knn_query := mk_knn {
  kq_query_vector : list pyval; kq_k : Z; kq_num_candidates : Z;
  kq_filter : option (list (pystr * pyval));            (* term queries: field and value *)
}.

Class ElasticSdk (W : Type) := {
  es_ping : io W pyval;
  es_create : pystr → pyval → pystr → io W unit;        (* index, dims and similarity of the mapping *)
  es_exists : pystr → io W bool;
  es_get_mapping : pystr → io W es_response;
  es_delete_index : pystr → io W unit;
  es_bulk : list bulk_op → io W es_response;            (* refresh="wait_for" *)
  es_mget : pystr → list pystr → io W es_response;
  es_search : pystr → knn_query → Z → io W es_response; (* size; source without the vector *)
  es_close : io W unit;
  es_not_found : exn → bool;                            (* isinstance(error, NotFoundError) *)
  es_conflict : exn → bool;
  es_unreachable : exn → bool;                          (* elastic_transport.ConnectionError *)
  es_api_error : exn → bool;
}.

(** [_METRICS] and its inverse *)
Definition es_metric (m : VectorMetric) : pystr :=
  match m with COSINE => u "cosine" | DOT_PRODUCT => u "max_inner_product" | L2 => u "l2_norm" end.
Definition metric_of_es (t : pystr) : option VectorMetric :=
  if bool_decide (t = u "cosine") then Some COSINE
  else if bool_decide (t = u "max_inner_product") then Some DOT_PRODUCT
  else if bool_decide (t = u "l2_norm") then Some L2 else None.

(** ** Responses *)

Definition is_mapping (v : pyval) : option (pydict pyval) := match v with VDict d => Some (text_items d) | _ => None end.
(** [isinstance(v, Sequence)], with its elements. *)
Definition es_sequence (v : pyval) : option (list pyval) :=
  match v with
  | VList l | VTuple l => Some l
  | VStr s => Some (map (λ c, VStr [c]) s)
  | VBytes b => Some (map (λ x, VInt (Z.of_N (byte_N x))) b)
  | _ => None
  end.
Definition or_invalid {A} (o : option A) : result exn A := match o with Some a => Ok a | None => Err VectorOperationError end.

(** [_response_mapping] *)
Definition response_mapping (r : es_response) : result exn (pydict pyval) :=
  match r with Plain v => or_invalid (is_mapping v) | ApiResponse body => or_invalid (is_mapping body) end.

(** [v[key]] on a value that may be no mapping. *)
Definition py_item (v : option pyval) (key : pystr) : option pyval :=
  match v with Some (VDict d) => dict_get (text_items d) key | _ => None end.

(** [_is_found] *)
Definition is_found (document : pyval) : result exn bool :=
  let? d := or_invalid (is_mapping document) in
  match dict_get d (u "error"), dict_get d (u "found") with
  | None, Some (VBool found) => Ok found
  | _, _ => Err VectorOperationError
  end.

(** [_elasticsearch_point] *)
Definition elasticsearch_point (document : pyval) : result exn VectorPoint :=
  let? d := or_invalid (is_mapping document) in
  let? id := or_invalid (dict_get d (u "_id") ≫= is_str) in
  let? source := or_invalid (dict_get d (u "_source") ≫= is_mapping) in
  let? values := or_invalid (dict_get source (u "vector") ≫= es_sequence) in
  let? metadata := or_invalid (is_mapping (default (VDict []) (dict_get source (u "metadata")))) in
  let? vector := map_result (λ v, let? f := float_of v in Ok (VFloat f)) values in
  VectorPoint_new (mk_point id vector metadata).

(** The documents found, one after the other. *)
Fixpoint found_points (documents : list pyval) : result exn (list VectorPoint) :=
  match documents with
  | [] => Ok []
  | document :: documents =>
      let? found := is_found document in
      if (found : bool) then
        let? point := elasticsearch_point document in
        let? rest := found_points documents in Ok (point :: rest)
      else found_points documents
  end.

(** [_elasticsearch_matches] *)
Definition elasticsearch_match (hit : pyval) : result exn VectorMatch :=
  let? d := or_invalid (is_mapping hit) in
  let? id := or_invalid (dict_get d (u "_id") ≫= is_str) in
  let? _ := guard (match dict_get d (u "_score") with Some (VInt _ | VFloat _ | VBool _) => true | _ => false end) VectorOperationError in
  let? source := or_invalid (is_mapping (default (VDict []) (dict_get d (u "_source")))) in
  let? metadata := or_invalid (is_mapping (default (VDict []) (dict_get source (u "metadata")))) in
  let? score := float_of (default VNone (dict_get d (u "_score"))) in
  Ok (mk_match id score metadata).
Definition elasticsearch_matches (response : pydict pyval) : result exn (list VectorMatch) :=
  let? hits := or_invalid (py_item (dict_get response (u "hits")) (u "hits") ≫= es_sequence) in
  map_result elasticsearch_match hits.

(** [_raise_bulk_failures]: [next(iter(item.values()))] is the first value. *)
Definition bulk_status (item : pyval) : option Z :=
  match item with
  | VDict ((_, VDict r) :: _) => dict_get (text_items r) (u "status") ≫= is_int_instance
  | _ => None
  end.
Definition accepted (ignored_statuses : list Z) (status : Z) : bool :=
  (status <? 300)%Z || bool_decide (status ∈ ignored_statuses).
Definition raise_bulk_failures (response : pydict pyval) (ignored_statuses : list Z) : result exn unit :=
  let? items := or_invalid (dict_get response (u "items") ≫= es_sequence) in
  all_ok (λ item, guard (match bulk_status item with Some status => accepted ignored_statuses status | None => false end)
    VectorOperationError) items.

(** ** ElasticsearchVectorClient *)
Section Client.
Context {W : Type} `{ElasticSdk W}.

(** [_call]: an exception of none of the four classes is left as it is. *)
Definition es_converted (e : exn) : exn :=
  if es_not_found e then VectorCollectionNotFoundError
  else if es_conflict e then VectorCollectionConflictError
  else if es_unreachable e then VectorConnectionError
  else if es_api_error e then VectorOperationError
  else e.
Definition es_call {A} (m : io W A) : io W A := catch m (λ e, raise (es_converted e)).

Definition elastic_ping : io W bool :=
  let* answer := catch es_ping (λ e, raise (if es_unreachable e then VectorConnectionError else e)) in
  ret (truth answer).

Definition is_collection_missing (e : exn) : bool := match e with VectorCollectionNotFoundError => true | _ => false end.
Definition elastic_has_collection (name : pystr) : io W bool :=
  lift (validate_collection_name name);;;
  catch (es_call (es_exists name)) (λ e, if is_collection_missing e then ret false else raise e).
Definition elastic_require_collection (name : pystr) : io W unit :=
  let* exists_ := elastic_has_collection name in
  if negb exists_ then raise VectorCollectionNotFoundError else ret tt.

(** Its [except VectorCollectionConflictError] raises the same class again. *)
Definition elastic_create_collection (spec : VectorCollectionSpec) : io W unit :=
  let* exists_ := elastic_has_collection (cs_name spec) in
  (if (exists_ : bool) then raise VectorCollectionConflictError else ret tt);;;
  es_call (es_create (cs_name spec) (cs_dimension spec) (es_metric (cs_metric spec))).

Definition elastic_info (name : pystr) (mapping : pydict pyval) : result exn VectorCollectionInfo :=
  let? vector_mapping := or_invalid (py_item (py_item (py_item (dict_get mapping name) (u "mappings")) (u "properties")) (u "vector")) in
  let? d := or_invalid (is_mapping vector_mapping) in
  let? dimension := or_invalid (dict_get d (u "dims") ≫= is_int_instance) in
  let? metric := or_invalid ((dict_get d (u "similarity") ≫= is_str) ≫= metric_of_es) in
  Ok (mk_info name dimension metric).
Definition elastic_describe_collection (name : pystr) : io W VectorCollectionInfo :=
  elastic_require_collection name;;;
  let* response := es_call (es_get_mapping name) in
  let* mapping := lift (response_mapping response) in
  lift (elastic_info name mapping).

Definition elastic_delete_collection (name : pystr) : io W unit :=
  elastic_require_collection name;;;
  es_call (es_delete_index name).

Definition index_op (collection : pystr) (p : VectorPoint) : bulk_op :=
  BulkIndex collection (vp_id p) (vp_vector p) (vp_metadata p).
Definition elastic_upsert (collection : pystr) (points : list VectorPoint) : io W unit :=
  lift (validate_collection_name collection);;;
  lift (validate_points points);;;
  match points with
  | [] => ret tt
  | _ =>
      elastic_require_collection collection;;;
      let* response := es_call (es_bulk (map (index_op collection) points)) in
      let* body := lift (response_mapping response) in
      lift (raise_bulk_failures body [])
  end.

Definition elastic_get (collection : pystr) (ids : list pystr) : io W (list VectorPoint) :=
  lift (validate_collection_name collection);;;
  lift (validate_ids ids);;;
  match ids with
  | [] => ret []
  | _ =>
      elastic_require_collection collection;;;
      let* response := es_call (es_mget collection ids) in
      let* body := lift (response_mapping response) in
      let* documents := lift (or_invalid (dict_get body (u "docs") ≫= es_sequence)) in
      let* points := lift (found_points documents) in
      ret (in_order ids (points_by_id points))
  end.

Definition elastic_delete (collection : pystr) (ids : list pystr) : io W unit :=
  lift (validate_collection_name collection);;;
  lift (validate_ids ids);;;
  match ids with
  | [] => ret tt
  | _ =>
      elastic_require_collection collection;;;
      let* response := es_call (es_bulk (map (BulkDelete collection) ids)) in
      let* body := lift (response_mapping response) in
      lift (raise_bulk_failures body [404%Z])
  end.

Definition term_query (item : pystr * pyval) : pystr * pyval := (u "metadata." ++ item.1, item.2).
Definition elastic_query (vector : list pyval) (limit : Z) (filters : option (pydict pyval)) : knn_query :=
  mk_knn vector limit (Z.min (Z.max (limit * 10) 100) 10000)
    (match filters with None | Some [] => None | Some items => Some (map term_query items) end).
Definition elastic_search (collection : pystr) (vector : list pyval) (limit : pyval) (filters : option (pydict pyval))
    : io W (list VectorMatch) :=
  lift (validate_collection_name collection);;;
  lift (validate_query_vector vector);;;
  lift (validate_limit limit);;;
  lift (validate_filters filters);;;
  elastic_require_collection collection;;;
  let k := default 0%Z (is_int limit) in
  let* response := es_call (es_search collection (elastic_query vector k filters) k) in
  let* body := lift (response_mapping response) in
  lift (elasticsearch_matches body).

Definition elastic_aclose : io W unit := es_close.

#[export] Instance elastic_client : VectorClient W := {|
  create_collection := elastic_create_collection;
  has_collection := elastic_has_collection;
  describe_collection := elastic_describe_collection;
  delete_collection := elastic_delete_collection;
  upsert := elastic_upsert;
  vget := elastic_get;
  vdelete := elastic_delete;
  vsearch := elastic_search;
  vping := elastic_ping;
  vaclose := elastic_aclose;
|}.
End Client.

(** ** Filters: what the term queries mean *)

(** A term query on a key of [metadata], the values compared as the field's type
    has it: a flattened field keeps every value as a keyword, so that numbers and
    texts that read the same are not told apart. *)
Definition term_holds (equal : pyval → pyval → bool) (metadata : gmap pystr pyval) (q : pystr * pyval) : bool :=
  match strip_prefix (u "metadata.") q.1 with
  | Some key => match metadata !! key with Some x => equal x q.2 | None => false end
  | None => false
  end.
(** The terms of the query hold of just the points that meet the filters. *)
Lemma elastic_terms {W} (K : StoreKind W) metadata vector limit (filters : option (pydict pyval)) :
  forallb (term_holds (sk_equal K) metadata) (default [] (kq_filter (elastic_query vector limit filters))) = true ↔
    meets K filters metadata.
Proof.
  assert (Hall : ∀ items, forallb (term_holds (sk_equal K) metadata) (map term_query items) = true ↔ meets K (Some items) metadata).
  { induction items as [| i items IH]; [split; [constructor | done] |]. cbn [map forallb]. rewrite andb_true_iff, IH.
    assert (Hc : meets K (Some (i :: items)) metadata ↔ (∃ x, metadata !! i.1 = Some x ∧ sk_equal K x i.2 = true) ∧ meets K (Some items) metadata)
      by exact (list.Forall_cons (λ item, ∃ x, metadata !! item.1 = Some x ∧ sk_equal K x item.2 = true) i items).
    rewrite Hc. apply and_iff_compat_r.
    change (term_holds (sk_equal K) metadata (term_query i))
      with (match metadata !! i.1 with Some x => sk_equal K x i.2 | None => false end).
    destruct (metadata !! i.1) as [x |]; [split; [by exists x | by intros (? & [= ->] & ?)] | by split; [| intros (? & ? & ?)]]. }
  destruct filters as [[| i items] |]; [apply (Hall []) | apply Hall | apply (Hall [])].
Qed.

(** ** What the driver relies on *)

Section Laws.
Context {W : Type} `{ElasticSdk W}.
Context (R : relation Store) (view : W → Store) (storage : list spec_float → list spec_float) (K : StoreKind W).
Abbreviation gone w w' name := (∃ s : Store, instant R view w w' s ∧ s !! name = None).

(** A call raised [e]: a missing index was missing, and the SDK does not raise
    the exceptions of this program. *)
Definition es_raised (missing : Prop) (e : exn) (other : Prop) : Prop :=
  (es_not_found e = true → missing) ∧ plain_error e ∧ other.

(** A body with its field. *)
Definition body_has (r : es_response) (key : pystr) (v : pyval) : Prop :=
  ∃ d, response_mapping r = Ok d ∧ dict_get d key = Some v.

(** The items of a Bulk answer, each with its status. *)
Definition bulk_answer (r : es_response) (statuses : list Z) : Prop :=
  ∃ items, body_has r (u "items") (VList items) ∧ Forall2 (λ item z, bulk_status item = Some z) items statuses.
(** Deletions: done, not there, or failed. *)
Inductive bulk_deletes (coll : pystr) : list (pystr * Z) → Store → Store → Prop :=
| bulk_deleted_nil s s' : R s s' → bulk_deletes coll [] s s'
| bulk_deleted_one id z l s s1 s' : R s s1 → bulk_deletes coll l (store_remove coll id s1) s' →
    bulk_deletes coll ((id, z) :: l) s s'
| bulk_deleted_missing id l s s1 s' : R s s1 → store_find s1 coll id = None → bulk_deletes coll l s1 s' →
    bulk_deletes coll ((id, 404%Z) :: l) s s'
| bulk_deleted_failed id z l s s' : (300 <= z)%Z → z ≠ 404%Z → bulk_deletes coll l s s' → bulk_deletes coll ((id, z) :: l) s s'.

(** The metadata in the source of a document; none is the empty one. *)
Definition source_metadata (source : list (pyval * pyval)) (st : Stored) : Prop :=
  ∃ metadata, is_mapping (default (VDict []) (dict_get (text_items source) (u "metadata"))) = Some metadata
    ∧ meta_map metadata = st_metadata st.
(** One document of a Multi Get answer; one that others wrote may have no vector. *)
Inductive mget_document (coll : pystr) (w w' : W) (id : pystr) (document : pyval) : Prop :=
| document_found d source vector st s :
    is_mapping document = Some d → dict_get d (u "error") = None → dict_get d (u "found") = Some (VBool true) →
    dict_get d (u "_id") = Some (VStr id) → dict_get d (u "_source") = Some (VDict source) →
    dict_get (text_items source) (u "vector") = Some (VList vector) → source_metadata source st →
    map_result float_of vector = Ok (st_vector st) →
    shown R view (sk_get_lag K) w w' s → store_find s coll id = Some st → mget_document coll w w' id document
| document_missing s :
    is_found document = Ok false → shown R view (sk_get_lag K) w w' s → store_find s coll id = None → mget_document coll w w' id document
| document_failed e : found_points [document] = Err e → mget_document coll w w' id document.

(** What the mapping of an index tells of its vectors. *)
Definition mapping_shows (name : pystr) (body : pydict pyval) (c : Collection) : Prop :=
  let field key := py_item (py_item (py_item (py_item (dict_get body name) (u "mappings")) (u "properties")) (u "vector")) key in
  (field (u "dims") ≫= is_int_instance) = co_dimension c ∧ ((field (u "similarity") ≫= is_str) ≫= metric_of_es) = co_metric c.

(** A hit of a search. *)
Definition es_hit_as (hit : pyval) (id : pystr) (score : spec_float) (st : Stored) : Prop :=
  ∃ d source, is_mapping hit = Some d ∧ dict_get d (u "_id") = Some (VStr id) ∧ dict_get d (u "_score") = Some (VFloat score) ∧
    dict_get d (u "_source") = Some (VDict source) ∧ source_metadata source st.

Class ElasticLaws : Prop := {
  es_create_law name d n m w : is_int d = Some n →
    wp (es_create name d (es_metric m)) (λ r w',
      match r with
      | Ok _ => atomic_step R view w w' (created K name (mk_collection (Some n) (Some m) ∅))
      | Err e => es_raised True e (atomic_step R view w w' (half_created name)) ∧
          (es_conflict e = true → ∃ s, instant R view w w' s ∧ is_Some (s !! name))
      end) w;
  es_exists_law name w :
    wp (es_exists name) (λ r w', R (view w) (view w') ∧
      match r with
      | Ok b => ∃ s, instant R view w w' s ∧ b = bool_decide (is_Some (s !! name))
      | Err e => es_raised (gone w w' name) e (es_conflict e = false)
      end) w;
  es_get_mapping_law name w :
    wp (es_get_mapping name) (λ r w', R (view w) (view w') ∧
      match r with
      | Ok resp => ∃ s c body, instant R view w w' s ∧ s !! name = Some c ∧ response_mapping resp = Ok body ∧ mapping_shows name body c
      | Err e => es_raised (gone w w' name) e True
      end) w;
  es_delete_index_law name w :
    wp (es_delete_index name) (λ r w',
      match r with
      | Ok _ => atomic_step R view w w' (λ s s', s' = delete name s)
      | Err e => es_raised (gone w w' name) e (atomic_step R view w w' (λ s s', s' = s ∨ s' = delete name s))
      end) w;
  (** The points with a status below 300 were written, in the order of the batch;
      one whose item failed may have been. *)
  es_bulk_index_law coll points w : Forall (λ p, validate_point p = Ok tt) points →
    wp (es_bulk (map (index_op coll) points)) (λ r w',
      match r with
      | Ok resp => ∃ statuses, length statuses = length points ∧ bulk_answer resp statuses ∧
          ∃ ps, sublist (map fst (List.filter (λ e, (e.2 <? 300)%Z) (zip points statuses))) ps ∧ sublist ps points ∧
            written R storage K coll ps (view w) (view w')
      | Err e => es_raised (gone w w' coll) e (∃ ps, sublist ps points ∧ written R storage K coll ps (view w) (view w'))
      end) w;
  es_bulk_delete_law coll ids w :
    wp (es_bulk (map (BulkDelete coll) ids)) (λ r w',
      match r with
      | Ok resp => ∃ statuses, length statuses = length ids ∧ bulk_answer resp statuses ∧
          bulk_deletes coll (zip ids statuses) (view w) (view w')
      | Err e => es_raised (gone w w' coll) e (∃ dropped, sublist dropped ids ∧ removed R coll dropped (view w) (view w'))
      end) w;
  es_mget_law coll ids w :
    wp (es_mget coll ids) (λ r w', R (view w) (view w') ∧
      match r with
      | Ok resp => ∃ documents, body_has resp (u "docs") (VList documents) ∧ Forall2 (mget_document coll w w') ids documents
      | Err e => es_raised (gone w w' coll) e True
      end) w;
  (** At most [size] hits, each of which the terms of the query hold of, best first. *)
  es_search_law coll query size w :
    wp (es_search coll query size) (λ r w', R (view w) (view w') ∧
      match r with
      | Ok resp => ∃ body hits (found : list (pystr * spec_float * Stored)),
          response_mapping resp = Ok body ∧ py_item (dict_get body (u "hits")) (u "hits") = Some (VList hits) ∧
          Forall2 (λ hit f, es_hit_as hit f.1.1 f.1.2 f.2) hits found ∧ (Z.of_nat (length found) <= size)%Z ∧
          Forall (λ f, (∃ s, shown R view (sk_search_lag K) w w' s ∧ store_find s coll f.1.1 = Some f.2) ∧
            forallb (term_holds (sk_equal K) (st_metadata f.2)) (default [] (kq_filter query)) = true) found ∧
          best_first (map (λ f, f.1.2) found)
      | Err e => es_raised (gone w w' coll) e True
      end) w;
  es_ping_law w : wp es_ping (λ _ w', R (view w) (view w')) w;
  es_close_law w : wp es_close (λ _ w', R (view w) (view w')) w;
}.
End Laws.

(** ** The driver keeps the contract *)

Lemma response_plain r : raises_plain (response_mapping r).
Proof. destruct r; cbn; unfold or_invalid; plain_tac. Qed.
Lemma or_invalid_plain {A} (o : option A) : raises_plain (or_invalid o).
Proof. unfold or_invalid. plain_tac. Qed.
Lemma bulk_failures_plain response ignored : raises_plain (raise_bulk_failures response ignored).
Proof. unfold raise_bulk_failures, or_invalid, guard. plain_tac. Qed.
Lemma found_points_plain documents : raises_plain (found_points documents).
Proof.
  induction documents as [| d l IH]; cbn [found_points]; [apply plain_ok |].
  unfold is_found, elasticsearch_point, or_invalid. plain_tac.
Qed.

Lemma bulk_accepted r body ignored statuses : bulk_answer r statuses → response_mapping r = Ok body →
  raise_bulk_failures body ignored = if forallb (accepted ignored) statuses then Ok tt else Err VectorOperationError.
Proof.
  intros (items & (d & Hd & Hi) & Hall) Hb. assert (d = body) as -> by congruence.
  unfold raise_bulk_failures. rewrite Hi. cbn [mbind option_bind es_sequence or_invalid result_bind]. clear Hi.
  induction Hall as [| item z items statuses Hz Hall IH]; [done |].
  unfold all_ok in *. cbn [map_result forallb]. rewrite Hz. unfold guard at 1.
  destruct (accepted ignored z); [| done]. cbn [result_bind andb]. destruct (map_result _ items); cbn in *; by destruct (forallb _ _).
Qed.

Lemma is_mapping_elim v d : is_mapping v = Some d → ∃ items, v = VDict items ∧ d = text_items items.
Proof. destruct v; try done. intros [= <-]. eauto. Qed.

(** A point read from a document has the numbers and the metadata of it. *)
Lemma point_of_document coll (W : Type) R (view : W → Store) (K : StoreKind W) w w' id document p :
  mget_document R view K coll w w' id document → is_found document = Ok true → elasticsearch_point document = Ok p →
  ∃ st s, vp_id p = id ∧ point_as p st ∧ shown R view (sk_get_lag K) w w' s ∧ store_find s coll id = Some st.
Proof.
  intros [d source vector st s Hm He Hf Hi Hs Hv (metadata & Hmd & Hmeta) Hfl Hins Hfind | s Hnf | e Hnf] Hfound Hp; [| congruence |].
  2: { cbn [found_points] in Hnf. by rewrite Hfound, Hp in Hnf. }
  exists st, s. unfold elasticsearch_point in Hp. rewrite Hm in Hp. cbn [or_invalid result_bind] in Hp.
  rewrite Hi, Hs in Hp. cbn [mbind option_bind is_str is_mapping or_invalid result_bind] in Hp. rewrite Hv in Hp.
  cbn [mbind option_bind es_sequence or_invalid result_bind] in Hp. rewrite Hmd in Hp. cbn [or_invalid result_bind] in Hp.
  assert (Hvec : map_result (λ v, let? f := float_of v in Ok (VFloat f)) vector = Ok (map VFloat (st_vector st))).
  { clear -Hfl. revert Hfl. generalize (st_vector st). induction vector as [| v vector IH]; intros l; cbn [map_result]; [by intros [= <-] |].
    destruct (float_of v) as [f |]; cbn [result_bind]; [| done]. destruct (map_result float_of vector) as [fs |]; [| done].
    intros [= <-]. by rewrite (IH fs eq_refl). }
  rewrite Hvec in Hp. cbn [result_bind] in Hp. unfold VectorPoint_new in Hp. rewrite result_bind_ok in Hp.
  destruct Hp as ([] & _ & Hp). injection Hp as <-. split; [done |]. split; [| done]. split; [apply float_vector_of | done].
Qed.

Lemma point_exists coll (W : Type) R (view : W → Store) (K : StoreKind W) w w' ids documents points :
  Forall2 (mget_document R view K coll w w') ids documents → found_points documents = Ok points →
  ∃ found, Forall2 (λ e p, vp_id p = e.1 ∧ point_as p e.2) found points
    ∧ Forall (λ e, ∃ s, shown R view (sk_get_lag K) w w' s ∧ store_find s coll e.1 = Some e.2) found
    ∧ ∀ id, id ∈ ids → id ∈ map fst found ∨ ∃ s, shown R view (sk_get_lag K) w w' s ∧ store_find s coll id = None.
Proof.
  intros Hall. revert points. induction Hall as [| id document ids documents Hd Hall IH]; intros points; cbn [found_points].
  { intros [= <-]. exists []. split_and!; [constructor | constructor | set_solver]. }
  rewrite result_bind_ok. intros ([|] & Hf & Hp).
  - rewrite result_bind_ok in Hp. destruct Hp as (p & Hp & Hr). rewrite result_bind_ok in Hr. destruct Hr as (rest & Hrest & [= <-]).
    destruct (IH rest Hrest) as (found & H1 & H2 & H3). destruct (point_of_document _ _ _ _ _ _ _ _ _ p Hd Hf Hp) as (st & s & Hid & Has & Hs & Hfind).
    exists ((id, st) :: found). split_and!; [by constructor | constructor; [by exists s | done] |].
    intros j [-> | Hj]%elem_of_cons; [left; cbn; left |]. destruct (H3 j Hj); [left; by right | by right].
  - destruct (IH points Hp) as (found & H1 & H2 & H3). exists found. split_and!; [done | done |].
    intros j [-> | Hj]%elem_of_cons; [right | by apply H3].
    destruct Hd as [d source vector st s Hm He Hf' | s _ Hs Hn | e Hnf]; [| by exists s | cbn [found_points] in Hnf; by rewrite Hf in Hnf].
    unfold is_found in Hf. rewrite Hm in Hf. cbn [or_invalid result_bind] in Hf. by rewrite He, Hf' in Hf.
Qed.

Section Refinement.
Context {W : Type} {SDK : ElasticSdk W} (R : relation Store) `{!PreOrder R} (view : W → Store)
  (storage : list spec_float → list spec_float).
Context (get_lag search_lag : relation Store) (equal : pyval → pyval → bool).
(** An answer shows an index as it was some time ago; the search goes by the index's
    own metric. *)
Definition elastic_kind : StoreKind W :=
  mk_kind false true get_lag search_lag equal (λ _ _, None) (λ _ _, True).
Abbreviation K := elastic_kind.
Context {L : ElasticLaws R view storage K}.
Abbreviation seen := (instant R view).
Abbreviation gone w w' name := (∃ s : Store, instant R view w w' s ∧ s !! name = None).

Lemma es_call_wp {A} (m : io W A) (Φ : result exn A → W → Prop) w :
  wp m (λ r w', match r with Ok a => Φ (Ok a) w' | Err e => Φ (Err (es_converted e)) w' end) w →
  wp (es_call m) Φ w.
Proof. intros Hm. apply wp_catch. eapply wp_mono; [exact Hm |]. by intros [a | e] w'. Qed.

Lemma es_raised_gone (P Q : Prop) e : es_raised P e Q → (es_converted e = VectorCollectionNotFoundError → P) ∧ Q.
Proof. intros (HP & [Hn _] & HQ). split; [| done]. unfold es_converted. repeat case_bool; by auto. Qed.
Lemma es_raised_conflict (P Q : Prop) e : es_raised P e Q → es_converted e = VectorCollectionConflictError → es_conflict e = true.
Proof. intros (_ & [_ Hn] & _). unfold es_converted. repeat case_bool; by auto. Qed.

Lemma elastic_has_ok name w : wp (elastic_has_collection name) (λ r w', raises_plain r ∧ has_outcome R view name r w w') w.
Proof.
  apply wp_bind_lift.
  2: { intros e He. split; [apply plain_err; by eapply name_plain |]. exists (view w). by split; [apply instant_here |]. }
  intros [] _. apply wp_catch, es_call_wp. eapply wp_mono; [apply (es_exists_law R view storage K) |].
  intros [b | e] w' [HR Hb].
  - destruct Hb as (s & Hs & ->). split; [apply plain_ok |]. exists s. split; [done |]. by intros b [= <-].
  - pose proof Hb as [Hg Hu]%es_raised_gone. destruct (is_collection_missing (es_converted e)) eqn:Hn.
    + assert (es_converted e = VectorCollectionNotFoundError) as He by by destruct (es_converted e).
      destruct (Hg He) as (s & Hs & Hnone). split; [apply plain_ok |]. exists s. split; [done |].
      intros b [= <-]. symmetry. apply bool_decide_eq_false. by rewrite Hnone; intros [].
    + split; [| by exists (view w'); split; [apply instant_here |]]. apply plain_err. split; [by intros He; rewrite He in Hn |].
      intros He. by rewrite (es_raised_conflict _ _ _ Hb He) in Hu.
Qed.

Lemma elastic_require_wp {B} name (k : io W B) (Φ : result exn B → W → Prop) w :
  (∀ w1, R (view w) (view w1) → wp k Φ w1) →
  (∀ e w1, (e = VectorCollectionNotFoundError → gone w w1 name) → R (view w) (view w1) → Φ (Err e) w1) →
  wp (elastic_require_collection name;;; k) Φ w.
Proof.
  intros Hok Herr. apply wp_bind, wp_bind. eapply wp_mono; [apply elastic_has_ok |]. intros [b | e] w1 [Hp (s & Hs & Hb)].
  - specialize (Hb b eq_refl). pose proof (instant_R R view _ _ _ Hs) as HR. destruct b; cbn [negb]; [by apply wp_ret, Hok |].
    apply wp_raise, Herr; [| done]. intros _. exists s. split; [done |]. symmetry in Hb. apply bool_decide_eq_false in Hb.
    by apply eq_None_not_Some.
  - apply Herr; [| by eapply instant_R]. intros ->. by destruct (Hp _ eq_refl).
Qed.

(** Reading the answer of a call; what was done before is kept. *)
Lemma response_wp {B} resp (k : pydict pyval → io W B) (Φ : result exn B → W → Prop) w :
  (∀ d, response_mapping resp = Ok d → wp (k d) Φ w) → (∀ e, plain_error e → Φ (Err e) w) →
  wp (let* d := lift (response_mapping resp) in k d) Φ w.
Proof. intros Hk He. apply wp_bind_lift; [done |]. intros e Hr. by apply He, (response_plain resp). Qed.

Lemma elastic_create_ok spec w : VectorCollectionSpec_new spec = Ok spec →
  wp (elastic_create_collection spec) (λ r w', atomic_step R view w w' (create_outcome K spec r)) w.
Proof.
  intros Hspec. unfold VectorCollectionSpec_new in Hspec. rewrite result_bind_ok in Hspec.
  destruct Hspec as ([] & _ & Hspec). rewrite guard_bind_ok in Hspec. destruct Hspec as [Hdim _].
  destruct (is_int (cs_dimension spec)) as [n |] eqn:Hn; [clear Hdim | done].
  assert (Hnew : mk_collection (Some n) (Some (cs_metric spec)) ∅ = new_collection spec) by (unfold new_collection; by rewrite <- Hn).
  apply wp_bind. eapply wp_mono; [apply elastic_has_ok |]. intros [b | e] w1 [Hp (s & Hs & Hb)].
  2: { apply create_raised; [intros ->; by destruct (Hp _ eq_refl) | apply (half_step R view); by eapply instant_R]. }
  specialize (Hb b eq_refl). pose proof (instant_R _ _ _ _ _ Hs) as HR1. subst b. case_bool_decide as Hb.
  { apply wp_bind, wp_raise, create_raised; [by exists s | by apply (half_step R view)]. }
  apply wp_bind, wp_ret, es_call_wp. eapply wp_mono; [by apply (es_create_law R view storage K) |]. rewrite Hnew. intros [[] | e] w2.
  - intros Hstep. by eapply (atomic_mono R view w w1 w2 w2).
  - intros [Hr Hu]. apply create_raised.
    + intros He%(es_raised_conflict _ _ _ Hr). destruct (Hu He) as (s2 & Hs2 & Hsome). exists s2.
      split; [by eapply (instant_mono R view w w1 w2 w2) | done].
    + destruct Hr as (_ & _ & Hstep). by eapply (atomic_mono R view w w1 w2 w2).
Qed.

Lemma metric_of_es_metric m : metric_of_es (es_metric m) = Some m.
Proof. by destruct m; vm_compute. Qed.

Lemma elastic_info_of name body c : mapping_shows name body c →
  match elastic_info name body with
  | Ok info => ci_name info = name ∧ co_dimension c = Some (ci_dimension info) ∧ co_metric c = Some (ci_metric info)
  | Err e => plain_error e
  end.
Proof.
  unfold elastic_info, mapping_shows. cbn zeta.
  destruct (py_item (py_item (py_item (dict_get body name) (u "mappings")) (u "properties")) (u "vector")) as [v |]; [| done].
  cbn [or_invalid result_bind]. destruct (is_mapping v) as [d |] eqn:Hv; [| done].
  destruct (is_mapping_elim _ _ Hv) as (items & -> & ->). cbn [py_item or_invalid result_bind]. intros [<- <-].
  destruct (dict_get _ (u "dims") ≫= is_int_instance); [| done]. cbn [or_invalid result_bind].
  by destruct ((dict_get _ (u "similarity") ≫= is_str) ≫= metric_of_es).
Qed.

Lemma elastic_describe_ok name w :
  wp (elastic_describe_collection name) (λ r w', describe_outcome R view name r w w') w.
Proof.
  apply elastic_require_wp; [| intros e w1 He HR; by apply describe_raised]. intros w1 HR1.
  apply wp_bind, es_call_wp. eapply wp_mono; [apply (es_get_mapping_law R view storage K) |]. intros [resp | e] w2 [HR2 Hc].
  2: { apply es_raised_gone in Hc as [Hg _]. apply describe_raised; [| by etrans].
       intros He. destruct (Hg He) as (s & Hs & Hn). exists s. split; [by eapply (instant_mono R view w w1 w2 w2) | done]. }
  destruct Hc as (s & c & d & Hs & Hcol & Hd & Hm). assert (HR : R (view w) (view w2)) by by etrans.
  apply response_wp; [| intros e He; apply describe_raised; [by apply plain_not_found | done]].
  intros d' Hd'. assert (d' = d) as -> by congruence. apply wp_lift. pose proof (elastic_info_of name d c Hm) as Hinfo.
  assert (Hin : seen w w2 s) by by eapply (instant_mono R view w w1 w2 w2).
  destruct (elastic_info name d) as [info | e]; [| apply describe_raised; [by apply plain_not_found | done]].
  destruct Hinfo as (Hn & Hdim & Hmet). split; [done |]. split; [done |]. by split; exists s, c.
Qed.

Lemma elastic_drop_ok name w :
  wp (elastic_delete_collection name) (λ r w', atomic_step R view w w' (drop_outcome name r)) w.
Proof.
  apply elastic_require_wp; [| intros e w1 He HR; by apply drop_raised; [| apply (no_step R view w w1 (delete name))]].
  intros w1 HR1. apply es_call_wp. eapply wp_mono; [apply (es_delete_index_law R view storage K) |].
  intros [[] | e] w2 Hd; [by eapply (atomic_mono R view w w1 w2 w2) |].
  apply es_raised_gone in Hd as [Hg Hd]. apply drop_raised; [| by eapply (atomic_mono R view w w1 w2 w2)].
  intros He. destruct (Hg He) as (s & Hs & Hn). exists s. split; [by eapply (instant_mono R view w w1 w2 w2) | done].
Qed.

(** What a Bulk answer said was written is all of it once every status is good. *)
Lemma filter_all {A} (l : list A) statuses : length statuses = length l → forallb (accepted []) statuses = true →
  map fst (List.filter (λ e, (e.2 <? 300)%Z) (zip l statuses)) = l.
Proof.
  revert statuses. induction l as [| a l IH]; intros [| z statuses]; cbn; try done. intros [= Hlen] [Hz Hall]%andb_true_iff.
  unfold accepted in Hz. rewrite bool_decide_false, orb_false_r in Hz by set_solver. rewrite Hz. cbn. by rewrite IH.
Qed.
Lemma deletes_all coll (l : list (pystr * Z)) (s s' : Store) : bulk_deletes R coll l s s' →
  ∃ dropped, sublist dropped (map fst l) ∧ removed R coll dropped s s' ∧
    (forallb (accepted [404%Z]) (map snd l) = true → dropped = map fst l).
Proof.
  induction 1 as [s s' HR | id z l s s1 s' HR Hl (dr & Hs & Hr & Hall) | id l s s1 s' HR Hn Hl (dr & Hs & Hr & Hall)
    | id z l s s' Hz Hz' Hl (dr & Hs & Hr & Hall)].
  - exists []. split_and!; [constructor | by constructor | done].
  - exists (id :: dr). cbn. split_and!; [by constructor | by econstructor |]. intros [_ ->%Hall]%andb_true_iff. done.
  - exists (id :: dr). cbn. split_and!; [by constructor | | intros ->%Hall; done].
    econstructor; [done |]. assert (store_remove coll id s1 = s1) as ->; [| done].
    unfold store_remove. apply map_eq. intros c. destruct (decide (c = coll)) as [-> | ?]; [| by rewrite lookup_alter_ne].
    rewrite lookup_alter_eq. unfold store_find in Hn. destruct (s1 !! coll) as [[n m pts] |]; cbn in *; [| done].
    unfold map_points. cbn. by rewrite delete_id.
  - exists dr. cbn. split_and!; [by constructor | done |]. unfold accepted at 1.
    rewrite bool_decide_false by set_solver. rewrite orb_false_r. by apply Z.ltb_ge in Hz as ->.
Qed.

Lemma elastic_upsert_ok coll points w : Forall dict_point points →
  wp (elastic_upsert coll points) (λ r w', upsert_outcome R view storage K coll points r w w') w.
Proof.
  intros _. assert (Hstop : ∀ e w', (e = VectorCollectionNotFoundError → gone w w' coll) → R (view w) (view w') →
    upsert_outcome R view storage K coll points (Err e) w w').
  { intros e w' He HR. apply upsert_raised; [done | by apply nothing_written]. }
  apply validations; [by apply name_plain | intros _ | intros e [He _]; by apply Hstop].
  apply validations; [by apply points_plain | intros Hv | intros e [He _]; by apply Hstop].
  pose proof Hv as [Hvalid _]%validate_points_ok.
  destruct points as [| p points]; [apply wp_ret; split; [done |]; exists []; split; [done | by constructor] |].
  set (ps := p :: points) in *. apply elastic_require_wp; [| done]. intros w1 HR1.
  assert (Hbefore : ∀ l s', written R storage K coll l (view w1) s' → written R storage K coll l (view w) s').
  { intros l s' (l' & Hl & Hp). exists l'. split; [done | by eapply puts_before]. }
  apply wp_bind, es_call_wp. eapply wp_mono; [by apply (es_bulk_index_law R view storage K) |]. intros [resp | e] w2 Hb.
  2: { apply es_raised_gone in Hb as [Hg (l & Hl & Hw)]. apply upsert_raised.
       - intros He. destruct (Hg He) as (s & Hs & Hn). exists s. split; [by eapply (instant_mono R view w w1 w2 w2) | done].
       - exists l. split; [by apply sublist_submseteq | by apply Hbefore]. }
  destruct Hb as (statuses & Hlen & Hans & dn & Hgood & Hsub & Hw).
  assert (Hpart : ∀ e, plain_error e → upsert_outcome R view storage K coll ps (Err e) w w2).
  { intros e He. apply upsert_raised; [by apply plain_not_found |]. exists dn. split; [by apply sublist_submseteq | by apply Hbefore]. }
  apply response_wp; [| done]. intros body Hbody. apply wp_lift. rewrite (bulk_accepted _ _ [] _ Hans Hbody).
  destruct (forallb _ statuses) eqn:Hall; [| by apply Hpart]. split; [done |]. apply Hbefore. rewrite (filter_all _ _ Hlen Hall) in Hgood.
  by rewrite (anti_symm sublist ps dn Hgood Hsub).
Qed.

Lemma elastic_get_ok coll ids w :
  wp (elastic_get coll ids) (λ r w', get_outcome R view K coll ids r w w') w.
Proof.
  assert (Hstop : ∀ e w', (e = VectorCollectionNotFoundError → gone w w' coll) → R (view w) (view w') →
    get_outcome R view K coll ids (Err e) w w') by (intros e w' He HR; by apply get_raised).
  apply validations; [by apply name_plain | intros _ | intros e [He _]; by apply Hstop].
  apply validations; [by apply ids_plain | intros Hv | intros e [He _]; by apply Hstop].
  destruct ids as [| id ids]; [apply wp_ret; split; [done |]; exists []; split; [done | set_solver] |].
  set (is_ := id :: ids) in *. apply elastic_require_wp; [| done]. intros w1 HR1.
  apply wp_bind, es_call_wp. eapply wp_mono; [apply (es_mget_law R view storage K) |]. intros [resp | e] w2 [HR2 Hget].
  2: { apply es_raised_gone in Hget as [Hg _]. apply Hstop; [| by etrans]. intros He. destruct (Hg He) as (s & Hs & Hn).
       exists s. split; [by eapply (instant_mono R view w w1 w2 w2) | done]. }
  assert (HR : R (view w) (view w2)) by by etrans. destruct Hget as (documents & (d & Hd & Hdocs) & Hall).
  assert (Hplain : ∀ e, plain_error e → get_outcome R view K coll is_ (Err e) w w2) by (intros e [He _]; by apply Hstop).
  apply response_wp; [| done]. intros body Hbody. assert (body = d) as -> by congruence. rewrite Hdocs.
  apply wp_bind, wp_lift. cbn [mbind option_bind es_sequence or_invalid].
  apply wp_bind_lift; [| intros e He; by apply Hplain, (found_points_plain documents)]. intros points Hpoints. apply wp_ret.
  destruct (point_exists _ _ _ _ _ _ _ _ _ _ Hall Hpoints) as (found & H1 & H2 & H3).
  eapply (got_points R view K _ _ found); [done | done | |].
  - eapply list.Forall_impl; [exact H2 |]. intros e (s & Hs & Hf). exists s. split; [by eapply (shown_mono R view (sk_get_lag K) w w1 w2 w2) | done].
  - intros i Hi. destruct (H3 i Hi) as [? | (s & Hs & Hf)]; [by left | right]. exists s. split; [by eapply (shown_mono R view (sk_get_lag K) w w1 w2 w2) | done].
Qed.

Lemma elastic_delete_ok coll ids w :
  wp (elastic_delete coll ids) (λ r w', delete_outcome R view coll ids r w w') w.
Proof.
  assert (Hstop : ∀ e w', (e = VectorCollectionNotFoundError → gone w w' coll) → R (view w) (view w') →
    delete_outcome R view coll ids (Err e) w w').
  { intros e w' He HR. apply delete_raised; [done | by apply nothing_removed]. }
  apply validations; [by apply name_plain | intros _ | intros e [He _]; by apply Hstop].
  apply validations; [by apply ids_plain | intros Hv | intros e [He _]; by apply Hstop].
  destruct ids as [| id ids]; [apply wp_ret; by constructor |].
  set (is_ := id :: ids) in *. apply elastic_require_wp; [| done]. intros w1 HR1.
  apply wp_bind, es_call_wp. eapply wp_mono; [apply (es_bulk_delete_law R view storage K) |]. intros [resp | e] w2 Hb.
  2: { apply es_raised_gone in Hb as [Hg (dr & Hl & Hw)]. apply delete_raised.
       - intros He. destruct (Hg He) as (s & Hs & Hn). exists s. split; [by eapply (instant_mono R view w w1 w2 w2) | done].
       - exists dr. split; [by apply sublist_submseteq | by eapply removed_before]. }
  destruct Hb as (statuses & Hlen & Hans & Hdel). destruct (deletes_all _ _ _ _ Hdel) as (dr & Hs & Hr & Hdone).
  assert (Hfst : map fst (zip is_ statuses) = is_) by (apply fst_zip; lia).
  assert (Hsnd : map snd (zip is_ statuses) = statuses) by (apply snd_zip; lia). rewrite Hfst in *. rewrite Hsnd in Hdone.
  assert (Hpart : ∀ e, plain_error e → delete_outcome R view coll is_ (Err e) w w2).
  { intros e He. apply delete_raised; [by apply plain_not_found |]. exists dr. split; [by apply sublist_submseteq | by eapply removed_before]. }
  apply response_wp; [| done]. intros body Hbody. apply wp_lift. rewrite (bulk_accepted _ _ [404%Z] _ Hans Hbody).
  destruct (forallb _ statuses) eqn:Hall; [| by apply Hpart]. cbn. rewrite <- (Hdone eq_refl). by eapply removed_before.
Qed.

Lemma elastic_match_of hit id score st : es_hit_as hit id score st →
  ∃ metadata, elasticsearch_match hit = Ok (mk_match id score metadata) ∧ meta_map metadata = st_metadata st.
Proof.
  intros (d & source & Hm & Hi & Hsc & Hs & metadata & Hmd & Hmeta). exists metadata. split; [| done].
  unfold elasticsearch_match. rewrite Hm. cbn [or_invalid result_bind]. rewrite Hi, Hsc, Hs.
  cbn [mbind option_bind is_str or_invalid result_bind guard default from_option is_mapping Datatypes.id float_of]. by rewrite Hmd.
Qed.
Lemma elastic_matches_of hits found : Forall2 (λ hit f, es_hit_as hit f.1.1 f.1.2 f.2) hits found →
  ∃ ms, map_result elasticsearch_match hits = Ok ms
    ∧ Forall2 (λ (f : pystr * spec_float * Stored) x, vm_id x = f.1.1 ∧ vm_score x = f.1.2 ∧ meta_map (vm_metadata x) = st_metadata f.2) found ms.
Proof.
  induction 1 as [| hit f hits found Hh _ (ms & IH & Hall)]; [by exists [] |].
  destruct (elastic_match_of _ _ _ _ Hh) as (md & Hm & Hmd). cbn [map_result]. rewrite Hm, IH. eexists. split; [done |]. by constructor.
Qed.

Lemma elastic_search_ok coll vector limit filters w :
  wp (elastic_search coll vector limit filters) (λ r w', search_outcome R view K coll vector limit filters r w w') w.
Proof.
  assert (Hstop : ∀ e w', plain_error e → R (view w) (view w') → search_outcome R view K coll vector limit filters (Err e) w w')
    by (intros e w' [He _] HR; by apply search_raised).
  apply validations; [by apply name_plain | intros Hname | intros e He; by apply Hstop].
  apply validations; [by apply vector_plain | intros Hvector | intros e He; by apply Hstop].
  apply validations; [apply plain_guard | intros Hlimit | intros e He; by apply Hstop].
  apply validations; [destruct filters; [by apply metadata_plain | apply plain_ok] | intros Hfilters | intros e He; by apply Hstop].
  apply elastic_require_wp; [| intros e w1 He HR; by apply search_raised]. intros w1 HR1. cbn zeta.
  apply wp_bind, es_call_wp. eapply wp_mono; [apply (es_search_law R view storage K) |]. intros [resp | e] w2 [HR2 Hs].
  2: { apply es_raised_gone in Hs as [Hg _]. apply search_raised; [| by etrans]. intros He. destruct (Hg He) as (s & Hs & Hn).
       exists s. split; [by eapply (instant_mono R view w w1 w2 w2) | done]. }
  assert (HR : R (view w) (view w2)) by by etrans. destruct Hs as (body & hits & found & Hbody & Hhits & Hall & Hlen & Hfound & Horder).
  apply response_wp; [| intros e He; by apply Hstop]. intros body' Hbody'. assert (body' = body) as -> by congruence. apply wp_lift.
  destruct (elastic_matches_of _ _ Hall) as (ms & Hms & Hsame). unfold elasticsearch_matches. rewrite Hhits.
  cbn [mbind option_bind es_sequence or_invalid result_bind]. rewrite Hms.
  destruct (limit_ok _ Hlimit) as (n & Hn & Hrange). rewrite Hn in *. cbn [default from_option Datatypes.id] in *.
  split; [done |]. split; [done |]. split; [done |]. split; [done |]. split.
  { exists n. split; [done |]. split; [done |]. by rewrite <- (list.Forall2_length _ _ _ Hsame). }
  split.
  - apply list.Forall_forall. intros x (i & Hx)%list_elem_of_lookup. destruct (Forall2_lookup_r _ _ _ _ _ Hsame Hx) as (f & Hf & Hid & _ & Hmd).
    rewrite list.Forall_forall in Hfound. destruct (Hfound f) as ((s & Hs & Hst) & Hcond); [by eapply list_elem_of_lookup_2 |].
    exists s, f.2. split; [by eapply (shown_mono R view) |]. rewrite Hid, Hmd. split; [done |]. split; [done |].
    by apply (elastic_terms K (st_metadata f.2) vector n filters).
  - intros _. assert (map vm_score ms = map (λ f, f.1.2) found) as ->; [| done].
    clear -Hsame. induction Hsame as [| f x found ms (_ & Hs & _) _ IH]; [done |]. cbn [map]. by rewrite Hs, IH.
Qed.

Lemma elastic_ping_ok w : wp elastic_ping (λ _ w', R (view w) (view w')) w.
Proof.
  apply wp_bind, wp_catch. eapply wp_mono; [apply (es_ping_law R view storage K) |]. by intros [v | e] w' HR.
Qed.

End Refinement.

(** ** The size of a search *)

(** The number of candidates is at least the number of results and within the server's limit. *)
Lemma elastic_candidates vector limit filters : validate_limit (VInt limit) = Ok tt →
  (kq_k (elastic_query vector limit filters) ≤ kq_num_candidates (elastic_query vector limit filters) ≤ 10000)%Z.
Proof.
  unfold validate_limit, guard. cbn. destruct ((1 <=? limit) && (limit <=? 10000))%Z eqn:Hl; [| done]. intros _.
  apply andb_true_iff in Hl as [H1%Z.leb_le H2%Z.leb_le]. lia.
Qed.

(** ** An in-memory server, for concrete runs: one client, nothing fails *)

Definition eread {A} (f : Store → result exn A) : io Store A := λ s, (s, f s).
Definition missing_index : exn := OtherException 8.
Definition existing_index : exn := OtherException 9.
Definition with_index {A} (s : Store) (index : pystr) (r : result exn A) : result exn A :=
  match s !! index with Some _ => r | None => Err missing_index end.
Definition ewrite (f : Store → result exn Store) : io Store unit :=
  λ s, match f s with Ok s' => (s', Ok tt) | Err e => (s, Err e) end.

Definition vector_mapping (c : Collection) : pyval :=
  VDict ([(VStr (u "type"), VStr (u "dense_vector")); (VStr (u "index"), VBool true);
          (VStr (u "index_options"), VDict [(VStr (u "type"), VStr (u "int8_hnsw"))])]
    ++ match co_dimension c with Some n => [(VStr (u "dims"), VInt n)] | None => [] end
    ++ match co_metric c with Some m => [(VStr (u "similarity"), VStr (es_metric m))] | None => [] end).
Definition es_document (id : pystr) (st : Stored) : pyval :=
  VDict [(VStr (u "_id"), VStr id); (VStr (u "found"), VBool true);
         (VStr (u "_source"), VDict [(VStr (u "vector"), VList (map VFloat (st_vector st)));
                                     (VStr (u "metadata"), VDict (map (λ kv, (VStr kv.1, kv.2)) (map_to_list (st_metadata st))))])].
Definition es_missing (id : pystr) : pyval := VDict [(VStr (u "_id"), VStr id); (VStr (u "found"), VBool false)].
Definition bulk_item (action : string) (status : Z) : pyval :=
  VDict [(VStr (u action), VDict [(VStr (u "status"), VInt status)])].
Definition bulk_line (o : bulk_op) (s : Store) : Store * pyval :=
  match o with
  | BulkIndex index id vector metadata =>
      match s !! index, map_result float_of vector with
      | Some _, Ok fs => (store_put index id (mk_stored fs (meta_map metadata)) s, bulk_item "index" 201)
      | _, _ => (s, bulk_item "index" 404)
      end
  | BulkDelete index id =>
      match store_find s index id with
      | Some _ => (store_remove index id s, bulk_item "delete" 200)
      | None => (s, bulk_item "delete" 404)
      end
  end.
Fixpoint bulk_lines (ops : list bulk_op) (s : Store) : Store * list pyval :=
  match ops with
  | [] => (s, [])
  | o :: ops => let '(s1, item) := bulk_line o s in let '(s2, items) := bulk_lines ops s1 in (s2, item :: items)
  end.

(** This server finds all points equally near, and compares texts only. *)
Definition text_equal (a b : pyval) : bool := match a, b with VStr s, VStr t => bool_decide (s = t) | _, _ => false end.
Definition es_hit (e : pystr * Stored) : pyval :=
  VDict [(VStr (u "_id"), VStr e.1); (VStr (u "_score"), VFloat (S754_zero false));
         (VStr (u "_source"), VDict [(VStr (u "metadata"), VDict (map (λ kv, (VStr kv.1, kv.2)) (map_to_list (st_metadata e.2))))])].
Definition es_found (s : Store) (index : pystr) (query : knn_query) (size : Z) : list (pystr * Stored) :=
  firstn (Z.to_nat size) (List.filter (λ e, forallb (term_holds text_equal (st_metadata e.2)) (default [] (kq_filter query)))
    (match s !! index with Some c => map_to_list (co_points c) | None => [] end)).

#[export] Instance emem_sdk : ElasticSdk Store := {|
  es_ping := ret (VBool true);
  es_create name d similarity := ewrite (λ s,
    match s !! name, is_int d with
    | Some _, _ => Err existing_index
    | None, Some n => Ok (<[name := mk_collection (Some n) (metric_of_es similarity) ∅]> s)
    | None, None => Err (OtherException 7)
    end);
  es_exists name := eread (λ s, Ok (bool_decide (is_Some (s !! name))));
  es_get_mapping name := eread (λ s,
    match s !! name with
    | Some c => Ok (ApiResponse (VDict [(VStr name, VDict [(VStr (u "mappings"), VDict [(VStr (u "properties"),
                      VDict [(VStr (u "vector"), vector_mapping c)])])])]))
    | None => Err missing_index
    end);
  es_delete_index name := ewrite (λ s, with_index s name (Ok (delete name s)));
  es_bulk ops := λ s, let '(s', items) := bulk_lines ops s in (s', Ok (ApiResponse (VDict [(VStr (u "items"), VList items)])));
  es_mget index ids := eread (λ s, with_index s index (Ok (ApiResponse (VDict [(VStr (u "docs"),
    VList (map (λ id, match store_find s index id with Some st => es_document id st | None => es_missing id end) ids))]))));
  es_search index query size := eread (λ s, if (size <? 0)%Z then Err (OtherException 7) else
    with_index s index (Ok (ApiResponse (VDict [(VStr (u "hits"), VDict [(VStr (u "hits"),
      VList (map es_hit (es_found s index query size)))])]))));
  es_close := ret tt;
  es_not_found e := match e with OtherException 8 => true | _ => false end;
  es_conflict e := match e with OtherException 9 => true | _ => false end;
  es_unreachable _ := false;
  es_api_error _ := true;
|}.

Lemma text_items_of (d : pydict pyval) : text_items (map (λ kv, (VStr kv.1, kv.2)) d) = d.
Proof. induction d as [| [k v] d IH]; [done |]. cbn. by rewrite <- IH at 2. Qed.

Definition emem_kind : StoreKind Store := elastic_kind eq eq text_equal.

Lemma bulk_index_lines coll points s : Forall (λ p, validate_point p = Ok tt) points → is_Some (s !! coll) →
  ∃ s', bulk_lines (map (index_op coll) points) s = (s', map (λ _, bulk_item "index" 201) points) ∧ written eq Datatypes.id emem_kind coll points s s'.
Proof.
  intros Hv. revert s. induction Hv as [| p points Hp Hv IH]; intros s Hs.
  { exists s. split; [done |]. exists []. split; [constructor | by constructor]. }
  unfold validate_point in Hp. rewrite result_bind_ok in Hp. destruct Hp as ([] & _ & Hp). rewrite result_bind_ok in Hp.
  destruct Hp as ([] & (fs & Hfs)%validate_vector_floats & _). set (st := mk_stored fs (meta_map (vp_metadata p))).
  destruct Hs as [c Hc]. destruct (IH (store_put coll (vp_id p) st s)) as (s' & Hrun & l & Hl & Hput).
  { unfold store_put. rewrite lookup_alter_eq, Hc. by eexists. }
  exists s'. cbn [map bulk_lines index_op bulk_line]. rewrite Hc, Hfs. fold st. rewrite Hrun. split; [done |].
  exists ((vp_id p, st) :: l). split; [constructor; [split; [done | by exists fs] | done] | by econstructor].
Qed.
Lemma bulk_delete_lines coll ids s : ∃ s' statuses, bulk_lines (map (BulkDelete coll) ids) s = (s', map (bulk_item "delete") statuses) ∧
  length statuses = length ids ∧ bulk_deletes eq coll (zip ids statuses) s s'.
Proof.
  revert s. induction ids as [| id ids IH]; intros s; [exists s, []; split_and!; [done | done | by constructor] |].
  cbn [map bulk_lines bulk_line]. destruct (store_find s coll id) as [st |] eqn:Hf.
  - destruct (IH (store_remove coll id s)) as (s' & l & -> & Hlen & Hd). exists s', (200 :: l)%Z.
    split_and!; [done | cbn; by rewrite Hlen | by econstructor].
  - destruct (IH s) as (s' & l & -> & Hlen & Hd). exists s', (404 :: l)%Z. split_and!; [done | cbn; by rewrite Hlen | by econstructor].
Qed.
Lemma bulk_answered action statuses : bulk_answer (ApiResponse (VDict [(VStr (u "items"), VList (map (bulk_item action) statuses))])) statuses.
Proof.
  eexists. split; [eexists; split; [reflexivity | by vm_compute] |]. apply Forall2_fmap_l, list.Forall_Forall2_diag, list.Forall_forall. done.
Qed.
Lemma bulk_index_missing coll points s : s !! coll = None →
  bulk_lines (map (index_op coll) points) s = (s, map (λ _, bulk_item "index" 404) points).
Proof.
  intros Hs. induction points as [| p points IH]; [done |]. cbn [map bulk_lines index_op bulk_line]. by rewrite Hs, IH.
Qed.
Lemma constant_items {A} action (z : Z) (l : list A) : map (λ _, bulk_item action z) l = map (bulk_item action) (map (λ _, z) l).
Proof. by rewrite map_map. Qed.
Lemma kept_points {A} (z : Z) (l : list A) :
  map fst (List.filter (λ e, (e.2 <? 300)%Z) (zip l (map (λ _, z) l))) = if (z <? 300)%Z then l else [].
Proof. destruct (z <? 300)%Z eqn:Hz; induction l as [| a l IH]; cbn; try done; rewrite Hz; cbn; by rewrite ?IH. Qed.

Lemma document_ok (coll id : pystr) (s : Store) :
  mget_document eq (λ s, s) emem_kind coll s s id (match store_find s coll id with Some st => es_document id st | None => es_missing id end).
Proof.
  assert (Hs : shown eq (λ s : Store, s) (sk_get_lag emem_kind) s s s) by by exists s.
  destruct (store_find s coll id) as [st |] eqn:Hf.
  - eapply (document_found _ _ _ _ _ _ _ _ _ _ _ st s); try reflexivity; [| apply float_vector_of | exact Hs | exact Hf].
    eexists. split; [reflexivity |]. rewrite text_items_of. unfold meta_map. by rewrite list_to_map_to_list.
  - by eapply (document_missing _ _ _ _ _ _ _ _ s); [vm_compute | exact Hs |].
Qed.
Lemma es_found_ok (s : Store) index query size e : e ∈ es_found s index query size →
  store_find s index e.1 = Some e.2 ∧ forallb (term_holds text_equal (st_metadata e.2)) (default [] (kq_filter query)) = true.
Proof.
  unfold es_found. intros He. assert (He' : e ∈ List.filter (λ e, forallb (term_holds text_equal (st_metadata e.2)) (default [] (kq_filter query)))
    (match s !! index with Some c => map_to_list (co_points c) | None => [] end)).
  { rewrite <- (firstn_skipn (Z.to_nat size)). apply elem_of_app. by left. }
  apply list_elem_of_In, filter_In in He' as [Hin Hf]. split; [| done]. apply list_elem_of_In in Hin. unfold store_find.
  destruct (s !! index) as [c |]; [| by apply not_elem_of_nil in Hin]. destruct e. by apply elem_of_map_to_list in Hin.
Qed.
Lemma es_hit_of e : es_hit_as (es_hit e) e.1 (S754_zero false) e.2.
Proof.
  eexists _, _. split_and!; try reflexivity. eexists. split; [reflexivity |]. rewrite text_items_of.
  unfold meta_map. by rewrite list_to_map_to_list.
Qed.
Lemma same_scores {A} (l : list A) : best_first (map (λ _, S754_zero false) l).
Proof. induction l as [| a l IH]; constructor; [done |]. apply Forall_map, list.Forall_forall. by intros. Qed.

#[export] Instance emem_laws : ElasticLaws eq (λ s : Store, s) Datatypes.id emem_kind.
Proof.
  assert (Hm : ∀ (s : Store) name (Q : Prop), s !! name = None → Q →
    es_raised (∃ s0, instant eq (λ s : Store, s) s s s0 ∧ s0 !! name = None) missing_index Q).
  { intros s name Q Hn HQ. split; [intros _; by exists s |]. by split. }
  split; cbn [es_create es_exists es_get_mapping es_delete_index es_bulk es_mget es_search es_ping es_close emem_sdk]; unfold eread, ewrite, with_index, wp.
  - intros name d n m s Hn. destruct (s !! name) as [c |] eqn:Hc.
    + split; [split; [done | split; [by split | exists s, s; split_and!; [done | by left | done]]] |]. intros _. exists s. by rewrite Hc.
    + rewrite Hn, metric_of_es_metric. exists s, (<[name:=mk_collection (Some n) (Some m) ∅]> s). split_and!; [done | by left | done].
  - intros name s. split; [done |]. by exists s.
  - intros name s. destruct (s !! name) as [c |] eqn:Hc; (split; [done |]); [| by apply Hm].
    exists s, c, [(name, VDict [(VStr (u "mappings"), VDict [(VStr (u "properties"), VDict [(VStr (u "vector"), vector_mapping c)])])])].
    split_and!; [by split | done | done |]. unfold mapping_shows. cbn zeta. cbn [dict_get]. rewrite decide_True by done.
    destruct c as [[n |] [m |] pts]; split; try (by vm_compute); by destruct m; vm_compute.
  - intros name s. destruct (s !! name) as [c |] eqn:Hc; [by exists s, (delete name s) |]. apply Hm; [done |]. exists s, s. auto.
  - intros coll points s Hv. destruct (s !! coll) as [c |] eqn:Hc.
    + destruct (bulk_index_lines coll points s Hv) as (s' & -> & Hw); [by rewrite Hc |].
      exists (map (λ _, 201%Z) points). rewrite constant_items, length_map, kept_points. cbn [Z.ltb].
      split_and!; [done | apply bulk_answered | by exists points].
    + rewrite (bulk_index_missing _ _ _ Hc). exists (map (λ _, 404%Z) points). rewrite constant_items, length_map, kept_points.
      split_and!; [done | apply bulk_answered |]. exists []. split_and!; [done | apply sublist_nil_l |].
      exists []. split; [constructor | by constructor].
  - intros coll ids s. destruct (bulk_delete_lines coll ids s) as (s' & l & -> & Hlen & Hd). exists l.
    split_and!; [done | apply bulk_answered | done].
  - intros coll ids s. destruct (s !! coll) as [c |] eqn:Hc; (split; [done |]); [| by apply Hm].
    eexists. split; [eexists; split; [reflexivity | by vm_compute] |]. apply Forall2_fmap_r, list.Forall_Forall2_diag, list.Forall_forall.
    intros id _. apply document_ok.
  - intros coll query size s. destruct (size <? 0)%Z eqn:Hneg; [by split; [| split] |]. destruct (s !! coll) as [c |] eqn:Hc; (split; [done |]); [| by apply Hm].
    eexists _, _, (map (λ e, (e.1, S754_zero false, e.2)) (es_found s coll query size)). split; [reflexivity |]. split; [by vm_compute |].
    split_and!.
    + apply Forall2_fmap, list.Forall_Forall2_diag, list.Forall_forall. intros e _. apply es_hit_of.
    + rewrite length_map. unfold es_found. rewrite length_take. apply Z.ltb_ge in Hneg. lia.
    + apply list.Forall_forall. intros f (e & -> & [Hf Ht]%es_found_ok)%list_elem_of_fmap. split; [| done]. exists s. split; [by exists s | done].
    + rewrite map_map. apply same_scores.
  - done.
  - done.
Qed.


Example elastic_roundtrip_run :
  let p := mk_point (u "a") [VInt 1] [(u "lang", VStr (u "en"))] in
  (elastic_upsert (u "docs") [p];;; elastic_get (u "docs") [u "b"; u "a"])%prog {[ u "docs" := mk_collection (Some 1%Z) (Some COSINE) ∅ ]} =
  ({[ u "docs" := mk_collection (Some 1%Z) (Some COSINE) {[ u "a" := mk_stored [binary_normalize 53 1024 1 0 false] {[ u "lang" := VStr (u "en") ]} ]} ]},
   Ok [mk_point (u "a") [VFloat (binary_normalize 53 1024 1 0 false)] [(u "lang", VStr (u "en"))]]).
Proof. vm_compute. reflexivity. Qed.
