(* ===== verification/Settings.v ===== *)
(** * Settings: the strict configuration models

    Models [config/*.py].  A pydantic model is a table of fields with their
    types, bounds and defaults, a rule for unknown keys and a validator of
    the whole ([model]); [validate_model] is [model_validate].  Inheritance of
    models is concatenation of tables.  How pydantic reads a value of another
    type (a number from its text, say) is the class [Pydantic]; reading the
    environment is pydantic-settings and not modelled: [raw] is what it read.
    A [SecretStr] is its text. *)

From Stdlib Require Import Floats.SpecFloat.
From S2P Require Import Prelude Text PyVal Errors QueueJob QueueMessage.
Local Open Scope prog_scope.

(** ** Models *)

Inductive ftype :=
| TStr (lo : Z) (hi : option Z) (ok : pystr → bool)    (* also SecretStr *)
| TInt (ok : Z → bool)
| TFloat (allow_inf_nan : bool) (ok : spec_float → bool)
| TBool
| TLiteral (choices : list pystr)
| TStrs (ok : list pystr → bool)                       (* list, tuple or frozenset of str *)
| TMapping                                             (* dict[str, dict[str, object]] *)
| TOptional (t : ftype).                               (* t | None *)

Record field := mk_field { fd_name : pystr; fd_type : ftype; fd_default : option pyval }.
Record model := mk_model {
  md_fields : list field;
  md_forbid : bool;                        (* extra="forbid" *)
  md_after : pydict pyval → bool;          (* the "after" validators accept *)
}.

(** What pydantic reads in its lax mode. *)
Class Pydantic := {
  as_str : pyval → option pystr;
  as_int : pyval → option Z;
  as_float : pyval → option spec_float;
  as_bool : pyval → option bool;
  as_strs : pyval → option (list pystr);
  as_mapping : pyval → option (list (pyval * pyval));
}.
(** A value that has the type already is read as it is. *)
Class PydanticLaws `{Pydantic} : Prop := {
  as_str_id s : as_str (VStr s) = Some s;
  as_int_id z : as_int (VInt z) = Some z;
  as_float_id f : as_float (VFloat f) = Some f;
  as_bool_id b : as_bool (VBool b) = Some b;
  as_strs_id l : as_strs (VList (map VStr l)) = Some l;
  as_mapping_id d : as_mapping (VDict d) = Some d;
}.

Definition finite_float (f : spec_float) : bool :=
  match f with S754_zero _ | S754_finite _ _ _ => true | _ => false end.
Definition str_fits (lo : Z) (hi : option Z) (s : pystr) : bool :=
  (lo <=? len s)%Z && match hi with Some h => (len s <=? h)%Z | None => true end.

Section Validate.
Context `{Pydantic}.

Definition check {A} (ok : bool) (v : A) : option A := if ok then Some v else None.
(** One value against one type. *)
Fixpoint read_value (t : ftype) (v : pyval) : option pyval :=
  match t with
  | TStr lo hi ok => s ← as_str v; check (str_fits lo hi s && ok s) (VStr s)
  | TInt ok => z ← as_int v; check (ok z) (VInt z)
  | TFloat inf ok => f ← as_float v; check ((inf || finite_float f) && ok f) (VFloat f)
  | TBool => b ← as_bool v; Some (VBool b)
  | TLiteral choices => match v with VStr s => check (bool_decide (s ∈ choices)) v | _ => None end
  | TStrs ok => l ← as_strs v; check (ok l) (VList (map VStr l))
  | TMapping => d ← as_mapping v; Some (VDict d)
  | TOptional t => match v with VNone => Some VNone | _ => read_value t v end
  end.

Definition read_field (raw : pydict pyval) (f : field) : option (pystr * pyval) :=
  match dict_get raw (fd_name f) with
  | Some v => w ← read_value (fd_type f) v; Some (fd_name f, w)
  | None => d ← fd_default f; Some (fd_name f, d)
  end.
Definition field_names (m : model) : list pystr := map fd_name (md_fields m).
Definition validate_model (m : model) (raw : pydict pyval) : result exn (pydict pyval) :=
  if md_forbid m && negb (forallb (λ k, bool_decide (k ∈ field_names m)) (dict_keys raw)) then Err ValidationError
  else match mapM (read_field raw) (md_fields m) with
       | Some values => if md_after m values then Ok values else Err ValidationError
       | None => Err ValidationError
       end.
End Validate.

(** ** Tables *)

Definition no_check {A} : A → bool := λ _, true.
Definition required (name : string) (t : ftype) : field := mk_field (u name) t None.
Definition default_to (name : string) (t : ftype) (v : pyval) : field := mk_field (u name) t (Some v).
Definition text (lo : Z) : ftype := TStr lo None no_check.
Definition int_ge (lo : Z) : ftype := TInt (λ z, (lo <=? z)%Z).
Definition int_in (lo hi : Z) : ftype := TInt (λ z, (lo <=? z)%Z && (z <=? hi)%Z).
Definition float_int (z : Z) : spec_float := binary_normalize 53 1024 z 0 false.
Definition float_gt0 (inf : bool) : ftype := TFloat inf (SFltb (S754_zero false)).
Definition float_ge (lo : Z) : ftype := TFloat false (SFleb (float_int lo)).
Definition float (z : Z) : pyval := VFloat (float_int z).
Definition str (s : string) : pyval := VStr (u s).
Definition literal (s : string) : ftype := TLiteral [u s].
(** A model without a validator of its own. *)
Definition strict (fields : list field) : model := mk_model fields true no_check.
Definition lenient (fields : list field) : model := mk_model fields false no_check.
Definition value (cfg : pydict pyval) (k : string) : pyval := default VNone (dict_get cfg (u k)).
Definition is_none (v : pyval) : bool := match v with VNone => true | _ => false end.
(** Both configured or both omitted. *)
Definition both_or_neither (cfg : pydict pyval) : bool :=
  eqb (is_none (value cfg "username")) (is_none (value cfg "password")).
Definition optional_text (name : string) : field := default_to name (TOptional (text 1)) VNone.

(** *** config/vector.py *)
Definition LocalVectorConnectionSettings : list field := [required "path" (text 1)].
Definition RemoteVectorConnectionSettings : list field :=
  [default_to "host" (text 1) (str "127.0.0.1"); optional_text "username"; optional_text "password";
   default_to "ssl" TBool (VBool false)].
Definition driver_mode (driver mode : string) : list field := [required "driver" (literal driver); required "mode" (literal mode)].
Definition vector_timeout : field := default_to "timeout" (float_gt0 false) (float 10).
Definition MilvusLocalVectorSettings : model :=
  strict (LocalVectorConnectionSettings ++ driver_mode "milvus" "local" ++ [vector_timeout]).
Definition MilvusRemoteVectorSettings : model :=
  mk_model (RemoteVectorConnectionSettings ++ driver_mode "milvus" "remote" ++
    [default_to "port" (int_in 1 65535) (VInt 19530); default_to "database" (TStr 1 (Some 255%Z) no_check) (str "default");
     vector_timeout]) true both_or_neither.
Definition ChromaLocalVectorSettings : model :=
  strict (LocalVectorConnectionSettings ++ driver_mode "chroma" "local" ++
    [default_to "tenant" (text 1) (str "default_tenant"); default_to "database" (text 1) (str "default_database")]).
Definition ChromaRemoteVectorSettings : model :=
  mk_model (RemoteVectorConnectionSettings ++ driver_mode "chroma" "remote" ++
    [default_to "port" (int_in 1 65535) (VInt 8000); default_to "tenant" (text 1) (str "default_tenant");
     default_to "database" (text 1) (str "default_database"); optional_text "api_key"; vector_timeout]) true
    (λ cfg, both_or_neither cfg && negb (negb (is_none (value cfg "api_key")) && negb (is_none (value cfg "username")))).
Definition ElasticsearchVectorSettings : model :=
  mk_model (RemoteVectorConnectionSettings ++ driver_mode "elasticsearch" "remote" ++
    [default_to "port" (int_in 1 65535) (VInt 9200); default_to "verify_certs" TBool (VBool true); optional_text "ca_certs";
     default_to "connections_per_node" (int_ge 1) (VInt 10); default_to "max_retries" (int_ge 0) (VInt 3);
     default_to "retry_on_timeout" TBool (VBool true); vector_timeout]) true both_or_neither.

(** The model a configuration selects. *)
Inductive vector_kind := MilvusLocal | MilvusRemote | ChromaLocal | ChromaRemote | Elasticsearch.
Definition vector_model (k : vector_kind) : model :=
  match k with
  | MilvusLocal => MilvusLocalVectorSettings | MilvusRemote => MilvusRemoteVectorSettings
  | ChromaLocal => ChromaLocalVectorSettings | ChromaRemote => ChromaRemoteVectorSettings
  | Elasticsearch => ElasticsearchVectorSettings
  end.
Definition is_text (v : option pyval) (s : string) : bool :=
  match v with Some (VStr t) => bool_decide (t = u s) | _ => false end.
Definition vector_kind_of (raw : pydict pyval) : option vector_kind :=
  let driver := dict_get raw (u "driver") in
  let mode := dict_get raw (u "mode") in
  if is_text driver "milvus" && is_text mode "local" then Some MilvusLocal
  else if is_text driver "milvus" && is_text mode "remote" then Some MilvusRemote
  else if is_text driver "chroma" && is_text mode "local" then Some ChromaLocal
  else if is_text driver "chroma" && is_text mode "remote" then Some ChromaRemote
  else if is_text driver "elasticsearch" && is_text mode "remote" then Some Elasticsearch
  else None.
Definition parse_vector_connection `{Pydantic} (raw : pydict pyval) : result exn (vector_kind * pydict pyval) :=
  match vector_kind_of raw with
  | Some k => let? cfg := validate_model (vector_model k) raw in Ok (k, cfg)
  | None => Err ValueError
  end.

(** *** config/queue.py *)
Definition valid_queue_name (s : pystr) : bool := is_ok (validate_queue_name (VStr s)).
Definition ConnectionSettings : list field :=
  [default_to "default_queue" (TStr 1 (Some 200%Z) valid_queue_name) (str "default");
   default_to "publish_timeout" (float_gt0 false) (float 10)].
(** [^\S+$] of the Rust regex engine: Unicode white space. *)
Definition white_space (c : N) : bool := is_space c && negb (in_range 28 31 c).
Definition consumer_group : field :=
  default_to "group" (TStr 1 None (forallb (λ c, negb (white_space c)))) (str "workers").
Definition RedisQueueSettings : model :=
  strict (ConnectionSettings ++
    [required "driver" (literal "redis"); default_to "host" (text 1) (str "127.0.0.1");
     default_to "port" (int_in 1 65535) (VInt 6379); default_to "database" (int_ge 0) (VInt 0);
     optional_text "username"; optional_text "password"; default_to "ssl" TBool (VBool false);
     default_to "max_connections" (int_ge 1) (VInt 10); default_to "connect_timeout" (float_gt0 false) (float 5);
     consumer_group; default_to "prefix" (text 0) (str "queue:");
     default_to "lease_seconds" (float_ge 3) (float 120); default_to "command_timeout" (float_ge 2) (float 10)]).
Definition starts (p : string) (v : pyval) : bool := match v with VStr s => startswith (u p) s | _ => false end.
Definition KafkaQueueSettings : model :=
  mk_model (ConnectionSettings ++
    [required "driver" (literal "kafka"); required "bootstrap_servers" (TStrs (λ l, (1 <=? Z.of_nat (length l))%Z)); consumer_group;
     default_to "security_protocol" (TLiteral [u "PLAINTEXT"; u "SSL"; u "SASL_PLAINTEXT"; u "SASL_SSL"]) (str "PLAINTEXT");
     default_to "sasl_mechanism" (TLiteral [u "PLAIN"; u "SCRAM-SHA-256"; u "SCRAM-SHA-512"]) (str "PLAIN");
     default_to "username" (TOptional (text 0)) VNone; default_to "password" (TOptional (text 0)) VNone;
     default_to "max_poll_interval_ms" (int_ge 1000) (VInt 300000)]) true
    (λ cfg, negb (starts "SASL" (value cfg "security_protocol")
                  && (negb (truth (value cfg "username")) || is_none (value cfg "password")))).
Definition RabbitMQQueueSettings : model :=
  strict (ConnectionSettings ++
    [required "driver" (literal "rabbitmq"); default_to "host" (text 1) (str "127.0.0.1");
     default_to "port" (int_in 1 65535) (VInt 5672); default_to "virtual_host" (text 1) (str "/");
     default_to "username" (text 1) (str "guest"); default_to "password" (text 0) (str "guest");
     default_to "ssl" TBool (VBool false); default_to "connect_timeout" (float_gt0 false) (float 5)]).
Inductive queue_kind := RedisQueue | KafkaQueue | RabbitMQQueue.
Definition queue_model (k : queue_kind) : model :=
  match k with RedisQueue => RedisQueueSettings | KafkaQueue => KafkaQueueSettings | RabbitMQQueue => RabbitMQQueueSettings end.
(** The discriminator. *)
Definition queue_kind_of (raw : pydict pyval) : option queue_kind :=
  let driver := dict_get raw (u "driver") in
  if is_text driver "redis" then Some RedisQueue
  else if is_text driver "kafka" then Some KafkaQueue
  else if is_text driver "rabbitmq" then Some RabbitMQQueue else None.
Definition parse_connection `{Pydantic} (raw : pydict pyval) : result exn (queue_kind * pydict pyval) :=
  match queue_kind_of raw with
  | Some k => let? cfg := validate_model (queue_model k) raw in Ok (k, cfg)
  | None => Err ValidationError
  end.
Definition FailedStoreSettings : model := strict [default_to "database" (text 0) (str "main")].
(** [WorkerSettings]: the "before" validator looks at the value as it was given. *)
Definition integer_or_digits (v : pyval) : bool :=
  match v with
  | VInt _ => true
  | VStr s => negb (bool_decide (s = [])) && forallb is_09 s
  | _ => false
  end.
Definition WorkerSettings : model :=
  strict [default_to "concurrency" (TInt (λ z, (1 <=? z)%Z && (z <=? 1024)%Z && is_ok (validate_worker_concurrency (VInt z)))) (VInt 4);
          default_to "shutdown_timeout_seconds" (float_gt0 false) (float 30)].
Definition parse_worker `{Pydantic} (raw : pydict pyval) : result exn (pydict pyval) :=
  if match dict_get raw (u "concurrency") with Some v => integer_or_digits v | None => true end
  then validate_model WorkerSettings raw else Err ValidationError.

(** *** config/cache.py *)
Definition BaseCacheSettings : list field := [default_to "key_prefix" (text 0) (str "")].
Definition RedisCacheSettings : model :=
  strict (BaseCacheSettings ++
    [required "driver" (literal "redis"); default_to "host" (text 1) (str "127.0.0.1");
     default_to "port" (int_in 1 65535) (VInt 6379); default_to "database" (int_ge 0) (VInt 0);
     optional_text "username"; optional_text "password"; default_to "ssl" TBool (VBool false);
     default_to "max_connections" (int_ge 1) (VInt 10); default_to "connect_timeout" (float_gt0 true) (float 5);
     default_to "read_timeout" (float_gt0 true) (float 5)]).
Definition int_value (v : pyval) : Z := match v with VInt z => z | _ => 0 end.
Definition MemcachedCacheSettings : model :=
  mk_model (BaseCacheSettings ++
    [required "driver" (literal "memcached"); default_to "host" (text 1) (str "127.0.0.1");
     default_to "port" (int_in 1 65535) (VInt 11211); optional_text "username"; optional_text "password";
     default_to "ssl" TBool (VBool false); default_to "min_connections" (int_ge 1) (VInt 1);
     default_to "max_connections" (int_ge 1) (VInt 10); default_to "connect_timeout" (float_gt0 true) (float 5);
     default_to "read_timeout" (float_gt0 true) (float 5); default_to "blocking_timeout" (float_gt0 true) (float 5)]) true
    (λ cfg, (int_value (value cfg "min_connections") <=? int_value (value cfg "max_connections"))%Z && both_or_neither cfg).

(** *** config/database.py *)
Definition BaseDatabaseSettings : list field :=
  [default_to "echo" TBool (VBool false); default_to "slow_query_ms" (int_ge 0) (VInt 500)].
Definition PooledDatabaseSettings : list field :=
  BaseDatabaseSettings ++
    [default_to "pool_size" (int_ge 1) (VInt 10); default_to "max_overflow" (int_ge 0) (VInt 20);
     default_to "pool_pre_ping" TBool (VBool true); default_to "pool_recycle" (int_ge (-1)) (VInt 3600)].
Definition MySQLDatabaseSettings : model :=
  strict (PooledDatabaseSettings ++
    [required "driver" (literal "mysql"); default_to "host" (text 1) (str "127.0.0.1"); default_to "port" (int_in 1 65535) (VInt 3306);
     required "database" (text 1); required "username" (text 1); required "password" (text 1);
     default_to "charset" (text 1) (str "utf8mb4")]).
Definition PostgreSQLDatabaseSettings : model :=
  strict (PooledDatabaseSettings ++
    [required "driver" (TLiteral [u "postgresql"; u "pgsql"]); default_to "host" (text 1) (str "127.0.0.1");
     default_to "port" (int_in 1 65535) (VInt 5432); required "database" (text 1); required "username" (text 1);
     required "password" (text 1)]).
Definition SQLiteDatabaseSettings : model :=
  strict (BaseDatabaseSettings ++ [required "driver" (literal "sqlite"); required "database" (text 1)]).

(** *** config/app.py, auth.py, rate_limit.py, cors.py, logging.py *)
(** [decimal_rest]: the decimal digits outside ASCII. *)
Definition AppSettings (decimal_rest : N → bool) : model :=
  lenient [default_to "name" (text 0) (str "fast-api-scaff"); default_to "version" (text 0) (str "1.0.0");
    default_to "env" (text 0) (str "local"); default_to "debug" TBool (VBool false);
    default_to "service_code" (TStr 0 None (λ s, (len s =? 3)%Z && forallb (λ c, if is_ascii c then is_09 c else decimal_rest c) s)) (str "001")].
Definition AuthSettings : model :=
  lenient [default_to "session_ttl_seconds" (int_in 1 2592000) (VInt 3600); optional_text "login_limit_cache";
    default_to "login_max_failures" (int_in 1 100) (VInt 5); default_to "login_failure_window_seconds" (int_in 1 86400) (VInt 300);
    default_to "login_lock_seconds" (int_in 1 2592000) (VInt 900)].
Definition RateLimitSettings : model :=
  lenient [default_to "enabled" TBool (VBool false); optional_text "cache";
    default_to "max_requests" (int_in 1 1000000) (VInt 1000); default_to "window_seconds" (int_in 1 86400) (VInt 60);
    default_to "fail_open" TBool (VBool false)].
Definition strings (l : list string) : pyval := VList (map (λ s, VStr (u s)) l).
Definition has_text (s : string) (v : pyval) : bool :=
  match v with VList l => existsb (λ v, match v with VStr t => bool_decide (t = u s) | _ => false end) l | _ => false end.
Definition CorsSettings : model :=
  mk_model [default_to "allow_origins" (TStrs no_check) (strings ["*"]); default_to "allow_methods" (TStrs no_check) (strings ["*"]);
    default_to "allow_headers" (TStrs no_check) (strings ["*"]); default_to "allow_credentials" TBool (VBool false);
    default_to "expose_headers" (TStrs no_check) (strings ["*"]); default_to "max_age" (int_ge 0) (VInt 600)] false
    (λ cfg, negb (is_true (value cfg "allow_credentials") && has_text "*" (value cfg "allow_origins"))).
Definition default_handlers : pyval :=
  VDict [(str "stdout", VDict [(str "driver", str "stream"); (str "stream", str "stdout")])].
Definition LoggingSettings : model :=
  lenient [default_to "level" (TLiteral [u "DEBUG"; u "INFO"; u "WARNING"; u "ERROR"; u "CRITICAL"]) (str "INFO");
    default_to "format" (TLiteral [u "json"; u "text"]) (str "json"); default_to "access_enabled" TBool (VBool true);
    default_to "access_exclude_routes" (TStrs (forallb (startswith (u "/")))) (strings ["/health"]);
    default_to "active_handlers" (TStrs no_check) (strings ["stdout"]); default_to "handlers" TMapping default_handlers].

Definition connection_models : list model :=
  [MilvusLocalVectorSettings; MilvusRemoteVectorSettings; ChromaLocalVectorSettings; ChromaRemoteVectorSettings;
   ElasticsearchVectorSettings; RedisQueueSettings; KafkaQueueSettings; RabbitMQQueueSettings; FailedStoreSettings; WorkerSettings;
   RedisCacheSettings; MemcachedCacheSettings; MySQLDatabaseSettings; PostgreSQLDatabaseSettings; SQLiteDatabaseSettings].
Definition application_models : list model :=
  [AppSettings (λ _, false); AuthSettings; RateLimitSettings; CorsSettings; LoggingSettings].

(** ** A value that needs no conversion and is within its bounds *)
Fixpoint value_ok (t : ftype) (v : pyval) : bool :=
  match t with
  | TStr lo hi ok => match v with VStr s => str_fits lo hi s && ok s | _ => false end
  | TInt ok => match v with VInt z => ok z | _ => false end
  | TFloat inf ok => match v with VFloat f => (inf || finite_float f) && ok f | _ => false end
  | TBool => match v with VBool _ => true | _ => false end
  | TLiteral choices => match v with VStr s => bool_decide (s ∈ choices) | _ => false end
  | TStrs ok => match v with VList l => match mapM is_str l with Some texts => ok texts | None => false end | _ => false end
  | TMapping => match v with VDict _ => true | _ => false end
  | TOptional t => is_none v || value_ok t v
  end.
Definition default_ok (f : field) : bool :=
  match fd_default f with Some d => value_ok (fd_type f) d | None => true end.
Definition model_ok (m : model) : Prop := NoDup (field_names m) ∧ forallb default_ok (md_fields m) = true.

Lemma mapM_is_str l texts : mapM is_str l = Some texts → l = map VStr texts.
Proof.
  revert texts. induction l as [| v l IH]; intros texts; simpl; [by intros [= <-] |].
  destruct v; try done. simpl. destruct (mapM is_str l) as [ts |] eqn:E; [| done]. intros [= <-]. simpl. by rewrite (IH ts).
Qed.
Lemma mapM_is_str_map texts : mapM is_str (map VStr texts) = Some texts.
Proof. induction texts as [| s ts IH]; [done |]. simpl. by rewrite IH. Qed.

Lemma check_some {A} ok (v w : A) : check ok v = Some w ↔ ok = true ∧ w = v.
Proof. unfold check. destruct ok; naive_solver. Qed.

Section Laws.
Context `{PydanticLaws}.

Lemma read_value_ok t v w : read_value t v = Some w → value_ok t w = true.
Proof.
  revert v. induction t as [lo hi ok | ok | inf ok | | choices | ok | | t IH]; intros v; simpl.
  - destruct (as_str v); simpl; [| done]. rewrite check_some. by intros [? ->].
  - destruct (as_int v); simpl; [| done]. rewrite check_some. by intros [? ->].
  - destruct (as_float v); simpl; [| done]. rewrite check_some. by intros [? ->].
  - destruct (as_bool v); simpl; [| done]. by intros [= <-].
  - destruct v; try done. rewrite check_some. by intros [? ->].
  - destruct (as_strs v); simpl; [| done]. rewrite check_some. intros [? ->]. by rewrite mapM_is_str_map.
  - destruct (as_mapping v); simpl; [| done]. by intros [= <-].
  - intros Hr. apply orb_true_iff. destruct v; try (right; by eapply IH). left. by injection Hr as <-.
Qed.
Lemma value_ok_read t v : value_ok t v = true → read_value t v = Some v.
Proof.
  revert v. induction t as [lo hi ok | ok | inf ok | | choices | ok | | t IH]; intros v; simpl.
  - destruct v; try done. intros Ho. rewrite as_str_id. simpl. by rewrite Ho.
  - destruct v; try done. intros Ho. rewrite as_int_id. simpl. by rewrite Ho.
  - destruct v; try done. intros Ho. rewrite as_float_id. simpl. by rewrite Ho.
  - destruct v; try done. intros _. by rewrite as_bool_id.
  - destruct v; try done. intros Ho. by rewrite Ho.
  - destruct v; try done. destruct (mapM is_str l) as [ts |] eqn:E; [| done]. intros Ho.
    apply mapM_is_str in E. subst l. rewrite as_strs_id. simpl. by rewrite Ho.
  - destruct v; try done. intros _. by rewrite as_mapping_id.
  - intros Ho%orb_true_iff. destruct v; destruct Ho as [Ho | Ho]; try done; by apply IH.
Qed.

Lemma read_field_name raw f kv : read_field raw f = Some kv → kv.1 = fd_name f.
Proof.
  unfold read_field. destruct (dict_get raw (fd_name f)) as [v |].
  - destruct (read_value _ v); [| done]. simpl. by intros [= <-].
  - destruct (fd_default f); [| done]. simpl. by intros [= <-].
Qed.
Lemma read_fields_cons raw f fs cfg :
  mapM (read_field raw) (f :: fs) = Some cfg ↔
  ∃ v cfg', read_field raw f = Some (fd_name f, v) ∧ mapM (read_field raw) fs = Some cfg' ∧ cfg = (fd_name f, v) :: cfg'.
Proof.
  simpl. destruct (read_field raw f) as [[k w] |] eqn:Ef; simpl; [| naive_solver].
  pose proof (read_field_name _ _ _ Ef) as Hk. simpl in Hk. subst k.
  destruct (mapM (read_field raw) fs) as [cfg' |]; simpl.
  - split; [intros [= <-]; eauto | by intros (v & c & [= <-] & [= <-] & ->)].
  - split; [done | by intros (v & c & _ & ? & _)].
Qed.
Lemma read_fields_names raw fs cfg : mapM (read_field raw) fs = Some cfg → dict_keys cfg = map fd_name fs.
Proof.
  revert cfg. induction fs as [| f fs IH]; intros cfg; [by intros [= <-] |].
  rewrite read_fields_cons. intros (v & cfg' & _ & Hm & ->). simpl. by rewrite (IH cfg').
Qed.
(** What a field holds in the end. *)
Lemma read_fields_get raw fs cfg f :
  NoDup (map fd_name fs) → mapM (read_field raw) fs = Some cfg → f ∈ fs →
  ∃ v, read_field raw f = Some (fd_name f, v) ∧ dict_get cfg (fd_name f) = Some v.
Proof.
  revert cfg. induction fs as [| g fs IH]; intros cfg Hnd; [intros _ Hf; by apply not_elem_of_nil in Hf |].
  rewrite read_fields_cons. intros (w & cfg' & Hg & Hm & ->) Hf. simpl in *. apply list.NoDup_cons in Hnd as [Hn Hnd].
  apply elem_of_cons in Hf as [-> | Hf].
  - exists w. split; [done |]. by rewrite decide_True.
  - destruct (IH cfg' Hnd Hm Hf) as (v & Hv & Hget). exists v. split; [done |].
    rewrite decide_False; [done |]. intros Heq. apply Hn. rewrite Heq. rewrite list_elem_of_In, in_map_iff.
    exists f. split; [done |]. by apply list_elem_of_In.
Qed.
Lemma read_field_ok raw f v : default_ok f = true → read_field raw f = Some (fd_name f, v) → value_ok (fd_type f) v = true.
Proof.
  unfold default_ok, read_field. intros Hd. destruct (dict_get raw (fd_name f)) as [v0 |].
  - destruct (read_value _ v0) as [w |] eqn:E; [| done]. simpl. intros [= <-]. by eapply read_value_ok.
  - destruct (fd_default f); [| done]. simpl. by intros [= <-].
Qed.
Lemma reread_fields raw fs cfg cfg0 :
  mapM (read_field raw) fs = Some cfg →
  (∀ f v, f ∈ fs → read_field raw f = Some (fd_name f, v) →
    dict_get cfg0 (fd_name f) = Some v ∧ value_ok (fd_type f) v = true) →
  mapM (read_field cfg0) fs = Some cfg.
Proof.
  revert cfg. induction fs as [| f fs IH]; intros cfg; [done |]. rewrite !read_fields_cons.
  intros (v & cfg' & Hv & Hm & ->) Hall. exists v, cfg'.
  destruct (Hall f v) as [Hget Hok]; [set_solver | done |]. split; [| split; [| done]].
  - unfold read_field. by rewrite Hget, value_ok_read.
  - apply IH; [done |]. intros g w Hg. apply Hall. set_solver.
Qed.

(** Validation, for every table whose defaults are within its bounds. *)
Definition settings_of (m : model) (raw cfg : pydict pyval) : Prop :=
  dict_keys cfg = field_names m
  ∧ (∀ f, f ∈ md_fields m → ∃ v, dict_get cfg (fd_name f) = Some v ∧ value_ok (fd_type f) v = true
       ∧ match dict_get raw (fd_name f) with
         | Some given => read_value (fd_type f) given = Some v
         | None => fd_default f = Some v
         end)
  ∧ (md_forbid m = true → ∀ k, k ∈ dict_keys raw → k ∈ field_names m)
  ∧ md_after m cfg = true.

Lemma validate_model_sound m raw cfg :
  model_ok m → validate_model m raw = Ok cfg → settings_of m raw cfg ∧ validate_model m cfg = Ok cfg.
Proof.
  intros [Hnd Hdef] Hv. unfold validate_model in Hv. destruct (md_forbid m && _) eqn:Hforbid; [done |].
  destruct (mapM (read_field raw) (md_fields m)) as [values |] eqn:Hm; [| done].
  destruct (md_after m values) eqn:Hafter; [| done]. injection Hv as <-.
  pose proof (read_fields_names _ _ _ Hm) as Hnames. rewrite forallb_forall in Hdef.
  assert (Hget : ∀ f, f ∈ md_fields m → ∃ v, read_field raw f = Some (fd_name f, v)
    ∧ dict_get values (fd_name f) = Some v ∧ value_ok (fd_type f) v = true).
  { intros f Hf. destruct (read_fields_get raw _ values f Hnd Hm Hf) as (v & Hr & Hg). exists v. split; [done |].
    split; [done |]. eapply read_field_ok; [apply Hdef; by apply list_elem_of_In | done]. }
  split.
  - split; [done |]. split; [| split; [| done]].
    + intros f Hf. destruct (Hget f Hf) as (v & Hr & Hg & Hok). exists v. split; [done |]. split; [done |].
      unfold read_field in Hr. destruct (dict_get raw (fd_name f)).
      * destruct (read_value _ _); [| done]. simpl in Hr. by injection Hr as ->.
      * destruct (fd_default f); [| done]. simpl in Hr. by injection Hr as ->.
    + intros Hfb k Hk. rewrite Hfb in Hforbid. cbn [andb] in Hforbid. apply negb_false_iff in Hforbid.
      rewrite forallb_forall in Hforbid. apply list_elem_of_In, Hforbid in Hk. by apply bool_decide_eq_true in Hk.
  - unfold validate_model. rewrite Hnames. assert (Hin : forallb (λ k, bool_decide (k ∈ field_names m)) (map fd_name (md_fields m)) = true).
    { apply forallb_forall. intros k Hk. apply bool_decide_eq_true, list_elem_of_In, Hk. }
    rewrite Hin, andb_false_r.
    rewrite (reread_fields raw _ values values); [by rewrite Hafter | done |].
    intros f v Hf Hr. destruct (Hget f Hf) as (v' & Hr' & Hg & Hok). rewrite Hr in Hr'. injection Hr' as <-. done.
Qed.

Lemma models_ok : Forall model_ok (connection_models ++ application_models).
Proof.
  repeat (apply Forall_cons; [split; [apply (bool_decide_unpack _); vm_compute; exact I | vm_compute; reflexivity] |]).
  constructor.
Qed.
End Laws.

(** Every settings model: exactly its fields, each within its type and bounds, and
    validating the result again changes nothing. *)
Lemma settings_well_typed `{PydanticLaws} m raw cfg :
  m ∈ connection_models ++ application_models → validate_model m raw = Ok cfg →
  settings_of m raw cfg ∧ validate_model m cfg = Ok cfg.
Proof.
  intros Hm. apply validate_model_sound. pose proof models_ok as Hall. rewrite list.Forall_forall in Hall. by apply Hall.
Qed.

(** ** What the drivers rely on *)

Definition driver_of (k : vector_kind) : pystr :=
  match k with MilvusLocal | MilvusRemote => u "milvus" | ChromaLocal | ChromaRemote => u "chroma" | Elasticsearch => u "elasticsearch" end.
Definition remote (k : vector_kind) : bool := match k with MilvusLocal | ChromaLocal => false | _ => true end.
Definition both_or_none (cfg : pydict pyval) : Prop := value cfg "username" = VNone ↔ value cfg "password" = VNone.

Lemma is_none_spec v : is_none v = true ↔ v = VNone.
Proof. by destruct v. Qed.
Lemma both_or_neither_spec cfg : both_or_neither cfg = true ↔ both_or_none cfg.
Proof.
  unfold both_or_neither, both_or_none. rewrite <- !is_none_spec. rewrite eqb_true_iff.
  destruct (is_none _), (is_none _); naive_solver.
Qed.

(** What [settings_of] says of one field of a table. *)
Lemma settings_field `{Pydantic} m raw cfg f :
  settings_of m raw cfg → f ∈ md_fields m → ∃ v, dict_get cfg (fd_name f) = Some v ∧ value_ok (fd_type f) v = true.
Proof. intros (_ & Hf & _) Hin. destruct (Hf f Hin) as (v & Hv & Ho & _). eauto. Qed.

Lemma vector_kind_driver raw k : vector_kind_of raw = Some k → dict_get raw (u "driver") = Some (VStr (driver_of k))
  ∧ dict_get raw (u "mode") = Some (VStr (if remote k then u "remote" else u "local")).
Proof.
  unfold vector_kind_of, is_text. destruct (dict_get raw (u "driver")) as [[] |]; try done; simpl.
  destruct (dict_get raw (u "mode")) as [[] |]; rewrite ?andb_false_r; try done.
  repeat (case_match; try (intros [= <-]; to_prop; subst; done)); done.
Qed.

(** The remote vector connections the parser accepts: driver and mode select
    the model; a port is a port; user name and password come together; Chroma has
    one way to authenticate.  A refusal is a [ValueError]. *)
Theorem vector_connection_consistent `{PydanticLaws} raw :
  match parse_vector_connection raw with
  | Err e => is_value_error e = true
  | Ok (k, cfg) =>
      dict_get raw (u "driver") = Some (VStr (driver_of k))
      ∧ (∀ key, key ∈ dict_keys raw → key ∈ field_names (vector_model k))
      ∧ (remote k = true → both_or_none cfg ∧ ∃ p, dict_get cfg (u "port") = Some (VInt p) ∧ (1 <= p <= 65535)%Z)
      ∧ (k = ChromaRemote → value cfg "api_key" = VNone ∨ value cfg "username" = VNone)
  end.
Proof.
  unfold parse_vector_connection. destruct (vector_kind_of raw) as [k |] eqn:Hk; [| done].
  assert (Hm : model_ok (vector_model k)).
  { pose proof models_ok as Hall. rewrite list.Forall_forall in Hall. apply Hall. unfold connection_models.
    destruct k; cbn [app]; rewrite !elem_of_cons; tauto. }
  destruct (validate_model (vector_model k) raw) as [cfg | e] eqn:Hv; cbn [result_bind].
  2: { unfold validate_model in Hv. repeat case_match; by simplify_eq. }
  destruct (validate_model_sound _ _ _ Hm Hv) as [Hs _]. split; [by apply vector_kind_driver in Hk as [? _] |].
  pose proof Hs as (_ & _ & Hforbid & Hafter). split; [apply Hforbid; by destruct k |]. split.
  - intros Hr. split.
    + apply both_or_neither_spec. destruct k; try done; simpl in Hafter; by apply andb_true_iff in Hafter as [? _].
    + assert (Hport : ∃ d, default_to "port" (int_in 1 65535) d ∈ md_fields (vector_model k)).
      { destruct k; try done; eexists; simpl; rewrite ?elem_of_cons; [right | right | right]; eauto 20. }
      destruct Hport as [d Hd]. destruct (settings_field _ _ _ _ Hs Hd) as (v & Hv' & Ho). simpl in Hv', Ho.
      destruct v; try done. exists z. split; [done |]. to_prop. lia.
  - intros ->. simpl in Hafter. apply andb_true_iff in Hafter as [_ Ha]. rewrite !negb_andb, !negb_involutive in Ha.
    apply orb_true_iff in Ha. by rewrite !is_none_spec in Ha.
Qed.

(** ** The settings that are accepted *)

(** What a setting may be. *)
Definition a_text (v : pyval) : Prop := ∃ s, v = VStr s.
Definition nonempty (v : pyval) : Prop := ∃ s, v = VStr s ∧ s ≠ [].
Definition one_of (l : list string) (v : pyval) : Prop := ∃ s, v = str s ∧ s ∈ l.
Definition a_flag (v : pyval) : Prop := ∃ b, v = VBool b.
Definition between (lo hi : Z) (v : pyval) : Prop := ∃ z, v = VInt z ∧ (lo <= z <= hi)%Z.
Definition at_least (lo : Z) (v : pyval) : Prop := ∃ z, v = VInt z ∧ (lo <= z)%Z.
Definition a_port : pyval → Prop := between 1 65535.
(** A finite number of seconds above 0, and one from [lo] on. *)
Definition seconds (v : pyval) : Prop := ∃ f, v = VFloat f ∧ finite_float f = true ∧ SFltb (S754_zero false) f = true.
Definition seconds_from (lo : Z) (v : pyval) : Prop := ∃ f, v = VFloat f ∧ finite_float f = true ∧ SFleb (float_int lo) f = true.
(** A time limit of the caches, which may be infinite. *)
Definition time_limit (v : pyval) : Prop := ∃ f, v = VFloat f ∧ SFltb (S754_zero false) f = true.
Definition optional (P : pyval → Prop) (v : pyval) : Prop := v = VNone ∨ P v.
Definition a_queue_name (v : pyval) : Prop := ∃ s, v = VStr s ∧ (1 <= len s <= 200)%Z ∧ validate_queue_name (VStr s) = Ok s.
Definition a_group (v : pyval) : Prop := ∃ s, v = VStr s ∧ s ≠ [] ∧ ∀ c, c ∈ s → white_space c = false.
Definition servers (v : pyval) : Prop := ∃ l, v = VList (map VStr l) ∧ l ≠ [].
Definition texts (v : pyval) : Prop := ∃ l, v = VList (map VStr l).

(** One setting: it satisfies [P]; if it is not given it is the default [d], and a
    given value that satisfies [P] is taken unchanged. *)
Definition setting (raw cfg : pydict pyval) (name : string) (P : pyval → Prop) (d : option pyval) : Prop :=
  ∃ v, dict_get cfg (u name) = Some v ∧ P v
    ∧ match dict_get raw (u name) with None => d = Some v | Some given => P given → v = given end.
Definition no_unknown_key (raw cfg : pydict pyval) : Prop := ∀ k, k ∈ dict_keys raw → k ∈ dict_keys cfg.

Section Accepted.
Context (raw cfg : pydict pyval).
Abbreviation field_is := (setting raw cfg).
Definition user_and_password : Prop :=
  field_is "username" (optional nonempty) (Some VNone) ∧ field_is "password" (optional nonempty) (Some VNone)
  ∧ both_or_none cfg.
Definition remote_address (port : Z) : Prop :=
  field_is "host" nonempty (Some (str "127.0.0.1")) ∧ field_is "port" a_port (Some (VInt port)) ∧ field_is "ssl" a_flag (Some (VBool false)).
Definition timeout_is : Prop := field_is "timeout" seconds (Some (float 10)).

Definition accepted_vector (k : vector_kind) : Prop :=
  no_unknown_key raw cfg ∧
  match k with
  | MilvusLocal => field_is "path" nonempty None ∧ timeout_is
  | MilvusRemote => remote_address 19530 ∧ user_and_password ∧ timeout_is
      ∧ field_is "database" (λ v, ∃ s, v = VStr s ∧ (1 <= len s <= 255)%Z) (Some (str "default"))
  | ChromaLocal => field_is "path" nonempty None ∧ field_is "tenant" nonempty (Some (str "default_tenant"))
      ∧ field_is "database" nonempty (Some (str "default_database"))
  | ChromaRemote => remote_address 8000 ∧ user_and_password ∧ timeout_is
      ∧ field_is "tenant" nonempty (Some (str "default_tenant")) ∧ field_is "database" nonempty (Some (str "default_database"))
      ∧ field_is "api_key" (optional nonempty) (Some VNone) ∧ (value cfg "api_key" = VNone ∨ value cfg "username" = VNone)
  | Elasticsearch => remote_address 9200 ∧ user_and_password ∧ timeout_is
      ∧ field_is "verify_certs" a_flag (Some (VBool true)) ∧ field_is "ca_certs" (optional nonempty) (Some VNone)
      ∧ field_is "connections_per_node" (at_least 1) (Some (VInt 10)) ∧ field_is "max_retries" (at_least 0) (Some (VInt 3))
      ∧ field_is "retry_on_timeout" a_flag (Some (VBool true))
  end.
Definition accepted_queue (k : queue_kind) : Prop :=
  no_unknown_key raw cfg ∧ field_is "default_queue" a_queue_name (Some (str "default")) ∧ field_is "publish_timeout" seconds (Some (float 10)) ∧
  match k with
  | RedisQueue => remote_address 6379 ∧ field_is "database" (at_least 0) (Some (VInt 0))
      ∧ field_is "username" (optional nonempty) (Some VNone) ∧ field_is "password" (optional nonempty) (Some VNone)
      ∧ field_is "max_connections" (at_least 1) (Some (VInt 10)) ∧ field_is "connect_timeout" seconds (Some (float 5))
      ∧ field_is "group" a_group (Some (str "workers")) ∧ field_is "prefix" a_text (Some (str "queue:"))
      ∧ field_is "lease_seconds" (seconds_from 3) (Some (float 120)) ∧ field_is "command_timeout" (seconds_from 2) (Some (float 10))
  | KafkaQueue => field_is "bootstrap_servers" servers None ∧ field_is "group" a_group (Some (str "workers"))
      ∧ field_is "security_protocol" (one_of ["PLAINTEXT"; "SSL"; "SASL_PLAINTEXT"; "SASL_SSL"]) (Some (str "PLAINTEXT"))
      ∧ field_is "sasl_mechanism" (one_of ["PLAIN"; "SCRAM-SHA-256"; "SCRAM-SHA-512"]) (Some (str "PLAIN"))
      ∧ field_is "username" (optional a_text) (Some VNone) ∧ field_is "password" (optional a_text) (Some VNone)
      ∧ field_is "max_poll_interval_ms" (at_least 1000) (Some (VInt 300000))
      ∧ (one_of ["SASL_PLAINTEXT"; "SASL_SSL"] (value cfg "security_protocol") → nonempty (value cfg "username") ∧ a_text (value cfg "password"))
  | RabbitMQQueue => remote_address 5672 ∧ field_is "virtual_host" nonempty (Some (str "/"))
      ∧ field_is "username" nonempty (Some (str "guest")) ∧ field_is "password" a_text (Some (str "guest"))
      ∧ field_is "connect_timeout" seconds (Some (float 5))
  end.
Definition accepted_worker : Prop :=
  no_unknown_key raw cfg ∧ field_is "concurrency" (between 1 1024) (Some (VInt 4))
  ∧ field_is "shutdown_timeout_seconds" seconds (Some (float 30))
  ∧ match dict_get raw (u "concurrency") with
    | None | Some (VInt _) => True
    | Some (VStr s) => s ≠ [] ∧ ∀ c, c ∈ s → is_09 c = true
    | Some _ => False
    end.
Definition accepted_redis_cache : Prop :=
  no_unknown_key raw cfg ∧ remote_address 6379 ∧ field_is "key_prefix" a_text (Some (str "")) ∧ field_is "database" (at_least 0) (Some (VInt 0))
  ∧ field_is "username" (optional nonempty) (Some VNone) ∧ field_is "password" (optional nonempty) (Some VNone)
  ∧ field_is "max_connections" (at_least 1) (Some (VInt 10))
  ∧ field_is "connect_timeout" time_limit (Some (float 5)) ∧ field_is "read_timeout" time_limit (Some (float 5)).
Definition accepted_memcached : Prop :=
  no_unknown_key raw cfg ∧ remote_address 11211 ∧ field_is "key_prefix" a_text (Some (str "")) ∧ user_and_password
  ∧ field_is "min_connections" (at_least 1) (Some (VInt 1)) ∧ field_is "max_connections" (at_least 1) (Some (VInt 10))
  ∧ (∃ lo hi, value cfg "min_connections" = VInt lo ∧ value cfg "max_connections" = VInt hi ∧ (lo <= hi)%Z)
  ∧ field_is "connect_timeout" time_limit (Some (float 5)) ∧ field_is "read_timeout" time_limit (Some (float 5))
  ∧ field_is "blocking_timeout" time_limit (Some (float 5)).
Definition accepted_auth : Prop :=
  field_is "session_ttl_seconds" (between 1 2592000) (Some (VInt 3600)) ∧ field_is "login_limit_cache" (optional nonempty) (Some VNone)
  ∧ field_is "login_max_failures" (between 1 100) (Some (VInt 5)) ∧ field_is "login_failure_window_seconds" (between 1 86400) (Some (VInt 300))
  ∧ field_is "login_lock_seconds" (between 1 2592000) (Some (VInt 900)).
Definition accepted_rate_limit : Prop :=
  field_is "enabled" a_flag (Some (VBool false)) ∧ field_is "cache" (optional nonempty) (Some VNone)
  ∧ field_is "max_requests" (between 1 1000000) (Some (VInt 1000)) ∧ field_is "window_seconds" (between 1 86400) (Some (VInt 60))
  ∧ field_is "fail_open" a_flag (Some (VBool false)).
Definition accepted_cors : Prop :=
  field_is "allow_origins" texts (Some (strings ["*"])) ∧ field_is "allow_methods" texts (Some (strings ["*"]))
  ∧ field_is "allow_headers" texts (Some (strings ["*"])) ∧ field_is "expose_headers" texts (Some (strings ["*"]))
  ∧ field_is "allow_credentials" a_flag (Some (VBool false)) ∧ field_is "max_age" (at_least 0) (Some (VInt 600))
  ∧ (value cfg "allow_credentials" = VBool true → ∀ l, value cfg "allow_origins" = VList (map VStr l) → u "*" ∉ l).
End Accepted.

Section Settings.
Context `{PydanticLaws}.

Lemma setting_of m raw cfg name t d (P : pyval → Prop) :
  settings_of m raw cfg → mk_field (u name) t d ∈ md_fields m → (∀ v, value_ok t v = true ↔ P v) → setting raw cfg name P d.
Proof.
  intros (_ & Hf & _) Hin HP. destruct (Hf _ Hin) as (v & Hv & Ho & Hr). cbn [fd_name fd_type fd_default] in *.
  exists v. split; [done |]. split; [by apply HP |]. destruct (dict_get raw (u name)) as [given |]; [| done].
  intros Hg%HP. apply value_ok_read in Hg. congruence.
Qed.
Lemma settings_keys m raw cfg : settings_of m raw cfg → md_forbid m = true → no_unknown_key raw cfg.
Proof. intros (Hk & _ & Hf & _) Hm k Hin. rewrite Hk. by apply Hf. Qed.

(** What the types of the tables mean. *)
Lemma len_nonempty s : (1 <=? len s)%Z = true ↔ s ≠ [].
Proof. unfold len. destruct s; cbn; [done |]. rewrite Z.leb_le. split; [done | lia]. Qed.
Lemma ok_any_text v : value_ok (text 0) v = true ↔ a_text v.
Proof.
  unfold a_text, text, no_check. cbn. unfold str_fits. split; [destruct v; naive_solver | intros [s ->]].
  rewrite !andb_true_r. apply Z.leb_le. unfold len. lia.
Qed.
Lemma ok_text v : value_ok (text 1) v = true ↔ nonempty v.
Proof.
  unfold nonempty, text, no_check. cbn. unfold str_fits. split.
  - destruct v; try done. rewrite !andb_true_r. intros Hs%len_nonempty. eauto.
  - intros (s & -> & Hs). rewrite !andb_true_r. by apply len_nonempty.
Qed.
Lemma ok_flag v : value_ok TBool v = true ↔ a_flag v.
Proof. unfold a_flag. split; [destruct v; naive_solver | by intros [b ->]]. Qed.
Lemma ok_between lo hi v : value_ok (int_in lo hi) v = true ↔ between lo hi v.
Proof.
  unfold between, int_in. cbn. split; [destruct v; try done; intros ?; exists z; split; [done | to_prop; lia] |].
  intros (z & -> & Hz). apply andb_true_iff. rewrite !Z.leb_le. lia.
Qed.
Lemma ok_at_least lo v : value_ok (int_ge lo) v = true ↔ at_least lo v.
Proof.
  unfold at_least, int_ge. cbn. split; [destruct v; try done; intros ?%Z.leb_le; eauto | intros (z & -> & Hz); by apply Z.leb_le].
Qed.
Lemma ok_seconds v : value_ok (float_gt0 false) v = true ↔ seconds v.
Proof.
  unfold seconds, float_gt0. cbn. split; [destruct v; try done; intros [? ?]%andb_true_iff; eauto |].
  intros (f & -> & Hf & Hs). by rewrite Hf, Hs.
Qed.
Lemma ok_seconds_from lo v : value_ok (float_ge lo) v = true ↔ seconds_from lo v.
Proof.
  unfold seconds_from, float_ge. cbn. split; [destruct v; try done; intros [? ?]%andb_true_iff; eauto |].
  intros (f & -> & Hf & Hs). by rewrite Hf, Hs.
Qed.
Lemma ok_time_limit v : value_ok (float_gt0 true) v = true ↔ time_limit v.
Proof. unfold time_limit, float_gt0. cbn. split; [destruct v; try done; eauto | by intros (f & -> & Hs)]. Qed.
Lemma ok_optional t P v : (∀ v, value_ok t v = true ↔ P v) → value_ok (TOptional t) v = true ↔ optional P v.
Proof. intros HP. unfold optional. cbn. rewrite orb_true_iff, HP, is_none_spec. done. Qed.
Lemma ok_literal l v : value_ok (TLiteral (map u l)) v = true ↔ one_of l v.
Proof.
  unfold one_of. cbn. split.
  - destruct v; try done. intros Hs%bool_decide_eq_true. apply list_elem_of_fmap in Hs as (x & -> & Hx). eauto.
  - intros (s & -> & Hs). apply bool_decide_eq_true. apply list_elem_of_fmap. eauto.
Qed.
Lemma ok_group v : value_ok (TStr 1 None (forallb (λ c, negb (white_space c)))) v = true ↔ a_group v.
Proof.
  unfold a_group. cbn. unfold str_fits. split.
  - destruct v; try done. rewrite andb_true_r. intros [Hl%len_nonempty Hf]%andb_true_iff. rewrite forallb_forall in Hf.
    eexists. split; [done |]. split; [done |]. intros c Hc%list_elem_of_In%Hf. by apply negb_true_iff in Hc.
  - intros (s & -> & Hl & Hf). rewrite andb_true_r. apply andb_true_iff. split; [by apply len_nonempty |]. apply forallb_forall.
    intros c Hc. apply negb_true_iff, Hf. by apply list_elem_of_In.
Qed.
Lemma ok_queue_name v : value_ok (TStr 1 (Some 200%Z) valid_queue_name) v = true ↔ a_queue_name v.
Proof.
  unfold a_queue_name. cbn [value_ok]. unfold str_fits, valid_queue_name. split.
  - destruct v as [| | | | s | | | | |]; try done. intros [[Hl Hh]%andb_true_iff Hq]%andb_true_iff. eexists. split; [done |]. to_prop. split; [lia |].
    revert Hq. destruct (validate_queue_name (VStr s)) as [s' |] eqn:Hv; [intros _ | done]. unfold validate_queue_name in Hv. cbn [is_str] in Hv.
    rewrite !guard_bind_ok in Hv. by destruct Hv as (_ & _ & [= ->]).
  - intros (s & -> & [Hl Hh] & Hq). rewrite Hq. apply andb_true_iff. split; [| done]. apply andb_true_iff. by rewrite !Z.leb_le.
Qed.
Lemma ok_texts ok v : value_ok (TStrs ok) v = true ↔ ∃ l, v = VList (map VStr l) ∧ ok l = true.
Proof.
  cbn. split.
  - destruct v; try done. destruct (mapM is_str l) as [ts |] eqn:E; [| done]. intros Ho. apply mapM_is_str in E. subst. eauto.
  - intros (l & -> & Ho). by rewrite mapM_is_str_map.
Qed.
Lemma ok_name lo hi v : value_ok (TStr lo (Some hi) no_check) v = true ↔ ∃ s, v = VStr s ∧ (lo <= len s <= hi)%Z.
Proof.
  cbn. unfold str_fits, no_check. split; [destruct v; try done; rewrite andb_true_r; intros ?; eexists; split; [done | to_prop; lia] |].
  intros (s & -> & Hs). rewrite andb_true_r. apply andb_true_iff. rewrite !Z.leb_le. lia.
Qed.
Lemma ok_servers v : value_ok (TStrs (λ l, (1 <=? Z.of_nat (length l))%Z)) v = true ↔ servers v.
Proof.
  rewrite ok_texts. unfold servers. split; intros (l & -> & Hl); exists l; (split; [done |]).
  - intros ->. done.
  - destruct l; [done |]. apply Z.leb_le. cbn. lia.
Qed.
Lemma ok_all_texts v : value_ok (TStrs no_check) v = true ↔ texts v.
Proof. rewrite ok_texts. unfold texts, no_check. naive_solver. Qed.
Ltac at_index n := apply (list_elem_of_lookup_2 _ n); reflexivity.
Ltac table_member :=
  first [at_index 0 | at_index 1 | at_index 2 | at_index 3 | at_index 4 | at_index 5 | at_index 6 | at_index 7 | at_index 8 | at_index 9
    | at_index 10 | at_index 11 | at_index 12 | at_index 13 | at_index 14].
(** One setting, from the table of its model. *)
Ltac table_type :=
  first [exact ok_text | exact ok_any_text | exact ok_flag | exact (ok_between _ _) | exact (ok_at_least _) | exact ok_seconds
    | exact (ok_seconds_from _) | exact ok_time_limit | exact (λ v, ok_optional _ _ v ok_text) | exact (λ v, ok_optional _ _ v ok_any_text)
    | (match goal with |- ∀ v, _ ↔ one_of ?l v => exact (ok_literal l) end) | exact ok_group | exact ok_queue_name | exact ok_servers | exact ok_all_texts | exact (ok_name _ _)].
Ltac a_setting Hs := eapply (setting_of _ _ _ _ _ _ _ Hs); [table_member | table_type].

Lemma model_settings m raw cfg : m ∈ connection_models ++ application_models → validate_model m raw = Ok cfg → settings_of m raw cfg.
Proof. intros Hm Hv. by eapply settings_well_typed. Qed.
Lemma vector_accepted raw k cfg : parse_vector_connection raw = Ok (k, cfg) → accepted_vector raw cfg k.
Proof.
  unfold parse_vector_connection. destruct (vector_kind_of raw) as [k' |]; [| done].
  intros (c & Hv & [= -> ->])%result_bind_ok. assert (Hs : settings_of (vector_model k) raw cfg).
  { eapply model_settings; [| exact Hv]. destruct k; table_member. }
  pose proof (λ H, settings_keys _ _ _ Hs H) as Hkeys. pose proof Hs as (_ & _ & _ & Hafter).
  destruct k; cbn [vector_model] in *; (split; [by apply Hkeys |]); cbn [md_after MilvusRemoteVectorSettings ChromaRemoteVectorSettings ElasticsearchVectorSettings] in Hafter;
    unfold remote_address, user_and_password, timeout_is, a_port; split_and!; try (a_setting Hs).
  - by apply both_or_neither_spec.
  - apply andb_true_iff in Hafter as [Hb _]. by apply both_or_neither_spec.
  - apply andb_true_iff in Hafter as [_ Ha]. rewrite negb_andb, !negb_involutive in Ha. apply orb_true_iff in Ha. by rewrite !is_none_spec in Ha.
  - by apply both_or_neither_spec.
Qed.
Lemma queue_accepted raw k cfg : parse_connection raw = Ok (k, cfg) → accepted_queue raw cfg k.
Proof.
  unfold parse_connection. destruct (queue_kind_of raw) as [k' |]; [| done].
  intros (c & Hv & [= -> ->])%result_bind_ok. assert (Hs : settings_of (queue_model k) raw cfg).
  { eapply model_settings; [| exact Hv]. destruct k; table_member. }
  pose proof (λ H, settings_keys _ _ _ Hs H) as Hkeys. pose proof Hs as (_ & _ & _ & Hafter).
  destruct k; cbn [queue_model] in *; (split; [by apply Hkeys |]); unfold remote_address, a_port; split_and!; try (a_setting Hs).
  intros (s & Hsec & Hin). cbn [md_after KafkaQueueSettings] in Hafter. rewrite Hsec in Hafter.
  assert (Hstart : starts "SASL" (str s) = true).
  { apply elem_of_cons in Hin as [-> | Hin%list_elem_of_singleton]; [| subst s]; vm_compute; reflexivity. }
  rewrite Hstart in Hafter. cbn [andb] in Hafter. apply negb_true_iff, orb_false_iff in Hafter as [Hu Hp]. apply negb_false_iff in Hu.
  assert (Huser : setting raw cfg "username" (optional a_text) (Some VNone)) by a_setting Hs.
  assert (Hpass : setting raw cfg "password" (optional a_text) (Some VNone)) by a_setting Hs.
  destruct Huser as (x & Hx & Hxt & _), Hpass as (y & Hy & Hyt & _). unfold value in *. rewrite Hx in Hu |- *. rewrite Hy in Hp |- *. cbn in *. split.
  - destruct Hxt as [-> | [t ->]]; [done |]. exists t. split; [done |]. by intros ->.
  - destruct Hyt as [-> | Ht]; done.
Qed.
Lemma worker_accepted raw cfg : parse_worker raw = Ok cfg → accepted_worker raw cfg.
Proof.
  unfold parse_worker. destruct (match dict_get raw (u "concurrency") with Some v => integer_or_digits v | None => true end) eqn:Hd; [| done].
  intros Hv. assert (Hs : settings_of WorkerSettings raw cfg) by (eapply model_settings; [table_member | exact Hv]).
  split; [by eapply settings_keys |]. split; [| split; [a_setting Hs |]].
  - eapply (setting_of _ _ _ _ _ _ _ Hs); [table_member |]. intros v. cbn [value_ok]. unfold between, validate_worker_concurrency. cbn [is_int]. split.
    + destruct v; try done. intros [Hz _]%andb_true_iff. eexists. split; [done |]. to_prop. lia.
    + intros (z & -> & Hz). assert (Hb : ((1 <=? z) && (z <=? 1024))%Z = true) by (apply andb_true_iff; rewrite !Z.leb_le; lia). rewrite Hb. done.
  - destruct (dict_get raw (u "concurrency")) as [[] |]; try done. cbn [integer_or_digits] in Hd. to_prop. split; [done |].
    rewrite forallb_forall in *. intros c Hc%list_elem_of_In. auto.
Qed.
Lemma redis_cache_accepted raw cfg : validate_model RedisCacheSettings raw = Ok cfg → accepted_redis_cache raw cfg.
Proof.
  intros Hv. assert (Hs : settings_of RedisCacheSettings raw cfg) by (eapply model_settings; [table_member | exact Hv]).
  split; [by eapply settings_keys |]. unfold remote_address, a_port. split_and!; a_setting Hs.
Qed.
Lemma memcached_accepted raw cfg : validate_model MemcachedCacheSettings raw = Ok cfg → accepted_memcached raw cfg.
Proof.
  intros Hv. assert (Hs : settings_of MemcachedCacheSettings raw cfg) by (eapply model_settings; [table_member | exact Hv]).
  split; [by eapply settings_keys |]. pose proof Hs as (_ & _ & _ & Hafter). cbn [md_after MemcachedCacheSettings] in Hafter.
  apply andb_true_iff in Hafter as [Hlt Hb]. unfold remote_address, user_and_password, a_port. split_and!; try (a_setting Hs).
  - by apply both_or_neither_spec.
  - assert (Hlo : setting raw cfg "min_connections" (at_least 1) (Some (VInt 1))) by a_setting Hs.
    assert (Hhi : setting raw cfg "max_connections" (at_least 1) (Some (VInt 10))) by a_setting Hs.
    destruct Hlo as (x & Hx & (lo & -> & _) & _), Hhi as (y & Hy & (hi & -> & _) & _). exists lo, hi. unfold value in *. rewrite Hx, Hy in *. cbn in *.
    split; [done |]. split; [done |]. by apply Z.leb_le.
Qed.
Lemma application_accepted raw cfg :
  (validate_model AuthSettings raw = Ok cfg → accepted_auth raw cfg)
  ∧ (validate_model RateLimitSettings raw = Ok cfg → accepted_rate_limit raw cfg)
  ∧ (validate_model CorsSettings raw = Ok cfg → accepted_cors raw cfg).
Proof.
  split_and!; intros Hv.
  - assert (Hs : settings_of AuthSettings raw cfg) by (eapply model_settings; [apply elem_of_app; right; table_member | exact Hv]).
    split_and!; a_setting Hs.
  - assert (Hs : settings_of RateLimitSettings raw cfg) by (eapply model_settings; [apply elem_of_app; right; table_member | exact Hv]).
    split_and!; a_setting Hs.
  - assert (Hs : settings_of CorsSettings raw cfg) by (eapply model_settings; [apply elem_of_app; right; table_member | exact Hv]).
    pose proof Hs as (_ & _ & _ & Hafter). split_and!; try (a_setting Hs). intros Hc l Ho Hin. cbn [md_after CorsSettings] in Hafter.
    rewrite Hc, Ho in Hafter. cbn [is_true has_text andb] in Hafter. apply negb_true_iff in Hafter.
    assert (existsb (λ v, match v with VStr t => bool_decide (t = u "*") | _ => false end) (map VStr l) = true); [| congruence].
    apply existsb_exists. exists (VStr (u "*")). split; [| by apply bool_decide_eq_true]. apply in_map. by apply list_elem_of_In.
Qed.
End Settings.

(** C39: what the configuration models accept.  A vector, queue, worker or cache
    configuration that is accepted has no unknown key; its ports, sizes, time limits,
    names and literals are within the documented bounds; a user name and a password
    come together where the service needs both; Chroma has one way to authenticate,
    SASL has both credentials, the pool's minimum is no larger than its maximum and
    the concurrency was given as an integer or digits; the authentication, rate limit
    and CORS settings are within their bounds, and credentials exclude the origin [*].  Every
    setting listed that is not given is its documented default, and a given one that
    is already valid is kept. *)
Theorem accepted_settings `{PydanticLaws} :
  (∀ raw k cfg, parse_vector_connection raw = Ok (k, cfg) → accepted_vector raw cfg k)
  ∧ (∀ raw k cfg, parse_connection raw = Ok (k, cfg) → accepted_queue raw cfg k)
  ∧ (∀ raw cfg, parse_worker raw = Ok cfg → accepted_worker raw cfg)
  ∧ (∀ raw cfg, validate_model RedisCacheSettings raw = Ok cfg → accepted_redis_cache raw cfg)
  ∧ (∀ raw cfg, validate_model MemcachedCacheSettings raw = Ok cfg → accepted_memcached raw cfg)
  ∧ (∀ raw cfg, validate_model AuthSettings raw = Ok cfg → accepted_auth raw cfg)
  ∧ (∀ raw cfg, validate_model RateLimitSettings raw = Ok cfg → accepted_rate_limit raw cfg)
  ∧ (∀ raw cfg, validate_model CorsSettings raw = Ok cfg → accepted_cors raw cfg).
Proof.
  split_and!; [exact vector_accepted | exact queue_accepted | exact worker_accepted | exact redis_cache_accepted | exact memcached_accepted
    | intros raw cfg; exact (proj1 (application_accepted raw cfg))
    | intros raw cfg; exact (proj1 (proj2 (application_accepted raw cfg))) | intros raw cfg; exact (proj2 (proj2 (application_accepted raw cfg)))].
Qed.

(** ** A concrete configuration *)
Definition plain_pydantic : Pydantic := {|
  as_str := is_str; as_int := is_int;
  as_float := λ v, match v with VFloat f => Some f | VInt z => Some (float_int z) | _ => None end;
  as_bool := λ v, match v with VBool b => Some b | _ => None end;
  as_strs := λ v, match v with VList l => mapM is_str l | _ => None end;
  as_mapping := λ v, match v with VDict d => Some d | _ => None end;
|}.
Lemma plain_pydantic_laws : @PydanticLaws plain_pydantic.
Proof. split; try done. intros l. apply mapM_is_str_map. Qed.
Definition demo_raw : pydict pyval :=
  [(u "driver", str "rabbitmq"); (u "host", str "mq.internal"); (u "connect_timeout", VInt 2)].

Lemma accepted_settings_witness :
  ∃ cfg, @parse_connection plain_pydantic demo_raw = Ok (RabbitMQQueue, cfg)
    ∧ dict_get cfg (u "port") = Some (VInt 5672) ∧ dict_get cfg (u "connect_timeout") = Some (float 2)
    ∧ accepted_queue demo_raw cfg RabbitMQQueue.
Proof.
  destruct (@parse_connection plain_pydantic demo_raw) as [[k cfg] | e] eqn:Hv; [| vm_compute in Hv; discriminate Hv].
  assert (k = RabbitMQQueue) as -> by (revert Hv; vm_compute; intros Hv; injection Hv as <- _; reflexivity).
  exists cfg. split; [reflexivity |].
  assert (Hg : dict_get cfg (u "port") = Some (VInt 5672) ∧ dict_get cfg (u "connect_timeout") = Some (float 2)).
  { revert Hv. vm_compute. intros Hv. injection Hv as <-. done. }
  split; [apply Hg |]. split; [apply Hg |].
  exact (proj1 (proj2 (@accepted_settings plain_pydantic plain_pydantic_laws)) _ _ _ Hv).
Defined.
