(* ===== verification/NamedResources.v ===== *)
(** * NamedResources: named lazy resources under one manager

    The part the managers of the application share: a flag [_closed], an
    [AsyncLazy] per configured name, [get] and [aclose].  The manager's own
    fields are the state [named]; factories and closers are programs over an
    environment [W] that may fail.  [VectorStoreManager] and [DatabaseManager]
    are instances. *)

From S2P Require Import Prelude Text PyVal Errors Lazy Runtime.
Local Open Scope prog_scope.

Record named (A : Type) := mk_named { nm_closed : bool; nm_resources : pydict (lazy_fields A) }.
Arguments mk_named {A}.
Arguments nm_closed {A}.
Arguments nm_resources {A}.

Section Named.
Context {W A : Type}.
Abbreviation world := (named A * W)%type.
Context (names : list pystr) (factory : pystr → io W A) (closer : pystr → A → io W unit)
  (resolve : option pystr → result exn pystr).

(** The lazy resources as the constructor makes them. *)
Definition named_init : named A := mk_named false (map (λ n, (n, mk_fields None false)) names).

Definition in_env {X} (m : io W X) : io world X := λ w, let '(e, r) := m w.2 in ((w.1, e), r).
Definition lazy_of (name : pystr) (s : named A) : lazy_fields A :=
  default (mk_fields None true) (dict_get (nm_resources s) name).
Definition resource_ref (name : pystr) : lazy_ref world A :=
  mk_ref (λ w, lazy_of name w.1)
         (λ f w, (mk_named (nm_closed w.1) (dict_set (nm_resources w.1) name f), w.2)).

(** [self._resources[name].get()], [.initialized] *)
Definition resource_get (name : pystr) : io world A := lazy_get (resource_ref name) (in_env (factory name)).
Definition resource_initialized (name : pystr) (w : world) : bool := lazy_initialized (resource_ref name) w.
(** [self._closed = True; await close_lazy_resources(self._resources.values())] *)
Definition resource_handle (name : pystr) : @handle world :=
  mk_handle (lazy_begin_close (resource_ref name)) (lazy_aclose (resource_ref name) (λ a, in_env (closer name a))).
Definition named_aclose : io world unit :=
  modify (λ w, (mk_named true (nm_resources w.1), w.2));;;
  close_lazy_resources (map resource_handle names).

(** [get(name)]: [resolve] picks the name or refuses. *)
Definition named_get (name : option pystr) : io world A :=
  let* closed := read (λ w : world, nm_closed w.1) in
  (if closed then raise RuntimeError else ret tt);;;
  let* n := lift (resolve name) in
  resource_get n.
End Named.

(** ** Histories

    The environment also keeps the creations and closings that succeeded. *)
Inductive life_event (A : Type) := Created (name : pystr) (a : A) | Closed (a : A).
Arguments Created {A} name a.
Arguments Closed {A} a.

Section History.
Context {W A : Type} (names : list pystr) (factory : pystr → io W A) (closer : pystr → A → io W unit)
  (resolve : option pystr → result exn pystr).
Abbreviation env := (W * list (pystr * life_event A))%type.
Abbreviation world := (named A * env)%type.

Definition traced_factory (name : pystr) : io env A := λ e,
  match factory name e.1 with
  | (e1, Ok a) => ((e1, e.2 ++ [(name, Created name a)]), Ok a)
  | (e1, Err x) => ((e1, e.2), Err x)
  end.
Definition traced_closer (name : pystr) (a : A) : io env unit := λ e,
  match closer name a e.1 with
  | (e1, Ok _) => ((e1, e.2 ++ [(name, Closed a)]), Ok tt)
  | (e1, Err x) => ((e1, e.2), Err x)
  end.
Abbreviation traced_handle := (resource_handle traced_closer).
Abbreviation traced_get := (resource_get traced_factory).
Abbreviation traced_aclose := (named_aclose names traced_closer).

(** The history of one name, and the states it leaves a lazy resource in. *)
Definition history (name : pystr) (l : list (pystr * life_event A)) : list (life_event A) :=
  map snd (List.filter (λ e, bool_decide (e.1 = name)) l).
Definition life_ok (h : list (life_event A)) (name : pystr) (f : lazy_fields A) : Prop :=
  match lf_value f with
  | Some a => h = [Created name a]
  | None => h = [] ∨ lf_closed f = true ∧ ∃ a, h = [Created name a; Closed a]
  end.
Definition lives (w : world) : Prop :=
  dict_keys (nm_resources w.1) = names
  ∧ ∀ n, n ∈ names → life_ok (history n w.2.2) n (lazy_of n w.1).

Lemma history_app n l1 l2 : history n (l1 ++ l2) = history n l1 ++ history n l2.
Proof. unfold history. by rewrite List.filter_app, map_app. Qed.
Lemma history_one n m e : history n [(m, e)] = if decide (m = n) then [e] else [].
Proof. unfold history. simpl. case_bool_decide; by case_decide. Qed.

Lemma dict_set_keys {V} (d : pydict V) k v : k ∈ dict_keys d → dict_keys (dict_set d k v) = dict_keys d.
Proof.
  intros Hk. unfold dict_set. rewrite bool_decide_true by done. unfold dict_keys. rewrite map_map.
  apply map_ext. intros [k' v']. simpl. by case_decide; subst.
Qed.
Lemma lazy_of_set (s : named A) n f m :
  lazy_of m (mk_named (nm_closed s) (dict_set (nm_resources s) n f)) = if decide (n = m) then f else lazy_of m s.
Proof. unfold lazy_of. simpl. rewrite dict_get_set. by case_decide. Qed.

(** One lazy resource moves on, together with its history. *)
Lemma lives_set w n f e l :
  lives w → n ∈ names → life_ok (history n w.2.2 ++ l) n f →
  lives (mk_named (nm_closed w.1) (dict_set (nm_resources w.1) n f), (e, w.2.2 ++ map (pair n) l)).
Proof.
  intros [Hk Hl] Hn Hf. split; simpl; [rewrite dict_set_keys; [done | by rewrite Hk] |].
  intros m Hm. rewrite lazy_of_set, history_app. unfold history at 2.
  destruct (decide (n = m)) as [<- | Hne].
  - assert (Hh : map snd (List.filter (λ e0 : pystr * life_event A, bool_decide (e0.1 = n)) (map (pair n) l)) = l).
    { clear. induction l as [| x l IH]; [done |]. simpl. rewrite bool_decide_true by done. simpl. by rewrite IH. }
    by rewrite Hh.
  - assert (Hh : List.filter (λ e0 : pystr * life_event A, bool_decide (e0.1 = m)) (map (pair n) l) = []).
    { clear -Hne. induction l as [| x l IH]; [done |]. simpl. by rewrite bool_decide_false. }
    rewrite Hh. simpl. rewrite app_nil_r. by apply Hl.
Qed.
Lemma lives_env w e : lives w → lives (w.1, (e, w.2.2)).
Proof. by destruct w as [s [e0 l]]. Qed.

(** [get]: at most one creation; nothing else changes. *)
Lemma traced_get_lives n w w' r :
  lives w → n ∈ names → traced_get n w = (w', r) →
  lives w' ∧ nm_closed w'.1 = nm_closed w.1
  ∧ (∀ m, lf_closed (lazy_of m w'.1) = lf_closed (lazy_of m w.1))
  ∧ match r with
    | Ok a => lf_closed (lazy_of n w.1) = false ∧ lf_value (lazy_of n w'.1) = Some a
    | Err _ => w'.1 = w.1
    end
  ∧ (lf_closed (lazy_of n w.1) = true → w' = w ∧ r = Err RuntimeError).
Proof.
  intros Hl Hn. unfold resource_get, lazy_get, lazy_refuse_closed, lazy_put. unprog. cbn [ref_get ref_set resource_ref]. cbv beta.
  destruct (lf_closed (lazy_of n w.1)) eqn:Hc; [intros [= <- <-]; done |].
  do 3 (cbv beta iota; rewrite ?Hc). destruct (lf_value (lazy_of n w.1)) as [a |] eqn:Hv; cbv beta iota; rewrite ?Hc; cbv beta iota.
  { intros [= <- <-]. done. }
  unfold in_env, traced_factory. destruct (factory n w.2.1) as [e1 [a | x]]; cbn [fst snd].
  - rewrite lazy_of_set, decide_True by done. cbn [lf_closed]. rewrite Hc. cbv beta iota. intros [= <- <-].
    split; [| split; [done | split; [| split; [| done]]]].
    + apply (lives_set w n (mk_fields (Some a) false) e1 [Created n a]); [done.. |]. simpl.
      destruct Hl as [_ Hl]. specialize (Hl n Hn). unfold life_ok in Hl. rewrite Hv, Hc in Hl.
      destruct Hl as [Hl | [? ?]]; [by rewrite Hl | done].
    + intros m. cbn [fst]. rewrite lazy_of_set. case_decide; by subst.
    + split; [done |]. cbn [fst]. by rewrite lazy_of_set, decide_True.
  - intros [= <- <-]. split; [by apply (lives_env w) |]. done.
Qed.

Lemma lives_same w (s : named A) :
  lives w → dict_keys (nm_resources s) = names →
  (∀ n, n ∈ names → lf_value (lazy_of n s) = lf_value (lazy_of n w.1)
     ∧ (lf_closed (lazy_of n w.1) = true → lf_closed (lazy_of n s) = true)) →
  lives (s, w.2).
Proof.
  intros [Hk Hl] Hs Hsame. split; [done |]. intros n Hn. destruct (Hsame n Hn) as [Hv Hc]. specialize (Hl n Hn).
  unfold life_ok in *. simpl. rewrite Hv. destruct (lf_value _); [done |]. destruct Hl as [? | (? & a & Ha)]; [by left |].
  right. split; [by apply Hc |]. by exists a.
Qed.

(** Sealing changes the flag of one resource only. *)
Lemma seal_lives n w :
  lives w → n ∈ names →
  ∃ w1, h_begin_close (traced_handle n) w = (w1, Ok tt) ∧ lives w1 ∧ w1.2 = w.2 ∧ nm_closed w1.1 = nm_closed w.1
    ∧ ∀ m, lf_value (lazy_of m w1.1) = lf_value (lazy_of m w.1)
        ∧ lf_closed (lazy_of m w1.1) = lf_closed (lazy_of m w.1) || bool_decide (n = m).
Proof.
  intros Hl Hn. eexists. split; [reflexivity |]. cbn [fst snd resource_ref ref_get ref_set].
  assert (Hm : ∀ m, lazy_of m (mk_named (nm_closed w.1) (dict_set (nm_resources w.1) n (mk_fields (lf_value (lazy_of n w.1)) true)))
    = mk_fields (lf_value (lazy_of m w.1)) (lf_closed (lazy_of m w.1) || bool_decide (n = m))).
  { intros m. rewrite lazy_of_set. case_decide as Hd; [subst; by rewrite bool_decide_true, orb_true_r |].
    rewrite bool_decide_false, orb_false_r by done. by destruct (lazy_of m w.1). }
  split; [| split; [done | split; [done |]]].
  - apply lives_same; [done | |].
    + simpl. rewrite dict_set_keys; [apply Hl |]. by rewrite (proj1 Hl).
    + intros m _. rewrite Hm. simpl. split; [done |]. by intros ->.
  - intros m. by rewrite Hm.
Qed.
Lemma seal_all_lives l w :
  lives w → (∀ n, n ∈ l → n ∈ names) →
  ∃ w1, seal_all (map traced_handle l) w = (w1, Ok tt) ∧ lives w1 ∧ w1.2 = w.2 ∧ nm_closed w1.1 = nm_closed w.1
    ∧ ∀ m, lf_value (lazy_of m w1.1) = lf_value (lazy_of m w.1)
        ∧ lf_closed (lazy_of m w1.1) = lf_closed (lazy_of m w.1) || bool_decide (m ∈ l).
Proof.
  revert w. induction l as [| n l IH]; intros w Hl Hin.
  - exists w. split_and!; try done. intros m. by rewrite bool_decide_false, orb_false_r by set_solver.
  - destruct (seal_lives n w Hl) as (w1 & Hs & Hl1 & He1 & Hc1 & Hm1); [set_solver |].
    destruct (IH w1 Hl1) as (w2 & Hs2 & Hl2 & He2 & Hc2 & Hm2); [set_solver |].
    exists w2. split; [| split; [done | split; [congruence | split; [congruence |]]]].
    + cbn [map seal_all]. unfold bind. rewrite Hs. exact Hs2.
    + intros m. destruct (Hm1 m) as [Hv1 Hf1], (Hm2 m) as [Hv2 Hf2]. split; [congruence |].
      rewrite Hf2, Hf1, <- orb_assoc. f_equal. destruct (decide (n = m)) as [-> | Hne].
      * rewrite (bool_decide_true (m = m)), (bool_decide_true (m ∈ m :: l)) by (done || by left). done.
      * rewrite (bool_decide_false (n = m)) by done. simpl. apply bool_decide_ext. rewrite elem_of_cons.
        split; [by right | by intros [-> | ?]].
Qed.

(** Closing a sealed resource: it is gone exactly when its closer succeeded. *)
Lemma close_lives n w w' r :
  lives w → n ∈ names → lf_closed (lazy_of n w.1) = true → h_aclose (traced_handle n) w = (w', r) →
  lives w' ∧ nm_closed w'.1 = nm_closed w.1
  ∧ (∀ m, lf_closed (lazy_of m w'.1) = lf_closed (lazy_of m w.1)
      ∧ (m ≠ n → lf_value (lazy_of m w'.1) = lf_value (lazy_of m w.1)))
  ∧ lf_value (lazy_of n w'.1) = (if is_ok r then None else lf_value (lazy_of n w.1))
  ∧ (is_ok r = false → is_Some (lf_value (lazy_of n w.1))).
Proof.
  intros Hl Hn Hc Hr. destruct (seal_lives n w Hl Hn) as (w1 & Hs & Hl1 & He1 & Hc1 & Hm1).
  change (h_aclose (traced_handle n) w) with (lazy_aclose (resource_ref n) (λ a, in_env (traced_closer n a)) w) in Hr.
  unfold lazy_aclose in Hr. unfold bind at 1 in Hr. change (lazy_begin_close (resource_ref n) w) with (h_begin_close (traced_handle n) w) in Hr.
  rewrite Hs in Hr. unfold bind, read in Hr. cbn [ref_get resource_ref] in Hr.
  destruct (Hm1 n) as [Hvn _]. rewrite Hvn in Hr.
  assert (Hsame : ∀ m, lf_closed (lazy_of m w1.1) = lf_closed (lazy_of m w.1)).
  { intros m. destruct (Hm1 m) as [_ ->]. destruct (decide (n = m)) as [<- | Hne];
      [by rewrite Hc | by rewrite bool_decide_false, orb_false_r]. }
  destruct (lf_value (lazy_of n w.1)) as [a |] eqn:Hv.
  2: { injection Hr as <- <-. split_and!; [done | done | intros m; split; [apply Hsame | intros _; apply Hm1] | done | done]. }
  unfold in_env, traced_closer in Hr. destruct (closer n a w1.2.1) as [e2 [[] | x]]; cbn [fst snd] in Hr.
  - unfold lazy_put, modify in Hr. injection Hr as <- <-. cbn [ref_get ref_set resource_ref fst snd is_ok].
    assert (Hset : ∀ m, lazy_of m (mk_named (nm_closed w1.1) (dict_set (nm_resources w1.1) n (mk_fields None (lf_closed (lazy_of n w1.1)))))
      = if decide (n = m) then mk_fields None (lf_closed (lazy_of n w1.1)) else lazy_of m w1.1) by (intros; apply lazy_of_set).
    split; [| split; [done | split; [| split; [| done]]]].
    + apply (lives_set w1 n _ e2 [Closed a]); [done.. |]. unfold life_ok. simpl. right. split; [by rewrite Hsame |].
      exists a. destruct Hl1 as [_ Hl1]. specialize (Hl1 n Hn). unfold life_ok in Hl1. rewrite Hvn in Hl1. by rewrite Hl1.
    + intros m. rewrite Hset. destruct (decide (n = m)) as [<- | Hne]; [split; [apply Hsame | done] |].
      split; [apply Hsame | intros _; apply Hm1].
    + by rewrite Hset, decide_True.
  - injection Hr as <- <-. cbn [fst is_ok]. split; [by apply (lives_env w1) |]. split; [done |].
    split; [intros m; split; [apply Hsame | intros _; apply Hm1] |]. by rewrite Hvn.
Qed.
Lemma close_all_lives l w :
  lives w → (∀ n, n ∈ l → n ∈ names) → (∀ n, n ∈ names → lf_closed (lazy_of n w.1) = true) →
  let '(w', es) := run_all (map (λ n, h_aclose (traced_handle n)) l) w in
  lives w' ∧ nm_closed w'.1 = nm_closed w.1 ∧ (∀ n, n ∈ names → lf_closed (lazy_of n w'.1) = true)
  ∧ (∀ n, lf_value (lazy_of n w.1) = None → lf_value (lazy_of n w'.1) = None)
  ∧ (es = [] → ∀ n, n ∈ l → lf_value (lazy_of n w'.1) = None).
Proof.
  revert w. induction l as [| n l IH]; intros w Hl Hin Hc; [split_and!; try done; set_solver |].
  cbn [map run_all]. destruct (h_aclose (traced_handle n) w) as [w1 r] eqn:Hr.
  destruct (close_lives n w w1 r) as (Hl1 & Hc1 & Hm1 & Hv1 & Hn1); [done | set_solver | by apply Hc; set_solver | done |].
  specialize (IH w1 Hl1). destruct (run_all _ w1) as [w2 es].
  destruct IH as (Hl2 & Hc2 & Hf2 & Hv2 & He2); [set_solver | intros m Hm; destruct (Hm1 m) as [-> _]; by apply Hc |].
  split; [done |]. split; [congruence |]. split; [done |]. split.
  - intros m Hm. apply Hv2. destruct (decide (m = n)) as [-> | Hne]; [rewrite Hv1; by destruct (is_ok r) |].
    destruct (Hm1 m) as [_ Hm1']. by rewrite Hm1'.
  - destruct r as [[] | x]; [| done]. intros Hes m Hm. change (es = []) in Hes.
    apply elem_of_cons in Hm as [-> | Hm]; [by apply Hv2 | by apply (He2 Hes)].
Qed.

Lemma traced_aclose_lives w w' r :
  lives w → traced_aclose w = (w', r) →
  lives w' ∧ nm_closed w'.1 = true ∧ (∀ n, n ∈ names → lf_closed (lazy_of n w'.1) = true)
  ∧ (∀ n, lf_value (lazy_of n w.1) = None → lf_value (lazy_of n w'.1) = None)
  ∧ (r = Ok tt → ∀ n, n ∈ names → lf_value (lazy_of n w'.1) = None).
Proof.
  intros Hl. unfold named_aclose, close_lazy_resources. unfold bind at 1, modify.
  assert (Hl0 : lives (mk_named true (nm_resources w.1), w.2)) by (apply lives_same; [done | apply Hl | done]).
  destruct (seal_all_lives names _ Hl0) as (w1 & Hs & Hl1 & He1 & Hc1 & Hm1); [done |].
  unfold bind. rewrite Hs, collect_errors_run.
  replace (reverse (map traced_handle names)) with (map traced_handle (reverse names)) by apply (fmap_reverse traced_handle).
  rewrite map_map. pose proof (close_all_lives (reverse names) w1 Hl1) as Hca.
  destruct (run_all _ w1) as [w2 es]. rewrite raise_group_run. intros [= <- <-].
  destruct Hca as (Hl2 & Hc2 & Hf2 & Hv2 & He2).
  { intros n. by rewrite elem_of_reverse. }
  { intros n Hn. destruct (Hm1 n) as [_ ->]. by rewrite (bool_decide_true (n ∈ names)), orb_true_r. }
  split; [done |]. split; [by rewrite Hc2, Hc1 |]. split; [done |]. split.
  - intros n Hn. apply Hv2. destruct (Hm1 n) as [-> _]. exact Hn.
  - intros Hr n Hn. apply He2; [by destruct es |]. by apply elem_of_reverse.
Qed.

(** A history of calls, from the constructed manager on. *)
Inductive manager_call := CallGet (name : option pystr) | CallClose.
Definition manager_run (c : manager_call) (w : world) : world * bool :=
  match c with
  | CallGet name => let '(w', r) := named_get traced_factory resolve name w in (w', is_ok r)
  | CallClose => let '(w', r) := traced_aclose w in (w', is_ok r)
  end.
(** The calls with whether each returned, and the world at the end. *)
Fixpoint manager_runs (cs : list manager_call) (w : world) : world * list (manager_call * bool) :=
  match cs with
  | [] => (w, [])
  | c :: cs => let '(w1, ok) := manager_run c w in let '(w2, l) := manager_runs cs w1 in (w2, (c, ok) :: l)
  end.

Definition closing_done (l : list (manager_call * bool)) : Prop := (CallClose, true) ∈ l.
Definition manager_inv (w : world) : Prop :=
  lives w ∧ (nm_closed w.1 = true → ∀ n, n ∈ names → lf_closed (lazy_of n w.1) = true).

Hypothesis resolve_names : ∀ name n, resolve name = Ok n → n ∈ names.

Lemma manager_run_inv c w w' ok :
  manager_inv w → manager_run c w = (w', ok) →
  manager_inv w'
  ∧ (nm_closed w.1 = true → nm_closed w'.1 = true
      ∧ (∀ n, n ∈ names → lf_value (lazy_of n w.1) = None → lf_value (lazy_of n w'.1) = None)
      ∧ (ok = true → c = CallClose))
  ∧ (c = CallClose → nm_closed w'.1 = true ∧ (ok = true → ∀ n, n ∈ names → lf_value (lazy_of n w'.1) = None)).
Proof.
  intros [Hl Hc]. destruct c as [name |]; simpl.
  - unfold named_get, bind, read, lift. destruct (nm_closed w.1) eqn:Hcl.
    + intros [= <- <-]. split; [split; [done | intros _; by apply Hc] |]. split; [intros _; by split_and! | done].
    + destruct (resolve name) as [n | e] eqn:Hres.
      2: { simpl. intros [= <- <-]. split; [split; [done | by rewrite Hcl] |]. done. }
      simpl. destruct (traced_get n w) as [w1 r] eqn:Hg. intros [= <- <-].
      destruct (traced_get_lives n w w1 r Hl (resolve_names _ _ Hres) Hg) as (Hl1 & Hc1 & _ & _ & _).
      split; [split; [done |] | done]. rewrite Hc1, Hcl. done.
  - destruct (traced_aclose w) as [w1 r] eqn:Ha. intros [= <- <-].
    destruct (traced_aclose_lives w w1 r Hl Ha) as (Hl1 & Hc1 & Hf1 & Hv1 & Hr1).
    split; [split; [done | by intros _] |]. split; [intros _; split_and!; auto |]. intros _. split; [done |].
    destruct r as [[] | e]; [intros _; by apply Hr1 | done].
Qed.

Lemma manager_runs_inv cs w w' l :
  manager_inv w → manager_runs cs w = (w', l) →
  manager_inv w'
  ∧ (nm_closed w.1 = true → nm_closed w'.1 = true ∧ (∀ c, (c, true) ∈ l → c = CallClose)
      ∧ (∀ n, n ∈ names → lf_value (lazy_of n w.1) = None → lf_value (lazy_of n w'.1) = None))
  ∧ (closing_done l → ∀ n, n ∈ names → lf_value (lazy_of n w'.1) = None).
Proof.
  revert w l. induction cs as [| c cs IH]; intros w l Hi; simpl.
  - intros [= <- <-]. split; [done |]. split; [intros ?; split_and!; try done; set_solver |]. unfold closing_done. set_solver.
  - destruct (manager_run c w) as [w1 ok] eqn:Hc. destruct (manager_runs cs w1) as [w2 l2] eqn:Hcs. intros [= <- <-].
    destruct (manager_run_inv c w w1 ok Hi Hc) as (Hi1 & Hk1 & Hd1). destruct (IH w1 l2 Hi1 Hcs) as (Hi2 & Hk2 & Hd2).
    split; [done |]. split.
    + intros Hcl. destruct (Hk1 Hcl) as (Hcl1 & Hn1 & Ho1). destruct (Hk2 Hcl1) as (Hcl2 & Ho2 & Hn2).
      split; [done |]. split; [| by eauto]. intros c' [Heq | Hin]%elem_of_cons; [injection Heq as -> <-; by apply Ho1 | by apply Ho2].
    + intros [Heq | Hin]%elem_of_cons; [| by apply Hd2]. injection Heq as <- <-. intros n Hn.
      destruct (Hd1 eq_refl) as [Hcl1 Hv1]. destruct (Hk2 Hcl1) as (_ & _ & Hn2). apply Hn2; [done |]. by apply Hv1.
Qed.

(** Over any calls in any order on a new manager: every name has had at most
    one resource, which was created before it was closed and closed at most
    once; after an [aclose] that returned nothing created is left open; and no
    [get] after the first [aclose] returns anything. *)
Lemma manager_history cs e w l :
  manager_runs cs (named_init names, (e, [])) = (w, l) →
  (∀ n, n ∈ names → history n w.2.2 = [] ∨ (∃ a, history n w.2.2 = [Created n a])
     ∨ ∃ a, history n w.2.2 = [Created n a; Closed a])
  ∧ (closing_done l → ∀ n a, n ∈ names → Created n a ∈ history n w.2.2 → history n w.2.2 = [Created n a; Closed a])
  ∧ (∀ l1 l2 ok, l = l1 ++ (CallClose, ok) :: l2 → ∀ c, (c, true) ∈ l2 → c = CallClose).
Proof.
  intros Hrun.
  assert (Hinit : manager_inv (named_init names, (e, []))).
  { split; [| done]. split; simpl.
    - unfold dict_keys. rewrite map_map. apply map_id.
    - intros n Hn. assert (Hlz : lazy_of n (named_init (A:=A) names) = mk_fields None false).
      { unfold lazy_of, named_init. cbn [nm_resources]. revert Hn. clear. induction names as [| m ms IH]; [set_solver |].
        intros [-> | Hn]%elem_of_cons; simpl; [by rewrite decide_True |]. case_decide; [done | by apply IH]. }
      rewrite Hlz. by left. }
  destruct (manager_runs_inv cs _ w l Hinit Hrun) as ([[_ Hl] _] & _ & Hd). split; [| split].
  - intros n Hn. specialize (Hl n Hn). unfold life_ok in Hl. destruct (lf_value _); [by eauto |].
    destruct Hl as [? | (_ & a & ?)]; eauto.
  - intros Hdone n a Hn Hin. specialize (Hl n Hn). unfold life_ok in Hl. rewrite (Hd Hdone n Hn) in Hl.
    destruct Hl as [Heq | (_ & b & Heq)]; rewrite Heq in Hin |- *; [set_solver |].
    rewrite !elem_of_cons in Hin. destruct Hin as [[= ->] | [? | ?]]; [done | done | set_solver].
  - intros l1 l2 ok ->. revert Hinit Hrun. generalize (named_init (A:=A) names, (e, @nil (pystr * life_event A))).
    clear Hl Hd. revert l1. induction cs as [| c cs IH]; intros l1 w0 Hi Hrun; [destruct l1; discriminate Hrun |].
    simpl in Hrun. destruct (manager_run c w0) as [w1 ok1] eqn:Hc. destruct (manager_runs cs w1) as [w2 l3] eqn:Hcs.
    injection Hrun as -> Hl. destruct (manager_run_inv c w0 w1 ok1 Hi Hc) as (Hi1 & _ & Hd1).
    destruct l1 as [| x l1]; simpl in Hl.
    + injection Hl as -> -> Hl. destruct (Hd1 eq_refl) as [Hcl _]. destruct (manager_runs_inv cs w1 w l3 Hi1 Hcs) as (_ & Hk & _).
      destruct (Hk Hcl) as (_ & Ho & _). by rewrite <- Hl.
    + injection Hl as _ Hl. subst l3. by apply (IH l1 w1).
Qed.
End History.
