(* ===== verification/VectorManager.v ===== *)
(** * VectorManager: choosing, creating and closing the vector clients

    Models [infrastructure/vector/providers/registry.py], [vector/manager.py]
    and [vector/resource.py]: the registry of drivers, the validation of every
    connection when the manager is built, and the named lazy resources of
    NamedResources.  What a driver's module does to create a client is the
    argument [create]; a resource is its client. *)

From S2P Require Import Prelude Text PyVal Errors Lazy NamedResources Settings.
Local Open Scope prog_scope.

Section Registry.
Context {W R : Type}.

(** [VectorResourceDefinition]: the factory.  [VectorProvider]. *)
Abbreviation definition := (io W R).
Record VectorProvider := mk_vector_provider {
  vpr_driver : pystr;
  vpr_prepare : pydict pyval → result exn definition;
}.

(** [VectorProviderRegistry.__init__] *)
Fixpoint register_vectors (providers : list VectorProvider) (registered : pydict VectorProvider)
    : result exn (pydict VectorProvider) :=
  match providers with
  | [] => Ok registered
  | p :: rest =>
      let? _ := guard (negb (bool_decide (vpr_driver p = []))) VectorConfigurationError in
      let? _ := guard (negb (bool_decide (vpr_driver p ∈ dict_keys registered))) VectorConfigurationError in
      register_vectors rest (registered ++ [(vpr_driver p, p)])
  end.
Definition VectorProviderRegistry_new (providers : list VectorProvider) := register_vectors providers [].
Definition registry_extended (registry : pydict VectorProvider) (more : list VectorProvider) :=
  VectorProviderRegistry_new (map snd registry ++ more).

Definition vector_prepare (registry : pydict VectorProvider) (raw : pydict pyval) : result exn definition :=
  match dict_get raw (u "driver") with
  | Some (VStr (c :: driver)) =>
      match dict_get registry (c :: driver) with
      | Some p => vpr_prepare p raw
      | None => Err VectorConfigurationError
      end
  | _ => Err VectorConfigurationError
  end.

(** [BuiltinVectorProvider] and [_create_builtin_resource] *)
Context `{Pydantic} (create : vector_kind → pydict pyval → io W R).
Definition create_builtin_resource (k : vector_kind) (cfg : pydict pyval) : definition :=
  catch (create k cfg) (λ e, match e with ModuleNotFoundError => raise VectorConfigurationError | _ => raise e end).
Definition builtin_prepare (driver : pystr) (raw : pydict pyval) : result exn definition :=
  let? settings := parse_vector_connection raw in
  let? _ := guard (bool_decide (driver_of settings.1 = driver)) ValueError in
  Ok (create_builtin_resource settings.1 settings.2).
Definition BuiltinVectorProvider (driver : string) : VectorProvider := mk_vector_provider (u driver) (builtin_prepare (u driver)).
Definition DEFAULT_VECTOR_PROVIDERS : pydict VectorProvider :=
  map (λ p, (vpr_driver p, p)) [BuiltinVectorProvider "milvus"; BuiltinVectorProvider "chroma"; BuiltinVectorProvider "elasticsearch"].

(** ** VectorStoreManager *)
Record VectorSettings := mk_vector_settings { vs_default : option pystr; vs_connections : pydict (pydict pyval) }.

(** [except (ValidationError, ValueError, VectorConfigurationError)] *)
Definition configuration_error {A} (r : result exn A) : result exn A :=
  match r with
  | Ok a => Ok a
  | Err e => Err (if is_value_error e then VectorConfigurationError
                  else match e with VectorConfigurationError => VectorConfigurationError | _ => e end)
  end.
Definition prepare_vector (registry : pydict VectorProvider) (nr : pystr * pydict pyval) : result exn (pystr * definition) :=
  let '(name, raw) := nr in
  let? _ := guard (negb (bool_decide (py_strip name = []) || (200 <? len name)%Z)) VectorConfigurationError in
  let? d := configuration_error (vector_prepare registry raw) in
  Ok (name, d).
Definition prepare_vectors (registry : pydict VectorProvider) (s : VectorSettings) : result exn (pydict definition) :=
  let? _ := guard (match vs_default s with Some n => bool_decide (n ∈ dict_keys (vs_connections s)) | None => true end)
              VectorConfigurationError in
  map_result (prepare_vector registry) (vs_connections s).

Definition vector_resolve (default : option pystr) (names : list pystr) (name : option pystr) : result exn pystr :=
  match (match name with Some n => Some n | None => default end) with
  | Some n => if bool_decide (n ∈ names) then Ok n else Err VectorConfigurationError
  | None => Err VectorConfigurationError
  end.
(** What the manager keeps: the definitions become lazy resources. *)
Definition vector_factory (defs : pydict definition) (name : pystr) : io W R :=
  match dict_get defs name with Some d => d | None => raise VectorConfigurationError end.
Context (client_ping : R → io W bool) (client_aclose : R → io W unit).
Definition vector_get (s : VectorSettings) (defs : pydict definition) : option pystr → io (named R * W) R :=
  named_get (vector_factory defs) (vector_resolve (vs_default s) (dict_keys defs)).
Definition vector_ping (s : VectorSettings) (defs : pydict definition) (name : option pystr) : io (named R * W) bool :=
  let* client := vector_get s defs name in in_env (client_ping client).
Definition vector_closer (name : pystr) : R → io W unit := client_aclose.
Definition vector_aclose (defs : pydict definition) : io (named R * W) unit := named_aclose (dict_keys defs) vector_closer.
End Registry.
Arguments VectorProvider : clear implicits.

(** ** Proofs *)

Section Proofs.
Context {W R : Type} `{PydanticLaws} (create : vector_kind → pydict pyval → io W R) (client_aclose : R → io W unit).

(** The registry of the three drivers is what its constructor builds, and
    preparing a configuration is parsing it: every driver finds its provider. *)
Lemma default_providers :
  VectorProviderRegistry_new (map snd (DEFAULT_VECTOR_PROVIDERS create)) = Ok (DEFAULT_VECTOR_PROVIDERS create).
Proof. reflexivity. Qed.

Lemma vector_prepare_parse raw :
  configuration_error (vector_prepare (DEFAULT_VECTOR_PROVIDERS create) raw) =
    match parse_vector_connection raw with
    | Ok (k, cfg) => Ok (create_builtin_resource create k cfg)
    | Err _ => Err VectorConfigurationError
    end.
Proof.
  pose proof (vector_connection_consistent raw) as Hc.
  destruct (parse_vector_connection raw) as [[k cfg] | e] eqn:Hp.
  - destruct Hc as (Hd & _). unfold vector_prepare. rewrite Hd.
    assert (Hg : ∃ c rest, driver_of k = c :: rest ∧ dict_get (DEFAULT_VECTOR_PROVIDERS create) (driver_of k)
      = Some (mk_vector_provider (driver_of k) (builtin_prepare create (driver_of k)))).
    { destruct k; do 2 eexists; split; reflexivity. }
    destruct Hg as (c & rest & Heq & Hg). rewrite Heq in Hg |- *. rewrite Hg. simpl. unfold builtin_prepare. rewrite Hp. simpl.
    by rewrite Heq, bool_decide_true.
  - unfold vector_prepare. destruct (dict_get raw (u "driver")) as [[| | | | | [| c d] | | | |] |]; try done.
    destruct (dict_get (DEFAULT_VECTOR_PROVIDERS create) (c :: d)) as [p |] eqn:Hg; [| done].
    assert (Hb : vpr_prepare p raw = Err e).
    { unfold DEFAULT_VECTOR_PROVIDERS in Hg. simpl in Hg. repeat case_decide; try done; injection Hg as <-; simpl;
        unfold builtin_prepare; by rewrite Hp. }
    rewrite Hb. simpl. by rewrite Hc.
Qed.

Lemma prepare_vectors_names (registry : pydict (VectorProvider W R)) s defs :
  prepare_vectors registry s = Ok defs →
  Forall2 (λ nr nd, nd.1 = nr.1 ∧ configuration_error (vector_prepare registry nr.2) = Ok nd.2) (vs_connections s) defs
  ∧ ∀ n, vs_default s = Some n → n ∈ dict_keys defs.
Proof.
  unfold prepare_vectors. rewrite guard_bind_ok. intros [Hd Hm]. apply map_result_ok in Hm.
  assert (Hf : Forall2 (λ nr nd, nd.1 = nr.1 ∧ configuration_error (vector_prepare registry nr.2) = Ok nd.2) (vs_connections s) defs).
  { eapply List.Forall2_impl; [| exact Hm]. intros [n raw] [n' d]. unfold prepare_vector. rewrite guard_bind_ok, result_bind_ok.
    intros (_ & d' & Hd' & [= <- <-]). done. }
  split; [done |]. intros n Hn. rewrite Hn in Hd. to_prop.
  assert (Hk : dict_keys defs = dict_keys (vs_connections s)).
  { clear -Hf. induction Hf as [| x y l1 l2 [Hx _] _ IH]; [done |]. simpl. by rewrite Hx, IH. }
  by rewrite Hk.
Qed.

(** The vector stores of an application.  Building the manager either
    fails, with a [VectorConfigurationError] and before anything is created, or
    every connection has been parsed to settings of its own driver and mode and
    the default connection is one of them.  Then over any calls of [get] and [aclose] in
    any order, whatever creations and closings fail: a connection is created at
    most once, from its own settings, and closed at most once, after that;
    an [aclose] that returned has left nothing created open; and no [get] returns a
    client once [aclose] was called. *)
Theorem vector_manager_correct s :
  match prepare_vectors (DEFAULT_VECTOR_PROVIDERS create) s with
  | Err e => e = VectorConfigurationError
  | Ok defs =>
      Forall2 (λ nr nd, nd.1 = nr.1 ∧ ∃ k cfg, parse_vector_connection nr.2 = Ok (k, cfg)
                        ∧ nd.2 = create_builtin_resource create k cfg) (vs_connections s) defs
      ∧ (∀ n, vs_default s = Some n → n ∈ dict_keys defs)
      ∧ ∀ cs e w l,
          manager_runs (dict_keys defs) (vector_factory defs) (vector_closer client_aclose)
            (vector_resolve (vs_default s) (dict_keys defs)) cs (named_init (dict_keys defs), (e, [])) = (w, l) →
          (∀ n, n ∈ dict_keys defs → history n w.2.2 = [] ∨ (∃ a, history n w.2.2 = [Created n a])
             ∨ ∃ a, history n w.2.2 = [Created n a; Closed a])
          ∧ (closing_done l → ∀ n a, n ∈ dict_keys defs → Created n a ∈ history n w.2.2 →
               history n w.2.2 = [Created n a; Closed a])
          ∧ (∀ l1 l2 ok, l = l1 ++ (CallClose, ok) :: l2 → ∀ c, (c, true) ∈ l2 → c = CallClose)
  end.
Proof.
  destruct (prepare_vectors (DEFAULT_VECTOR_PROVIDERS create) s) as [defs | e] eqn:Hp.
  - destruct (prepare_vectors_names _ _ _ Hp) as [Hf Hd]. split; [| split; [done |]].
    + eapply List.Forall2_impl; [| exact Hf]. intros [n raw] [n' d] [Hn Hc]. split; [done |]. simpl in *.
      rewrite vector_prepare_parse in Hc. destruct (parse_vector_connection raw) as [[k cfg] |]; [| done].
      exists k, cfg. by injection Hc as <-.
    + intros cs e w l. apply manager_history. intros name n. unfold vector_resolve.
      destruct (match name with Some n => Some n | None => vs_default s end); [| done].
      case_bool_decide; [by intros [= <-] | done].
  - unfold prepare_vectors in Hp. unfold guard in Hp. destruct (match vs_default s with Some n => _ | None => _ end); [| by injection Hp].
    simpl in Hp. apply map_result_err in Hp as ([n raw] & _ & Hp). unfold prepare_vector, guard in Hp.
    destruct (negb _); [| by injection Hp]. cbn [result_bind] in Hp. rewrite vector_prepare_parse in Hp.
    destruct (parse_vector_connection raw) as [[k cfg] |]; [done | by injection Hp].
Qed.
End Proofs.

(** ** A concrete manager: two connections, one opened, then all closed *)
Definition demo_vectors : VectorSettings :=
  mk_vector_settings (Some (u "main"))
    [(u "main", [(u "driver", str "milvus"); (u "mode", str "local"); (u "path", str "milvus.db")]);
     (u "docs", [(u "driver", str "elasticsearch"); (u "mode", str "remote")])].
Definition demo_create (k : vector_kind) (cfg : pydict pyval) : io nat nat := λ w, (S w, Ok w).
Definition demo_close (r : nat) : io nat unit := ret tt.
#[local] Existing Instance plain_pydantic.

Definition demo_calls : list manager_call := [CallGet None; CallGet (Some (u "main")); CallGet (Some (u "other")); CallClose; CallGet None].
Definition demo_run (defs : pydict (io nat nat)) :=
  manager_runs (dict_keys defs) (vector_factory defs) (vector_closer demo_close)
    (vector_resolve (vs_default demo_vectors) (dict_keys defs)) demo_calls (named_init (dict_keys defs), (7, [])).

Lemma vector_manager_correct_witness :
  ∃ defs w l, prepare_vectors (DEFAULT_VECTOR_PROVIDERS demo_create) demo_vectors = Ok defs
    ∧ demo_run defs = (w, l) ∧ map snd l = [true; true; false; true; false]
    ∧ history (u "main") w.2.2 = [Created (u "main") 7; Closed 7] ∧ history (u "docs") w.2.2 = [].
Proof.
  pose proof (vector_manager_correct (H0 := plain_pydantic_laws) demo_create demo_close demo_vectors) as Hc.
  destruct (prepare_vectors (DEFAULT_VECTOR_PROVIDERS demo_create) demo_vectors) as [defs | e] eqn:Hp.
  2: { exfalso. assert (Hok : is_ok (prepare_vectors (DEFAULT_VECTOR_PROVIDERS demo_create) demo_vectors) = true) by (vm_compute; reflexivity).
       rewrite Hp in Hok. discriminate Hok. }
  assert (Hrun : match prepare_vectors (DEFAULT_VECTOR_PROVIDERS demo_create) demo_vectors with
    | Ok defs => dict_keys defs = [u "main"; u "docs"] ∧ map snd (demo_run defs).2 = [true; true; false; true; false]
        ∧ existsb (λ e, match e with (CallClose, true) => true | _ => false end) (demo_run defs).2 = true
        ∧ history (u "main") (demo_run defs).1.2.2 = [Created (u "main") 7; Closed 7] ∧ history (u "docs") (demo_run defs).1.2.2 = []
    | Err _ => False end) by (vm_compute; repeat split; reflexivity).
  rewrite Hp in Hrun. destruct Hrun as (Hk & Hs & Hdone & Hm & Hdocs).
  destruct (demo_run defs) as [w l] eqn:Hr. exists defs, w, l.
  destruct Hc as (_ & _ & Hh). destruct (Hh demo_calls 7 w l Hr) as (_ & Hclosed & _).
  split; [done |]. split; [done |]. split; [exact Hs |]. split; [| exact Hdocs].
  apply Hclosed.
  - apply existsb_exists in Hdone as ([[? | ] [|]] & Hin & ?); try discriminate. by apply list_elem_of_In.
  - rewrite Hk. left.
  - cbn [fst snd] in Hm. rewrite Hm. left.
Defined.
