(* ===== verification/Schedule.v ===== *)
(** * Schedule: schedules, their registry and its discovery

    Models [interfaces/scheduler/contracts.py], [registry.py] and
    [discovery.py].  The module walk and the import system are arguments:
    [walk] is what [pkgutil.walk_packages] yields, [import_module] the module
    of a name or the exception of its import. *)

From stdpp Require Import sorting.
From S2P Require Import Prelude Text PyVal Errors QueueJob.
Local Open Scope prog_scope.

(** ** contracts.py *)

Definition is_schedule_id_char (c : N) : bool :=
  is_alnum c || (c =? 95)%N || (c =? 46)%N || (c =? 58)%N || (c =? 45)%N.
Definition schedule_id_pattern : regex := RCat (RCls is_alnum) (RRep (RCls is_schedule_id_char) 0 (Some 199)).

Inductive CoalescePolicy := LATEST | ALL.
Inductive IntervalStartPolicy := IMMEDIATELY | AFTER_INTERVAL.
#[export] Instance coalesce_eq_dec : EqDecision CoalescePolicy.
Proof. solve_decision. Defined.
#[export] Instance start_policy_eq_dec : EqDecision IntervalStartPolicy.
Proof. solve_decision. Defined.

Record CronSchedule := mk_cron {
  cr_second : pyval; cr_minute : pyval; cr_hour : pyval; cr_day : pyval; cr_month : pyval; cr_day_of_week : pystr;
}.
Definition CronSchedule_new `{UnicodeTables} (c : CronSchedule) : result exn CronSchedule :=
  if bool_decide (py_strip (cr_day_of_week c) = []) || existsb isdigit_char (cr_day_of_week c) then Err ValueError
  else Ok c.
(** The default values of the fields. *)
Definition cron_default : CronSchedule :=
  mk_cron (VInt 0) (VInt 0) (VStr (u "*")) (VStr (u "*")) (VStr (u "*")) (u "*").

Record IntervalSchedule := mk_interval { iv_seconds : pyval; iv_start : IntervalStartPolicy }.
Definition positive_int (v : pyval) : bool := match is_int v with Some z => (0 <? z)%Z | None => false end.
Definition IntervalSchedule_new (i : IntervalSchedule) : result exn IntervalSchedule :=
  if positive_int (iv_seconds i) then Ok i else Err ValueError.

Inductive ScheduleTrigger := TCron (c : CronSchedule) | TInterval (i : IntervalSchedule).

Section Schedules.
Context {W Ctx : Type}.

Record QueueJobSchedule := mk_schedule {
  qs_id : pystr;
  qs_trigger : ScheduleTrigger;
  qs_job : job_class W Ctx * job_instance W Ctx;    (* an object and its class *)
  qs_connection : option pystr;
  qs_queue : option pystr;
  qs_coalesce : CoalescePolicy;
  qs_misfire_grace_seconds : pyval;
}.
Definition QueueJobSchedule_new (s : QueueJobSchedule) : result exn QueueJobSchedule :=
  let? _ := guard (fullmatch schedule_id_pattern (qs_id s)) ValueError in
  let? _ := guard (positive_int (qs_misfire_grace_seconds s)) ValueError in
  let? _ := encode_job (fst (qs_job s)) (snd (qs_job s)) in
  Ok s.

(** ** registry.py: the dict [_definitions] *)
Abbreviation ScheduleRegistry := (pydict QueueJobSchedule).

Definition registry_add (r : ScheduleRegistry) (d : QueueJobSchedule) : result exn ScheduleRegistry :=
  if bool_decide (qs_id d ∈ dict_keys r) then Err ValueError else Ok (dict_set r (qs_id d) d).

(** [sorted] of texts. *)
Fixpoint insert_text (k : pystr) (l : list pystr) : list pystr :=
  match l with
  | [] => [k]
  | x :: l => if text_leb k x then k :: x :: l else x :: insert_text k l
  end.
Definition sort_texts (l : list pystr) : list pystr := foldr insert_text [] l.
Definition definitions (r : ScheduleRegistry) : list QueueJobSchedule := omap (dict_get r) (sort_texts (dict_keys r)).

(** A registrar is a program on the registry. *)
Fixpoint register_all (ds : list QueueJobSchedule) (r : ScheduleRegistry) : result exn ScheduleRegistry :=
  match ds with
  | [] => Ok r
  | d :: ds => let? r := registry_add r d in register_all ds r
  end.

(** ** discovery.py *)
Definition registrar_name : pystr := u "register_schedules".

(** [s.split(".")] *)
Fixpoint split_dots (s : pystr) : list pystr :=
  match s with
  | [] => [[]]
  | c :: s =>
      if (c =? 46)%N then [] :: split_dots s
      else match split_dots s with p :: ps => (c :: p) :: ps | [] => [[c]] end
  end.
Definition is_schedule_module (root_name module_name : pystr) : bool :=
  match strip_prefix (root_name ++ u ".") module_name with
  | Some rest => bool_decide (u "schedules" ∈ removelast (split_dots rest))
  | None => false
  end.

(** [getattr(module, "register_schedules", None)]: absent, or a value with its
    [__module__], callable or not. *)
Record Candidate := mk_candidate {
  ca_module : option pystr;
  ca_call : option (ScheduleRegistry → result exn ScheduleRegistry);
}.
Record Module_ := mk_module { mo_name : pystr; mo_registrar : option Candidate }.

Definition find_registrar (m : Module_) : result exn (option (ScheduleRegistry → result exn ScheduleRegistry)) :=
  match mo_registrar m with
  | None => Ok None
  | Some c =>
      match ca_call c with
      | Some f => if bool_decide (ca_module c = Some (mo_name m)) then Ok (Some f) else Err SchedulerConfigurationError
      | None => Err SchedulerConfigurationError
      end
  end.

(** [except Exception as error: raise SchedulerConfigurationError from error] *)
Definition as_configuration_error {A} (r : result exn A) : result exn A :=
  match r with Err e => Err (if is_exception e then SchedulerConfigurationError else e) | Ok a => Ok a end.

Section Discovery.
Context (root_package : option pystr) (walk : result exn (list pystr)) (import_module : pystr → result exn Module_).

Definition import_schedule_module (name : pystr) : result exn Module_ := as_configuration_error (import_module name).

Fixpoint run_registrars (names : list pystr) (r : ScheduleRegistry) : result exn ScheduleRegistry :=
  match names with
  | [] => Ok r
  | name :: names =>
      let? m := import_schedule_module name in
      let? registrar := find_registrar m in
      let? r := match registrar with None => Ok r | Some f => as_configuration_error (f r) end in
      run_registrars names r
  end.

(** [sorted({...})]: [root_package] is the name of a package, if it is one. *)
Definition module_names (package_name : pystr) : result exn (list pystr) :=
  let? names := as_configuration_error walk in
  Ok (sort_texts (remove_dups (List.filter (is_schedule_module package_name) names))).

Definition discover_schedule_registry : result exn ScheduleRegistry :=
  match root_package with
  | None | Some [] => Err SchedulerConfigurationError
  | Some package_name =>
      let? names := module_names package_name in
      run_registrars names []
  end.
End Discovery.
End Schedules.
Arguments QueueJobSchedule : clear implicits.
Arguments Candidate : clear implicits.
Arguments Module_ : clear implicits.
Abbreviation ScheduleRegistry W Ctx := (pydict (QueueJobSchedule W Ctx)).

(** ** Sorting texts *)

Lemma insert_text_perm k l : insert_text k l ≡ₚ k :: l.
Proof.
  induction l as [| x l IH]; [done |]. cbn [insert_text]. case_bool; [done |]. rewrite IH. constructor.
Qed.
Lemma sort_texts_perm l : sort_texts l ≡ₚ l.
Proof. induction l as [| k l IH]; [done |]. cbn [sort_texts foldr]. by rewrite insert_text_perm, IH. Qed.

Lemma insert_text_sorted k l : StronglySorted text_le l → StronglySorted text_le (insert_text k l).
Proof.
  induction 1 as [| x l Hl IH Hx]; [repeat constructor |]. cbn [insert_text]. case_bool.
  - constructor; [by constructor |]. constructor; [done |]. eapply list.Forall_impl; [exact Hx |]. intros y Hy. by etrans.
  - constructor; [done |]. rewrite insert_text_perm. constructor; [| done].
    destruct (text_leb_total k x); [congruence | done].
Qed.
Lemma sort_texts_sorted l : StronglySorted text_le (sort_texts l).
Proof. induction l as [| k l IH]; [constructor |]. by apply insert_text_sorted. Qed.
Lemma sort_texts_unique l l' : l ≡ₚ l' → sort_texts l = sort_texts l'.
Proof.
  intros Hl. apply (sorting.StronglySorted_unique text_le); [apply sort_texts_sorted.. |]. by rewrite !sort_texts_perm.
Qed.

(** ** The registry *)

Section RegistryTheorems.
Context {W Ctx : Type}.
Implicit Types (ds : list (QueueJobSchedule W Ctx)) (r : ScheduleRegistry W Ctx).
Abbreviation ids ds := (map qs_id ds).

Lemma register_all_run ds r : base.NoDup (dict_keys r) →
  register_all ds r = if decide (base.NoDup (dict_keys r ++ ids ds)) then Ok (r ++ map (λ d, (qs_id d, d)) ds) else Err ValueError.
Proof.
  revert r. induction ds as [| d ds IH]; intros r Hr; cbn [register_all map].
  { rewrite !app_nil_r. by rewrite decide_True. }
  unfold registry_add. case_bool_decide as Hd; cbn [result_bind].
  - destruct (decide _) as [Hn |]; [exfalso | done]. apply list.NoDup_app in Hn as (_ & Hx & _).
    apply (Hx (qs_id d)); [done | left].
  - unfold dict_set. rewrite bool_decide_false by done.
    assert (Hk : dict_keys (r ++ [(qs_id d, d)]) = dict_keys r ++ [qs_id d]) by (unfold dict_keys; by rewrite map_app).
    rewrite IH; rewrite Hk.
    + rewrite <- !app_assoc. cbn [app]. done.
    + apply list.NoDup_app. split; [done |]. split; [set_solver | apply list.NoDup_singleton].
Qed.

Lemma dict_get_own (d : QueueJobSchedule W Ctx) ds : base.NoDup (ids ds) → d ∈ ds →
  dict_get (map (λ d, (qs_id d, d)) ds) (qs_id d) = Some d.
Proof.
  induction ds as [| x ds IH]; intros Hnd Hin; [by apply not_elem_of_nil in Hin |]. cbn [map] in Hnd.
  apply list.NoDup_cons in Hnd as [Hx Hnd]. cbn [map dict_get]. apply elem_of_cons in Hin as [-> | Hin].
  - by rewrite decide_True.
  - rewrite decide_False; [by apply IH |]. intros He. apply Hx. rewrite He. by apply list_elem_of_fmap_2.
Qed.

Lemma omap_own ds keys : base.NoDup (ids ds) → keys ≡ₚ ids ds →
  omap (dict_get (map (λ d, (qs_id d, d)) ds)) keys ≡ₚ ds.
Proof.
  intros Hnd ->. assert (Hall : ∀ l, (∀ d, d ∈ l → d ∈ ds) → omap (dict_get (map (λ d, (qs_id d, d)) ds)) (ids l) = l).
  { induction l as [| d l IH]; intros Hl; [done |]. cbn [map omap list_omap].
    rewrite dict_get_own by (done || (apply Hl; left)). f_equal. apply IH. set_solver. }
  by rewrite Hall.
Qed.

Lemma definitions_ids ds : base.NoDup (ids ds) →
  ids (definitions (map (λ d, (qs_id d, d)) ds)) = sort_texts (ids ds).
Proof.
  intros Hnd. unfold definitions. assert (Hk : dict_keys (map (λ d, (qs_id d, d)) ds) = ids ds).
  { unfold dict_keys. by rewrite map_map. }
  rewrite Hk. assert (Hall : ∀ keys, (∀ k, k ∈ keys → k ∈ ids ds) →
    ids (omap (dict_get (map (λ d, (qs_id d, d)) ds)) keys) = keys).
  { induction keys as [| k keys IH]; intros Hkeys; [done |]. cbn [omap list_omap].
    destruct (list_elem_of_fmap_1 _ _ _ (Hkeys k ltac:(left))) as (d & -> & Hd).
    rewrite dict_get_own by done. cbn [map]. f_equal. apply IH. set_solver. }
  apply Hall. intros k. by rewrite sort_texts_perm.
Qed.

Lemma strict_sorted l : StronglySorted text_le l → base.NoDup l →
  StronglySorted (λ a b, text_leb a b = true ∧ a ≠ b) l.
Proof.
  induction 1 as [| a l Hl IH Ha]; intros Hnd; constructor; apply list.NoDup_cons in Hnd as [Hni Hnd]; [by apply IH |].
  rewrite list.Forall_forall in Ha |- *. intros b Hb. split; [by apply Ha |]. by intros ->.
Qed.

(** A list with distinct identifiers is fixed by its elements and the order of its identifiers. *)
Lemma same_by_ids ds l l' : base.NoDup (ids ds) → l ≡ₚ ds → l' ≡ₚ ds → ids l = ids l' → l = l'.
Proof.
  intros Hnd Hl Hl' He. apply list_eq_same_length with (length l); [by rewrite Hl', Hl | done |].
  intros i d d' Hi Hd Hd'. assert (Hids : qs_id d = qs_id d').
  { assert (Some (qs_id d) = Some (qs_id d')) as [= ?]; [| done].
    transitivity (ids l !! i); [symmetry; by apply list_lookup_fmap_Some_2 |]. rewrite He. by apply list_lookup_fmap_Some_2. }
  apply list_elem_of_lookup_2 in Hd, Hd'. rewrite Hl in Hd. rewrite Hl' in Hd'.
  pose proof (dict_get_own d ds Hnd Hd) as H1. pose proof (dict_get_own d' ds Hnd Hd') as H2. rewrite Hids in H1. congruence.
Qed.

(** C28: what the engine gets does not depend on the order in which the modules
    registered their schedules: a set of schedules is accepted exactly when no
    identifier occurs twice, and then the definitions are those schedules in the
    order of their identifiers; a second schedule with an identifier is refused
    with [ValueError]. *)
Theorem schedule_registry_canonical ds ds' : ds ≡ₚ ds' →
  (if decide (base.NoDup (ids ds))
   then ∃ r r', register_all ds [] = Ok r ∧ register_all ds' [] = Ok r' ∧ definitions r = definitions r' ∧
     definitions r ≡ₚ ds ∧ StronglySorted (λ a b, text_leb a b = true ∧ a ≠ b) (ids (definitions r))
   else register_all ds [] = Err ValueError ∧ register_all ds' [] = Err ValueError).
Proof.
  intros Hp. assert (Hids : ids ds ≡ₚ ids ds') by by apply Permutation_map.
  rewrite !register_all_run by constructor. cbn [dict_keys map app].
  assert (Hiff : base.NoDup (ids ds) ↔ base.NoDup (ids ds')) by by rewrite Hids.
  case_decide as Hnd; [rewrite decide_True by by apply Hiff | by rewrite decide_False by by rewrite <- Hiff].
  do 2 eexists. split; [done |]. split; [done |].
  assert (Hperm : ∀ l : list (QueueJobSchedule W Ctx), base.NoDup (ids l) → definitions (map (λ d, (qs_id d, d)) l) ≡ₚ l).
  { intros l Hl. unfold definitions, dict_keys. rewrite map_map. apply omap_own; [done |]. apply sort_texts_perm. }
  pose proof (proj1 Hiff Hnd) as Hnd'. split_and!; [| by apply Hperm |].
  - apply (same_by_ids ds); [done | by apply Hperm | by rewrite Hperm |].
    rewrite !definitions_ids by done. by apply sort_texts_unique.
  - rewrite definitions_ids by done. apply strict_sorted; [apply sort_texts_sorted | by rewrite sort_texts_perm].
Qed.
End RegistryTheorems.

(** ** Discovery *)

Section DiscoveryTheorems.
Context {W Ctx : Type} (import_module : pystr → result exn (Module_ W Ctx)).

(** What had to hold of a module for discovery to go on. *)
Definition module_registered (name : pystr) : Prop :=
  ∃ m, import_module name = Ok m ∧
    match mo_registrar m with
    | None => True
    | Some c => ca_module c = Some (mo_name m) ∧ ∃ f r r', ca_call c = Some f ∧ f r = Ok r'
    end.

Lemma as_configuration_ok {A} (r : result exn A) a : as_configuration_error r = Ok a → r = Ok a.
Proof. by destruct r; simpl. Qed.
Lemma as_configuration_err {A} (r : result exn A) e : as_configuration_error r = Err e →
  e = SchedulerConfigurationError ∨ is_exception e = false.
Proof. destruct r as [a | e']; simpl; [done |]. case_bool; intros [= <-]; auto. Qed.

Lemma run_registrars_outcome names r :
  match run_registrars import_module names r with
  | Ok _ => Forall module_registered names
  | Err e => e = SchedulerConfigurationError ∨ is_exception e = false
  end.
Proof.
  revert r. induction names as [| name names IH]; intros r; cbn [run_registrars]; [constructor |].
  unfold import_schedule_module. destruct (as_configuration_error (import_module name)) as [m | e] eqn:Hm;
    cbn [result_bind]; [| by apply as_configuration_err in Hm].
  apply as_configuration_ok in Hm. unfold find_registrar. destruct (mo_registrar m) as [c |] eqn:Hc; cbn [result_bind].
  - destruct (ca_call c) as [f |] eqn:Hf; [| by left]. case_bool_decide as Hown; [| by left]. cbn [result_bind].
    destruct (as_configuration_error (f r)) as [r' | e] eqn:Hr; cbn [result_bind]; [| by apply as_configuration_err in Hr].
    apply as_configuration_ok in Hr. specialize (IH r'). destruct (run_registrars import_module names r'); [| done].
    constructor; [| done]. exists m. split; [done |]. rewrite Hc. split; [done |]. by exists f, r, r'.
  - specialize (IH r). destruct (run_registrars import_module names r); [| done]. constructor; [| done].
    exists m. by rewrite Hc.
Qed.

(** Discovery neither skips nor depends on luck: when it succeeds, every module
    inside a [schedules] package was imported and its registrar, if it has one, is
    its own and ran; any [Exception] on the way ends it with a configuration
    error; and the result depends only on which modules exist, not on the order
    or repetitions of the walk. *)
Theorem discovery_complete (root : option pystr) (walk : result exn (list pystr)) :
  match discover_schedule_registry root walk import_module with
  | Ok _ => ∃ name names, root = Some name ∧ name ≠ [] ∧ walk = Ok names ∧
      ∀ m, m ∈ names → is_schedule_module name m = true → module_registered m
  | Err e => e = SchedulerConfigurationError ∨ is_exception e = false
  end ∧
  ∀ names names', walk = Ok names → (∀ m, m ∈ names ↔ m ∈ names') →
    discover_schedule_registry root (Ok names') import_module = discover_schedule_registry root walk import_module.
Proof.
  split.
  - unfold discover_schedule_registry. destruct root as [[| c name] |]; [by left | | by left].
    unfold module_names. destruct (as_configuration_error walk) as [names | e] eqn:Hw; cbn [result_bind];
      [| by apply as_configuration_err in Hw].
    apply as_configuration_ok in Hw. match goal with |- context [run_registrars _ ?l ?r] => pose proof (run_registrars_outcome l r) as Hrun end.
    destruct (run_registrars _ _ _) as [r | e]; [| done]. exists (c :: name), names. split_and!; [done.. |].
    intros m Hm Hs. rewrite list.Forall_forall in Hrun. apply Hrun. rewrite sort_texts_perm. apply elem_of_remove_dups.
    by rewrite list_elem_of_In, List.filter_In, <- list_elem_of_In.
  - intros names names' -> Hin. unfold discover_schedule_registry, module_names. destruct root as [[| c name] |]; [done | | done].
    cbn [as_configuration_error result_bind]. f_equal. apply sort_texts_unique, NoDup_Permutation; [apply NoDup_remove_dups.. |].
    intros m. by rewrite !elem_of_remove_dups, !list_elem_of_In, !List.filter_In, <- !list_elem_of_In, Hin.
Qed.
End DiscoveryTheorems.

(** ** Concrete runs *)

(** The schedule of [contexts/user/schedules/sessions.py], as [registered] from
    two modules with another one. *)
Definition sessions_cleanup : QueueJobSchedule unit unit :=
  mk_schedule (u "users.sessions.cleanup_expired")
    (TCron (mk_cron (VInt 0) (VInt 0) (VInt 0) (VStr (u "*")) (VStr (u "*")) (u "*")))
    (demo_job, mk_job 1 (λ _, ret tt)) None None LATEST (VInt 300).
Definition demo_heartbeat : QueueJobSchedule unit unit :=
  mk_schedule (u "demo.heartbeat") (TInterval (mk_interval (VInt 60) IMMEDIATELY))
    (demo_job, mk_job 1 (λ _, ret tt)) None (Some (u "mail")) ALL (VInt 30).

Example demo_schedules_accepted : map_result QueueJobSchedule_new [sessions_cleanup; demo_heartbeat] =
  Ok [sessions_cleanup; demo_heartbeat].
Proof. vm_compute. reflexivity. Qed.

Lemma schedule_registry_canonical_witness :
  ∃ r r', register_all [sessions_cleanup; demo_heartbeat] [] = Ok r ∧
    register_all [demo_heartbeat; sessions_cleanup] [] = Ok r' ∧ definitions r = definitions r'.
Proof.
  pose proof (schedule_registry_canonical [sessions_cleanup; demo_heartbeat] [demo_heartbeat; sessions_cleanup]
    (Permutation_swap _ _ _)) as Hreg.
  assert (Hnd : base.NoDup (map qs_id [sessions_cleanup; demo_heartbeat]))
    by (apply (proj1 (bool_decide_eq_true _)); vm_compute; reflexivity).
  rewrite decide_True in Hreg by exact Hnd. destruct Hreg as (r & r' & H1 & H2 & H3 & _). by exists r, r'.
Defined.

(** Two modules of a package [app], one of them outside any [schedules] package. *)
Definition demo_import (name : pystr) : result exn (Module_ unit unit) :=
  if bool_decide (name = u "app.user.schedules.sessions")
  then Ok (mk_module name (Some (mk_candidate (Some name) (Some (λ r, registry_add r sessions_cleanup)))))
  else Err ModuleNotFoundError.
Example demo_discovery :
  discover_schedule_registry (Some (u "app")) (Ok [u "app.user.schedules.sessions"; u "app.schedules"; u "app.user.jobs.x"])
    demo_import = Ok [(qs_id sessions_cleanup, sessions_cleanup)].
Proof. vm_compute. reflexivity. Qed.
