(* ===== verification/SchedulerEngine.v ===== *)
(** * SchedulerEngine: the APScheduler engine as a state machine

    Models [interfaces/scheduler/apscheduler.py].  The steps of
    [engine_step] are the code between two awaits: [start], [aclose], the
    initial dispatches of immediate schedules and the dispatches the
    executor runs, interleaved with whatever the library does on its own.
    APScheduler is the class [ApScheduler]: its calls, and [ap_moves] for its
    timer; [ApLaws] states what the engine relies on.  The dispatcher may end
    in any way at any time.  [en_log] records what happened, latest first. *)

From S2P Require Import Prelude Text PyVal Errors QueueJob Schedule.
Local Open Scope prog_scope.

Inductive ApTrigger := CronTrigger (c : CronSchedule) | IntervalTrigger (seconds : pyval) (start_date : datetime).

Section Engine.
Context {WJ Ctx : Type}.
Abbreviation schedule := (QueueJobSchedule WJ Ctx).

(** The arguments of [add_job]; the callback dispatches [aj_definition]. *)
Record ApJob := mk_ap_job {
  aj_definition : schedule; aj_trigger : ApTrigger; aj_id : pystr; aj_replace_existing : bool;
  aj_coalesce : bool; aj_max_instances : Z; aj_misfire_grace_time : pyval;
}.

Class ApScheduler (W : Type) := {
  ap_factory : io W unit;                            (* scheduler_factory() *)
  ap_add_executor : io W unit;
  ap_add_listener : io W unit;
  ap_cron_trigger : CronSchedule → result exn ApTrigger;
  ap_add_job : ApJob → io W unit;
  ap_start : io W unit;
  ap_pause : io W unit;
  ap_shutdown : io W unit;                           (* shutdown(wait=False) *)
  ap_clock : io W datetime;
  ap_moves : W → option ApJob → W → Prop;            (* [Some j]: it submits [j] to the executor *)
  ap_running : W → bool;
  ap_jobs : W → list ApJob;
  ap_stopping : W → bool;
  ap_shut : W → bool;                                (* EVENT_SCHEDULER_SHUTDOWN was delivered *)
}.

Inductive engine_event :=
| EvInitial (d : schedule)         (* the first dispatch began *)
| EvInitialDone (d : schedule)     (* and ended, either way *)
| EvRegistered (j : ApJob)
| EvSubmitted (j : ApJob).

(** Where [start] and [aclose] stand; a [gather] waits for the tasks it was given. *)
Inductive start_pc := StartIdle | StartWaiting | StartDone (r : result exn unit).
Inductive close_pc :=
| CloseIdle | CloseGather (tasks : list nat) | CloseDrain (tasks : list nat) | CloseEvent | CloseDone (r : result exn unit).

Record engine := mk_engine {
  en_scheduler : bool;                   (* self._scheduler is not None *)
  en_started : bool;
  en_closed : bool;
  en_initial : list (nat * schedule);    (* self._initial_dispatches *)
  en_pending : list (nat * schedule);    (* the executor's _pending_futures *)
  en_errors : list exn;                  (* of the initial dispatches that ended in one *)
  en_start : start_pc;
  en_close : close_pc;
  en_next : nat;
  en_log : list engine_event;
}.
Definition engine_init : engine := mk_engine false false false [] [] [] StartIdle CloseIdle 0 [].

Section Code.
Context {W : Type} `{ApScheduler W}.
Abbreviation EW := (engine * W)%type.

Definition lib {A} (m : io W A) : io EW A := λ s, let '(w, r) := m (snd s) in ((fst s, w), r).
Definition upd (f : engine → engine) : io EW unit := modify (λ s, (f (fst s), snd s)).

Definition set_scheduler (e : engine) : engine :=
  mk_engine true (en_started e) (en_closed e) (en_initial e) (en_pending e) (en_errors e) (en_start e) (en_close e) (en_next e) (en_log e).
Definition set_started (e : engine) : engine :=
  mk_engine (en_scheduler e) true (en_closed e) (en_initial e) (en_pending e) (en_errors e) (en_start e) (en_close e) (en_next e) (en_log e).
(** The assignments [aclose] begins with. *)
Definition set_closed (e : engine) : engine :=
  mk_engine false false true (en_initial e) (en_pending e) (en_errors e) (en_start e) (en_close e) (en_next e) (en_log e).
Definition set_start (p : start_pc) (e : engine) : engine :=
  mk_engine (en_scheduler e) (en_started e) (en_closed e) (en_initial e) (en_pending e) (en_errors e) p (en_close e) (en_next e) (en_log e).
Definition set_close (p : close_pc) (e : engine) : engine :=
  mk_engine (en_scheduler e) (en_started e) (en_closed e) (en_initial e) (en_pending e) (en_errors e) (en_start e) p (en_next e) (en_log e).
Definition log_event (v : engine_event) (e : engine) : engine :=
  mk_engine (en_scheduler e) (en_started e) (en_closed e) (en_initial e) (en_pending e) (en_errors e) (en_start e) (en_close e) (en_next e) (v :: en_log e).
(** [asyncio.create_task] of an initial dispatch. *)
Definition spawn_initial (e : engine) (d : schedule) : engine :=
  mk_engine (en_scheduler e) (en_started e) (en_closed e) ((en_next e, d) :: en_initial e) (en_pending e) (en_errors e)
    (en_start e) (en_close e) (S (en_next e)) (EvInitial d :: en_log e).
Definition end_initial (n : nat) (errors : list exn) (e : engine) : engine :=
  mk_engine (en_scheduler e) (en_started e) (en_closed e) (List.filter (λ t, negb (t.1 =? n)) (en_initial e)) (en_pending e)
    (errors ++ en_errors e) (en_start e) (en_close e) (en_next e) (en_log e).
Definition submit (j : ApJob) (e : engine) : engine :=
  mk_engine (en_scheduler e) (en_started e) (en_closed e) (en_initial e) ((en_next e, aj_definition j) :: en_pending e) (en_errors e)
    (en_start e) (en_close e) (S (en_next e)) (EvSubmitted j :: en_log e).
Definition end_pending (n : nat) (e : engine) : engine :=
  mk_engine (en_scheduler e) (en_started e) (en_closed e) (en_initial e) (List.filter (λ t, negb (t.1 =? n)) (en_pending e))
    (en_errors e) (en_start e) (en_close e) (en_next e) (en_log e).

(** [_starts_immediately] *)
Definition starts_immediately (d : schedule) : bool :=
  match qs_trigger d with
  | TInterval i => bool_decide (iv_start i = IMMEDIATELY)
  | TCron _ => false
  end.

(** [_build_trigger] *)
Definition build_trigger (t : ScheduleTrigger) : io EW ApTrigger :=
  match t with
  | TCron c => lift (ap_cron_trigger c)
  | TInterval i =>
      let* now := lib ap_clock in
      if dt_naive now then raise ValueError
      else ret (IntervalTrigger (iv_seconds i) (dt_add_seconds now (default 0%Z (is_int (iv_seconds i)))))
  end.

(** [_register] *)
Definition register (d : schedule) : io EW unit :=
  let* t := build_trigger (qs_trigger d) in
  let j := mk_ap_job d t (qs_id d) true (bool_decide (qs_coalesce d = LATEST)) 1 (qs_misfire_grace_seconds d) in
  lib (ap_add_job j);;;
  upd (log_event (EvRegistered j)).

(** The loop of [start]: the immediate schedules, the others registered. *)
Fixpoint register_schedules (ds : list schedule) : io EW (list schedule) :=
  match ds with
  | [] => ret []
  | d :: ds =>
      if starts_immediately d then
        build_trigger (qs_trigger d);;;
        let* immediate := register_schedules ds in ret (d :: immediate)
      else register d;;; register_schedules ds
  end.

Definition as_error {A} (error : exn) (m : io EW A) : io EW A :=
  catch m (λ e, raise (if is_exception e then error else e)).

(** [start] up to its await: the initial dispatches are tasks now. *)
Definition start_sync (ds : list schedule) : io EW (list schedule) :=
  let* e := read fst in
  (if en_closed e then raise SchedulerError else ret tt);;;
  (if en_scheduler e then raise SchedulerError else ret tt);;;
  lib ap_factory;;;
  upd set_scheduler;;;
  let* immediate := as_error SchedulerConfigurationError (lib ap_add_executor;;; lib ap_add_listener;;; register_schedules ds) in
  as_error SchedulerError (lib ap_start);;;
  upd set_started;;;
  upd (λ e, fold_left spawn_initial immediate e);;;
  ret immediate.

(** The callback of [_build_callback], given how the dispatcher ended. *)
Definition callback_result (dispatched : result exn uuid) : result exn unit :=
  match dispatched with
  | Ok _ => Ok tt
  | Err e => if is_exception e then Ok tt else Err e
  end.

(** [_dispatch_initial_then_register] after its await. *)
Definition initial_dispatched (d : schedule) (dispatched : result exn uuid) : io EW unit :=
  upd (log_event (EvInitialDone d));;;
  lift (callback_result dispatched);;;
  let* e := read fst in
  if en_closed e then ret tt else register d.

(** [wait] *)
Definition engine_wait (stop_wait : io EW unit) : io EW unit :=
  let* e := read fst in
  if en_started e then stop_wait else raise SchedulerError.

(** [aclose], from await to await. *)
Definition close_shutdown : io EW close_pc := lib ap_shutdown;;; ret CloseEvent.
Definition close_drain : io EW close_pc :=
  let* e := read fst in
  match en_pending e with
  | [] => close_shutdown
  | pending => ret (CloseDrain (map fst pending))
  end.
Definition close_begin : io EW close_pc :=
  let* e := read fst in
  upd set_closed;;;
  if negb (en_scheduler e && en_started e) then ret (CloseDone (Ok tt))
  else
    as_error SchedulerError (
      lib ap_pause;;;
      match en_initial e with
      | [] => close_drain
      | initial => ret (CloseGather (map fst initial))
      end).

Definition ended (tasks : list nat) (running : list (nat * schedule)) : bool :=
  forallb (λ t, negb (bool_decide (t ∈ map fst running))) tasks.

(** The state after [m] gave the next await of [aclose], or its error. *)
Definition closing (m : io EW close_pc) (s : EW) : EW :=
  let '((e, w), r) := m s in
  (set_close (match r with Ok p => p | Err error => CloseDone (Err error) end) e, w).
Definition starting (ds : list schedule) (s : EW) : EW :=
  let '((e, w), r) := start_sync ds s in
  (set_start (match r with Ok [] => StartDone (Ok tt) | Ok _ => StartWaiting | Err error => StartDone (Err error) end) e, w).
Definition finish_initial (n : nat) (d : schedule) (dispatched : result exn uuid) (s : EW) : EW :=
  let '((e, w), r) := initial_dispatched d dispatched s in
  (end_initial n (option_list (result_err r)) e, w).

(** May [start] be called as the call whose outcome counts? *)
Definition may_start (p : start_pc) : bool :=
  match p with StartIdle | StartDone (Err _) => true | _ => false end.

(** [start] may be called again, after a failure or while it is in progress
    or over, and [aclose] after it was called: [en_start] follows the last
    call that was not refused, [en_close] the call of [aclose] that found the
    engine open. *)
Inductive engine_step (ds : list schedule) : EW → EW → Prop :=
| step_start s : may_start (en_start (fst s)) = true → engine_step ds s (starting ds s)
| step_start_again s ds' : may_start (en_start (fst s)) = false → engine_step ds s (fst (start_sync ds' s))
| step_close_again s : en_close (fst s) ≠ CloseIdle → engine_step ds s (fst (close_begin s))
| step_initial s n d dispatched : (n, d) ∈ en_initial (fst s) → engine_step ds s (finish_initial n d dispatched s)
| step_started s : en_start (fst s) = StartWaiting → en_initial (fst s) = [] →
    engine_step ds s (set_start (StartDone (match en_errors (fst s) with [] => Ok tt | _ => Err SchedulerConfigurationError end)) (fst s), snd s)
| step_start_cancelled s : en_start (fst s) = StartWaiting →
    engine_step ds s (set_start (StartDone (Err CancelledError)) (fst s), snd s)
| step_silent e w w' : ap_moves w None w' → engine_step ds (e, w) (e, w')
| step_submit e w j w' : ap_moves w (Some j) w' → engine_step ds (e, w) (submit j e, w')
| step_pending s n d : (n, d) ∈ en_pending (fst s) → engine_step ds s (end_pending n (fst s), snd s)
| step_close s : en_close (fst s) = CloseIdle → engine_step ds s (closing close_begin s)
| step_gathered s tasks : en_close (fst s) = CloseGather tasks → ended tasks (en_initial (fst s)) = true →
    engine_step ds s (closing (as_error SchedulerError close_drain) s)
| step_drained s tasks : en_close (fst s) = CloseDrain tasks → ended tasks (en_pending (fst s)) = true →
    engine_step ds s (closing (as_error SchedulerError close_drain) s)
| step_shut s : en_close (fst s) = CloseEvent → ap_shut (snd s) = true →
    engine_step ds s (set_close (CloseDone (Ok tt)) (fst s), snd s)
| step_close_cancelled s : (match en_close (fst s) with CloseGather _ | CloseDrain _ | CloseEvent => true | _ => false end) = true →
    engine_step ds s (set_close (CloseDone (Err CancelledError)) (fst s), snd s).

(** ** What the engine relies on *)

(** The call starts nothing and adds no job but [extra]. *)
Definition no_more (extra : list ApJob) (w w' : W) : Prop :=
  (ap_running w' = true → ap_running w = true) ∧ ∀ j, j ∈ ap_jobs w' → j ∈ extra ∨ j ∈ ap_jobs w.

Class ApLaws : Prop := {
  ap_factory_law w : wp ap_factory (λ _ w', no_more [] w w') w;
  ap_executor_law w : wp ap_add_executor (λ _ w', no_more [] w w') w;
  ap_listener_law w : wp ap_add_listener (λ _ w', no_more [] w w') w;
  ap_clock_law w : wp ap_clock (λ _ w', no_more [] w w') w;
  ap_add_job_law j w : wp (ap_add_job j) (λ r w', no_more (match r with Ok _ => [j] | Err _ => [] end) w w') w;
  (** [start] that raised leaves it as it was. *)
  ap_start_law w : wp ap_start (λ r w',
    (ap_running w' = true → r = Ok tt ∨ ap_running w = true) ∧ ∀ j, j ∈ ap_jobs w' → j ∈ ap_jobs w) w;
  (** A paused scheduler submits nothing. *)
  ap_pause_law w : wp ap_pause (λ r w', no_more [] w w' ∧ (r = Ok tt → ap_running w' = false)) w;
  ap_shutdown_law w : wp ap_shutdown (λ r w', no_more [] w w' ∧ (r = Ok tt → ap_stopping w' = true)) w;
  ap_moves_law w j w' : ap_moves w j w' → no_more [] w w' ∧ (ap_stopping w = true → ap_stopping w' = true) ∧
    ∀ x, j = Some x → ap_running w = true ∧ x ∈ ap_jobs w;
  (** The event is delivered in the end. *)
  ap_shut_law w : ap_stopping w = true → ap_shut w = true ∨ ∃ w', ap_moves w None w' ∧ ap_shut w' = true;
}.
End Code.
End Engine.
Arguments engine_event : clear implicits.
Arguments engine : clear implicits.
Arguments ApJob : clear implicits.
Arguments ApScheduler : clear implicits.
Arguments ApLaws {WJ Ctx} W {H}.

(** ** Lemmas on the code *)

Section Lemmas.
Context {WJ Ctx W : Type} `{AP : !ApScheduler WJ Ctx W, !ApLaws W}.
Abbreviation schedule := (QueueJobSchedule WJ Ctx).
Abbreviation EW := (engine WJ Ctx * W)%type.
Implicit Types (e : engine WJ Ctx) (s : EW) (w : W) (ds : list schedule).

Definition add_log (l : list (engine_event WJ Ctx)) e : engine WJ Ctx :=
  mk_engine (en_scheduler e) (en_started e) (en_closed e) (en_initial e) (en_pending e) (en_errors e) (en_start e) (en_close e) (en_next e) (l ++ en_log e).

Lemma add_log_nil e : add_log [] e = e.
Proof. by destruct e. Qed.
Lemma add_log_app l1 l2 e : add_log l1 (add_log l2 e) = add_log (l1 ++ l2) e.
Proof. unfold add_log. simpl. by rewrite <- app_assoc. Qed.

Lemma no_more_refl w : no_more [] w w.
Proof. split; [done | by right]. Qed.
Lemma no_more_trans l1 l2 w w1 w2 : no_more l1 w w1 → no_more l2 w1 w2 → no_more (l2 ++ l1) w w2.
Proof.
  intros [H1 J1] [H2 J2]. split; [auto |]. intros j Hj. destruct (J2 j Hj) as [? | Hj1]; [left; set_solver |].
  destruct (J1 j Hj1); [left; set_solver | by right].
Qed.

Lemma wp_lib {A} (m : io W A) (Φ : result exn A → EW → Prop) s :
  wp m (λ r w', Φ r (fst s, w')) (snd s) → wp (lib m) Φ s.
Proof. unfold wp, lib. destruct (m (snd s)) as [w' r]. done. Qed.
Lemma wp_upd f (Φ : result exn unit → EW → Prop) s : Φ (Ok tt) (f (fst s), snd s) → wp (upd f) Φ s.
Proof. done. Qed.

Lemma build_trigger_wp t s : wp (build_trigger t) (λ _ s', fst s' = fst s ∧ no_more [] (snd s) (snd s')) s.
Proof.
  destruct t as [c | i]; cbn [build_trigger]; [apply wp_lift; split; [done | apply no_more_refl] |].
  apply wp_bind, wp_lib. eapply wp_mono; [apply ap_clock_law |]. intros [now | e'] w' Hw; [| by split]. case_bool; by split.
Qed.

(** [register d] logs the registration of [d], or changes nothing. *)
Definition registered_as (d : schedule) (j : ApJob WJ Ctx) : Prop :=
  aj_definition j = d ∧ aj_id j = qs_id d ∧ aj_max_instances j = 1%Z.
Lemma register_wp d s : wp (register d) (λ r s',
  match r with
  | Ok _ => ∃ j, registered_as d j ∧ fst s' = add_log [EvRegistered j] (fst s) ∧ no_more [j] (snd s) (snd s')
  | Err _ => fst s' = fst s ∧ no_more [] (snd s) (snd s')
  end) s.
Proof.
  apply wp_bind. eapply wp_mono; [apply build_trigger_wp |]. intros [t | e'] [e w] [He Hw]; [| by split]. cbn [fst snd] in *.
  apply wp_bind, wp_lib. eapply wp_mono; [apply ap_add_job_law |]. intros [[] | e'] w2 Hw2.
  - apply wp_upd. eexists (mk_ap_job _ _ _ _ _ _ _). split; [by split_and! |]. cbn [fst snd]. subst e. split; [done |].
    by apply (no_more_trans _ _ _ _ _ Hw Hw2).
  - split; [done |]. by apply (no_more_trans _ _ _ _ _ Hw Hw2).
Qed.

(** The schedules registered at once, and those dispatched first. *)
Definition later ds := List.filter (λ d, negb (starts_immediately d)) ds.
Definition first ds := List.filter (λ d, starts_immediately d) ds.

Lemma register_schedules_wp ds s : wp (register_schedules ds) (λ r s', ∃ js,
  fst s' = add_log (map EvRegistered js) (fst s) ∧ no_more js (snd s) (snd s') ∧
  Forall (λ j, starts_immediately (aj_definition j) = false) js ∧
  ∀ l, r = Ok l → l = first ds ∧ map aj_definition js ≡ₚ later ds) s.
Proof.
  revert s. induction ds as [| d ds IH]; intros s; cbn [register_schedules].
  { apply wp_ret. exists []. rewrite add_log_nil. split_and!; [done | apply no_more_refl | constructor |].
    intros l [= <-]. by split. }
  unfold later, first. cbn [List.filter]. destruct (starts_immediately d) eqn:Hd; cbn [negb].
  - apply wp_bind. eapply wp_mono; [apply build_trigger_wp |]. intros [t | e'] s1 [He Hw].
    + apply wp_bind. eapply wp_mono; [apply IH |]. intros r s2 (js & He2 & Hw2 & Hjs & Hl). rewrite He in He2.
      pose proof (no_more_trans _ _ _ _ _ Hw Hw2) as Hw3. rewrite app_nil_r in Hw3.
      destruct r as [l | e2]; exists js; split_and!; try done. intros l' [= <-]. destruct (Hl l eq_refl) as [-> Hp]. by split.
    + exists []. rewrite add_log_nil. by split_and!.
  - apply wp_bind. eapply wp_mono; [apply register_wp |]. intros [[] | e'] s1.
    + intros (j & (Hj & _) & He & Hw). eapply wp_mono; [apply IH |]. intros r s2 (js & He2 & Hw2 & Hjs & Hl).
      exists (js ++ [j]). rewrite He2, He, add_log_app, map_app. split; [done |].
      split; [by apply (no_more_trans _ _ _ _ _ Hw Hw2) |]. split; [apply list.Forall_app; split; [done | by constructor; [rewrite Hj |]] |].
      intros l Hr. destruct (Hl l Hr) as [-> Hp]. split; [done |]. rewrite map_app, Hp. cbn [map]. rewrite Hj.
      by rewrite Permutation_app_comm.
    + intros [He Hw]. exists []. rewrite add_log_nil. by split_and!.
Qed.

Lemma spawn_all l e : let e' := fold_left spawn_initial l e in
  e' = mk_engine (en_scheduler e) (en_started e) (en_closed e) (en_initial e') (en_pending e) (en_errors e) (en_start e)
         (en_close e) (en_next e') (map EvInitial (reverse l) ++ en_log e) ∧
  map snd (en_initial e') = reverse l ++ map snd (en_initial e) ∧
  (base.NoDup (map fst (en_initial e)) → (∀ t, t ∈ map fst (en_initial e) → t < en_next e) →
   base.NoDup (map fst (en_initial e')) ∧ ∀ t, t ∈ map fst (en_initial e') → t < en_next e').
Proof.
  revert e. induction l as [| d l IH]; intros e; cbn [fold_left]; [by destruct e; split_and!; auto |].
  destruct (IH (spawn_initial e d)) as (He & Hi & Hn). split_and!.
  - etrans; [exact He |]. rewrite reverse_cons, map_app, <- app_assoc. reflexivity.
  - rewrite Hi, reverse_cons, <- app_assoc. reflexivity.
  - intros Hnd Hlt. apply Hn; cbn.
    + constructor; [| done]. intros Hin%Hlt. lia.
    + intros t [-> | Ht]%elem_of_cons; [lia |]. specialize (Hlt t Ht). lia.
Qed.

(** The error [as_error] lets through. *)
Lemma as_error_wp {A} error (m : io EW A) (Φ : result exn A → EW → Prop) s :
  wp m (λ r s', match r with Ok a => Φ (Ok a) s' | Err x => Φ (Err (if is_exception x then error else x)) s' end) s →
  wp (as_error error m) Φ s.
Proof. intros Hm. apply wp_catch. eapply wp_mono; [exact Hm |]. by intros [a | x] s'. Qed.

Definition jobs_from (js : list (ApJob WJ Ctx)) w w' : Prop := ∀ j, j ∈ ap_jobs w' → j ∈ js ∨ j ∈ ap_jobs w.

Lemma start_sync_wp ds s : wp (start_sync ds) (λ r s',
  match r with
  | Ok l => en_closed (fst s) = false ∧ en_scheduler (fst s) = false ∧ l = first ds ∧ ∃ js,
      map aj_definition js ≡ₚ later ds ∧ Forall (λ j, starts_immediately (aj_definition j) = false) js ∧
      jobs_from js (snd s) (snd s') ∧
      fst s' = fold_left spawn_initial (first ds) (set_started (add_log (map EvRegistered js) (set_scheduler (fst s))))
  | Err _ => s' = s ∨ en_closed (fst s) = false ∧ (ap_running (snd s') = true → ap_running (snd s) = true) ∧ ∃ js,
      Forall (λ j, starts_immediately (aj_definition j) = false) js ∧ jobs_from js (snd s) (snd s') ∧
      (js = [] ∧ fst s' = fst s ∨ en_scheduler (fst s) = false ∧ fst s' = add_log (map EvRegistered js) (set_scheduler (fst s)))
  end) s.
Proof.
  match goal with |- wp _ ?Φ _ => remember Φ as P eqn:HP end.
  apply wp_bind. unfold read, wp at 1. destruct (en_closed (fst s)) eqn:Hc; [rewrite HP; by left |].
  apply wp_bind, wp_ret. destruct (en_scheduler (fst s)) eqn:Hs; [rewrite HP; by left |].
  assert (Hstop : ∀ x s' js, no_more js (snd s) (snd s') → Forall (λ j, starts_immediately (aj_definition j) = false) js →
    fst s' = add_log (map EvRegistered js) (set_scheduler (fst s)) → P (Err x) s').
  { intros x s' js [Hr Hj] Hjs He. rewrite HP. right. split; [done |]. split; [done |]. exists js. split_and!; [done.. | by right]. }
  apply wp_bind, wp_ret, wp_bind, wp_lib. eapply wp_mono; [apply ap_factory_law |]. intros [[] | x] w1 Hw1.
  2: { rewrite HP. right. split; [done |]. split; [apply Hw1 |]. exists []. split; [constructor |]. split; [by destruct Hw1 | by left]. }
  apply wp_bind, wp_upd, wp_bind, as_error_wp, wp_bind, wp_lib. cbn [fst snd].
  eapply wp_mono; [apply ap_executor_law |]. intros [[] | x] w2 Hw2; pose proof (no_more_trans _ _ _ _ _ Hw1 Hw2) as Hw;
    [| by apply (Hstop _ _ []); [| constructor | rewrite add_log_nil]].
  apply wp_bind, wp_lib. eapply wp_mono; [apply ap_listener_law |]. clear Hw1 Hw2. intros [[] | x] w3 Hw3; cbn [fst snd] in *;
    pose proof (no_more_trans _ _ _ _ _ Hw Hw3) as Hw4; [| by apply (Hstop _ _ []); [| constructor | rewrite add_log_nil]].
  eapply wp_mono; [apply register_schedules_wp |]. clear Hw Hw3. intros [l | x] s4 (js & He & Hw5 & Hjs & Hl);
    pose proof (no_more_trans _ _ _ _ _ Hw4 Hw5) as Hw; rewrite app_nil_r in Hw; [| by apply (Hstop _ _ js)].
  destruct (Hl l eq_refl) as [-> Hp]. apply wp_bind, as_error_wp, wp_lib. eapply wp_mono; [apply ap_start_law |].
  cbn [fst] in He. intros [[] | x] w6 [Hr6 Hj6].
  - apply wp_bind, wp_upd, wp_bind, wp_upd, wp_ret. rewrite HP. split_and!; [done.. |]. exists js. split_and!; [done.. | |].
    + intros j Hj. by apply Hw, Hj6.
    + cbn [fst]. by rewrite He.
  - apply (Hstop _ _ js); [| done..]. split.
    + intros Hr. apply Hw. destruct (Hr6 Hr) as [? | ?]; [done | done].
    + intros j Hj. by apply Hw, Hj6.
Qed.

(** What the end of an initial dispatch does. *)
Lemma finish_initial_spec n (d : schedule) dispatched s : ∃ l errors,
  fst (finish_initial n d dispatched s) = end_initial n errors (add_log l (fst s)) ∧
  (ap_running (snd (finish_initial n d dispatched s)) = true → ap_running (snd s) = true) ∧
  ((errors = [] ∧ en_closed (fst s) = false ∧ ∃ j, registered_as d j ∧ l = [EvRegistered j; EvInitialDone d] ∧
      jobs_from [j] (snd s) (snd (finish_initial n d dispatched s))) ∨
   (l = [EvInitialDone d] ∧ jobs_from [] (snd s) (snd (finish_initial n d dispatched s)) ∧
    (errors = [] → en_closed (fst s) = true))).
Proof.
  assert (Hwp : wp (initial_dispatched d dispatched) (λ r s', ∃ l, fst s' = add_log l (fst s) ∧
    (ap_running (snd s') = true → ap_running (snd s) = true) ∧
    ((r = Ok tt ∧ en_closed (fst s) = false ∧ ∃ j, registered_as d j ∧ l = [EvRegistered j; EvInitialDone d] ∧ jobs_from [j] (snd s) (snd s')) ∨
     (l = [EvInitialDone d] ∧ jobs_from [] (snd s) (snd s') ∧ (r = Ok tt → en_closed (fst s) = true)))) s).
  { apply wp_bind, wp_upd, wp_bind_lift; [intros [] _ | intros x Hx; exists [EvInitialDone d]; split_and!; [done.. |]; right; split_and!; [done | by right | done]].
    apply wp_bind. unfold read, wp at 1. cbn [fst]. change (en_closed (log_event (EvInitialDone d) (fst s))) with (en_closed (fst s)).
    destruct (en_closed (fst s)) eqn:Hc.
    - apply wp_ret. exists [EvInitialDone d]. split_and!; [done.. |]. right. split_and!; [done | by right | done].
    - eapply wp_mono; [apply register_wp |]. intros [[] | x] s'.
      + intros (j & Hj & He & [Hr Hjobs]). exists [EvRegistered j; EvInitialDone d]. split; [by rewrite He |]. split; [done |].
        left. split_and!; [done.. |]. by exists j.
      + intros [He [Hr Hjobs]]. exists [EvInitialDone d]. split; [by rewrite He |]. split; [done |]. right. by split_and!. }
  unfold finish_initial. unfold wp in Hwp. destruct (initial_dispatched d dispatched s) as [[e w] r].
  destruct Hwp as (l & He & Hr & Hcase). exists l, (option_list (result_err r)). cbn [fst snd] in *. split; [by rewrite He |].
  split; [done |]. destruct Hcase as [(-> & Hc & Hj) | (-> & Hj & Hr')]; [by left; split_and! | right]. split_and!; [done.. |].
  intros Hn. apply Hr'. by destruct r as [[] | x].
Qed.

(** Where [aclose] goes once the initial dispatches are over. *)
Definition drained_to s (p : close_pc) : Prop :=
  match p with
  | CloseDrain tasks => tasks = map fst (en_pending (fst s))
  | CloseEvent => en_pending (fst s) = []
  | CloseDone (Err _) => True
  | _ => False
  end.
Lemma close_drain_wp s : wp close_drain (λ r s', fst s' = fst s ∧ no_more [] (snd s) (snd s') ∧
  match r with Ok p => drained_to s p ∧ (p = CloseEvent → ap_stopping (snd s') = true) | Err _ => True end) s.
Proof.
  apply wp_bind. unfold read, wp at 1. destruct (en_pending (fst s)) as [| t pending] eqn:Hp.
  - apply wp_bind, wp_lib. eapply wp_mono; [apply ap_shutdown_law |]. intros [[] | x] w [Hw Hr]; [| by split_and!].
    apply wp_ret. split; [done |]. split; [done |]. split; [done |]. intros _. by apply Hr.
  - apply wp_ret. split; [done |]. split; [apply no_more_refl |]. split; [by rewrite <- Hp | done].
Qed.

(** [closing] and the result of the code that ran. *)
Lemma closing_wp (m : io EW close_pc) s (Φ : close_pc → EW → Prop) :
  wp m (λ r s', Φ (match r with Ok p => p | Err x => CloseDone (Err x) end) s') s →
  ∃ p s', Φ p s' ∧ closing m s = (set_close p (fst s'), snd s').
Proof. unfold wp, closing. destruct (m s) as [[e w] r]. intros HΦ. eexists _, (e, w). by split. Qed.

Lemma closing_drain s : ∃ p w', closing (as_error SchedulerError close_drain) s = (set_close p (fst s), w') ∧
  no_more [] (snd s) w' ∧ drained_to s p ∧ (p = CloseEvent → ap_stopping w' = true).
Proof.
  destruct (closing_wp (as_error SchedulerError close_drain) s (λ p s', fst s' = fst s ∧ no_more [] (snd s) (snd s') ∧
    drained_to s p ∧ (p = CloseEvent → ap_stopping (snd s') = true))) as (p & s' & (He & Hw & Hd & Hs) & Hc).
  - apply as_error_wp. eapply wp_mono; [apply close_drain_wp |]. intros [p | x] s' (He & Hw & Hp); [by split_and!; destruct Hp |].
    by split_and!.
  - exists p, (snd s'). rewrite Hc, He. by split_and!.
Qed.

Lemma closing_begin s : ∃ p w', closing close_begin s = (set_close p (set_closed (fst s)), w') ∧ no_more [] (snd s) w' ∧
  ((p = CloseDone (Ok tt) ∧ w' = snd s ∧ (en_scheduler (fst s) && en_started (fst s)) = false) ∨
   (∃ x, p = CloseDone (Err x)) ∨
   ap_running w' = false ∧
     ((p = CloseGather (map fst (en_initial (fst s))) ∧ en_initial (fst s) ≠ []) ∨
      en_initial (fst s) = [] ∧ drained_to s p ∧ (p = CloseEvent → ap_stopping w' = true))).
Proof.
  destruct (closing_wp close_begin s (λ p s', fst s' = set_closed (fst s) ∧ no_more [] (snd s) (snd s') ∧
    ((p = CloseDone (Ok tt) ∧ snd s' = snd s ∧ (en_scheduler (fst s) && en_started (fst s)) = false) ∨
     (∃ x, p = CloseDone (Err x)) ∨ ap_running (snd s') = false ∧
       ((p = CloseGather (map fst (en_initial (fst s))) ∧ en_initial (fst s) ≠ []) ∨
        en_initial (fst s) = [] ∧ drained_to s p ∧ (p = CloseEvent → ap_stopping (snd s') = true)))))
    as (p & s' & (He & Hw & Hp) & Hc); [| exists p, (snd s'); by rewrite Hc, He].
  apply wp_bind. unfold read, wp at 1. apply wp_bind, wp_upd. destruct (en_scheduler (fst s) && en_started (fst s)) eqn:Hs; cbn [negb].
  2: { apply wp_ret. split_and!; [done | apply no_more_refl | by left]. }
  apply as_error_wp, wp_bind, wp_lib. eapply wp_mono; [apply ap_pause_law |]. cbn [fst snd]. intros [[] | x] w1 [Hw1 Hpause].
  2: { split_and!; [done.. |]. right. left. by eexists. }
  destruct (en_initial (fst s)) as [| t initial] eqn:Hi.
  - eapply wp_mono; [apply close_drain_wp |]. intros r s' (He & Hw2 & Hr).
    assert (Hno : ap_running (snd s') = false).
    { destruct (ap_running (snd s')) eqn:Hrun; [| done]. rewrite <- (Hpause eq_refl). symmetry. by apply Hw2. }
    pose proof (no_more_trans _ _ _ _ _ Hw1 Hw2) as Hw. destruct r as [p | x]; (split_and!; [done.. |]); right.
    + right. split; [done |]. by right.
    + left. by eexists.
  - apply wp_ret. split_and!; [done.. |]. right. right. split; [by apply Hpause |]. left. by split.
Qed.

(** ** The invariant of the life cycle *)

(** What is over when [aclose] stands at [p]. *)
Definition close_inv (p : close_pc) s : Prop :=
  match p with
  | CloseIdle | CloseDone (Err _) => True
  | CloseGather tasks => ap_running (snd s) = false ∧ ∀ t, t ∈ map fst (en_initial (fst s)) → t ∈ tasks
  | CloseDrain tasks => ap_running (snd s) = false ∧ en_initial (fst s) = [] ∧ ∀ t, t ∈ map fst (en_pending (fst s)) → t ∈ tasks
  | CloseEvent => ap_running (snd s) = false ∧ en_initial (fst s) = [] ∧ en_pending (fst s) = [] ∧ ap_stopping (snd s) = true
  | CloseDone (Ok _) => ap_running (snd s) = false ∧ en_initial (fst s) = [] ∧ en_pending (fst s) = []
  end.
Record engine_inv s : Prop := {
  inv_run : ap_running (snd s) = true → en_started (fst s) = true ∨ ∃ x, en_close (fst s) = CloseDone (Err x);
  inv_sched : en_started (fst s) = true → en_scheduler (fst s) = true;
  inv_idle : en_started (fst s) = false → en_closed (fst s) = false → en_initial (fst s) = [] ∧ en_pending (fst s) = [];
  inv_closed : en_closed (fst s) = false ↔ en_close (fst s) = CloseIdle;
  inv_open : en_closed (fst s) = true → en_started (fst s) = false;
  inv_fresh : en_start (fst s) = StartIdle → en_scheduler (fst s) = false;
  inv_busy : may_start (en_start (fst s)) = false → en_scheduler (fst s) = true ∨ en_closed (fst s) = true;
  inv_gone : en_closed (fst s) = true → en_scheduler (fst s) = false;
  inv_close : close_inv (en_close (fst s)) s;
}.

Lemma filter_tasks_in (n : nat) (l : list (nat * schedule)) t :
  t ∈ map fst (List.filter (λ t, negb (t.1 =? n)) l) → t ∈ map fst l.
Proof.
  intros (x & -> & Hx)%list_elem_of_fmap. rewrite list_elem_of_In, List.filter_In, <- list_elem_of_In in Hx.
  apply (list_elem_of_fmap_2 fst l x). by destruct Hx.
Qed.

Lemma ended_all tasks (l : list (nat * schedule)) : ended tasks l = true → (∀ t, t ∈ map fst l → t ∈ tasks) → l = [].
Proof.
  unfold ended. rewrite forallb_forall. intros He Hl. destruct l as [| x l]; [done |].
  specialize (He x.1). rewrite bool_decide_true in He by left. discriminate He. apply list_elem_of_In, Hl. left.
Qed.

(** Steps that end tasks, or let the scheduler rest, keep what is over. *)
Lemma close_inv_mono p s s' : close_inv p s →
  (ap_running (snd s') = true → ap_running (snd s) = true) →
  (ap_stopping (snd s) = true → ap_stopping (snd s') = true ∨ p ≠ CloseEvent) →
  (∀ t, t ∈ map fst (en_initial (fst s')) → t ∈ map fst (en_initial (fst s))) →
  (∀ t, t ∈ map fst (en_pending (fst s')) → t ∈ map fst (en_pending (fst s))) →
  close_inv p s'.
Proof.
  intros Hp Hr Hs Hi Hq. assert (Hrest : ap_running (snd s) = false → ap_running (snd s') = false).
  { intros Hf. destruct (ap_running (snd s')); [| done]. by rewrite Hr in Hf. }
  assert (Hnil : ∀ l l' : list (nat * schedule), (∀ t, t ∈ map fst l' → t ∈ map fst l) → l = [] → l' = []).
  { intros l [| x l'] Hl ->; [done |]. specialize (Hl x.1 ltac:(left)). by apply not_elem_of_nil in Hl. }
  destruct p as [| tasks | tasks | | [[] | x]]; simpl in *; try done.
  - destruct Hp as [H1 H2]. split; [auto |]. intros t Ht. auto.
  - destruct Hp as (H1 & H2 & H3). split_and!; [auto | eauto | intros t Ht; auto].
  - destruct Hp as (H1 & H2 & H3 & H4). split_and!; [auto | eauto | eauto |]. by destruct (Hs H4).
  - destruct Hp as (H1 & H2 & H3). split_and!; [auto | eauto | eauto].
Qed.

(** [start] refuses an engine that is closed or has a scheduler. *)
Lemma refused_start_sync ds s : en_scheduler (fst s) || en_closed (fst s) = true →
  start_sync ds s = (s, Err SchedulerError).
Proof.
  intros Hb. unfold start_sync, bind, read. destruct (en_closed (fst s)); [done |].
  by destruct (en_scheduler (fst s)).
Qed.
Lemma refused_start ds s : en_scheduler (fst s) || en_closed (fst s) = true →
  starting ds s = (set_start (StartDone (Err SchedulerError)) (fst s), snd s).
Proof. intros Hb. unfold starting. rewrite refused_start_sync by done. by destruct s. Qed.
Lemma closed_start ds s : en_closed (fst s) = true → starting ds s = (set_start (StartDone (Err SchedulerError)) (fst s), snd s).
Proof. intros Hc. apply refused_start. by rewrite Hc, orb_true_r. Qed.

Lemma busy_start ds s : engine_inv s → may_start (en_start (fst s)) = false → start_sync ds s = (s, Err SchedulerError).
Proof. intros Hinv Hb. apply refused_start_sync, orb_true_iff, (inv_busy s Hinv Hb). Qed.

(** A call of [aclose] on a closed engine returns at once. *)
Lemma repeated_close s : engine_inv s → en_closed (fst s) = true → close_begin s = (s, Ok (CloseDone (Ok tt))).
Proof.
  intros Hinv Hc. pose proof (inv_gone s Hinv Hc) as Hs. pose proof (inv_open s Hinv Hc) as Ht.
  unfold close_begin, bind, read, upd, modify. rewrite Hs. cbn. destruct s as [[] w]; cbn in *; by subst.
Qed.
Lemma close_again s : engine_inv s → en_close (fst s) ≠ CloseIdle → close_begin s = (s, Ok (CloseDone (Ok tt))).
Proof.
  intros Hinv Hc. apply repeated_close; [done |]. destruct (en_closed (fst s)) eqn:E; [done |].
  by apply (inv_closed s Hinv) in E.
Qed.

Lemma starting_inv ds s : engine_inv s → engine_inv (starting ds s).
Proof.
  intros Hinv. destruct (en_scheduler (fst s) || en_closed (fst s)) eqn:Hb.
  { rewrite refused_start by done. destruct Hinv. by split. }
  apply orb_false_iff in Hb as [Hfr Hc].
  pose proof (start_sync_wp ds s) as Hwp. unfold wp in Hwp. unfold starting. destruct Hinv as [Hrun Hsched Hi Hcl Hop _ Hbu Hgo Hp].
  pose proof (proj1 Hcl Hc) as Hcp.
  destruct (start_sync ds s) as [[e w] [l | x]]; cbn [fst snd] in *.
  - destruct Hwp as (_ & _ & Hl & js & _ & _ & _ & He).
    destruct (spawn_all (first ds) (set_started (add_log (map EvRegistered js) (set_scheduler (fst s))))) as (Hsp & _).
    rewrite <- He in Hsp. rewrite Hsp. split; cbn; try done; try (by left); try (by rewrite Hcp); try congruence.
    all: try (intros; by destruct l).
  - assert (Hst : en_started (fst s) = false) by (destruct (en_started (fst s)); [rewrite Hsched in Hfr; done | done]).
    destruct (Hi Hst Hc) as [Hi1 Hi2].
    destruct Hwp as [<- | (_ & Hr & js & _ & _ & [[_ ->] | [_ ->]])]; split; cbn; rewrite ?Hcp; try done; try congruence.
    all: intros Hw; exfalso; first [destruct (Hrun Hw) as [? | [x' ?]] | destruct (Hrun (Hr Hw)) as [? | [x' ?]]]; congruence.
Qed.

Lemma no_more_run l w w' : no_more l w w' → ap_running w' = true → ap_running w = true.
Proof. by intros [H _]. Qed.
Lemma rests w w' : (ap_running w' = true → ap_running w = true) → ap_running w = false → ap_running w' = false.
Proof. intros H1 H2. destruct (ap_running w'); [| done]. by rewrite H1 in H2. Qed.

Lemma drain_inv s : engine_inv s → en_closed (fst s) = true → ap_running (snd s) = false → en_initial (fst s) = [] →
  engine_inv (closing (as_error SchedulerError close_drain) s).
Proof.
  intros [Hrun Hsched Hi Hcl Hop Hfr Hbu Hgo Hp] Hc Hr Hini. destruct (closing_drain s) as (p & w' & -> & Hw & Hd & Hs).
  pose proof (rests _ _ (no_more_run _ _ _ Hw) Hr) as Hr'. specialize (Hop Hc).
  assert (Hpne : p ≠ CloseIdle) by by destruct p.
  split; cbn; try done; try congruence.
  - by rewrite Hc.
  - destruct p as [| | tasks | | [|]]; cbn in *; try done.
    + split_and!; [done.. |]. by intros t; rewrite Hd.
    + split_and!; auto.
Qed.

Lemma begin_inv s : engine_inv s → en_close (fst s) = CloseIdle → engine_inv (closing close_begin s).
Proof.
  intros [Hrun Hsched Hi Hcl Hop Hfr Hbu Hgo Hp] Hc. destruct (closing_begin s) as (p & w' & -> & Hw & Hcase).
  pose proof (proj2 Hcl Hc) as Hopen.
  destruct Hcase as [(-> & -> & Hsc) | [[x ->] | [Hr [[-> Hne] | (Hini & Hd & Hs)]]]].
  - assert (Hst : en_started (fst s) = false).
    { destruct (en_started (fst s)); [| done]. rewrite Hsched in Hsc by done. done. }
    assert (Hr : ap_running (snd s) = false).
    { destruct (ap_running (snd s)); [| done]. destruct (Hrun eq_refl) as [? | [x ?]]; congruence. }
    destruct (Hi Hst Hopen) as [Hi1 Hi2]. split; cbn; try done; try (intros; by right); congruence.
  - split; cbn; try done; [intros _; right; by eexists | intros; by right].
  - split; cbn; try done; [congruence | intros; by right].
  - split; cbn; try done; try congruence; try (intros; by right).
    + by destruct p.
    + destruct p as [| | tasks | | [|]]; cbn in *; try done.
      * split_and!; [done.. |]. by intros t; rewrite Hd.
      * split_and!; auto.
Qed.

Lemma engine_step_inv ds s s' : engine_inv s → engine_step ds s s' → engine_inv s'.
Proof.
  intros Hinv Hstep. pose proof Hinv as [Hrun Hsched Hi Hcl Hop Hfr Hbu Hgo Hp]. destruct Hstep as
    [s Hs | s ds' Hs | s Hs | s n d dispatched Hin | s Hs Hini | s Hs | e w w' Hm | e w j w' Hm | s n d Hin | s Hs | s tasks Hs He
    | s tasks Hs He | s Hs Hsh | s Hs].
  - by apply starting_inv.
  - by rewrite busy_start.
  - by rewrite close_again.
  - destruct (finish_initial_spec n d dispatched s) as (l & errors & He & Hr & _).
    destruct (finish_initial n d dispatched s) as [e w]. cbn [fst snd] in He, Hr. subst e.
    split; cbn; try done.
    + intros Hr'. auto.
    + intros H1 H2. destruct (Hi H1 H2) as [H3 H4]. rewrite H3 in Hin. by apply not_elem_of_nil in Hin.
    + eapply close_inv_mono; [exact Hp | done | | intros t; apply filter_tasks_in | done].
      intros Hst. destruct (en_close (fst s)); try by right.
      destruct Hp as (_ & Hn & _). rewrite Hn in Hin. by apply not_elem_of_nil in Hin.
  - split; cbn; try done. intros _. apply Hbu. by rewrite Hs.
  - by split; cbn.
  - destruct (ap_moves_law w None w' Hm) as (Hn & Hst & _). split; cbn in *; try done.
    + intros Hr. by apply Hrun, Hn.
    + eapply close_inv_mono; [exact Hp | apply Hn | cbn; auto | auto..].
  - destruct (ap_moves_law w (Some j) w' Hm) as (Hn & Hst & Hj). destruct (Hj j eq_refl) as [Hr Hjobs].
    split; cbn in *; try done.
    + intros Hr'. auto.
    + intros H1 H2. destruct (Hrun Hr) as [? | [x ?]]; [congruence |]. rewrite (proj1 Hcl H2) in *. done.
    + destruct (en_close e) as [| | | | [|]]; cbn in *; try done; destruct_and?; congruence.
  - split; cbn; try done.
    + intros H1 H2. destruct (Hi H1 H2) as [H3 H4]. by rewrite H4.
    + eapply close_inv_mono; [exact Hp | done | auto | done | intros t; apply filter_tasks_in].
  - by apply begin_inv.
  - rewrite Hs in Hp. destruct Hp as [Hr Ht]. apply drain_inv; [done | | done |].
    + destruct (en_closed (fst s)) eqn:Hc; [done |]. pose proof (proj1 Hcl eq_refl). congruence.
    + by eapply ended_all.
  - rewrite Hs in Hp. destruct Hp as (Hr & Hn & Ht). apply drain_inv; [done | | done | done].
    destruct (en_closed (fst s)) eqn:Hc; [done |]. pose proof (proj1 Hcl eq_refl). congruence.
  - rewrite Hs in Hp. destruct Hp as (Hr & Hn1 & Hn2 & _). split; cbn; try done.
    + intros Hr'. congruence.
    + split; [| done]. intros Hc. pose proof (proj1 Hcl Hc). congruence.
  - split; cbn; try done.
    + intros _. right. by eexists.
    + split; [| done]. intros Hc. pose proof (proj1 Hcl Hc) as Hx. by rewrite Hx in Hs.
Qed.

(** ** The invariant of the log *)

(** Each event has its reason before it. *)
Definition justified (v : engine_event WJ Ctx) (before : list (engine_event WJ Ctx)) : Prop :=
  match v with
  | EvInitial d => starts_immediately d = true
  | EvInitialDone d => EvInitial d ∈ before
  | EvRegistered j => starts_immediately (aj_definition j) = true → EvInitialDone (aj_definition j) ∈ before
  | EvSubmitted j => EvRegistered j ∈ before
  end.
Fixpoint ordered (log : list (engine_event WJ Ctx)) : Prop :=
  match log with [] => True | v :: log => justified v log ∧ ordered log end.

Definition registered (log : list (engine_event WJ Ctx)) : list schedule :=
  omap (λ v, match v with EvRegistered j => Some (aj_definition j) | _ => None end) log.
Definition initials (log : list (engine_event WJ Ctx)) : list schedule :=
  omap (λ v, match v with EvInitial d => Some d | _ => None end) log.

Lemma ordered_split log pre v post : ordered log → log = pre ++ v :: post → justified v post.
Proof.
  intros Ho ->. induction pre as [| x pre IH]; cbn in Ho; [by destruct Ho | by apply IH; destruct Ho].
Qed.

Record log_inv ds s : Prop := {
  li_ordered : ordered (en_log (fst s));
  li_jobs : ∀ j, j ∈ ap_jobs (snd s) → EvRegistered j ∈ en_log (fst s);
  li_tasks : ∀ n d, (n, d) ∈ en_initial (fst s) → EvInitial d ∈ en_log (fst s);
  li_names : base.NoDup (map fst (en_initial (fst s))) ∧ ∀ t, t ∈ map fst (en_initial (fst s)) → t < en_next (fst s);
  li_fresh : en_scheduler (fst s) = false → en_closed (fst s) = false → registered (en_log (fst s)) = [] ∧ initials (en_log (fst s)) = [] ∧
    en_initial (fst s) = [] ∧ en_errors (fst s) = [];
  li_first : initials (en_log (fst s)) = [] ∨ initials (en_log (fst s)) ≡ₚ first ds;
  li_waiting : en_start (fst s) = StartWaiting ∨ en_start (fst s) = StartDone (Ok tt) → initials (en_log (fst s)) ≡ₚ first ds;
  li_open : en_start (fst s) = StartWaiting → en_closed (fst s) = false → en_errors (fst s) = [] →
    registered (en_log (fst s)) ++ map snd (en_initial (fst s)) ≡ₚ ds;
  li_done : en_start (fst s) = StartDone (Ok tt) → en_initial (fst s) = [] ∧
    (en_closed (fst s) = true ∨ registered (en_log (fst s)) ≡ₚ ds);
}.

Lemma first_later ds : first ds ++ later ds ≡ₚ ds.
Proof.
  unfold first, later. induction ds as [| d ds IH]; [done |]. cbn [List.filter]. destruct (starts_immediately d); cbn [negb].
  - cbn. by rewrite IH.
  - rewrite <- Permutation_middle. by rewrite IH.
Qed.

Lemma ordered_registered js log : Forall (λ j, starts_immediately (aj_definition j) = false) js → ordered log →
  ordered (map EvRegistered js ++ log).
Proof. induction 1 as [| j js Hj Hjs IH]; intros Hl; [done |]. cbn. split; [congruence | by apply IH]. Qed.
Lemma ordered_initials l log : Forall (λ d, starts_immediately d = true) l → ordered log → ordered (map EvInitial l ++ log).
Proof. induction 1 as [| d l Hd Hl IH]; intros Hlog; [done |]. cbn. split; [done | by apply IH]. Qed.
Lemma registered_app l1 l2 : registered (l1 ++ l2) = registered l1 ++ registered l2.
Proof. apply omap_app. Qed.
Lemma initials_app l1 l2 : initials (l1 ++ l2) = initials l1 ++ initials l2.
Proof. apply omap_app. Qed.
Lemma registered_of js : registered (map EvRegistered js) = map aj_definition js.
Proof. induction js as [| j js IH]; [done |]. cbn. f_equal. exact IH. Qed.
Lemma registered_initials (l : list schedule) : registered (map EvInitial l) = [].
Proof. by induction l. Qed.
Lemma initials_of js : initials (map EvRegistered js) = [].
Proof. by induction js. Qed.
Lemma initials_initials (l : list schedule) : initials (map EvInitial l) = l.
Proof. induction l as [| d l IH]; [done |]. cbn. f_equal. exact IH. Qed.
Lemma first_immediate ds : Forall (λ d, starts_immediately d = true) (first ds).
Proof. apply list.Forall_forall. intros d. unfold first. rewrite list_elem_of_In, List.filter_In. tauto. Qed.

Lemma starting_log ds s : engine_inv s → log_inv ds s → log_inv ds (starting ds s).
Proof.
  intros Hinv [Hord Hjobs Htasks [Hnd Hlt] Hfresh Hfirst Hwait Hopen Hdone].
  destruct (en_scheduler (fst s) || en_closed (fst s)) eqn:Hb.
  { rewrite refused_start by done. split; cbn; try done; intros; destruct_or?; done. }
  apply orb_false_iff in Hb as [Hsc Hc]. destruct (Hfresh Hsc Hc) as (Hreg & Hini & Hi & Herr).
  pose proof (start_sync_wp ds s) as Hwp. unfold wp in Hwp. unfold starting.
  destruct (start_sync ds s) as [[e w] [l | x]]; cbn [fst snd] in *.
  - destruct Hwp as (_ & _ & -> & js & Hp & Hjs & Hj & He).
    destruct (spawn_all (first ds) (set_started (add_log (map EvRegistered js) (set_scheduler (fst s))))) as (Hsp & Hs2 & Hs3).
    rewrite <- He in *. clear He. cbn in Hs2, Hs3, Hsp. rewrite Hi in *. specialize (Hs3 Hnd Hlt). rewrite app_nil_r in Hs2.
    assert (Hlog : en_log e = map EvInitial (reverse (first ds)) ++ map EvRegistered js ++ en_log (fst s)) by by rewrite Hsp.
    assert (Hf : initials (en_log e) ≡ₚ first ds).
    { rewrite Hlog, !initials_app, initials_initials, initials_of, Hini, !app_nil_r. apply reverse_Permutation. }
    assert (Hr : registered (en_log e) ≡ₚ later ds).
    { by rewrite Hlog, !registered_app, registered_initials, registered_of, Hreg, app_nil_r. }
    split; cbn; try done.
    + rewrite Hlog. apply ordered_initials; [rewrite reverse_Permutation; apply first_immediate |].
      by apply ordered_registered.
    + intros j Hj'. rewrite Hlog. destruct (Hj j Hj') as [Hin | Hin]; [| set_solver].
      apply list.elem_of_app. right. apply list.elem_of_app. left. by apply list_elem_of_fmap_2.
    + intros n d Hin. rewrite Hlog. apply list.elem_of_app. left. apply list_elem_of_fmap_2. rewrite <- Hs2.
      by apply (list_elem_of_fmap_2 snd _ (n, d)).
    + rewrite Hsp. by intros ?.
    + by right.
    + intros _ _ _. rewrite Hr, Hs2, reverse_Permutation, Permutation_app_comm. apply first_later.
    + destruct (first ds) as [| d fs] eqn:Hfd; [| by intros ?]. intros _. split; [by apply fmap_nil_inv in Hs2 |].
      right. rewrite Hr. pose proof (first_later ds) as Hfl. by rewrite Hfd in Hfl.
  - destruct Hwp as [<- | (_ & _ & js & Hjs & Hj & Hcase)].
    { split; cbn; try done; intros; destruct_or?; done. }
    assert (He : en_log e = map EvRegistered js ++ en_log (fst s) ∧ en_initial e = en_initial (fst s) ∧ en_next e = en_next (fst s)).
    { by destruct Hcase as [[-> ->] | [_ ->]]. }
    destruct He as (Hl & Hi' & Hn'). split; cbn; rewrite ?Hl, ?Hi', ?Hn'; try done.
    + by apply ordered_registered.
    + intros j Hj'. destruct (Hj j Hj') as [Hin | Hin]; apply list.elem_of_app; [left; by apply list_elem_of_fmap_2 | right; auto].
    + rewrite Hi. intros n d Hin. by apply not_elem_of_nil in Hin.
    + intros Hs2 _. destruct Hcase as [[-> He] | [_ He]]; [rewrite He; by split_and! | by rewrite He in Hs2].
    + left. by rewrite initials_app, initials_of.
    + intros Hs. by destruct Hs.
Qed.

(** Removing one of the tasks, whose names are distinct. *)
Lemma filter_names n (l : list (nat * schedule)) : base.NoDup (map fst l) →
  base.NoDup (map fst (List.filter (λ t, negb (t.1 =? n)) l)).
Proof.
  induction l as [| t l IH]; intros Hnd; [done |]. cbn [map] in Hnd. apply list.NoDup_cons in Hnd as [Ht Hnd].
  cbn [List.filter]. case_bool; [| by apply IH]. cbn [map]. constructor; [| by apply IH]. intros Hin. by apply Ht, (filter_tasks_in n).
Qed.
Lemma filter_absent n (l : list (nat * schedule)) : n ∉ map fst l → List.filter (λ t, negb (t.1 =? n)) l = l.
Proof.
  induction l as [| t l IH]; intros Hn; [done |]. cbn [List.filter map] in *. apply not_elem_of_cons in Hn as [Ht Hn].
  rewrite (proj2 (Nat.eqb_neq t.1 n)) by congruence. cbn. f_equal. by apply IH.
Qed.
Lemma filter_one n (d : schedule) l : base.NoDup (map fst l) → (n, d) ∈ l →
  map snd l ≡ₚ d :: map snd (List.filter (λ t, negb (t.1 =? n)) l).
Proof.
  induction l as [| t l IH]; intros Hnd Hin; [by apply not_elem_of_nil in Hin |]. cbn [map] in Hnd.
  apply list.NoDup_cons in Hnd as [Ht Hnd]. apply elem_of_cons in Hin as [<- | Hin].
  - cbn [List.filter map fst snd] in *. rewrite Nat.eqb_refl. cbn [negb]. by rewrite filter_absent.
  - cbn [List.filter]. rewrite (proj2 (Nat.eqb_neq t.1 n)).
    + cbn [negb map]. rewrite (IH Hnd Hin). constructor.
    + intros He. apply Ht. change (fst t) with t.1. rewrite He. by apply (list_elem_of_fmap_2 fst _ (n, d)).
Qed.

#[local] Arguments registered : simpl never.
#[local] Arguments initials : simpl never.

Lemma finish_initial_log ds n (d : schedule) dispatched s : engine_inv s → log_inv ds s → (n, d) ∈ en_initial (fst s) →
  log_inv ds (finish_initial n d dispatched s).
Proof.
  intros Hinv [Hord Hjobs Htasks [Hnd Hlt] Hfresh Hfirst Hwait Hopen Hdone] Hin.
  destruct (finish_initial_spec n d dispatched s) as (l & errors & He & _ & Hcase).
  destruct (finish_initial n d dispatched s) as [e w]. cbn [fst snd] in *. subst e.
  assert (Hini : initials (l ++ en_log (fst s)) = initials (en_log (fst s)))
    by by rewrite initials_app; destruct Hcase as [(_ & _ & j & _ & -> & _) | (-> & _ & _)].
  assert (Hbusy : ∀ P : Prop, en_initial (fst s) = [] → P) by (intros P Hn; rewrite Hn in Hin; by apply not_elem_of_nil in Hin).
  split; cbn; rewrite ?Hini; try done.
  - destruct Hcase as [(_ & _ & j & (Hj & _) & -> & _) | (-> & _ & _)]; cbn.
    + rewrite Hj. split_and!; [intros _; left | by eapply Htasks | done].
    + by split; [eapply Htasks |].
  - intros j Hj. destruct Hcase as [(_ & _ & j0 & _ & -> & Hjs) | (-> & Hjs & _)]; destruct (Hjs j Hj) as [Hj' | Hj'];
      apply list.elem_of_app.
    + apply list_elem_of_singleton in Hj' as ->. left. left.
    + right. auto.
    + by apply not_elem_of_nil in Hj'.
    + right. auto.
  - intros n' d' Hin'. rewrite list_elem_of_In, List.filter_In, <- list_elem_of_In in Hin'.
    apply list.elem_of_app. right. by eapply Htasks, Hin'.
  - split; [by apply filter_names | intros t Ht; by eapply Hlt, filter_tasks_in].
  - intros Hs Hc. destruct (Hfresh Hs Hc) as (_ & _ & Hn & _). by apply Hbusy.
  - intros Hs Hc [Herr Herr0]%app_nil. destruct Hcase as [(_ & _ & j & (Hj & _) & -> & _) | (-> & _ & Hc')];
      [| rewrite Hc' in Hc by done; done].
    rewrite <- (Hopen Hs Hc Herr0), (filter_one n d (en_initial (fst s))) by (done || apply Hnames || exact Hnd).
    rewrite registered_app. change (registered [EvRegistered j; EvInitialDone d]) with [aj_definition j].
    rewrite Hj. cbn [app]. apply Permutation_middle.
  - intros Hs. destruct (Hdone Hs) as [Hn _]. by apply Hbusy.
Qed.

Lemma log_step ds s s' : engine_inv s → log_inv ds s → engine_step ds s s' → log_inv ds s'.
Proof.
  intros Hinv Hlog Hstep. pose proof Hlog as [Hord Hjobs Htasks Hnames Hfresh Hfirst Hwait Hopen Hdone].
  assert (Hclose : ∀ p w', no_more [] (snd s) w' → ∀ e', e' = set_closed (fst s) ∨ e' = fst s → log_inv ds (set_close p e', w')).
  { intros p w' [_ Hw] e' He. assert (Hj : ∀ j, j ∈ ap_jobs w' → EvRegistered j ∈ en_log (fst s))
      by (intros j Hj; destruct (Hw j Hj) as [Hx | Hx]; [by apply not_elem_of_nil in Hx | auto]).
    destruct He as [-> | ->]; split; cbn; try done. intros Hs. destruct (Hdone Hs). by split; [| left]. }
  destruct Hstep as [s Hs | s ds' Hs | s Hs | s n d dispatched Hin | s Hs Hini | s Hs | e w w' Hm | e w j w' Hm | s n d Hin | s Hs
    | s tasks Hs He | s tasks Hs He | s Hs Hsh | s Hs].
  - by apply starting_log.
  - by rewrite busy_start.
  - by rewrite close_again.
  - by apply finish_initial_log.
  - split; cbn; try done.
    + intros _. apply Hwait. by left.
    + destruct (en_errors (fst s)) eqn:Herr; [| done]. intros _. split; [done |]. destruct (en_closed (fst s)) eqn:Hc; [by left | right].
      rewrite <- (Hopen Hs eq_refl eq_refl), Hini. by rewrite app_nil_r.
  - split; cbn; try done. intros Hd. by destruct Hd.
  - destruct (ap_moves_law w None w' Hm) as ([_ Hj] & _). split; cbn in *; try done.
    intros j Hin. destruct (Hj j Hin) as [Hx | Hx]; [by apply not_elem_of_nil in Hx | auto].
  - destruct (ap_moves_law w (Some j) w' Hm) as ([_ Hj] & _ & Hsub). destruct (Hsub j eq_refl) as [_ Hreg].
    split; cbn in *; try done.
    + split; auto.
    + intros x Hx. right. destruct (Hj x Hx) as [Hy | Hy]; [by apply not_elem_of_nil in Hy | auto].
    + intros n d Hin. right. eauto.
    + destruct Hnames as [Hnd Hlt]. split; [done |]. intros t Ht. specialize (Hlt t Ht). lia.
  - by split; cbn.
  - destruct (closing_begin s) as (p & w' & -> & Hw & _). apply Hclose; auto.
  - destruct (closing_drain s) as (p & w' & -> & Hw & _). apply Hclose; auto.
  - destruct (closing_drain s) as (p & w' & -> & Hw & _). apply Hclose; auto.
  - apply (Hclose _ (snd s)); [apply no_more_refl | auto].
  - apply (Hclose _ (snd s)); [apply no_more_refl | auto].
Qed.

(** ** Reachable states *)

(** From a new engine and a scheduler that never ran. *)
Definition engine_reachable ds s : Prop :=
  ∃ w0, ap_running w0 = false ∧ ap_jobs w0 = [] ∧ rtc (engine_step ds) (engine_init, w0) s.

Lemma reachable_inv ds s : engine_reachable ds s → engine_inv s ∧ log_inv ds s.
Proof.
  intros (w0 & Hr & Hj & Hrun). assert (H0 : engine_inv (engine_init (WJ := WJ) (Ctx := Ctx), w0) ∧ log_inv ds (engine_init, w0)).
  { split; split; cbn; try done; try congruence; try (by left); try naive_solver.
    - rewrite Hj. intros j Hin. by apply not_elem_of_nil in Hin.
    - intros n d Hin. by apply not_elem_of_nil in Hin.
    - split; [constructor |]. intros t Hin. by apply not_elem_of_nil in Hin. }
  remember (engine_init, w0) as s0 eqn:E. clear E Hr Hj. induction Hrun as [s | s s1 s2 Hstep Hrun IH]; [done |].
  apply IH. destruct H0. split; [by eapply engine_step_inv | by eapply log_step].
Qed.

Lemma quiet_step ds s s' : engine_inv s → en_close (fst s) = CloseDone (Ok tt) → engine_step ds s s' →
  en_close (fst s') = CloseDone (Ok tt) ∧ en_log (fst s') = en_log (fst s).
Proof.
  intros Hinv Hc Hstep. pose proof Hinv as [Hrun Hsched Hi Hcl Hop Hfr Hbu Hgo Hp]. rewrite Hc in Hp. destruct Hp as (Hr & Hn1 & Hn2).
  assert (Hclosed : en_closed (fst s) = true) by (destruct (en_closed (fst s)); [done | rewrite (proj1 Hcl eq_refl) in Hc; done]).
  destruct Hstep as [s Hs | s ds' Hs | s Hs | s n d dispatched Hin | s Hs Hini | s Hs | e w w' Hm | e w j w' Hm | s n d Hin | s Hs
    | s tasks Hs He | s tasks Hs He | s Hs Hsh | s Hs]; try congruence; try done.
  - by rewrite closed_start.
  - by rewrite busy_start.
  - by rewrite close_again.
  - rewrite Hn1 in Hin. by apply not_elem_of_nil in Hin.
  - destruct (ap_moves_law w (Some j) w' Hm) as (_ & _ & Hj). destruct (Hj j eq_refl). cbn in *. congruence.
  - by rewrite Hc in Hs.
Qed.

(** C15: once the [aclose] that stops the engine has returned normally, nothing
    of the scheduler is left: no first dispatch and no submitted one is running,
    so the shared queue connections can be closed, and from then on nothing is
    dispatched or registered, whatever the library, the tasks and other calls
    of [start] and [aclose] do.  That [aclose] is the first one: a repeated
    call, also one made while the first still waits or after it failed, returns
    at once, changes nothing and so does not tell that the engine is quiet. *)
Theorem engine_quiet_after_close ds s :
  engine_reachable ds s →
  (en_close (fst s) = CloseDone (Ok tt) → ∀ s', rtc (engine_step ds) s s' →
     en_initial (fst s') = [] ∧ en_pending (fst s') = [] ∧ en_log (fst s') = en_log (fst s)) ∧
  (en_close (fst s) ≠ CloseIdle → close_begin s = (s, Ok (CloseDone (Ok tt)))).
Proof.
  intros Hreach. apply reachable_inv in Hreach as [Hinv _]. split; [| by apply close_again].
  intros Hc s' Hrun. induction Hrun as [s | s s1 s2 Hstep Hrun IH].
  - pose proof (inv_close _ Hinv) as Hp. rewrite Hc in Hp. destruct Hp as (_ & H1 & H2). by split_and!.
  - destruct (quiet_step _ _ _ Hinv Hc Hstep) as [Hc' Hl]. rewrite <- Hl. apply IH; [by eapply engine_step_inv | done].
Qed.

(** [start] does for each schedule what its policy says.  When it returns, the
    immediate schedules - and no others - were dispatched once, these dispatches
    are over, and every schedule was registered exactly once unless the engine
    was closed meanwhile; at any time a schedule is only submitted after it was
    registered, and an immediate one is only registered after its first dispatch
    ended. *)
Theorem engine_starts_schedules ds s : engine_reachable ds s →
  (en_start (fst s) = StartDone (Ok tt) →
     en_initial (fst s) = [] ∧ initials (en_log (fst s)) ≡ₚ List.filter starts_immediately ds ∧
     (en_closed (fst s) = true ∨ registered (en_log (fst s)) ≡ₚ ds)) ∧
  ∀ later j earlier, en_log (fst s) = later ++ EvSubmitted j :: earlier →
    ∃ between before, earlier = between ++ EvRegistered j :: before ∧
      (starts_immediately (aj_definition j) = true → EvInitialDone (aj_definition j) ∈ before).
Proof.
  intros [_ Hlog]%reachable_inv. split.
  - intros Hs. destruct (li_done _ _ Hlog Hs) as [Hn Hreg]. split_and!; [done | | done].
    apply (li_waiting _ _ Hlog). by right.
  - intros later j earlier He. pose proof (li_ordered _ _ Hlog) as Hord.
    pose proof (ordered_split _ _ _ _ Hord He) as Hj. cbn in Hj.
    apply list_elem_of_split in Hj as (between & before & ->). exists between, before. split; [done |].
    apply (ordered_split (en_log (fst s)) (later ++ EvSubmitted j :: between) (EvRegistered j) before); [done |].
    rewrite He. by rewrite <- app_assoc.
Qed.

(** *** [aclose] ends *)

Definition load s : nat := length (en_initial (fst s)) + length (en_pending (fst s)).
Definition awaiting (p : close_pc) : bool := match p with CloseGather _ | CloseDrain _ | CloseEvent => true | _ => false end.

Lemma awaiting_closed s : engine_inv s → awaiting (en_close (fst s)) = true → en_closed (fst s) = true ∧ ap_running (snd s) = false.
Proof.
  intros [_ _ _ Hcl _ _ _ _ Hp] Ha. split.
  - destruct (en_closed (fst s)); [done |]. by rewrite (proj1 Hcl eq_refl) in Ha.
  - destruct (en_close (fst s)) as [| | | | [|]]; try done; by destruct Hp.
Qed.

Lemma end_all_initial ds s : engine_inv s → en_closed (fst s) = true → base.NoDup (map fst (en_initial (fst s))) →
  ∃ s', rtc (engine_step ds) s s' ∧ en_initial (fst s') = [] ∧ en_close (fst s') = en_close (fst s) ∧
    en_pending (fst s') = en_pending (fst s).
Proof.
  remember (length (en_initial (fst s))) as k eqn:Hk. revert s Hk. induction k as [| k IH]; intros s Hk Hinv Hc Hnd.
  { exists s. split_and!; [done | | done..]. by destruct (en_initial (fst s)). }
  destruct (en_initial (fst s)) as [| [n d] l] eqn:Hi; [done |].
  assert (Hin : (n, d) ∈ en_initial (fst s)) by (rewrite Hi; left).
  pose proof (step_initial ds s n d (Err RuntimeError) Hin) as Hstep.
  destruct (finish_initial_spec n d (Err RuntimeError) s) as (log & errors & He & _).
  set (s1 := finish_initial n d (Err RuntimeError) s) in *.
  assert (Hrest : map snd (en_initial (fst s)) ≡ₚ d :: map snd (en_initial (fst s1))).
  { rewrite He. cbn. apply filter_one; [by rewrite Hi | done]. }
  apply Permutation_length in Hrest. cbn in Hrest. rewrite !length_map, Hi in Hrest. cbn in *.
  destruct (IH s1) as (s2 & Hrun & H1 & H2 & H3).
  - lia.
  - by eapply engine_step_inv.
  - by rewrite He.
  - rewrite He. cbn. apply filter_names. by rewrite Hi.
  - exists s2. split; [by eapply rtc_l |]. rewrite H2, H3, He. by split_and!.
Qed.

Lemma end_all_pending ds s : engine_inv s →
  ∃ s', rtc (engine_step ds) s s' ∧ en_pending (fst s') = [] ∧ en_close (fst s') = en_close (fst s) ∧
    en_initial (fst s') = en_initial (fst s).
Proof.
  remember (length (en_pending (fst s))) as k eqn:Hk. revert s Hk.
  induction (lt_wf k) as [k _ IH]. intros s -> Hinv. destruct (en_pending (fst s)) as [| [n d] l] eqn:Hp; [by exists s; split_and! |].
  pose proof (step_pending ds s n d) as Hstep. rewrite Hp in Hstep. specialize (Hstep ltac:(left)).
  destruct (IH (length (en_pending (end_pending n (fst s))))) with (s := (end_pending n (fst s), snd s))
    as (s2 & Hrun & H1 & H2 & H3).
  - cbn. rewrite Hp. cbn. rewrite Nat.eqb_refl. cbn. pose proof (List.filter_length_le (λ t : nat * schedule, negb (t.1 =? n)) l). lia.
  - done.
  - by eapply engine_step_inv.
  - exists s2. split; [by eapply rtc_l |]. by rewrite H2, H3.
Qed.

Lemma drain_shuts s : en_pending (fst s) = [] → (∀ w, wp ap_shutdown (λ r _, r = Ok tt) w) →
  ∃ w', closing (as_error SchedulerError close_drain) s = (set_close CloseEvent (fst s), w') ∧ ap_stopping w' = true.
Proof.
  intros Hp Hok. specialize (Hok (snd s)). pose proof (ap_shutdown_law (snd s)) as Hlaw. unfold wp in *.
  unfold closing, as_error, catch, close_drain, bind, read. rewrite Hp. unfold close_shutdown, bind, lib.
  destruct (ap_shutdown (snd s)) as [w' r]. subst r. exists w'. split; [done |]. by apply Hlaw.
Qed.

Lemma ended_nil tasks : ended tasks ([] : list (nat * schedule)) = true.
Proof. unfold ended. apply forallb_forall. intros t _. by rewrite bool_decide_false by by intros ?%not_elem_of_nil. Qed.
Lemma steps_inv ds s s' : rtc (engine_step ds) s s' → engine_inv s → engine_inv s'.
Proof. induction 1; eauto using engine_step_inv. Qed.

Lemma awaiting_step ds s s' : engine_inv s → en_closed (fst s) = true → ap_running (snd s) = false →
  engine_step ds s s' → load s' ≤ load s.
Proof.
  intros Hinv Hc Hr Hstep. unfold load. destruct Hstep as [s Hs | s ds' Hs | s Hs | s n d dispatched Hin | s Hs Hini | s Hs | e w w' Hm
    | e w j w' Hm | s n d Hin | s Hs | s tasks Hs He | s tasks Hs He | s Hs Hsh | s Hs]; try done.
  - by rewrite closed_start.
  - by rewrite busy_start.
  - rewrite close_again; [done | done |]. by intros Hi.
  - destruct (finish_initial_spec n d dispatched s) as (l & errors & He & _). rewrite He. cbn.
    pose proof (List.filter_length_le (λ t : nat * schedule, negb (t.1 =? n)) (en_initial (fst s))). lia.
  - destruct (ap_moves_law w (Some j) w' Hm) as (_ & _ & Hj). destruct (Hj j eq_refl). cbn in *. congruence.
  - cbn. pose proof (List.filter_length_le (λ t : nat * schedule, negb (t.1 =? n)) (en_pending (fst s))). lia.
  - by destruct (closing_begin s) as (p & w' & -> & _).
  - by destruct (closing_drain s) as (p & w' & -> & _).
  - by destruct (closing_drain s) as (p & w' & -> & _).
Qed.

(** C18: [aclose] ends: while it waits, no step adds to the dispatches in flight, and
    from every state it may reach, the remaining ones can end and [aclose]
    return, provided the library's [shutdown] does not raise. *)
Theorem engine_close_live ds s :
  engine_reachable ds s → awaiting (en_close (fst s)) = true → (∀ w, wp ap_shutdown (λ r _, r = Ok tt) w) →
  (∀ s', engine_step ds s s' → load s' ≤ load s) ∧
  ∃ s', rtc (engine_step ds) s s' ∧ en_close (fst s') = CloseDone (Ok tt).
Proof.
  intros [Hinv Hlog]%reachable_inv Ha Hok. destruct (awaiting_closed s Hinv Ha) as [Hc Hr]. split.
  - intros s' Hstep. by eapply awaiting_step.
  - destruct (end_all_initial ds s Hinv Hc) as (s1 & Hrun1 & H1 & Hc1 & Hp1); [apply Hlog |].
    assert (Hinv1 : engine_inv s1) by by eapply steps_inv. destruct (end_all_pending ds s1 Hinv1) as (s2 & Hrun2 & H2 & Hc2 & Hi2).
    assert (Hinv2 : engine_inv s2) by by eapply steps_inv.
    assert (Hev : ∃ s3, rtc (engine_step ds) s2 s3 ∧ en_close (fst s3) = CloseEvent ∧ ap_stopping (snd s3) = true).
    { destruct (drain_shuts s2 H2 Hok) as (w' & He & Hst).
      destruct (en_close (fst s)) as [| tasks | tasks | |] eqn:Hcs; try done.
      - eexists. split; [eapply rtc_once, (step_gathered ds s2 tasks); [congruence | by rewrite Hi2, H1; apply ended_nil] |].
        rewrite He. by split.
      - eexists. split; [eapply rtc_once, (step_drained ds s2 tasks); [congruence | by rewrite H2; apply ended_nil] |].
        rewrite He. by split.
      - exists s2. split; [done |]. split; [congruence |]. pose proof (inv_close _ Hinv2) as Hp. rewrite Hc2, Hc1 in Hp.
        by destruct Hp as (_ & _ & _ & ?). }
    destruct Hev as ([e3 w3] & Hrun3 & Hev & Hst). cbn in *.
    assert (Hend : ∃ s', rtc (engine_step ds) (e3, w3) s' ∧ en_close (fst s') = CloseDone (Ok tt)).
    { destruct (ap_shut_law w3 Hst) as [Hs | (w4 & Hm & Hs)].
      - eexists. split; [by apply rtc_once, (step_shut ds (e3, w3)) | done].
      - eexists. split; [eapply rtc_l; [by apply step_silent | by apply rtc_once, (step_shut ds (e3, w4))] | done]. }
    destruct Hend as (s' & Hrun4 & Hd). exists s'. split; [| done].
    etrans; [exact Hrun1 |]. etrans; [exact Hrun2 |]. by etrans.
Qed.
End Lemmas.

(** ** A concrete run *)

Record DemoAp := mk_demo_ap { da_running : bool; da_jobs : list (ApJob unit unit); da_stopping : bool; da_shut : bool }.
Definition demo_now : datetime := mk_dt 1000000 (Some 0%Z).
#[export] Instance demo_ap : ApScheduler unit unit DemoAp := {|
  ap_factory := ret tt;
  ap_add_executor := ret tt;
  ap_add_listener := ret tt;
  ap_cron_trigger c := Ok (CronTrigger c);
  ap_add_job j := modify (λ w, mk_demo_ap (da_running w) (j :: da_jobs w) (da_stopping w) (da_shut w));
  ap_start := modify (λ w, mk_demo_ap true (da_jobs w) (da_stopping w) (da_shut w));
  ap_pause := modify (λ w, mk_demo_ap false (da_jobs w) (da_stopping w) (da_shut w));
  ap_shutdown := modify (λ w, mk_demo_ap false (da_jobs w) true (da_shut w));
  ap_clock := ret demo_now;
  ap_moves w j w' :=
    match j with
    | Some j => da_running w = true ∧ j ∈ da_jobs w ∧ w' = w
    | None => w' = w ∨ da_stopping w = true ∧ w' = mk_demo_ap (da_running w) (da_jobs w) true true
    end;
  ap_running := da_running;
  ap_jobs := da_jobs;
  ap_stopping := da_stopping;
  ap_shut := da_shut;
|}.

#[export] Instance demo_ap_laws : ApLaws DemoAp.
Proof.
  split; unfold no_more; cbn.
  - intros w. by split; [| right].
  - intros w. by split; [| right].
  - intros w. by split; [| right].
  - intros w. by split; [| right].
  - intros j w. split; [done |]. intros x. by rewrite elem_of_cons, list_elem_of_singleton.
  - intros w. by split; [left |].
  - intros w. split; [by split; [| right] | done].
  - intros w. split; [by split; [| right] | done].
  - intros w [j |] w'.
    + intros (Hr & Hj & ->). split; [by split; [| right] |]. split; [done |]. by intros x [= <-].
    + intros [-> | [Hs ->]]; (split; [by split; [| right] |]); by split.
  - intros w Hs. right. eexists. split; [by right | done].
Qed.

Definition demo_plans : list (QueueJobSchedule unit unit) := [demo_heartbeat; sessions_cleanup].
Definition demo_0 : engine unit unit * DemoAp := (engine_init, mk_demo_ap false [] false false).
Definition demo_1 := starting demo_plans demo_0.
Definition demo_2 := finish_initial 0 demo_heartbeat (Err RuntimeError) demo_1.
Definition demo_3 := (set_start (StartDone (Ok tt)) (fst demo_2), snd demo_2).
(** The clean-up job is submitted, then the engine is closed while it runs. *)
Definition demo_cleanup_job : ApJob unit unit :=
  mk_ap_job sessions_cleanup (CronTrigger (mk_cron (VInt 0) (VInt 0) (VInt 0) (VStr (u "*")) (VStr (u "*")) (u "*")))
    (qs_id sessions_cleanup) true true 1 (VInt 300).
Definition demo_4 := (submit demo_cleanup_job (fst demo_3), snd demo_3).
Definition demo_5 := closing close_begin demo_4.
Definition demo_6 := (end_pending 1 (fst demo_5), snd demo_5).
Definition demo_7 := closing (as_error SchedulerError close_drain) demo_6.
Definition demo_8 := (fst demo_7, mk_demo_ap (da_running (snd demo_7)) (da_jobs (snd demo_7)) true true).
Definition demo_9 := (set_close (CloseDone (Ok tt)) (fst demo_8), snd demo_8).

Lemma submit_step (s : engine unit unit * DemoAp) j :
  ap_moves (snd s) (Some j) (snd s) → engine_step demo_plans s (submit j (fst s), snd s).
Proof. destruct s as [e w]. apply step_submit. Qed.
Lemma demo_jobs : da_running (snd demo_3) = true ∧ da_jobs (snd demo_3) !! 1 = Some demo_cleanup_job.
Proof. split; vm_compute; reflexivity. Qed.
Lemma demo_moves : ap_moves (snd demo_3) (Some demo_cleanup_job) (snd demo_3).
Proof. destruct demo_jobs as [Hr Hj]. split; [exact Hr |]. split; [by eapply list_elem_of_lookup_2 | reflexivity]. Qed.

Lemma demo_started : rtc (engine_step demo_plans) demo_0 demo_4.
Proof.
  apply rtc_l with demo_1; [by apply step_start |]. apply rtc_l with demo_2; [apply step_initial; left |].
  apply rtc_l with demo_3; [by apply (step_started demo_plans demo_2) |]. apply rtc_once.
  unfold demo_4. apply submit_step. exact demo_moves.
Qed.
Lemma demo_pending : en_pending (fst demo_5) = [(1, sessions_cleanup)].
Proof. vm_compute. reflexivity. Qed.
Lemma demo_closing : rtc (engine_step demo_plans) demo_4 demo_6.
Proof.
  apply rtc_l with demo_5; [by apply step_close |]. apply rtc_once. unfold demo_6.
  apply (step_pending demo_plans demo_5 1 sessions_cleanup). rewrite demo_pending. left.
Qed.
Lemma demo_closed : rtc (engine_step demo_plans) demo_6 demo_9.
Proof.
  apply rtc_l with demo_7; [by apply (step_drained demo_plans demo_6 [1]) |].
  apply rtc_l with demo_8; [apply (step_silent demo_plans (fst demo_7) (snd demo_7)); by right |].
  apply rtc_once. by apply (step_shut demo_plans demo_8).
Qed.
Lemma demo_reachable s : rtc (engine_step demo_plans) demo_0 s → engine_reachable demo_plans s.
Proof. intros Hs. exists (snd demo_0). by split_and!. Qed.

Lemma engine_quiet_after_close_witness :
  (en_initial (fst demo_9) = [] ∧ en_pending (fst demo_9) = [] ∧ en_log (fst demo_9) = en_log (fst demo_9)) ∧
  en_pending (fst demo_5) = [(1, sessions_cleanup)] ∧ close_begin demo_5 = (demo_5, Ok (CloseDone (Ok tt))).
Proof.
  assert (Hr5 : engine_reachable demo_plans demo_5).
  { apply demo_reachable. eapply rtc_r; [apply demo_started | by apply step_close]. }
  assert (Hr : engine_reachable demo_plans demo_9).
  { apply demo_reachable. etrans; [apply demo_started |]. etrans; [apply demo_closing | apply demo_closed]. }
  split; [destruct (engine_quiet_after_close demo_plans demo_9 Hr) as [Hq _]; apply (Hq eq_refl), rtc_refl |].
  split; [exact demo_pending |].
  destruct (engine_quiet_after_close demo_plans demo_5 Hr5) as [_ Hagain]. apply Hagain. by vm_compute.
Defined.

Lemma engine_starts_schedules_witness :
  registered (en_log (fst demo_4)) ≡ₚ demo_plans ∧ initials (en_log (fst demo_4)) = [demo_heartbeat] ∧
  ∃ between before, tail (en_log (fst demo_4)) = between ++ EvRegistered demo_cleanup_job :: before.
Proof.
  destruct (engine_starts_schedules demo_plans demo_4 (demo_reachable _ demo_started)) as [Hs Hord].
  destruct (Hs eq_refl) as (_ & _ & [Hc | Hr]); [discriminate Hc |]. split; [exact Hr |]. split; [reflexivity |].
  destruct (Hord [] demo_cleanup_job _ eq_refl) as (between & before & He & _). by exists between, before.
Defined.

Lemma engine_close_live_witness :
  load demo_5 = 1 ∧ ∃ s', rtc (engine_step demo_plans) demo_5 s' ∧ en_close (fst s') = CloseDone (Ok tt).
Proof.
  split; [reflexivity |].
  assert (Hr : engine_reachable demo_plans demo_5).
  { apply demo_reachable. eapply rtc_r; [apply demo_started | by apply step_close]. }
  apply (engine_close_live demo_plans demo_5 Hr); [reflexivity | by intros w].
Defined.
