(* ===== verification/Hosts.v ===== *)
(** * Hosts: the Scheduler and Worker processes

    Models [bootstrap/scheduler/application.py] and the life cycle of
    [bootstrap/worker/application.py] over the application runtime of
    [Runtime].  The engine, the registry, the check of a schedule's route and
    the consumption of a queue are arguments; [log_] is the effect of a log
    record, [install] and [remove] those of the signal handlers. *)

From S2P Require Import Prelude Text Errors Lazy Runtime.
Local Open Scope prog_scope.

Section Hosts.
Context {W C : Type} (rt : @runtime_ref W C) (callbacks_of : C → @container W) (container_factory : io W C).
Context (install remove : W → W).
Abbreviation start_runtime := (runtime_start rt callbacks_of container_factory).
Abbreviation close_runtime := (runtime_aclose rt callbacks_of).

(** [add_signal_handler] and [remove_signal_handler] when no stop event was given. *)
Definition signals (own_stop : bool) (f : W → W) : io W unit := when own_stop (modify f).

Section Scheduler.
Context {Schedule : Type}.

Inductive SchedulerLogEvent := STARTING | SCHEDULES_DISCOVERED (n : nat) | STARTED | START_FAILED | STOPPING | STOPPED | STOP_FAILED.

(** The protocol [SchedulerEngine]. *)
Record SchedulerEngine := mk_scheduler_engine {
  se_start : list Schedule → C → io W unit;      (* with the dispatcher of the container *)
  se_wait : io W unit;
  se_aclose : io W unit;
}.
Context (log_ : SchedulerLogEvent → W → W) (registry_builder : io W (list Schedule)) (engine_builder : io W SchedulerEngine)
  (queue_name_of : C → Schedule → io W unit).
Definition log_record (e : SchedulerLogEvent) : io W unit := modify (log_ e).

Fixpoint validate_queue_routes (c : C) (definitions : list Schedule) : io W unit :=
  match definitions with
  | [] => ret tt
  | d :: ds => queue_name_of c d;;; validate_queue_routes c ds
  end.

Definition scheduler_start (engine : SchedulerEngine) : io W unit :=
  let* c := start_runtime in
  let* definitions := registry_builder in
  validate_queue_routes c definitions;;;
  se_start engine definitions c;;;
  log_record (SCHEDULES_DISCOVERED (length definitions));;;
  log_record STARTED.

Definition scheduler_close (engine : option SchedulerEngine) : io W (list exn) :=
  log_record STOPPING;;;
  let* errors := collect_errors (option_list (se_aclose <$> engine) ++ [close_runtime]) in
  log_record (match errors with [] => STOPPED | _ => STOP_FAILED end);;;
  ret errors.

Definition raise_errors (operation : result exn unit) (close_errors : list exn) : io W unit :=
  match operation, close_errors with
  | Err e, _ :: _ => raise (ExceptionGroup (e :: close_errors))
  | Err e, [] => raise e
  | Ok _, [] => ret tt
  | Ok _, _ => raise (ExceptionGroup close_errors)
  end.

(** What [serve] runs between the two [try]s, with the engine it built. *)
Definition scheduler_operation (built : result exn SchedulerEngine) : io W unit :=
  let* engine := catch (let* engine := lift built in scheduler_start engine;;; ret engine)
    (λ e, log_record START_FAILED;;; raise e) in
  se_wait engine.

Definition scheduler_serve (own_stop : bool) : io W unit :=
  signals own_stop install;;;
  log_record STARTING;;;
  let* built := attempt engine_builder in
  let* operation := attempt (scheduler_operation built) in
  let* close_errors := scheduler_close (match built with Ok engine => Some engine | Err _ => None end) in
  signals own_stop remove;;;
  raise_errors operation close_errors.
End Scheduler.

(** *** WorkerHost *)
Section Worker.
Context {Resolver : Type}.
Inductive WorkerLogEvent := WORKER_STARTING | WORKER_STARTED | WORKER_START_FAILED | WORKER_STOPPING | WORKER_STOPPED | WORKER_STOP_FAILED.
Context (log_ : WorkerLogEvent → W → W) (resolver_builder : io W Resolver) (consume : C → Resolver → io W unit).
Definition worker_log (e : WorkerLogEvent) : io W unit := modify (log_ e).
(** [except BaseException as error: log; raise] *)
Definition logged {A} (event : WorkerLogEvent) (m : io W A) : io W A := catch m (λ e, worker_log event;;; raise e).

Definition worker_serve (own_stop : bool) : io W unit :=
  signals own_stop install;;;
  finally (
    worker_log WORKER_STARTING;;;
    finally (
      let* started := logged WORKER_START_FAILED
        (let* c := start_runtime in let* resolver := resolver_builder in ret (c, resolver)) in
      worker_log WORKER_STARTED;;;
      consume (fst started) (snd started))
      (worker_log WORKER_STOPPING;;; logged WORKER_STOP_FAILED close_runtime;;; worker_log WORKER_STOPPED))
    (signals own_stop remove).
End Worker.
End Hosts.

(** ** Properties *)

(** Closing the runtime runs every callback of its container. *)
Lemma runtime_aclose_run {W C} (rt : @runtime_ref W C) callbacks_of c (w : W) : rt_get C rt w = Some c →
  runtime_aclose rt callbacks_of w =
    let '(w', es) := run_all (reverse (async_shutdown_callbacks (callbacks_of c)) ++ reverse (shutdown_callbacks (callbacks_of c)))
      (rt_set C rt None w) in (w', group_result es).
Proof. intros Hc. unfold runtime_aclose, bind, read, modify. rewrite Hc. apply container_aclose_run. Qed.

(** [reports r e]: the exception that left tells of [e]. *)
Definition reports (r : result exn unit) (e : exn) : Prop :=
  r = Err e ∨ ∃ es, r = Err (ExceptionGroup es) ∧ e ∈ es.

Section Properties.
Context {W C Schedule : Type} (rt : @runtime_ref W C) (callbacks_of : C → @container W) (container_factory : io W C).
Context (install remove : W → W) (log_ : SchedulerLogEvent → W → W) (registry_builder : io W (list Schedule))
  (engine_builder : io W (@SchedulerEngine W C Schedule)) (queue_name_of : C → Schedule → io W unit).

Lemma raise_errors_run op errors (w : W) :
  raise_errors op errors w = (w, match op, errors with
    | Err e, _ :: _ => Err (ExceptionGroup (e :: errors)) | Err e, [] => Err e
    | Ok _, [] => Ok tt | Ok _, _ => Err (ExceptionGroup errors) end).
Proof. by destruct op, errors. Qed.

(** The Scheduler stops in the order of ownership and hides nothing: whatever
    happened before, [serve] closes the engine it built before it runs the
    shutdown callbacks of the container, which all run even when the engine
    failed to close; it returns normally exactly when nothing failed, and
    otherwise the exception that leaves reports the failure of the operation and
    every failure of the shutdown. *)
Theorem scheduler_host_shutdown (own_stop : bool) engine (w w0 w1 w2 : W) (op r2 : result exn unit) c :
  let w' := log_ STARTING (if own_stop then install w else w) in
  engine_builder w' = (w0, Ok engine) →
  scheduler_operation rt callbacks_of container_factory log_ registry_builder queue_name_of (Ok engine) w0 = (w1, op) →
  se_aclose engine (log_ STOPPING w1) = (w2, r2) → rt_get C rt w2 = Some c →
  let '(w3, es) := run_all (reverse (async_shutdown_callbacks (callbacks_of c)) ++ reverse (shutdown_callbacks (callbacks_of c)))
    (rt_set C rt None w2) in
  ∃ (w4 : W) (r : result exn unit), scheduler_serve rt callbacks_of container_factory install remove log_ registry_builder engine_builder queue_name_of
    own_stop w = (w4, r) ∧
    w4 = (let w5 := log_ (match r2, es with Ok _, [] => STOPPED | _, _ => STOP_FAILED end) w3 in if own_stop then remove w5 else w5) ∧
    (r = Ok tt ↔ op = Ok tt ∧ r2 = Ok tt ∧ es = []) ∧
    (∀ e, op = Err e ∨ r2 = Err e → reports r e) ∧ (es ≠ [] → reports r (ExceptionGroup es)).
Proof.
  intros w' Hb Ho Hc Hg. destruct (run_all _ _) as [w3 es] eqn:Hrun.
  assert (Hclose : scheduler_close rt callbacks_of log_ (Some engine) w1 =
    (log_ (match r2, es with Ok _, [] => STOPPED | _, _ => STOP_FAILED end) w3,
     Ok (option_list (result_err r2) ++ option_list (result_err (group_result es))))).
  { unfold scheduler_close, log_record. unfold bind at 1. change (modify (log_ STOPPING) w1) with (log_ STOPPING w1, Ok (E := exn) tt).
    cbn iota beta. unfold bind at 1. rewrite collect_errors_run. change (option_list (se_aclose <$> Some engine)) with [se_aclose engine].
    cbn [app run_all]. rewrite Hc. rewrite (runtime_aclose_run _ _ c) by done. rewrite Hrun.
    destruct r2, es; done. }
  unfold scheduler_serve. unfold bind at 1, signals at 1.
  assert (Hin : when own_stop (modify (E := exn) install) w = (if own_stop then install w else w, Ok tt)) by by destruct own_stop.
  rewrite Hin. unfold log_record, bind at 1, modify at 1. fold w'. unfold bind at 1, attempt at 1. rewrite Hb.
  unfold bind at 1, attempt at 1. rewrite Ho. unfold bind at 1. rewrite Hclose. unfold bind, signals.
  assert (Hout : ∀ w5, when own_stop (modify (E := exn) remove) w5 = (if own_stop then remove w5 else w5, Ok tt)) by by destruct own_stop.
  rewrite Hout. eexists _, _. split; [by apply raise_errors_run |]. split; [done |].
  destruct op as [[] | e], r2 as [[] | e2], es as [| x es]; cbn; unfold reports; split_and!; naive_solver set_solver.
Qed.

(** The Worker's container is closed whatever happened, and its handlers removed. *)
Section Worker.
Context {Resolver : Type} (wlog : WorkerLogEvent → W → W) (resolver_builder : io W Resolver) (consume : C → Resolver → io W unit).

(** The Worker closes its container whatever consumption ended in, and when the
    closing succeeds, the outcome of the consumption is the outcome of the
    process; a failed closing is the outcome instead. *)
Theorem worker_host_shutdown (own_stop : bool) (w w1 w2 w3 : W) c (r : result exn unit) started :
  runtime_start rt callbacks_of container_factory (wlog WORKER_STARTING (if own_stop then install w else w)) = (w1, Ok c) →
  resolver_builder w1 = (w2, Ok started) →
  consume c started (wlog WORKER_STARTED w2) = (w3, r) → rt_get C rt (wlog WORKER_STOPPING w3) = Some c →
  let '(w4, es) := run_all (reverse (async_shutdown_callbacks (callbacks_of c)) ++ reverse (shutdown_callbacks (callbacks_of c)))
    (rt_set C rt None (wlog WORKER_STOPPING w3)) in
  let w5 := wlog (match es with [] => WORKER_STOPPED | _ => WORKER_STOP_FAILED end) w4 in
  worker_serve rt callbacks_of container_factory install remove wlog resolver_builder consume own_stop w =
    (if own_stop then remove w5 else w5, match es with [] => r | _ => Err (ExceptionGroup es) end).
Proof.
  intros Hs Hr Hc Hg. destruct (run_all _ _) as [w4 es] eqn:Hrun. pose proof (runtime_aclose_run rt callbacks_of c _ Hg) as Hclose.
  rewrite Hrun in Hclose. unfold worker_serve, signals, logged, worker_log, when.
  destruct own_stop; unprog; rewrite Hs, Hr; cbn [fst snd]; rewrite Hc, Hclose; destruct r, es; done.
Qed.
End Worker.
End Properties.

(** ** Concrete runs: the numbers say what ran *)
Definition host_container (_ : bool) : @container DemoWorld :=
  {| startup_callbacks := [log_step 1 (Ok tt)]; async_shutdown_callbacks := [log_step 30 (Ok tt); log_step 31 (Err ValueError)];
     shutdown_callbacks := [] |}.
Definition host_engine : @SchedulerEngine DemoWorld bool nat :=
  mk_scheduler_engine (λ ds _, log_step (10 + length ds) (Ok tt)) (log_step 15 (Err CancelledError)) (log_step 20 (Err SchedulerError)).
Definition host_signal (n : nat) (w : DemoWorld) : DemoWorld := (w.1, w.2 ++ [n]).
Definition host_serve : io DemoWorld unit :=
  scheduler_serve demo_runtime host_container (ret true) (host_signal 0) (host_signal 99) (λ _ w, w) (ret [7; 8]) (ret host_engine)
    (λ _ _, ret tt) true.

(** The engine closes (20) before the container (31, 30); all three failures are reported. *)
Lemma scheduler_host_shutdown_witness :
  host_serve (None, []) = ((None, [0; 1; 12; 15; 20; 31; 30; 99]),
    Err (ExceptionGroup [CancelledError; SchedulerError; ExceptionGroup [ValueError]])) ∧
  ∃ w4 r, host_serve (None, []) = (w4, r) ∧ reports r SchedulerError ∧ reports r (ExceptionGroup [ValueError]).
Proof.
  split; [by vm_compute |].
  destruct (scheduler_host_shutdown demo_runtime host_container (ret true) (host_signal 0) (host_signal 99) (λ _ w, w) (ret [7; 8])
    (ret host_engine) (λ _ _, ret tt) true host_engine (None, []) (None, [0]) (Some true, [0; 1; 12; 15])
    (Some true, [0; 1; 12; 15; 20]) (Err CancelledError) (Err SchedulerError) true eq_refl eq_refl eq_refl eq_refl)
    as (w4 & r & Hs & _ & _ & He & Hes).
  exists w4, r. split; [exact Hs |]. split; [apply He; by right | by apply Hes].
Defined.

Lemma worker_host_shutdown_witness :
  worker_serve demo_runtime host_container (ret true) (host_signal 0) (host_signal 99) (λ _ w, w) (log_step 2 (Ok tt))
    (λ _ _, log_step 3 (Err QueueError)) true (None, []) =
  ((None, [0; 1; 2; 3; 31; 30; 99]), Err (ExceptionGroup [ValueError])).
Proof.
  apply (worker_host_shutdown demo_runtime host_container (ret true) (host_signal 0) (host_signal 99) (λ _ w, w) (log_step 2 (Ok tt))
    (λ _ _, log_step 3 (Err QueueError)) true (None, []) (Some true, [0; 1]) (Some true, [0; 1; 2]) (Some true, [0; 1; 2; 3]) true
    (Err QueueError) tt); reflexivity.
Defined.
