(* ===== verification/Kafka.v ===== *)
(** * Kafka: the Kafka consumer as a state machine

    Models [infrastructure/queue/drivers/kafka.py]: [KafkaDelivery],
    [RebalanceListener] and [KafkaConsumer].  The steps of [kafka_step] are the
    code between two awaits; rebalances, other group members and failing
    commits come from the environment.  The client library is the class
    [KafkaClient]: the relations say which outcomes a call may have, and
    [KafkaLaws] what the driver relies on (manual commits, eager rebalancing,
    a paused partition delivers nothing).  [ks_done] records the messages whose
    acknowledgement was begun, i.e. whose execution is over.  The producer and
    the client options are not modelled. *)

From S2P Require Import Prelude Text PyVal Errors Decimal.
Local Open Scope prog_scope.

(** [TopicPartition(topic, partition)] *)
Abbreviation partition := (pystr * Z)%type.

Record KafkaDelivery := mk_kdelivery {
  kd_partition : partition;
  kd_offset : Z;
  kd_payload : pybytes;
  kd_generation : nat;
  kd_possibly_redelivered : bool;
  kd_owner : nat;                       (* the task that received it *)
  kd_settled : bool;
}.
(** [f"{topic}:{partition}:{offset}"] *)
Definition kd_identity (d : KafkaDelivery) : pystr :=
  fst (kd_partition d) ++ u ":" ++ str_int (snd (kd_partition d)) ++ u ":" ++ str_int (kd_offset d).
Definition settle (d : KafkaDelivery) : KafkaDelivery :=
  mk_kdelivery (kd_partition d) (kd_offset d) (kd_payload d) (kd_generation d) (kd_possibly_redelivered d) (kd_owner d) true.

(** A record of [getone]: the value may be absent. *)
Record ConsumerRecord := mk_record { cr_partition : partition; cr_offset : Z; cr_value : option pybytes }.

Class KafkaClient (W : Type) := {
  kc_getone : W → ConsumerRecord → W → Prop;                    (* a call of getone returned *)
  kc_commit : partition → Z → W → result exn unit → W → Prop;   (* a call of commit ended *)
  kc_pause : partition → W → W;
  kc_resume : partition → W → W;
  kc_revoke : list partition → W → W → Prop;                    (* the client is about to give partitions up *)
  kc_assign : list partition → W → W → Prop;                    (* it was assigned partitions *)
  kc_others : W → W → Prop;                                     (* other members, time *)
  kc_record : partition → Z → Prop;                             (* the log has a record at the offset *)
  kc_position : W → partition → option Z;                       (* the next offset to fetch, if assigned *)
  kc_committed : W → partition → Z;
  kc_paused : W → gset partition;
}.

Record KafkaConsumer := mk_kconsumer {
  ks_pending : gmap partition nat;                (* by number of the delivery object *)
  ks_trusted : gset partition;
  ks_generation : nat;
  ks_closed : bool;
  ks_deliveries : gmap nat KafkaDelivery;         (* every delivery object made *)
  ks_receiving : option nat;                      (* the task inside [receive], which holds the lock *)
  ks_committing : gset nat;                       (* deliveries whose [acknowledge] awaits the commit *)
  ks_cancelled : gset nat;                        (* tasks whose cancellation was requested *)
  ks_done : gset (partition * Z);
}.
Definition kafka_init : KafkaConsumer := mk_kconsumer ∅ ∅ 0 false ∅ None ∅ ∅ ∅.

Definition set_receiving (t : option nat) (k : KafkaConsumer) : KafkaConsumer :=
  mk_kconsumer (ks_pending k) (ks_trusted k) (ks_generation k) (ks_closed k) (ks_deliveries k) t (ks_committing k) (ks_cancelled k) (ks_done k).

(** [receive], after [getone]: the new delivery or the exception. *)
Definition new_delivery (k : KafkaConsumer) (task : nat) (r : ConsumerRecord) : KafkaDelivery :=
  mk_kdelivery (cr_partition r) (cr_offset r) (default [] (cr_value r)) (ks_generation k)
    (negb (bool_decide (cr_partition r ∈ ks_trusted k))) task false.
Definition add_delivery (n : nat) (d : KafkaDelivery) (k : KafkaConsumer) : KafkaConsumer :=
  mk_kconsumer (<[kd_partition d := n]> (ks_pending k)) (ks_trusted k) (ks_generation k) (ks_closed k)
    (<[n := d]> (ks_deliveries k)) None (ks_committing k) (ks_cancelled k) (ks_done k).
Definition received `{KafkaClient W} (n task : nat) (r : ConsumerRecord) (s : KafkaConsumer * W)
    : (KafkaConsumer * W) * result exn KafkaDelivery :=
  let '(k, w) := s in
  if bool_decide (is_Some (ks_pending k !! cr_partition r)) then ((set_receiving None k, w), Err DeliveryLostError)
  else
    let d := new_delivery k task r in
    ((add_delivery n d k, kc_pause (cr_partition r) w), Ok d).

(** [acknowledge] up to the commit, and after it. *)
Definition acknowledgeable (k : KafkaConsumer) (d : KafkaDelivery) : bool :=
  negb (kd_settled d || ks_closed k || negb (kd_generation d =? ks_generation k)).
Definition commit_begun (n : nat) (d : KafkaDelivery) (k : KafkaConsumer) : KafkaConsumer :=
  mk_kconsumer (ks_pending k) (ks_trusted k) (ks_generation k) (ks_closed k) (ks_deliveries k) (ks_receiving k)
    ({[n]} ∪ ks_committing k) (ks_cancelled k) ({[(kd_partition d, kd_offset d)]} ∪ ks_done k).
Definition commit_ended (n : nat) (k : KafkaConsumer) : KafkaConsumer :=
  mk_kconsumer (ks_pending k) (ks_trusted k) (ks_generation k) (ks_closed k) (ks_deliveries k) (ks_receiving k)
    (ks_committing k ∖ {[n]}) (ks_cancelled k) (ks_done k).
Definition settled (n : nat) (d : KafkaDelivery) (k : KafkaConsumer) : KafkaConsumer :=
  mk_kconsumer (delete (kd_partition d) (ks_pending k)) ({[kd_partition d]} ∪ ks_trusted k) (ks_generation k) (ks_closed k)
    (<[n := settle d]> (ks_deliveries k)) (ks_receiving k) (ks_committing k ∖ {[n]}) (ks_cancelled k) (ks_done k).
Definition committed_ `{KafkaClient W} (n : nat) (d : KafkaDelivery) (r : result exn unit) (s : KafkaConsumer * W)
    : (KafkaConsumer * W) * result exn unit :=
  let '(k, w) := s in
  match r with
  | Err e => ((commit_ended n k, w), Err e)
  | Ok _ =>
      if negb (kd_generation d =? ks_generation k) then ((commit_ended n k, w), Err DeliveryLostError)
      else ((settled n d k, kc_resume (kd_partition d) w), Ok tt)
  end.

(** [on_partitions_revoked] *)
Definition pending_owners (k : KafkaConsumer) : gset nat :=
  list_to_set (omap (λ n, kd_owner <$> ks_deliveries k !! n) (map snd (map_to_list (ks_pending k)))).
Definition revoked (l : list partition) (k : KafkaConsumer) : KafkaConsumer :=
  mk_kconsumer ∅ (ks_trusted k ∖ list_to_set l) (S (ks_generation k)) (ks_closed k) (ks_deliveries k) (ks_receiving k)
    (ks_committing k) (pending_owners k ∪ ks_cancelled k) (ks_done k).
(** [on_partitions_assigned] *)
Definition assigned `{KafkaClient W} (l : list partition) (s : KafkaConsumer * W) : KafkaConsumer * W :=
  let '(k, w) := s in
  (mk_kconsumer (ks_pending k) (ks_trusted k ∖ list_to_set l) (ks_generation k) (ks_closed k) (ks_deliveries k) (ks_receiving k)
     (ks_committing k) (ks_cancelled k) (ks_done k), foldl (λ w p, kc_resume p w) w l).
(** [aclose] *)
Definition kafka_closed (k : KafkaConsumer) : KafkaConsumer :=
  mk_kconsumer (ks_pending k) (ks_trusted k) (ks_generation k) true (ks_deliveries k) (ks_receiving k) (ks_committing k) (ks_cancelled k) (ks_done k).
(** What other members executed meanwhile. *)
Definition others_done (l : gset (partition * Z)) (k : KafkaConsumer) : KafkaConsumer :=
  mk_kconsumer (ks_pending k) (ks_trusted k) (ks_generation k) (ks_closed k) (ks_deliveries k) (ks_receiving k) (ks_committing k)
    (ks_cancelled k) (l ∪ ks_done k).

Section Steps.
Context {W : Type} `{KafkaClient W}.

(** Everything below the committed offset was executed. *)
Definition executed_below (done : gset (partition * Z)) (p : partition) (n : Z) : Prop :=
  ∀ o, kc_record p o → (o < n)%Z → (p, o) ∈ done.

Inductive kafka_step : KafkaConsumer * W → KafkaConsumer * W → Prop :=
| step_receive k w t : ks_receiving k = None → ks_closed k = false → kafka_step (k, w) (set_receiving (Some t) k, w)
| step_received k w t r w' n : ks_receiving k = Some t → kc_getone w r w' → ks_deliveries k !! n = None →
    kafka_step (k, w) (fst (received n t r (k, w')))
| step_receive_ended k w t : ks_receiving k = Some t → kafka_step (k, w) (set_receiving None k, w)    (* error or cancellation *)
| step_acknowledge k w n d : ks_deliveries k !! n = Some d → acknowledgeable k d = true → n ∉ ks_committing k →
    kafka_step (k, w) (commit_begun n d k, w)
| step_committed k w n d r w' : n ∈ ks_committing k → ks_deliveries k !! n = Some d →
    kc_commit (kd_partition d) (kd_offset d + 1) w r w' → kafka_step (k, w) (fst (committed_ n d r (k, w')))
| step_commit_cancelled k w n d r w' : n ∈ ks_committing k → ks_deliveries k !! n = Some d →
    kc_commit (kd_partition d) (kd_offset d + 1) w r w' → kafka_step (k, w) (commit_ended n k, w')
| step_revoked k w l w' : kc_revoke l w w' → kafka_step (k, w) (revoked l k, w')
| step_assigned k w l w' : kc_assign l w w' → kafka_step (k, w) (assigned l (k, w'))
| step_close k w : kafka_step (k, w) (kafka_closed k, w)
(** Other members follow the same protocol on their partitions. *)
| step_others k w l w' : kc_others w w' →
    (∀ p, kc_committed w' p ≠ kc_committed w p → executed_below (l ∪ ks_done k) p (kc_committed w' p)) →
    kafka_step (k, w) (others_done l k, w').

Class KafkaLaws : Prop := {
  kc_getone_law w r w' : kc_getone w r w' → ∃ p,
    kc_position w (cr_partition r) = Some p ∧ (p ≤ cr_offset r)%Z ∧ cr_partition r ∉ kc_paused w ∧
    kc_record (cr_partition r) (cr_offset r) ∧ (∀ o, kc_record (cr_partition r) o → (p ≤ o < cr_offset r)%Z → False) ∧
    (∀ q, kc_position w' q = if decide (q = cr_partition r) then Some (cr_offset r + 1)%Z else kc_position w q) ∧
    (∀ q, kc_committed w' q = kc_committed w q) ∧ kc_paused w' = kc_paused w;
  kc_commit_law p n w r w' : kc_commit p n w r w' →
    (∀ q, kc_position w' q = kc_position w q) ∧ kc_paused w' = kc_paused w ∧
    (∀ q, kc_committed w' q = kc_committed w q ∨ q = p ∧ kc_committed w' q = n);
  kc_pause_law p w : (∀ q, kc_position (kc_pause p w) q = kc_position w q) ∧ kc_paused (kc_pause p w) = {[p]} ∪ kc_paused w ∧
    ∀ q, kc_committed (kc_pause p w) q = kc_committed w q;
  kc_resume_law p w : (∀ q, kc_position (kc_resume p w) q = kc_position w q) ∧ kc_paused (kc_resume p w) = kc_paused w ∖ {[p]} ∧
    ∀ q, kc_committed (kc_resume p w) q = kc_committed w q;
  (** Eager rebalancing: all partitions are given up, then assigned anew from the committed offsets. *)
  kc_revoke_law l w w' : kc_revoke l w w' → (∀ q, kc_position w' q = None) ∧ ∀ q, kc_committed w' q = kc_committed w q;
  kc_assign_law l w w' : kc_assign l w w' → (∀ q, kc_position w q = None) ∧
    (∀ q, kc_position w' q = if decide (q ∈ l) then Some (kc_committed w q) else None) ∧ ∀ q, kc_committed w' q = kc_committed w q;
  kc_others_law w w' : kc_others w w' → (∀ q, kc_position w' q = kc_position w q) ∧ kc_paused w' = kc_paused w;
}.
End Steps.
Arguments KafkaLaws W {H}.

(** ** The invariant *)

Section Invariant.
Context {W : Type} `{KL : !KafkaClient W, !KafkaLaws W}.
Implicit Types (k : KafkaConsumer) (w : W) (p q : partition) (o : Z).

Definition live k d : Prop := kd_settled d = false ∧ kd_generation d = ks_generation k.

Record kafka_inv (s : KafkaConsumer * W) : Prop := {
  ki_committed p : executed_below (ks_done (fst s)) p (kc_committed (snd s) p);
  ki_below n d : ks_deliveries (fst s) !! n = Some d → executed_below (ks_done (fst s)) (kd_partition d) (kd_offset d);
  ki_position p x : kc_position (snd s) p = Some x → ∀ o, kc_record p o → (o < x)%Z → (p, o) ∈ ks_done (fst s) ∨
    ∃ n d, ks_pending (fst s) !! p = Some n ∧ ks_deliveries (fst s) !! n = Some d ∧ kd_offset d = o;
  ki_pending p n : ks_pending (fst s) !! p = Some n → p ∈ kc_paused (snd s) ∧ is_Some (kc_position (snd s) p) ∧
    ∃ d, ks_deliveries (fst s) !! n = Some d ∧ kd_partition d = p ∧ live (fst s) d;
  ki_live n d : ks_deliveries (fst s) !! n = Some d → live (fst s) d → ks_pending (fst s) !! kd_partition d = Some n;
  ki_committing n d : n ∈ ks_committing (fst s) → ks_deliveries (fst s) !! n = Some d →
    kd_settled d = false ∧ (kd_partition d, kd_offset d) ∈ ks_done (fst s);
  ki_known n : n ∈ ks_committing (fst s) → is_Some (ks_deliveries (fst s) !! n);
  ki_generation n d : ks_deliveries (fst s) !! n = Some d → kd_generation d ≤ ks_generation (fst s);
  ki_settled n d : ks_deliveries (fst s) !! n = Some d → kd_settled d = true → (kd_partition d, kd_offset d) ∈ ks_done (fst s);
}.

Lemma executed_mono (l l' : gset (partition * Z)) p x : executed_below l p x → l ⊆ l' → executed_below l' p x.
Proof. intros He Hl o Hr Ho. by apply Hl, He. Qed.
Lemma executed_snoc (l : gset (partition * Z)) p x : executed_below l p x → (p, x) ∈ l → executed_below l p (x + 1).
Proof. intros He Hx o Hr Ho. destruct (decide (o = x)) as [-> | ?]; [done |]. apply He; [done | lia]. Qed.

(** Getting a record of a partition that has none pending. *)
Lemma received_inv k w t r w' n : kafka_inv (k, w) → kc_getone w r w' → ks_deliveries k !! n = None →
  kafka_inv (fst (received n t r (k, w'))).
Proof.
  intros [Hcom Hbel Hpos Hpen Hliv Hcmt Hkn Hgen Hset] Hget Hn. cbn [fst snd] in *.
  destruct (kc_getone_law w r w' Hget) as (x & Hx & Hle & Hpau & Hrec & Hgap & Hpos' & Hcom' & Hpau').
  assert (Hnone : ks_pending k !! cr_partition r = None).
  { destruct (ks_pending k !! cr_partition r) as [m |] eqn:Hm; [| done]. by destruct (Hpen _ _ Hm). }
  unfold received. rewrite Hnone, bool_decide_false by by intros []. cbn [fst].
  destruct (kc_pause_law (cr_partition r) w') as (Hp1 & Hp2 & Hp3).
  assert (Hexe : executed_below (ks_done k) (cr_partition r) (cr_offset r)).
  { intros o Ho Hlt. destruct (decide (o < x)%Z) as [Hox | Hox]; [| by destruct (Hgap o Ho ltac:(lia))].
    destruct (Hpos _ _ Hx o Ho Hox) as [? | (m & d & Hm & _)]; [done | congruence]. }
  assert (Hfresh : ∀ m d, ks_deliveries k !! m = Some d → m ≠ n) by (intros m d Hm ->; congruence).
  split; cbn.
  - intros p. rewrite Hp3, Hcom'. apply Hcom.
  - intros m d. rewrite lookup_insert_Some. intros [[<- <-] | [_ Hm]]; [done | by eapply Hbel].
  - intros p y. rewrite Hp1, Hpos'. case_decide as Hp; [subst p; intros [= <-] | intros Hy].
    + intros o Ho Hlt. destruct (decide (o = cr_offset r)) as [-> | Hne]; [right | left; apply Hexe; [done | lia]].
      exists n, (new_delivery k t r). by rewrite !lookup_insert_eq.
    + intros o Ho Hlt. destruct (Hpos p y Hy o Ho Hlt) as [? | (m & d & Hm & Hd & Hoff)]; [by left | right].
      exists m, d. rewrite lookup_insert_ne by congruence. rewrite lookup_insert_ne by (symmetry; by eapply Hfresh). done.
  - intros p m. rewrite Hp1, Hp2, Hpos', Hpau', lookup_insert_Some. intros [[<- <-] | [Hne Hm]].
    + split_and!; [set_solver | by rewrite decide_True |]. exists (new_delivery k t r). by rewrite lookup_insert_eq.
    + destruct (Hpen p m Hm) as (H1 & H2 & d & Hd & Hdp & Hl). split_and!; [set_solver | case_decide; [by eexists | done] |].
      exists d. rewrite lookup_insert_ne by (symmetry; by eapply Hfresh). done.
  - intros m d. rewrite lookup_insert_Some. intros [[<- <-] | [_ Hm]] Hl; [by rewrite lookup_insert_eq |].
    pose proof (Hliv m d Hm Hl) as Hp. rewrite lookup_insert_ne by congruence. done.
  - intros m d Hm. rewrite lookup_insert_Some. intros [[<- <-] | [_ Hd]]; [| by eapply Hcmt].
    destruct (Hkn n Hm) as [d Hd]. congruence.
  - intros m Hm. destruct (Hkn m Hm) as [d Hd]. rewrite lookup_insert_ne by (symmetry; by eapply Hfresh). by eexists.
  - intros m d. rewrite lookup_insert_Some. intros [[<- <-] | [_ Hm]]; [done | by eapply Hgen].
  - intros m d. rewrite lookup_insert_Some. intros [[<- <-] | [_ Hm]]; [done | by eapply Hset].
Qed.

(** The world after a commit whose delivery was executed. *)
Lemma commit_world k w n d r w' : kafka_inv (k, w) → n ∈ ks_committing k → ks_deliveries k !! n = Some d →
  kc_commit (kd_partition d) (kd_offset d + 1) w r w' → kafka_inv (k, w').
Proof.
  intros [Hcom Hbel Hpos Hpen Hliv Hcmt Hkn Hgen Hset] Hn Hd Hc. cbn [fst snd] in *.
  destruct (kc_commit_law _ _ _ _ _ Hc) as (Hp1 & Hp2 & Hp3). split; cbn; try done.
  - intros p. destruct (Hp3 p) as [-> | [-> ->]]; [apply Hcom |]. apply executed_snoc; [by eapply Hbel | by eapply Hcmt].
  - intros p x. rewrite Hp1. apply Hpos.
  - intros p m Hm. rewrite Hp1, Hp2. by apply Hpen.
Qed.

Lemma commit_ended_inv k w n : kafka_inv (k, w) → kafka_inv (commit_ended n k, w).
Proof. intros [Hcom Hbel Hpos Hpen Hliv Hcmt Hkn Hgen Hset]. split; cbn in *; try done; set_solver. Qed.

Lemma settled_inv k w n d : kafka_inv (k, w) → n ∈ ks_committing k → ks_deliveries k !! n = Some d →
  kd_generation d = ks_generation k → kafka_inv (settled n d k, kc_resume (kd_partition d) w).
Proof.
  intros [Hcom Hbel Hpos Hpen Hliv Hcmt Hkn Hgen Hset] Hn Hd Hg. cbn [fst snd] in *.
  destruct (Hcmt n d Hn Hd) as [Hs Hdone]. pose proof (Hliv n d Hd (conj Hs Hg)) as Hown.
  destruct (kc_resume_law (kd_partition d) w) as (Hp1 & Hp2 & Hp3).
  assert (Hother : ∀ p m, ks_pending k !! p = Some m → p ≠ kd_partition d → m ≠ n).
  { intros p m Hm Hp ->. destruct (Hpen p n Hm) as (_ & _ & d' & Hd' & Hdp & _). congruence. }
  split; cbn.
  - intros p. rewrite Hp3. apply Hcom.
  - intros m d'. rewrite lookup_insert_Some. intros [[<- <-] | [_ Hm]]; [by eapply (Hbel n d) | by eapply Hbel].
  - intros p x. rewrite Hp1. intros Hx o Ho Hlt. destruct (Hpos p x Hx o Ho Hlt) as [? | (m & d' & Hm & Hd' & Hoff)]; [by left |].
    destruct (decide (p = kd_partition d)) as [-> | Hp].
    + left. assert (m = n) as -> by congruence. assert (d' = d) as -> by congruence. by rewrite <- Hoff.
    + right. exists m, d'. rewrite lookup_delete_ne by congruence. rewrite lookup_insert_ne by (symmetry; by eapply Hother). done.
  - intros p m. rewrite lookup_delete_Some. intros [Hp Hm]. destruct (Hpen p m Hm) as (H1 & H2 & d' & Hd' & Hdp & Hl).
    rewrite Hp1, Hp2. split_and!; [set_solver | done |]. exists d'. rewrite lookup_insert_ne by (symmetry; by eapply Hother). done.
  - intros m d'. rewrite lookup_insert_Some. intros [[<- <-] | [Hne Hm]] Hl; [by destruct Hl |].
    pose proof (Hliv m d' Hm Hl) as Hp. rewrite lookup_delete_ne; [done |]. intros He. rewrite <- He in Hp. congruence.
  - intros m d' Hm. rewrite lookup_insert_Some. intros [[<- <-] | [_ Hd']]; [set_solver | apply Hcmt with m; [set_solver | done]].
  - intros m Hm. destruct (decide (m = n)) as [-> | ?]; [set_solver |]. rewrite lookup_insert_ne by done. apply Hkn. set_solver.
  - intros m d'. rewrite lookup_insert_Some. intros [[<- <-] | [_ Hm]]; [by rewrite <- Hg | by eapply Hgen].
  - intros m d'. rewrite lookup_insert_Some. intros [[<- <-] | [_ Hm]]; [done | by eapply Hset].
Qed.

Lemma resume_all (l : list partition) w : let w' := foldl (λ w p, kc_resume p w) w l in
  (∀ q, kc_position w' q = kc_position w q) ∧ (∀ q, kc_committed w' q = kc_committed w q).
Proof.
  revert w. induction l as [| p l IH]; intros w; [done |]. cbn. destruct (IH (kc_resume p w)) as (H1 & H2).
  destruct (kc_resume_law p w) as (Hp1 & _ & Hp3). split; intros q; rewrite ?H1, ?H2; auto.
Qed.

Lemma kafka_step_inv s s' : kafka_inv s → kafka_step s s' → kafka_inv s'.
Proof.
  intros Hinv Hstep. destruct Hstep as [k w t | k w t r w' n | k w t | k w n d Hd Ha Hn | k w n d r w' Hn Hd Hc
    | k w n d r w' Hn Hd Hc | k w l w' Hr | k w l w' Ha | k w | k w l w' Ho Hex].
  - by destruct Hinv.
  - by eapply received_inv.
  - by destruct Hinv.
  - unfold acknowledgeable in Ha. to_prop. destruct (kd_settled d) eqn:Hs; [done |].
    destruct Hinv as [Hcom Hbel Hpos Hpen Hliv Hcmt Hkn Hgen Hset]. cbn [fst snd] in *.
    split; cbn; try done.
    + intros p. eapply executed_mono; [apply Hcom | set_solver].
    + intros m d' Hm. eapply executed_mono; [by eapply Hbel | set_solver].
    + intros p x Hx o Hrec Hlt. destruct (Hpos p x Hx o Hrec Hlt) as [? | ?]; [left; set_solver | by right].
    + intros m d' Hm Hd'. destruct (decide (m = n)) as [-> | ?]; [| destruct (Hcmt m d') as [? ?]; [set_solver | done | split; [done | set_solver]]].
      assert (d' = d) as -> by congruence. split; [done | set_solver].
    + intros m Hm. destruct (decide (m = n)) as [-> | ?]; [by eexists | apply Hkn; set_solver].
    + intros m d' Hm Hs'. specialize (Hset m d' Hm Hs'). set_solver.
  - pose proof (commit_world _ _ _ _ _ _ Hinv Hn Hd Hc) as Hinv'. unfold committed_. destruct r as [[] | e]; [| by apply commit_ended_inv].
    destruct (kd_generation d =? ks_generation k) eqn:Hg; cbn [negb fst]; [| by apply commit_ended_inv].
    apply settled_inv; [done.. | by apply Nat.eqb_eq].
  - apply commit_ended_inv. by eapply commit_world.
  - destruct Hinv as [Hcom Hbel Hpos Hpen Hliv Hcmt Hkn Hgen Hset]. cbn [fst snd] in *.
    destruct (kc_revoke_law _ _ _ Hr) as [H1 H2]. split; cbn; try done.
    + intros p. rewrite H2. apply Hcom.
    + intros p x. by rewrite H1.
    + intros n d Hd [_ Hg]. specialize (Hgen n d Hd). cbn in Hg. lia.
    + intros n d Hd. specialize (Hgen n d Hd). lia.
  - destruct Hinv as [Hcom Hbel Hpos Hpen Hliv Hcmt Hkn Hgen Hset]. cbn [fst snd] in *.
    destruct (kc_assign_law _ _ _ Ha) as (H1 & H2 & H3). destruct (resume_all l w') as [Hp Hq].
    assert (Hno : ∀ p, ks_pending k !! p = None).
    { intros p. destruct (ks_pending k !! p) as [n |] eqn:Hn; [| done]. destruct (Hpen p n Hn) as (_ & [x Hx] & _).
      by rewrite H1 in Hx. }
    split; cbn; try done.
    + intros p. rewrite Hq, H3. apply Hcom.
    + intros p x. rewrite Hp, H2. case_decide; [intros [= <-] | done]. intros o Hrec Hlt. left. by apply (Hcom p).
    + intros p n. by rewrite Hno.
  - by destruct Hinv.
  - destruct Hinv as [Hcom Hbel Hpos Hpen Hliv Hcmt Hkn Hgen Hset]. cbn [fst snd] in *.
    destruct (kc_others_law _ _ Ho) as [H1 H2]. split; cbn; try done.
    + intros p. destruct (decide (kc_committed w' p = kc_committed w p)) as [He | He]; [| by apply Hex].
      rewrite He. eapply executed_mono; [apply Hcom | set_solver].
    + intros n d Hd. eapply executed_mono; [by eapply Hbel | set_solver].
    + intros p x. rewrite H1. intros Hx o Hrec Hlt. destruct (Hpos p x Hx o Hrec Hlt); [left; set_solver | by right].
    + intros p n Hn. rewrite H1, H2. by apply Hpen.
    + intros n d Hn Hd. destruct (Hcmt n d Hn Hd). split; [done | set_solver].
    + intros n d Hn Hs. specialize (Hset n d Hn Hs). set_solver.
Qed.
(** A new consumer joins a group that executed everything below the committed offsets. *)
Definition kafka_reachable (s : KafkaConsumer * W) : Prop :=
  ∃ l w0, (∀ q, kc_position w0 q = None) ∧ (∀ p, executed_below l p (kc_committed w0 p)) ∧
    rtc kafka_step (others_done l kafka_init, w0) s.

Lemma kafka_reachable_inv s : kafka_reachable s → kafka_inv s.
Proof.
  intros (l & w0 & Hp & Hl & Hrun). assert (H0 : kafka_inv (others_done l kafka_init, w0)).
  { split; cbn; try done.
    - intros p. eapply executed_mono; [apply Hl | set_solver].
    - intros p x. by rewrite Hp. }
  remember (others_done l kafka_init, w0) as s0 eqn:E. clear E. induction Hrun; eauto using kafka_step_inv.
Qed.

(** C23: at-least-once: whatever rebalances, failing commits, cancelled tasks and other
    members do, no message below a committed offset was skipped - its execution
    was over before the offset passed it. *)
Theorem kafka_at_least_once k w p o :
  kafka_reachable (k, w) → kc_record p o → (o < kc_committed w p)%Z → (p, o) ∈ ks_done k.
Proof. intros Hinv%kafka_reachable_inv Hr Ho. by apply (ki_committed _ Hinv). Qed.

Lemma stale_step s s' n d : kafka_inv s → kafka_step s s' → ks_deliveries (fst s) !! n = Some d →
  kd_generation d ≠ ks_generation (fst s) → ks_deliveries (fst s') !! n = Some d ∧ kd_generation d ≠ ks_generation (fst s').
Proof.
  intros Hinv Hstep Hd Hg. pose proof (ki_generation _ Hinv n d Hd) as Hle.
  destruct Hstep as [k w t | k w t r w' m | k w t | k w m d' Hd' Ha Hn | k w m d' r w' Hn Hd' Hc
    | k w m d' r w' Hn Hd' Hc | k w l w' Hr | k w l w' Ha | k w | k w l w' Ho Hex]; cbn in *; try done.
  - unfold received. case_bool_decide; cbn; [done |]. split; [| done]. rewrite lookup_insert_ne; [done | congruence].
  - unfold committed_. destruct r as [[] | e]; [| done]. destruct (kd_generation d' =? ks_generation k) eqn:He; cbn; [| done].
    split; [| done]. destruct (decide (m = n)) as [-> | ?]; [| by rewrite lookup_insert_ne].
    apply Nat.eqb_eq in He. congruence.
  - split; [done | lia].
Qed.

(** One message of a partition at a time: two unsettled deliveries of the current
    generation never share a partition, so a message that arrives is always
    accepted and declared with the trust in its partition; and a delivery of an
    earlier generation can neither be acknowledged nor ever become settled. *)
Theorem kafka_one_in_flight k w :
  kafka_reachable (k, w) →
  (∀ n1 n2 d1 d2, ks_deliveries k !! n1 = Some d1 → ks_deliveries k !! n2 = Some d2 → live k d1 → live k d2 →
     kd_partition d1 = kd_partition d2 → n1 = n2) ∧
  (∀ n task r w', kc_getone w r w' → (received n task r (k, w')).2 = Ok (new_delivery k task r)) ∧
  (∀ n d, ks_deliveries k !! n = Some d → kd_generation d ≠ ks_generation k →
     acknowledgeable k d = false ∧ ∀ s', kafka_step (k, w) s' → ks_deliveries (fst s') !! n = Some d ∧ kd_generation d ≠ ks_generation (fst s')).
Proof.
  intros Hinv%kafka_reachable_inv. split; [| split].
  - intros n1 n2 d1 d2 H1 H2 L1 L2 Hp. pose proof (ki_live _ Hinv n1 d1 H1 L1) as P1. pose proof (ki_live _ Hinv n2 d2 H2 L2) as P2.
    rewrite Hp in P1. congruence.
  - intros n task r w' Hget. destruct (kc_getone_law w r w' Hget) as (x & _ & _ & Hpau & _). unfold received.
    rewrite bool_decide_false; [done |]. intros [m Hm]. by destruct (ki_pending _ Hinv _ _ Hm).
  - intros n d Hd Hg. unfold acknowledgeable. rewrite (proj2 (Nat.eqb_neq _ _) Hg).
    split; [by rewrite !orb_true_r |]. intros s' Hstep.
    by apply (stale_step (k, w)).
Qed.
End Invariant.

(** ** A concrete run: one member, one partition that has a record at every offset *)

Record KafkaWorld := mk_kworld { kw_position : gmap partition Z; kw_committed : gmap partition Z; kw_paused : gset partition }.
#[export] Instance demo_kafka : KafkaClient KafkaWorld := {|
  kc_getone w r w' := cr_partition r ∉ kw_paused w ∧ kw_position w !! cr_partition r = Some (cr_offset r) ∧ (0 ≤ cr_offset r)%Z ∧
    w' = mk_kworld (<[cr_partition r := (cr_offset r + 1)%Z]> (kw_position w)) (kw_committed w) (kw_paused w);
  kc_commit p n w r w' := r = Ok tt ∧ w' = mk_kworld (kw_position w) (<[p := n]> (kw_committed w)) (kw_paused w);
  kc_pause p w := mk_kworld (kw_position w) (kw_committed w) ({[p]} ∪ kw_paused w);
  kc_resume p w := mk_kworld (kw_position w) (kw_committed w) (kw_paused w ∖ {[p]});
  kc_revoke l w w' := w' = mk_kworld ∅ (kw_committed w) (kw_paused w);
  kc_assign l w w' := kw_position w = ∅ ∧
    w' = mk_kworld (list_to_map (map (λ p, (p, default 0%Z (kw_committed w !! p))) l)) (kw_committed w) (kw_paused w);
  kc_others w w' := w' = w;
  kc_record p o := (0 ≤ o)%Z;
  kc_position w p := kw_position w !! p;
  kc_committed w p := default 0%Z (kw_committed w !! p);
  kc_paused := kw_paused;
|}.

Lemma assigned_position (f : partition → Z) (l : list partition) q :
  (list_to_map (map (λ p, (p, f p)) l) : gmap partition Z) !! q = if decide (q ∈ l) then Some (f q) else None.
Proof.
  induction l as [| p l IH]; [done |]. cbn. destruct (decide (p = q)) as [-> | Hp].
  - rewrite lookup_insert_eq. by rewrite decide_True by left.
  - rewrite lookup_insert_ne, IH by done. repeat case_decide; set_solver.
Qed.

#[export] Instance demo_kafka_laws : KafkaLaws KafkaWorld.
Proof.
  split; cbn.
  - intros w r w' (Hp & Hpos & Ho & ->). exists (cr_offset r). split_and!; try done; [lia |].
    intros q. cbn. case_decide; [subst; by rewrite lookup_insert_eq | by rewrite lookup_insert_ne].
  - intros p n w r w' [-> ->]. split_and!; try done. intros q. cbn.
    destruct (decide (q = p)) as [-> | ?]; [right; by rewrite lookup_insert_eq | left; by rewrite lookup_insert_ne].
  - done.
  - done.
  - intros l w w' ->. cbn. split; [intros q; apply lookup_empty | done].
  - intros l w w' [Hp ->]. cbn. split_and!; [intros q; by rewrite Hp | | done]. intros q. apply assigned_position.
  - intros w w' ->. done.
Qed.

Definition demo_partition : partition := (u "mail", 0%Z).
Definition demo_world_0 : KafkaWorld := mk_kworld ∅ {[ demo_partition := 5%Z ]} ∅.
Definition demo_record (o : Z) : ConsumerRecord := mk_record demo_partition o None.
(** The messages before offset 5 were executed by earlier members. *)
Definition demo_before : gset (partition * Z) := list_to_set (map (λ o, (demo_partition, o)) [0; 1; 2; 3; 4]%Z).
Definition demo_k0 := (others_done demo_before kafka_init, demo_world_0).
Definition demo_k1 := assigned [demo_partition] (fst demo_k0, mk_kworld {[ demo_partition := 5%Z ]} {[ demo_partition := 5%Z ]} ∅).
Definition demo_k2 := (set_receiving (Some 1) (fst demo_k1), snd demo_k1).
Definition demo_k3 := fst (received 0 1 (demo_record 5) (fst demo_k2, mk_kworld {[ demo_partition := 6%Z ]} {[ demo_partition := 5%Z ]} ∅)).
Definition demo_k4 := (commit_begun 0 (new_delivery (fst demo_k2) 1 (demo_record 5)) (fst demo_k3), snd demo_k3).

Lemma demo_kafka_reachable s : rtc kafka_step demo_k0 s → kafka_reachable s.
Proof.
  intros Hs. exists demo_before, demo_world_0. split; [done |]. split; [| exact Hs]. intros p o Ho Hlt.
  change (0 ≤ o)%Z in Ho. change (o < default 0 (({[ demo_partition := 5%Z ]} : gmap partition Z) !! p))%Z in Hlt.
  destruct (decide (p = demo_partition)) as [-> | Hp].
  - rewrite lookup_singleton_eq in Hlt. cbn in Hlt. unfold demo_before. rewrite elem_of_list_to_set.
    assert (o = 0 ∨ o = 1 ∨ o = 2 ∨ o = 3 ∨ o = 4)%Z as Hcases by lia. apply list_elem_of_fmap. exists o. split; [done |]. set_solver.
  - rewrite lookup_singleton_ne in Hlt by congruence. cbn in Hlt. lia.
Qed.
Lemma demo_kafka_received : rtc kafka_step demo_k0 demo_k3.
Proof.
  apply rtc_l with demo_k1; [by apply (step_assigned (fst demo_k0) demo_world_0) |].
  apply rtc_l with demo_k2; [by apply (step_receive (fst demo_k1) (snd demo_k1)) |]. apply rtc_once.
  apply (step_received (fst demo_k2) (snd demo_k2) 1 (demo_record 5) (mk_kworld {[ demo_partition := 6%Z ]} {[ demo_partition := 5%Z ]} ∅) 0); try done.
Qed.

Lemma kafka_at_least_once_witness :
  kafka_reachable demo_k3 ∧ (4 < kc_committed (snd demo_k3) demo_partition)%Z ∧ (demo_partition, 4%Z) ∈ ks_done (fst demo_k3).
Proof.
  assert (Hr : kafka_reachable (fst demo_k3, snd demo_k3)) by exact (demo_kafka_reachable _ demo_kafka_received).
  assert (Hc : (4 < kc_committed (snd demo_k3) demo_partition)%Z) by (vm_compute; reflexivity).
  split; [exact Hr |]. split; [exact Hc |].
  apply (kafka_at_least_once (fst demo_k3) (snd demo_k3) demo_partition 4 Hr); [vm_compute; discriminate | exact Hc].
Defined.

Lemma kafka_one_in_flight_witness :
  ks_pending (fst demo_k3) !! demo_partition = Some 0 ∧
  ∀ n d, ks_deliveries (fst demo_k3) !! n = Some d → live (fst demo_k3) d → kd_partition d = demo_partition → n = 0.
Proof.
  assert (Hr : kafka_reachable (fst demo_k3, snd demo_k3)) by exact (demo_kafka_reachable _ demo_kafka_received).
  destruct (kafka_one_in_flight (fst demo_k3) (snd demo_k3) Hr) as [Hone _].
  split; [vm_compute; reflexivity |]. intros n d Hd Hl Hp.
  apply (Hone n 0 d (new_delivery (fst demo_k2) 1 (demo_record 5)) Hd); [reflexivity | exact Hl | by split | exact Hp].
Defined.
