(* ===== verification/HttpResponse.v ===== *)
(** * HttpResponse: response codes, payloads and the rendering of exceptions

    Models [interfaces/http/shared/response] (codes, the ten digit code, the
    JSON and the event stream payloads), [interfaces/http/exceptions] (the
    boundary exception, the handlers, the stream boundary) and the event stream
    endpoint.  What FastAPI contributes is named: its default handler of a
    non-error [HTTPException], the validation of [ServerSentEvent] and the
    JSON encoder.  The bytes of a response are not modelled. *)

From S2P Require Import Prelude Text PyVal Errors Decimal.
Local Open Scope prog_scope.

(** A literal in UTF-8. *)
Fixpoint utf8_decode (l : list N) : pystr :=
  match l with
  | [] => []
  | a :: l1 =>
      if (a <? 128)%N then a :: utf8_decode l1
      else match l1 with
      | b :: l2 =>
          if (a <? 224)%N then ((a - 192) * 64 + (b - 128))%N :: utf8_decode l2
          else match l2 with
          | c :: l3 => ((a - 224) * 4096 + (b - 128) * 64 + (c - 128))%N :: utf8_decode l3
          | [] => []
          end
      | [] => []
      end
  end.
Definition txt (s : string) : pystr := utf8_decode (u s).

(** ** Codes *)

Section Codes.
Context `{UnicodeTables}.

Definition CodeDefinition_new (c : CodeDefinition) : result exn CodeDefinition :=
  let? _ := guard ((len (rc_code c) =? 4)%Z && py_isdigit (rc_code c)) ValueError in
  let? _ := guard ((100 <=? rc_status_code c) && (rc_status_code c <=? 599))%Z ValueError in
  Ok c.

Definition ResponseCodeBuilder_new (service_code : pystr) : result exn pystr :=
  let? _ := guard ((len service_code =? 3)%Z && py_isdigit service_code) ValueError in
  Ok service_code.
End Codes.

Inductive ErrorCode :=
| BAD_REQUEST | UNAUTHORIZED | FORBIDDEN | ROUTE_NOT_FOUND | RESOURCE_NOT_FOUND | METHOD_NOT_ALLOWED
| CONFLICT | VALIDATION_ERROR | TOO_MANY_REQUESTS | INTERNAL_ERROR | SERVICE_UNAVAILABLE.
Definition error_code (c : ErrorCode) : CodeDefinition :=
  match c with
  | BAD_REQUEST => mk_code (u "0101") (txt "请求内容有误，请检查后重试") 400
  | UNAUTHORIZED => mk_code (u "0101") (txt "未授权，请先登录") 401
  | FORBIDDEN => mk_code (u "0101") (txt "无权限访问") 403
  | ROUTE_NOT_FOUND => mk_code (u "0101") (txt "未定义路由") 404
  | RESOURCE_NOT_FOUND => mk_code (u "0102") (txt "请求的数据不存在或已被删除") 404
  | METHOD_NOT_ALLOWED => mk_code (u "0101") (txt "该接口不支持当前请求方式") 405
  | CONFLICT => mk_code (u "0101") (txt "当前数据状态已发生变化，请刷新后重试") 409
  | VALIDATION_ERROR => mk_code (u "0101") (txt "请求参数有误，请检查后重试") 422
  | TOO_MANY_REQUESTS => mk_code (u "0101") (txt "操作过于频繁，请稍后重试") 429
  | INTERNAL_ERROR => mk_code (u "0101") (txt "网络开小差了，请稍后重试") 500
  | SERVICE_UNAVAILABLE => mk_code (u "0101") (txt "服务暂时不可用，请稍后重试") 503
  end.

Inductive SuccessCode := OK | CREATED | ACCEPTED.
Definition success_code (c : SuccessCode) : CodeDefinition :=
  match c with
  | OK => mk_code (u "0000") (txt "请求成功") 200
  | CREATED => mk_code (u "0000") (txt "创建成功") 201
  | ACCEPTED => mk_code (u "0000") (txt "请求已接受") 202
  end.

Inductive UserErrorCode := USER_NOT_FOUND | USERNAME_CONFLICT | EMAIL_CONFLICT | CONCURRENT_UPDATE | INVALID_USER_DATA.
Definition user_error_code (c : UserErrorCode) : CodeDefinition :=
  match c with
  | USER_NOT_FOUND => mk_code (u "1001") (txt "用户不存在或已被删除") 404
  | USERNAME_CONFLICT => mk_code (u "1002") (txt "用户名已存在") 409
  | EMAIL_CONFLICT => mk_code (u "1003") (txt "邮箱已存在") 409
  | CONCURRENT_UPDATE => mk_code (u "1004") (txt "用户已被并发修改，请重新读取后重试") 409
  | INVALID_USER_DATA => mk_code (u "1005") (txt "用户资料不符合要求") 422
  end.

Inductive AuthErrorCode := INVALID_CREDENTIALS | LOGIN_TEMPORARILY_LOCKED.
Definition auth_error_code (c : AuthErrorCode) : CodeDefinition :=
  match c with
  | INVALID_CREDENTIALS => mk_code (u "1101") (txt "用户名或密码错误") 401
  | LOGIN_TEMPORARILY_LOCKED => mk_code (u "1102") (txt "登录失败次数过多，已临时锁定") 429
  end.

(** Every code the application defines. *)
Inductive app_code :=
| AppError (c : ErrorCode) | AppSuccess (c : SuccessCode) | AppUser (c : UserErrorCode) | AppAuth (c : AuthErrorCode).
Definition definition (c : app_code) : CodeDefinition :=
  match c with
  | AppError c => error_code c | AppSuccess c => success_code c
  | AppUser c => user_error_code c | AppAuth c => auth_error_code c
  end.

(** [f"{z:03d}"] *)
Definition zfill (n : nat) (s : pystr) : pystr := replicate (n - length s) 48%N ++ s.
Definition format_03d (z : Z) : pystr :=
  if (z <? 0)%Z then 45%N :: zfill 2 (decimal (Z.to_N (- z))) else zfill 3 (decimal (Z.to_N z)).

(** [ResponseCodeBuilder.build] *)
Definition build (service_code : pystr) (c : CodeDefinition) : pystr :=
  format_03d (rc_status_code c) ++ service_code ++ rc_code c.

(** ** JSON payloads *)

Record JsonResponse (T : Type) := mk_json {
  jr_code : pystr; jr_success : bool; jr_message : pystr; jr_data : option T; jr_request_id : option pystr;
}.
Arguments mk_json {T}. Arguments jr_code {T}. Arguments jr_success {T}. Arguments jr_message {T}.
Arguments jr_data {T}. Arguments jr_request_id {T}.

Definition request_id_header : pystr := u "X-Request-ID".

(** A response: FastAPI answers a non-error [HTTPException] with its detail. *)
Inductive Body (T : Type) :=
| NoBody | SuccessBody (r : JsonResponse T) | ErrorBody (r : JsonResponse pyval) | OtherBody (v : pyval).
Arguments NoBody {T}. Arguments SuccessBody {T}. Arguments ErrorBody {T}. Arguments OtherBody {T}.
Record Reply (T : Type) := mk_reply { rp_status : Z; rp_headers : pydict pystr; rp_body : Body T }.
Arguments mk_reply {T}. Arguments rp_status {T}. Arguments rp_headers {T}. Arguments rp_body {T}.

(** [HttpError.__init__] *)
Definition HttpError_new (c : CodeDefinition) (message : option pystr) (data : option pyval)
    (headers : option (pydict pystr)) : result exn exn :=
  let? _ := guard (400 <=? rc_status_code c)%Z ValueError in
  Ok (HttpError c (default (rc_message c) message) data headers).

(** [fastapi.exception_handlers.http_exception_handler] *)
Class FastApi := { default_http_exception {T} : Z → pyval → option (pydict pystr) → Reply T }.
Class FastApiLaws `{FastApi} : Prop := {
  default_http_exception_status {T} status detail headers :
    rp_status (default_http_exception (T := T) status detail headers) = status;
}.

Section Json.
Context `{UnicodeTables, FastApi}.
(** The service code of the application and the request context, if any. *)
Context (service_code : pystr) (context : option (pydict pystr)).

Definition resolve_request_id (explicit : option pystr) : option pystr :=
  match explicit, context with
  | Some i, _ => Some i
  | None, None => None
  | None, Some ctx => dict_get ctx request_id_header
  end.

Definition json_success {T} (data : T) (code : CodeDefinition) (message request_id : option pystr)
    : result exn (JsonResponse T) :=
  let? _ := guard ((200 <=? rc_status_code code) && (rc_status_code code <? 300))%Z ValueError in
  Ok (mk_json (build service_code code) true (default (rc_message code) message) (Some data)
        (resolve_request_id request_id)).

Definition json_error (code : CodeDefinition) (message : option pystr) (data : option pyval)
    (request_id : option pystr) : result exn (JsonResponse pyval) :=
  let? _ := guard (400 <=? rc_status_code code)%Z ValueError in
  Ok (mk_json (build service_code code) false (default (rc_message code) message) data
        (resolve_request_id request_id)).

(** ** Exceptions to responses: [exceptions/handlers.py] *)

Definition render_error {T} (code : CodeDefinition) (message : option pystr) (data : option pyval)
    (headers : option (pydict pystr)) : result exn (Reply T) :=
  let? payload := json_error code message data None in
  Ok (mk_reply (rc_status_code code) (default [] headers) (ErrorBody payload)).

Definition http_error_codes (status : Z) : option ErrorCode :=
  if (status =? 400)%Z then Some BAD_REQUEST else if (status =? 401)%Z then Some UNAUTHORIZED
  else if (status =? 403)%Z then Some FORBIDDEN else if (status =? 404)%Z then Some ROUTE_NOT_FOUND
  else if (status =? 405)%Z then Some METHOD_NOT_ALLOWED else if (status =? 409)%Z then Some CONFLICT
  else if (status =? 422)%Z then Some VALIDATION_ERROR else if (status =? 429)%Z then Some TOO_MANY_REQUESTS
  else if (status =? 500)%Z then Some INTERNAL_ERROR else None.

Definition resolve_http_error_code (status : Z) : result exn CodeDefinition :=
  match http_error_codes status with
  | Some c => Ok (error_code c)
  | None =>
      let template := error_code (if (500 <=? status)%Z then INTERNAL_ERROR else BAD_REQUEST) in
      CodeDefinition_new (mk_code (rc_code template) (rc_message template) status)
  end.

Definition resolve_http_exception_content (status : Z) (detail : pyval) : option pystr * option pyval :=
  if (500 <=? status)%Z then (None, None)
  else if (status =? 404)%Z || (status =? 405)%Z then (None, None)
  else match is_str detail with
       | Some t => (Some t, None)
       | None => (None, match detail with VNone => None | _ => Some detail end)
       end.

Definition validation_entry (e : field_error) : pyval :=
  VDict [(VStr (u "type"), VStr (fe_type e)); (VStr (u "location"), VList (fe_loc e)); (VStr (u "message"), VStr (fe_msg e))].
Definition build_validation_data (errors : list field_error) : pyval := VList (map validation_entry errors).

Definition handle_http_error {T} (e : exn) : result exn (Reply T) :=
  match e with
  | HttpError code message data headers =>
      if (500 <=? rc_status_code code)%Z then render_error (error_code INTERNAL_ERROR) None None None
      else render_error code (Some message) data headers
  | _ => Err TypeError
  end.
Definition handle_request_validation_error {T} (e : exn) : result exn (Reply T) :=
  match e with
  | RequestValidationError errors => render_error (error_code VALIDATION_ERROR) None (Some (build_validation_data errors)) None
  | _ => Err TypeError
  end.
Definition handle_http_exception {T} (e : exn) : result exn (Reply T) :=
  match e with
  | HTTPException status detail headers =>
      if (status <? 400)%Z then Ok (default_http_exception status detail headers)
      else
        let? code := resolve_http_error_code status in
        let '(message, data) := resolve_http_exception_content status detail in
        render_error code message data headers
  | _ => Err TypeError
  end.
Definition handle_unexpected_exception {T} : result exn (Reply T) := render_error (error_code INTERNAL_ERROR) None None None.

Definition render_exception {T} (e : exn) : result exn (Reply T) :=
  match e with
  | HttpError _ _ _ _ => handle_http_error e
  | RequestValidationError _ => handle_request_validation_error e
  | HTTPException _ _ _ => handle_http_exception e
  | _ => handle_unexpected_exception
  end.
End Json.

(** ** Event streams: [factories/sse.py], [exceptions/sse.py] and [streams/router.py] *)

Record SseResponse := mk_sse {
  se_event : pystr; se_raw_data : option pystr; se_data : option pyval; se_id : option pystr; se_retry : option Z;
}.
(** Data handed to an event: a plain value, or an object with an attribute
    [model_dump_json] that is callable, with its result, or not. *)
Inductive sse_data := DPlain (v : pyval) | DModel (model_dump_json : option (result exn pyval)).

(** The fields [ServerSentEvent] accepts and [json.dumps(jsonable_encoder(_))]. *)
Class SseLibrary := {
  sse_valid : SseResponse → bool;
  json_dumps_encoded : pyval → result exn pystr;
}.

Section Sse.
Context `{SseLibrary}.
Context (service_code : pystr).

Definition sse_new (e : SseResponse) : result exn SseResponse :=
  let? _ := guard (sse_valid e) ValidationError in Ok e.

Definition serialize_json_data (d : sse_data) : result exn pystr :=
  let r :=
    match d with
    | DPlain v => json_dumps_encoded v
    | DModel None => Err TypeError
    | DModel (Some (Err e)) => Err e
    | DModel (Some (Ok v)) => match is_str v with Some t => Ok t | None => Err TypeError end
    end in
  match r with
  | Ok t => Ok t
  | Err e => Err (if is_exception e then ValueError else e)
  end.

Definition stream_error_event : pystr := u "stream_error".
Definition done_event : pystr := u "done".

Definition sse_success (data : sse_data) (event : pystr) (id : option pystr) (retry : option Z) : result exn SseResponse :=
  let? _ := guard (negb (bool_decide (event = []) || bool_decide (event = stream_error_event) || bool_decide (event = done_event)))
              ValueError in
  match data with
  | DPlain VNone => sse_new (mk_sse event (Some (u "null")) None id retry)
  | _ =>
      let? raw := serialize_json_data data in
      sse_new (mk_sse event (Some raw) None id retry)
  end.

Definition error_payload (code : CodeDefinition) (message : option pystr) (data : option pyval) : pyval :=
  VDict ([(VStr (u "code"), VStr (build service_code code)); (VStr (u "message"), VStr (default (rc_message code) message))]
    ++ match data with Some v => [(VStr (u "data"), v)] | None => [] end).
Definition sse_error (code : CodeDefinition) (message : option pystr) (data : option pyval) : result exn SseResponse :=
  let? _ := guard ((400 <=? rc_status_code code) && (rc_status_code code <? 600))%Z ValueError in
  let '(code, message, data) :=
    if (500 <=? rc_status_code code)%Z then (error_code INTERNAL_ERROR, None, None) else (code, message, data) in
  let? raw := serialize_json_data (DPlain (error_payload code message data)) in
  sse_new (mk_sse stream_error_event (Some raw) None None None).
Definition sse_error_default : result exn SseResponse := sse_error (error_code INTERNAL_ERROR) None None.

Definition sse_done : result exn SseResponse := sse_new (mk_sse done_event None (Some (VDict [])) None None).

(** A finished generator: what it yielded and the exception it ended with. *)
Abbreviation stream := (list SseResponse * option exn)%type.

(** One more event, or the exception of making it. *)
Definition then_yield (events : list SseResponse) (r : result exn SseResponse) : stream :=
  match r with Ok e => (events ++ [e], None) | Err x => (events, Some x) end.

Definition handle_sse_exceptions (events : stream) : stream :=
  match events with
  | (l, None) => (l, None)
  | (l, Some (HttpError code message data headers)) =>
      then_yield l
        (match sse_error code (Some message) data with
         | Ok e => Ok e
         | Err e => if is_exception e then sse_error_default else Err e
         end)
  | (l, Some e) => if is_exception e then then_yield l sse_error_default else (l, Some e)
  end.

Record EventStreamParams := mk_stream_params { sp_count : Z; sp_fail_at : option Z }.
Definition EventStreamParams_ok (p : EventStreamParams) : bool :=
  ((1 <=? sp_count p) && (sp_count p <=? 20))%Z &&
  match sp_fail_at p with
  | None => true
  | Some f => ((1 <=? f) && (f <=? 20))%Z && negb (sp_count p <? f)%Z
  end.

Definition message_data (sequence : Z) : pyval :=
  VDict [(VStr (u "sequence"), VInt sequence);
         (VStr (u "content"), VStr (txt "第 " ++ str_int sequence ++ txt " 条消息"))].
Definition stream_message (sequence : Z) : result exn SseResponse :=
  sse_success (DPlain (message_data sequence)) (u "message") (Some (str_int sequence)) None.

Definition simulated_failure (sequence : Z) : exn :=
  match HttpError_new (error_code INTERNAL_ERROR) (Some (txt "SSE 事件流：模拟处理失败"))
          (Some (VDict [(VStr (u "sequence"), VInt sequence)])) None with
  | Ok e | Err e => e
  end.

(** The rest of the loop, [remaining] rounds from [sequence] on. *)
Fixpoint generate_from (remaining : nat) (sequence : Z) (fail_at : option Z) : stream :=
  match remaining with
  | O => then_yield [] sse_done
  | S remaining =>
      if bool_decide (fail_at = Some sequence) then ([], Some (simulated_failure sequence))
      else
        match stream_message sequence with
        | Err e => ([], Some e)
        | Ok e => let '(l, outcome) := generate_from remaining (sequence + 1) fail_at in (e :: l, outcome)
        end
  end.
Definition generate_events (p : EventStreamParams) : stream := generate_from (Z.to_nat (sp_count p)) 1 (sp_fail_at p).
Definition stream_events (p : EventStreamParams) : stream := handle_sse_exceptions (generate_events p).
End Sse.

(** ** The ten digit codes *)

Definition three_digits (z : Z) : bool :=
  let s := format_03d z in
  (length s =? 3) && forallb is_09 s && (Z.of_N (digits_value s) =? z)%Z.
Lemma format_03d_status z : (100 ≤ z ≤ 599)%Z →
  length (format_03d z) = 3 ∧ forallb is_09 (format_03d z) = true ∧ Z.of_N (digits_value (format_03d z)) = z.
Proof.
  intros Hz. assert (Hall : forallb three_digits (map Z.of_nat (seq 100 500)) = true) by (vm_compute; reflexivity).
  rewrite forallb_forall in Hall. specialize (Hall z).
  assert (Hin : In z (map Z.of_nat (seq 100 500))).
  { apply in_map_iff. exists (Z.to_nat z). split; [lia |]. apply in_seq. lia. }
  specialize (Hall Hin). unfold three_digits in Hall. apply andb_true_iff in Hall as [Hall Hv].
  apply andb_true_iff in Hall as [Hl Hd]. split_and!; [by apply Nat.eqb_eq | done | by apply Z.eqb_eq].
Qed.

Section CodeTheorems.
Context `{UnicodeTables}.

Lemma CodeDefinition_new_ok c c' : CodeDefinition_new c = Ok c' →
  c' = c ∧ length (rc_code c) = 4 ∧ py_isdigit (rc_code c) = true ∧ (100 ≤ rc_status_code c ≤ 599)%Z.
Proof.
  unfold CodeDefinition_new, guard, result_bind, len. intros Hc. repeat case_bool; simplify_eq/=; to_prop.
  split_and!; try done; lia.
Qed.
Lemma ResponseCodeBuilder_new_ok s s' : ResponseCodeBuilder_new s = Ok s' →
  s' = s ∧ length s = 3 ∧ py_isdigit s = true.
Proof.
  unfold ResponseCodeBuilder_new, guard, result_bind, len. intros Hc. repeat case_bool; simplify_eq/=; to_prop.
  split_and!; try done; lia.
Qed.

Lemma digit_is_09 c : is_09 c = true → isdigit_char c = true.
Proof.
  unfold isdigit_char, is_ascii. intros Hc. unfold is_09, in_range in *. to_prop.
  rewrite (proj2 (N.ltb_lt c 128)) by lia. apply andb_true_iff. split; apply N.leb_le; lia.
Qed.
Lemma py_isdigit_chars s : py_isdigit s = true → forallb isdigit_char s = true.
Proof. by destruct s. Qed.

Lemma build_parts s s' c c' :
  length s = 3 → length s' = 3 → (100 ≤ rc_status_code c ≤ 599)%Z → (100 ≤ rc_status_code c' ≤ 599)%Z →
  build s c = build s' c' → rc_status_code c = rc_status_code c' ∧ s = s' ∧ rc_code c = rc_code c'.
Proof.
  intros Hs Hs' Hc Hc' Hb. destruct (format_03d_status _ Hc) as (L & _ & V), (format_03d_status _ Hc') as (L' & _ & V').
  unfold build in Hb. apply app_inj_1 in Hb as [Hf Hr]; [| congruence]. apply app_inj_1 in Hr as [-> Hr]; [| congruence].
  split_and!; [congruence | done | done].
Qed.

Definition all_app_codes : list app_code :=
  map AppError [BAD_REQUEST; UNAUTHORIZED; FORBIDDEN; ROUTE_NOT_FOUND; RESOURCE_NOT_FOUND; METHOD_NOT_ALLOWED; CONFLICT;
    VALIDATION_ERROR; TOO_MANY_REQUESTS; INTERNAL_ERROR; SERVICE_UNAVAILABLE]
  ++ map AppSuccess [OK; CREATED; ACCEPTED]
  ++ map AppUser [USER_NOT_FOUND; USERNAME_CONFLICT; EMAIL_CONFLICT; CONCURRENT_UPDATE; INVALID_USER_DATA]
  ++ map AppAuth [INVALID_CREDENTIALS; LOGIN_TEMPORARILY_LOCKED].
Lemma all_app_codes_complete c : In c all_app_codes.
Proof. destruct c as [[] | [] | [] | []]; vm_compute; tauto. Qed.

Lemma definition_new c : CodeDefinition_new (definition c) = Ok (definition c).
Proof. by destruct c as [[] | [] | [] | []]. Qed.

#[export] Instance app_code_eq_dec : EqDecision app_code.
Proof. intros a b. unfold Decision. repeat decide equality. Defined.
Lemma definition_distinct c c' :
  rc_status_code (definition c) = rc_status_code (definition c') → rc_code (definition c) = rc_code (definition c') → c = c'.
Proof.
  intros Hs Hc. pose (same := λ a b, (rc_status_code (definition a) =? rc_status_code (definition b))%Z
    && bool_decide (rc_code (definition a) = rc_code (definition b))).
  assert (Hall : forallb (λ a, forallb (λ b, implb (same a b) (bool_decide (a = b))) all_app_codes) all_app_codes = true)
    by (vm_compute; reflexivity).
  rewrite forallb_forall in Hall. specialize (Hall c (all_app_codes_complete c)).
  rewrite forallb_forall in Hall. specialize (Hall c' (all_app_codes_complete c')).
  assert (Hsame : same c c' = true).
  { apply andb_true_iff. split; [by apply Z.eqb_eq | by apply bool_decide_eq_true]. }
  rewrite Hsame in Hall. by apply bool_decide_eq_true in Hall.
Qed.

(** The ten digit response code.  Built from valid parts it has ten digits and
    determines the status, the service and the local code, and every code the
    application defines is valid and has a ten digit code of its own, so a client
    can tell the reasons of a failure apart by the code alone. *)
Theorem response_code_identifies service service' c1 c2 :
  ResponseCodeBuilder_new service = Ok service → ResponseCodeBuilder_new service' = Ok service' →
  (CodeDefinition_new c1 = Ok c1 →
     length (build service c1) = 10 ∧ py_isdigit (build service c1) = true
     ∧ (CodeDefinition_new c2 = Ok c2 → build service c1 = build service' c2 →
          rc_status_code c1 = rc_status_code c2 ∧ service = service' ∧ rc_code c1 = rc_code c2))
  ∧ ∀ a b, CodeDefinition_new (definition a) = Ok (definition a)
      ∧ (build service (definition a) = build service (definition b) → a = b).
Proof.
  intros (_ & Ls & Ds)%ResponseCodeBuilder_new_ok (_ & Ls' & _)%ResponseCodeBuilder_new_ok. split.
  - intros (_ & L1 & D1 & S1)%CodeDefinition_new_ok. destruct (format_03d_status _ S1) as (Lf & Df & _).
    split; [by unfold build; rewrite !length_app, Lf, Ls, L1 |]. split.
    + unfold build. assert (Hf : forallb isdigit_char (format_03d (rc_status_code c1)) = true)
        by (eapply forallb_impl; [| exact Df]; apply digit_is_09).
      pose proof (py_isdigit_chars _ Ds) as Hs. pose proof (py_isdigit_chars _ D1) as Hc.
      destruct (format_03d (rc_status_code c1)) as [| x f]; [done |]. unfold py_isdigit. cbn [app].
      change (forallb isdigit_char ((x :: f) ++ service ++ rc_code c1) = true). by rewrite !forallb_app, Hf, Hs, Hc.
    + intros (_ & _ & _ & S2)%CodeDefinition_new_ok. by apply build_parts.
  - intros a b. split; [apply definition_new |]. intros Hb.
    destruct (CodeDefinition_new_ok _ _ (definition_new a)) as (_ & _ & _ & Sa).
    destruct (CodeDefinition_new_ok _ _ (definition_new b)) as (_ & _ & _ & Sb).
    destruct (build_parts _ _ _ _ Ls Ls Sa Sb Hb) as (? & _ & ?). by apply definition_distinct.
Qed.
End CodeTheorems.

Lemma response_code_identifies_witness :
  ResponseCodeBuilder_new (H := plain_tables) (u "100") = Ok (u "100") ∧
  build (u "100") (user_error_code EMAIL_CONFLICT) = u "4091001003" ∧
  py_isdigit (H := plain_tables) (build (u "100") (user_error_code EMAIL_CONFLICT)) = true.
Proof.
  split; [reflexivity |]. split; [reflexivity |].
  destruct (response_code_identifies (H := plain_tables) (u "100") (u "100") (user_error_code EMAIL_CONFLICT)
    (user_error_code EMAIL_CONFLICT)) as [Hone _]; [reflexivity | reflexivity |].
  destruct (Hone eq_refl) as (_ & Hd & _). exact Hd.
Defined.

(** ** The rendering of exceptions *)

(** What an exception object can hold: [HttpError] validated its code, a framework
    exception carries an HTTP status. *)
Definition raisable `{UnicodeTables} (e : exn) : Prop :=
  match e with
  | HttpError c _ _ _ => CodeDefinition_new c = Ok c ∧ (400 ≤ rc_status_code c)%Z
  | HTTPException status _ _ => (status ≤ 599)%Z
  | _ => True
  end.
Definition exception_status (e : exn) : Z :=
  match e with
  | HttpError c _ _ _ => if (500 <=? rc_status_code c)%Z then 500 else rc_status_code c
  | RequestValidationError _ => 422
  | HTTPException status _ _ => status
  | _ => 500
  end.
Definition same_but_input (a b : field_error) : Prop :=
  fe_type a = fe_type b ∧ fe_loc a = fe_loc b ∧ fe_msg a = fe_msg b.

#[local] Opaque txt.

Section RenderTheorems.
Context {T : UnicodeTables} {FA : FastApi} {FL : FastApiLaws}.
Context (service : pystr) (context : option (pydict pystr)).
Abbreviation render := (render_exception service context).

Lemma http_error_codes_status status c : http_error_codes status = Some c → rc_status_code (error_code c) = status.
Proof. unfold http_error_codes. intros Hc. repeat case_bool; simplify_eq/=; to_prop; done. Qed.

Lemma render_error_ok {A} c message data headers : (400 ≤ rc_status_code c)%Z →
  render_error (T := A) service context c message data headers =
    Ok (mk_reply (rc_status_code c) (default [] headers)
      (ErrorBody (mk_json (build service c) false (default (rc_message c) message) data (resolve_request_id context None)))).
Proof. intros Hc. unfold render_error, json_error, guard. by rewrite (proj2 (Z.leb_le 400 _)). Qed.

Lemma resolve_http_error_code_ok status : (400 ≤ status ≤ 599)%Z →
  ∃ c, resolve_http_error_code status = Ok c ∧ rc_status_code c = status
    ∧ ((500 ≤ status)%Z → c = mk_code (rc_code (error_code INTERNAL_ERROR)) (rc_message (error_code INTERNAL_ERROR)) status).
Proof.
  intros Hs. unfold resolve_http_error_code. destruct (http_error_codes status) as [c |] eqn:Hc.
  - exists (error_code c). pose proof (http_error_codes_status _ _ Hc) as Hstatus. split_and!; [done | done |].
    intros H5. destruct c; cbn in Hstatus; try lia; subst status; [reflexivity | discriminate Hc].
  - unfold CodeDefinition_new, guard. rewrite (proj2 (Z.leb_le 100 _)), (proj2 (Z.leb_le _ 599)) by (cbn; lia).
    assert (Hlocal : ∀ c, ((len (rc_code (error_code c)) =? 4)%Z && py_isdigit (rc_code (error_code c))) = true) by (by intros []).
    cbn [rc_code rc_message rc_status_code]. rewrite Hlocal. eexists. split; [reflexivity |]. split; [reflexivity |].
    intros H5. by rewrite (proj2 (Z.leb_le 500 _)).
Qed.

(** The body of every reply of class 5xx. *)
Definition internal_body {A} (status : Z) : Body A :=
  let c := mk_code (rc_code (error_code INTERNAL_ERROR)) (rc_message (error_code INTERNAL_ERROR)) status in
  ErrorBody (mk_json (build service c) false (rc_message c) None (resolve_request_id context None)).

Lemma render_status {A} e (r : Reply A) : render e = Ok r → rp_status r = exception_status e.
Proof.
  unfold render_exception. destruct e; cbn [handle_http_error handle_request_validation_error handle_http_exception];
    unfold handle_unexpected_exception; try (rewrite render_error_ok by done; by intros [= <-]).
  - cbn [exception_status]. destruct (500 <=? rc_status_code code)%Z; [rewrite render_error_ok by done; by intros [= <-] |].
    unfold render_error, json_error, guard. case_bool; [| done]. by intros [= <-].
  - cbn [exception_status]. case_bool; to_prop; [intros [= <-]; apply default_http_exception_status |].
    destruct (decide (status_code ≤ 599)%Z) as [Hle | Hgt].
    + destruct (resolve_http_error_code_ok status_code ltac:(lia)) as (c & -> & Hc & _). cbn [result_bind].
      destruct (resolve_http_exception_content status_code detail) as [m x]. rewrite render_error_ok by lia. by intros [= <-].
    + unfold resolve_http_error_code. destruct (http_error_codes status_code) as [c |] eqn:Hc.
      { apply http_error_codes_status in Hc. destruct c; cbn in Hc; lia. }
      unfold CodeDefinition_new, guard. cbn [rc_status_code rc_code]. rewrite (proj2 (Z.leb_gt _ 599)) by lia.
      rewrite andb_false_r. by destruct (500 <=? status_code)%Z.
Qed.

Lemma render_internal {A} e (r : Reply A) : render e = Ok r → (500 ≤ rp_status r)%Z → rp_body r = internal_body (rp_status r).
Proof.
  intros Hr. pose proof (render_status _ _ Hr) as Hs. rewrite Hs. revert Hr.
  unfold render_exception. destruct e; cbn [handle_http_error handle_request_validation_error handle_http_exception exception_status];
    unfold handle_unexpected_exception; try (rewrite render_error_ok by done; by intros [= <-] ?).
  - case_bool; to_prop; [rewrite render_error_ok by done; by intros [= <-] | intros _ ?; lia].
  - case_bool; to_prop; [intros _ ?; lia |]. intros Hr H5. destruct (decide (status_code ≤ 599)%Z) as [Hle | Hgt].
    + destruct (resolve_http_error_code_ok status_code ltac:(lia)) as (c & Hc & Hst & Hint). rewrite Hc in Hr. cbn [result_bind] in Hr.
      unfold resolve_http_exception_content in Hr. rewrite (proj2 (Z.leb_le 500 _)) in Hr by done.
      rewrite render_error_ok in Hr by lia. injection Hr as <-. by rewrite (Hint H5).
    + exfalso. clear -Hr Hgt. unfold resolve_http_error_code in Hr. destruct (http_error_codes status_code) as [c |] eqn:Hc.
      { apply http_error_codes_status in Hc. destruct c; cbn in Hc; lia. }
      unfold CodeDefinition_new, guard in Hr. cbn [rc_status_code rc_code] in Hr. rewrite (proj2 (Z.leb_gt _ 599)) in Hr by lia.
      rewrite andb_false_r in Hr. by destruct (500 <=? status_code)%Z.
Qed.

Lemma render_total {A} e : raisable e → ∃ r : Reply A, render e = Ok r ∧
  ((400 ≤ exception_status e)%Z → ∃ c message data,
     rc_status_code c = exception_status e ∧
     rp_body r = ErrorBody (mk_json (build service c) false message data (resolve_request_id context None))).
Proof.
  assert (Hgen : ∀ c message data headers, (400 ≤ rc_status_code c)%Z → rc_status_code c = exception_status e →
    ∃ r : Reply A, render_error service context c message data headers = Ok r ∧
      ((400 ≤ exception_status e)%Z → ∃ c message data, rc_status_code c = exception_status e ∧
        rp_body r = ErrorBody (mk_json (build service c) false message data (resolve_request_id context None)))).
  { intros c message data headers Hc Hst. rewrite render_error_ok by done. eexists. split; [done |]. intros _. by exists c, (default (rc_message c) message), data. }
  intros He. unfold render_exception.
  destruct e; try (apply (Hgen (error_code INTERNAL_ERROR) None None None); done);
    cbn [handle_http_error handle_request_validation_error handle_http_exception].
  - destruct He as [_ He]. destruct (500 <=? rc_status_code code)%Z eqn:H5.
    + apply (Hgen (error_code INTERNAL_ERROR)); cbn [exception_status]; [done | by rewrite H5].
    + apply (Hgen code); cbn [exception_status]; [done | by rewrite H5].
  - by apply (Hgen (error_code VALIDATION_ERROR)).
  - cbn [raisable] in He. case_bool; to_prop.
    + eexists. split; [done |]. cbn [exception_status]. lia.
    + destruct (resolve_http_error_code_ok status_code ltac:(lia)) as (c & -> & Hc & _). cbn [result_bind].
      destruct (resolve_http_exception_content status_code detail) as [m x]. apply (Hgen c); cbn [exception_status]; [lia | done].
Qed.

(** C4: what a client sees of a failure.  Every exception that can be raised is
    rendered, with its own status and, from 400 on, a failure payload whose code
    starts with that status; the body of a 5xx answer depends on nothing but the
    status, so two internal faults are indistinguishable whatever the exceptions
    hold; and a validation failure shows types, places and messages but not the
    values the client sent. *)
Theorem error_rendering_opaque {A} :
  (∀ e, raisable e → ∃ r : Reply A, render e = Ok r ∧ rp_status r = exception_status e ∧
     ((400 ≤ exception_status e)%Z → ∃ c message data, rc_status_code c = exception_status e ∧
        rp_body r = ErrorBody (mk_json (build service c) false message data (resolve_request_id context None))))
  ∧ (∀ e1 e2 (r1 r2 : Reply A), render e1 = Ok r1 → render e2 = Ok r2 →
       rp_status r1 = rp_status r2 → (500 ≤ rp_status r1)%Z → rp_body r1 = rp_body r2)
  ∧ (∀ l1 l2, Forall2 same_but_input l1 l2 →
       (render (RequestValidationError l1) : result exn (Reply A)) = render (RequestValidationError l2)).
Proof.
  split; [| split].
  - intros e He. destruct (render_total (A := A) e He) as (r & Hr & Hbody). exists r.
    split; [done |]. split; [by apply render_status | done].
  - intros e1 e2 r1 r2 H1 H2 Hs H5. rewrite (render_internal e1 r1 H1 H5), (render_internal e2 r2 H2) by lia. congruence.
  - intros l1 l2 Hl. cbn [render_exception handle_request_validation_error].
    assert (Hmap : map validation_entry l1 = map validation_entry l2).
    { induction Hl as [| a b l1 l2 (Ht & Hloc & Hm) _ IH]; [done |]. cbn [map]. unfold validation_entry at 1 3.
      by rewrite IH, Ht, Hloc, Hm. }
    unfold build_validation_data. by rewrite Hmap.
Qed.
End RenderTheorems.

Definition demo_fastapi : FastApi := {| default_http_exception T status detail headers := mk_reply status (default [] headers) (OtherBody detail) |}.
Definition demo_fastapi_laws : @FastApiLaws demo_fastapi.
Proof. by split. Qed.

Definition leaky (status : Z) (secret : string) : exn :=
  HttpError (mk_code (u "0199") (u secret) status) (u secret) (Some (VStr (u secret))) None.
Lemma error_rendering_opaque_witness :
  raisable (H := plain_tables) (leaky 503 "password=1") ∧
  ∃ r1 r2 : Reply unit,
    render_exception (H := plain_tables) (H0 := demo_fastapi) (u "100") None (leaky 503 "password=1") = Ok r1 ∧
    render_exception (H := plain_tables) (H0 := demo_fastapi) (u "100") None (OtherException 7) = Ok r2 ∧
    rp_status r1 = 500%Z ∧ rp_body r1 = rp_body r2.
Proof.
  assert (Hr : raisable (H := plain_tables) (leaky 503 "password=1")) by (split; [vm_compute; reflexivity | cbn; lia]).
  split; [exact Hr |].
  destruct (error_rendering_opaque (T := plain_tables) (FL := demo_fastapi_laws) (A := unit) (u "100") None) as (Htotal & Hsame & _).
  destruct (Htotal (leaky 503 "password=1") Hr) as (r1 & H1 & S1 & _).
  destruct (Htotal (OtherException 7) I) as (r2 & H2 & S2 & _).
  exists r1, r2. split; [exact H1 |]. split; [exact H2 |]. split; [exact S1 |].
  apply (Hsame _ _ r1 r2 H1 H2); [by rewrite S1, S2 | by rewrite S1].
Defined.

(** ** The event stream *)

Fixpoint json_plain (v : pyval) : bool :=
  match v with
  | VNone | VBool _ | VInt _ | VStr _ => true
  | VList l | VTuple l => forallb json_plain l
  | VDict l => forallb (λ kv, match kv with (VStr _, x) => json_plain x | _ => false end) l
  | _ => false
  end.
Definition visible (s : pystr) : bool := forallb (in_range 33 126) s.
Class SseLaws `{SseLibrary} : Prop := {
  json_dumps_plain v : json_plain v = true → is_ok (json_dumps_encoded v) = true;
  sse_valid_plain event raw data id : event ≠ [] → visible event = true → visible (default [] id) = true →
    is_Some raw ∧ data = None ∨ raw = None ∧ is_Some data → sse_valid (mk_sse event raw data id None) = true;
}.

Section StreamTheorems.
Context `{SseLaws} (service : pystr).

Definition message_event (text : Z → pystr) (i : Z) : SseResponse :=
  mk_sse (u "message") (Some (text i)) None (Some (str_int i)) None.

Lemma visible_str_int z : visible (str_int z) = true.
Proof.
  assert (Hd : ∀ n, visible (decimal n) = true).
  { intros n. assert (Hn : forallb is_09 (decimal n) = true).
    { destruct (decide (n = 0)%N) as [-> | ?]; [by vm_compute | apply canonical_digits, decimal_canonical; lia]. }
    eapply forallb_impl; [| exact Hn]. intros c Hc. unfold is_09, in_range in *. to_prop. apply andb_true_iff. split; apply N.leb_le; lia. }
  unfold str_int. case_bool; [| apply Hd]. unfold visible. cbn [forallb]. apply andb_true_iff. split; [done | apply Hd].
Qed.

Lemma stream_message_ok : ∃ text, ∀ i,
  json_dumps_encoded (message_data i) = Ok (text i) ∧ stream_message i = Ok (message_event text i).
Proof.
  exists (λ i, match json_dumps_encoded (message_data i) with Ok t => t | Err _ => [] end). intros i.
  pose proof (json_dumps_plain (message_data i) eq_refl) as Hok.
  unfold stream_message, sse_success, guard, serialize_json_data. cbn [result_bind].
  destruct (json_dumps_encoded (message_data i)) as [t | e] eqn:Ht; [| done]. split; [done |].
  cbn [result_bind message_data]. unfold sse_new, guard. rewrite sse_valid_plain; [| done | done | apply visible_str_int | left; split; [by eexists | done]].
  cbn. unfold message_event. by rewrite Ht.
Qed.

Lemma stream_error_ok : ∃ raw,
  json_dumps_encoded (error_payload service (error_code INTERNAL_ERROR) None None) = Ok raw ∧
  ∀ c m d, (500 ≤ rc_status_code c < 600)%Z → sse_error service c m d = Ok (mk_sse stream_error_event (Some raw) None None None).
Proof.
  pose proof (json_dumps_plain (error_payload service (error_code INTERNAL_ERROR) None None) eq_refl) as Hok.
  destruct (json_dumps_encoded (error_payload service (error_code INTERNAL_ERROR) None None)) as [raw | e] eqn:Hraw; [| done].
  exists raw. split; [done |]. intros c m d Hc. unfold sse_error, guard.
  rewrite (proj2 (Z.leb_le 400 _)), (proj2 (Z.ltb_lt _ 600)), (proj2 (Z.leb_le 500 _)) by lia. cbn [andb result_bind].
  unfold serialize_json_data. rewrite Hraw. cbn [result_bind]. unfold sse_new, guard.
  rewrite sse_valid_plain; [done | done | by vm_compute | done | left; split; [by eexists | done]].
Qed.

Lemma sse_done_ok : sse_done = Ok (mk_sse done_event None (Some (VDict [])) None None).
Proof.
  unfold sse_done, sse_new, guard.
  rewrite sse_valid_plain; [done | done | by vm_compute | done | right; split; [done | by eexists]].
Qed.

Lemma generate_from_done text n i fail_at : (∀ i, stream_message i = Ok (message_event text i)) →
  (∀ f, fail_at = Some f → (f < i ∨ i + Z.of_nat n ≤ f)%Z) →
  generate_from n i fail_at = (map (message_event text) (seqZ i (Z.of_nat n)) ++ [mk_sse done_event None (Some (VDict [])) None None], None).
Proof.
  intros Htext. revert i. induction n as [| n IH]; intros i Hf; cbn [generate_from]; [by rewrite sse_done_ok |].
  rewrite bool_decide_false by (intros He; specialize (Hf i He); lia). rewrite Htext, IH by (intros f He; specialize (Hf f He); lia).
  rewrite Nat2Z.inj_succ, (seqZ_cons i) by lia. cbn [map app]. by rewrite Z.add_1_r, Z.pred_succ.
Qed.

Lemma generate_from_failed text n i f : (∀ i, stream_message i = Ok (message_event text i)) →
  (i ≤ f < i + Z.of_nat n)%Z →
  generate_from n i (Some f) = (map (message_event text) (seqZ i (f - i)), Some (simulated_failure f)).
Proof.
  intros Htext. revert i. induction n as [| n IH]; intros i Hf; [lia |]. cbn [generate_from].
  case_bool_decide as He; [simplify_eq; by rewrite Z.sub_diag |].
  assert (i ≠ f) by congruence. rewrite Htext, IH by lia.
  rewrite (seqZ_cons i) by lia. cbn [map]. by replace (Z.pred (f - i)) with (f - (i + 1))%Z by lia.
Qed.

(** The event stream.  With accepted parameters the client receives the
    messages 1, 2, ... in order, each once and under its number, up to the count
    or to the one before the failure, and then exactly one closing event: [done],
    or the generic error event, which holds nothing of the exception; the stream
    itself never ends with an exception. *)
Theorem stream_events_exact p :
  EventStreamParams_ok p = true →
  ∃ text last,
    (∀ i, json_dumps_encoded (message_data i) = Ok (text i)) ∧
    stream_events service p =
      (map (message_event text) (seqZ 1 (match sp_fail_at p with None => sp_count p | Some f => f - 1 end)) ++ [last], None) ∧
    match sp_fail_at p with
    | None => last = mk_sse done_event None (Some (VDict [])) None None
    | Some _ => ∃ raw, json_dumps_encoded (error_payload service (error_code INTERNAL_ERROR) None None) = Ok raw
        ∧ last = mk_sse stream_error_event (Some raw) None None None
    end.
Proof.
  destruct stream_message_ok as [text Htext], stream_error_ok as (raw & Hraw & Herr).
  destruct p as [count fail_at]. unfold EventStreamParams_ok, stream_events, generate_events. cbn [sp_count sp_fail_at].
  intros [Hc Hf]%andb_true_iff. to_prop. exists text. destruct fail_at as [f |]; to_prop.
  - eexists. split; [intros i; apply Htext |].
    split; [| exists raw; split; [done | reflexivity]].
    rewrite (generate_from_failed text) by (try (intros; apply Htext); lia).
    unfold simulated_failure, HttpError_new, guard. cbn [rc_status_code error_code]. cbn [Z.leb Z.compare Pos.compare Pos.compare_cont result_bind].
    unfold handle_sse_exceptions. rewrite Herr by (cbn; lia). done.
  - eexists. split; [intros i; apply Htext |]. split; [| reflexivity].
    rewrite (generate_from_done text) by (try done; intros; apply Htext). cbn [handle_sse_exceptions].
    rewrite Z2Nat.id by lia. done.
Qed.
End StreamTheorems.

(** An encoder that writes nothing but the kind of the value. *)
Definition demo_sse : SseLibrary := {|
  sse_valid _ := true;
  json_dumps_encoded v := if json_plain v then Ok (u "{}") else Err TypeError;
|}.
Definition demo_sse_laws : @SseLaws demo_sse.
Proof. split; [intros v Hv; cbn; by rewrite Hv | done]. Qed.

Lemma stream_events_exact_witness :
  EventStreamParams_ok (mk_stream_params 3 (Some 2%Z)) = true ∧
  length (stream_events (H := demo_sse) (u "100") (mk_stream_params 3 (Some 2%Z))).1 = 2.
Proof.
  assert (Hp : EventStreamParams_ok (mk_stream_params 3 (Some 2%Z)) = true) by (vm_compute; reflexivity).
  split; [exact Hp |].
  destruct (stream_events_exact (H0 := demo_sse_laws) (u "100") _ Hp) as (text & last & _ & Hs & _).
  rewrite Hs. vm_compute. reflexivity.
Defined.
