(* ===== verification/HttpUsers.v ===== *)
(** * HttpUsers: the user endpoints over the user service

    Models [interfaces/http/controllers/v1/users], [shared/pagination.py] and
    [routes/register.py]: request validation, the mapping of the errors of the
    user context and every endpoint, over the programs of [UserService].  An
    endpoint is a program that returns the reply or raises; [serve] renders what
    it raises as the exception handlers do.  The error lists of a failed
    validation are the library's ([Pydantic]); the parsing of paths and query
    strings is not modelled. *)

From S2P Require Import Prelude Text PyVal Errors Decimal UserDomain UserContracts UserPersistence UserRefinement UserMemory UserService HttpResponse.
Local Open Scope prog_scope.

(** [str(error)] *)
Class ExceptionText := { exc_str : exn → pystr }.
(** The error lists of pydantic. *)
Class Pydantic := { body_errors : pyval → list field_error; page_errors : Z → Z → list field_error }.

(** ** Requests: [schemas.py] *)

Definition body_fields (body : pyval) : option (list (pyval * pyval)) :=
  match body with VDict l => Some l | _ => None end.
Fixpoint field (name : string) (l : list (pyval * pyval)) : option pyval :=
  match l with
  | [] => None
  | (VStr k, v) :: l => if decide (k = u name) then Some v else field name l
  | _ :: l => field name l
  end.
(** [extra="forbid"] *)
Definition only_fields (names : list string) (l : list (pyval * pyval)) : bool :=
  forallb (λ kv, match kv.1 with VStr k => bool_decide (k ∈ map u names) | _ => false end) l.

Section Schemas.
Context `{UnicodeTables}.

Definition normalize_user_text (v : pyval) : pyval :=
  match is_str v with Some s => VStr (py_lower (py_strip s)) | None => v end.
Definition text_between (lo hi : Z) (v : pyval) : option pystr :=
  s ← is_str v; if ((lo <=? len s) && (len s <=? hi))%Z then Some s else None.

Record CreateUserRequest := mk_create_request { cq_username : pystr; cq_email : pystr; cq_password : pystr }.
Record UpdateUserRequest := mk_update_request { uq_username : pystr; uq_email : pystr }.

Definition username_field (l : list (pyval * pyval)) : option pystr :=
  v ← field "username" l; text_between 3 32 (normalize_user_text v).
Definition email_field (l : list (pyval * pyval)) : option pystr :=
  v ← field "email" l; text_between 0 254 (normalize_user_text v).
Definition password_field (l : list (pyval * pyval)) : option pystr := v ← field "password" l; text_between 8 128 v.

Definition CreateUserRequest_validate (body : pyval) : option CreateUserRequest :=
  l ← body_fields body;
  if only_fields ["username"; "email"; "password"] l then
    username ← username_field l; email ← email_field l; password ← password_field l;
    Some (mk_create_request username email password)
  else None.
Definition UpdateUserRequest_validate (body : pyval) : option UpdateUserRequest :=
  l ← body_fields body;
  if only_fields ["username"; "email"] l then
    username ← username_field l; email ← email_field l; Some (mk_update_request username email)
  else None.
Definition ChangeUserStatusRequest_validate (body : pyval) : option UserStatus :=
  l ← body_fields body;
  if only_fields ["status"] l then
    v ← field "status" l; s ← is_str v;
    match UserStatus_of s with Ok st => Some st | Err _ => None end
  else None.
Definition ResetUserPasswordRequest_validate (body : pyval) : option pystr :=
  l ← body_fields body;
  if only_fields ["password"] l then password_field l else None.
End Schemas.

Record UserResponse := mk_user_response {
  ur_id : uuid; ur_username : pystr; ur_email : pystr; ur_status : UserStatus; ur_created_at : datetime; ur_updated_at : datetime;
}.
Definition UserResponse_from_dto (x : UserDTO) : UserResponse :=
  mk_user_response (dto_id x) (dto_username x) (dto_email x) (dto_status x) (dto_created_at x) (dto_updated_at x).

(** ** Pagination: [shared/pagination.py] *)

Record PageParams := mk_page_params { pp_page : Z; pp_limit : Z }.
Definition MAX_LIMIT : Z := 1000.
Definition PageParams_ok (p : PageParams) : bool :=
  ((1 <=? pp_page p) && (1 <=? pp_limit p) && (pp_limit p <=? MAX_LIMIT))%Z.
Definition default_page : PageParams := mk_page_params 1 20.
Definition page_offset (p : PageParams) : Z := ((pp_page p - 1) * pp_limit p)%Z.
Definition calculate_total_pages (total limit : Z) : Z := ((total + limit - 1) / limit)%Z.
Record PageMeta := mk_page_meta { pm_page : Z; pm_limit : Z; pm_total : Z; pm_total_pages : Z }.
Record PageResponse (A : Type) := mk_page_response { pr_items : list A; pr_meta : PageMeta }.
Arguments mk_page_response {A}. Arguments pr_items {A}. Arguments pr_meta {A}.
Definition build_page_response {A B} (items : list A) (total : Z) (pagination : PageParams) (item_mapper : A → B) : PageResponse B :=
  mk_page_response (map item_mapper items)
    (mk_page_meta (pp_page pagination) (pp_limit pagination) total (calculate_total_pages total (pp_limit pagination))).

(** ** Endpoints: [router.py] *)

(** What the [data] of a reply holds. *)
Inductive api_data :=
| UserData (x : UserResponse) | PageData (x : PageResponse UserResponse)
| TokenData (access_token token_type : pystr) (expires_in : Z) | HealthData (message : pystr).
Abbreviation api_reply := (Reply api_data).

Definition is_user_application_error (e : exn) : bool :=
  match e with UserNotFoundError _ | UserConflictError _ | ConcurrentUserUpdateError _ => true | _ => false end.
Definition is_user_boundary_error (e : exn) : bool :=
  is_user_application_error e || match e with InvalidUserDataError => true | _ => false end.

Section Endpoints.
Context {W : Type} `{UnicodeTables, UserUnitOfWork W, PasswordHasher W, UserServiceDeps W, FastApi, ExceptionText, Pydantic}.
Context (service_code : pystr) (context : option (pydict pystr)).

(** [raise HttpError(code, message)] *)
Definition http_error (c : CodeDefinition) (message : option pystr) (data : option pyval) (headers : option (pydict pystr)) : exn :=
  match HttpError_new c message data headers with Ok e | Err e => e end.

(** [user_error_to_http]: the exception that leaves the endpoint. *)
Definition user_error_to_http (e : exn) : exn :=
  match e with
  | UserNotFoundError _ => http_error (user_error_code USER_NOT_FOUND) None None None
  | UserConflictError f =>
      http_error (user_error_code match f with FieldUsername => USERNAME_CONFLICT | FieldEmail => EMAIL_CONFLICT end) None None None
  | ConcurrentUserUpdateError _ => http_error (user_error_code CONCURRENT_UPDATE) None None None
  | InvalidUserDataError => http_error (user_error_code INVALID_USER_DATA) (Some (exc_str e)) None None
  | _ => TypeError
  end.

(** [try: m except caught as error: raise user_error_to_http(error)] *)
Definition at_boundary {A} (caught : exn → bool) (to_http : exn → exn) (m : io W A) : io W A :=
  catch m (λ e, if caught e then raise (to_http e) else raise e).

Definition json_reply (status : Z) (code : SuccessCode) (data : api_data) : result exn api_reply :=
  let? payload := json_success service_code context data (success_code code) None None in
  Ok (mk_reply status [] (SuccessBody payload)).
Definition user_reply (status : Z) (code : SuccessCode) (x : UserDTO) : result exn api_reply :=
  json_reply status code (UserData (UserResponse_from_dto x)).
Definition no_content : api_reply := mk_reply 204 [] NoBody.

(** FastAPI validates the body before the endpoint runs. *)
Definition with_body {A} (validated : option A) (body : pyval) (k : A → io W api_reply) : io W api_reply :=
  match validated with Some p => k p | None => raise (RequestValidationError (body_errors body)) end.

Definition create_user (body : pyval) : io W api_reply :=
  with_body (CreateUserRequest_validate body) body (λ p,
    let* x := at_boundary is_user_boundary_error user_error_to_http
                (service_create (mk_create_cmd (cq_username p) (cq_email p) (cq_password p))) in
    lift (user_reply 201 CREATED x)).
Definition list_users (p : PageParams) : io W api_reply :=
  if PageParams_ok p then
    let* page := service_list (page_offset p) (pp_limit p) in
    lift (json_reply 200 OK (PageData (build_page_response (pg_items page) (pg_total page) p UserResponse_from_dto)))
  else raise (RequestValidationError (page_errors (pp_page p) (pp_limit p))).
Definition get_user (user_id : uuid) : io W api_reply :=
  let* x := at_boundary is_user_application_error user_error_to_http (service_get user_id) in
  lift (user_reply 200 OK x).
Definition update_user (user_id : uuid) (body : pyval) : io W api_reply :=
  with_body (UpdateUserRequest_validate body) body (λ p,
    let* x := at_boundary is_user_boundary_error user_error_to_http
                (service_update (mk_update_cmd user_id (uq_username p) (uq_email p))) in
    lift (user_reply 200 OK x)).
Definition change_user_status (user_id : uuid) (body : pyval) : io W api_reply :=
  with_body (ChangeUserStatusRequest_validate body) body (λ st,
    let* x := at_boundary is_user_boundary_error user_error_to_http
                (service_change_status (mk_status_cmd user_id st)) in
    lift (user_reply 200 OK x)).
Definition reset_user_password (user_id : uuid) (body : pyval) : io W api_reply :=
  with_body (ResetUserPasswordRequest_validate body) body (λ password,
    let* x := at_boundary is_user_boundary_error user_error_to_http
                (service_reset_password (mk_reset_cmd user_id password)) in
    ret no_content).
Definition delete_user (user_id : uuid) : io W api_reply :=
  let* x := at_boundary is_user_application_error user_error_to_http (service_delete user_id) in
  ret no_content.
(** [routes/register.py] *)
Definition health : io W api_reply := lift (json_reply 200 OK (HealthData (u "ok"))).

Inductive user_request :=
| CreateUser (body : pyval) | ListUsers (p : PageParams) | GetUser (user_id : uuid)
| UpdateUser (user_id : uuid) (body : pyval) | ChangeStatus (user_id : uuid) (body : pyval)
| ResetPassword (user_id : uuid) (body : pyval) | DeleteUser (user_id : uuid) | Health.
Definition endpoint (q : user_request) : io W api_reply :=
  match q with
  | CreateUser body => create_user body
  | ListUsers p => list_users p
  | GetUser i => get_user i
  | UpdateUser i body => update_user i body
  | ChangeStatus i body => change_user_status i body
  | ResetPassword i body => reset_user_password i body
  | DeleteUser i => delete_user i
  | Health => health
  end.

(** [register_exception_handlers]: exceptions become replies, base exceptions pass. *)
Definition serve (m : io W api_reply) : io W api_reply :=
  catch m (λ e, if is_exception e then lift (render_exception service_code context e) else raise e).
End Endpoints.

(** ** What a request is answered with *)

Section Spec.
Context {UT : UnicodeTables} {FA : FastApi} {EX : ExceptionText} {PY : Pydantic}.
Context (service_code : pystr) (context : option (pydict pystr)) (R : relation Store).
Abbreviation rid := (resolve_request_id context None).

Definition success_reply (status : Z) (code : SuccessCode) (data : api_data) : api_reply :=
  mk_reply status [] (SuccessBody (mk_json (build service_code (success_code code)) true (rc_message (success_code code)) (Some data) rid)).
Definition problem_reply (c : CodeDefinition) (message : pystr) (data : option pyval) (headers : pydict pystr) : api_reply :=
  mk_reply (rc_status_code c) headers (ErrorBody (mk_json (build service_code c) false message data rid)).
Definition validation_reply (errors : list field_error) : api_reply :=
  problem_reply (error_code VALIDATION_ERROR) (rc_message (error_code VALIDATION_ERROR)) (Some (build_validation_data errors)) [].
Definition internal_reply : api_reply := mk_reply 500 [] (internal_body service_code context 500).

(** The code and the message of each error of the user context. *)
Definition user_problem (e : exn) : option (CodeDefinition * pystr) :=
  match e with
  | UserNotFoundError _ => Some (user_error_code USER_NOT_FOUND, rc_message (user_error_code USER_NOT_FOUND))
  | UserConflictError FieldUsername => Some (user_error_code USERNAME_CONFLICT, rc_message (user_error_code USERNAME_CONFLICT))
  | UserConflictError FieldEmail => Some (user_error_code EMAIL_CONFLICT, rc_message (user_error_code EMAIL_CONFLICT))
  | ConcurrentUserUpdateError _ => Some (user_error_code CONCURRENT_UPDATE, rc_message (user_error_code CONCURRENT_UPDATE))
  | InvalidUserDataError => Some (user_error_code INVALID_USER_DATA, exc_str e)
  | _ => None
  end.

Section Outcomes.
Context {A : Type} (reply_of : A → api_reply).

(** Refused for a reason [X] that held in a state [s], or failed inside. *)
Definition refused (X : exn → Store → Prop) (d : Store) (reply : api_reply) : Prop :=
  ∃ e s c message, R d s ∧ X e s ∧ user_problem e = Some (c, message) ∧ reply = problem_reply c message None [].

(** The answer to a writing request: the effect was committed and the reply shows
    it; or nothing was, and the reply names the reason; or the reply is the
    generic one, and an effect was committed only if closing failed after it. *)
Definition write_reply (Q : A → Store → Store → Prop) X (d : Store) (r : result exn api_reply) (d' : Store) : Prop :=
  match r with
  | Ok reply =>
      (∃ a, reply = reply_of a ∧ committed_effect R Q a d d')
      ∨ (R d d' ∧ refused X d reply)
      ∨ (reply = internal_reply ∧ (R d d' ∨ ∃ a, committed_effect R Q a d d'))
  | Err e => is_exception e = false ∧ foreign e = true ∧ (R d d' ∨ ∃ a, committed_effect R Q a d d')
  end.
Definition read_reply (P : A → Store → Prop) X (d : Store) (r : result exn api_reply) (d' : Store) : Prop :=
  R d d' ∧
  match r with
  | Ok reply => (∃ a s, reply = reply_of a ∧ R d s ∧ P a s) ∨ refused X d reply ∨ reply = internal_reply
  | Err e => is_exception e = false ∧ foreign e = true
  end.
End Outcomes.

Definition shows (status : Z) (code : SuccessCode) (x : UserDTO) : api_reply :=
  success_reply status code (UserData (UserResponse_from_dto x)).

(** The page [p] of the users in page order at one state, with the number of
    users at an earlier one. *)
Definition shows_page (p : PageParams) (d : Store) (reply : api_reply) : Prop :=
  ∃ s0 s1 page, R d s0 ∧ R s0 s1 ∧ page_of s1 (page_offset p) (pp_limit p) page ∧
    reply = success_reply 200 OK (PageData (mk_page_response (map (λ x, UserResponse_from_dto (UserDTO_from_domain x)) page)
      (mk_page_meta (pp_page p) (pp_limit p) (Z.of_nat (size (st_users s0)))
         (calculate_total_pages (Z.of_nat (size (st_users s0))) (pp_limit p))))).

(** A request whose body was not accepted is answered at once. *)
Definition validated {A} (body : pyval) (request : option A) (d : Store) (r : result exn api_reply) (d' : Store)
    (k : A → Prop) : Prop :=
  match request with Some p => k p | None => r = Ok (validation_reply (body_errors body)) ∧ d' = d end.

Definition user_api_spec (q : user_request) (d : Store) (r : result exn api_reply) (d' : Store) : Prop :=
  match q with
  | CreateUser body => validated body (CreateUserRequest_validate body) d r d' (λ p,
      let c := mk_create_cmd (cq_username p) (cq_email p) (cq_password p) in
      write_reply (shows 201 CREATED) (create_effect c) (create_cause R c) d r d')
  | ListUsers p =>
      if PageParams_ok p then R d d' ∧
        match r with
        | Ok reply => shows_page p d reply ∨ reply = internal_reply
        | Err e => is_exception e = false ∧ foreign e = true
        end
      else r = Ok (validation_reply (page_errors (pp_page p) (pp_limit p))) ∧ d' = d
  | GetUser i => read_reply (shows 200 OK)
      (λ x s, ∃ row, st_users s !! mk_user_id i = Some row ∧ x = UserDTO_from_domain row) (lookup_cause R no_write i) d r d'
  | UpdateUser i body => validated body (UpdateUserRequest_validate body) d r d' (λ p,
      let c := mk_update_cmd i (uq_username p) (uq_email p) in
      write_reply (shows 200 OK) (update_effect c) (update_cause R c) d r d')
  | ChangeStatus i body => validated body (ChangeUserStatusRequest_validate body) d r d' (λ st,
      write_reply (shows 200 OK) (status_effect R (mk_status_cmd i st)) (status_cause R (mk_status_cmd i st)) d r d')
  | ResetPassword i body => validated body (ResetUserPasswordRequest_validate body) d r d' (λ password,
      let c := mk_reset_cmd i password in
      write_reply (λ _, no_content) (reset_effect R c) (reset_cause R c) d r d')
  | DeleteUser i => write_reply (λ _, no_content) (delete_effect i) (delete_cause R i) d r d'
  | Health => r = Ok (success_reply 200 OK (HealthData (u "ok"))) ∧ d' = d
  end.
End Spec.

#[local] Opaque txt.

Section ApiTheorems.
Context {W : Type} {T : UnicodeTables} {TL : UnicodeLaws} {U : UserUnitOfWork W}
  {R : relation Store} {L : UowLaws W R} {PH : PasswordHasher W} {SD : UserServiceDeps W}
  {SL : ServiceLaws W} {FA : FastApi} {EX : ExceptionText} {PY : Pydantic}.
Context (service_code : pystr) (context : option (pydict pystr)).
Abbreviation serve_ := (serve service_code context).
Abbreviation refused_ := (refused service_code context R).
Abbreviation write_reply_ := (write_reply service_code context R).
Abbreviation read_reply_ := (read_reply service_code context R).

Lemma foreign_rendered e : foreign e = true → is_exception e = true →
  render_exception service_code context e = Ok (internal_reply service_code context).
Proof.
  intros Hf _. assert (Hr : render_exception service_code context e = handle_unexpected_exception service_code context (T := api_data))
    by (by destruct e). rewrite Hr. unfold handle_unexpected_exception. by rewrite render_error_ok.
Qed.

Lemma user_problem_rendered e c m : user_problem e = Some (c, m) →
  is_exception (user_error_to_http e) = true ∧
  render_exception service_code context (user_error_to_http e) = Ok (problem_reply service_code context c m None []).
Proof.
  intros Hp. destruct e; try discriminate Hp; try (destruct field0); cbn [user_problem] in Hp; injection Hp as <- <-;
    cbn [user_error_to_http http_error HttpError_new user_error_code rc_status_code guard result_bind Z.leb Z.compare Pos.compare
      Pos.compare_cont render_exception handle_http_error is_exception default from_option rc_message];
    (split; [done |]); by rewrite render_error_ok.
Qed.

Lemma user_problem_boundary e p : user_problem e = Some p → is_user_boundary_error e = true.
Proof. by destruct e. Qed.
Lemma foreign_not_boundary e : foreign e = true → is_user_boundary_error e = false.
Proof. by destruct e. Qed.

(** The errors an operation is caught for are those with a code. *)
Definition covers (caught : exn → bool) (X : exn → Store → Prop) : Prop :=
  ∀ e s, X e s → caught e = true ∧ is_Some (user_problem e).

(** How the outcome of a service call ends as a reply. *)
Definition served {A} (caught : exn → bool) (to_http : exn → exn) (f : A → api_reply) (r : result exn A) : result exn api_reply :=
  match r with
  | Ok a => Ok (f a)
  | Err e =>
      let e := if caught e then to_http e else e in
      if is_exception e then render_exception service_code context e else Err e
  end.

Lemma wp_served {A} (m : io W A) caught to_http (f : A → result exn api_reply) reply_of Φ w :
  (∀ a, f a = Ok (reply_of a)) →
  wp m (λ r w', Φ (served caught to_http reply_of r) w') w →
  wp (serve_ (let* a := at_boundary caught to_http m in lift (f a))) Φ w.
Proof.
  intros Hf. unfold wp, serve, at_boundary, catch, bind, lift, raise, served.
  destruct (m w) as [w' [a | e]]; [by rewrite Hf |].
  destruct (caught e); [destruct (is_exception (to_http e)) | destruct (is_exception e)]; done.
Qed.

Lemma served_foreign {A} caught (f : A → api_reply) e :
  (∀ e, caught e = true → is_user_boundary_error e = true) → foreign e = true →
  served caught user_error_to_http f (Err e) =
    if is_exception e then Ok (internal_reply service_code context) else Err e.
Proof.
  intros Hb He. unfold served. destruct (caught e) eqn:Hc.
  - apply Hb in Hc. by rewrite foreign_not_boundary in Hc.
  - destruct (is_exception e) eqn:Hex; [by apply foreign_rendered | done].
Qed.

Lemma served_problem {A} caught (f : A → api_reply) (X : exn → Store → Prop) e s d :
  covers caught X → R d s → X e s →
  ∃ reply, served caught user_error_to_http f (Err e) = Ok reply ∧ refused_ X d reply.
Proof.
  intros Hc Hs Hx. destruct (Hc e s Hx) as [Hcaught [[c m] Hp]]. unfold served. rewrite Hcaught.
  destruct (user_problem_rendered e c m Hp) as [-> ->]. eexists. split; [done |]. by exists e, s, c, m.
Qed.

Lemma serve_write {A} (m : io W A) f (reply_of : A → api_reply) caught Q X w d :
  (∀ a, f a = Ok (reply_of a)) → covers caught X → (∀ e, caught e = true → is_user_boundary_error e = true) →
  wp m (λ r w', ∃ d', idle w' d' ∧ outcome R Q X d r d') w →
  wp (serve_ (let* a := at_boundary caught user_error_to_http m in lift (f a)))
    (λ r w', ∃ d', idle w' d' ∧ write_reply_ reply_of Q X d r d') w.
Proof.
  intros Hf Hc Hb Hm. apply (wp_served _ _ _ _ reply_of); [done |]. eapply wp_mono; [exact Hm |]. cbv beta.
  intros r w' (d' & Hi & Ho). exists d'. split; [done |].
  assert (Hforeign : ∀ e, foreign e = true → (R d d' ∨ ∃ a, committed_effect R Q a d d') →
    write_reply_ reply_of Q X d (served caught user_error_to_http reply_of (Err e)) d').
  { intros e He Hd. rewrite served_foreign by done. destruct (is_exception e) eqn:Hex; [right; right; by split | by split_and!]. }
  destruct Ho as [Ho | (e & a & -> & He & Hcom)]; [| apply Hforeign; eauto].
  destruct r as [a | e]; [left; by exists a |]. destruct Ho as [Hd [He | (s & Hs & Hx)]]; [apply Hforeign; eauto |].
  destruct (served_problem caught reply_of X e s d Hc Hs Hx) as (reply & -> & Href). right; left. by split.
Qed.

Lemma serve_read {A} (m : io W A) f (reply_of : A → api_reply) caught P X w d :
  (∀ a, f a = Ok (reply_of a)) → covers caught X → (∀ e, caught e = true → is_user_boundary_error e = true) →
  wp m (λ r w', ∃ d', idle w' d' ∧ read_outcome R P X d r d') w →
  wp (serve_ (let* a := at_boundary caught user_error_to_http m in lift (f a)))
    (λ r w', ∃ d', idle w' d' ∧ read_reply_ reply_of P X d r d') w.
Proof.
  intros Hf Hc Hb Hm. apply (wp_served _ _ _ _ reply_of); [done |]. eapply wp_mono; [exact Hm |]. cbv beta.
  intros r w' (d' & Hi & Ho). exists d'. split; [done |]. destruct r as [a | e].
  - destruct Ho as (Hd & s & Hs & Hp). split; [done |]. left. by exists a, s.
  - destruct Ho as [Hd [He | (s & Hs & Hx)]]; (split; [done |]).
    + rewrite served_foreign by done. destruct (is_exception e) eqn:Hex; [by right; right | done].
    + destruct (served_problem caught reply_of X e s d Hc Hs Hx) as (reply & -> & Href). by right; left.
Qed.

Lemma serve_invalid errors (w : W) : serve_ (raise (RequestValidationError errors)) w = (w, Ok (validation_reply service_code context errors)).
Proof.
  unfold serve, catch, raise, lift. cbn [is_exception render_exception handle_request_validation_error].
  by rewrite render_error_ok.
Qed.

Lemma json_reply_ok status code data : json_reply service_code context status code data = Ok (success_reply service_code context status code data).
Proof. by destruct code. Qed.

Lemma caught_application e : is_user_application_error e = true → is_user_boundary_error e = true.
Proof. by destruct e. Qed.

Lemma serve_validated {A} (request : option A) body (k : A → io W api_reply) (K : A → result exn api_reply → Store → Prop) w d :
  idle w d → (∀ p, request = Some p → wp (serve_ (k p)) (λ r w', ∃ d', idle w' d' ∧ K p r d') w) →
  wp (serve_ (with_body request body k))
    (λ r w', ∃ d', idle w' d' ∧ validated service_code context body request d r d' (λ p, K p r d')) w.
Proof.
  intros Hi Hk. unfold with_body, validated. destruct request as [p |]; [by apply Hk |].
  apply wp_of_run. intros w' r. rewrite serve_invalid. intros [= <- <-]. by exists d.
Qed.

Lemma serve_list p w d : idle w d →
  wp (serve_ (list_users service_code context p))
    (λ r w', ∃ d', idle w' d' ∧ user_api_spec service_code context R (ListUsers p) d r d') w.
Proof.
  intros Hi. unfold list_users. cbn [user_api_spec]. destruct (PageParams_ok p) eqn:Hp.
  2:{ apply wp_of_run. intros w' r. rewrite serve_invalid. intros [= <- <-]. by exists d. }
  unfold wp, serve, catch, bind, lift. pose proof (service_list_correct (page_offset p) (pp_limit p) w d Hi) as Hl.
  unfold wp in Hl. destruct (service_list (page_offset p) (pp_limit p) w) as [w' [page | e]];
    destruct Hl as (d' & Hi' & Hd & Hr).
  - rewrite json_reply_ok. exists d'. split_and!; [done | done |]. left.
    destruct Hr as (s0 & s1 & rows & H0 & H1 & Hpage & ->). exists s0, s1, rows. split_and!; [done.. |].
    unfold build_page_response. cbn [pg_items pg_total]. by rewrite map_map.
  - destruct (is_exception e) eqn:He; cbn.
    + exists d'. split_and!; [done | done |]. assert (Hin : render_exception service_code context e = Ok (internal_reply service_code context)).
      { destruct Hr as [Hf | (s & _ & f & -> & _)]; [by apply foreign_rendered |].
        unfold render_exception, handle_unexpected_exception. by rewrite render_error_ok. }
      rewrite Hin. by right.
    + exists d'. split_and!; [done | done | done |]. destruct Hr as [Hf | (s & _ & f & -> & _)]; [done | by destruct f].
Qed.

(** The causes of a failing operation have a code. *)
Ltac coded := repeat match goal with f : conflict_field |- _ => destruct f end; (split; [done | by eexists]).
Lemma covers_create c : covers is_user_boundary_error (create_cause R c).
Proof. intros e s [(f & -> & _) | [[-> _] | [-> _]]]; coded. Qed.
Lemma covers_update c : covers is_user_boundary_error (update_cause R c).
Proof. intros e s [(f & -> & _) | [[-> _] | [(-> & _) | [-> _]]]]; coded. Qed.
Lemma covers_row own i : covers is_user_boundary_error (row_cause R own i).
Proof. intros e s [(f & -> & _) | [[-> _] | (-> & _)]]; coded. Qed.
Lemma covers_reset c : covers is_user_boundary_error (reset_cause R c).
Proof. intros e s [Hs | [-> _]]; [by eapply covers_row | coded]. Qed.
Lemma covers_lookup own i : covers is_user_application_error (lookup_cause R own i).
Proof. intros e s [(f & -> & _) | [-> _]]; coded. Qed.

End ApiTheorems.

(** ** Pages *)

Definition page_slice {A} (all : list A) (p : PageParams) : list A :=
  take (Z.to_nat (pp_limit p)) (drop (Z.to_nat (page_offset p)) all).

Lemma page_slices {A} (all : list A) limit (m : nat) (j : Z) : (1 ≤ limit)%Z → (0 ≤ j)%Z →
  concat (map (λ n, page_slice all (mk_page_params n limit)) (seqZ (j + 1) (Z.of_nat m))) =
    take (m * Z.to_nat limit) (drop (Z.to_nat (j * limit)) all).
Proof.
  intros Hl. revert j. induction m as [| m IH]; intros j Hj; [done |].
  rewrite Nat2Z.inj_succ, (seqZ_cons (j + 1)) by lia. cbn [map concat].
  replace (Z.succ (j + 1)) with ((j + 1) + 1)%Z by lia. rewrite Z.pred_succ, IH by lia.
  unfold page_slice, page_offset. cbn [pp_page pp_limit]. replace (j + 1 - 1)%Z with j by lia.
  replace (S m * Z.to_nat limit) with (Z.to_nat limit + m * Z.to_nat limit) by lia.
  rewrite <- take_take_drop, drop_drop. do 3 f_equal. lia.
Qed.

Lemma total_pages_spec total limit : (0 ≤ total)%Z → (1 ≤ limit)%Z →
  let n := calculate_total_pages total limit in (0 ≤ n ∧ total ≤ n * limit ∧ (n - 1) * limit < total ∨ n = 0 ∧ total = 0)%Z.
Proof.
  intros Ht Hl. cbv zeta. unfold calculate_total_pages.
  pose proof (Z.div_mod (total + limit - 1) limit ltac:(lia)) as Hd.
  pose proof (Z.mod_pos_bound (total + limit - 1) limit ltac:(lia)) as Hm.
  pose proof (Z.div_pos (total + limit - 1) limit ltac:(lia) ltac:(lia)) as Hp.
  left. split; [done |]. split; nia.
Qed.

(** The pages cover everything once.  For any limit, the pages from the first
    to [total_pages], put together, are all the rows in order, so no row is
    skipped or shown twice; and exactly the pages up to [total_pages] have rows. *)
Theorem pages_partition {A} (all : list A) limit :
  (1 ≤ limit)%Z →
  let pages := calculate_total_pages (Z.of_nat (length all)) limit in
  concat (map (λ n, page_slice all (mk_page_params n limit)) (seqZ 1 pages)) = all ∧
  ∀ n, (1 ≤ n)%Z → page_slice all (mk_page_params n limit) ≠ [] ↔ (n ≤ pages)%Z.
Proof.
  intros Hl. cbv zeta. pose proof (total_pages_spec (Z.of_nat (length all)) limit ltac:(lia) Hl) as Hp. cbv zeta in Hp.
  set (pages := calculate_total_pages _ limit) in *. assert (H0 : (0 ≤ pages)%Z) by lia. split.
  - pose proof (page_slices all limit (Z.to_nat pages) 0 Hl ltac:(lia)) as Hs. rewrite Z2Nat.id in Hs by done.
    change (0 + 1)%Z with 1%Z in Hs. rewrite Hs. cbn [Z.mul]. rewrite drop_0. apply take_ge. nia.
  - intros n Hn. unfold page_slice, page_offset. cbn [pp_page pp_limit].
    assert (Hlen : length (take (Z.to_nat limit) (drop (Z.to_nat ((n - 1) * limit)) all)) ≠ 0 ↔ (n ≤ pages)%Z).
    { rewrite length_take, length_drop. split; intros H; nia. }
    rewrite <- Hlen. destruct (take _ _); cbn; split; done || lia.
Qed.

Lemma pages_partition_witness :
  page_slice [1; 2; 3; 4; 5] (mk_page_params 3 2) = [5] ∧
  concat (map (λ n, page_slice [1; 2; 3; 4; 5] (mk_page_params n 2)) (seqZ 1 3)) = [1; 2; 3; 4; 5].
Proof.
  split; [vm_compute; reflexivity |].
  destruct (pages_partition [1; 2; 3; 4; 5] 2) as [Hall _]; [lia | exact Hall].
Defined.

(** ** A concrete request *)

Section Demo.
#[local] Instance demo_text : ExceptionText := { exc_str _ := u "invalid" }.
#[local] Instance demo_pydantic : Pydantic := { body_errors _ := []; page_errors _ _ := [] }.
#[local] Existing Instance demo_fastapi.
Definition demo_body : pyval := VDict [(VStr (u "username"), VStr (u " Bob ")); (VStr (u "email"), VStr (u "bob@example.org"));
  (VStr (u "password"), VStr (u "long password"))].

Definition reply_status (r : result exn api_reply) : option Z := match r with Ok reply => Some (rp_status reply) | Err _ => None end.
End Demo.
