(* ===== verification/HttpAuth.v ===== *)
(** * HttpAuth: the authentication endpoints over the authentication service

    Models [interfaces/http/controllers/v1/auth]: the login request, the Bearer
    credential, the mapping of authentication errors with their headers, the
    three endpoints over the programs of [AuthService], and the publication of
    the login job after the response.  The parsing of the [Authorization] header
    is FastAPI's: the endpoints get the credentials it found, if any. *)

From S2P Require Import Prelude Text PyVal Errors Decimal UserDomain UserContracts UserPersistence UserRefinement UserMemory UserService AuthService HttpResponse HttpUsers.
Local Open Scope prog_scope.

Record LoginRequest := mk_login_request { lq_username : pystr; lq_password : pystr }.
Definition LoginRequest_validate (body : pyval) : option LoginRequest :=
  l ← body_fields body;
  if only_fields ["username"; "password"] l then
    username ← (v ← field "username" l; text_between 1 128 v);
    password ← (v ← field "password" l; text_between 1 1024 v);
    Some (mk_login_request username password)
  else None.

Definition is_auth_application_error (e : exn) : bool :=
  match e with
  | InvalidCredentialsError _ | LoginTemporarilyLockedError _ | AuthenticationRequiredError => true
  | _ => false
  end.

Definition no_store : pystr * pystr := (u "Cache-Control", u "no-store").
Definition challenge : pystr * pystr := (u "WWW-Authenticate", u "Bearer").

(** [auth_error_to_http] *)
Definition locked_message (seconds : Z) : pystr :=
  txt "登录失败次数过多，已临时锁定，请在 " ++ str_int seconds ++ txt " 秒后重试".
Definition credentials_message (remaining : option Z) : pystr :=
  rc_message (auth_error_code INVALID_CREDENTIALS) ++
  match remaining with Some n => txt "，还可尝试 " ++ str_int n ++ txt " 次" | None => [] end.
Definition int_data (name : string) (n : Z) : pyval := VDict [(VStr (u name), VInt n)].
Definition auth_error_to_http (e : exn) : exn :=
  match e with
  | LoginTemporarilyLockedError seconds =>
      http_error (auth_error_code LOGIN_TEMPORARILY_LOCKED) (Some (locked_message seconds))
        (Some (int_data "retry_after_seconds" seconds)) (Some [(u "Retry-After", str_int seconds); no_store])
  | InvalidCredentialsError remaining =>
      http_error (auth_error_code INVALID_CREDENTIALS) (Some (credentials_message remaining))
        (int_data "remaining_attempts" <$> remaining) (Some [challenge; no_store])
  | AuthenticationRequiredError => http_error (error_code UNAUTHORIZED) None None (Some [challenge; no_store])
  | _ => TypeError
  end.

Section Endpoints.
Context {W : Type} `{UnicodeTables, UserUnitOfWork W, PasswordHasher W, UserServiceDeps W, SessionTokenCodec W, FastApi, Pydantic}.
Context (session_ttl_seconds : Z) (login_attempts : option (LoginAttemptLimiter W)).
Context (service_code : pystr) (context : option (pydict pystr)).

(** [provide_session_credential] *)
Definition provide_session_credential (authorization : option pystr) : result exn SessionCredential :=
  match (match authorization with
         | None => Err AuthenticationRequiredError
         | Some token => SessionCredential_new (mk_credential token)
         end) with
  | Ok c => Ok c
  | Err AuthenticationRequiredError => Err (auth_error_to_http AuthenticationRequiredError)
  | Err e => Err e
  end.

Definition token_reply (t : TokenDTO) : result exn api_reply :=
  let? reply := json_reply service_code context 200 OK (TokenData (tk_access_token t) (u "bearer") (tk_expires_in t)) in
  Ok (mk_reply (rp_status reply) [no_store] (rp_body reply)).
Definition me_reply (x : UserDTO) : result exn api_reply :=
  let? reply := user_reply service_code context 200 OK x in
  Ok (mk_reply (rp_status reply) [no_store] (rp_body reply)).
Definition logout_reply : api_reply := mk_reply 204 [no_store] NoBody.

(** The reply and the user whose login is published after it. *)
Definition login_endpoint (body : pyval) : io W (api_reply * option uuid) :=
  match LoginRequest_validate body with
  | None => raise (RequestValidationError (body_errors body))
  | Some p =>
      let* t := at_boundary is_auth_application_error auth_error_to_http
                  (let* c := lift (LoginCommand_new (mk_login_cmd (lq_username p) (lq_password p))) in
                   login session_ttl_seconds login_attempts c) in
      let* reply := lift (token_reply t) in
      ret (reply, Some (tk_user_id t))
  end.
Definition me_endpoint (authorization : option pystr) : io W api_reply :=
  let* credential := lift (provide_session_credential authorization) in
  let* x := at_boundary is_auth_application_error auth_error_to_http (current_user credential) in
  lift (me_reply x).
Definition logout_endpoint (authorization : option pystr) : io W api_reply :=
  let* credential := lift (provide_session_credential authorization) in
  logout credential;;; ret logout_reply.

Inductive auth_request := Login (body : pyval) | Me (authorization : option pystr) | Logout (authorization : option pystr).
Definition auth_endpoint (q : auth_request) : io W (api_reply * option uuid) :=
  match q with
  | Login body => login_endpoint body
  | Me a => let* reply := me_endpoint a in ret (reply, None)
  | Logout a => let* reply := logout_endpoint a in ret (reply, None)
  end.
Definition serve_auth (m : io W (api_reply * option uuid)) : io W (api_reply * option uuid) :=
  catch m (λ e, if is_exception e then let* reply := lift (render_exception service_code context e) in ret (reply, None) else raise e).

(** [_publish_login_succeeded] and the order of a background task: the response
    is sent first; a failure of the queue is only logged. *)
Definition publish_login_succeeded (dispatch : uuid → io W unit) (user_id : uuid) : io W unit :=
  catch (dispatch user_id) (λ e, if is_queue_error e then ret tt else raise e).
Definition exchange (dispatch : uuid → io W unit) (send : api_reply → io W unit) (q : auth_request) : io W unit :=
  let* answer := serve_auth (auth_endpoint q) in
  send (fst answer);;;
  match snd answer with Some user_id => publish_login_succeeded dispatch user_id | None => ret tt end.
End Endpoints.

(** ** What a request is answered with *)

Section Spec.
Context {W : Type} {UT : UnicodeTables} {PH : PasswordHasher W} {TK : SessionTokenCodec W} {FA : FastApi} {PY : Pydantic}.
Context (ttl : Z) (service_code : pystr) (context : option (pydict pystr)) (R : relation Store).
Abbreviation problem := (problem_reply service_code context).

Definition auth_problem (e : exn) : option api_reply :=
  match e with
  | LoginTemporarilyLockedError n =>
      Some (problem (auth_error_code LOGIN_TEMPORARILY_LOCKED) (locked_message n) (Some (int_data "retry_after_seconds" n))
              [(u "Retry-After", str_int n); no_store])
  | InvalidCredentialsError n =>
      Some (problem (auth_error_code INVALID_CREDENTIALS) (credentials_message n) (int_data "remaining_attempts" <$> n) [challenge; no_store])
  | AuthenticationRequiredError =>
      Some (problem (error_code UNAUTHORIZED) (rc_message (error_code UNAUTHORIZED)) None [challenge; no_store])
  | _ => None
  end.
Definition with_no_store (reply : api_reply) : api_reply := mk_reply (rp_status reply) [no_store] (rp_body reply).
Definition shows_token (t : TokenDTO) : api_reply :=
  with_no_store (success_reply service_code context 200 OK (TokenData (tk_access_token t) (u "bearer") (tk_expires_in t))).

Definition login_committed (p : LoginRequest) (d : Store) (t : TokenDTO) (s1 s2 : Store) : Prop :=
  ∃ n, Username_new (lq_username p) = Ok n ∧ login_done (R := R) ttl (mk_login_cmd (lq_username p) (lq_password p)) n d t s1 s2.

Definition login_spec (p : LoginRequest) (d : Store) (r : result exn (api_reply * option uuid)) (d' : Store) : Prop :=
  let committed t := committed_effect R (login_committed p d) t d d' in
  match r with
  | Ok (reply, Some user_id) => ∃ t, committed t ∧ reply = shows_token t ∧ user_id = tk_user_id t
  | Ok (reply, None) =>
      (R d d' ∧ ∃ e, rejection e ∧ auth_problem e = Some reply)
      ∨ (reply = internal_reply service_code context ∧ (R d d' ∨ ∃ t, committed t))
  | Err e => is_exception e = false ∧ foreign e = true ∧ (R d d' ∨ ∃ t, committed t)
  end.

(** A credential that is missing or malformed is refused at once. *)
Definition with_credential (authorization : option pystr) (d : Store) (r : result exn (api_reply * option uuid)) (d' : Store)
    (k : SessionCredential → Prop) : Prop :=
  match SessionCredential_new (mk_credential (default [] authorization)) with
  | Ok c => k c
  | Err _ => ∃ reply, r = Ok (reply, None) ∧ auth_problem AuthenticationRequiredError = Some reply ∧ d' = d
  end.

Definition auth_api_spec (q : auth_request) (d : Store) (r : result exn (api_reply * option uuid)) (d' : Store) : Prop :=
  match q with
  | Login body =>
      match LoginRequest_validate body with
      | None => r = Ok (validation_reply service_code context (body_errors body), None) ∧ d' = d
      | Some p =>
          login_spec p d r d'
      end
  | Me a => with_credential a d r d' (λ c, R d d' ∧
      match r with
      | Ok (reply, job) => job = None ∧
          ((∃ x s, R d s ∧ session_accepted (R := R) c d x s ∧ reply = with_no_store (shows service_code context 200 OK x))
           ∨ (∃ s, R d s ∧ session_refused (R := R) c AuthenticationRequiredError s ∧ auth_problem AuthenticationRequiredError = Some reply)
           ∨ reply = internal_reply service_code context)
      | Err e => is_exception e = false ∧ foreign e = true
      end)
  | Logout a => with_credential a d r d' (λ c,
      let committed := committed_effect R (λ (_ : unit) s1 s2, s2 = set_sessions (delete (tc_digest c)) s1) tt d d' in
      match r with
      | Ok (reply, job) => job = None ∧
          (reply = logout_reply ∧ committed ∨ reply = internal_reply service_code context ∧ (R d d' ∨ committed))
      | Err e => is_exception e = false ∧ foreign e = true ∧ (R d d' ∨ committed)
      end)
  end.
End Spec.

#[local] Opaque txt.

Section AuthApiTheorems.
Context {W : Type} {T : UnicodeTables} {TL : UnicodeLaws} {U : UserUnitOfWork W}
  {R : relation Store} {L : UowLaws W R} {PH : PasswordHasher W} {SD : UserServiceDeps W}
  {SL : ServiceLaws W} {TK : SessionTokenCodec W} {FA : FastApi} {PY : Pydantic}.
Context (ttl : Z) (lim : option (LoginAttemptLimiter W)) {AL : AuthLaws W lim}.
Context (service_code : pystr) (context : option (pydict pystr)).
Abbreviation internal := (internal_reply service_code context).

Lemma auth_problem_rendered e reply : auth_problem service_code context e = Some reply →
  is_auth_application_error e = true ∧ is_exception (auth_error_to_http e) = true ∧
  render_exception service_code context (auth_error_to_http e) = Ok reply.
Proof.
  intros Hp. destruct e; try discriminate Hp; cbn [auth_problem] in Hp; injection Hp as <-;
    cbn [auth_error_to_http http_error HttpError_new auth_error_code error_code rc_status_code guard result_bind Z.leb Z.compare
      Pos.compare Pos.compare_cont render_exception handle_http_error is_exception default from_option rc_message];
    (split; [done |]); (split; [done |]); rewrite render_error_ok by done; done.
Qed.
Lemma foreign_not_auth e : foreign e = true → is_auth_application_error e = false.
Proof. by destruct e. Qed.
Lemma rejection_problem e : rejection e → is_Some (auth_problem service_code context e).
Proof. intros [[n ->] | [n ->]]; by eexists. Qed.

(** How the outcome of a service call ends as an answer. *)
Definition answered {A} (caught : exn → bool) (f : A → api_reply * option uuid) (r : result exn A) : result exn (api_reply * option uuid) :=
  match r with
  | Ok a => Ok (f a)
  | Err e =>
      let e := if caught e then auth_error_to_http e else e in
      if is_exception e then
        match render_exception service_code context e with Ok reply => Ok (reply, None) | Err e => Err e end
      else Err e
  end.

Lemma wp_answered {A} (m : io W A) caught (k : A → io W (api_reply * option uuid)) f Φ w :
  (∀ a w, k a w = (w, Ok (f a))) →
  wp m (λ r w', Φ (answered caught f r) w') w →
  wp (serve_auth service_code context (let* a := at_boundary caught auth_error_to_http m in k a)) Φ w.
Proof.
  intros Hk. unfold wp, serve_auth, at_boundary, catch, bind, lift, raise, ret, answered.
  destruct (m w) as [w' [a | e]]; [by rewrite Hk |].
  destruct (caught e); [destruct (is_exception (auth_error_to_http e)) | destruct (is_exception e)]; try done;
    by destruct (render_exception service_code context _).
Qed.

Lemma answered_foreign {A} caught (f : A → api_reply * option uuid) e : foreign e = true → caught e = false →
  answered caught f (Err e) = if is_exception e then Ok (internal, None) else Err e.
Proof.
  intros He Hc. unfold answered. rewrite Hc. destruct (is_exception e) eqn:Hex; [| done]. by rewrite foreign_rendered.
Qed.
Lemma answered_conflict {A} caught (f : A → api_reply * option uuid) e s : reported_conflict R e s → caught e = false →
  answered caught f (Err e) = Ok (internal, None).
Proof.
  intros (x & -> & _) Hc. unfold answered. rewrite Hc. cbn [is_exception].
  assert (Hr : render_exception service_code context (UserConflictError x) = Ok internal).
  { unfold render_exception, handle_unexpected_exception. by rewrite render_error_ok. }
  by rewrite Hr.
Qed.
Lemma answered_problem {A} caught (f : A → api_reply * option uuid) e reply :
  auth_problem service_code context e = Some reply → caught e = true → answered caught f (Err e) = Ok (reply, None).
Proof.
  intros Hp Hc. destruct (auth_problem_rendered e reply Hp) as (_ & He & Hr). unfold answered. by rewrite Hc, He, Hr.
Qed.

Lemma serve_credential authorization (k : SessionCredential → io W (api_reply * option uuid)) (m : io W (api_reply * option uuid))
    (K : SessionCredential → result exn (api_reply * option uuid) → Store → Prop) w d :
  idle w d → prog_eq m (let* c := lift (provide_session_credential authorization) in k c) →
  (∀ c, wp (serve_auth service_code context (k c)) (λ r w', ∃ d', idle w' d' ∧ K c r d') w) →
  wp (serve_auth service_code context m)
    (λ r w', ∃ d', idle w' d' ∧ with_credential service_code context authorization d r d' (λ c, K c r d')) w.
Proof.
  intros Hi Hm Hk. unfold wp, serve_auth, catch. rewrite (Hm w). unfold bind, lift, with_credential, provide_session_credential.
  assert (Hnone : SessionCredential_new (mk_credential []) = Err AuthenticationRequiredError) by (vm_compute; reflexivity).
  assert (Herr : ∀ x e, SessionCredential_new x = Err e → e = AuthenticationRequiredError).
  { unfold SessionCredential_new, guard, result_bind. intros x e. case_bool; congruence. }
  assert (Hrefused : ∃ reply, auth_problem service_code context AuthenticationRequiredError = Some reply) by by eexists.
  destruct Hrefused as [reply Hreply]. destruct (auth_problem_rendered _ _ Hreply) as (_ & He & Hr).
  destruct authorization as [token |]; cbn [default from_option].
  - change (id token) with token.
    destruct (SessionCredential_new (mk_credential token)) as [c | e] eqn:Hc.
    + specialize (Hk c). unfold wp, serve_auth, catch, bind, lift in Hk. exact Hk.
    + apply Herr in Hc as ->. rewrite He, Hr. cbn. exists d. split; [done |]. by exists reply.
  - rewrite Hnone, He, Hr. cbn. exists d. split; [done |]. by exists reply.
Qed.

Abbreviation login_answer := (answered is_auth_application_error (λ t, (shows_token service_code context t, Some (tk_user_id t)))).

Lemma login_answered p d r d' : outcome R (login_committed ttl R p d) (login_cause R) d r d' →
  login_spec ttl service_code context R p d (login_answer r) d'.
Proof.
  assert (Hfor : ∀ e, foreign e = true → (R d d' ∨ ∃ t, committed_effect R (login_committed ttl R p d) t d d') →
    login_spec ttl service_code context R p d (login_answer (Err e)) d').
  { intros e He Hd. rewrite answered_foreign by (done || by apply foreign_not_auth).
    destruct (is_exception e) eqn:Hex; [by right | by split_and!]. }
  intros [Ho | (e & t & -> & He & Ho)]; [| apply Hfor; eauto].
  destruct r as [t | e]; [by exists t |]. destruct Ho as [Hd [He | (s & Hs & [Hcon | Hre])]]; [apply Hfor; eauto | |].
  - erewrite answered_conflict by (done || by destruct Hcon as (? & -> & _)). right. split; [done | by left].
  - destruct (rejection_problem e Hre) as [reply Hreply].
    rewrite (answered_problem _ _ e reply Hreply) by (by apply auth_problem_rendered in Hreply as [? _]).
    left. split; [done |]. by exists e.
Qed.

Lemma login_call p w d : (0 < ttl)%Z → fresh_tokens d → idle w d →
  wp (let* c := lift (LoginCommand_new (mk_login_cmd (lq_username p) (lq_password p))) in login ttl lim c)%prog
    (λ r w', ∃ d', idle w' d' ∧ outcome R (login_committed ttl R p d) (login_cause R) d r d') w.
Proof.
  intros Httl Hf Hi. set (c0 := mk_login_cmd (lq_username p) (lq_password p)).
  assert (Hnew : LoginCommand_new c0 = Ok c0 ∨ LoginCommand_new c0 = Err (InvalidCredentialsError None)).
  { unfold LoginCommand_new, guard, result_bind. repeat case_bool; auto. }
  destruct Hnew as [-> | ->]; apply wp_bind, wp_lift.
  - by apply (login_outcome ttl lim c0).
  - exists d. split; [done |]. left. split; [reflexivity |]. right. exists d. split; [reflexivity |]. right. left. by eexists.
Qed.

Lemma login_served body w d : (0 < ttl)%Z → fresh_tokens d → idle w d →
  wp (serve_auth service_code context (login_endpoint ttl lim service_code context body))
    (λ r w', ∃ d', idle w' d' ∧ auth_api_spec ttl service_code context R (Login body) d r d') w.
Proof.
  intros Httl Hf Hi. unfold login_endpoint. cbn [auth_api_spec]. destruct (LoginRequest_validate body) as [p |] eqn:Hp.
  2:{ apply wp_of_run. intros w' r. unfold serve_auth, catch, raise, bind, lift, ret.
      cbn [is_exception render_exception handle_request_validation_error]. rewrite render_error_ok by done.
      intros [= <- <-]. exists d. by split. }
  apply (wp_answered _ _ _ (λ t, (shows_token service_code context t, Some (tk_user_id t)))); [done |].
  eapply wp_mono; [by apply login_call |]. cbv beta. intros r w' (d' & Hi' & Ho). exists d'. split; [done |]. by apply login_answered.
Qed.

Abbreviation me_answer := (answered is_auth_application_error
  (λ x, (with_no_store (shows service_code context 200 OK x), None))).

Lemma me_served a w d : idle w d →
  wp (serve_auth service_code context (auth_endpoint ttl lim service_code context (Me a)))
    (λ r w', ∃ d', idle w' d' ∧ auth_api_spec ttl service_code context R (Me a) d r d') w.
Proof.
  intros Hi. cbn [auth_api_spec auth_endpoint].
  apply (serve_credential a (λ c, let* x := at_boundary is_auth_application_error auth_error_to_http (current_user c) in
    let* reply := lift (me_reply service_code context x) in ret (reply, None))%prog _ _ w d Hi).
  { intros w'. unfold me_endpoint. destruct (provide_session_credential a) as [c |]; [| done].
    exact (bind_assoc (at_boundary is_auth_application_error auth_error_to_http (current_user c))
      (λ x, lift (me_reply service_code context x)) (λ reply, ret (reply, None)) w'). }
  intros c. apply (wp_answered _ _ _ (λ x, (with_no_store (shows service_code context 200 OK x), None))); [done |].
  eapply wp_mono; [by apply current_user_correct |]. cbv beta. intros r w' (d' & Hi' & Ho). exists d'. split; [done |].
  destruct r as [x | e].
  - destruct Ho as (Hd & s & Hs & Hx). split; [done |]. split; [done |]. left. by exists x, s.
  - destruct Ho as [Hd [He | (s & Hs & [Hcon | [-> Href]])]]; (split; [done |]).
    + rewrite answered_foreign by (done || by apply foreign_not_auth). destruct (is_exception e) eqn:Hex; [| done]. by split; [| right; right].
    + erewrite answered_conflict by (done || by destruct Hcon as (? & -> & _)). by split; [| right; right].
    + destruct (auth_problem service_code context AuthenticationRequiredError) as [reply |] eqn:Hp; [| done].
      rewrite (answered_problem _ _ _ reply Hp) by done. split; [done |]. right; left. exists s. split; [done |]. split; [by right | done].
Qed.

Lemma logout_served a w d : idle w d →
  wp (serve_auth service_code context (auth_endpoint ttl lim service_code context (Logout a)))
    (λ r w', ∃ d', idle w' d' ∧ auth_api_spec ttl service_code context R (Logout a) d r d') w.
Proof.
  intros Hi. cbn [auth_api_spec auth_endpoint].
  apply (serve_credential a (λ c, let* x := at_boundary (λ _, false) auth_error_to_http (logout c) in ret (logout_reply, None))%prog _ _ w d Hi).
  { intros w'. unfold logout_endpoint. destruct (provide_session_credential a) as [c |]; [| done].
    unfold at_boundary, bind, catch, ret, raise, lift. by destruct (logout c w') as [? [[] |]]. }
  intros c. apply (wp_answered _ _ _ (λ _, (logout_reply, None))); [done |].
  eapply wp_mono; [by apply logout_correct |]. cbv beta. intros r w' (d' & Hi' & Ho). exists d'. split; [done |].
  assert (Hfor : ∀ e (P : Prop), foreign e = true → P →
    match answered (λ _, false) (λ _ : unit, (logout_reply, None)) (Err e) with
    | Ok (reply, job) => job = None ∧ (reply = logout_reply ∧ False ∨ reply = internal ∧ P)
    | Err e => is_exception e = false ∧ foreign e = true ∧ P end).
  { intros e P He HP. rewrite answered_foreign by done. destruct (is_exception e) eqn:Hex; [| done]. by split; [| right]. }
  destruct Ho as [Ho | (e & [] & -> & He & Ho)].
  2:{ specialize (Hfor e _ He (or_intror (A := R d d') Ho)). destruct (answered _ _ _) as [[reply job] | ?]; [| done].
      destruct Hfor as [-> [[_ []] | ?]]. by split; [| right]. }
  destruct r as [[] | e]; [split; [done |]; by left |]. destruct Ho as [Hd [He | (s & Hs & Hcon)]].
  - specialize (Hfor e (R d d') He Hd). destruct (answered _ _ _) as [[reply job] | ?]; [| naive_solver].
    destruct Hfor as [-> [[_ []] | [-> ?]]]. split; [done |]. right. split; [done | by left].
  - erewrite answered_conflict by done. split; [done |]. right. split; [done | by left].
Qed.

(** C3: the authentication API, end to end.  A token leaves the application, and
    its login is announced to the queue afterwards, only when the session of that
    token was committed for a verified active user; a refused login is a 401 that
    tells the attempts left or a 429 that tells the wait, both uncacheable, and
    commits nothing.  [/me] shows the user only of a stored, valid session of an
    active user; log-out removes exactly the session under the digest of the
    credential, whether it is valid, expired or absent; a missing or malformed
    credential is the 401 challenge before any database access. *)
Theorem auth_api_correct q w d :
  (0 < ttl)%Z → fresh_tokens d → idle w d →
  wp (serve_auth service_code context (auth_endpoint ttl lim service_code context q))
    (λ r w', ∃ d', idle w' d' ∧ auth_api_spec ttl service_code context R q d r d') w.
Proof.
  intros Httl Hf Hi. destruct q as [body | a | a]; [by apply login_served | by apply me_served | by apply logout_served].
Qed.
End AuthApiTheorems.

(** ** Concrete requests *)

Section Demo.
#[local] Instance demo_auth_pydantic : Pydantic := { body_errors _ := []; page_errors _ _ := [] }.
#[local] Existing Instance demo_fastapi.
Definition carol_body : pyval := VDict [(VStr (u "username"), VStr (u " Carol")); (VStr (u "password"), VStr (u "correct horse"))].
Definition answer_status (r : result exn (api_reply * option uuid)) : option (Z * option uuid) :=
  match r with Ok (reply, job) => Some (rp_status reply, job) | Err _ => None end.
Abbreviation demo_exchange q := (serve_auth (u "100") None
  (auth_endpoint 3600 (Some demo_limiter) (u "100") None q)).

Lemma auth_api_correct_witness :
  answer_status (demo_exchange (Login carol_body) login_world).2 = Some (200%Z, Some (user_id_value (u_id carol))) ∧
  answer_status (demo_exchange (Me None) login_world).2 = Some (401%Z, None) ∧
  wp (demo_exchange (Login carol_body)) (λ r w', ∃ d', idle w' d' ∧
    auth_api_spec (TK := demo_tokens) 3600 (u "100") None (store_rely (RT := (=))) (Login carol_body) login_store r d') login_world.
Proof.
  split; [vm_compute; reflexivity |]. split; [vm_compute; reflexivity |].
  apply (auth_api_correct (TK := demo_tokens) 3600 (Some demo_limiter) (u "100") None (Login carol_body) login_world login_store);
    [lia | apply login_fresh | apply login_idle].
Defined.
End Demo.
