(* ===== verification/HttpMiddleware.v ===== *)
(** * HttpMiddleware: the middleware around every HTTP request

    Models [interfaces/http/middleware/exception_capture.py] and
    [access_log.py] over ASGI.  An ASGI application is the tree of what it does:
    it sends messages, each with the result of [send], calls into a world [W],
    writes log records and ends.  A middleware transforms the tree of the
    application it wraps; [exec] are the executions of a tree, in which a send may
    fail and any wait may be cancelled.  Durations and client addresses of the
    access records are not modelled. *)

From S2P Require Import Prelude Text PyVal Errors HttpResponse.
Local Open Scope prog_scope.

(** ** ASGI *)

Inductive message := ResponseStart (status : Z) (headers : pydict pystr) | ResponseBody (body : Body unit) | OtherMessage.
Definition start_status (m : message) : option Z := match m with ResponseStart s _ => Some s | _ => None end.

Inductive log_level := INFO | WARNING | ERROR.
Record AccessRecord := mk_access {
  ar_method : pystr; ar_route : option pystr; ar_status_code : Z; ar_failed : bool; ar_failure_type : option pystr; ar_level : log_level;
}.
Inductive log_record :=
| AccessLog (r : AccessRecord)
| ExceptionLog (method : pystr) (response_started : bool) (error : exn).

Inductive asgi (W : Type) :=
| Done (r : result exn unit)
| Send (m : message) (k : result exn unit → asgi W)
| Call {A : Type} (m : io W A) (k : result exn A → asgi W)
| Log (r : log_record) (k : asgi W).
Arguments Done {W}. Arguments Send {W}. Arguments Call {W A}. Arguments Log {W}.

Inductive event := Sent (m : message) (r : result exn unit) | Logged (r : log_record).

(** [exec t w ev r w']: from the world [w] the tree may end in [w'] with [r]
    after the events [ev]. *)
Fixpoint exec {W} (t : asgi W) (w : W) (ev : list event) (r : result exn unit) (w' : W) : Prop :=
  match t with
  | Done r0 => ev = [] ∧ r = r0 ∧ w' = w
  | Send m k => ∃ s ev', ev = Sent m s :: ev' ∧ exec (k s) w ev' r w'
  | Call m k => exec (k (snd (m w))) (fst (m w)) ev r w' ∨ exec (k (Err CancelledError)) (fst (m w)) ev r w'
  | Log x k => ∃ ev', ev = Logged x :: ev' ∧ exec k w ev' r w'
  end.

(** ** The middleware *)

(** What the middleware reads of a scope. *)
Record asgi_scope := mk_asgi_scope { as_type : pystr; as_method : pystr; as_path : option pystr }.

Section Middleware.
Context {W : Type} `{UnicodeTables, FastApi}.
Context (service_code : pystr) (context : option (pydict pystr)) (scope : asgi_scope).
Definition is_http : bool := bool_decide (as_type scope = u "http").

(** Sending a complete response. *)
Definition send_reply (reply : Reply unit) : asgi W :=
  Send (ResponseStart (rp_status reply) (rp_headers reply)) (λ r,
    match r with Err e => Done (Err e) | Ok _ => Send (ResponseBody (rp_body reply)) Done end).

Section Capture.
Context (debug : bool).
Definition captured (response_started : bool) (e : exn) : asgi W :=
  if negb (is_exception e) || debug then Done (Err e)
  else Log (ExceptionLog (as_method scope) response_started e)
    (if response_started then Done (Err e)
     else match render_exception service_code context e with
          | Ok reply => send_reply reply
          | Err e' => Done (Err e')
          end).
Fixpoint capture (response_started : bool) (app : asgi W) : asgi W :=
  match app with
  | Done (Ok _) => Done (Ok tt)
  | Done (Err e) => captured response_started e
  | Send m k => Send m (λ r, capture (response_started || bool_decide (is_Some (start_status m))) (k r))
  | Call m k => Call m (λ r, capture response_started (k r))
  | Log x k => Log x (capture response_started k)
  end.
Definition exception_capture (app : asgi W) : asgi W := if is_http then capture false app else app.
End Capture.

Section Access.
Context (exc_name : exn → pystr) (exclude_routes : list pystr).

Definition get_log_level (status_code : Z) (failed cancelled : bool) : log_level :=
  if cancelled then WARNING
  else if failed || (500 <=? status_code)%Z then ERROR
  else if (400 <=? status_code)%Z then WARNING
  else INFO.

Definition failure_type (r : result exn unit) : option pystr :=
  match r with
  | Err CancelledError => Some (u "CancelledError")
  | Err e => if is_exception e then Some (exc_name e) else None
  | Ok _ => None
  end.
Definition cancelled (r : result exn unit) : bool := match r with Err CancelledError => true | _ => false end.

(** [_write_log] *)
Definition write_log (status_code : option Z) (r : result exn unit) : option AccessRecord :=
  let failed := negb (is_ok r) in
  let effective_status := match status_code with Some s => s | None => if cancelled r then 499 else 500 end%Z in
  if match as_path scope with Some route => bool_decide (route ∈ exclude_routes) | None => false end
     && (effective_status <? 400)%Z && negb failed
  then None
  else Some (mk_access (as_method scope) (as_path scope) effective_status failed (failure_type r)
               (get_log_level effective_status failed (cancelled r))).
Definition logged (o : option AccessRecord) (k : asgi W) : asgi W :=
  match o with Some r => Log (AccessLog r) k | None => k end.

Fixpoint access (status_code : option Z) (app : asgi W) : asgi W :=
  match app with
  | Done r => logged (write_log status_code r) (Done r)
  | Send m k => Send m (λ r, access (match start_status m with Some s => Some s | None => status_code end) (k r))
  | Call m k => Call m (λ r, access status_code (k r))
  | Log x k => Log x (access status_code k)
  end.
Definition access_log (app : asgi W) : asgi W := if is_http then access None app else app.
End Access.
End Middleware.

(** The part of [build_http_middlewares] these two make up. *)
Definition http_stack {W} `{UnicodeTables, FastApi} (service_code : pystr) (context : option (pydict pystr)) (scope : asgi_scope)
    (debug access_enabled : bool) (exc_name : exn → pystr) (exclude_routes : list pystr) (app : asgi W) : asgi W :=
  let inner := exception_capture service_code context scope debug app in
  if access_enabled then access_log scope exc_name exclude_routes inner else inner.

(** ** One answer and one record per request *)

Definition start_of (e : event) : option Z := match e with Sent m _ => start_status m | Logged _ => None end.
(** The statuses of the responses that were started, and the last of them. *)
Definition statuses (ev : list event) : list Z := omap start_of ev.
Definition starts (ev : list event) : nat := length (statuses ev).
Definition started_status (ev : list event) : option Z := list.last (statuses ev).

Lemma statuses_cons e ev : statuses (e :: ev) = option_list (start_of e) ++ statuses ev.
Proof. unfold statuses. cbn. by destruct (start_of e). Qed.
Lemma statuses_app ev1 ev2 : statuses (ev1 ++ ev2) = statuses ev1 ++ statuses ev2.
Proof. apply omap_app. Qed.
Lemma starts_app ev1 ev2 : starts (ev1 ++ ev2) = starts ev1 + starts ev2.
Proof. unfold starts. by rewrite statuses_app, length_app. Qed.

Section MiddlewareTheorems.
Context {W : Type} {T : UnicodeTables} {FA : FastApi} {FL : FastApiLaws}.
Context (service_code : pystr) (context : option (pydict pystr)) (scope : asgi_scope).
Context (exc_name : exn → pystr) (exclude_routes : list pystr).
Abbreviation record := (write_log scope exc_name exclude_routes).

Definition access_entry (status : option Z) (r : result exn unit) : list event :=
  match record status r with Some x => [Logged (AccessLog x)] | None => [] end.
Definition status_after (st : option Z) (ev : list event) : option Z :=
  match started_status ev with Some s => Some s | None => st end.

Lemma status_after_cons st e ev :
  status_after (match start_of e with Some s => Some s | None => st end) ev = status_after st (e :: ev).
Proof.
  unfold status_after, started_status, statuses. cbn [omap list_omap]. destruct (start_of e) as [s |]; [| done].
  rewrite last_cons. unfold omap. by destruct (list.last _).
Qed.

Lemma exec_access t : ∀ st (w : W) ev r w', exec (access scope exc_name exclude_routes st t) w ev r w' →
  ∃ ev0, exec t w ev0 r w' ∧ ev = ev0 ++ access_entry (status_after st ev0) r.
Proof.
  induction t as [r0 | m k IH | A m k IH | x k IH]; intros st w ev r w' Hx; cbn [access exec] in *.
  - exists []. unfold logged in Hx. unfold access_entry, status_after. cbn [started_status statuses omap list_omap list.last app].
    destruct (record st r0) as [x |] eqn:Hr; cbn [exec] in Hx.
    + destruct Hx as (ev' & -> & -> & -> & ->). by rewrite Hr.
    + destruct Hx as (-> & -> & ->). by rewrite Hr.
  - destruct Hx as (s & ev' & -> & Hx). destruct (IH _ _ _ _ _ _ Hx) as (ev0 & H0 & ->).
    exists (Sent m s :: ev0). split; [by exists s, ev0 |]. cbn [app]. by rewrite <- status_after_cons.
  - destruct Hx as [Hx | Hx]; destruct (IH _ _ _ _ _ _ Hx) as (ev0 & H0 & ->); exists ev0; auto.
  - destruct Hx as (ev' & -> & Hx). destruct (IH _ _ _ _ _ Hx) as (ev0 & H0 & ->).
    exists (Logged x :: ev0). split; [by exists ev0 |]. cbn [app]. by rewrite <- status_after_cons.
Qed.

Abbreviation captured_ := (captured (W := W) service_code context scope false).
Lemma captured_world b e (w : W) ev r w' : exec (captured_ b e) w ev r w' → w' = w.
Proof.
  unfold captured. destruct (negb (is_exception e) || false); cbn [exec]; [by intros (_ & _ & ->) |].
  intros (ev' & _ & Hx). destruct b; [by destruct Hx as (_ & _ & ->) |].
  destruct (render_exception service_code context e) as [reply | e']; cbn [exec] in Hx; [| by destruct Hx as (_ & _ & ->)].
  unfold send_reply in Hx. cbn [exec] in Hx. destruct Hx as (s & ev2 & _ & Hx).
  destruct s as [u0 | e1]; cbn [exec] in Hx; [| by destruct Hx as (_ & _ & ->)].
  by destruct Hx as (s & ev3 & _ & _ & _ & ->).
Qed.
Lemma exec_capture t : ∀ b (w : W) ev r w', exec (capture service_code context scope false b t) w ev r w' →
  ∃ ev1 r1 tail, exec t w ev1 r1 w' ∧ ev = ev1 ++ tail ∧
    match r1 with
    | Ok _ => tail = [] ∧ r = Ok tt
    | Err e => exec (captured_ (b || bool_decide (0 < starts ev1)) e) w' tail r w'
    end.
Proof.
  induction t as [r0 | m k IH | A m k IH | x k IH]; intros b w ev r w' Hx; cbn [capture exec] in *.
  - destruct r0 as [[] | e]; [destruct Hx as (-> & -> & ->); exists [], (Ok tt), []; split; [done |]; split; done |].
    assert (Hw : w' = w).
    { by eapply captured_world. }
    subst w'. exists [], (Err e), ev. cbn. by rewrite orb_false_r.
  - destruct Hx as (s & ev' & -> & Hx). destruct (IH _ _ _ _ _ _ Hx) as (ev1 & r1 & tail & H1 & -> & Hr).
    exists (Sent m s :: ev1), r1, tail. split; [by exists s, ev1 |]. split; [done |]. destruct r1 as [? | e]; [done |].
    revert Hr. rewrite <- orb_assoc. unfold starts, statuses. cbn [omap list_omap start_of].
    destruct (start_status m) as [z |]; cbn [length]; [| done]. rewrite !bool_decide_true by (done || lia || by eexists). done.
  - destruct Hx as [Hx | Hx]; destruct (IH _ _ _ _ _ _ Hx) as (ev1 & r1 & tail & H1 & -> & Hr); exists ev1, r1, tail; auto.
  - destruct Hx as (ev' & -> & Hx). destruct (IH _ _ _ _ _ Hx) as (ev1 & r1 & tail & H1 & -> & Hr).
    exists (Logged x :: ev1), r1, tail. split; [by exists ev1 |]. by split.
Qed.

(** An application as ASGI has it: it starts at most one response, exactly one
    when it returns, and its exceptions are real ones. *)
Definition app_ok (app : asgi W) : Prop := ∀ w ev r w', exec app w ev r w' →
  starts ev ≤ 1 ∧ match r with Ok _ => starts ev = 1 | Err e => raisable e end.

(** What is sent and recorded for how the application ended. *)
Lemma captured_cases (b : bool) (r1 : result exn unit) (w : W) tail r :
  match r1 with Ok _ => tail = [] ∧ r = Ok tt | Err e => exec (captured_ b e) w tail r w end →
  match r1 with Ok _ => True | Err e => raisable e end →
  match r1 with
  | Ok _ => tail = [] ∧ r = Ok tt
  | Err e =>
      if is_exception e then
        if b then tail = [Logged (ExceptionLog (as_method scope) true e)] ∧ r = Err e
        else statuses tail = [exception_status e] ∧
          ∃ sent, tail = Logged (ExceptionLog (as_method scope) false e) :: sent ∧ Forall (λ x, ∃ m s, x = Sent m s) sent
      else tail = [] ∧ r = Err e
  end.
Proof.
  destruct r1 as [u0 | e]; [done |]. unfold captured. rewrite orb_false_r. intros Hx He.
  destruct (is_exception e); cbn [negb] in Hx; [| by destruct Hx as (-> & -> & _)].
  cbn [exec] in Hx. destruct Hx as (ev' & -> & Hx). destruct b; [by destruct Hx as (-> & -> & _) |].
  destruct (render_total service_code context (A := unit) e He) as (reply & Hreply & _).
  rewrite Hreply in Hx. pose proof (render_status service_code context e reply Hreply) as Hstatus.
  unfold send_reply in Hx. cbn [exec] in Hx. destruct Hx as (s & ev & -> & Hx).
  assert (Hev : statuses ev = [] ∧ Forall (λ x, ∃ m s, x = Sent m s) ev).
  { destruct s as [u1 | e1]; cbn [exec] in Hx; [| by destruct Hx as (-> & _)].
    destruct Hx as (s & ev2 & -> & -> & _). split; [done |]. constructor; [by eexists _, _ | constructor]. }
  destruct Hev as [Hev Hall]. split.
  - rewrite !statuses_cons. cbn [start_of start_status option_list app]. by rewrite Hev, Hstatus.
  - eexists. split; [done |]. constructor; [by eexists _, _ | done].
Qed.

(** C5: every HTTP request, whatever the application does, whichever send fails and
    whenever it is cancelled: at most one response is started, and exactly one if
    an exception was handled or nothing failed; an exception raised before a
    response is answered with its own status and one error record, one raised after
    the start is recorded and re-raised; and one access record, with the status
    that was sent, or 499 or 500 when none was, is written last - unless the route
    is excluded and succeeded. *)
Theorem http_request_answered app (w : W) ev r w' :
  is_http scope = true → app_ok app →
  exec (http_stack service_code context scope false true exc_name exclude_routes app) w ev r w' →
  starts ev ≤ 1 ∧
  ∃ ev1 r1 tail, exec app w ev1 r1 w' ∧ ev = ev1 ++ tail ++ access_entry (started_status ev) r ∧
    match r1 with
    | Ok _ => tail = [] ∧ r = Ok tt ∧ starts ev = 1
    | Err e =>
        if is_exception e then
          starts ev = 1 ∧
          (if bool_decide (starts ev1 = 0) then
             started_status ev = Some (exception_status e)
             ∧ ∃ sent, tail = Logged (ExceptionLog (as_method scope) false e) :: sent ∧ Forall (λ x, ∃ m s, x = Sent m s) sent
           else tail = [Logged (ExceptionLog (as_method scope) true e)] ∧ r = Err e)
        else tail = [] ∧ r = Err e
    end.
Proof.
  intros Hhttp Happ. unfold http_stack, exception_capture, access_log. rewrite Hhttp. intros Hx.
  apply exec_access in Hx as (ev0 & Hx & ->). apply exec_capture in Hx as (ev1 & r1 & tail & H1 & -> & Hr).
  destruct (Happ _ _ _ _ H1) as [Hle Hend].
  set (st := status_after None (ev1 ++ tail)). set (entry := access_entry st r).
  assert (He0 : statuses entry = []) by (unfold entry, access_entry; by destruct (record st r)).
  assert (Hs : statuses ((ev1 ++ tail) ++ entry) = statuses ev1 ++ statuses tail) by by rewrite !statuses_app, He0, app_nil_r.
  assert (Hst0 : st = list.last (statuses ev1 ++ statuses tail)).
  { unfold st, status_after, started_status. rewrite statuses_app. by destruct (list.last _). }
  assert (Hst : started_status ((ev1 ++ tail) ++ entry) = st) by (unfold started_status; by rewrite Hs).
  assert (Hn : starts ((ev1 ++ tail) ++ entry) = starts ev1 + starts tail) by (unfold starts; by rewrite Hs, length_app).
  rewrite Hn, Hst. fold entry. rewrite Hst0. clearbody st entry. clear Hst Hs He0 Hn Hst0.
  pose proof (captured_cases (bool_decide (0 < starts ev1)) r1 w' tail r Hr) as Hcase. clear Hr.
  assert (Hfound : starts ev1 + starts tail ≤ 1 ∧
    match r1 with
    | Ok _ => tail = [] ∧ r = Ok tt ∧ starts ev1 + starts tail = 1
    | Err e =>
        if is_exception e then
          starts ev1 + starts tail = 1 ∧
          (if bool_decide (starts ev1 = 0) then
             list.last (statuses ev1 ++ statuses tail) = Some (exception_status e)
             ∧ ∃ sent, tail = Logged (ExceptionLog (as_method scope) false e) :: sent ∧ Forall (λ x, ∃ m s, x = Sent m s) sent
           else tail = [Logged (ExceptionLog (as_method scope) true e)] ∧ r = Err e)
        else tail = [] ∧ r = Err e
    end).
  { destruct r1 as [u0 | e]; [destruct Hcase as [-> ->]; [done |]; cbn; split; [lia | split_and!; done || lia] |].
    specialize (Hcase Hend). destruct (is_exception e); [| destruct Hcase as [-> ->]; cbn; split; [lia | done]].
    case_bool_decide as Hb.
    - destruct Hcase as [-> ->]. rewrite bool_decide_false by lia. cbn. split; [lia | split_and!; done || lia].
    - assert (H0 : starts ev1 = 0) by lia. rewrite bool_decide_true by done. destruct Hcase as [Htail Hsent].
      assert (Hs1 : statuses ev1 = []) by (unfold starts in H0; by destruct (statuses ev1)).
      unfold starts. rewrite Hs1, Htail. cbn. split; [lia |]. split; [done |]. by split. }
  destruct Hfound as [Hle1 Hfound]. split; [done |]. exists ev1, r1, tail. split; [done |]. split; [by rewrite app_assoc | exact Hfound].
Qed.
End MiddlewareTheorems.

(** A handler that fails before it answers. *)
#[local] Opaque txt.
Definition demo_scope : asgi_scope := mk_asgi_scope (u "http") (u "GET") (Some (u "/api/v1/users")).
Definition demo_failing : asgi unit := Call (ret tt) (λ _, Done (Err (OtherException 1))).
Definition demo_stack : asgi unit :=
  http_stack (H := plain_tables) (H0 := demo_fastapi) (u "100") None demo_scope false true (λ _, u "OSError") [u "/health"] demo_failing.
Definition demo_rendered : Reply unit :=
  match render_exception (H := plain_tables) (H0 := demo_fastapi) (u "100") None (OtherException 1) with
  | Ok r => r | Err _ => mk_reply 0 [] NoBody end.
Definition demo_events : list event :=
  [Logged (ExceptionLog (u "GET") false (OtherException 1)); Sent (ResponseStart 500 []) (Ok tt); Sent (ResponseBody (rp_body demo_rendered)) (Ok tt);
   Logged (AccessLog (mk_access (u "GET") (Some (u "/api/v1/users")) 500 false None ERROR))].

Lemma http_request_answered_witness :
  exec demo_stack tt demo_events (Ok tt) tt ∧ app_ok (T := plain_tables) demo_failing ∧ started_status demo_events = Some 500%Z ∧ starts demo_events = 1.
Proof.
  assert (Hx : exec demo_stack tt demo_events (Ok tt) tt).
  { left. cbn. eexists. split; [reflexivity |]. exists (Ok tt). eexists. split; [reflexivity |].
    exists (Ok tt). eexists. split; [reflexivity |]. eexists. split; [reflexivity |]. split; [reflexivity |]. split; reflexivity. }
  assert (Ha : app_ok (T := plain_tables) demo_failing).
  { intros w ev r w' [(-> & -> & ->) | (-> & -> & ->)]; cbn; split; [lia | exact I | lia | exact I]. }
  split; [exact Hx |]. split; [exact Ha |].
  destruct (http_request_answered (T := plain_tables) (FL := demo_fastapi_laws) (u "100") None demo_scope (λ _, u "OSError") [u "/health"]
    demo_failing tt demo_events (Ok tt) tt) as (Hle & ev1 & r1 & tail & H1 & _ & Hcase); [reflexivity | exact Ha | exact Hx |].
  destruct H1 as [(-> & -> & _) | (-> & -> & _)]; cbn in Hcase; split; apply Hcase.
Defined.
