(* ===== verification/HttpRequest.v ===== *)
(** * HttpRequest: outbound HTTP requests, responses and what is logged of them

    Models [infrastructure/http/contracts/request.py] and [response.py],
    [drivers/httpx2/request.py] and [infrastructure/http/logging.py], with
    [urllib.parse.urlsplit] as the standard library defines it.  The Unicode
    tables of the interpreter and the reader of IP literals are the class
    [UrlTables]; [httpx2.Headers] is the class [HttpxHeaders]. *)

From S2P Require Import Prelude Text PyVal Errors Decimal.
From Stdlib Require Import Floats.SpecFloat.
Local Open Scope prog_scope.

Definition ch (s : string) : N := default 0%N (head (u s)).

(** ** [str.partition], [str.rpartition] *)

(** The text before and after the first [c]; [None] when there is none. *)
Fixpoint split_at (c : N) (s : pystr) : option (pystr * pystr) :=
  match s with
  | [] => None
  | d :: s =>
      if (d =? c)%N then Some ([], s)
      else '(a, b) ← split_at c s; Some (d :: a, b)
  end.
(** The text after the last [c]. *)
Fixpoint after_last (c : N) (s : pystr) : option pystr :=
  match s with
  | [] => None
  | d :: s => match after_last c s with Some r => Some r | None => if (d =? c)%N then Some s else None end
  end.
(** The longest prefix of characters that satisfy [p], and the rest. *)
Fixpoint span (p : N → bool) (s : pystr) : pystr * pystr :=
  match s with
  | [] => ([], [])
  | c :: t => if p c then (let '(a, b) := span p t in (c :: a, b)) else ([], s)
  end.
Definition lacks (bad : pystr) (s : pystr) : bool := forallb (λ c, negb (bool_decide (c ∈ bad))) s.

(** ** [urllib.parse.urlsplit] *)

Class UrlTables := {
  nfkc : pystr → pystr;                   (* unicodedata.normalize('NFKC', _) *)
  bracketed_host_ok : pystr → bool;       (* an IPv6 or IPvFuture literal *)
  upper_rest : N → pystr;                 (* str.upper, str.casefold of one character outside ASCII *)
  casefold_rest : N → pystr;
}.

Record SplitResult := mk_split {
  sr_scheme : pystr; sr_netloc : pystr; sr_path : pystr; sr_query : pystr; sr_fragment : pystr }.

Abbreviation HttpHeaders := (list (pystr * pystr)).

Section UrlSplit.
Context `{UnicodeTables} `{UrlTables}.

Definition scheme_char (c : N) : bool := is_alnum c || bool_decide (c ∈ u "+-.").
Definition is_alpha_az (c : N) : bool := is_lower_az c || is_upper_az c.
Definition unsafe_url_char (c : N) : bool := bool_decide (c ∈ [9; 13; 10]%N).
Fixpoint lstrip_c0 (s : pystr) : pystr :=
  match s with c :: t => if (c <=? 32)%N then lstrip_c0 t else s | [] => [] end.
Definition clean_url (url : pystr) : pystr := List.filter (λ c, negb (unsafe_url_char c)) (lstrip_c0 url).
Definition split_scheme (url : pystr) : pystr * pystr :=
  match split_at (ch ":") url with
  | Some (s, rest) =>
      if match s with c :: _ => is_alpha_az c | [] => false end && forallb scheme_char s
      then (map ascii_lower s, rest) else ([], url)
  | None => ([], url)
  end.

(** [_hostinfo]: the host and the text of the port. *)
Definition hostinfo (netloc : pystr) : pystr * option pystr :=
  let info := default netloc (after_last (ch "@") netloc) in
  let host_port :=
    match split_at (ch "[") info with
    | Some (_, bracketed) =>
        match split_at (ch "]") bracketed with
        | Some (host, rest) => (host, match split_at (ch ":") rest with Some (_, p) => p | None => [] end)
        | None => (bracketed, [])
        end
    | None => default (info, []) (split_at (ch ":") info)
    end in
  (host_port.1, if bool_decide (host_port.2 = []) then None else Some host_port.2).

(** [_check_bracketed_netloc] *)
Definition check_bracketed_netloc (netloc : pystr) : result exn unit :=
  let info := default netloc (after_last (ch "@") netloc) in
  match split_at (ch "[") info with
  | Some (before, bracketed) =>
      let? _ := guard (bool_decide (before = [])) ValueError in
      let '(host, rest) := default (bracketed, []) (split_at (ch "]") bracketed) in
      let? _ := guard (match rest with [] => true | c :: _ => (c =? ch ":")%N end) ValueError in
      guard (bracketed_host_ok host) ValueError
  | None => guard (bracketed_host_ok (default (info, []) (split_at (ch ":") info)).1) ValueError
  end.

(** [_checknetloc] *)
Definition checknetloc (netloc : pystr) : result exn unit :=
  if bool_decide (netloc = []) || forallb is_ascii netloc then Ok tt
  else
    let n := List.filter (λ c, negb (bool_decide (c ∈ u "@:#?"))) netloc in
    let netloc2 := nfkc n in
    guard (bool_decide (n = netloc2) || lacks (u "/?#@:") netloc2) ValueError.

Definition has (c : N) (s : pystr) : bool := bool_decide (c ∈ s).
Definition split_netloc (url : pystr) : result exn (pystr * pystr) :=
  match url with
  | c1 :: c2 :: rest =>
      if (c1 =? ch "/")%N && (c2 =? ch "/")%N then
        let '(netloc, rest) := span (λ c, negb (bool_decide (c ∈ u "/?#"))) rest in
        let? _ := guard (eqb (has (ch "[") netloc) (has (ch "]") netloc)) ValueError in
        let? _ := (if has (ch "[") netloc && has (ch "]") netloc then check_bracketed_netloc netloc else Ok tt) in
        Ok (netloc, rest)
      else Ok ([], url)
  | _ => Ok ([], url)
  end.

Definition urlsplit (url : pystr) : result exn SplitResult :=
  let '(scheme, url) := split_scheme (clean_url url) in
  let? (netloc, url) := split_netloc url in
  let '(url, fragment) := default (url, []) (split_at (ch "#") url) in
  let '(path, query) := default (url, []) (split_at (ch "?") url) in
  let? _ := checknetloc netloc in
  Ok (mk_split scheme netloc path query fragment).

(** [.hostname]: lower case up to the zone of a scoped address. *)
Definition hostname_of (netloc : pystr) : option pystr :=
  let host := (hostinfo netloc).1 in
  if bool_decide (host = []) then None
  else Some (match split_at (ch "%") host with
             | Some (h, zone) => py_lower h ++ ch "%" :: zone
             | None => py_lower host
             end).
(** [.port]: [int] refuses more than 4300 digits. *)
Definition port_of (netloc : pystr) : result exn (option Z) :=
  match (hostinfo netloc).2 with
  | None => Ok None
  | Some p =>
      let? _ := guard (forallb is_09 p && (len p <=? 4300)%Z) ValueError in
      let? _ := guard (decimal_value p <=? 65535)%Z ValueError in
      Ok (Some (decimal_value p))
  end.

(** [str(port)] *)
Definition port_text (p : Z) : pystr := str_int p.

(** ** HttpRequest *)

Inductive request_body := BodyBytes (b : pybytes) | BodyText (s : pystr).

(** [json] is [None] for [HTTP_UNSET]; a JSON null is [Some VNone]. *)
Record HttpRequest := mk_request {
  rq_method : pystr; rq_url : pystr; rq_operation : option pystr; rq_headers : pydict pystr;
  rq_params : pydict pyval; rq_content : option request_body; rq_json : option pyval;
  rq_timeout : option spec_float }.

Definition ascii_upper (c : N) : N := if is_lower_az c then (c - 32)%N else c.
Definition py_upper (s : pystr) : pystr :=
  flat_map (λ c, if is_ascii c then [ascii_upper c] else upper_rest c) s.
Definition web_scheme (s : pystr) : bool := bool_decide (s = u "http") || bool_decide (s = u "https").
Definition positive_timeout (f : spec_float) : bool :=
  match f with S754_finite false _ _ => true | _ => false end.

(** [__post_init__] *)
Definition HttpRequest_new (a : HttpRequest) : result exn HttpRequest :=
  let method := py_upper (py_strip (rq_method a)) in
  let? parsed := urlsplit (rq_url a) in
  let? port := port_of (sr_netloc parsed) in
  let? _ := guard (negb (bool_decide (method = []))) ValueError in
  let? _ := guard (web_scheme (sr_scheme parsed) && bool_decide (is_Some (hostname_of (sr_netloc parsed)))) ValueError in
  let? _ := guard (match port with Some p => (1 <=? p)%Z && (p <=? 65535)%Z | None => true end) ValueError in
  let? _ := guard (bool_decide (rq_content a = None) || bool_decide (rq_json a = None)) ValueError in
  let? _ := guard (match rq_operation a with Some o => negb (bool_decide (py_strip o = [])) | None => true end) ValueError in
  let? _ := guard (match rq_timeout a with Some t => positive_timeout t | None => true end) ValueError in
  Ok (mk_request method (rq_url a) (rq_operation a) (rq_headers a) (rq_params a) (rq_content a) (rq_json a) (rq_timeout a)).

(** ** HttpResponse *)
Record HttpResponse := mk_response { rs_status_code : Z; rs_headers : HttpHeaders; rs_content : pybytes }.

Definition casefold (s : pystr) : pystr :=
  flat_map (λ c, if is_ascii c then [ascii_lower c] else casefold_rest c) s.
Fixpoint first_header (name : pystr) (hs : HttpHeaders) : option pystr :=
  match hs with
  | [] => None
  | (n, v) :: hs => if bool_decide (casefold n = name) then Some v else first_header name hs
  end.
Definition header (r : HttpResponse) (name : pystr) : option pystr := first_header (casefold name) (rs_headers r).
Definition header_values (r : HttpResponse) (name : pystr) : list pystr :=
  map snd (List.filter (λ nv, bool_decide (casefold nv.1 = casefold name)) (rs_headers r)).

(** ** What is logged: [infrastructure/http/logging.py] *)

Definition invalid_text : pystr := u "<invalid>".
Definition safe_origin (url : pystr) : pystr :=
  match (let? parsed := urlsplit url in let? port := port_of (sr_netloc parsed) in Ok (parsed, port)) with
  | Err _ => invalid_text
  | Ok (parsed, port) =>
      match hostname_of (sr_netloc parsed) with
      | Some host =>
          if web_scheme (sr_scheme parsed) then
            let rendered := if has (ch ":") host then u "[" ++ host ++ u "]" else host in
            let origin := sr_scheme parsed ++ u "://" ++ rendered in
            match port with Some p => origin ++ u ":" ++ port_text p | None => origin end
          else invalid_text
      | None => invalid_text
      end
  end.
Definition safe_route (url : pystr) : pystr :=
  match (let? parsed := urlsplit url in let? _ := port_of (sr_netloc parsed) in Ok parsed) with
  | Err _ => invalid_text
  | Ok parsed =>
      match hostname_of (sr_netloc parsed) with
      | Some _ =>
          if web_scheme (sr_scheme parsed)
          then (if bool_decide (sr_path parsed = []) then u "/" else sr_path parsed)
          else invalid_text
      | None => invalid_text
      end
  end.
Definition request_log_details (request : HttpRequest) (details : pydict pyval) : pydict pyval :=
  let values := [(u "method", VStr (rq_method request)); (u "origin", VStr (safe_origin (rq_url request)));
                 (u "route", VStr (safe_route (rq_url request)))] in
  let values := match rq_operation request with Some o => values ++ [(u "operation", VStr o)] | None => values end in
  dict_merge values details.
End UrlSplit.

(** ** The arguments of httpx2 *)
Class HttpxHeaders (H : Type) := {
  hx_new : pydict pystr → H;               (* httpx2.Headers(mapping) *)
  hx_has : pystr → H → bool;
  hx_set : pystr → pystr → H → H;
}.
Inductive header_argument (H : Type) := HeadersMapping (m : pydict pystr) | HeadersObject (h : H).
Arguments HeadersMapping {H} m.
Arguments HeadersObject {H} h.
Record httpx_arguments (H : Type) := mk_arguments {
  ha_method : pystr; ha_url : pystr; ha_headers : header_argument H; ha_params : option (pydict pyval);
  ha_content : option request_body; ha_json : option pyval; ha_timeout : option spec_float }.
Arguments mk_arguments {H}.
Arguments ha_headers {H}.
Arguments ha_params {H}.
Arguments ha_content {H}.
Arguments ha_json {H}.

Definition null_text : pybytes := [Byte.x6e; Byte.x75; Byte.x6c; Byte.x6c].
Definition build_httpx2_request_arguments {H} `{HttpxHeaders H} (r : HttpRequest) : httpx_arguments H :=
  let params := if bool_decide (length (rq_params r) = 0) then None else Some (rq_params r) in
  match rq_json r with
  | Some VNone =>
      let headers := hx_new (rq_headers r) in
      let headers :=
        if hx_has (u "content-type") headers then headers
        else hx_set (u "content-type") (u "application/json") headers in
      mk_arguments (rq_method r) (rq_url r) (HeadersObject headers) params (Some (BodyBytes null_text)) None (rq_timeout r)
  | json =>
      mk_arguments (rq_method r) (rq_url r) (HeadersMapping (rq_headers r)) params (rq_content r) json (rq_timeout r)
  end.

(** ** Splitting text *)

Lemma split_at_app c a b : c ∉ a → split_at c (a ++ c :: b) = Some (a, b).
Proof.
  induction a as [| d a IH]; intros Hc; simpl; [by rewrite N.eqb_refl |].
  rewrite (proj2 (N.eqb_neq d c)) by set_solver. by rewrite IH by set_solver.
Qed.
Lemma split_at_none c a : c ∉ a → split_at c a = None.
Proof.
  induction a as [| d a IH]; intros Hc; simpl; [done |].
  rewrite (proj2 (N.eqb_neq d c)) by set_solver. by rewrite IH by set_solver.
Qed.
Lemma after_last_none c a : c ∉ a → after_last c a = None.
Proof.
  induction a as [| d a IH]; intros Hc; simpl; [done |].
  rewrite IH by set_solver. by rewrite (proj2 (N.eqb_neq d c)) by set_solver.
Qed.
Lemma after_last_app c a b : c ∉ b → after_last c (a ++ c :: b) = Some b.
Proof.
  intros Hc. induction a as [| d a IH]; simpl; [by rewrite after_last_none, N.eqb_refl |]. by rewrite IH.
Qed.
Lemma span_prefix p a b :
  forallb p a = true → match b with [] => true | c :: _ => negb (p c) end = true → span p (a ++ b) = (a, b).
Proof.
  intros Ha Hb. induction a as [| c a IH]; simpl in *.
  - destruct b as [| c b]; [done |]. simpl. by destruct (p c).
  - apply andb_true_iff in Ha as [-> Ha]. by rewrite IH.
Qed.
Lemma lacks_spec bad s : lacks bad s = true ↔ ∀ c, c ∈ bad → c ∉ s.
Proof.
  unfold lacks. rewrite forallb_forall. split.
  - intros Hl c Hb Hs. apply list_elem_of_In in Hs. specialize (Hl c Hs). by rewrite bool_decide_true in Hl.
  - intros Hl c Hs%list_elem_of_In. apply negb_true_iff, bool_decide_eq_false. intros Hb. by apply (Hl c).
Qed.
Lemma lacks_filter bad f s : lacks bad s = true → lacks bad (List.filter f s) = true.
Proof. rewrite !lacks_spec. intros Hl c Hb Hs. apply (Hl c Hb). rewrite list_elem_of_In, filter_In in *. tauto. Qed.

(** ** Confidentiality of the log *)

(** A URL by the parts RFC 3986 gives it, whatever text they hold. *)
Record url_parts := mk_parts {
  up_scheme : pystr; up_userinfo : option pystr; up_hostport : pystr; up_path : pystr;
  up_query : option pystr; up_fragment : option pystr }.
Definition opt_text (f : pystr → pystr) (o : option pystr) : pystr := match o with Some s => f s | None => [] end.
Definition url_text (p : url_parts) : pystr :=
  up_scheme p ++ u "://" ++ opt_text (λ s, s ++ u "@") (up_userinfo p) ++ up_hostport p ++ up_path p
  ++ opt_text (λ s, u "?" ++ s) (up_query p) ++ opt_text (λ s, u "#" ++ s) (up_fragment p).
(** The delimiters that end a part do not occur in it. *)
Definition parts_ok (p : url_parts) : bool :=
  match up_scheme p with c :: _ => is_alpha_az c | [] => false end && forallb scheme_char (up_scheme p)
  && lacks (u "/?#") (opt_text id (up_userinfo p)) && lacks (u "/?#@") (up_hostport p)
  && match up_path p with [] => true | c :: _ => (c =? ch "/")%N end && lacks (u "?#") (up_path p)
  && lacks (u "#") (opt_text id (up_query p)).

Lemma parts_ok_spec p :
  parts_ok p = true ↔
  match up_scheme p with c :: _ => is_alpha_az c | [] => false end = true ∧ forallb scheme_char (up_scheme p) = true
  ∧ lacks (u "/?#") (opt_text id (up_userinfo p)) = true ∧ lacks (u "/?#@") (up_hostport p) = true
  ∧ match up_path p with [] => true | c :: _ => (c =? ch "/")%N end = true ∧ lacks (u "?#") (up_path p) = true
  ∧ lacks (u "#") (opt_text id (up_query p)) = true.
Proof. unfold parts_ok. rewrite !andb_true_iff. tauto. Qed.

Definition drop_unsafe (s : pystr) : pystr := List.filter (λ c, negb (unsafe_url_char c)) s.
Definition drop_unsafe_parts (p : url_parts) : url_parts :=
  mk_parts (up_scheme p) (drop_unsafe <$> up_userinfo p) (drop_unsafe (up_hostport p)) (drop_unsafe (up_path p))
    (drop_unsafe <$> up_query p) (drop_unsafe <$> up_fragment p).

Lemma drop_unsafe_app a b : drop_unsafe (a ++ b) = drop_unsafe a ++ drop_unsafe b.
Proof. apply List.filter_app. Qed.

Lemma drop_unsafe_opt f o :
  (∀ s, drop_unsafe (f s) = f (drop_unsafe s)) → drop_unsafe (opt_text f o) = opt_text f (drop_unsafe <$> o).
Proof. intros Hf. destruct o as [s |]; [apply Hf | done]. Qed.

Lemma scheme_char_safe c : scheme_char c = true → unsafe_url_char c = false ∧ (32 < c)%N ∧ c ≠ ch ":".
Proof.
  unfold scheme_char, is_alnum, is_lower_az, is_upper_az, is_09, in_range, unsafe_url_char. intros Hc.
  bool_cases Hc; try (match goal with H : c ∈ u "+-." |- _ => change (u "+-.") with [43; 45; 46]%N in H end);
    rewrite ?list_elem_of_In in *; simpl in *;
    (split; [apply bool_decide_eq_false; rewrite list_elem_of_In; simpl; lia |]);
    (split; [lia |]); change (ch ":") with 58%N; lia.
Qed.

Lemma drop_unsafe_scheme s : forallb scheme_char s = true → drop_unsafe s = s.
Proof.
  induction s as [| c s IH]; simpl; [done |]. intros [Hc Hs]%andb_true_iff.
  destruct (scheme_char_safe c Hc) as (-> & _). simpl. by rewrite IH.
Qed.

Section Confidentiality.
Context `{UnicodeTables} `{UrlTables}.

Lemma clean_url_text p : parts_ok p = true → clean_url (url_text p) = url_text (drop_unsafe_parts p).
Proof.
  intros (Hal & Hsc & _)%parts_ok_spec. unfold clean_url.
  assert (Hs : lstrip_c0 (url_text p) = url_text p).
  { unfold url_text. destruct (up_scheme p) as [| c s] eqn:E; [done |]. simpl in *. to_prop.
    destruct (scheme_char_safe c) as (_ & Hc & _); [done |].
    by rewrite (proj2 (N.leb_gt c 32) Hc). }
  rewrite Hs. change (drop_unsafe (url_text p) = url_text (drop_unsafe_parts p)). unfold url_text.
  rewrite !drop_unsafe_app, drop_unsafe_scheme by done. cbn [up_scheme up_hostport up_path drop_unsafe_parts].
  rewrite !drop_unsafe_opt by (intros; rewrite drop_unsafe_app; done). done.
Qed.

Lemma drop_unsafe_ok p : parts_ok p = true → parts_ok (drop_unsafe_parts p) = true.
Proof.
  rewrite !parts_ok_spec. intros (Hal & Hsc & Hui & Hhp & Hpa & Hpq & Hq).
  unfold drop_unsafe_parts. cbn [up_scheme up_userinfo up_hostport up_path up_query].
  assert (Hopt : ∀ bad o, lacks bad (opt_text id o) = true → lacks bad (opt_text id (drop_unsafe <$> o)) = true).
  { intros bad [s |]; simpl; [apply lacks_filter | done]. }
  assert (Hl : ∀ bad s, lacks bad s = true → lacks bad (drop_unsafe s) = true) by (intros; by apply lacks_filter).
  split_and!; auto.
  destruct (up_path p) as [| c s]; [done |]. apply N.eqb_eq in Hpa. by subst c.
Qed.

Definition netloc_of (p : url_parts) : pystr := opt_text (λ s, s ++ u "@") (up_userinfo p) ++ up_hostport p.

Lemma split_scheme_text p :
  parts_ok p = true →
  split_scheme (url_text p) =
    (map ascii_lower (up_scheme p),
     ch "/" :: ch "/" :: netloc_of p ++ up_path p
       ++ opt_text (λ s, u "?" ++ s) (up_query p) ++ opt_text (λ s, u "#" ++ s) (up_fragment p)).
Proof.
  intros (Hal & Hsc & _)%parts_ok_spec. unfold split_scheme, url_text, netloc_of.
  change (u "://") with (ch ":" :: ch "/" :: ch "/" :: []). rewrite <- app_comm_cons, split_at_app.
  - rewrite Hal, Hsc. cbn [andb app]. by rewrite <- app_assoc.
  - rewrite list_elem_of_In. intros Hin. rewrite forallb_forall in Hsc. by apply Hsc, scheme_char_safe in Hin as (_ & _ & ?).
Qed.

(** What the rest of the URL splits into, whatever the secret parts hold. *)
Definition split_parts (p : url_parts) : SplitResult :=
  mk_split (map ascii_lower (up_scheme p)) (netloc_of p) (up_path p)
    (opt_text id (up_query p)) (opt_text id (up_fragment p)).

Lemma split_tail p :
  parts_ok p = true →
  let tail := up_path p ++ opt_text (λ s, u "?" ++ s) (up_query p) ++ opt_text (λ s, u "#" ++ s) (up_fragment p) in
  let '(url, fragment) := default (tail, []) (split_at (ch "#") tail) in
  let '(path, query) := default (url, []) (split_at (ch "?") url) in
  path = up_path p ∧ query = opt_text id (up_query p) ∧ fragment = opt_text id (up_fragment p).
Proof.
  intros (_ & _ & _ & _ & _ & Hpq & Hq)%parts_ok_spec. rewrite lacks_spec in Hpq, Hq. cbv zeta.
  assert (Hn : ch "#" ∉ up_path p ∧ ch "?" ∉ up_path p) by (split; apply Hpq; vm_compute; set_solver).
  assert (Hn' : ch "#" ∉ opt_text (λ s, u "?" ++ s) (up_query p)).
  { destruct (up_query p) as [q |]; simpl in *; [| set_solver]. apply not_elem_of_cons.
    split; [done |]. apply Hq. vm_compute. set_solver. }
  destruct Hn as [Hn1 Hn2]. rewrite app_assoc.
  assert (Hf : ∀ a, ch "#" ∉ a →
    default (a ++ opt_text (λ s, u "#" ++ s) (up_fragment p), []) (split_at (ch "#") (a ++ opt_text (λ s, u "#" ++ s) (up_fragment p)))
    = (a, opt_text id (up_fragment p))).
  { intros a Ha. destruct (up_fragment p) as [fr |]; cbn [opt_text].
    - change (u "#" ++ fr) with (ch "#" :: fr). by rewrite split_at_app.
    - rewrite app_nil_r. by rewrite split_at_none. }
  rewrite Hf by set_solver. destruct (up_query p) as [q |]; cbn [opt_text].
  - change (u "?" ++ q) with (ch "?" :: q). by rewrite split_at_app.
  - rewrite app_nil_r. by rewrite split_at_none.
Qed.

Lemma urlsplit_text p sr :
  parts_ok p = true → urlsplit (url_text p) = Ok sr → sr = split_parts (drop_unsafe_parts p).
Proof.
  intros Hp. unfold urlsplit. rewrite clean_url_text by done. apply drop_unsafe_ok in Hp.
  remember (drop_unsafe_parts p) as q eqn:E. clear E p. rewrite split_scheme_text by done.
  pose proof (split_tail q Hp) as Ht. cbv zeta in Ht.
  remember (up_path q ++ opt_text (λ s, u "?" ++ s) (up_query q) ++ opt_text (λ s, u "#" ++ s) (up_fragment q)) as tail eqn:E.
  unfold split_netloc. rewrite !N.eqb_refl. cbn [andb].
  rewrite span_prefix.
  - destruct (guard _ _); [| done]. cbn [result_bind]. destruct (if _ && _ then _ else _); [| done]. cbn [result_bind].
    destruct (default (tail, []) _) as [url fragment]. destruct (default (url, []) _) as [path query].
    destruct Ht as (-> & -> & ->). destruct (checknetloc _); [| done]. cbn [result_bind]. intros [= <-]. done.
  - apply parts_ok_spec in Hp as (_ & _ & Hui & Hhp & _). rewrite lacks_spec in Hui, Hhp.
    change (lacks (u "/?#") (netloc_of q) = true). rewrite lacks_spec. intros c Hc. unfold netloc_of.
    specialize (Hui c Hc). rewrite elem_of_app. intros [Hin | Hin].
    + destruct (up_userinfo q) as [ui |]; simpl in *; [| set_solver]. apply elem_of_app in Hin as [Hin | Hin]; [done |].
      apply list_elem_of_singleton in Hin. subst c. vm_compute in Hc. set_solver.
    + apply (Hhp c); [| done]. vm_compute in Hc |- *. set_solver.
  - subst tail. apply parts_ok_spec in Hp as (_ & _ & _ & _ & Hpa & _ & _).
    destruct (up_path q) as [| c s]; [| by apply N.eqb_eq in Hpa; subst c].
    destruct (up_query q); [done |]. by destruct (up_fragment q).
Qed.

Lemma hostinfo_netloc p : lacks (u "@") (up_hostport p) = true → hostinfo (netloc_of p) = hostinfo (up_hostport p).
Proof.
  rewrite lacks_spec. intros Hl. assert (Ha : ch "@" ∉ up_hostport p) by (apply Hl; vm_compute; set_solver).
  unfold hostinfo, netloc_of. destruct (up_userinfo p) as [ui |]; cbn [opt_text]; [| done].
  rewrite <- app_assoc. change (u "@" ++ up_hostport p) with (ch "@" :: up_hostport p).
  by rewrite after_last_app, after_last_none by done.
Qed.

Lemma safe_netloc p :
  parts_ok p = true →
  hostname_of (netloc_of p) = hostname_of (up_hostport p) ∧ port_of (netloc_of p) = port_of (up_hostport p).
Proof.
  intros (_ & _ & _ & Hhp & _)%parts_ok_spec. unfold hostname_of, port_of. rewrite hostinfo_netloc; [done |].
  rewrite lacks_spec in Hhp |- *. intros c Hc. apply Hhp. vm_compute in Hc |- *. set_solver.
Qed.

(** [scheme://host[:port]] of the public parts. *)
Definition public_origin (scheme hostport : pystr) : pystr :=
  let host := default [] (hostname_of hostport) in
  map ascii_lower scheme ++ u "://" ++ (if has (ch ":") host then u "[" ++ host ++ u "]" else host)
  ++ match port_of hostport with Ok (Some p) => u ":" ++ port_text p | _ => [] end.
Definition public_details (method scheme hostport path : pystr) (operation : option pystr) : pydict pyval :=
  [(u "method", VStr (py_upper (py_strip method)));
   (u "origin", VStr (public_origin scheme (drop_unsafe hostport)));
   (u "route", VStr (if bool_decide (drop_unsafe path = []) then u "/" else drop_unsafe path))]
  ++ match operation with Some o => [(u "operation", VStr o)] | None => [] end.

(** What a request accepted by [HttpRequest] satisfies. *)
Lemma HttpRequest_new_ok a r :
  HttpRequest_new a = Ok r →
  rq_method r = py_upper (py_strip (rq_method a)) ∧ rq_method r ≠ []
  ∧ rq_url r = rq_url a ∧ rq_operation r = rq_operation a ∧ rq_headers r = rq_headers a ∧ rq_params r = rq_params a
  ∧ rq_content r = rq_content a ∧ rq_json r = rq_json a ∧ rq_timeout r = rq_timeout a
  ∧ (rq_content r = None ∨ rq_json r = None)
  ∧ (∀ t, rq_timeout r = Some t → positive_timeout t = true)
  ∧ ∃ sr port host, urlsplit (rq_url a) = Ok sr ∧ port_of (sr_netloc sr) = Ok port ∧ web_scheme (sr_scheme sr) = true
    ∧ hostname_of (sr_netloc sr) = Some host ∧ (∀ p, port = Some p → (1 <= p <= 65535)%Z).
Proof.
  unfold HttpRequest_new. rewrite result_bind_ok. intros (sr & Hsr & Hk). rewrite result_bind_ok in Hk.
  destruct Hk as (port & Hport & Hk). rewrite !guard_bind_ok in Hk.
  destruct Hk as (Hm & Hs & Hp & Hb & _ & Ht & [= <-]). cbn.
  apply andb_true_iff in Hs as [Hw Hh]. apply bool_decide_eq_true in Hh as [host Hhost].
  apply negb_true_iff, bool_decide_eq_false in Hm.
  split_and!; try done.
  - apply orb_true_iff in Hb as [Hb | Hb]; to_prop; auto.
  - intros t Hr. by rewrite Hr in Ht.
  - exists sr, port, host. split_and!; try done. intros p ->. to_prop. done.
Qed.

(** C25: nothing secret reaches the log.  For an accepted request to a URL
    made of any parts, the fields logged with every event are the method,
    the scheme, host and port, the path and the name of the operation; the user
    information, the query and the fragment of the URL, the headers,
    parameters, body, JSON value and timeout do not occur in them. *)
Theorem outbound_log_confidential p a r details :
  parts_ok p = true → rq_url a = url_text p → HttpRequest_new a = Ok r →
  request_log_details r details =
    dict_merge (public_details (rq_method a) (up_scheme p) (up_hostport p) (up_path p) (rq_operation a)) details.
Proof.
  intros Hp Hu Hr. apply HttpRequest_new_ok in Hr as (Hm & _ & Hurl & Ho & _ & _ & _ & _ & _ & _ & _ & Hsr).
  destruct Hsr as (sr & port & host & Hsr & Hport & Hweb & Hhost & _). rewrite Hu in Hsr, Hurl.
  pose proof (urlsplit_text p sr Hp Hsr) as ->. cbn [split_parts sr_netloc sr_scheme] in *.
  destruct (safe_netloc (drop_unsafe_parts p) (drop_unsafe_ok p Hp)) as [Hh Hpt]. cbn [up_hostport drop_unsafe_parts] in Hh, Hpt.
  assert (Horigin : safe_origin (url_text p) = public_origin (up_scheme p) (drop_unsafe (up_hostport p))).
  { unfold safe_origin, public_origin. rewrite Hsr. cbn [result_bind split_parts sr_netloc sr_scheme].
    rewrite Hport. cbn [result_bind split_parts sr_netloc sr_scheme sr_path]. rewrite Hhost, Hweb. rewrite Hh in Hhost. rewrite Hpt in Hport. rewrite Hhost, Hport.
    cbn [default up_scheme drop_unsafe_parts]. destruct port; rewrite ?app_assoc, ?app_nil_r; done. }
  assert (Hroute : safe_route (url_text p) = if bool_decide (drop_unsafe (up_path p) = []) then u "/" else drop_unsafe (up_path p)).
  { unfold safe_route. rewrite Hsr. cbn [result_bind split_parts sr_netloc sr_scheme sr_path].
    rewrite Hport. cbn [result_bind split_parts sr_netloc sr_scheme sr_path]. rewrite Hhost, Hweb. done. }
  unfold request_log_details, public_details. rewrite Hm, Hurl, Ho, Horigin, Hroute. by destruct (rq_operation a).
Qed.
End Confidentiality.

(** The first value of a header is the head of its values. *)
Theorem header_first `{UrlTables} r name : header r name = head (header_values r name).
Proof.
  unfold header, header_values. destruct r as [status hs content]; simpl. clear status content.
  induction hs as [| [n v] hs IH]; simpl; [done |]. by case_bool_decide.
Qed.

(** An accepted request has one body: a JSON null is sent as the text
    [null] with a content type, everything else is handed on as it was given;
    an empty mapping of parameters leaves the query of the URL alone. *)
Theorem request_arguments_exact `{UnicodeTables} `{UrlTables} {HX} `{HttpxHeaders HX} a r :
  HttpRequest_new a = Ok r →
  let args := build_httpx2_request_arguments (H:=HX) r in
  (ha_content args = None ∨ ha_json args = None)
  ∧ (ha_params args = None ↔ rq_params a = [])
  ∧ (rq_json a = Some VNone → ha_content args = Some (BodyBytes null_text) ∧ ha_json args = None)
  ∧ (rq_json a ≠ Some VNone → ha_content args = rq_content a ∧ ha_json args = rq_json a
       ∧ ha_headers args = HeadersMapping (rq_headers a)).
Proof.
  intros (_ & _ & _ & _ & Hh & Hp & Hc & Hj & _ & Hb & _)%HttpRequest_new_ok. cbv zeta.
  assert (Hparams : ha_params (build_httpx2_request_arguments (H:=HX) r) = None ↔ rq_params a = []).
  { rewrite <- Hp. unfold build_httpx2_request_arguments. clear Hp. destruct (rq_json r) as [[] |]; cbn [ha_params];
      case_bool_decide as E; (split; [try done; intros _; by apply length_zero_iff_nil | intros Ep; by rewrite Ep in E]). }
  split; [| split; [exact Hparams |]].
  - unfold build_httpx2_request_arguments. destruct (rq_json r) as [[] |]; cbn; auto; destruct Hb; auto; done.
  - unfold build_httpx2_request_arguments. rewrite <- Hj, <- Hc, <- Hh.
    split; [intros Ej; by rewrite Ej |]. intros Hn. by destruct (rq_json r) as [[] |].
Qed.

(** ** A concrete request *)
Definition plain_urls : UrlTables :=
  {| nfkc := id; bracketed_host_ok := λ _, true; upper_rest := λ c, [c]; casefold_rest := λ c, [c] |}.
Definition demo_parts : url_parts :=
  mk_parts (u "https") (Some (u "alice:s3cret")) (u "API.example.com:8443") (u "/v1/pay") (Some (u "token=abc")) (Some (u "x@y")).
Definition demo_request : HttpRequest :=
  mk_request (u " post ") (url_text demo_parts) (Some (u "pay")) [(u "authorization", u "Bearer abc")] [] None (Some VNone) None.

Lemma outbound_log_confidential_witness :
  ∃ r, @HttpRequest_new plain_tables plain_urls demo_request = Ok r ∧
  @request_log_details plain_tables plain_urls r [(u "status_code", VInt 200)] =
    [(u "method", VStr (u "POST")); (u "origin", VStr (u "https://api.example.com:8443"));
     (u "route", VStr (u "/v1/pay")); (u "operation", VStr (u "pay")); (u "status_code", VInt 200)].
Proof.
  assert (Hp : parts_ok demo_parts = true) by (vm_compute; reflexivity).
  pose proof (λ r, @outbound_log_confidential plain_tables plain_urls demo_parts demo_request r
    [(u "status_code", VInt 200)] Hp eq_refl) as Hlog.
  destruct (@HttpRequest_new plain_tables plain_urls demo_request) as [r | e] eqn:Hr; [| vm_compute in Hr; discriminate Hr].
  exists r. split; [reflexivity |]. etransitivity; [apply (Hlog r eq_refl) | vm_compute; reflexivity].
Defined.
