(* ===== verification/HttpClient.v ===== *)
(** * HttpClient: the outbound HTTP client over httpx2

    Models [infrastructure/http]: the pool diagnostics ([drivers/httpx2/pool.py]),
    the request context and its error mapping ([stream.py]), buffering and
    closing ([resource.py], [factory.py]), the managed client and its log
    ([clients/managed.py]) and the lazily created resource ([manager.py]).

    The world is the state of this component and an environment [W].  The
    calls of httpx2 and the body of the caller may change both: other tasks
    run while they are awaited.  [hs_log] holds the records this call
    writes.  The generator behind [open_httpx2_stream] is written as the code
    before its [yield] and the code after it. *)

From Stdlib Require Import Floats.SpecFloat.
From S2P Require Import Prelude Text PyVal Errors Floats Decimal Lazy Runtime VectorModels HttpRequest.
Local Open Scope prog_scope.

(** ** drivers/httpx2/pool.py *)
Record HttpPoolRuntime := mk_pool {
  pl_name : pystr; pl_limit : Z; pl_warning_ratio : spec_float;
  pl_active : Z; pl_peak_active : Z; pl_cancelled : Z; pl_pool_timeout : Z }.

Definition warning_at (p : HttpPoolRuntime) : result exn Z :=
  let? limit := int_float (pl_limit p) in
  let? threshold := float_ceil (SFmul 53 1024 limit (pl_warning_ratio p)) in
  Ok (Z.max 1 threshold).
Definition under_pressure (p : HttpPoolRuntime) : result exn bool :=
  let? w := warning_at p in Ok (w <=? pl_active p)%Z.
Definition with_active (active peak : Z) (p : HttpPoolRuntime) : HttpPoolRuntime :=
  mk_pool (pl_name p) (pl_limit p) (pl_warning_ratio p) active peak (pl_cancelled p) (pl_pool_timeout p).
Definition pool_acquire (p : HttpPoolRuntime) : HttpPoolRuntime * result exn bool :=
  match under_pressure p with
  | Err e => (p, Err e)
  | Ok before =>
      let p' := with_active (pl_active p + 1) (Z.max (pl_peak_active p) (pl_active p + 1)) p in
      (p', let? after := under_pressure p' in Ok (negb before && after))
  end.
Definition pool_release (p : HttpPoolRuntime) : HttpPoolRuntime :=
  with_active (Z.max 0 (pl_active p - 1)) (pl_peak_active p) p.
Definition count_cancelled (p : HttpPoolRuntime) : HttpPoolRuntime :=
  mk_pool (pl_name p) (pl_limit p) (pl_warning_ratio p) (pl_active p) (pl_peak_active p)
    (pl_cancelled p + 1) (pl_pool_timeout p).
Definition count_pool_timeout (p : HttpPoolRuntime) : HttpPoolRuntime :=
  mk_pool (pl_name p) (pl_limit p) (pl_warning_ratio p) (pl_active p) (pl_peak_active p)
    (pl_cancelled p) (pl_pool_timeout p + 1).
Definition pool_log_details (p : HttpPoolRuntime) : result exn (pydict pyval) :=
  let? usage := int_div (pl_active p) (pl_limit p) in
  Ok [(u "pool", VStr (pl_name p)); (u "active", VInt (pl_active p)); (u "peak_active", VInt (pl_peak_active p));
      (u "limit", VInt (pl_limit p)); (u "usage", VFloat (py_round 4 usage));
      (u "cancelled", VInt (pl_cancelled p)); (u "pool_timeout", VInt (pl_pool_timeout p))].

(** ** Log records *)
Inductive HttpLogEvent :=
| REQUEST_COMPLETED | REQUEST_FAILED | REQUEST_CANCELLED
| STREAM_CONNECTED | STREAM_COMPLETED | STREAM_FAILED | STREAM_CANCELLED
| POOL_PRESSURE | POOL_TIMEOUT | RESOURCE_CREATED | RESOURCE_CLOSED.
Record log_record := mk_log { lr_level : log_level; lr_event : HttpLogEvent; lr_details : pydict pyval }.

(** ** The state of the component *)
Inductive pool := Standard | Stream.
#[export] Instance pool_eq_dec : EqDecision pool.
Proof. solve_decision. Defined.

(** [hs_resource]: the [AsyncLazy] of the manager; the resource is known by
    its [max_response_bytes]. *)
Record HttpState := mk_http {
  hs_standard : HttpPoolRuntime; hs_stream : HttpPoolRuntime;
  hs_log : list log_record; hs_resource : lazy_fields Z }.
Definition pool_of (k : pool) (s : HttpState) : HttpPoolRuntime :=
  match k with Standard => hs_standard s | Stream => hs_stream s end.
Definition set_pool (k : pool) (p : HttpPoolRuntime) (s : HttpState) : HttpState :=
  match k with
  | Standard => mk_http p (hs_stream s) (hs_log s) (hs_resource s)
  | Stream => mk_http (hs_standard s) p (hs_log s) (hs_resource s)
  end.
Definition add_log (l : log_record) (s : HttpState) : HttpState :=
  mk_http (hs_standard s) (hs_stream s) (hs_log s ++ [l]) (hs_resource s).

(** [config/http.py] *)
Record HttpPoolSettings := mk_pool_settings {
  ps_timeout : spec_float; ps_max_connections : Z; ps_max_keepalive_connections : Z; ps_keepalive_expiry : spec_float }.
Record HttpSettings := mk_http_settings {
  st_pool : HttpPoolSettings; st_stream_pool : HttpPoolSettings;
  st_pool_warning_ratio : spec_float; st_max_response_bytes : Z }.
(** [validate_connections], after the field bounds *)
Definition HttpPoolSettings_ok (p : HttpPoolSettings) : bool :=
  positive_timeout (ps_timeout p) && (1 <=? ps_max_connections p)%Z && (0 <=? ps_max_keepalive_connections p)%Z
  && positive_timeout (ps_keepalive_expiry p) && (ps_max_keepalive_connections p <=? ps_max_connections p)%Z.

Section Client.
Context `{UnicodeTables} `{UrlTables} {HX} `{HttpxHeaders HX} {W R : Type}.
Abbreviation world := (HttpState * W)%type.
Abbreviation act A := (io world A).

(** httpx2 and the interpreter.  [hx_handling] is the exception the frames
    around the call are handling; [sys.exc_info] finds it when the context
    itself ended normally. *)
Class HttpxClient := {
  hx_enter : pool → httpx_arguments HX → act R;        (* client.stream(...).__aenter__() *)
  hx_exit : R → option exn → act unit;
  hx_status_code : R → Z;
  hx_multi_items : R → HttpHeaders;
  hx_next : R → act (option (Byte.byte * pybytes));    (* the next chunk: httpx2 skips empty ones *)
  hx_aread : R → act pybytes;
  hx_next_text : R → act (option pystr);
  hx_aclose : pool → act unit;
  hx_client_id : pool → pystr;
  hx_handling : W → option exn;
  hx_perf_counter : W → spec_float;
  hx_type_name : exn → pystr;                          (* type(error).__name__ *)
  hx_create : HttpSettings → act unit;                 (* the two AsyncClient constructors *)
}.
Context `{HttpxClient}.

Definition on_http (f : HttpState → HttpState) : act unit := modify (λ w, (f w.1, w.2)).
Definition write_http_log (level : log_level) (event : HttpLogEvent) (request : HttpRequest) (details : pydict pyval) :
  act unit := on_http (add_log (mk_log level event (request_log_details request details))).

(** ** drivers/httpx2/stream.py *)

(** [Httpx2StreamResponse]: the clauses of [aread], [aiter_bytes] and [aiter_text]. *)
Definition read_errors {A} (m : act A) : act A :=
  catch m (λ e, if is_httpx_timeout e then raise HttpTimeoutError
                else if is_httpx_request_error e then raise HttpTransportError else raise e).
Definition stream_aread (r : R) : act pybytes := read_errors (hx_aread r).
Definition stream_next_bytes (r : R) : act (option (Byte.byte * pybytes)) := read_errors (hx_next r).
Definition stream_next_text (r : R) : act (option pystr) := read_errors (hx_next_text r).

Definition runtime_acquire (k : pool) : act bool :=
  λ w, let '(p, r) := pool_acquire (pool_of k w.1) in ((set_pool k p w.1, w.2), r).
Definition runtime_release (k : pool) : act unit := on_http (λ s, set_pool k (pool_release (pool_of k s)) s).
Definition runtime_log_details (k : pool) : act (pydict pyval) :=
  let* p := read (λ w : world, pool_of k w.1) in lift (pool_log_details p).

Definition is_cancelled (e : exn) : bool := match e with CancelledError => true | _ => false end.
(** The [except] clauses: the exception they leave with. *)
Definition except_clauses (k : pool) (request : HttpRequest) (e : exn) : act exn :=
  if is_cancelled e then
    on_http (λ s, set_pool k (count_cancelled (pool_of k s)) s);;; ret e
  else match e with
  | HttpxPoolTimeout =>
      on_http (λ s, set_pool k (count_pool_timeout (pool_of k s)) s);;;
      let* details := runtime_log_details k in
      write_http_log LogWarning POOL_TIMEOUT request ((u "client_id", VStr (hx_client_id k)) :: details);;;
      ret HttpPoolTimeoutError
  | _ =>
      if is_httpx_timeout e then ret HttpTimeoutError
      else if is_httpx_request_error e then ret HttpTransportError
      else ret e
  end.
(** The [finally] clause. *)
Definition leave_context (k : pool) (entered : option R) (error : option exn) : act unit :=
  finally (match entered with Some r => hx_exit r error | None => ret tt end) (runtime_release k).
Definition unwind {A} (k : pool) (request : HttpRequest) (entered : option R) (e : exn) : act A :=
  let* outcome := attempt (except_clauses k request e) in
  let error := match outcome with Ok e' | Err e' => e' end in
  leave_context k entered (Some error);;; raise error.

(** [open_httpx2_stream] up to its [yield], and from it on: the caller's
    block ended with [error]. *)
Definition stream_enter (k : pool) (request : HttpRequest) : act R :=
  let arguments := build_httpx2_request_arguments request in
  let* pressed := runtime_acquire k in
  when pressed
    (let* details := runtime_log_details k in write_http_log LogWarning POOL_PRESSURE request details);;;
  catch (hx_enter k arguments) (unwind k request None).
Definition stream_exit (k : pool) (request : HttpRequest) (r : R) (error : option exn) : act unit :=
  match error with
  | None => let* outer := read (λ w : world, hx_handling w.2) in leave_context k (Some r) outer
  | Some e => unwind k request (Some r) e
  end.

(** [async with]: the exit runs however the block ended; an exception of
    the exit replaces that of the block. *)
Definition async_with {X A} (enter : act X) (exit : X → option exn → act unit) (block : X → act A) : act A :=
  let* x := enter in
  let* outcome := attempt (block x) in
  exit x (result_err outcome);;;
  lift outcome.

(** ** drivers/httpx2/resource.py *)

(** [_read_limited].  A chunk is not empty, so [fuel] is enough when it is
    the number of bytes still allowed. *)
Fixpoint read_limited (max : Z) (r : R) (fuel : nat) (content : pybytes) : act pybytes :=
  let* next := stream_next_bytes r in
  match next with
  | None => ret content
  | Some (b, bs) =>
      let chunk := b :: bs in
      if (max <? Z.of_nat (length content) + Z.of_nat (length chunk))%Z
      then raise (HttpResponseTooLargeError max)
      else match fuel with
           | S fuel => read_limited max r fuel (content ++ chunk)
           | O => ret content
           end
  end.
Definition resource_request (max : Z) (request : HttpRequest) : act HttpResponse :=
  async_with (stream_enter Standard request) (stream_exit Standard request) (λ r,
    let* content := read_limited max r (Z.to_nat max) [] in
    ret (mk_response (hx_status_code r) (hx_multi_items r) content)).
Definition write_event (event : HttpLogEvent) : act unit := on_http (add_log (mk_log LogInfo event [])).
Definition resource_aclose : act unit :=
  let* errors := collect_errors (map hx_aclose [Stream; Standard]) in
  raise_group errors;;;
  write_event RESOURCE_CLOSED.
(** [create_httpx2_resource] *)
Definition new_pool (name : pystr) (limit : Z) (ratio : spec_float) : HttpPoolRuntime := mk_pool name limit ratio 0 0 0 0.
Definition create_httpx2_resource (settings : HttpSettings) : act Z :=
  hx_create settings;;;
  on_http (λ s, mk_http
    (new_pool (u "standard") (ps_max_connections (st_pool settings)) (st_pool_warning_ratio settings))
    (new_pool (u "stream") (ps_max_connections (st_stream_pool settings)) (st_pool_warning_ratio settings))
    (hs_log s) (hs_resource s));;;
  write_event RESOURCE_CREATED;;;
  ret (st_max_response_bytes settings).

(** ** contracts/driver.py: what the managed client asks of a driver *)
Record HttpDriver := mk_driver {
  drv_request : HttpRequest → act HttpResponse;
  drv_enter : HttpRequest → act R;
  drv_exit : HttpRequest → R → option exn → act unit;
  drv_aclose : act unit;
}.
Definition httpx2_driver (max : Z) : HttpDriver :=
  mk_driver (resource_request max) (stream_enter Stream) (stream_exit Stream) resource_aclose.

(** ** clients/managed.py *)
Definition perf_counter : act spec_float := read (λ w : world, hx_perf_counter w.2).
Definition duration_ms (started_at : spec_float) : act (pystr * pyval) :=
  let* now := perf_counter in
  ret (u "duration_ms", VFloat (elapsed_ms started_at now)).

Definition managed_request (driver : HttpDriver) (request : HttpRequest) : act HttpResponse :=
  let* started_at := perf_counter in
  let* response := catch (drv_request driver request) (λ e,
    (if is_cancelled e then
       let* d := duration_ms started_at in write_http_log LogInfo REQUEST_CANCELLED request [d]
     else when (is_exception e)
       (let* d := duration_ms started_at in
        write_http_log LogError REQUEST_FAILED request [d; (u "error_type", VStr (hx_type_name e))]));;;
    raise e) in
  let* d := duration_ms started_at in
  write_http_log LogInfo REQUEST_COMPLETED request
    [(u "status_code", VInt (rs_status_code response)); d;
     (u "response_size", VInt (Z.of_nat (length (rs_content response))))];;;
  ret response.

(** [_stream] around the caller's block [body]. *)
Definition caller_error (e : exn) : bool := is_exception e && negb (is_outbound_http_error e).
Definition status_detail (status : option Z) : pystr * pyval :=
  (u "status_code", match status with Some z => VInt z | None => VNone end).
Definition stream_failure (request : HttpRequest) (started_at : spec_float) (status : option Z) (caller_failed : bool)
    (e : exn) : act unit :=
  (if is_cancelled e then
     let* d := duration_ms started_at in
     write_http_log LogInfo STREAM_CANCELLED request [status_detail status; d]
   else when (is_exception e && negb caller_failed)
     (let* d := duration_ms started_at in
      write_http_log LogError STREAM_FAILED request [status_detail status; d; (u "error_type", VStr (hx_type_name e))]));;;
  raise e.
Definition managed_stream {A} (driver : HttpDriver) (request : HttpRequest) (body : R → act A) : act A :=
  let* started_at := perf_counter in
  let* response := catch (drv_enter driver request) (λ e,
    stream_failure request started_at None false e;;; raise e) in
  let status := Some (hx_status_code response) in
  write_http_log LogInfo STREAM_CONNECTED request [status_detail status];;;
  let* outcome := attempt (body response) in
  let caller_failed := match outcome with Err e => caller_error e | Ok _ => false end in
  let* result := catch (drv_exit driver request response (result_err outcome);;; lift outcome)
    (λ e, stream_failure request started_at status caller_failed e;;; raise e) in
  let* d := duration_ms started_at in
  write_http_log LogInfo STREAM_COMPLETED request [status_detail status; d];;;
  ret result.

(** ** manager.py *)
Definition resource_ref : lazy_ref world Z :=
  mk_ref (λ w : world, hs_resource w.1)
         (λ f w, (mk_http (hs_standard w.1) (hs_stream w.1) (hs_log w.1) f, w.2)).
Definition manager_get (settings : HttpSettings) : act Z :=
  lazy_get resource_ref (create_httpx2_resource settings).
Definition manager_request (settings : HttpSettings) (request : HttpRequest) : act HttpResponse :=
  let* max := manager_get settings in managed_request (httpx2_driver max) request.
Definition manager_stream {A} (settings : HttpSettings) (request : HttpRequest) (body : R → act A) : act A :=
  let* max := manager_get settings in managed_stream (httpx2_driver max) request body.
Definition manager_aclose : act unit := lazy_aclose resource_ref (λ max, drv_aclose (httpx2_driver max)).
End Client.

(** ** Proofs *)
Section ClientProofs.
Context `{UnicodeTables} `{UrlTables} {HX} `{HttpxHeaders HX} {W R : Type} `{!HttpxClient (HX:=HX) (W:=W) (R:=R)}.
Abbreviation world := (HttpState * W)%type.
Abbreviation act A := (io world A).

(** The contexts other tasks have open on a pool, and those this task has. *)
Context (others : pool → W → nat).
Definition own (k : pool) (w : world) : Z := (pl_active (pool_of k w.1) - Z.of_nat (others k w.2))%Z.
Definition pool_static (p : HttpPoolRuntime) : pystr * Z * spec_float := (pl_name p, pl_limit p, pl_warning_ratio p).

(** From [w] to [w'] this task opened [d] contexts on [k], net, and wrote [l]. *)
Definition moves (k : pool) (d : Z) (l : list log_record) (w w' : world) : Prop :=
  (∀ k', pool_static (pool_of k' w'.1) = pool_static (pool_of k' w.1)
         ∧ own k' w' = (own k' w + if decide (k' = k) then d else 0)%Z)
  ∧ hs_log w'.1 = hs_log w.1 ++ l.
(** What other tasks do while a call is awaited leaves the own contexts and
    records alone. *)
Definition keeps (w w' : world) : Prop := moves Standard 0 [] w w'.
Definition keeping {A} (m : act A) : Prop := ∀ w w' r, m w = (w', r) → keeps w w'.
Record environment : Prop := {
  env_enter k a : keeping (hx_enter k a);
  env_exit r e : keeping (hx_exit r e);
  env_next r : keeping (hx_next r);
}.

Definition pool_ok (k : pool) (w : world) : Prop :=
  (0 < pl_limit (pool_of k w.1))%Z ∧ is_ok (warning_at (pool_of k w.1)) = true.

Lemma moves_trans k d1 d2 l1 l2 w w1 w2 :
  moves k d1 l1 w w1 → moves k d2 l2 w1 w2 → moves k (d1 + d2) (l1 ++ l2) w w2.
Proof.
  intros [Hp1 Hl1] [Hp2 Hl2]. split; [| by rewrite Hl2, Hl1, app_assoc].
  intros k'. destruct (Hp1 k') as [Hs1 Ho1], (Hp2 k') as [Hs2 Ho2]. split; [congruence |].
  rewrite Ho2, Ho1. destruct (decide (k' = k)); lia.
Qed.
Lemma moves_refl k w : moves k 0 [] w w.
Proof. split; [| by rewrite app_nil_r]. intros k'. split; [done |]. case_decide; lia. Qed.
Lemma keeps_moves k w w' : keeps w w' → moves k 0 [] w w'.
Proof. intros [Hp Hl]. split; [| done]. intros k'. destruct (Hp k') as [Hs Ho]. split; [done |]. rewrite Ho. by repeat case_decide. Qed.
Lemma moves_keep k d l w w1 w2 : moves k d l w w1 → keeps w1 w2 → moves k d l w w2.
Proof.
  intros Ha Hb%(keeps_moves k). pose proof (moves_trans _ _ _ _ _ _ _ _ Ha Hb) as Ht.
  by rewrite app_nil_r, Z.add_0_r in Ht.
Qed.
Lemma keep_moves k d l w w1 w2 : keeps w w1 → moves k d l w1 w2 → moves k d l w w2.
Proof. intros Ha%(keeps_moves k) Hb. apply (moves_trans _ _ _ _ _ _ _ _ Ha Hb). Qed.
Lemma moves_own k d l w w' : moves k d l w w' → own k w' = (own k w + d)%Z.
Proof. intros [Hp _]. destruct (Hp k) as [_ ->]. by rewrite decide_True. Qed.
Lemma pool_ok_moves k k' d l w w' : moves k d l w w' → pool_ok k' w → pool_ok k' w'.
Proof.
  intros [Hp _] [Hl Hw]. destruct (Hp k') as [[= Hn Hm Hr] _]. unfold pool_ok, warning_at in *. by rewrite Hm, Hr.
Qed.

(** ** The steps *)

Lemma set_pool_moves k p d w :
  pool_static p = pool_static (pool_of k w.1) → pl_active p = (pl_active (pool_of k w.1) + d)%Z →
  moves k d [] w (set_pool k p w.1, w.2).
Proof.
  intros Hs Ha. split; [| destruct k; simpl; by rewrite app_nil_r].
  intros k'. unfold own. destruct k, k'; simpl in *; (split; [done || by rewrite Hs |]); lia.
Qed.
Lemma add_log_moves k l w : moves k 0 [l] w (add_log l w.1, w.2).
Proof. split; [| done]. intros []; (split; [done |]); unfold own; simpl; case_decide; lia. Qed.

Lemma wp_acquire k (Φ : result exn bool → world → Prop) w :
  pool_ok k w → (∀ b w', moves k 1 [] w w' → Φ (Ok b) w') → wp (runtime_acquire k) Φ w.
Proof.
  intros [_ Hw] HΦ. unfold wp, runtime_acquire, pool_acquire, under_pressure, warning_at in *.
  destruct (pool_of k w.1) as [n l r a p c t] eqn:Hp. cbn [pl_limit pl_warning_ratio pl_active with_active] in *.
  destruct (int_float l) as [f |]; [| done]. cbn [result_bind] in *.
  destruct (float_ceil _) as [z |]; [| done]. cbn [result_bind] in *.
  apply HΦ, set_pool_moves; by rewrite Hp.
Qed.
Lemma wp_release k (Φ : result exn unit → world → Prop) w :
  (1 <= own k w)%Z → (∀ w', moves k (-1) [] w w' → Φ (Ok tt) w') → wp (runtime_release k) Φ w.
Proof.
  intros Ho HΦ. unfold wp, runtime_release, on_http, modify. apply HΦ, set_pool_moves; [done |].
  unfold own in Ho. simpl. lia.
Qed.
Lemma wp_details k (Φ : result exn (pydict pyval) → world → Prop) w :
  pool_ok k w → (∀ d, Φ (Ok d) w) → wp (runtime_log_details k) Φ w.
Proof.
  intros [Hl _] HΦ. unfold wp, runtime_log_details, bind, read, lift, pool_log_details, int_div.
  rewrite (proj2 (Z.eqb_neq _ 0)) by lia. apply HΦ.
Qed.

(** A record about [request] with one of the events [evs]. *)
Definition record_of (request : HttpRequest) (evs : list HttpLogEvent) (l : log_record) : Prop :=
  lr_event l ∈ evs ∧ ∃ d, lr_details l = request_log_details request d.
Definition pool_warnings : list HttpLogEvent := [POOL_PRESSURE; POOL_TIMEOUT].

Lemma wp_write k level event request d (Φ : result exn unit → world → Prop) w :
  (∀ l w', lr_event l = event → record_of request [event] l → moves k 0 [l] w w' → Φ (Ok tt) w') →
  wp (write_http_log level event request d) Φ w.
Proof.
  intros HΦ. unfold wp, write_http_log, on_http, modify. eapply HΦ; [.. | apply add_log_moves]; [done |].
  split; [set_solver | by exists d].
Qed.

(** ** The request context *)

(** The exception a context of httpx2 that raised [e] leaves with. *)
Definition converted (e : exn) : exn :=
  match e with
  | HttpxPoolTimeout => HttpPoolTimeoutError
  | HttpxTimeoutException => HttpTimeoutError
  | HttpxRequestError => HttpTransportError
  | e => e
  end.
Lemma converted_clean e : is_httpx_request_error (converted e) = false.
Proof. by destruct e. Qed.

Lemma wp_except_clauses k request e (Φ : result exn exn → world → Prop) w :
  pool_ok k w →
  (∀ l w', Forall (record_of request pool_warnings) l → moves k 0 l w w' → Φ (Ok (converted e)) w') →
  wp (except_clauses k request e) Φ w.
Proof.
  intros Hok HΦ.
  assert (Hskip : Φ (Ok (converted e)) w) by (apply (HΦ []); [constructor | apply moves_refl]).
  unfold except_clauses. destruct (is_cancelled e) eqn:Hc.
  { destruct e; try done. apply wp_bind. unfold wp, on_http, modify, ret. apply (HΦ []); [constructor |].
    apply set_pool_moves; [done |]. simpl. lia. }
  destruct e; try exact Hskip.
  apply wp_bind. unfold wp at 1, on_http, modify.
  assert (Hm : moves k 0 [] w (set_pool k (count_pool_timeout (pool_of k w.1)) w.1, w.2)).
  { apply set_pool_moves; [done |]. simpl. lia. }
  apply wp_bind, wp_details; [by eapply pool_ok_moves |]. intros d.
  apply wp_bind, (wp_write k). intros l w1 _ [Hl Hd] Hm1. apply wp_ret, (HΦ [l]).
  - constructor; [| constructor]. split; [| done]. unfold pool_warnings. set_solver.
  - apply (moves_trans _ _ _ _ _ _ _ _ Hm Hm1).
Qed.

Context (Henv : environment).

Lemma wp_leave_context k entered o (Φ : result exn unit → world → Prop) w :
  (1 <= own k w)%Z →
  (∀ w' res, moves k (-1) [] w w' →
    (∀ e, res = Err e → ∃ r w1 w2, entered = Some r ∧ hx_exit r o w1 = (w2, Err e)) → Φ res w') →
  wp (leave_context k entered o) Φ w.
Proof.
  intros Ho HΦ. unfold leave_context, finally, wp.
  assert (Hx : ∃ w1 res, match entered with Some r => hx_exit r o | None => ret tt end w = (w1, res) ∧ keeps w w1
    ∧ (∀ e, res = Err e → ∃ r w1 w2, entered = Some r ∧ hx_exit r o w1 = (w2, Err e))).
  { destruct entered as [r |].
    - destruct (hx_exit r o w) as [w1 res] eqn:Hr. exists w1, res. split; [done |]. split; [by eapply env_exit |].
      intros e ->. eauto.
    - exists w, (Ok tt). split; [done |]. split; [apply moves_refl | done]. }
  destruct Hx as (w1 & res & -> & Hk & Hres).
  pose proof (wp_release k (λ r w', r = Ok tt ∧ moves k (-1) [] w1 w') w1) as Hrel. unfold wp in Hrel.
  destruct (runtime_release k w1) as [w2 r2].
  destruct Hrel as [-> Hm]; [rewrite (moves_own _ _ _ _ _ (keeps_moves k _ _ Hk)); lia | done |].
  apply HΦ; [by eapply keep_moves | done].
Qed.

(** How a context ends that leaves with [e'], up to an error of the exit. *)
Lemma wp_unwind {A} k request entered e (Φ : result exn A → world → Prop) w :
  pool_ok k w → (1 <= own k w)%Z →
  (∀ l w' e', Forall (record_of request pool_warnings) l → moves k (-1) l w w' →
    (e' = converted e ∨ ∃ r w1 w2, entered = Some r ∧ hx_exit r (Some (converted e)) w1 = (w2, Err e')) → Φ (Err e') w') →
  wp (unwind k request entered e) Φ w.
Proof.
  intros Hok Ho HΦ. unfold unwind. apply wp_bind, wp_attempt, wp_except_clauses; [done |].
  intros l w1 Hl Hm. cbn iota.
  apply wp_bind, wp_leave_context; [rewrite (moves_own _ _ _ _ _ Hm); lia |].
  intros w2 res Hm2 Hres. pose proof (moves_trans _ _ _ _ _ _ _ _ Hm Hm2) as Hm'. rewrite app_nil_r in Hm'.
  destruct res as [[] | e'].
  - apply wp_raise. eapply HΦ; [exact Hl | exact Hm' | by left].
  - eapply HΦ; [exact Hl | exact Hm' | right; by apply Hres].
Qed.

Lemma wp_stream_enter k request (Φ : result exn R → world → Prop) w :
  pool_ok k w → (0 <= own k w)%Z →
  (∀ l w' w0 r, Forall (record_of request pool_warnings) l → moves k 1 l w w' →
    hx_enter k (build_httpx2_request_arguments request) w0 = (w', Ok r) → Φ (Ok r) w') →
  (∀ l w' w0 w1 e, Forall (record_of request pool_warnings) l → moves k 0 l w w' →
    hx_enter k (build_httpx2_request_arguments request) w0 = (w1, Err e) → Φ (Err (converted e)) w') →
  wp (stream_enter k request) Φ w.
Proof.
  intros Hok Ho HOk HErr. unfold stream_enter. cbv zeta. apply wp_bind, wp_acquire; [done |]. intros pressed w1 Hm1.
  assert (Hw : wp (when pressed (let* details := runtime_log_details k in write_http_log LogWarning POOL_PRESSURE request details))
    (λ r w2, r = Ok tt ∧ ∃ l, Forall (record_of request pool_warnings) l ∧ moves k 1 l w w2) w1).
  { destruct pressed; simpl; [| split; [done |]; by exists []].
    apply wp_bind, wp_details; [by eapply pool_ok_moves |]. intros d. apply (wp_write k). intros l w2 _ [Hl Hd] Hm2.
    split; [done |]. exists [l]. split; [| by apply (moves_trans _ _ _ _ _ _ _ _ Hm1 Hm2)].
    constructor; [| constructor]. split; [| done]. unfold pool_warnings. set_solver. }
  apply wp_bind. eapply wp_mono; [exact Hw |]. intros res w2 (-> & l & Hl & Hm2).
  apply wp_catch, wp_of_run. intros w3 r Hr. pose proof (env_enter Henv _ _ _ _ _ Hr) as Hk3.
  pose proof (moves_keep _ _ _ _ _ _ Hm2 Hk3) as Hm3.
  destruct r as [r | e]; [by eapply HOk |].
  apply wp_unwind; [by eapply pool_ok_moves | rewrite (moves_own _ _ _ _ _ Hm3); lia |].
  intros l' w4 e' Hl' Hm4 He'. pose proof (moves_trans _ _ _ _ _ _ _ _ Hm3 Hm4) as Hm5.
  destruct He' as [-> | (? & ? & ? & ? & _)]; [| done].
  eapply HErr; [| exact Hm5 | exact Hr]. by apply Forall_app.
Qed.

(** The block ended with [outcome]: what the context makes of it. *)
Lemma wp_stream_exit k request r outcome (Φ : result exn unit → world → Prop) w :
  pool_ok k w → (1 <= own k w)%Z →
  (∀ l w' res, Forall (record_of request pool_warnings) l → moves k (-1) l w w' →
    (match outcome with None => res = Ok tt | Some e => res = Err (converted e) end
     ∨ ∃ o w1 w2 e', hx_exit r o w1 = (w2, Err e') ∧ res = Err e') → Φ res w') →
  wp (stream_exit k request r outcome) Φ w.
Proof.
  intros Hok Ho HΦ. destruct outcome as [e |]; simpl.
  - apply wp_unwind; [done.. |]. intros l w' e' Hl Hm He. eapply HΦ; [exact Hl | exact Hm |].
    destruct He as [-> | (r' & w1 & w2 & [= <-] & Hx)]; [by left |]. right. eauto 8.
  - apply wp_bind. unfold wp at 1, read. apply wp_leave_context; [done |].
    intros w' res Hm Hres. apply (HΦ []); [constructor | done |].
    destruct res as [[] | e]; [by left |]. right. destruct (Hres e eq_refl) as (r' & w1 & w2 & [= <-] & Hx). eauto 8.
Qed.

(** ** Buffered requests *)

(** The connection delivers the body [content] and ends. *)
Inductive delivers (r : R) : world → pybytes → world → Prop :=
| delivers_end w w' : hx_next r w = (w', Ok None) → delivers r w [] w'
| delivers_chunk w w1 b bs content w' :
    hx_next r w = (w1, Ok (Some (b, bs))) → delivers r w1 content w' → delivers r w ((b :: bs) ++ content) w'.

(** The exception a read that raised [e] ends with, and how the context it
    was made in passes it on. *)
Definition read_converted (e : exn) : exn :=
  if is_httpx_timeout e then HttpTimeoutError else if is_httpx_request_error e then HttpTransportError else e.
Lemma converted_read e : converted (read_converted e) = read_converted e.
Proof. by destruct e. Qed.
Lemma read_converted_clean e : is_httpx_request_error (read_converted e) = false.
Proof. by destruct e. Qed.

Lemma wp_read_errors {A} (m : act A) (Φ : result exn A → world → Prop) w :
  (∀ w' a, m w = (w', Ok a) → Φ (Ok a) w') →
  (∀ w' e, m w = (w', Err e) → Φ (Err (read_converted e)) w') →
  wp (read_errors m) Φ w.
Proof.
  intros HOk HErr. apply wp_catch, wp_of_run. intros w' [a | e] Hr; [by apply HOk |].
  specialize (HErr _ _ Hr). unfold read_converted in HErr.
  destruct (is_httpx_timeout e) eqn:Ht; [done |]. by destruct (is_httpx_request_error e).
Qed.

(** Why reading the body failed. *)
Definition read_failure (max : Z) (r : R) (e : exn) : Prop :=
  e = HttpResponseTooLargeError max ∨ ∃ w0 w1 e0, hx_next r w0 = (w1, Err e0) ∧ e = read_converted e0.

Lemma wp_read_limited max r (Φ : result exn pybytes → world → Prop) : ∀ fuel content w,
  (max <= Z.of_nat (length content) + Z.of_nat fuel)%Z → (Z.of_nat (length content) <= max)%Z →
  (∀ w' d, keeps w w' → delivers r w d w' → (Z.of_nat (length (content ++ d)) <= max)%Z → Φ (Ok (content ++ d)) w') →
  (∀ w' e, keeps w w' → read_failure max r e → Φ (Err e) w') →
  wp (read_limited max r fuel content) Φ w.
Proof.
  induction fuel as [| fuel IH]; intros content w Hf Hc HOk HErr; cbn [read_limited]; apply wp_bind, wp_read_errors.
  all: try (intros w1 e Hr; apply HErr; [by eapply env_next | right; by exists w, w1, e]).
  all: intros w1 [[b bs] |] Hr; pose proof (env_next Henv _ _ _ _ Hr) as Hk.
  all: try (apply wp_ret; rewrite <- (app_nil_r content); apply HOk; [done | by constructor | rewrite app_nil_r; lia]).
  all: cbv zeta; destruct (max <? _)%Z eqn:Hlt; [apply wp_raise, HErr; [done | by left] |]; apply Z.ltb_ge in Hlt;
    rewrite length_cons in Hlt; try (exfalso; lia).
  apply IH; rewrite ?length_app, ?length_cons; [lia.. | |].
  - intros w' d Hk' Hd Hl. rewrite <- app_assoc in Hl |- *.
    apply HOk; [by eapply (moves_keep Standard) | by econstructor | done].
  - intros w' e Hk' He. apply HErr; [by eapply (moves_keep Standard) | done].
Qed.

(** A body that fits is read completely, a longer one is refused. *)
Theorem read_limited_delivers max r w d w' :
  delivers r w d w' → ∀ fuel content, (max <= Z.of_nat (length content) + Z.of_nat fuel)%Z →
  (if (Z.of_nat (length (content ++ d)) <=? max)%Z then read_limited max r fuel content w = (w', Ok (content ++ d))
   else (Z.of_nat (length content) <= max)%Z → ∃ w1, read_limited max r fuel content w = (w1, Err (HttpResponseTooLargeError max))).
Proof.
  intros Hd. induction Hd as [w w' Hn | w w1 b bs d w' Hn Hd IH]; intros fuel content Hf.
  - rewrite app_nil_r.
    assert (Hr : read_limited max r fuel content w = (w', Ok content)).
    { destruct fuel; cbn [read_limited]; unfold bind, stream_next_bytes, read_errors, catch; by rewrite Hn. }
    destruct (_ <=? max)%Z eqn:Hl; [done | to_prop; lia].
  - assert (Hr : read_limited max r fuel content w =
      (if (max <? Z.of_nat (length content) + Z.of_nat (length (b :: bs)))%Z then raise (HttpResponseTooLargeError max)
       else match fuel with S fuel => read_limited max r fuel (content ++ b :: bs) | O => ret content end) w1).
    { destruct fuel; cbn [read_limited]; unfold bind, stream_next_bytes, read_errors, catch; by rewrite Hn. }
    rewrite Hr, app_assoc. destruct (max <? _)%Z eqn:Hlt; to_prop.
    + destruct (_ <=? max)%Z eqn:Hl; [to_prop; rewrite !length_app in Hl; lia |]. intros _. by exists w1.
    + destruct fuel as [| fuel]; [rewrite length_cons in Hlt; lia |].
      assert (Hf' : (max <= Z.of_nat (length (content ++ b :: bs)) + Z.of_nat fuel)%Z) by (rewrite length_app, length_cons; lia).
      specialize (IH fuel (content ++ b :: bs) Hf'). destruct (_ <=? max)%Z; [done |].
      intros _. apply IH. rewrite length_app. lia.
Qed.

Lemma wp_async_with {X A} (enter : act X) exit (block : X → act A) Φ w :
  wp enter (λ x w1, match x with
    | Err e => Φ (Err e) w1
    | Ok x => wp (block x) (λ o w2, wp (exit x (result_err o))
                (λ c w3, Φ (match c with Ok _ => o | Err e => Err e end) w3) w2) w1
    end) w →
  wp (async_with enter exit block) Φ w.
Proof.
  intros He. unfold async_with. apply wp_bind. eapply wp_mono; [exact He |]. intros [x | e] w1 Hx; [| done].
  apply wp_bind, wp_attempt. eapply wp_mono; [exact Hx |]. intros o w2 Ho. cbn iota.
  apply wp_bind. eapply wp_mono; [exact Ho |]. by intros [[] | e] w3 Hc.
Qed.

(** [r] answered [request] and its body was read in full. *)
Definition answered (k : pool) (request : HttpRequest) (resp : HttpResponse) : Prop :=
  ∃ r w0 w1 w2, hx_enter k (build_httpx2_request_arguments request) w0 = (w1, Ok r)
    ∧ delivers r w1 (rs_content resp) w2 ∧ rs_status_code resp = hx_status_code r ∧ rs_headers resp = hx_multi_items r.
(** Why a request failed: opening the response or reading it raised, and
    the caller gets the stable error for it; the body was too long; or closing
    the response raised, and the caller gets just that. *)
Definition request_failure (max : Z) (k : pool) (request : HttpRequest) (e : exn) : Prop :=
  (∃ w0 w1 e0, hx_enter k (build_httpx2_request_arguments request) w0 = (w1, Err e0) ∧ e = converted e0)
  ∨ (∃ r, read_failure max r e)
  ∨ ∃ r o w0 w1, hx_exit r o w0 = (w1, Err e).
Definition request_outcome (max : Z) (k : pool) (request : HttpRequest) (res : result exn HttpResponse) : Prop :=
  match res with
  | Ok resp => answered k request resp ∧ (Z.of_nat (length (rs_content resp)) <= max)%Z
  | Err e => request_failure max k request e
  end.

Lemma wp_resource_request max request (Φ : result exn HttpResponse → world → Prop) w :
  (0 <= max)%Z → pool_ok Standard w → (0 <= own Standard w)%Z →
  (∀ l w' res, Forall (record_of request pool_warnings) l → moves Standard 0 l w w' →
    request_outcome max Standard request res → Φ res w') →
  wp (resource_request max request) Φ w.
Proof.
  intros Hmax Hok Ho HΦ. unfold resource_request. apply wp_async_with, wp_stream_enter; [done | done | |].
  2: { intros l w' w0 w1 e Hl Hm He. eapply HΦ; [exact Hl | done |]. left. by exists w0, w1, e. }
  intros l w1 w0 r Hl Hm Hr. apply wp_bind.
  assert (Hexit : ∀ w2 o, keeps w1 w2 → request_outcome max Standard request o →
    (∀ e, o = Err e → converted e = e) →
    wp (stream_exit Standard request r (result_err o))
      (λ c w3, Φ (match c with Ok _ => o | Err e => Err e end) w3) w2).
  { intros w2 o Hk Hout Hconv. pose proof (moves_keep _ _ _ _ _ _ Hm Hk) as Hm2.
    apply wp_stream_exit; [by eapply pool_ok_moves | rewrite (moves_own _ _ _ _ _ Hm2); lia |].
    intros l' w3 res Hl' Hm3 Hres. pose proof (moves_trans _ _ _ _ _ _ _ _ Hm2 Hm3) as Hm4.
    eapply HΦ; [| exact Hm4 |]; [by apply Forall_app |].
    destruct Hres as [Hres | (o' & wa & wb & e' & Hx & ->)]; [| right; right; by exists r, o', wa, wb].
    destruct o as [resp | e]; simpl in Hres; subst res; [done |]. by rewrite (Hconv e eq_refl). }
  apply wp_read_limited; [simpl; lia.. | |].
  - intros w2 d Hk Hd Hlen. apply wp_ret. simpl. apply (Hexit w2 (Ok _)); [done | | done].
    split; [| done]. by exists r, w0, w1, w2.
  - intros w2 e Hk He. simpl. apply (Hexit w2 (Err e)); [done | right; left; by exists r |].
    intros e' [= <-]. destruct He as [-> | (wa & wb & e0 & _ & ->)]; [done | apply converted_read].
Qed.

(** ** The managed client *)

(** The records of a call but the pool warnings, by their events. *)
Definition is_pool_warning (e : HttpLogEvent) : bool := match e with POOL_PRESSURE | POOL_TIMEOUT => true | _ => false end.
Definition phases (l : list log_record) : list HttpLogEvent :=
  List.filter (λ e, negb (is_pool_warning e)) (map lr_event l).
Lemma phases_app a b : phases (a ++ b) = phases a ++ phases b.
Proof. unfold phases. by rewrite map_app, List.filter_app. Qed.
Lemma phases_warnings request l : Forall (record_of request pool_warnings) l → phases l = [].
Proof.
  induction 1 as [| x l [Hx _] Hl IH]; [done |]. unfold phases in *. simpl.
  unfold pool_warnings in Hx. rewrite !elem_of_cons, elem_of_nil in Hx.
  by destruct Hx as [-> | [-> | []]].
Qed.

Lemma wp_duration started (Φ : result exn (pystr * pyval) → world → Prop) w :
  (∀ d, Φ (Ok d) w) → wp (duration_ms started) Φ w.
Proof. intros HΦ. unfold duration_ms. apply wp_bind. unfold wp at 1, perf_counter, read. apply wp_ret, HΦ. Qed.

Definition all_events : list HttpLogEvent :=
  [REQUEST_COMPLETED; REQUEST_FAILED; REQUEST_CANCELLED; STREAM_CONNECTED; STREAM_COMPLETED; STREAM_FAILED;
   STREAM_CANCELLED; POOL_PRESSURE; POOL_TIMEOUT; RESOURCE_CREATED; RESOURCE_CLOSED].
Definition about (request : HttpRequest) : log_record → Prop := record_of request all_events.
Lemma record_about request evs x : record_of request evs x → about request x.
Proof. intros [_ Hd]. split; [destruct (lr_event x); unfold all_events; set_solver | done]. Qed.
Lemma records_about request evs l : Forall (record_of request evs) l → Forall (about request) l.
Proof. intros Hl. eapply List.Forall_impl; [intros x; apply record_about | exact Hl]. Qed.

(** The one final event of a request. *)
Definition request_final (res : result exn HttpResponse) : list HttpLogEvent :=
  match res with
  | Ok _ => [REQUEST_COMPLETED]
  | Err e => if is_cancelled e then [REQUEST_CANCELLED] else if is_exception e then [REQUEST_FAILED] else []
  end.

(** Writing one record with an event of the managed client. *)
Lemma wp_final k level event request started mk (Φ : result exn unit → world → Prop) w :
  is_pool_warning event = false →
  (∀ l w', Forall (about request) l → phases l = [event] → moves k 0 l w w' → Φ (Ok tt) w') →
  wp (let* d := duration_ms started in write_http_log level event request (mk d)) Φ w.
Proof.
  intros Hev HΦ. apply wp_bind, wp_duration. intros d. apply (wp_write k). intros l w' He Hr Hm.
  apply (HΦ [l]); [| | done].
  - constructor; [by eapply record_about | constructor].
  - unfold phases. simpl. by rewrite He, Hev.
Qed.

Lemma wp_managed_request max request (Φ : result exn HttpResponse → world → Prop) w :
  (0 <= max)%Z → pool_ok Standard w → (0 <= own Standard w)%Z →
  (∀ l w' res, Forall (about request) l → phases l = request_final res → moves Standard 0 l w w' →
    request_outcome max Standard request res → Φ res w') →
  wp (managed_request (httpx2_driver max) request) Φ w.
Proof.
  intros Hmax Hok Ho HΦ. unfold managed_request. apply wp_bind. unfold wp at 1, perf_counter, read.
  remember (hx_perf_counter w.2) as t0 eqn:E. clear E.
  apply wp_bind, wp_catch. apply wp_resource_request; [done.. |].
  intros l w1 res Hl Hm Hres.
  assert (Hdone : ∀ l2 w2, Forall (about request) l2 → phases l2 = request_final res → moves Standard 0 l2 w1 w2 → Φ res w2).
  { intros l2 w2 Hl2 Hp2 Hm2. pose proof (moves_trans _ _ _ _ _ _ _ _ Hm Hm2) as Hm3.
    eapply HΦ; [| | exact Hm3 | done]; [apply Forall_app; split; [by eapply records_about | done] |].
    by rewrite phases_app, (phases_warnings _ _ Hl), Hp2. }
  destruct res as [resp | e]; simpl in Hdone.
  - apply wp_bind, wp_duration. intros d. apply wp_bind, (wp_write Standard). intros x w2 Hx Hr Hm2. apply wp_ret.
    apply (Hdone [x]); [| | done]; [constructor; [by eapply record_about | constructor] |]. unfold phases. simpl. by rewrite Hx.
  - apply wp_bind. destruct (is_cancelled e) eqn:Hc.
    + apply (wp_final Standard); [done |]. intros l2 w2 Hl2 Hp2 Hm2. apply wp_raise. by eapply Hdone.
    + destruct (is_exception e) eqn:Hx; simpl.
      * apply (wp_final Standard _ _ _ _ (λ d, [d; (u "error_type", VStr (hx_type_name e))])); [done |].
        intros l2 w2 Hl2 Hp2 Hm2. apply wp_raise. by eapply Hdone.
      * apply wp_raise. apply (Hdone []); [constructor | done | apply moves_refl].
Qed.

(** The records after a failure, and the whole history of a stream whose
    block ended with [outcome]. *)
Definition failure_events (caller_failed : bool) (e : exn) : list HttpLogEvent :=
  if is_cancelled e then [STREAM_CANCELLED]
  else if is_exception e && negb caller_failed then [STREAM_FAILED] else [].
Definition caller_failed {A} (outcome : result exn A) : bool :=
  match outcome with Err e => caller_error e | Ok _ => false end.
Definition exits_return : Prop := ∀ r o w, ∃ w', hx_exit r o w = (w', Ok tt).
Definition converted_result {A} (outcome : result exn A) : result exn A :=
  match outcome with Ok a => Ok a | Err e => Err (converted e) end.
Definition stream_outcome {A} (body : R → act A) (l : list log_record) (res : result exn A) : Prop :=
  (∃ e, res = Err (converted e) ∧ phases l = failure_events false (converted e))
  ∨ ∃ r w1 w2 outcome, body r w1 = (w2, outcome)
      ∧ phases l = STREAM_CONNECTED :: match res with Ok _ => [STREAM_COMPLETED] | Err e => failure_events (caller_failed outcome) e end
      ∧ (∀ a, res = Ok a → outcome = Ok a)
      ∧ (exits_return → res = converted_result outcome).

Lemma wp_stream_failure k request started status failed e (Φ : result exn unit → world → Prop) w :
  (∀ l w', Forall (about request) l → phases l = failure_events failed e → moves k 0 l w w' → Φ (Err e) w') →
  wp (stream_failure request started status failed e) Φ w.
Proof.
  intros HΦ. unfold stream_failure, failure_events in *. apply wp_bind. destruct (is_cancelled e) eqn:Hc.
  - apply (wp_final k _ _ _ _ (λ d, [status_detail status; d])); [done |].
    intros l w1 Hl Hp Hm. apply wp_raise. by eapply HΦ.
  - destruct (is_exception e && negb failed); simpl.
    + apply (wp_final k _ _ _ _ (λ d, [status_detail status; d; (u "error_type", VStr (hx_type_name e))])); [done |].
      intros l w1 Hl Hp Hm. apply wp_raise. by eapply HΦ.
    + apply wp_raise. apply (HΦ []); [constructor | done | apply moves_refl].
Qed.

Lemma wp_managed_stream {A} max request (body : R → act A) (Φ : result exn A → world → Prop) w :
  (∀ r, keeping (body r)) → pool_ok Stream w → (0 <= own Stream w)%Z →
  (∀ l w' res, Forall (about request) l → moves Stream 0 l w w' → stream_outcome body l res → Φ res w') →
  wp (managed_stream (httpx2_driver max) request body) Φ w.
Proof.
  intros Hbody Hok Ho HΦ. unfold managed_stream. apply wp_bind. unfold wp at 1, perf_counter, read.
  remember (hx_perf_counter w.2) as t0 eqn:E. clear E.
  apply wp_bind, wp_catch. simpl. apply wp_stream_enter; [done | done | |].
  2: { intros l w1 wa wb e Hl Hm _. apply wp_bind, (wp_stream_failure Stream). intros l2 w2 Hl2 Hp2 Hm2.
    eapply HΦ; [| exact (moves_trans _ _ _ _ _ _ _ _ Hm Hm2) |]; [apply Forall_app; split; [by eapply records_about | done] |].
    left. exists e. by rewrite phases_app, (phases_warnings _ _ Hl), Hp2. }
  intros l w1 w0 r Hl Hm Hr. apply wp_bind, (wp_write Stream). intros x w2 Hx Hrx Hmx. simpl.
  apply wp_bind, wp_attempt, wp_of_run. intros w3 outcome Hb. cbn iota.
  pose proof (moves_keep _ _ _ _ _ _ (moves_trans _ _ _ _ _ _ _ _ Hm Hmx) (Hbody _ _ _ _ Hb)) as Hm3.
  apply wp_bind, wp_catch, wp_bind, wp_stream_exit; [by eapply pool_ok_moves | rewrite (moves_own _ _ _ _ _ Hm3); lia |].
  intros l4 w4 res4 Hl4 Hm4 Hres. pose proof (moves_trans _ _ _ _ _ _ _ _ Hm3 Hm4) as Hm5.
  assert (Hfin : ∀ l6 w6 (res : result exn A), Forall (about request) l6 → moves Stream 0 l6 w4 w6 →
    phases l6 = match res with Ok _ => [STREAM_COMPLETED] | Err e => failure_events (caller_failed outcome) e end →
    (∀ a, res = Ok a → outcome = Ok a) → (exits_return → res = converted_result outcome) → Φ res w6).
  { intros l6 w6 res Hl6 Hm6 Hp6 Hok6 Hret. eapply HΦ; [| exact (moves_trans _ _ _ _ _ _ _ _ Hm5 Hm6) |].
    - rewrite !Forall_app. split_and!; try done; try (by eapply records_about).
      constructor; [by eapply record_about | constructor].
    - right. exists r, w2, w3, outcome. split; [done |]. split; [| by split].
      rewrite !phases_app, (phases_warnings _ _ Hl), (phases_warnings _ _ Hl4), app_nil_r, Hp6.
      unfold phases. simpl. by rewrite Hx. }
  destruct res4 as [[] | e4].
  - destruct outcome as [a | e].
    + apply wp_lift. simpl. apply wp_bind, wp_duration. intros d. apply wp_bind, (wp_write Stream).
      intros y w5 Hy Hry Hm6. apply wp_ret. apply (Hfin [y]); try done.
      * constructor; [by eapply record_about | constructor].
      * unfold phases. simpl. by rewrite Hy.
    + destruct Hres as [Hres | (? & ? & ? & ? & _ & ?)]; done.
  - apply wp_bind, (wp_stream_failure Stream). intros l6 w6 Hl6 Hp6 Hm6. apply (Hfin l6); try done.
    intros Hret. destruct Hres as [Hres | (o & wa & wb & e' & Hx' & _)].
    + destruct outcome; [done | by injection Hres as ->].
    + destruct (Hret r o wa) as [wc Hwc]. congruence.
Qed.

(** C20: an outbound request.  However it ends, in success, with any error or
    cancelled, the diagnostics count its context neither more nor less than
    before; besides warnings of its pool it writes exactly one record, about
    this request, whose event tells how it ended (none when a bare
    [BaseException] goes through); a response holds the whole body the
    connection delivered, within the limit.  An error is the stable one for
    the time-out or request error that opening or reading the response raised,
    the refusal of a body over the limit, or what closing the response raised;
    other exceptions of httpx2, [InvalidURL] and [StreamError] among them, get
    out as they are. *)
Theorem outbound_request_correct max request w w' res :
  (0 <= max)%Z → pool_ok Standard w → (0 <= own Standard w)%Z →
  managed_request (httpx2_driver max) request w = (w', res) →
  (∀ k, own k w' = own k w)
  ∧ (∃ l, hs_log w'.1 = hs_log w.1 ++ l ∧ Forall (about request) l ∧ phases l = request_final res)
  ∧ request_outcome max Standard request res
  ∧ ∀ e, res = Err e → is_httpx_request_error e = true → ∃ r o w0 w1, hx_exit r o w0 = (w1, Err e).
Proof.
  intros Hmax Hok Ho Hr. pattern res, w'. eapply wp_run; [| exact Hr]. apply wp_managed_request; [done.. |].
  intros l w1 res1 Hl Hp Hm Hres. split; [| split; [| split; [done |]]].
  - intros k. destruct (proj1 Hm k) as [_ ->]. case_decide; lia.
  - exists l. split; [apply Hm | done].
  - intros e -> He. destruct Hres as [(wa & wb & e0 & _ & ->) | [(r & [-> | (wa & wb & e0 & _ & ->)]) | Hx]]; [| done | | done].
    + by rewrite converted_clean in He.
    + by rewrite read_converted_clean in He.
Qed.

(** C21: an outbound stream around any block of the caller.  However it ends,
    the diagnostics are restored; the records about it tell its history: not
    connected and failed or cancelled, or connected and then completed,
    cancelled or failed; an error of the caller's own is not reported as a failure
    of the stream; and unless closing raises, the caller gets the result of the
    block, or its error with the time-outs and request errors of httpx2 replaced
    by the stable ones. *)
Theorem outbound_stream_correct {A} max request (body : R → act A) w w' res :
  (∀ r, keeping (body r)) → pool_ok Stream w → (0 <= own Stream w)%Z →
  managed_stream (httpx2_driver max) request body w = (w', res) →
  (∀ k, own k w' = own k w)
  ∧ ∃ l, hs_log w'.1 = hs_log w.1 ++ l ∧ Forall (about request) l ∧ stream_outcome body l res.
Proof.
  intros Hbody Hok Ho Hr. pattern res, w'. eapply wp_run; [| exact Hr]. apply wp_managed_stream; [done.. |].
  intros l w1 res1 Hl Hm Hres. split.
  - intros k. destruct (proj1 Hm k) as [_ ->]. case_decide; lia.
  - exists l. split; [apply Hm | done].
Qed.
End ClientProofs.

(** ** Diagnostics and life cycle *)

(** [acquire] reports the pressure exactly when this context is the one that
    reaches the threshold, which is at least one context. *)
Theorem pool_acquire_crossing p k :
  warning_at p = Ok k →
  ∃ p', pool_acquire p = (p', Ok (bool_decide (pl_active p < k ∧ k <= pl_active p + 1)%Z))
    ∧ pl_active p' = (pl_active p + 1)%Z ∧ (pl_active p' <= pl_peak_active p')%Z ∧ (1 <= k)%Z
    ∧ ((0 <= pl_active p)%Z → with_active (pl_active (pool_release p')) (pl_peak_active p) (pool_release p') = p).
Proof.
  intros Hk. assert (H1k : (1 <= k)%Z).
  { unfold warning_at in Hk. destruct (int_float _); [| done]. simpl in Hk. destruct (float_ceil _); [| done].
    injection Hk as <-. lia. }
  unfold pool_acquire, under_pressure. rewrite Hk. cbn [result_bind].
  set (p' := with_active (pl_active p + 1) (Z.max (pl_peak_active p) (pl_active p + 1)) p).
  assert (Hk' : warning_at p' = Ok k) by exact Hk. rewrite Hk'. cbn [result_bind].
  exists p'. split_and!; try done; simpl; try lia.
  - f_equal. f_equal. case_bool_decide; [rewrite andb_true_iff, negb_true_iff, Z.leb_gt, Z.leb_le; lia |].
    apply andb_false_iff. rewrite negb_false_iff, Z.leb_le, Z.leb_gt. lia.
  - intros Ha. unfold pool_release. simpl. replace (Z.max 0 _) with (pl_active p) by lia. by destruct p.
Qed.

Section Life.
Context `{UnicodeTables} `{UrlTables} {HX} `{HttpxHeaders HX} {W R : Type} `{!HttpxClient (HX:=HX) (W:=W) (R:=R)}.

(** Closing tries both clients whatever the first does, the stream pool first;
    it succeeds exactly when both do. *)
Theorem resource_aclose_both w w' res :
  resource_aclose w = (w', res) →
  ∃ w1 r1 w2 r2, hx_aclose Stream w = (w1, r1) ∧ hx_aclose Standard w1 = (w2, r2)
    ∧ match option_list (result_err r1) ++ option_list (result_err r2) with
      | [] => res = Ok tt ∧ hs_log w'.1 = hs_log w2.1 ++ [mk_log LogInfo RESOURCE_CLOSED []]
      | errors => res = Err (ExceptionGroup errors) ∧ w' = w2
      end.
Proof.
  unfold resource_aclose, bind. simpl. unfold attempt, bind.
  destruct (hx_aclose Stream w) as [w1 r1] eqn:Hs. destruct (hx_aclose Standard w1) as [w2 r2] eqn:Hp. simpl. intros Hr.
  exists w1, r1, w2, r2. split; [done |]. split; [done |]. destruct r1 as [[] | e1], r2 as [[] | e2]; simpl in *; by injection Hr as <- <-.
Qed.

(** The first request of an open manager creates the resource and goes to it;
    a closed manager refuses without creating anything. *)
Theorem manager_request_lazy settings request w :
  (lf_closed (hs_resource w.1) = true → manager_request settings request w = (w, Err RuntimeError))
  ∧ (∀ max, hs_resource w.1 = mk_fields (Some max) false →
       manager_request settings request w = managed_request (httpx2_driver max) request w)
  ∧ (∀ w1, hs_resource w.1 = mk_fields None false → hx_create settings w = (w1, Ok tt) →
       hs_resource w1.1 = mk_fields None false →
       ∃ w2, manager_request settings request w = managed_request (httpx2_driver (st_max_response_bytes settings)) request w2
         ∧ hs_resource w2.1 = mk_fields (Some (st_max_response_bytes settings)) false ∧ w2.2 = w1.2
         ∧ hs_log w2.1 = hs_log w1.1 ++ [mk_log LogInfo RESOURCE_CREATED []]
         ∧ ∀ k, pl_active (pool_of k w2.1) = 0%Z
             ∧ pl_limit (pool_of k w2.1) = ps_max_connections (match k with Standard => st_pool settings | Stream => st_stream_pool settings end)).
Proof.
  destruct w as [[ps pt lg [v c]] e]. simpl. split_and!.
  - intros ->. done.
  - intros max [= -> ->]. done.
  - intros [[ps1 pt1 lg1 f1] e1] [= -> ->] Hc Hf. simpl in Hf. subst f1.
    eexists (mk_http (new_pool (u "standard") (ps_max_connections (st_pool settings)) (st_pool_warning_ratio settings))
      (new_pool (u "stream") (ps_max_connections (st_stream_pool settings)) (st_pool_warning_ratio settings))
      (lg1 ++ [mk_log LogInfo RESOURCE_CREATED []]) (mk_fields (Some (st_max_response_bytes settings)) false), e1).
    split.
    + unfold manager_request, manager_get, lazy_get, bind at 1, lazy_refuse_closed, read, bind. simpl.
      unfold create_httpx2_resource, bind. rewrite Hc. done.
    + split_and!; try done. by intros [].
Qed.
End Life.

(** ** Concrete runs: another task opens a context while this one connects *)
Record demo_env := mk_demo { de_others : nat; de_body : list (Byte.byte * pybytes) }.
#[local] Instance demo_headers : HttpxHeaders (pydict pystr) :=
  {| hx_new := id; hx_has := λ k h, bool_decide (k ∈ dict_keys h); hx_set := λ k v h, dict_set h k v |}.
#[local] Existing Instance plain_tables.
#[local] Existing Instance plain_urls.
Abbreviation demo_world := (HttpState * demo_env)%type.
Definition other_opens (w : demo_world) : demo_world :=
  let p := hs_standard w.1 in
  (set_pool Standard (with_active (pl_active p + 1) (pl_peak_active p) p) w.1, mk_demo (S (de_others w.2)) (de_body w.2)).
#[local] Instance demo_httpx : HttpxClient (HX:=pydict pystr) (W:=demo_env) (R:=unit) := {|
  hx_enter := λ _ _ w, (other_opens w, Ok tt);
  hx_exit := λ _ _ w, (w, Ok tt);
  hx_status_code := λ _, 200%Z;
  hx_multi_items := λ _, [(u "content-type", u "text/plain")];
  hx_next := λ _ w, match de_body w.2 with
                    | [] => (w, Ok None)
                    | c :: cs => ((w.1, mk_demo (de_others w.2) cs), Ok (Some c)) end;
  hx_aread := λ _ w, (w, Ok []);
  hx_next_text := λ _ w, (w, Ok None);
  hx_aclose := λ _ w, (w, Ok tt);
  hx_client_id := λ _, u "0x10";
  hx_handling := λ _, None;
  hx_perf_counter := λ _, S754_zero false;
  hx_type_name := λ _, u "Error";
  hx_create := λ _ w, (w, Ok tt);
|}.
Definition demo_others (k : pool) (w : demo_env) : nat := match k with Standard => de_others w | Stream => 0 end.
(** 0.8 *)
Definition eight_tenths : spec_float := SFdiv 53 1024 (signed_float 8) (signed_float 10).
Definition demo_start : demo_world :=
  (mk_http (new_pool (u "standard") 1 eight_tenths) (new_pool (u "stream") 100 eight_tenths) [] (mk_fields (Some 10%Z) false),
   mk_demo 0 [(Byte.x61, [Byte.x62]); (Byte.x63, [])]).

Lemma demo_environment : environment demo_others.
Proof.
  split.
  - intros k a w w' r [= <- <-]. split; [| by rewrite app_nil_r].
    destruct w as [s e]. intros []; (split; [done |]); unfold own, other_opens; simpl; lia.
  - intros r e w w' r' [= <- <-]. apply moves_refl.
  - intros r w w' r'. simpl. destruct w as [s [n [| c cs]]]; simpl; intros [= <- <-]; [apply moves_refl |].
    split; [| by rewrite app_nil_r]. intros []; (split; [done |]); unfold own; simpl; lia.
Qed.

Lemma demo_pool_ok k : pool_ok k demo_start.
Proof. by destruct k; split; vm_compute. Qed.

Lemma outbound_request_correct_witness :
  ∃ w' l, managed_request (httpx2_driver 10) demo_request demo_start
      = (w', Ok (mk_response 200 [(u "content-type", u "text/plain")] [Byte.x61; Byte.x62; Byte.x63]))
    ∧ map lr_event (hs_log w'.1) = [POOL_PRESSURE; REQUEST_COMPLETED]
    ∧ hs_log w'.1 = l ∧ phases l = [REQUEST_COMPLETED]
    ∧ pl_active (hs_standard w'.1) = 1%Z ∧ own demo_others Standard w' = 0%Z.
Proof.
  destruct (managed_request (httpx2_driver 10) demo_request demo_start) as [w' res] eqn:Hr.
  pose proof (outbound_request_correct demo_others demo_environment 10 demo_request demo_start w' res
    ltac:(lia) (demo_pool_ok Standard) ltac:(vm_compute; discriminate) Hr) as (Ho & (l & Hl & _ & Hp) & _).
  assert (Hres : res = Ok (mk_response 200 [(u "content-type", u "text/plain")] [Byte.x61; Byte.x62; Byte.x63])
    ∧ map lr_event (hs_log w'.1) = [POOL_PRESSURE; REQUEST_COMPLETED] ∧ pl_active (hs_standard w'.1) = 1%Z).
  { revert Hr. vm_compute. intros Hr. injection Hr as <- <-. done. }
  destruct Hres as (-> & He & Ha). exists w', l. split; [done |]. split; [done |]. split; [exact Hl |].
  split; [exact Hp |]. split; [done |]. rewrite Ho. done.
Defined.

(** The caller's block raises an error of its own. *)
Definition demo_block : unit → io demo_world unit := λ _, raise ValueError.
Lemma outbound_stream_correct_witness :
  ∃ w' l, managed_stream (httpx2_driver 10) demo_request demo_block demo_start = (w', Err ValueError)
    ∧ hs_log w'.1 = l ∧ phases l = [STREAM_CONNECTED] ∧ own demo_others Stream w' = 0%Z.
Proof.
  destruct (managed_stream (httpx2_driver 10) demo_request demo_block demo_start) as [w' res] eqn:Hr.
  pose proof (outbound_stream_correct demo_others demo_environment 10 demo_request demo_block demo_start w' res
    ltac:(intros r w w1 r1 Hb; injection Hb as <- <-; apply moves_refl)
    (demo_pool_ok Stream) ltac:(vm_compute; discriminate) Hr) as (Ho & l & Hl & _ & Hout).
  assert (Hres : res = Err ValueError ∧ map lr_event (hs_log w'.1) = [STREAM_CONNECTED]).
  { revert Hr. vm_compute. intros Hr. injection Hr as <- <-. done. }
  destruct Hres as (-> & He). exists w', l. split; [done |]. split; [exact Hl |].
  split; [| by rewrite Ho].
  rewrite Hl in He. unfold phases. change (hs_log demo_start.1) with (@nil log_record) in He. cbn [app] in He. by rewrite He.
Defined.

(** A URL that httpx2 itself refuses when the response is opened: its
    exception is no [RequestError] and reaches the caller unconverted. *)
Definition refusing_httpx : HttpxClient (HX:=pydict pystr) (W:=demo_env) (R:=unit) := {|
  hx_enter := λ _ _ w, (w, Err HttpxInvalidURL);
  hx_exit := hx_exit; hx_status_code := hx_status_code; hx_multi_items := hx_multi_items; hx_next := hx_next;
  hx_aread := hx_aread; hx_next_text := hx_next_text; hx_aclose := hx_aclose; hx_client_id := hx_client_id;
  hx_handling := hx_handling; hx_perf_counter := hx_perf_counter; hx_type_name := hx_type_name; hx_create := hx_create;
|}.
Example invalid_url_escapes :
  let '(w, r) := managed_request (H2 := refusing_httpx) (httpx2_driver (H2 := refusing_httpx) 10)
    demo_request demo_start in
  r = Err HttpxInvalidURL ∧ is_outbound_http_error HttpxInvalidURL = false
  ∧ map lr_event (hs_log w.1) = [POOL_PRESSURE; REQUEST_FAILED].
Proof. by vm_compute. Qed.
