(* ===== verification/QueryParams.v ===== *)
(** * QueryParams: query parameters packed into one

    Models [interfaces/http/middleware/query_param_decode.py]: JSON, percent
    encoding and Base64 without padding, the reverse, and the ASGI middleware
    that spreads the packed parameters for the application behind it.  The
    encodings are those of JsonText, Urls and QueueMessage; Starlette's reader
    of query strings and Python's [repr] of containers are classes. *)

From Stdlib Require Import Floats.SpecFloat.
From S2P Require Import Prelude Text PyVal Errors Decimal Json QueueMessage HttpRequest JsonText Urls.
Local Open Scope prog_scope.

(** ** encode_query_param, decode_query_param *)
Section Codec.
Context `{FloatRepr}.

(** [text.rstrip("=")] *)
Fixpoint drop_pads (s : pystr) : pystr :=
  match s with c :: t => if (c =? b64_pad)%N then drop_pads t else s | [] => [] end.
Definition rstrip_pad (s : pystr) : pystr := reverse (drop_pads (reverse s)).

Definition encode_query_param (payload : pydict json) : result exn pystr :=
  let? json_str := dumps (JObj payload) in
  let? url_encoded := quote json_str in
  Ok (rstrip_pad (b64_encode url_encoded)).

Definition spaces_to_plus (s : pystr) : pystr := map (λ c, if (c =? 32)%N then 43%N else c) s.
Definition restore_padding (s : pystr) : pystr :=
  let padding := length s `mod` 4 in
  if padding =? 0 then s else s ++ replicate (4 - padding) b64_pad.
(** [except ValueError, RecursionError]: every failure of the three decoders. *)
Definition decode_query_param (max_depth : nat) (value : pystr) : option (pydict json) :=
  if bool_decide (value = []) then None
  else
    let encoded := restore_padding (spaces_to_plus value) in
    match (let? decoded := (match b64_decode encoded with Some b => Ok b | None => Err ValueError end) in
           let? text := utf8_decode decoded in
           loads max_depth (unquote text)) with
    | Ok (JObj payload) => Some payload
    | _ => None
    end.
End Codec.

(** ** The middleware *)

(** [str(value)] of a container. *)
Class ContainerRepr := { container_repr : json → pystr }.
(** [QueryParams(query_string).get(name)] *)
Class QueryReader := { query_get : pystr → pystr → option pystr }.

Section Middleware.
Context `{FloatRepr} `{ContainerRepr} `{QueryReader}.

Definition py_str (j : json) : pystr :=
  match j with
  | JNull => u "None"
  | JBool true => u "True"
  | JBool false => u "False"
  | JInt z => str_int z
  | JFloat f => match f with
                | S754_nan => u "nan"
                | S754_infinity s => if s then u "-inf" else u "inf"
                | _ => float_repr f
                end
  | JStr s => s
  | _ => container_repr j
  end.
(** [urlencode(..., doseq=True)]: what one value stands for. *)
Definition query_values (j : json) : list pystr :=
  match j with
  | JArr l => map py_str l
  | JObj l => dict_keys l
  | _ => [py_str j]
  end.
Definition query_pairs (params : pydict json) : list (pystr * pystr) :=
  flat_map (λ kv, map (pair kv.1) (query_values kv.2)) params.
Definition quote_pair (key value : pystr) : result exn pystr :=
  let? v := quote_plus value in Ok (key ++ 61%N :: v).
Definition quote_param (kv : pystr * json) : result exn (list pystr) :=
  let? key := quote_plus kv.1 in map_result (quote_pair key) (query_values kv.2).
Definition urlencode (params : pydict json) : result exn pystr :=
  let? parts := map_result quote_param params in Ok (join [38%N] (concat parts)).

(** The parts of an ASGI scope the middleware reads or writes. *)
Context {St Rest A W : Type} (decoded_value : pydict json → St).
Record Scope := mk_scope { sc_type : pystr; sc_query_string : pystr; sc_state : pydict St; sc_rest : Rest }.
Definition DECODED_F_STATE_KEY : pystr := u "decoded_f_params".

Context (max_depth : nat) (param_name : pystr) (app : Scope → io W A).
Definition QueryParamDecodeMiddleware (scope : Scope) : io W A :=
  if negb (bool_decide (sc_type scope = u "http")) then app scope
  else match query_get (sc_query_string scope) param_name with
       | None | Some [] => app scope
       | Some encoded_value =>
           match decode_query_param max_depth encoded_value with
           | None => app scope
           | Some decoded_params =>
               let* query_string := lift (urlencode decoded_params) in
               app (mk_scope (sc_type scope) query_string
                      (dict_set (sc_state scope) DECODED_F_STATE_KEY (decoded_value decoded_params)) (sc_rest scope))
           end
       end.
End Middleware.
Arguments Scope : clear implicits.

(** ** Reading a query string: [urllib.parse.parse_qsl] *)
Definition parse_pair (part : pystr) : pystr * pystr :=
  let '(k, v) := default (part, []) (split_at 61 part) in (unquote_plus k, unquote_plus v).
Definition parse_query (s : pystr) : list (pystr * pystr) :=
  map parse_pair (List.filter (λ p, negb (bool_decide (p = []))) (split_on 38 s [])).

(** ** Base64 without its padding *)

Lemma drop_pads_end s : match s with c :: _ => c ≠ b64_pad | [] => True end → drop_pads s = s.
Proof. destruct s as [| c s]; [done |]. intros Hc. simpl. by rewrite (proj2 (N.eqb_neq c b64_pad)). Qed.
Lemma rstrip_pads s n : Forall (λ c, c ≠ b64_pad) s → rstrip_pad (s ++ replicate n b64_pad) = s.
Proof.
  intros Hs. unfold rstrip_pad. rewrite reverse_app, reverse_replicate. induction n as [| n IH]; [| exact IH]. cbn [replicate app].
  rewrite drop_pads_end, reverse_involutive; [done |]. apply Forall_reverse in Hs. by destruct Hs.
Qed.
Lemma b64_encode_parts l : Forall (λ b, b < 256)%N l → ∃ body n, b64_encode l = body ++ replicate n b64_pad
  ∧ Forall (λ c, c ≠ b64_pad) body ∧ (length body + n) `mod` 4 = 0 ∧ n < 3 ∧ (l ≠ [] → body ≠ []) ∧ Forall (λ c, c ≠ 32%N) body.
Proof.
  assert (Hgroup : ∀ k n, Forall (λ c, c ≠ b64_pad) (map b64_char (to_digits 64 k n)) ∧ Forall (λ c, c ≠ 32%N) (map b64_char (to_digits 64 k n))).
  { intros k n. pose proof (to_digits_bound 64 k n eq_refl) as Hb. rewrite !list.Forall_forall in *.
    split; intros c (v & <- & Hv)%list_elem_of_In%in_map_iff; apply list_elem_of_In, Hb in Hv.
    - by apply N.eqb_neq, b64_char_not_pad.
    - unfold b64_char. repeat case_bool; to_prop; try done; lia. }
  remember (length l) as n eqn:Hn. revert l Hn. induction (lt_wf n) as [n _ IH]. intros l -> Hl.
  destruct l as [| a [| b [| c rest]]].
  - exists [], 0. split_and!; try done. lia.
  - cbn [b64_encode]. eexists _, 2. destruct (Hgroup 2 (a * 16)%N). split; [reflexivity |]. by split_and!; [| | lia | |].
  - cbn [b64_encode]. eexists _, 1. destruct (Hgroup 3 (of_digits 256 [a; b] * 4)%N). split; [reflexivity |]. by split_and!; [| | lia | |].
  - destruct (IH (length rest)) with (l := rest) as (body & n & He & Hb & Hm & Hn & _ & Hsp); [simpl; lia | done | by apply (Forall_app _ [a; b; c] rest) in Hl as [_ ?] |].
    cbn [b64_encode]. rewrite He. destruct (Hgroup 4 (of_digits 256 [a; b; c])) as [G1 G2].
    exists (map b64_char (to_digits 64 4 (of_digits 256 [a; b; c])) ++ body), n. rewrite <- app_assoc. split; [done |].
    split; [by apply Forall_app |]. split; [| split; [done | split; [done | by apply Forall_app]]].
    rewrite length_app, length_map, length_to_digits. rewrite <- Nat.add_assoc, Nat.add_comm. by rewrite <- Nat.Div0.add_mod_idemp_r, Nat.Div0.mod_same, Nat.add_0_r.
Qed.
Lemma restore_stripped l : Forall (λ b, b < 256)%N l → l ≠ [] →
  rstrip_pad (b64_encode l) ≠ [] ∧ Forall (λ c, c ≠ 32%N) (rstrip_pad (b64_encode l))
  ∧ restore_padding (rstrip_pad (b64_encode l)) = b64_encode l.
Proof.
  intros Hl Hn. destruct (b64_encode_parts l Hl) as (body & n & He & Hb & Hm & Hlt & Hne & Hsp). rewrite He, rstrip_pads by done.
  split; [by apply Hne |]. split; [done |]. unfold restore_padding.
  assert (Hlen : length body `mod` 4 = if n =? 0 then 0 else 4 - n).
  { pose proof (Nat.Div0.div_mod (length body) 4). pose proof (Nat.Div0.div_mod (length body + n) 4). pose proof (Nat.mod_upper_bound (length body) 4).
    destruct n as [| [| [| n]]]; cbn [Nat.eqb]; lia. }
  rewrite Hlen. destruct n as [| [| [| n]]]; cbn [Nat.eqb Nat.sub replicate]; [by rewrite app_nil_r | done | done | lia].
Qed.

(** ** The query string reads as the parameters *)

Section Query.
Context `{FloatRepr} `{ContainerRepr}.

Lemma quote_pair_read key k value part : quote_plus key = Ok k → quote_pair k value = Ok part →
  Forall (λ c, c ≠ 38%N) part ∧ part ≠ [] ∧ parse_pair part = (key, value).
Proof.
  unfold quote_pair. intros Hk. rewrite result_bind_ok. intros (v & Hv & [= <-]).
  destruct (unquote_quote_plus _ _ Hk) as [Hku Hkc], (unquote_quote_plus _ _ Hv) as [Hvu Hvc].
  rewrite list.Forall_forall in Hkc, Hvc. split_and!.
  - apply list.Forall_forall. intros c [Hc | [-> | Hc]%elem_of_cons]%elem_of_app; [by apply Hkc | done | by apply Hvc].
  - by destruct k.
  - unfold parse_pair. rewrite split_at_app; [simpl; by rewrite Hku, Hvu |]. intros Hin. by destruct (Hkc _ Hin).
Qed.
Lemma quote_param_read kv parts : quote_param kv = Ok parts →
  Forall (Forall (λ c, c ≠ 38%N)) parts ∧ Forall (λ p, p ≠ []) parts ∧ map parse_pair parts = map (pair kv.1) (query_values kv.2).
Proof.
  unfold quote_param. rewrite result_bind_ok. intros (k & Hk & Hm). revert parts Hm. generalize (query_values kv.2).
  induction l as [| v vs IH]; intros parts Hm; simpl in Hm; [injection Hm as <-; by repeat constructor |].
  rewrite result_bind_ok in Hm. destruct Hm as (p & Hp & Hm). rewrite result_bind_ok in Hm. destruct Hm as (ps & Hps & [= <-]).
  destruct (quote_pair_read _ _ _ _ Hk Hp) as (H1 & H2 & H3). destruct (IH ps Hps) as (H4 & H5 & H6).
  split; [by constructor |]. split; [by constructor |]. simpl. by rewrite H3, H6.
Qed.
Lemma filter_kept {A} (p : A → bool) l : Forall (λ x, p x = true) l → List.filter p l = l.
Proof. induction 1 as [| x l Hx _ IH]; [done |]. simpl. by rewrite Hx, IH. Qed.

Lemma parse_urlencode params q : urlencode params = Ok q → parse_query q = query_pairs params.
Proof.
  unfold urlencode. rewrite result_bind_ok. intros (parts & Hp & [= <-]).
  assert (Hall : Forall (Forall (λ c, c ≠ 38%N)) (concat parts) ∧ Forall (λ p, p ≠ []) (concat parts)
    ∧ map parse_pair (concat parts) = query_pairs params).
  { revert parts Hp. induction params as [| kv params IH]; intros parts Hp; simpl in Hp; [injection Hp as <-; by repeat constructor |].
    rewrite result_bind_ok in Hp. destruct Hp as (ps & Hps & Hp). rewrite result_bind_ok in Hp. destruct Hp as (pss & Hpss & [= <-]).
    destruct (quote_param_read _ _ Hps) as (H1 & H2 & H3). destruct (IH pss Hpss) as (H4 & H5 & H6). cbn [concat].
    split; [by apply Forall_app |]. split; [by apply Forall_app |]. rewrite map_app, H3, H6. done. }
  destruct Hall as (H1 & H2 & H3). unfold parse_query. rewrite <- H3. f_equal.
  destruct (concat parts) as [| p ps] eqn:Hc; [done |]. rewrite split_join by done. apply filter_kept.
  eapply Forall_impl; [| exact H2]. intros x Hx. by rewrite bool_decide_false.
Qed.
End Query.

(** ** What can be encoded can be spread *)

Fixpoint texts_ok (j : json) : bool :=
  match j with
  | JStr s => forallb encodable s
  | JArr l => forallb texts_ok l
  | JObj l => forallb (λ kv, forallb encodable kv.1 && texts_ok kv.2) l
  | _ => true
  end.
Lemma escape_encodable c : forallb encodable (json_escape c) = true → encodable c = true.
Proof.
  unfold json_escape. repeat (case_bool; to_prop; [subst; done |]). case_bool; to_prop; [| simpl; by rewrite andb_true_r].
  intros _. unfold encodable, is_surrogate, in_range. apply andb_true_iff. split; [apply N.ltb_lt; lia |].
  apply negb_true_iff, andb_false_iff. left. apply N.leb_gt. lia.
Qed.
Lemma string_encodable s : forallb encodable (json_string s) = true → forallb encodable s = true.
Proof.
  unfold json_string, json_body. cbn [forallb]. rewrite forallb_app. intros [_ [Hs _]%andb_true_iff]%andb_true_iff. revert Hs.
  induction s as [| c s IH]; [done |]. cbn [map concat forallb]. rewrite forallb_app. intros [Hc Hs]%andb_true_iff.
  by rewrite (escape_encodable c Hc), IH.
Qed.
Lemma commas_encodable parts : forallb encodable (commas parts) = true → Forall (λ p, forallb encodable p = true) parts.
Proof.
  induction parts as [| p parts IH]; [done |]. destruct parts as [| q parts]; [by repeat constructor |].
  rewrite commas_cons, forallb_app. intros [Hp [_ Hs]%andb_true_iff]%andb_true_iff. constructor; [done | by apply IH].
Qed.
Lemma text_encodable `{FloatRepr} j : forallb encodable (json_text j) = true → texts_ok j = true.
Proof.
  induction j as [| | | | s | l IH | l IH] using json_induction; try done.
  - apply string_encodable.
  - cbn [json_text texts_ok forallb]. rewrite forallb_app. intros [_ [Hs%commas_encodable _]%andb_true_iff]%andb_true_iff.
    induction IH as [| x l Hx _ IH2]; [done |]. cbn [map forallb] in *. apply list.Forall_cons in Hs as [H1 H2]. by rewrite Hx, IH2.
  - cbn [json_text texts_ok forallb]. rewrite forallb_app. intros [_ [Hs%commas_encodable _]%andb_true_iff]%andb_true_iff.
    induction IH as [| [k x] l Hx _ IH2]; [done |]. cbn [map forallb fst snd] in *. apply list.Forall_cons in Hs as [H1 H2].
    rewrite forallb_app in H1. apply andb_true_iff in H1 as [H1 H3]. cbn [forallb] in H3. apply andb_true_iff in H3 as [_ H3].
    by rewrite (string_encodable k), Hx, IH2.
Qed.

(** [repr] writes no character that has no encoding: it escapes surrogates. *)
Class ContainerReprLaws `{ContainerRepr} : Prop := {
  container_repr_encodable j : forallb encodable (container_repr j) = true;
}.

Section Correct.
Context `{FloatTextLaws} `{ContainerReprLaws} `{QueryReader}.

Lemma number_char_encodable s : forallb is_number_char s = true → forallb encodable s = true.
Proof.
  apply forallb_impl. intros c. unfold is_number_char, is_09, encodable, is_surrogate. rewrite !orb_true_iff, in_range_true, !N.eqb_eq. intros Hc.
  apply andb_true_iff. split; [apply N.ltb_lt; lia |]. apply negb_true_iff, in_range_false. lia.
Qed.
Lemma py_str_encodable j : texts_ok j = true → forallb encodable (py_str j) = true.
Proof.
  destruct j as [| [] | z | f | s | l | l]; intros Hj; try done; cbn [py_str].
  - apply number_char_encodable. by destruct (str_int_read z) as (_ & _ & ? & _).
  - destruct f as [b | b | | b m e]; [| by destruct b | done |]; apply number_char_encodable, float_repr_chars; eauto.
  - apply container_repr_encodable.
  - apply container_repr_encodable.
Qed.
Lemma quote_plus_ok s : forallb encodable s = true → ∃ q, quote_plus s = Ok q.
Proof.
  rewrite <- utf8_encode_encodable. unfold quote_plus, quote_with. destruct (utf8_encode s); [| done]. intros _. eexists. reflexivity.
Qed.
Lemma urlencode_ok params : texts_ok (JObj params) = true → ∃ q, urlencode params = Ok q.
Proof.
  cbn [texts_ok]. intros Hp. unfold urlencode.
  assert (Hparts : ∃ parts, map_result quote_param params = Ok parts); [| destruct Hparts as [parts ->]; by eexists].
  apply map_result_total. rewrite forallb_forall in Hp. apply list.Forall_forall. intros [k v] Hkv%list_elem_of_In%Hp.
  apply andb_true_iff in Hkv as [Hk Hv]. unfold quote_param. cbn [fst snd] in *. destruct (quote_plus_ok k Hk) as [qk ->]. cbn [result_bind].
  apply map_result_total, list.Forall_forall. intros x Hx.
  assert (He : forallb encodable x = true).
  { destruct v as [| b | z | f | s | l | l]; cbn [query_values] in Hx; try (apply list_elem_of_singleton in Hx as ->; by apply py_str_encodable).
    - apply list_elem_of_In, in_map_iff in Hx as (y & <- & Hy). apply py_str_encodable. simpl in Hv. rewrite forallb_forall in Hv. by apply Hv.
    - unfold dict_keys in Hx. apply list_elem_of_In, in_map_iff in Hx as ([k' y] & <- & Hy). simpl in Hv. rewrite forallb_forall in Hv.
      by apply Hv, andb_true_iff in Hy as [? _]. }
  unfold quote_pair. destruct (quote_plus_ok x He) as [qx ->]. by eexists.
Qed.

Lemma encoded_ascii q : forallb is_ascii q = true → utf8_encode q = Ok q.
Proof.
  unfold utf8_encode. intros Hq. assert (Hm : mapM utf8_char q = Some (map (λ c, [c]) q)).
  { induction q as [| c q IH]; [done |]. cbn [forallb] in Hq. apply andb_true_iff in Hq as [Hc Hq]. cbn [mapM].
    assert (Hu : utf8_char c = Some [c]) by (unfold utf8_char; unfold is_ascii in Hc; by rewrite Hc). rewrite Hu. cbn [mbind option_bind]. by rewrite IH. }
  rewrite Hm. f_equal. clear. induction q as [| c q IH]; [done |]. simpl. by rewrite IH.
Qed.
Lemma spaces_idle s : Forall (λ c, c ≠ 32%N) s → spaces_to_plus s = s.
Proof. induction 1 as [| c s Hc _ IH]; [done |]. simpl. by rewrite (proj2 (N.eqb_neq c 32)), IH. Qed.
Definition plus_to_spaces (s : pystr) : pystr := map (λ c, if (c =? 43)%N then 32%N else c) s.
Lemma spaces_plus_spaces s : spaces_to_plus (plus_to_spaces s) = spaces_to_plus s.
Proof.
  unfold spaces_to_plus, plus_to_spaces. rewrite map_map. apply map_ext. intros c. destruct (N.eqb_spec c 43) as [-> | ?]; done.
Qed.

Lemma encode_decode payload s max_depth v :
  encode_query_param payload = Ok s → keys_distinct (JObj payload) = true → nesting (JObj payload) ≤ max_depth →
  spaces_to_plus v = spaces_to_plus s → decode_query_param max_depth v = Some payload ∧ texts_ok (JObj payload) = true.
Proof.
  unfold encode_query_param. rewrite result_bind_ok. intros (js & Hjs & Hs) Hk Hd Hv. rewrite result_bind_ok in Hs. destruct Hs as (q & Hq & [= <-]).
  destruct (unquote_quote js q Hq) as [Hu Ha]. split.
  - assert (Hb : Forall (λ b, b < 256)%N q).
    { rewrite forallb_forall in Ha. apply list.Forall_forall. intros c Hc%list_elem_of_In%Ha. unfold is_ascii in Hc. to_prop. lia. }
    assert (Hn : q ≠ []).
    { intros ->. change (unquote []) with (@nil N) in Hu. subst js. unfold dumps in Hjs. by destruct (ints_ok _). }
    destruct (restore_stripped q Hb Hn) as (Hne & Hsp & Hr). unfold decode_query_param.
    rewrite (spaces_idle _ Hsp) in Hv. rewrite bool_decide_false.
    2: { intros ->. simpl in Hv. by rewrite <- Hv in Hne. }
    rewrite Hv, Hr, (b64_roundtrip_upto (length q)) by done. cbn [result_bind].
    rewrite (utf8_decode_encode q q) by by apply encoded_ascii. cbn [result_bind]. rewrite Hu. by rewrite (loads_dumps (JObj payload)).
  - apply text_encodable. unfold quote, quote_with in Hq. rewrite result_bind_ok in Hq. destruct Hq as (bytes & Hq & _).
    apply utf8_encode_chars in Hq. unfold dumps in Hjs. destruct (ints_ok _); [| done]. by injection Hjs as <-.
Qed.

Context {St Rest A W : Type} (decoded_value : pydict json → St) (max_depth : nat) (param_name : pystr) (app : Scope St Rest → io W A).
Abbreviation middleware := (QueryParamDecodeMiddleware decoded_value max_depth param_name app).

(** C37: packed query parameters.  What [encode_query_param] made of a dictionary
    decodes to the same dictionary, with the types of its values, also when the
    plus signs of the Base64 text arrive as spaces.  For a request that carries
    it, the application is called with a query string that reads as the
    parameters themselves, one pair per element of a list, and with the
    dictionary in the state, everything else of the scope as it was.  A scope
    that is not an HTTP request, or whose parameter is missing, empty or does not
    decode, is passed on as it is. *)
Theorem query_param_correct payload s :
  encode_query_param payload = Ok s → keys_distinct (JObj payload) = true → nesting (JObj payload) ≤ max_depth →
  decode_query_param max_depth s = Some payload
  ∧ (∀ scope v, sc_type scope = u "http" → query_get (sc_query_string scope) param_name = Some v → v = s ∨ v = plus_to_spaces s →
      ∃ q state, parse_query q = query_pairs payload
        ∧ dict_get state DECODED_F_STATE_KEY = Some (decoded_value payload)
        ∧ (∀ k, k ≠ DECODED_F_STATE_KEY → dict_get state k = dict_get (sc_state scope) k)
        ∧ prog_eq (middleware scope) (app (mk_scope (sc_type scope) q state (sc_rest scope))))
  ∧ (∀ scope, sc_type scope ≠ u "http" ∨ query_get (sc_query_string scope) param_name = None
        ∨ (∃ v, query_get (sc_query_string scope) param_name = Some v ∧ decode_query_param max_depth v = None) →
      prog_eq (middleware scope) (app scope)).
Proof.
  intros He Hk Hd. destruct (encode_decode payload s max_depth s He Hk Hd eq_refl) as [Hdec Htexts]. split; [done |]. split.
  - intros scope v Ht Hv Hs. destruct (urlencode_ok payload Htexts) as [q Hq]. exists q, (dict_set (sc_state scope) DECODED_F_STATE_KEY (decoded_value payload)).
    split; [by apply parse_urlencode |]. split; [by rewrite dict_get_set, decide_True |].
    split; [intros k Hne; rewrite dict_get_set; by case_decide |].
    assert (Hdv : decode_query_param max_depth v = Some payload).
    { eapply encode_decode; [done.. |]. destruct Hs as [-> | ->]; [done | apply spaces_plus_spaces]. }
    intros w. unfold QueryParamDecodeMiddleware. rewrite bool_decide_true by done. cbn [negb]. rewrite Hv, Hdv.
    destruct v; [done |]. unfold bind, lift. by rewrite Hq.
  - intros scope Hs w. unfold QueryParamDecodeMiddleware. destruct (decide (sc_type scope = u "http")) as [Ht | Ht]; [| by rewrite bool_decide_false].
    rewrite bool_decide_true by done. cbn [negb]. destruct Hs as [Hs | [Hs | (v & Hs & Hv)]]; [done | by rewrite Hs |]. rewrite Hs, Hv. by destruct v.
Qed.
End Correct.

(** ** A concrete request *)
#[export] Instance plain_containers : ContainerRepr := { container_repr := λ _, u "..." }.
#[export] Instance plain_containers_laws : ContainerReprLaws.
Proof. by split. Qed.
(** The last value of a name. *)
#[export] Instance plain_query_reader : QueryReader :=
  { query_get := λ qs name, dict_get (reverse (parse_query qs)) name }.

Definition demo_payload : pydict json :=
  [(u "name", JStr (233%N :: u "t = 1&2/3?")); (u "ids", JArr [JInt (-7); JNull; JBool true]); (u "f", JObj [(u "k", JStr [])])].
Definition demo_packed : pystr := match encode_query_param demo_payload with Ok s => s | Err _ => [] end.
Definition demo_scope : Scope (pydict json) nat :=
  mk_scope (u "http") (u "page=2&f=" ++ demo_packed) [(u "trace", [])] 7.
Definition demo_app (scope : Scope (pydict json) nat) : io unit (Scope (pydict json) nat) := ret scope.

Lemma query_param_correct_witness :
  decode_query_param 10 demo_packed = Some demo_payload
  ∧ ∃ q state, QueryParamDecodeMiddleware id 10 (u "f") demo_app demo_scope tt = (tt, Ok (mk_scope (u "http") q state 7))
    ∧ parse_query q = [(u "name", 233%N :: u "t = 1&2/3?"); (u "ids", u "-7"); (u "ids", u "None"); (u "ids", u "True"); (u "f", u "k")].
Proof.
  assert (He : encode_query_param demo_payload = Ok demo_packed) by (vm_compute; reflexivity).
  assert (Hg : query_get (sc_query_string demo_scope) (u "f") = Some demo_packed) by (vm_compute; reflexivity).
  destruct (query_param_correct (@id (pydict json)) 10 (u "f") demo_app demo_payload demo_packed He) as (Hd & Hm & _);
    [vm_compute; reflexivity | apply Nat.leb_le; vm_compute; reflexivity |].
  split; [exact Hd |]. destruct (Hm demo_scope demo_packed eq_refl Hg (or_introl eq_refl)) as (q & state & Hq & _ & _ & Hrun).
  exists q, state. split; [apply Hrun |]. rewrite Hq. vm_compute. reflexivity.
Defined.

(** The middleware means to leave alone what it cannot spread.  A packed text
    with a lone surrogate decodes, and then [urlencode] raises: such a request
    fails with an internal error. *)
Lemma surrogate_parameter_raises :
  ∃ params, decode_query_param 10 (u "JTdCJTIyYSUyMiUzQSUyMiU1Q3VkODAwJTIyJTdE") = Some params ∧ urlencode params = Err ValueError.
Proof. exists [(u "a", JStr [55296%N])]. split; vm_compute; reflexivity. Qed.
