(* ===== verification/DatabaseLogging.v ===== *)
(** * DatabaseLogging: what is logged of the statements of a connection

    Models [infrastructure/database/logging.py]: the three SQLAlchemy event
    handlers and their stack of start times in [Connection.info].  A reading of
    [perf_counter] is an argument of the handler that takes it; which events
    SQLAlchemy delivers is a list of [query_event]s.  A log record is its level,
    event and details: the handlers pass nothing else to the logger. *)

From Stdlib Require Import Floats.SpecFloat.
From S2P Require Import Prelude Text PyVal Errors Floats HttpRequest.
Local Open Scope prog_scope.

(** ** [" ".join(text.split())] *)

(** [word]: the current word, backwards. *)
Fixpoint split_words (s word : pystr) : list pystr :=
  let flushed (rest : list pystr) := match word with [] => rest | _ => reverse word :: rest end in
  match s with
  | [] => flushed []
  | c :: s => if is_space c then flushed (split_words s []) else split_words s (c :: word)
  end.
Definition normalized (s : pystr) : pystr := join (u " ") (split_words s []).

(** ** Timers of a connection *)

(** What the stack holds: a start time, or a value some other code put there. *)
Inductive timer := Started (at_ : spec_float) | ForeignTimer.
(** [connection.info.get(_QUERY_TIMER_KEY)]; the last element comes first. *)
Inductive timer_slot := NoTimers | Timers (l : list timer) | ForeignSlot.

Inductive DatabaseLogEvent :=
| RESOURCE_CREATED | RESOURCE_CREATE_FAILED | RESOURCE_CLOSED | RESOURCE_CLOSE_FAILED
| QUERY_COMPLETED | QUERY_SLOW | QUERY_FAILED.
Record db_log := mk_db_log { dl_level : log_level; dl_event : DatabaseLogEvent; dl_details : pydict pyval }.

Record query_world := mk_qw { qw_timers : timer_slot; qw_log : list db_log }.
Definition set_timers (t : timer_slot) (w : query_world) : query_world := mk_qw t (qw_log w).
Definition log_query (l : db_log) (w : query_world) : query_world := mk_qw (qw_timers w) (qw_log w ++ [l]).

(** What the driver's exception carries. *)
Class DriverErrors := {
  err_attr : exn → pystr → option pyval;     (* getattr(exception, name, None) *)
  err_args : exn → list pyval;               (* exception.args *)
  err_name : exn → pystr;                    (* type(exception).__name__ *)
}.

Section Logging.
Context `{UrlTables} `{DriverErrors}.
Context (sha256_hex : pystr → result exn pystr).   (* of the UTF-8 bytes *)
Context (connection_name : pystr) (log_queries : bool) (slow_query_ms : Z).

Definition pop_duration_ms (now : spec_float) : io query_world (option spec_float) :=
  let* slot := read qw_timers in
  match slot with
  | Timers (t :: l) =>
      modify (set_timers (Timers l));;;
      ret (match t with Started at_ => Some (elapsed_ms at_ now) | ForeignTimer => None end)
  | _ => ret None
  end.

Definition is_slow_query (duration_ms : option spec_float) (threshold_ms : Z) : bool :=
  (0 <? threshold_ms)%Z && match duration_ms with Some d => float_ge_int d threshold_ms | None => false end.

Definition describe_statement (statement : option pystr) (include_statement : bool) : result exn (pydict pyval) :=
  match statement with
  | None => Ok []
  | Some statement =>
      let normalized := normalized statement in
      let operation := (default (normalized, []) (split_at (ch " ") normalized)).1 in
      let? digest := sha256_hex normalized in
      Ok ([(u "operation", VStr (py_upper operation)); (u "statement_id", VStr (take 16 digest))]
          ++ if include_statement then [(u "statement", VStr statement)] else [])
  end.

Definition nonempty_text (v : option pyval) : option pyval :=
  match v with Some (VStr (c :: s)) => Some (VStr (c :: s)) | _ => None end.
Definition get_database_error_code (exception : exn) : option pyval :=
  match nonempty_text (err_attr exception (u "sqlstate")) with
  | Some v => Some v
  | None =>
      match nonempty_text (err_attr exception (u "pgcode")) with
      | Some v => Some v
      | None => match err_args exception with
                | v :: _ => match is_int_instance v with Some _ => Some v | None => None end
                | [] => None
                end
      end
  end.

(** [connection.info.setdefault(_QUERY_TIMER_KEY, [])] and the push. *)
Definition before_cursor_execute (now : spec_float) : io query_world unit :=
  modify (λ w, set_timers (match qw_timers w with
                           | NoTimers => Timers [Started now]
                           | Timers l => Timers (Started now :: l)
                           | ForeignSlot => ForeignSlot
                           end) w).

Definition optional_float (f : option spec_float) : pyval := match f with Some f => VFloat f | None => VNone end.

Definition after_cursor_execute (now : spec_float) (statement : pystr) (executemany : bool) : io query_world unit :=
  let* duration_ms := pop_duration_ms now in
  let slow := is_slow_query duration_ms slow_query_ms in
  if slow || log_queries then
    let '(event, level) := if slow then (QUERY_SLOW, LogWarning) else (QUERY_COMPLETED, LogInfo) in
    let* described := lift (describe_statement (Some statement) log_queries) in
    modify (log_query (mk_db_log level event
      ([(u "connection", VStr connection_name); (u "duration_ms", optional_float duration_ms);
        (u "executemany", VBool executemany)] ++ described)))
  else ret tt.

(** [connected]: the context of the exception has a connection. *)
Definition handle_error (now : spec_float) (connected : bool) (exception : exn) (statement : option pystr) :
    io query_world unit :=
  let* duration_ms := (if connected then pop_duration_ms now else ret None) in
  let* described := lift (describe_statement statement log_queries) in
  modify (log_query (mk_db_log LogError QUERY_FAILED
    ([(u "connection", VStr connection_name); (u "duration_ms", optional_float duration_ms);
      (u "error_type", VStr (err_name exception))]
     ++ match get_database_error_code exception with Some code => [(u "error_code", code)] | None => [] end
     ++ described))).

(** ** Events of one connection *)
Inductive query_event :=
| BeforeExecute (now : spec_float)
| AfterExecute (now : spec_float) (statement : pystr) (executemany : bool)
| ExecuteError (now : spec_float) (connected : bool) (exception : exn) (statement : option pystr).

Definition run_event (e : query_event) : io query_world unit :=
  match e with
  | BeforeExecute now => before_cursor_execute now
  | AfterExecute now statement executemany => after_cursor_execute now statement executemany
  | ExecuteError now connected exception statement => handle_error now connected exception statement
  end.
Fixpoint run_events (es : list query_event) : io query_world unit :=
  match es with
  | [] => ret tt
  | e :: es => run_event e;;; run_events es
  end.

(** One statement as the driver executed it. *)
Record execution := mk_execution {
  ex_statement : pystr; ex_many : bool; ex_started : spec_float; ex_ended : spec_float; ex_error : option exn;
}.
Definition ending (q : execution) : query_event :=
  match ex_error q with
  | Some e => ExecuteError (ex_ended q) true e (Some (ex_statement q))
  | None => AfterExecute (ex_ended q) (ex_statement q) (ex_many q)
  end.
(** What is observed: a statement, or a failure to connect at all. *)
Inductive observed := Executed (q : execution) | Refused (e : exn).

(** The events of executions that start and end in a last-in first-out order
    (an execution may run others before it ends), with what they show in the
    order in which it ends. *)
Inductive nested : list query_event → list observed → Prop :=
| nested_nil : nested [] []
| nested_query q inner rest os1 os2 :
    is_ok (sha256_hex (normalized (ex_statement q))) = true →
    nested inner os1 → nested rest os2 →
    nested (BeforeExecute (ex_started q) :: inner ++ ending q :: rest) (os1 ++ Executed q :: os2)
| nested_refused now e rest os :
    nested rest os →
    nested (ExecuteError now false e None :: rest) (Refused e :: os).

(** ** What each of them leaves in the log *)
Definition detail (l : db_log) (k : string) : option pyval := dict_get (dl_details l) (u k).
Definition query_ms (q : execution) : spec_float := elapsed_ms (ex_started q) (ex_ended q).
Definition exceeds (q : execution) : Prop := (0 < slow_query_ms)%Z ∧ float_ge_int (query_ms q) slow_query_ms = true.
Definition written (level : log_level) (event : DatabaseLogEvent) (l : db_log) : Prop :=
  dl_level l = level ∧ dl_event l = event ∧ detail l "connection" = Some (VStr connection_name).
(** The record of one statement: its own duration, and its text only when the
    queries are logged. *)
Definition describes (q : execution) (l : db_log) : Prop :=
  detail l "duration_ms" = Some (VFloat (query_ms q))
  ∧ (detail l "statement" = if log_queries then Some (VStr (ex_statement q)) else None)
  ∧ ∀ k, k ∈ dict_keys (dl_details l) →
      k ∈ map u ["connection"; "duration_ms"; "executemany"; "error_type"; "error_code"; "operation"; "statement_id"; "statement"].
Definition reported (o : observed) (logs : list db_log) : Prop :=
  match o with
  | Refused e => ∃ l, logs = [l] ∧ written LogError QUERY_FAILED l ∧ detail l "duration_ms" = Some VNone
      ∧ detail l "error_type" = Some (VStr (err_name e)) ∧ detail l "statement" = None
  | Executed q =>
      match ex_error q with
      | Some e => ∃ l, logs = [l] ∧ written LogError QUERY_FAILED l ∧ describes q l
          ∧ detail l "error_type" = Some (VStr (err_name e)) ∧ detail l "error_code" = get_database_error_code e
      | None =>
          (exceeds q → ∃ l, logs = [l] ∧ written LogWarning QUERY_SLOW l ∧ describes q l)
          ∧ (¬ exceeds q → if log_queries then ∃ l, logs = [l] ∧ written LogInfo QUERY_COMPLETED l ∧ describes q l
                           else logs = [])
      end
  end.
Definition timers_of (s : timer_slot) : option (list timer) :=
  match s with NoTimers => Some [] | Timers l => Some l | ForeignSlot => None end.
End Logging.

(** ** Proofs *)
Section Proofs.
Context `{UrlTables} `{DriverErrors}.
Context (sha256_hex : pystr → result exn pystr) (connection_name : pystr) (log_queries : bool) (slow_query_ms : Z).
Abbreviation run := (run_events sha256_hex connection_name log_queries slow_query_ms).
Abbreviation reports := (reported connection_name log_queries slow_query_ms).

Lemma run_events_app es1 es2 w :
  run (es1 ++ es2) w = (run es1;;; run es2) w.
Proof.
  revert w. induction es1 as [| e es1 IH]; intros w; [done |].
  cbn [app run_events]. unfold bind in *. destruct (run_event _ _ _ _ e w) as [w1 [[] | x]]; [apply IH | done].
Qed.

Lemma is_slow_exceeds q : is_slow_query (Some (query_ms q)) slow_query_ms = true ↔ exceeds slow_query_ms q.
Proof. unfold is_slow_query, exceeds. rewrite andb_true_iff, Z.ltb_lt. done. Qed.

(** The end of an execution whose start is on top of the stack. *)
Lemma ending_reported q l log :
  is_ok (sha256_hex (normalized (ex_statement q))) = true →
  ∃ logs, run_event sha256_hex connection_name log_queries slow_query_ms (ending q) (mk_qw (Timers (Started (ex_started q) :: l)) log)
    = (mk_qw (Timers l) (log ++ logs), Ok tt) ∧ reports (Executed q) logs.
Proof.
  intros Hd. destruct (sha256_hex (normalized (ex_statement q))) as [digest |] eqn:Hs; [| done]. clear Hd.
  unfold ending, reported. destruct (ex_error q) as [e |].
  - simpl. unfold handle_error, describe_statement. unprog. simpl. rewrite Hs. eexists. split; [reflexivity |].
    eexists. split; [reflexivity |].
    destruct (get_database_error_code e) as [c |], log_queries; (split; [done | split; [split; [done | split; [done |]] | done]]);
      simpl; intros k Hk; set_solver.
  - simpl. unfold after_cursor_execute, describe_statement. unprog. simpl. change (elapsed_ms _ _) with (query_ms q).
    pose proof (is_slow_exceeds q) as He. destruct (is_slow_query _ _) eqn:Hslow; simpl.
    + rewrite Hs. simpl. eexists. split; [reflexivity |]. split; [| intros Hn; destruct Hn; by apply He].
      intros _. eexists. split; [reflexivity |]. split; [done |]. split; [done |]. split; [by destruct log_queries |].
      destruct log_queries; simpl; intros k Hk; set_solver.
    + assert (Hn : ¬ exceeds slow_query_ms q) by (intros Hx; apply He in Hx; done).
      destruct log_queries; simpl.
      * rewrite Hs. simpl. eexists. split; [reflexivity |]. split; [done |].
        intros _. eexists. split; [reflexivity |]. split; [done |]. split; [done |]. split; [done |]. simpl. intros k Hk. set_solver.
      * exists []. rewrite app_nil_r. split; [done |]. by split.
Qed.

Lemma refused_reported now e slot log :
  ∃ x, run_event sha256_hex connection_name log_queries slow_query_ms (ExecuteError now false e None) (mk_qw slot log)
    = (mk_qw slot (log ++ [x]), Ok tt) ∧ reports (Refused e) [x].
Proof.
  eexists. split; [reflexivity |]. eexists. split; [reflexivity |]. by destruct (get_database_error_code e).
Qed.

(** The log of a connection tells what was executed on it.  For any
    executions that nest properly, also ones that fail and attempts that never
    got a connection, the handlers raise nothing, leave the stack of start times
    as they found it, and write for each execution, in the order in which they
    end: an error record when it failed; a slow-query warning exactly when it
    took at least a positive threshold; otherwise an information record exactly
    when queries are logged.  Every record has the duration of its own
    execution, even when others ran inside it, the text of the statement only
    when queries are logged, and never a parameter. *)
Theorem query_log_correct es os :
  nested sha256_hex es os →
  ∀ w l, timers_of (qw_timers w) = Some l →
  ∃ slot logs, run es w = (mk_qw slot (qw_log w ++ concat logs), Ok tt)
    ∧ timers_of slot = Some l ∧ Forall2 reports os logs.
Proof.
  induction 1 as [| q inner rest os1 os2 Hd Hin IHin Hrest IHrest | now e rest os Hrest IHrest]; intros [slot log] l Hl; simpl in Hl.
  - exists slot, []. rewrite app_nil_r. done.
  - set (w1 := mk_qw (Timers (Started (ex_started q) :: l)) log).
    assert (Hb : run (BeforeExecute (ex_started q) :: inner ++ ending q :: rest) (mk_qw slot log) = run (inner ++ ending q :: rest) w1).
    { cbn [run_events run_event]. unfold before_cursor_execute. unprog. unfold set_timers. simpl. by destruct slot; simplify_eq/=. }
    rewrite Hb, run_events_app. destruct (IHin w1 (Started (ex_started q) :: l) eq_refl) as (s2 & logs1 & Hr1 & Hs2 & Hf1).
    unfold bind at 1. rewrite Hr1. destruct s2 as [| l2 |]; simplify_eq/=.
    destruct (ending_reported q l (log ++ concat logs1) Hd) as (logs2 & Hr2 & Hf2). unfold bind at 1. rewrite Hr2.
    destruct (IHrest (mk_qw (Timers l) ((log ++ concat logs1) ++ logs2)) l eq_refl) as (s3 & logs3 & Hr3 & Hs3 & Hf3).
    exists s3, (logs1 ++ logs2 :: logs3). rewrite Hr3, concat_app, !app_assoc. simpl. rewrite !app_assoc. split; [done |]. split; [done |].
    apply Forall2_app; [done |]. by constructor.
  - destruct (refused_reported now e slot log) as (x & Hx & Hrep).
    destruct (IHrest (mk_qw slot (log ++ [x])) l Hl) as (s2 & logs & Hr & Hs & Hf).
    exists s2, ([x] :: logs). cbn [run_events]. unfold bind at 1. rewrite Hx, Hr. simpl. rewrite <- app_assoc.
    split; [reflexivity |]. split; [done |]. by constructor.
Qed.
End Proofs.

(** ** A concrete connection: a slow query with another, failing one inside it *)
Definition demo_driver_errors : DriverErrors := {|
  err_attr := λ e k, match e with DBAPIError _ => if decide (k = u "pgcode") then Some (VStr (u "23505")) else None | _ => None end;
  err_args := λ _, [];
  err_name := λ e, match e with DBAPIError _ => u "DBAPIError" | _ => u "Exception" end;
|}.
Definition at_seconds (z : Z) : spec_float := signed_float z.
Definition demo_outer : execution := mk_execution (u "SELECT  *
 FROM users") false (at_seconds 10) (at_seconds 12) None.
Definition demo_inner : execution :=
  mk_execution (u "insert into t values (?)") true (at_seconds 11) (at_seconds 12) (Some (DBAPIError false)).
Definition demo_events : list query_event :=
  [ExecuteError (at_seconds 9) false (OperationalError true) None; BeforeExecute (at_seconds 10); BeforeExecute (at_seconds 11);
   ending demo_inner; ending demo_outer].
Definition demo_sha (s : pystr) : result exn pystr := Ok (u "0123456789abcdef0123456789abcdef").

Lemma query_log_correct_witness :
  ∃ slot logs,
    @run_events plain_urls demo_driver_errors demo_sha (u "main") false 500 demo_events (mk_qw NoTimers []) =
      (mk_qw slot logs, Ok tt)
    ∧ map dl_event logs = [QUERY_FAILED; QUERY_FAILED; QUERY_SLOW]
    ∧ map (λ l, dict_get (dl_details l) (u "duration_ms")) logs =
        [Some VNone; Some (VFloat (elapsed_ms (at_seconds 11) (at_seconds 12))); Some (VFloat (elapsed_ms (at_seconds 10) (at_seconds 12)))]
    ∧ dict_get (dl_details (default (mk_db_log LogInfo QUERY_COMPLETED []) (logs !! 2))) (u "operation") = Some (VStr (u "SELECT")).
Proof.
  destruct (@query_log_correct plain_urls demo_driver_errors demo_sha (u "main") false 500 demo_events
    [Refused (OperationalError true); Executed demo_inner; Executed demo_outer]) with (w := mk_qw NoTimers []) (l := @nil timer)
    as (slot & logs & Hr & _ & _); [| reflexivity |].
  - apply nested_refused. apply (nested_query demo_sha demo_outer [BeforeExecute (at_seconds 11); ending demo_inner] [] [Executed demo_inner] []);
      [reflexivity | | apply nested_nil]. by apply (nested_query demo_sha demo_inner [] [] [] []); [reflexivity | apply nested_nil | apply nested_nil].
  - exists slot, (concat logs). split; [exact Hr |]. assert (He : concat logs = qw_log (@run_events plain_urls demo_driver_errors demo_sha
      (u "main") false 500 demo_events (mk_qw NoTimers [])).1) by (rewrite Hr; reflexivity).
    rewrite He. split; [vm_compute; reflexivity |]. split; [vm_compute; reflexivity |]. vm_compute. reflexivity.
Defined.
