(* ===== verification/DatabaseEngine.v ===== *)
(** * DatabaseEngine: engines, their creation and the database manager

    Models [infrastructure/database/providers/], [connections/], [contracts/],
    [factory.py], [resource.py], [errors.py] and the manager as an instance of
    NamedResources.  SQLAlchemy's engine is the class [SqlAlchemy] and a DBAPI
    connection the class [Dbapi]; the handlers of DatabaseLogging are attached
    to an engine as the pair of a connection name and a specification. *)

From Stdlib Require Import Floats.SpecFloat.
From S2P Require Import Prelude Text PyVal Errors Lazy NamedResources Settings Database HttpRequest DatabaseLogging.
Local Open Scope prog_scope.

(** ** POSIX paths: [str(Path(text))], [is_absolute], [/] *)
Definition path_parts (s : pystr) : list pystr :=
  List.filter (λ p, negb (bool_decide (p ∈ [[]; u "."]))) (split_on (ch "/") s []).
(** Exactly two leading slashes are kept. *)
Definition path_root (s : pystr) : pystr :=
  match strip_prefix (u "//") s, strip_prefix (u "///") s, strip_prefix (u "/") s with
  | Some _, None, _ => u "//"
  | _, _, Some _ => u "/"
  | _, _, _ => []
  end.
Definition path_text (root : pystr) (parts : list pystr) : pystr :=
  match root, parts with
  | [], [] => u "."
  | _, _ => root ++ join (u "/") parts
  end.
Definition is_absolute (s : pystr) : bool := negb (bool_decide (path_root s = [])).
(** [resolved_database] *)
Definition resolved_database (storage_dir database : pystr) : pystr :=
  if bool_decide (database = u ":memory:") then database
  else if is_absolute database then path_text (path_root database) (path_parts database)
  else path_text (path_root storage_dir) (path_parts storage_dir ++ path_parts database).

(** ** Specifications *)
(** [sqlalchemy.URL]; [VNone] is an omitted part. *)
Record URL := mk_url {
  url_drivername : pystr; url_username : pyval; url_password : pyval; url_host : pyval; url_port : pyval;
  url_database : pyval; url_query : pydict pystr;
}.
Record DatabaseEngineSpec := mk_engine_spec {
  es_url : URL; es_options : pydict pyval; es_log_queries : bool; es_slow_query_ms : Z;
}.

Class Dbapi (W C : Type) := {
  dbapi_cursor : C → io W Z;                       (* connection.cursor() *)
  dbapi_execute : C → Z → pystr → io W unit;       (* cursor.execute(...) *)
  dbapi_close : C → Z → io W unit;                 (* cursor.close() *)
}.
Class SqlAlchemy (W C E : Type) := {
  create_async_engine : URL → bool → pydict pyval → io W E;    (* url, hide_parameters, options *)
  listen_connect : E → (C → io W unit) → io W unit;
  listen_queries : E → pystr → DatabaseEngineSpec → io W unit; (* the handlers of DatabaseLogging *)
  engine_dispose : E → io W unit;
  engine_drivername : E → pystr;
}.
Record async_sessionmaker (E : Type) := mk_sessionmaker { sm_bind : E; sm_expire_on_commit : bool }.
Arguments mk_sessionmaker {E}.
Record DatabaseResource (E : Type) := mk_db_resource {
  dr_connection_name : pystr; dr_engine : E; dr_session_factory : async_sessionmaker E }.
Arguments mk_db_resource {E}.
Arguments dr_connection_name {E}.
Arguments dr_engine {E}.
Arguments dr_session_factory {E}.

Section Engine.
Context {W C E : Type} `{Dbapi W C} `{SqlAlchemy W C E}.

(** ** contracts/provider.py *)
Record DatabaseResourceDefinition := mk_db_definition {
  rd_engine_spec : DatabaseEngineSpec; rd_configure_engine : option (E → io W unit) }.

(** ** providers/sqlite.py *)
Definition enable_foreign_keys (dbapi_connection : C) : io W unit :=
  let* cursor := dbapi_cursor dbapi_connection in
  finally (dbapi_execute dbapi_connection cursor (u "PRAGMA foreign_keys=ON")) (dbapi_close dbapi_connection cursor).
Definition configure_sqlite_engine (engine : E) : io W unit := listen_connect engine enable_foreign_keys.

Definition SQLITE_BUSY_TIMEOUT_SECONDS : pyval := float 30.
Definition text_value (v : pyval) : pystr := match v with VStr s => s | _ => [] end.
Definition logged_spec (url : URL) (options : pydict pyval) (cfg : pydict pyval) : DatabaseEngineSpec :=
  mk_engine_spec url options (is_true (value cfg "echo")) (int_value (value cfg "slow_query_ms")).

Context `{Pydantic} (storage_dir : pystr).
Definition sqlite_prepare (raw : pydict pyval) : result exn DatabaseResourceDefinition :=
  let? settings := validate_model SQLiteDatabaseSettings raw in
  Ok (mk_db_definition
        (logged_spec
           (mk_url (u "sqlite+aiosqlite") VNone VNone VNone VNone
              (VStr (resolved_database storage_dir (text_value (value settings "database")))) [])
           [(u "connect_args", VDict [(str "timeout", SQLITE_BUSY_TIMEOUT_SECONDS)])] settings)
        (Some configure_sqlite_engine)).

(** ** providers/mysql.py, postgresql.py *)
Definition server_url (drivername : string) (settings : pydict pyval) (query : pydict pystr) : URL :=
  mk_url (u drivername) (value settings "username") (value settings "password") (value settings "host")
    (value settings "port") (value settings "database") query.
Definition pool_options (settings : pydict pyval) : pydict pyval :=
  map (λ k, (u k, value settings k)) ["pool_size"; "max_overflow"; "pool_pre_ping"; "pool_recycle"].
Definition mysql_prepare (raw : pydict pyval) : result exn DatabaseResourceDefinition :=
  let? settings := validate_model MySQLDatabaseSettings raw in
  Ok (mk_db_definition
        (logged_spec (server_url "mysql+asyncmy" settings [(u "charset", text_value (value settings "charset"))])
           (pool_options settings) settings) None).
Definition postgresql_prepare (raw : pydict pyval) : result exn DatabaseResourceDefinition :=
  let? settings := validate_model PostgreSQLDatabaseSettings raw in
  Ok (mk_db_definition (logged_spec (server_url "postgresql+asyncpg" settings []) (pool_options settings) settings) None).

Definition MySQLDatabaseProvider := mk_db_provider [u "mysql"] mysql_prepare.
Definition PostgreSQLDatabaseProvider := mk_db_provider [u "postgresql"; u "pgsql"] postgresql_prepare.
Definition SQLiteDatabaseProvider := mk_db_provider [u "sqlite"] sqlite_prepare.
(** The three providers under the drivers they name. *)
Definition DEFAULT_DATABASE_PROVIDERS : pydict (DatabaseProvider DatabaseResourceDefinition) :=
  [(u "mysql", MySQLDatabaseProvider); (u "postgresql", PostgreSQLDatabaseProvider); (u "pgsql", PostgreSQLDatabaseProvider);
   (u "sqlite", SQLiteDatabaseProvider)].

(** ** factory.py *)
Context `{Tracebacks} (log_ : db_log → io W unit).
Definition frame_value (f : ExceptionStackFrame) : pyval :=
  VDict [(str "module", VStr (sf_module f)); (str "function", VStr (sf_function f)); (str "line", VInt (sf_line f))].
Definition failure_details (error : exn) : pydict pyval :=
  let '(error_type, stacktrace) := safe_exception_details error in
  [(u "error_type", VStr error_type); (u "stacktrace", VTuple (map frame_value stacktrace))].
Definition resource_log (level : log_level) (event : DatabaseLogEvent) (connection driver : pystr) (more : pydict pyval) :
    io W unit :=
  log_ (mk_db_log level event ([(u "connection", VStr connection); (u "driver", VStr driver)] ++ more)).
Definition driver_missing (e : exn) : bool :=
  match e with ImportError | ModuleNotFoundError | NoSuchModuleError => true | _ => false end.

Definition create_database_resource (connection_name : pystr) (definition : DatabaseResourceDefinition) :
    io W (DatabaseResource E) :=
  let spec := rd_engine_spec definition in
  let driver := url_drivername (es_url spec) in
  let* engine := catch (create_async_engine (es_url spec) true (es_options spec)) (λ error,
    if driver_missing error
    then resource_log LogError RESOURCE_CREATE_FAILED connection_name driver (failure_details error);;;
         raise DatabaseDriverError
    else raise error) in
  match rd_configure_engine definition with Some configure => configure engine | None => ret tt end;;;
  listen_queries engine connection_name spec;;;
  resource_log LogInfo RESOURCE_CREATED connection_name driver [];;;
  ret (mk_db_resource connection_name engine (mk_sessionmaker engine false)).

(** [except Exception] *)
Definition close_database_resource (resource : DatabaseResource E) : io W unit :=
  let driver := engine_drivername (dr_engine resource) in
  catch (engine_dispose (dr_engine resource)) (λ error,
    (if is_exception error
     then resource_log LogError RESOURCE_CLOSE_FAILED (dr_connection_name resource) driver (failure_details error)
     else ret tt);;;
    raise error);;;
  resource_log LogInfo RESOURCE_CLOSED (dr_connection_name resource) driver [].

(** ** DatabaseManager: its lazy resources *)
Definition database_factory (settings : DatabaseSettings) (name : pystr) : io W (DatabaseResource E) :=
  match dict_get (ds_connections settings) name with
  | Some raw => database_create DEFAULT_DATABASE_PROVIDERS settings create_database_resource name raw
  | None => raise DatabaseConfigurationError
  end.
Definition database_closer (name : pystr) : DatabaseResource E → io W unit := close_database_resource.
(** [_resolve_name] and the lookup in [_resources]. *)
Definition database_name (settings : DatabaseSettings) (name : option pystr) : result exn pystr :=
  let? n := database_resolve_name settings name in
  if bool_decide (n ∈ dict_keys (ds_connections settings)) then Ok n else Err DatabaseConfigurationError.
Definition database_manager_get (settings : DatabaseSettings) : option pystr → io (named (DatabaseResource E) * W) (DatabaseResource E) :=
  named_get (database_factory settings) (database_name settings).
Definition database_manager_aclose (settings : DatabaseSettings) : io (named (DatabaseResource E) * W) unit :=
  named_aclose (dict_keys (ds_connections settings)) database_closer.
End Engine.
Arguments DatabaseResourceDefinition : clear implicits.

(** ** errors.py *)
Definition translate_database_error (error : exn) : option exn :=
  match error with
  | DisconnectionError | InterfaceError _ | OperationalError _ | SQLAlchemyTimeoutError => Some DatabaseOperationError
  | _ => None
  end.

(** ** Proofs *)

Lemma path_root_none s : path_root s = [] ↔ strip_prefix (u "/") s = None.
Proof.
  unfold path_root. change (u "//") with [47; 47]%N. change (u "///") with [47; 47; 47]%N. change (u "/") with [47]%N.
  destruct s as [| c s]; [done |]. cbn [strip_prefix]. destruct (47 =? c)%N; [| done].
  split; [| done]. intros Hr. exfalso. revert Hr. repeat case_match; by simplify_eq/=.
Qed.
Lemma is_absolute_spec s : is_absolute s = true ↔ ∃ t, s = ch "/" :: t.
Proof.
  unfold is_absolute. rewrite negb_true_iff, bool_decide_eq_false, path_root_none.
  change (u "/") with [47]%N. change (ch "/") with 47%N. destruct s as [| c s]; cbn [strip_prefix]; [naive_solver |].
  destruct (N.eqb_spec 47 c) as [<- | ?]; naive_solver.
Qed.
Lemma path_text_absolute root parts : is_absolute root = true → is_absolute (path_text root parts) = true.
Proof.
  rewrite !is_absolute_spec. intros [t ->]. exists (t ++ join (u "/") parts). by destruct parts.
Qed.
Lemma path_root_absolute s : is_absolute s = true → is_absolute (path_root s) = true.
Proof.
  unfold is_absolute at 1. rewrite negb_true_iff, bool_decide_eq_false. unfold path_root.
  repeat case_match; try done; intros _; by vm_compute.
Qed.
(** The file of an SQLite connection does not depend on the working directory. *)
Lemma resolved_database_absolute storage_dir database :
  is_absolute storage_dir = true → database ≠ u ":memory:" → is_absolute (resolved_database storage_dir database) = true.
Proof.
  intros Hs Hd. unfold resolved_database. rewrite bool_decide_false by done.
  destruct (is_absolute database) eqn:Ha; by apply path_text_absolute, path_root_absolute.
Qed.

Section Settings.
Context `{PydanticLaws}.
Lemma setting_text m raw cfg name lo ok d :
  settings_of m raw cfg → mk_field (u name) (TStr lo None ok) d ∈ md_fields m →
  ∃ s, value cfg name = VStr s ∧ (lo <= len s)%Z.
Proof.
  intros Hs Hf. destruct (settings_field _ _ _ _ Hs Hf) as (v & Hv & Ho). unfold value. simpl in Hv. rewrite Hv.
  destruct v; try done. exists s. split; [done |]. simpl in Ho. apply andb_true_iff in Ho as [Ho _]. unfold str_fits in Ho.
  to_prop. lia.
Qed.
Lemma setting_int m raw cfg name ok d :
  settings_of m raw cfg → mk_field (u name) (TInt ok) d ∈ md_fields m → ∃ z, value cfg name = VInt z ∧ ok z = true.
Proof.
  intros Hs Hf. destruct (settings_field _ _ _ _ Hs Hf) as (v & Hv & Ho). unfold value. simpl in Hv. rewrite Hv.
  destruct v; try done. by exists z.
Qed.
Lemma setting_literal m raw cfg name choices :
  settings_of m raw cfg → mk_field (u name) (TLiteral choices) None ∈ md_fields m →
  ∃ s, dict_get raw (u name) = Some (VStr s) ∧ s ∈ choices.
Proof.
  intros (_ & Hf & _) Hin. destruct (Hf _ Hin) as (v & _ & _ & Hr). simpl in Hr.
  destruct (dict_get raw (u name)) as [[] |]; try done. exists s. split; [done |]. simpl in Hr. unfold check in Hr.
  case_bool_decide; [done | discriminate Hr].
Qed.
Lemma database_model_ok m : m ∈ [MySQLDatabaseSettings; PostgreSQLDatabaseSettings; SQLiteDatabaseSettings] → model_ok m.
Proof.
  intros Hm. pose proof models_ok as Hall. rewrite list.Forall_forall in Hall. apply Hall. unfold connection_models.
  cbn [app]. rewrite !elem_of_cons, elem_of_nil in Hm. rewrite !elem_of_cons. tauto.
Qed.
Lemma validate_model_err m raw e : validate_model m raw = Err e → e = ValidationError.
Proof. unfold validate_model. intros Hv. repeat case_match; by simplify_eq. Qed.
End Settings.

Section Proofs.
Context {W C E : Type} `{Dbapi W C} `{SqlAlchemy W C E} `{PydanticLaws} (storage_dir : pystr).
Abbreviation providers := (DEFAULT_DATABASE_PROVIDERS (W := W) (C := C) (E := E) storage_dir).

Lemma default_databases :
  DatabaseProviderRegistry_new [MySQLDatabaseProvider; PostgreSQLDatabaseProvider; SQLiteDatabaseProvider storage_dir] = Ok providers.
Proof. reflexivity. Qed.

(** What every accepted configuration gives the engine. *)
Definition server_sound (s : DatabaseEngineSpec) : Prop :=
  (∃ port, url_port (es_url s) = VInt port ∧ 1 <= port <= 65535)%Z
  ∧ (∃ n, dict_get (es_options s) (u "pool_size") = Some (VInt n) ∧ 1 <= n)%Z
  ∧ Forall (λ v, ∃ t, v = VStr t ∧ t ≠ []) [url_username (es_url s); url_password (es_url s); url_host (es_url s); url_database (es_url s)].
Definition definition_sound (cfg : pydict pyval) (d : DatabaseResourceDefinition W E) : Prop :=
  let s := rd_engine_spec d in
  ∃ driver, dict_get cfg (u "driver") = Some (VStr driver) ∧ (0 <= es_slow_query_ms s)%Z ∧
  ((driver = u "sqlite" ∧ url_drivername (es_url s) = u "sqlite+aiosqlite" ∧ rd_configure_engine d = Some configure_sqlite_engine
    ∧ ∃ p, url_database (es_url s) = VStr p ∧ (p = u ":memory:" ∨ is_absolute p = true))
   ∨ (driver = u "mysql" ∧ url_drivername (es_url s) = u "mysql+asyncmy" ∧ server_sound s)
   ∨ ((driver = u "postgresql" ∨ driver = u "pgsql") ∧ url_drivername (es_url s) = u "postgresql+asyncpg" ∧ server_sound s)).

Lemma text_nonempty s : (1 <= len s)%Z → s ≠ [].
Proof. by intros Hl ->. Qed.
Ltac in_table := cbn [md_fields strict app MySQLDatabaseSettings PostgreSQLDatabaseSettings SQLiteDatabaseSettings
  PooledDatabaseSettings BaseDatabaseSettings]; unfold required, default_to, text, int_ge, int_in, literal; rewrite !elem_of_cons; eauto 20.

Lemma slow_query_bound m raw cfg url options :
  settings_of m raw cfg → default_to "slow_query_ms" (int_ge 0) (VInt 500) ∈ md_fields m →
  (0 <= es_slow_query_ms (logged_spec url options cfg))%Z.
Proof.
  intros Hs Hf. destruct (setting_int _ _ _ _ _ _ Hs Hf) as (z & Hz & Hok). simpl. rewrite Hz. simpl. to_prop. lia.
Qed.
Lemma server_spec_sound m raw cfg drivername query d1 d2 d3 :
  settings_of m raw cfg →
  [mk_field (u "host") (text 1) d1; mk_field (u "port") (int_in 1 65535) d2; required "database" (text 1);
   required "username" (text 1); required "password" (text 1); mk_field (u "pool_size") (int_ge 1) d3] ⊆ md_fields m →
  server_sound (logged_spec (server_url drivername cfg query) (pool_options cfg) cfg).
Proof.
  intros Hs Hf. unfold server_sound.
  edestruct (setting_text m raw cfg "host") as (ho & Hho & Lh); [exact Hs | apply Hf; left |].
  edestruct (setting_int m raw cfg "port") as (port & Hp & Hpo); [exact Hs | apply Hf; do 1 right; left |].
  edestruct (setting_text m raw cfg "database") as (db & Hdb & Ld); [exact Hs | apply Hf; do 2 right; left |].
  edestruct (setting_text m raw cfg "username") as (un & Hun & Lu); [exact Hs | apply Hf; do 3 right; left |].
  edestruct (setting_text m raw cfg "password") as (pw & Hpw & Lp); [exact Hs | apply Hf; do 4 right; left |].
  edestruct (setting_int m raw cfg "pool_size") as (n & Hn & Hno); [exact Hs | apply Hf; do 5 right; left |].
  simpl. rewrite Hp, Hn, Hun, Hpw, Hho, Hdb. cbv beta in Hpo, Hno. to_prop.
  split; [exists port; split; [done | lia] |]. split; [exists n; split; [done | lia] |].
  repeat constructor; eexists; (split; [reflexivity | by apply text_nonempty]).
Qed.

Lemma prepared_sound cfg d : is_absolute storage_dir = true → validate_database_definition providers cfg = Ok d → definition_sound cfg d.
Proof.
  intros Hst. unfold validate_database_definition. destruct (database_prepare providers cfg) as [d' | []] eqn:Hp; try done. intros [= ->].
  unfold database_prepare in Hp. destruct (dict_get cfg (u "driver")) as [[| | | | | driver | | | |] |] eqn:Hd; try done. cbn [mbind option_bind is_str] in Hp.
  rewrite guard_bind_ok in Hp. destruct Hp as [_ Hp]. unfold definition_sound.
  exists driver. split; [done |]. revert Hp. unfold DEFAULT_DATABASE_PROVIDERS. cbn [dict_get].
  repeat case_decide; try done; cbn [dbp_prepare MySQLDatabaseProvider PostgreSQLDatabaseProvider SQLiteDatabaseProvider];
    unfold mysql_prepare, postgresql_prepare, sqlite_prepare; rewrite result_bind_ok; intros (settings & Hv & [= <-]);
    (apply validate_model_sound in Hv as [Hs _]; [| apply database_model_ok; rewrite !elem_of_cons; tauto]);
    cbn [rd_engine_spec rd_configure_engine]; (split; [eapply slow_query_bound; [exact Hs | in_table] |]).
  - right. left. split; [done |]. split; [done |]. eapply server_spec_sound; [exact Hs |].
    intros f. rewrite !elem_of_cons, elem_of_nil. intros [-> | [-> | [-> | [-> | [-> | [-> | []]]]]]]; in_table.
  - right. right. split; [by left |]. split; [done |]. eapply server_spec_sound; [exact Hs |].
    intros f. rewrite !elem_of_cons, elem_of_nil. intros [-> | [-> | [-> | [-> | [-> | [-> | []]]]]]]; in_table.
  - right. right. split; [by right |]. split; [done |]. eapply server_spec_sound; [exact Hs |].
    intros f. rewrite !elem_of_cons, elem_of_nil. intros [-> | [-> | [-> | [-> | [-> | [-> | []]]]]]]; in_table.
  - left. split; [done |]. split; [done |]. split; [done |]. eexists. split; [reflexivity |].
    destruct (decide (text_value (value settings "database") = u ":memory:")) as [Hm | Hm]; [left | right; by apply resolved_database_absolute].
    unfold resolved_database. by rewrite bool_decide_true.
Qed.
Lemma prepare_refusal cfg e : validate_database_definition providers cfg = Err e → e = DatabaseConfigurationError.
Proof.
  unfold validate_database_definition. destruct (database_prepare providers cfg) as [d' | e'] eqn:Hp; [done |].
  assert (He : e' = DatabaseConfigurationError ∨ e' = ValidationError).
  { unfold database_prepare in Hp. destruct (dict_get cfg (u "driver") ≫= is_str) as [driver |]; [| left; by injection Hp].
    unfold guard in Hp. destruct (negb _); [| left; by injection Hp]. cbn [result_bind] in Hp.
    unfold DEFAULT_DATABASE_PROVIDERS in Hp. cbn [dict_get] in Hp.
    repeat case_decide; [right | right | right | right | left; by injection Hp];
      cbn [dbp_prepare MySQLDatabaseProvider PostgreSQLDatabaseProvider SQLiteDatabaseProvider] in Hp;
      unfold mysql_prepare, postgresql_prepare, sqlite_prepare in Hp;
      (destruct (validate_model _ _) eqn:Hv; cbn [result_bind] in Hp; [done |]; injection Hp as <-; by eapply validate_model_err). }
  destruct He as [-> | ->]; by intros [= <-].
Qed.

Context `{Tracebacks} (log_ : db_log → io W unit).
Abbreviation factory := (database_factory (C := C) (E := E) storage_dir log_).
Abbreviation closer := (database_closer (C := C) (E := E) log_).

Lemma factory_prepared s name raw : is_absolute storage_dir = true → dict_get (ds_connections s) name = Some raw →
  let cfg := apply_database_connection_defaults raw (ds_connection_defaults s) in
  prog_eq (factory s name) (raise DatabaseConfigurationError)
  ∨ ∃ d, definition_sound cfg d ∧ prog_eq (factory s name) (create_database_resource log_ name d).
Proof.
  intros Hst Hraw cfg. unfold database_factory. rewrite Hraw. unfold database_create.
  change (apply_database_connection_defaults _ _) with cfg. destruct (validate_database_definition providers cfg) as [d | e] eqn:Hv.
  - right. exists d. split; [by apply prepared_sound | done].
  - left. apply prepare_refusal in Hv as ->. done.
Qed.

(** The manager's [get] as Database.v has it is the one of NamedResources. *)
Theorem database_get_named s name :
  prog_eq (database_get s (λ w, nm_closed w.1) (map (λ nr, (nr.1, resource_get (factory s) nr.1)) (ds_connections s)) name)
    (database_manager_get storage_dir log_ s name).
Proof.
  intros w. unfold database_manager_get, database_get, named_get, database_name. unfold bind, read, lift.
  destruct (nm_closed w.1); [done |]. cbn [raise ret]. destruct (database_resolve_name s name) as [n | e]; [| done]. cbn [result_bind].
  assert (Hg : dict_get (map (λ nr, (nr.1, resource_get (factory s) nr.1)) (ds_connections s)) n =
    if decide (n ∈ dict_keys (ds_connections s)) then Some (resource_get (factory s) n) else None).
  { induction (ds_connections s) as [| [m raw] cs IH]; [by rewrite decide_False by set_solver |]. cbn [map dict_get fst].
    destruct (decide (m = n)) as [-> | Hne]; [by rewrite decide_True by set_solver |]. rewrite IH.
    destruct (decide (n ∈ dict_keys cs)); [by rewrite decide_True by set_solver | by rewrite decide_False by set_solver]. }
  rewrite Hg. destruct (decide _); [by rewrite bool_decide_true | by rewrite bool_decide_false].
Qed.

(** Every SQLite connection of the pool enforces foreign keys, and its cursor is
    closed whether the statement succeeded or not. *)
Theorem foreign_keys_cursor_closed conn w w1 cursor w2 r w3 rc :
  dbapi_cursor conn w = (w1, Ok cursor) → dbapi_execute conn cursor (u "PRAGMA foreign_keys=ON") w1 = (w2, r) →
  dbapi_close conn cursor w2 = (w3, rc) →
  enable_foreign_keys conn w = (w3, match rc with Ok _ => r | Err e => Err e end).
Proof. intros Hc He Hx. unfold enable_foreign_keys, bind, finally. rewrite Hc, He, Hx. by destruct rc. Qed.

(** C32: the databases of an application.  A configured connection is the driver's
    defaults overridden by its own fields.  Getting it either raises
    [DatabaseConfigurationError] and does nothing, or creates the engine of a
    specification whose driver is the configured one and whose port, pool size,
    credentials and slow-query threshold are in bounds; an SQLite file has an
    absolute path or is the in-memory database.  Over any calls of [get] and
    [aclose], whatever creations and disposals fail, a connection has at most one
    engine, disposed of at most once; an [aclose] that returned has left none
    open; and no [get] returns one once [aclose] was called. *)
Theorem database_manager_correct s :
  is_absolute storage_dir = true →
  (∀ name raw, dict_get (ds_connections s) name = Some raw → List.NoDup (dict_keys raw) →
     let cfg := apply_database_connection_defaults raw (ds_connection_defaults s) in
     (∀ k, dict_get cfg k = match dict_get raw k with
                            | Some v => Some v
                            | None => match dict_get raw (u "driver") with
                                      | Some (VStr driver) => d ← dict_get (ds_connection_defaults s) driver; dict_get d k
                                      | _ => None
                                      end
                            end)
     ∧ (prog_eq (factory s name) (raise DatabaseConfigurationError)
        ∨ ∃ d, definition_sound cfg d ∧ prog_eq (factory s name) (create_database_resource log_ name d)))
  ∧ ∀ cs e w l,
      manager_runs (dict_keys (ds_connections s)) (factory s) closer (database_name s) cs
        (named_init (dict_keys (ds_connections s)), (e, [])) = (w, l) →
      (∀ n, n ∈ dict_keys (ds_connections s) → history n w.2.2 = [] ∨ (∃ a, history n w.2.2 = [Created n a])
         ∨ ∃ a, history n w.2.2 = [Created n a; Closed a])
      ∧ (closing_done l → ∀ n a, n ∈ dict_keys (ds_connections s) → Created n a ∈ history n w.2.2 →
           history n w.2.2 = [Created n a; Closed a])
      ∧ (∀ l1 l2 ok, l = l1 ++ (CallClose, ok) :: l2 → ∀ c, (c, true) ∈ l2 → c = CallClose).
Proof.
  intros Hst. split.
  - intros name raw Hraw Hnd cfg. split; [| by apply factory_prepared]. intros k. unfold cfg, apply_database_connection_defaults.
    rewrite dict_get_merge by done. destruct (dict_get raw k); [done |].
    destruct (dict_get raw (u "driver")) as [[] |]; try done. by destruct (dict_get (ds_connection_defaults s) s0).
  - intros cs e w l. apply manager_history. intros name n. unfold database_name. rewrite result_bind_ok.
    intros (m & _ & Hm). case_bool_decide; [by injection Hm as <- | done].
Qed.
End Proofs.

(** ** A concrete manager: two SQLite connections on counted engines *)
#[local] Existing Instance plain_pydantic.
Definition demo_dbapi : Dbapi nat unit :=
  {| dbapi_cursor := λ _, ret 1%Z; dbapi_execute := λ _ _ _, ret tt; dbapi_close := λ _ _, ret tt |}.
(** The world counts the engines created. *)
Definition demo_sqlalchemy : SqlAlchemy nat unit nat := {|
  create_async_engine := λ _ _ _ w, (S w, Ok w);
  listen_connect := λ _ _, ret tt; listen_queries := λ _ _ _, ret tt;
  engine_dispose := λ _, ret tt; engine_drivername := λ _, u "sqlite+aiosqlite";
|}.
#[local] Existing Instances demo_dbapi demo_sqlalchemy.
Definition demo_tracebacks : Tracebacks :=
  {| exc_module := λ _, u "builtins"; exc_qualname := λ _, u "Exception"; exc_traceback := λ _, [] |}.
#[local] Existing Instance demo_tracebacks.
Definition demo_databases : DatabaseSettings :=
  mk_db_settings (Some (u "main")) [(u "sqlite", [(u "echo", VBool true)])]
    [(u "main", [(u "driver", str "sqlite"); (u "database", str "main.db")]); (u "bad", [(u "driver", str "oracle")])].
Definition demo_storage : pystr := u "/srv/app/storage".
Definition demo_no_log (l : db_log) : io nat unit := ret tt.
Definition demo_database_run : (named (DatabaseResource nat) * (nat * list (pystr * life_event (DatabaseResource nat)))) * list (manager_call * bool) :=
  manager_runs (dict_keys (ds_connections demo_databases)) (database_factory (C := unit) demo_storage demo_no_log demo_databases)
    (database_closer (C := unit) demo_no_log) (database_name demo_databases)
    [CallGet None; CallGet (Some (u "main")); CallGet (Some (u "bad")); CallClose; CallGet None]
    (named_init (dict_keys (ds_connections demo_databases)), (7, [])).

Lemma database_manager_correct_witness :
  ∃ w l r, demo_database_run = (w, l) ∧ map snd l = [true; true; false; true; false]
    ∧ history (u "main") w.2.2 = [Created (u "main") r; Closed r] ∧ history (u "bad") w.2.2 = []
    ∧ resolved_database demo_storage (u "./main.db") = u "/srv/app/storage/main.db".
Proof.
  destruct demo_database_run as [w l] eqn:Hr.
  assert (Hm : map snd demo_database_run.2 = [true; true; false; true; false]
    ∧ existsb (λ e, match e with (CallClose, true) => true | _ => false end) demo_database_run.2 = true
    ∧ history (u "main") demo_database_run.1.2.2 =
        [Created (u "main") (mk_db_resource (u "main") 7 (mk_sessionmaker 7 false));
         Closed (mk_db_resource (u "main") 7 (mk_sessionmaker 7 false))]
    ∧ history (u "bad") demo_database_run.1.2.2 = []) by (vm_compute; repeat split; reflexivity).
  rewrite Hr in Hm. destruct Hm as (Hs & Hdone & Hmain & Hbad).
  destruct (database_manager_correct (W := nat) (C := unit) (E := nat) (H2 := plain_pydantic_laws) demo_storage demo_no_log demo_databases eq_refl)
    as [_ Hh]. destruct (Hh _ 7 w l Hr) as (_ & Hclosed & _).
  exists w, l, (mk_db_resource (u "main") 7 (mk_sessionmaker 7 false)). split; [done |]. split; [exact Hs |]. split.
  - apply Hclosed; [| left | cbn [fst snd] in Hmain; rewrite Hmain; left].
    apply existsb_exists in Hdone as ([[? | ] [|]] & Hin & ?); try discriminate. by apply list_elem_of_In.
  - split; [exact Hbad |]. vm_compute. reflexivity.
Defined.
