(* ===== verification/VectorBackends.v ===== *)
(** * VectorBackends: opening and closing the clients of the vector stores

    Models the creation of resources in [vector/drivers/milvus.py], [chroma.py]
    and [elasticsearch.py], the delayed import of PyMilvus, the authentication of
    a client, and how each backend closes.  The constructors of the SDKs, the
    file system and [os.environ] are the class [VectorDrivers]; the threads the
    local clients are created in are those of Threads. *)

From S2P Require Import Prelude Text PyVal Errors QueueMessage Urls Lazy NamedResources Settings VectorManager HttpRequest DatabaseLogging DatabaseEngine.
Local Open Scope prog_scope.

(** ** What the constructors are called with *)
Record MilvusRemoteOptions := mk_milvus_options {
  mo_uri : pystr; mo_user : pystr; mo_password : pystr; mo_db_name : pyval; mo_timeout : pyval }.
Record ChromaRemoteOptions := mk_chroma_options {
  ho_host : pyval; ho_port : pyval; ho_ssl : pyval; ho_headers : option (pydict pystr); ho_tenant : pyval; ho_database : pyval }.
Record ElasticsearchOptions := mk_elastic_options {
  eo_scheme : pystr; eo_host : pyval; eo_port : pyval; eo_basic_auth : option (pystr * pystr); eo_verify_certs : pyval;
  eo_ca_certs : option pystr; eo_request_timeout : pyval; eo_connections_per_node : pyval; eo_max_retries : pyval; eo_retry_on_timeout : pyval }.
Inductive client_request :=
| OpenMilvusLite (path : pystr)
| OpenMilvus (options : MilvusRemoteOptions)
| OpenChromaLocal (path : pystr) (tenant database : pyval)
| OpenChroma (timeout : pyval) (options : ChromaRemoteOptions)   (* under fail_after(timeout) *)
| OpenElasticsearch (options : ElasticsearchOptions).

(** [_MilvusSdk]: the exception classes; its constructors are [vd_open]. *)
Record MilvusModule := mk_milvus_module { mm_connection_errors : exn → bool; mm_operation_errors : exn → bool }.
Class VectorDrivers (W : Type) := {
  vd_environ : W → pydict pystr; vd_set_environ : pydict pystr → W → W;
  vd_sdk : W → option MilvusModule; vd_set_sdk : MilvusModule → W → W;   (* the cache of _load_milvus_sdk *)
  vd_import : vector_kind → io W unit;                                   (* the driver's own module *)
  vd_import_milvus : io W MilvusModule;                                  (* pymilvus and pymilvus.exceptions *)
  vd_mkdir : pystr → io W unit;
  vd_url : pystr → pyval → pyval → result exn pystr;                     (* str(httpx.URL(scheme, host, port)) *)
  vd_open : client_request → io W nat;
  vd_close : nat → io W unit;
  vd_has_close : nat → bool;                                             (* callable(getattr(client, "close", None)) *)
  vd_is_os_error : exn → bool; vd_is_invalid_url : exn → bool;
}.

(** [VectorResource]: a client, as the backend that owns it. *)
Record VectorResource := mk_vector_resource { vr_kind : vector_kind; vr_client : nat; vr_timeout : pyval }.

Section Create.
Context {W : Type} `{VectorDrivers W} (storage_dir : pystr).

Definition text_of (v : pyval) : pystr := match v with VStr s => s | _ => [] end.
Definition optional_text_of (v : pyval) : option pystr := match v with VStr s => Some s | _ => None end.
Definition scheme_of (cfg : pydict pyval) : pystr := match value cfg "ssl" with VBool true => u "https" | _ => u "http" end.
(** [LocalVectorConnectionSettings.resolved_path] and its [parent]. *)
Definition path_under (parts : list pystr) (s : pystr) : pystr :=
  if is_absolute s then path_text (path_root s) parts else path_text (path_root storage_dir) (path_parts storage_dir ++ parts).
Definition resolved_path (cfg : pydict pyval) : pystr :=
  let s := text_of (value cfg "path") in path_under (path_parts s) s.
Definition resolved_parent (cfg : pydict pyval) : pystr :=
  let s := text_of (value cfg "path") in
  if is_absolute s then path_text (path_root s) (removelast (path_parts s))
  else path_text (path_root storage_dir) (removelast (path_parts storage_dir ++ path_parts s)).

(** *** [_load_milvus_sdk] *)
Definition DOTENV : pystr := u "PYTHON_DOTENV_DISABLED".
Definition environ_pop (key : pystr) (d : pydict pystr) : pydict pystr := List.filter (λ kv, negb (bool_decide (kv.1 = key))) d.
Definition restore_dotenv (previous : option pystr) : W → W := λ w,
  vd_set_environ (match previous with
                  | None => environ_pop DOTENV (vd_environ w)
                  | Some v => dict_set (vd_environ w) DOTENV v
                  end) w.
Definition load_milvus_sdk : io W MilvusModule :=
  let* cached := read vd_sdk in
  match cached with
  | Some sdk => ret sdk
  | None =>
      let* previous := read (λ w, dict_get (vd_environ w) DOTENV) in
      modify (λ w, vd_set_environ (dict_set (vd_environ w) DOTENV (u "1")) w);;;
      let* sdk := finally vd_import_milvus (modify (restore_dotenv previous)) in
      modify (vd_set_sdk sdk);;;
      ret sdk
  end.

(** *** milvus.py *)
Definition except_operation {A} (sdk : MilvusModule) (m : io W A) : io W A :=
  catch m (λ e, raise (if is_exception e && mm_operation_errors sdk e then VectorConnectionError else e)).
Definition milvus_create_local (cfg : pydict pyval) : io W VectorResource :=
  catch (vd_mkdir (resolved_parent cfg)) (λ e, raise (if vd_is_os_error e then VectorConnectionError else e));;;
  let* sdk := load_milvus_sdk in
  let* client := except_operation sdk (vd_open (OpenMilvusLite (resolved_path cfg))) in
  ret (mk_vector_resource MilvusLocal client (value cfg "timeout")).
Definition milvus_uri (cfg : pydict pyval) : result exn pystr :=
  match vd_url (scheme_of cfg) (value cfg "host") (value cfg "port") with
  | Err e => Err (if vd_is_invalid_url e then VectorConfigurationError else e)
  | Ok uri => Ok uri
  end.
Definition milvus_create_remote (cfg : pydict pyval) : io W VectorResource :=
  let* uri := lift (milvus_uri cfg) in
  let* sdk := load_milvus_sdk in
  let* client := except_operation sdk (vd_open (OpenMilvus (mk_milvus_options uri (text_of (value cfg "username"))
    (text_of (value cfg "password")) (value cfg "database") (value cfg "timeout")))) in
  ret (mk_vector_resource MilvusRemote client (value cfg "timeout")).

(** *** chroma.py *)
Definition except_any {A} (m : io W A) : io W A := catch m (λ e, raise (if is_exception e then VectorConnectionError else e)).
Definition chroma_create_local (cfg : pydict pyval) : io W VectorResource :=
  let* client := except_any (vd_open (OpenChromaLocal (resolved_path cfg) (value cfg "tenant") (value cfg "database"))) in
  ret (mk_vector_resource ChromaLocal client VNone).
Definition chroma_headers (cfg : pydict pyval) : result exn (pydict pystr) :=
  match value cfg "api_key", value cfg "username", value cfg "password" with
  | VStr key, _, _ => Ok [(u "x-chroma-token", key)]
  | _, VStr username, VStr password =>
      let? credentials := utf8_encode (username ++ u ":" ++ password) in
      Ok [(u "Authorization", u "Basic " ++ b64_encode credentials)]
  | _, _, _ => Ok []
  end.
Definition chroma_create_remote (cfg : pydict pyval) : io W VectorResource :=
  let* headers := lift (chroma_headers cfg) in
  let* client := except_any (vd_open (OpenChroma (value cfg "timeout") (mk_chroma_options (value cfg "host") (value cfg "port")
    (value cfg "ssl") (match headers with [] => None | _ => Some headers end) (value cfg "tenant") (value cfg "database")))) in
  ret (mk_vector_resource ChromaRemote client (value cfg "timeout")).

(** *** elasticsearch.py *)
Definition create_elasticsearch_resource (cfg : pydict pyval) : io W VectorResource :=
  let basic_auth := match value cfg "username", value cfg "password" with VStr n, VStr p => Some (n, p) | _, _ => None end in
  let* client := vd_open (OpenElasticsearch (mk_elastic_options (scheme_of cfg) (value cfg "host") (value cfg "port") basic_auth
    (value cfg "verify_certs") (optional_text_of (value cfg "ca_certs")) (value cfg "timeout") (value cfg "connections_per_node")
    (value cfg "max_retries") (value cfg "retry_on_timeout"))) in
  ret (mk_vector_resource Elasticsearch client VNone).

(** The [match] of [_create_builtin_resource]: the driver's module is imported first. *)
Definition create_vector_resource (k : vector_kind) (cfg : pydict pyval) : io W VectorResource :=
  vd_import k;;;
  match k with
  | MilvusLocal => milvus_create_local cfg
  | MilvusRemote => milvus_create_remote cfg
  | ChromaLocal => chroma_create_local cfg
  | ChromaRemote => chroma_create_remote cfg
  | Elasticsearch => create_elasticsearch_resource cfg
  end.

(** [aclose] of the backends *)
Definition vector_resource_aclose (r : VectorResource) : io W unit :=
  match vr_kind r with
  | MilvusLocal | MilvusRemote | Elasticsearch => vd_close (vr_client r)
  | ChromaRemote => ret tt
  | ChromaLocal =>
      if vd_has_close (vr_client r)
      then catch (vd_close (vr_client r)) (λ e, raise (if is_exception e then VectorOperationError else e))
      else ret tt
  end.

(** ** What is relied on *)
(** [opened]: the clients opened so far.  A constructor that fails opens none;
    importing PyMilvus leaves the environment alone when [DOTENV] is ["1"]. *)
Class VectorDriversLaws (opened : W → list client_request) : Prop := {
  vd_environ_set d w : vd_environ (vd_set_environ d w) = d;
  vd_sdk_environ d w : vd_sdk (vd_set_environ d w) = vd_sdk w;
  vd_opened_environ d w : opened (vd_set_environ d w) = opened w;
  vd_environ_sdk m w : vd_environ (vd_set_sdk m w) = vd_environ w;
  vd_opened_sdk m w : opened (vd_set_sdk m w) = opened w;
  vd_import_env k w : vd_environ (vd_import k w).1 = vd_environ w ∧ opened (vd_import k w).1 = opened w;
  vd_mkdir_env p w : vd_environ (vd_mkdir p w).1 = vd_environ w ∧ opened (vd_mkdir p w).1 = opened w;
  vd_import_milvus_env w : dict_get (vd_environ w) DOTENV = Some (u "1") →
    vd_environ (vd_import_milvus w).1 = vd_environ w ∧ opened (vd_import_milvus w).1 = opened w;
  vd_open_env q w : vd_environ (vd_open q w).1 = vd_environ w
    ∧ opened (vd_open q w).1 = opened w ++ (if is_ok (vd_open q w).2 then [q] else []);
}.
End Create.

(** ** Proofs *)

(** What a constructor is given for the authentication of a connection. *)
Definition credentials (cfg : pydict pyval) : option (pystr * pystr) :=
  match value cfg "username", value cfg "password" with VStr n, VStr p => Some (n, p) | _, _ => None end.
Definition chroma_authenticates (cfg : pydict pyval) (headers : option (pydict pystr)) : Prop :=
  match value cfg "api_key", credentials cfg with
  | VStr key, None => headers = Some [(u "x-chroma-token", key)]
  | VNone, Some (n, p) => ∃ t bytes, headers = Some [(u "Authorization", u "Basic " ++ t)]
      ∧ b64_decode t = Some bytes ∧ utf8_decode bytes = Ok (n ++ u ":" ++ p)
  | VNone, None => headers = None
  | _, _ => False
  end.
Definition url_scheme (cfg : pydict pyval) (scheme : pystr) : Prop :=
  (value cfg "ssl" = VBool true ∧ scheme = u "https") ∨ (value cfg "ssl" ≠ VBool true ∧ scheme = u "http").
Definition request_for {W} `{VectorDrivers W} (storage_dir : pystr) (k : vector_kind) (cfg : pydict pyval) (q : client_request) : Prop :=
  match k, q with
  | MilvusLocal, OpenMilvusLite p => p = resolved_path storage_dir cfg
  | MilvusRemote, OpenMilvus o =>
      (∃ scheme, url_scheme cfg scheme ∧ vd_url scheme (value cfg "host") (value cfg "port") = Ok (mo_uri o))
      ∧ (mo_user o, mo_password o) = default ([], []) (credentials cfg)
      ∧ mo_db_name o = value cfg "database" ∧ mo_timeout o = value cfg "timeout"
  | ChromaLocal, OpenChromaLocal p t d => p = resolved_path storage_dir cfg ∧ t = value cfg "tenant" ∧ d = value cfg "database"
  | ChromaRemote, OpenChroma t o =>
      ho_host o = value cfg "host" ∧ ho_port o = value cfg "port" ∧ ho_ssl o = value cfg "ssl"
      ∧ chroma_authenticates cfg (ho_headers o)
      ∧ ho_tenant o = value cfg "tenant" ∧ ho_database o = value cfg "database" ∧ t = value cfg "timeout"
  | Elasticsearch, OpenElasticsearch o =>
      url_scheme cfg (eo_scheme o) ∧ eo_host o = value cfg "host" ∧ eo_port o = value cfg "port"
      ∧ eo_basic_auth o = credentials cfg ∧ eo_verify_certs o = value cfg "verify_certs"
      ∧ match eo_ca_certs o with Some s => value cfg "ca_certs" = VStr s | None => value cfg "ca_certs" = VNone end
      ∧ eo_request_timeout o = value cfg "timeout" ∧ eo_connections_per_node o = value cfg "connections_per_node"
      ∧ eo_max_retries o = value cfg "max_retries" ∧ eo_retry_on_timeout o = value cfg "retry_on_timeout"
  | _, _ => False
  end.

(** The errors of a creation and where they come from: the import of a package,
    the directory or the address of the store, credentials that are no UTF-8 text,
    or the constructor of the client, whose errors each driver converts. *)
Definition may_raise {W A} (m : io W A) (e : exn) : Prop := ∃ w, (m w).2 = Err e.
Definition is_milvus (k : vector_kind) : Prop := k = MilvusLocal ∨ k = MilvusRemote.
Definition opening_error (k : vector_kind) (e0 e : exn) : Prop :=
  match k with
  | MilvusLocal | MilvusRemote => ∃ sdk, e = if is_exception e0 && mm_operation_errors sdk e0 then VectorConnectionError else e0
  | ChromaLocal | ChromaRemote => e = if is_exception e0 then VectorConnectionError else e0
  | Elasticsearch => e = e0
  end.
Inductive creation_error {W} `{VectorDrivers W} (storage_dir : pystr) (k : vector_kind) (cfg : pydict pyval) : exn → Prop :=
| no_driver e : may_raise (vd_import k) e → creation_error storage_dir k cfg e
| no_sdk e : is_milvus k → may_raise vd_import_milvus e → creation_error storage_dir k cfg e
| no_directory e0 : k = MilvusLocal → may_raise (vd_mkdir (resolved_parent storage_dir cfg)) e0 →
    creation_error storage_dir k cfg (if vd_is_os_error e0 then VectorConnectionError else e0)
| no_address scheme e0 : k = MilvusRemote → url_scheme cfg scheme → vd_url scheme (value cfg "host") (value cfg "port") = Err e0 →
    creation_error storage_dir k cfg (if vd_is_invalid_url e0 then VectorConfigurationError else e0)
| no_credentials n p e : k = ChromaRemote → credentials cfg = Some (n, p) → utf8_encode (n ++ u ":" ++ p) = Err e →
    creation_error storage_dir k cfg e
| no_client q e0 e : request_for storage_dir k cfg q → may_raise (vd_open q) e0 → opening_error k e0 e →
    creation_error storage_dir k cfg e.

(** The optional texts of a validated connection. *)
Lemma vector_settings_of `{PydanticLaws} raw k cfg :
  parse_vector_connection raw = Ok (k, cfg) → settings_of (vector_model k) raw cfg.
Proof.
  unfold parse_vector_connection. destruct (vector_kind_of raw) as [k' |]; [| done].
  destruct (validate_model (vector_model k') raw) as [c |] eqn:Hv; cbn [result_bind]; [| done]. intros [= <- <-].
  eapply validate_model_sound; [| exact Hv].
  pose proof models_ok as Hall. rewrite list.Forall_forall in Hall. apply Hall. unfold connection_models.
  destruct k'; cbn [app]; rewrite !elem_of_cons; tauto.
Qed.
Lemma optional_value `{PydanticLaws} raw k cfg name :
  parse_vector_connection raw = Ok (k, cfg) → optional_text name ∈ md_fields (vector_model k) →
  value cfg name = VNone ∨ ∃ s, value cfg name = VStr s.
Proof.
  intros Hp Hf. apply vector_settings_of in Hp. destruct (settings_field _ _ _ _ Hp Hf) as (v & Hv & Ho). cbn [fd_name fd_type optional_text default_to] in Hv, Ho.
  unfold value. rewrite Hv. cbn. destruct v; try done; eauto.
Qed.
Lemma auth_fields k name : remote k = true → name ∈ ["username"; "password"]%string → optional_text name ∈ md_fields (vector_model k).
Proof.
  intros Hr Hn. apply elem_of_cons in Hn as [-> | Hn]; [| apply list_elem_of_singleton in Hn as ->];
    destruct k; try discriminate Hr; cbn; rewrite !elem_of_cons; tauto.
Qed.
(** User name and password are both texts or both missing. *)
Lemma auth_values `{PydanticLaws} raw k cfg :
  parse_vector_connection raw = Ok (k, cfg) → remote k = true →
  (value cfg "username" = VNone ∧ value cfg "password" = VNone)
  ∨ ∃ n p, value cfg "username" = VStr n ∧ value cfg "password" = VStr p.
Proof.
  intros Hp Hr. pose proof (vector_connection_consistent raw) as Hc. rewrite Hp in Hc. destruct Hc as (_ & _ & Hboth & _).
  destruct (Hboth Hr) as [Hb _]. unfold both_or_none in Hb.
  destruct (optional_value raw k cfg "username" Hp) as [Hu | [n Hu]]; [apply auth_fields; [done | left] | |].
  - left. split; [done | by apply Hb].
  - right. destruct (optional_value raw k cfg "password" Hp) as [Hw | [p Hw]]; [apply auth_fields; [done | right; left] | |].
    + apply Hb in Hw. congruence.
    + eauto.
Qed.
Lemma b64_decode_encode bytes : Forall (λ b, b < 256)%N bytes → b64_decode (b64_encode bytes) = Some bytes.
Proof. by apply (b64_roundtrip_upto (length bytes)). Qed.
Lemma chroma_headers_authenticate `{PydanticLaws} raw cfg headers :
  parse_vector_connection raw = Ok (ChromaRemote, cfg) → chroma_headers cfg = Ok headers →
  chroma_authenticates cfg (match headers with [] => None | _ => Some headers end).
Proof.
  intros Hp. pose proof (vector_connection_consistent raw) as Hc. rewrite Hp in Hc. destruct Hc as (_ & _ & _ & Hone).
  assert (Hkey : value cfg "api_key" = VNone ∨ ∃ s, value cfg "api_key" = VStr s).
  { apply (optional_value raw ChromaRemote); [done |]. cbn. rewrite !elem_of_cons. tauto. }
  unfold chroma_headers, chroma_authenticates, credentials.
  destruct (auth_values raw ChromaRemote cfg Hp eq_refl) as [[Hn Hw] | (n & p & Hn & Hw)].
  - rewrite Hn. destruct Hkey as [-> | [s ->]]; by intros [= <-].
  - destruct (Hone eq_refl) as [Ha | Hn']; [| congruence]. rewrite Ha, Hn, Hw. intros (bytes & Hb & Hh)%result_bind_ok. injection Hh as <-.
    exists (b64_encode bytes), bytes. split; [done |]. split; [apply b64_decode_encode; by eapply utf8_encode_bytes | by apply utf8_decode_encode].
Qed.

(** The environment during and after the import of PyMilvus. *)
Lemma dict_set_same (d : pydict pystr) k v w : dict_get d k = Some v → NoDup (dict_keys d) → dict_set (dict_set d k w) k v = d.
Proof.
  intros Hg Hd. assert (Hin : k ∈ dict_keys d) by (by eapply dict_get_in).
  assert (He : dict_set d k w = map (λ kv, if decide (kv.1 = k) then (k, w) else kv) d) by (unfold dict_set; by rewrite bool_decide_true).
  assert (Hin2 : k ∈ dict_keys (dict_set d k w)) by (eapply (dict_get_in _ _ w); rewrite dict_get_set; by rewrite decide_True).
  unfold dict_set at 1. rewrite bool_decide_true by done. rewrite He, map_map. clear He Hin2 Hin.
  induction d as [| [k' v'] d IH]; [done |]. cbn [map dict_keys dict_get fst] in *. apply list.NoDup_cons in Hd as [Hk Hd].
  case_decide as Hkk; subst; cbn [fst].
  - rewrite decide_True by done. injection Hg as <-. f_equal. rewrite <- (map_id d) at 2. apply map_ext_in.
    intros [a b] Ha. cbn [fst]. assert (a ≠ k) by (intros ->; apply Hk, list_elem_of_In, in_map_iff; by exists (k, b)).
    rewrite (decide_False (P := a = k)) by done. cbn [fst]. by rewrite decide_False.
  - rewrite decide_False by done. f_equal. by apply IH.
Qed.
Lemma environ_pop_set (d : pydict pystr) k v : dict_get d k = None → environ_pop k (dict_set d k v) = d.
Proof.
  intros Hg. assert (Hk : k ∉ dict_keys d).
  { clear v. induction d as [| [k' v'] d IH]; cbn [dict_keys map fst dict_get] in *; [by intros ?%elem_of_nil |]. case_decide; [done |].
    rewrite elem_of_cons. intros [-> | Hin]; [done | by apply IH]. }
  unfold dict_set. rewrite bool_decide_false by done. unfold environ_pop. rewrite List.filter_app. cbn [List.filter fst].
  rewrite bool_decide_true by done. cbn [negb]. rewrite app_nil_r. clear Hg. induction d as [| [k' v'] d IH]; [done |].
  cbn [dict_keys map fst List.filter] in *. rewrite bool_decide_false by (intros ->; apply Hk; left). cbn [negb]. f_equal. apply IH.
  intros Hin. apply Hk. by right.
Qed.

Section Opening.
Context {W : Type} `{VectorDrivers W} (storage_dir : pystr) (opened : W → list client_request) `{!VectorDriversLaws opened}.

(** A program that leaves the environment and the clients alone, and one that
    opens a client as the configuration says, or none. *)
Definition keeps {A} (m : io W A) : Prop := ∀ w, NoDup (dict_keys (vd_environ w)) → vd_environ (m w).1 = vd_environ w ∧ opened (m w).1 = opened w.
Definition opens (k : vector_kind) (cfg : pydict pyval) (m : io W VectorResource) : Prop := ∀ w, NoDup (dict_keys (vd_environ w)) →
  vd_environ (m w).1 = vd_environ w
  ∧ match (m w).2 with
    | Ok c => vr_kind c = k ∧ ∃ q, request_for storage_dir k cfg q ∧ opened (m w).1 = opened w ++ [q]
    | Err e => opened (m w).1 = opened w ∧ creation_error storage_dir k cfg e
    end.
Lemma keeps_raising {A} (m : io W A) f : keeps m → keeps (catch m (λ e, raise (f e))).
Proof. intros Hm w. specialize (Hm w). unfold catch, raise. by destruct (m w) as [w' [a | e]]. Qed.
Lemma opens_after {A} k cfg (m : io W A) f : keeps m → (∀ e, may_raise m e → creation_error storage_dir k cfg e) →
  (∀ a w, (m w).2 = Ok a → opens k cfg (f a)) → opens k cfg (bind m f).
Proof.
  intros Hm Hr Hf w Hd. destruct (Hm w Hd) as [Hm1 Hm2]. unfold bind.
  destruct (m w) as [w1 [a | e]] eqn:E; cbn in *; [| split_and!; try done; apply Hr; exists w; by rewrite E].
  destruct (Hf a w ltac:(by rewrite E) w1) as [He Ho]; [by rewrite Hm1 |]. destruct (f a w1) as [w2 r]; cbn in *. rewrite He, Hm1.
  split; [done |]. rewrite <- Hm2. exact Ho.
Qed.
Lemma opens_open k cfg q f t : request_for storage_dir k cfg q → (∀ e, opening_error k e (f e)) →
  opens k cfg (bind (catch (vd_open q) (λ e, raise (f e))) (λ c, ret (mk_vector_resource k c t))).
Proof.
  intros Hq Hf w _. pose proof (vd_open_env q w) as [He Ho]. unfold bind, catch, raise, ret.
  destruct (vd_open q w) as [w' [c | e]] eqn:E; cbn in *; (split; [done |]); [split; [done | by exists q] |].
  split; [by rewrite app_nil_r in Ho |]. eapply no_client; [done | exists w; by rewrite E | apply Hf].
Qed.
Lemma catch_raises {A} (m : io W A) f e : may_raise (catch m (λ e, raise (f e))) e → ∃ e0, may_raise m e0 ∧ e = f e0.
Proof.
  intros [w Hw]. unfold catch, raise in Hw. destruct (m w) as [w' [a | e0]] eqn:E; [done |]. injection Hw as <-.
  exists e0. split; [exists w; by rewrite E | done].
Qed.
Lemma load_sdk_raises e : may_raise load_milvus_sdk e → may_raise vd_import_milvus e.
Proof.
  intros [w Hw]. unfold load_milvus_sdk in Hw. revert Hw. unprog. destruct (vd_sdk w); [done |]. unfold finally.
  set (w1 := vd_set_environ _ w). destruct (vd_import_milvus w1) as [w2 [sdk | e']] eqn:E; cbn; [done |]. intros [= <-].
  exists w1. by rewrite E.
Qed.
Lemma load_sdk_keeps : keeps load_milvus_sdk.
Proof.
  intros w Hd. remember (load_milvus_sdk w) as x eqn:Hx. unfold load_milvus_sdk, read, bind in Hx.
  destruct (vd_sdk w) as [sdk |]; [by subst x |]. unfold modify at 1, finally in Hx.
  set (w1 := vd_set_environ _ w) in Hx.
  assert (He1 : vd_environ w1 = dict_set (vd_environ w) DOTENV (u "1")) by apply vd_environ_set.
  destruct (vd_import_milvus_env w1) as [He2 Ho2]; [rewrite He1, dict_get_set; by rewrite decide_True |].
  assert (Ho1 : opened w1 = opened w) by apply vd_opened_environ.
  destruct (vd_import_milvus w1) as [w2 r]. cbn [fst] in He2, Ho2.
  assert (Hr : vd_environ (restore_dotenv (dict_get (vd_environ w) DOTENV) w2) = vd_environ w ∧ opened (restore_dotenv (dict_get (vd_environ w) DOTENV) w2) = opened w).
  { unfold restore_dotenv. rewrite vd_environ_set, vd_opened_environ, Ho2, Ho1, He2, He1. split; [| done].
    destruct (dict_get (vd_environ w) DOTENV) as [v |] eqn:Hg; [by apply dict_set_same | by apply environ_pop_set]. }
  unfold modify in Hx. destruct r as [sdk | e]; subst x; [| exact Hr]. unfold ret. cbn [fst]. rewrite (vd_environ_sdk (opened := opened)), (vd_opened_sdk (opened := opened)). exact Hr.
Qed.
Lemma import_keeps k : keeps (vd_import k).
Proof. intros w _. apply vd_import_env. Qed.
Lemma lift_keeps {A} (r : result exn A) : keeps (lift r).
Proof. by intros w _. Qed.

Lemma scheme_of_url cfg : url_scheme cfg (scheme_of cfg).
Proof.
  unfold url_scheme, scheme_of. repeat case_match; simplify_eq; first [by left | by right].
Qed.

(** Every driver opens the client of its configuration, or none. *)
Lemma create_opens `{PydanticLaws} raw k cfg :
  parse_vector_connection raw = Ok (k, cfg) → opens k cfg (create_vector_resource storage_dir k cfg).
Proof.
  intros Hp. unfold create_vector_resource. apply opens_after; [apply import_keeps | apply no_driver |]. intros _ _ _. destruct k.
  - unfold milvus_create_local, except_operation.
    apply opens_after; [apply keeps_raising; intros w _; apply vd_mkdir_env | |].
    { intros e (e0 & He & ->)%catch_raises. by apply no_directory. }
    intros _ _ _. apply opens_after; [apply load_sdk_keeps | intros e He; apply no_sdk; [by left | by apply load_sdk_raises] |].
    intros sdk _ _. apply opens_open; [done | by exists sdk].
  - unfold milvus_create_remote, except_operation. apply opens_after; [apply lift_keeps | |].
    { intros e [w He]. cbn in He. unfold milvus_uri in He. destruct (vd_url _ _ _) as [uri | e0] eqn:Hu; [done |]. injection He as <-.
      eapply no_address; [done | apply scheme_of_url | done]. }
    intros uri w Huri. apply opens_after; [apply load_sdk_keeps | intros e He; apply no_sdk; [by right | by apply load_sdk_raises] |].
    intros sdk _ _. apply opens_open; [| by exists sdk]. split_and!; [| | done..].
    + exists (scheme_of cfg). split; [apply scheme_of_url |]. cbn in Huri |- *. unfold milvus_uri in Huri. by destruct (vd_url _ _ _).
    + unfold credentials. cbn. by destruct (auth_values raw MilvusRemote cfg Hp eq_refl) as [[-> ->] | (n & p & -> & ->)].
  - by apply opens_open.
  - unfold chroma_create_remote. apply opens_after; [apply lift_keeps | |].
    { intros e [w He]. cbn in He. unfold chroma_headers in He.
      destruct (auth_values raw ChromaRemote cfg Hp eq_refl) as [[Hn Hw] | (n & p & Hn & Hw)]; rewrite Hn, ?Hw in He.
      - destruct (value cfg "api_key"); done.
      - assert (Hc : credentials cfg = Some (n, p)) by (unfold credentials; by rewrite Hn, Hw).
        destruct (value cfg "api_key"); try done; destruct (utf8_encode _) as [? | e0] eqn:Hu; try done; injection He as <-; by eapply no_credentials. }
    intros headers w Hh. apply opens_open; [| done]. split_and!; try done. by apply (chroma_headers_authenticate raw).
  - unfold create_elasticsearch_resource. intros w Hd.
    match goal with |- context [vd_open ?q] => pose proof (opens_open Elasticsearch cfg q (λ e, e) VNone) as Ho end.
    assert (Hcatch : ∀ A (m : io W A), catch m raise w = m w) by (intros A m; unfold catch, raise; by destruct (m w) as [w' []]).
    specialize (Ho ltac:(split_and!; first [apply scheme_of_url | done | cbn;
      destruct (optional_value raw Elasticsearch cfg "ca_certs" Hp) as [-> | [s ->]]; [cbn; rewrite !elem_of_cons; tauto | done..]])
      ltac:(done) w Hd).
    unfold bind in *. by rewrite Hcatch in Ho.
Qed.
End Opening.


(** ** A concrete process *)
Record DemoDrivers := mk_demo_drivers { dd_environ : pydict pystr; dd_sdk : option MilvusModule; dd_opened : list client_request }.
Definition demo_open (q : client_request) : io DemoDrivers nat := λ w,
  (mk_demo_drivers (dd_environ w) (dd_sdk w) (dd_opened w ++ [q]), Ok (length (dd_opened w))).
(** An import that writes into the environment unless it is told not to. *)
Definition demo_import_milvus : io DemoDrivers MilvusModule := λ w,
  let env := match dict_get (dd_environ w) DOTENV with Some _ => dd_environ w | None => dict_set (dd_environ w) (u "MILVUS_URI") (u "x") end in
  (mk_demo_drivers env (dd_sdk w) (dd_opened w), Ok (mk_milvus_module (λ _, false) (λ _, false))).
#[local] Instance demo_drivers : VectorDrivers DemoDrivers := {|
  vd_environ := dd_environ; vd_set_environ d w := mk_demo_drivers d (dd_sdk w) (dd_opened w);
  vd_sdk := dd_sdk; vd_set_sdk m w := mk_demo_drivers (dd_environ w) (Some m) (dd_opened w);
  vd_import _ := ret tt; vd_import_milvus := demo_import_milvus; vd_mkdir _ := ret tt;
  vd_url scheme _ _ := Ok scheme; vd_open := demo_open; vd_close _ := ret tt; vd_has_close _ := true;
  vd_is_os_error _ := false; vd_is_invalid_url _ := false;
|}.
Lemma demo_drivers_laws : VectorDriversLaws dd_opened.
Proof.
  split; try done. intros w Hw. cbn in *. unfold demo_import_milvus. by rewrite Hw.
Qed.
#[local] Existing Instance plain_pydantic.
Definition demo_environ : DemoDrivers := mk_demo_drivers [(u "HOME", u "/root")] None [].
Definition demo_open_raw (driver : pystr) (raw : pydict pyval) : DemoDrivers * result exn VectorResource :=
  match builtin_prepare (create_vector_resource (u "/srv/storage")) driver raw with Ok d => d demo_environ | Err e => (demo_environ, Err e) end.
Definition demo_chroma_raw : pydict pyval :=
  [(u "driver", str "chroma"); (u "mode", str "remote"); (u "username", str "alice"); (u "password", str "pw")].
Definition demo_milvus_raw : pydict pyval := [(u "driver", str "milvus"); (u "mode", str "local"); (u "path", str "./milvus/a.db")].

