(* ===== verification/Logging.v ===== *)
(** * Logging: configuration of the handlers and the lines they write

    Models [infrastructure/logging/configure.py], [drivers/], [context.py],
    [formatter.py] and the Console's drivers ([bootstrap/console/logging.py]).
    [logging.config.dictConfig] receives a [LoggingConfig]; a [LogRecord] is its
    standard fields and the attributes the caller added.  The time of a record is
    its text, and [str] of an object JSON does not know is a class. *)

From Stdlib Require Import Floats.SpecFloat.
From S2P Require Import Prelude Text PyVal Errors Decimal Json JsonText Runtime Settings.
Local Open Scope prog_scope.

(** ** Drivers *)
Section Config.
Context `{Pydantic}.

Abbreviation HandlerConfig := (pydict pyval).
Abbreviation Builder := (pydict pyval → result exn HandlerConfig).

(** [LoggingDriverRegistry.__init__]: [registered] so far. *)
Fixpoint register_logging (registrations registered : pydict Builder) : result exn (pydict Builder) :=
  match registrations with
  | [] => Ok registered
  | (name, builder) :: rest =>
      let? _ := guard (negb (bool_decide (py_strip name = []))) LoggingConfigurationError in
      let? _ := guard (negb (bool_decide (name ∈ dict_keys registered))) LoggingConfigurationError in
      register_logging rest (registered ++ [(name, builder)])
  end.
Definition LoggingDriverRegistry_new (registrations : pydict Builder) := register_logging registrations [].
Definition logging_extended (registry more : pydict Builder) := LoggingDriverRegistry_new (registry ++ more).
Definition logging_replaced (registry : pydict Builder) (name : pystr) (builder : Builder) : result exn (pydict Builder) :=
  let? _ := guard (bool_decide (name ∈ dict_keys registry)) LoggingConfigurationError in
  LoggingDriverRegistry_new (map (λ nb, (nb.1, if decide (nb.1 = name) then builder else nb.2)) registry).

(** [drivers/stream.py] *)
Definition StreamLoggingSettings : model :=
  strict [required "driver" (literal "stream"); default_to "stream" (TLiteral [u "stdout"; u "stderr"]) (str "stdout")].
Definition stream_target (v : pyval) : pyval := match v with VStr s => VStr (u "ext://sys." ++ s) | v => v end.
Definition build_stream_handler (raw : pydict pyval) : result exn HandlerConfig :=
  let? settings := validate_model StreamLoggingSettings raw in
  Ok [(u "class", str "logging.StreamHandler"); (u "stream", stream_target (value settings "stream"))].
Definition DEFAULT_LOGGING_DRIVERS : pydict Builder := [(u "stream", build_stream_handler)].

(** [bootstrap/console/logging.py] *)
Definition build_console_stream_handler (raw : pydict pyval) : result exn HandlerConfig :=
  let? handler := build_stream_handler raw in
  Ok (match dict_get handler (u "stream") with
      | Some (VStr s) => if bool_decide (s = u "ext://sys.stdout") then dict_set handler (u "stream") (str "ext://sys.stderr") else handler
      | _ => handler
      end).
Definition CONSOLE_LOGGING_DRIVERS : result exn (pydict Builder) :=
  logging_replaced DEFAULT_LOGGING_DRIVERS (u "stream") build_console_stream_handler.

(** ** configure.py *)
Record LoggingValues := mk_logging {
  lg_level : pystr; lg_format : pystr; lg_active_handlers : list pystr; lg_handlers : pydict (pydict pyval);
}.
Definition CORE_HANDLER_KEYS : list pystr := [u "filters"; u "formatter"].

Definition as_logging_error {A} (r : result exn A) : result exn A :=
  match r with Err ValidationError => Err LoggingConfigurationError | r => r end.
Definition build_handler (s : LoggingValues) (drivers : pydict Builder) (name : pystr) : result exn HandlerConfig :=
  match dict_get (lg_handlers s) name with
  | None => Err LoggingConfigurationError
  | Some raw_config =>
      match dict_get raw_config (u "driver") with
      | Some (VStr (c :: driver)) =>
          match dict_get drivers (c :: driver) with
          | None => Err LoggingConfigurationError
          | Some builder =>
              let? handler := as_logging_error (builder raw_config) in
              let? _ := guard (forallb (λ k, negb (bool_decide (k ∈ CORE_HANDLER_KEYS))) (dict_keys handler)) LoggingConfigurationError in
              Ok (dict_set (dict_set handler (u "formatter") (VStr (lg_format s))) (u "filters") (VList [str "runtime_context"]))
          end
      | _ => Err LoggingConfigurationError
      end
  end.
Definition build_handlers (s : LoggingValues) (drivers : pydict Builder) : result exn (pydict HandlerConfig) :=
  let? _ := guard (negb (bool_decide (lg_active_handlers s = []))) LoggingConfigurationError in
  let? _ := guard (bool_decide (NoDup (lg_active_handlers s))) LoggingConfigurationError in
  map_result (λ name, let? handler := build_handler s drivers name in Ok (name, handler)) (lg_active_handlers s).

(** What [dictConfig] is given; [None] is an absent level. *)
Record LoggerConfig := mk_logger { lc_handlers : list pystr; lc_level : option pystr; lc_propagate : bool }.
Record LoggingConfig := mk_config {
  cf_disable_existing : bool;
  cf_formatters : pydict (pydict pyval);          (* the arguments of the formatter of a name *)
  cf_handlers : pydict HandlerConfig;
  cf_root : LoggerConfig;
  cf_loggers : pydict LoggerConfig;
}.
Definition configure_logging (service environment service_version : pystr) (s : LoggingValues) (drivers : pydict Builder) :
    result exn LoggingConfig :=
  let? handlers := build_handlers s drivers in
  let active := lg_active_handlers s in
  let arguments := [(u "service", VStr service); (u "environment", VStr environment); (u "service_version", VStr service_version)] in
  Ok (mk_config false [(u "json", arguments); (u "text", arguments)] handlers
        (mk_logger active (Some (u "WARNING")) true)
        [(u "app", mk_logger active (Some (lg_level s)) false);
         (u "uvicorn", mk_logger active (Some (lg_level s)) false);
         (u "uvicorn.access", mk_logger [] None false);
         (u "sqlalchemy", mk_logger active (Some (u "WARNING")) false)]).
Definition configure_console_logging (service environment service_version : pystr) (s : LoggingValues) : result exn LoggingConfig :=
  let? drivers := CONSOLE_LOGGING_DRIVERS in configure_logging service environment service_version s drivers.
Definition configure_process_logging (service environment service_version : pystr) (s : LoggingValues) : result exn LoggingConfig :=
  configure_logging service environment service_version s DEFAULT_LOGGING_DRIVERS.
End Config.

(** ** Records and their context: context.py *)

Record JobLogContext := mk_job_context {
  jc_job_id : pystr; jc_job_type : pystr; jc_job_version : Z; jc_queue_connection : pystr; jc_queue_name : pystr;
  jc_replay_of : option pystr;
}.
(** [record.exc_info]; a [type] without an instance has only its name. *)
Inductive exc_info := NoException | ExceptionType (module_ qualname : pystr) | ExceptionValue (e : exn).
Record LogRecord := mk_record {
  rc_timestamp : pystr; rc_levelname : pystr; rc_name : pystr; rc_text : pystr;    (* getMessage() *)
  rc_exc_info : exc_info; rc_attributes : pydict pyval;
}.
(** [getattr(record, field, None)] *)
Definition attribute (r : LogRecord) (field : pystr) : pyval := default VNone (dict_get (rc_attributes r) field).
Definition set_attribute (r : LogRecord) (field : pystr) (v : pyval) : LogRecord :=
  mk_record (rc_timestamp r) (rc_levelname r) (rc_name r) (rc_text r) (rc_exc_info r) (dict_set (rc_attributes r) field v).
Definition attach_one (r : LogRecord) (fv : pystr * pyval) : LogRecord :=
  if negb (is_none fv.2) && is_none (attribute r fv.1) then set_attribute r fv.1 fv.2 else r.
Definition optional_str (s : option pystr) : pyval := match s with Some s => VStr s | None => VNone end.
Definition job_fields (c : JobLogContext) : pydict pyval :=
  [(u "job_id", VStr (jc_job_id c)); (u "job_type", VStr (jc_job_type c)); (u "job_version", VInt (jc_job_version c));
   (u "queue_connection", VStr (jc_queue_connection c)); (u "queue_name", VStr (jc_queue_name c));
   (u "replay_of", optional_str (jc_replay_of c))].
Definition trace_fields (c : TraceContext) : pydict pyval :=
  [(u "request_id", optional_str (tr_request_id c)); (u "command_id", optional_str (tr_command_id c));
   (u "correlation_id", optional_str (tr_correlation_id c))].
Definition attach_job_context (r : LogRecord) (c : JobLogContext) : LogRecord := fold_left attach_one (job_fields c) r.
Definition attach_trace_context (r : LogRecord) (c : TraceContext) : LogRecord := fold_left attach_one (trace_fields c) r.
(** [RuntimeContextFilter.filter] with the two context variables: the record is
    changed in place and always passes. *)
Definition runtime_filter (trace : option TraceContext) (job : option JobLogContext) (r : LogRecord) : LogRecord * bool :=
  let r := match trace with Some c => attach_trace_context r c | None => r end in
  let r := match job with Some c => attach_job_context r c | None => r end in
  (r, true).

(** ** formatter.py *)

(** [str(value)] of the objects the formatter meets. *)
Class ObjectText := { object_text : pyval → pystr }.

Section Formatter.
Context `{Tracebacks} `{ObjectText} `{FloatRepr} (service environment service_version : pystr).

Definition frame_json (f : ExceptionStackFrame) : pyval :=
  VDict [(str "module", VStr (sf_module f)); (str "function", VStr (sf_function f)); (str "line", VInt (sf_line f))].
Definition exception_payload (i : exc_info) : option pyval :=
  match i with
  | NoException => None
  | ExceptionType m q => Some (VDict [(str "type", VStr (m ++ u "." ++ q)); (str "stacktrace", VTuple [])])
  | ExceptionValue e =>
      let '(error_type, stacktrace) := safe_exception_details e in
      Some (VDict [(str "type", VStr error_type); (str "stacktrace", VTuple (map frame_json stacktrace))])
  end.
Definition text_of (v : pyval) : pystr := match v with VStr s => s | v => object_text v end.
Definition present (k : string) (v : pyval) : pydict pyval := if is_none v then [] else [(u k, v)].
Definition present_text (r : LogRecord) (k : string) : pydict pyval :=
  let v := attribute r (u k) in if is_none v then [] else [(u k, VStr (text_of v))].
Definition correlation_fields : list string :=
  ["job_id"; "job_type"; "job_version"; "queue_connection"; "queue_name"; "correlation_id"; "replay_of"].
Definition build_payload (r : LogRecord) : pydict pyval :=
  [(u "timestamp", VStr (rc_timestamp r)); (u "level", VStr (rc_levelname r)); (u "logger", VStr (rc_name r));
   (u "service", VStr service); (u "environment", VStr environment); (u "service_version", VStr service_version);
   (u "message", VStr (rc_text r))]
  ++ present_text r "request_id" ++ present_text r "command_id"
  ++ flat_map (λ k, present k (attribute r (u k))) correlation_fields
  ++ match attribute r (u "event") with VStr s => [(u "event", VStr s)] | _ => [] end
  ++ match attribute r (u "details") with VDict d => [(u "details", VDict d)] | _ => [] end
  ++ match exception_payload (rc_exc_info r) with Some v => [(u "exception", v)] | None => [] end.

(** [json.dumps(..., default=str)]: the JSON value of a Python value; a key that
    is not a string, number, boolean or [None] is a [TypeError]. *)
Definition json_key (k : pyval) : result exn pystr :=
  match k with
  | VStr s => Ok s
  | VInt z => Ok (str_int z)
  | VFloat f => Ok (float_text f)
  | VBool true => Ok (u "true")
  | VBool false => Ok (u "false")
  | VNone => Ok (u "null")
  | _ => Err TypeError
  end.
Fixpoint to_json (v : pyval) : result exn json :=
  match v with
  | VNone => Ok JNull
  | VBool b => Ok (JBool b)
  | VInt z => Ok (JInt z)
  | VFloat f => Ok (JFloat f)
  | VStr s => Ok (JStr s)
  | VList l | VTuple l => let? items := map_result to_json l in Ok (JArr items)
  | VDict d =>
      let? members := map_result (λ kv, let? k := json_key kv.1 in let? x := to_json kv.2 in Ok (k, x)) d in
      Ok (JObj members)
  | VBytes _ | VOther => Ok (JStr (object_text v))
  end.
Definition json_dumps (v : pyval) : result exn pystr := let? j := to_json v in dumps j.
Definition payload_dict (payload : pydict pyval) : pyval := VDict (map (λ kv, (VStr kv.1, kv.2)) payload).

Definition format_json (r : LogRecord) : result exn pystr := json_dumps (payload_dict (build_payload r)).
(** [" ".join(f"{key}={_json_dumps(value)}" ...)] *)
Definition format_text (r : LogRecord) : result exn pystr :=
  let? parts := map_result (λ kv, let? v := json_dumps kv.2 in Ok (kv.1 ++ 61%N :: v)) (build_payload r) in
  Ok (join (u " ") parts).
End Formatter.

(** ** Proofs: the configuration *)
Section ConfigProofs.
Context `{PydanticLaws}.

Lemma stream_model_ok : model_ok StreamLoggingSettings.
Proof. split; [apply (bool_decide_unpack _); vm_compute; exact I | vm_compute; reflexivity]. Qed.
Definition stream_handler (target : string) : pydict pyval :=
  [(u "class", str "logging.StreamHandler"); (u "stream", VStr (u "ext://sys." ++ u target))].
Lemma build_stream_cases raw :
  (∃ t, t ∈ ["stdout"; "stderr"] ∧ build_stream_handler raw = Ok (stream_handler t)
     ∧ build_console_stream_handler raw = Ok (stream_handler "stderr"))
  ∨ build_stream_handler raw = Err ValidationError ∧ build_console_stream_handler raw = Err ValidationError.
Proof.
  unfold build_console_stream_handler, build_stream_handler.
  destruct (validate_model StreamLoggingSettings raw) as [cfg | e] eqn:Hv; cbn [result_bind].
  - left. destruct (validate_model_sound _ _ _ stream_model_ok Hv) as [Hs _].
    destruct (settings_field _ _ _ (default_to "stream" (TLiteral [u "stdout"; u "stderr"]) (str "stdout")) Hs) as (v & Hg & Ho); [set_solver |].
    cbn [fd_name fd_type default_to] in Hg, Ho. unfold value. rewrite Hg. cbn [default from_option value_ok] in *.
    destruct v; try done. apply bool_decide_eq_true in Ho. rewrite !elem_of_cons, elem_of_nil in Ho.
    destruct Ho as [-> | [-> | []]]; [exists "stdout"%string | exists "stderr"%string]; (split; [set_solver |]); (split; reflexivity).
  - right. assert (e = ValidationError) as -> by (unfold validate_model in Hv; repeat case_match; by simplify_eq). done.
Qed.

Lemma build_handlers_ok s drivers hs : build_handlers s drivers = Ok hs →
  lg_active_handlers s ≠ [] ∧ NoDup (lg_active_handlers s) ∧ dict_keys hs = lg_active_handlers s
  ∧ Forall (λ nh, build_handler s drivers nh.1 = Ok nh.2) hs.
Proof.
  unfold build_handlers. rewrite !guard_bind_ok. intros (Hn & Hd & Hm). to_prop. split; [done |]. split; [done |].
  apply map_result_ok in Hm. clear Hn Hd. induction Hm as [| n [n' h] names hs Hnh _ [Hk Hf]]; [done |].
  rewrite result_bind_ok in Hnh. destruct Hnh as (h' & Hh & [= <- <-]). split; [simpl; by rewrite Hk | by constructor].
Qed.
(** The drivers of the processes: their only failure is an invalid configuration. *)
Definition builds_streams (builder : pydict pyval → result exn (pydict pyval)) (targets : list string) : Prop :=
  ∀ raw, (∃ t, t ∈ targets ∧ builder raw = Ok (stream_handler t)) ∨ builder raw = Err ValidationError.
Lemma default_builds : builds_streams build_stream_handler ["stdout"; "stderr"].
Proof. intros raw. destruct (build_stream_cases raw) as [(t & ? & ? & _) | [? _]]; eauto. Qed.
Lemma console_builds : builds_streams build_console_stream_handler ["stderr"].
Proof. intros raw. destruct (build_stream_cases raw) as [(t & ? & _ & ?) | [_ ?]]; [left; exists "stderr"%string; split; [set_solver | done] | eauto]. Qed.

Definition handler_sound (s : LoggingValues) (targets : list string) (h : pydict pyval) : Prop :=
  dict_get h (u "class") = Some (str "logging.StreamHandler") ∧ dict_get h (u "formatter") = Some (VStr (lg_format s))
  ∧ dict_get h (u "filters") = Some (VList [str "runtime_context"])
  ∧ ∃ t, t ∈ targets ∧ dict_get h (u "stream") = Some (VStr (u "ext://sys." ++ u t)).
Definition added_fields (s : LoggingValues) (h : pydict pyval) : pydict pyval :=
  dict_set (dict_set h (u "formatter") (VStr (lg_format s))) (u "filters") (VList [str "runtime_context"]).
Lemma build_handler_stream s builder targets name :
  builds_streams builder targets →
  match build_handler s [(u "stream", builder)] name with
  | Ok h => handler_sound s targets h
  | Err e => e = LoggingConfigurationError
  end.
Proof.
  intros Hb. unfold build_handler. destruct (dict_get (lg_handlers s) name) as [raw |]; [| done].
  destruct (dict_get raw (u "driver")) as [[| | | | | [| c d] | | | |] |]; try done. cbn [dict_get]. case_decide; [| done].
  destruct (Hb raw) as [(t & Ht & ->) | ->]; [| done]. cbn [as_logging_error result_bind].
  change (guard _ LoggingConfigurationError) with (Ok (E := exn) tt). cbn [result_bind].
  split; [reflexivity |]. split; [reflexivity |]. split; [reflexivity |]. by exists t.
Qed.

Lemma build_handler_console s name :
  is_ok (build_handler s [(u "stream", build_console_stream_handler)] name) = is_ok (build_handler s [(u "stream", build_stream_handler)] name).
Proof.
  unfold build_handler. destruct (dict_get (lg_handlers s) name) as [raw |]; [| done].
  destruct (dict_get raw (u "driver")) as [[| | | | | [| c d] | | | |] |]; try done. cbn [dict_get]. case_decide; [| done].
  destruct (build_stream_cases raw) as [(t & _ & -> & ->) | [-> ->]]; reflexivity.
Qed.

Lemma configure_console service environment version s :
  is_ok (configure_logging service environment version s [(u "stream", build_console_stream_handler)])
  = is_ok (configure_logging service environment version s [(u "stream", build_stream_handler)]).
Proof.
  assert (Hm : ∀ l, is_ok (map_result (λ n, let? h := build_handler s [(u "stream", build_console_stream_handler)] n in Ok (n, h)) l)
    = is_ok (map_result (λ n, let? h := build_handler s [(u "stream", build_stream_handler)] n in Ok (n, h)) l)).
  { induction l as [| n l IH]; [done |]. cbn [map_result]. pose proof (build_handler_console s n) as Hn.
    destruct (build_handler s [(u "stream", build_console_stream_handler)] n), (build_handler s [(u "stream", build_stream_handler)] n); try done.
    cbn [result_bind]. destruct (map_result _ l) in IH |- *; destruct (map_result _ l) in IH |- *; done. }
  unfold configure_logging, build_handlers. destruct (guard _ _); [| done]. cbn [result_bind]. destruct (guard _ _); [| done]. cbn [result_bind].
  specialize (Hm (lg_active_handlers s)). destruct (map_result _ _) in Hm |- *; destruct (map_result _ _) in Hm |- *; done.
Qed.
Definition config_sound (s : LoggingValues) (targets : list string) (cfg : LoggingConfig) : Prop :=
  lg_active_handlers s ≠ [] ∧ NoDup (lg_active_handlers s) ∧ dict_keys (cf_handlers cfg) = lg_active_handlers s
  ∧ Forall (λ nh, handler_sound s targets nh.2) (cf_handlers cfg)
  ∧ (∀ l h, l ∈ cf_root cfg :: map snd (cf_loggers cfg) → h ∈ lc_handlers l → h ∈ dict_keys (cf_handlers cfg))
  ∧ dict_get (cf_loggers cfg) (u "uvicorn.access") = Some (mk_logger [] None false)
  ∧ cf_disable_existing cfg = false.
Lemma configure_sound service environment version s builder targets :
  builds_streams builder targets →
  match configure_logging service environment version s [(u "stream", builder)] with
  | Ok cfg => config_sound s targets cfg
  | Err e => e = LoggingConfigurationError
  end.
Proof.
  intros Hb. unfold configure_logging. destruct (build_handlers s _) as [hs | e] eqn:Hh; cbn [result_bind].
  - destruct (build_handlers_ok _ _ _ Hh) as (Hn & Hd & Hk & Hf). unfold config_sound. cbn [cf_handlers cf_root cf_loggers cf_disable_existing].
    split; [done |]. split; [done |]. split; [done |]. split; [| split; [| done]].
    + eapply List.Forall_impl; [| exact Hf]. intros [n h] Hnh. pose proof (build_handler_stream s builder targets n Hb) as Hs.
      simpl in *. by rewrite Hnh in Hs.
    + intros l h Hl. rewrite Hk. simpl in Hl. rewrite !elem_of_cons, elem_of_nil in Hl.
      destruct Hl as [-> | [-> | [-> | [-> | [-> | []]]]]]; simpl; [done.. | by intros ?%elem_of_nil | done].
  - unfold build_handlers in Hh. rewrite guard_bind_err in Hh. destruct Hh as [[_ ->] | [_ Hh]]; [done |].
    rewrite guard_bind_err in Hh. destruct Hh as [[_ ->] | [_ Hh]]; [done |]. apply map_result_err in Hh as (n & _ & Hn).
    pose proof (build_handler_stream s builder targets n Hb) as Hs. destruct (build_handler s _ n); [done |]. by injection Hn as <-.
Qed.
Lemma console_drivers : CONSOLE_LOGGING_DRIVERS = Ok [(u "stream", build_console_stream_handler)].
Proof. reflexivity. Qed.

(** Logging set-up of every process.  It either refuses the settings with
    [LoggingConfigurationError], or enables exactly the active handlers, each
    once, each a stream handler with the configured format and the context
    filter; every logger names only handlers that exist; Uvicorn's own access log
    is silent and no existing logger is disabled.  A Console process accepts the
    same settings and never logs to standard output, which is left to the results
    of commands. *)
Theorem logging_configuration_correct service environment version s :
  match configure_process_logging service environment version s with
  | Ok cfg =>
      config_sound s ["stdout"; "stderr"] cfg
      ∧ ∃ console, configure_console_logging service environment version s = Ok console ∧ config_sound s ["stderr"] console
  | Err e => e = LoggingConfigurationError ∧ configure_console_logging service environment version s = Err LoggingConfigurationError
  end.
Proof.
  pose proof (configure_sound service environment version s _ _ default_builds) as Hp.
  pose proof (configure_sound service environment version s _ _ console_builds) as Hc.
  pose proof (configure_console service environment version s) as Hsame.
  unfold configure_process_logging, configure_console_logging. rewrite console_drivers. cbn [result_bind].
  unfold DEFAULT_LOGGING_DRIVERS. destruct (configure_logging _ _ _ _ [(_, build_stream_handler)]) as [cfg | e], (configure_logging _ _ _ _ _) as [cfg' | e']; try done; eauto.
  by subst.
Qed.
End ConfigProofs.

(** ** Proofs: a line of the log *)
Section LineProofs.
Context `{Tracebacks} `{ObjectText} `{FloatTextLaws}.

(** No code point before the space, U+0020. *)
Definition from_space (s : pystr) : bool := forallb (λ c, 32 <=? c)%N s.
Lemma from_space_app a b : from_space (a ++ b) = from_space a && from_space b.
Proof. apply forallb_app. Qed.
Lemma from_space_join sep parts : from_space sep = true → forallb from_space parts = true → from_space (join sep parts) = true.
Proof.
  intros Hs. induction parts as [| p [| q ps] IH]; [done | simpl; by rewrite andb_true_r |].
  intros [Hp Hq]%andb_true_iff. change (join sep (p :: q :: ps)) with (p ++ sep ++ join sep (q :: ps)).
  by rewrite !from_space_app, Hp, Hs, IH.
Qed.
Lemma digits_from_space s d t : digits_of s = (d, t) → from_space d = true ∧ s = d ++ t.
Proof.
  revert d t. induction s as [| c s IH]; intros d t Hs; [by injection Hs as <- <- |].
  unfold digits_of in *. simpl in Hs. destruct (is_09 c) eqn:Hc; [| by injection Hs as <- <-].
  destruct (span is_09 s) as [d' t'] eqn:Hsp. injection Hs as <- <-. destruct (IH _ _ eq_refl) as [Hv ->].
  split; [| done]. unfold from_space in *. cbn [forallb]. rewrite Hv, andb_true_r. unfold is_09, in_range in Hc. to_prop. apply N.leb_le. lia.
Qed.
Lemma decimal_from_space n : from_space (decimal n) = true.
Proof. pose proof (decimal_digits n) as [Hd _]. pose proof (span_all _ _ Hd) as Hs. by apply digits_from_space in Hs as [? _]. Qed.
Lemma int_from_space z : from_space (str_int z) = true.
Proof. unfold str_int. destruct (z <? 0)%Z; [simpl |]; apply decimal_from_space. Qed.
Lemma fraction_from_space s d t : fraction_of s = (d, t) → from_space d = true.
Proof.
  destruct s as [| c s]; simpl; [by intros [= <- _] |]. case_bool; [| by intros [= <- _]].
  destruct (digits_of s) as [d' t'] eqn:Hd. apply digits_from_space in Hd as [Hd _].
  destruct d'; intros [= <- _]; [done |]. to_prop. subst. exact Hd.
Qed.
Lemma exponent_from_space s d t : exponent_of s = (d, t) → from_space d = true.
Proof.
  destruct s as [| c s]; simpl; [by intros [= <- _] |]. destruct ((c =? 101)%N || (c =? 69)%N) eqn:Hc; [| by intros [= <- _]].
  assert (32 <= c)%N as Hv by (apply orb_true_iff in Hc as [->%N.eqb_eq | ->%N.eqb_eq]; done).
  assert (Hsign : ∃ sign s', match s with x :: t' => if (x =? 43)%N || (x =? 45)%N then ([x], t') else ([], s) | [] => ([], s) end = (sign, s')
    ∧ from_space sign = true).
  { destruct s as [| x s']; [by eexists _, _ |]. destruct ((x =? 43)%N || (x =? 45)%N) eqn:Hx; [| by eexists _, _].
    eexists _, _. split; [done |]. by apply orb_true_iff in Hx as [->%N.eqb_eq | ->%N.eqb_eq]. }
  destruct Hsign as (sign & s' & -> & Hs). destruct (digits_of s') as [d' t'] eqn:Hd. apply digits_from_space in Hd as [Hd _].
  destruct d'; intros [= <- _]; [done |]. change ((32 <=? c)%N && from_space (sign ++ n :: d') = true). rewrite (proj2 (N.leb_le 32 c)) by done. cbn [andb].
  by rewrite from_space_app, Hs.
Qed.
Lemma literal_from_space s literal fl rest : number_literal s = Some (literal, fl, rest) → from_space literal = true.
Proof.
  unfold number_literal. destruct (sign_of s) as [sign s1] eqn:Hsign.
  assert (from_space sign = true) as Hs.
  { destruct s as [| c s]; simpl in Hsign; [by injection Hsign as <- _ |]. case_bool; injection Hsign as <- _; [| done]. to_prop. by subst. }
  destruct (integer_of s1) as [[digits s2] |] eqn:Hi; [| done]. cbn [mbind option_bind].
  destruct (fraction_of s2) as [fraction s3] eqn:Hf, (exponent_of s3) as [exponent s4] eqn:He. intros [= <- _ _].
  rewrite !from_space_app, Hs, (fraction_from_space _ _ _ Hf), (exponent_from_space _ _ _ He), andb_true_r.
  destruct s1 as [| c s1]; [done |]. unfold integer_of in Hi. case_bool; [injection Hi as <- _; to_prop; by subst |].
  case_bool; [| done]. injection Hi as Hi. by destruct (digits_from_space _ _ _ Hi) as [-> _].
Qed.
Lemma float_from_space f : from_space (float_text f) = true.
Proof.
  destruct f as [b | [] | | b m e]; try done; simpl; eapply literal_from_space, float_literal; eauto.
Qed.
Lemma json_from_space j : from_space (json_text j) = true.
Proof.
  induction j as [| [] | z | f | s | l IH | l IH] using json_induction; try done; cbn [json_text].
  - apply int_from_space.
  - apply float_from_space.
  - apply string_visible.
  - change (from_space (commas (map json_text l) ++ [93%N]) = true). rewrite from_space_app, andb_true_r. apply from_space_join; [done |].
    rewrite forallb_map. apply forallb_forall. intros x Hx. rewrite List.Forall_forall in IH. by apply IH.
  - change (from_space (commas (map member_text l) ++ [125%N]) = true). rewrite from_space_app, andb_true_r. apply from_space_join; [done |].
    rewrite forallb_map. apply forallb_forall. intros x Hx. rewrite List.Forall_forall in IH. unfold member_text.
    change (from_space (json_string x.1 ++ [58%N] ++ json_text x.2) = true). by rewrite !from_space_app, (string_visible x.1 : from_space _ = _), IH.
Qed.

(** The context of a line: an attribute the caller set is kept. *)
Lemma attribute_set r f v g : attribute (set_attribute r f v) g = if decide (f = g) then v else attribute r g.
Proof. unfold attribute. simpl. rewrite dict_get_set. by case_decide. Qed.
Lemma attach_all fields r f : base.NoDup (dict_keys fields) →
  attribute (fold_left attach_one fields r) f
  = if is_none (attribute r f) then default VNone (dict_get fields f) else attribute r f.
Proof.
  revert r. induction fields as [| [k v] fields IH]; intros r Hd; cbn [fold_left dict_get].
  { unfold is_none. by destruct (attribute r f). }
  unfold dict_keys in Hd. cbn [map fst] in Hd. apply list.NoDup_cons in Hd as [Hk Hd]. rewrite IH by done.
  unfold attach_one. cbn [fst snd]. destruct (decide (k = f)) as [-> | Hne].
  - assert (dict_get fields f = None) as -> by (destruct (dict_get fields f) eqn:Hg; [by apply dict_get_in in Hg | done]).
    destruct (decide (f = f)) as [_ | []]; [| done]. cbn [default from_option]. destruct (is_none v) eqn:Hv; cbn [negb andb].
    + by destruct v.
    + destruct (is_none (attribute r f)) eqn:Hr; [by rewrite attribute_set, decide_True, Hv | by rewrite Hr].
  - destruct (negb (is_none v) && is_none (attribute r k)); [| done]. by rewrite attribute_set, decide_False.
Qed.
Definition context_value (trace : option TraceContext) (job : option JobLogContext) (f : pystr) : pyval :=
  let fields := match trace with Some c => trace_fields c | None => [] end in
  match default VNone (dict_get fields f) with
  | VNone => default VNone (dict_get (match job with Some c => job_fields c | None => [] end) f)
  | v => v
  end.
Lemma filter_attribute trace job r f :
  attribute (runtime_filter trace job r).1 f = if is_none (attribute r f) then context_value trace job f else attribute r f.
Proof.
  unfold runtime_filter, context_value, attach_job_context, attach_trace_context. cbn [fst].
  assert (Hj : ∀ c : JobLogContext, base.NoDup (dict_keys (job_fields c))) by (intros c; apply (bool_decide_unpack _); vm_compute; exact I).
  assert (Ht : ∀ c : TraceContext, base.NoDup (dict_keys (trace_fields c))) by (intros c; apply (bool_decide_unpack _); vm_compute; exact I).
  destruct trace, job; rewrite ?attach_all by auto; cbn [dict_get default from_option];
    destruct (attribute r f) eqn:Hr; rewrite ?Hr; try done; cbn [is_none]; by destruct (default VNone _).
Qed.

Lemma present_get k v k' : dict_get (present k v) (u k') = if decide (u k = u k') then (if is_none v then None else Some v) else None.
Proof. unfold present. destruct (is_none v); cbn [dict_get]; by case_decide. Qed.
Lemma present_text_get r k k' :
  dict_get (present_text r k) (u k') = if decide (u k = u k') then (if is_none (attribute r (u k)) then None else Some (VStr (text_of (attribute r (u k))))) else None.
Proof. unfold present_text. destruct (is_none _); cbn [dict_get]; by case_decide. Qed.
(** The correlation fields of a payload are the attributes that are set. *)
Lemma payload_field service environment version r f : f ∈ correlation_fields →
  dict_get (build_payload service environment version r) (u f)
  = if is_none (attribute r (u f)) then None else Some (attribute r (u f)).
Proof.
  intros Hf. unfold build_payload, correlation_fields. cbn [flat_map].
  repeat rewrite dict_get_app. rewrite !present_text_get, !present_get.
  assert (Htail : ∀ k (v : pyval) (o : bool), dict_get (if o then [(u k, v)] else []) (u f) = if decide (u k = u f) then (if o then Some v else None) else None).
  { intros k v []; cbn [dict_get]; by case_decide. }
  assert (Hevent : dict_get match attribute r (u "event") with VStr s => [(u "event", VStr s)] | _ => [] end (u f) = None).
  { destruct (attribute r (u "event")); try done. cbn [dict_get]. rewrite decide_False; [done |]. intros He. revert Hf. unfold correlation_fields.
    rewrite !elem_of_cons, elem_of_nil. intros Hf. destruct_or! Hf; by subst. }
  assert (Hdetails : dict_get match attribute r (u "details") with VDict d => [(u "details", VDict d)] | _ => [] end (u f) = None).
  { destruct (attribute r (u "details")); try done. cbn [dict_get]. rewrite decide_False; [done |]. intros He. revert Hf. unfold correlation_fields.
    rewrite !elem_of_cons, elem_of_nil. intros Hf. destruct_or! Hf; by subst. }
  assert (Hexc : dict_get match exception_payload (rc_exc_info r) with Some v => [(u "exception", v)] | None => [] end (u f) = None).
  { destruct (exception_payload _); [| done]. cbn [dict_get]. rewrite decide_False; [done |]. intros He. revert Hf. unfold correlation_fields.
    rewrite !elem_of_cons, elem_of_nil. intros Hf. destruct_or! Hf; by subst. }
  rewrite Hevent, Hdetails, Hexc. clear Hevent Hdetails Hexc Htail. unfold correlation_fields in Hf. rewrite !elem_of_cons, elem_of_nil in Hf.
  destruct_or! Hf; subst; cbn [dict_get];
    repeat (let Hk := fresh in case_decide as Hk; [try discriminate Hk | try by destruct Hk]); by destruct (is_none _).
Qed.

Lemma format_lines service environment version r line :
  format_json service environment version r = Ok line ∨ format_text service environment version r = Ok line → from_space line = true.
Proof.
  assert (Hdumps : ∀ v s, json_dumps v = Ok s → from_space s = true).
  { intros v s. unfold json_dumps. rewrite result_bind_ok. intros (j & _ & Hj). unfold dumps in Hj. destruct (ints_ok j); [| done].
    injection Hj as <-. apply json_from_space. }
  intros [Hl | Hl]; [by eapply Hdumps |]. unfold format_text in Hl. rewrite result_bind_ok in Hl. destruct Hl as (parts & Hp & [= <-]).
  apply from_space_join; [done |]. apply map_result_ok in Hp.
  assert (Hkeys : Forall (λ kv, from_space kv.1 = true) (build_payload service environment version r)).
  { unfold build_payload, present_text, present, correlation_fields. cbn [flat_map].
    repeat (apply Forall_app; split); repeat constructor; repeat (case_match; repeat constructor). }
  induction Hp as [| kv part kvs parts Hkv _ IH]; [done |]. apply list.Forall_cons in Hkeys as [Hk Hkeys]. cbn [forallb].
  rewrite IH, andb_true_r by done. rewrite result_bind_ok in Hkv. destruct Hkv as (v & Hv & [= <-]).
  change (from_space (kv.1 ++ [61%N] ++ v) = true). by rewrite !from_space_app, Hk, (Hdumps _ _ Hv).
Qed.

(** C35: a line of the log.  Whatever the message and the caller's values are, the
    JSON and the text format write a text without any code point below U+0020, so
    without a line feed, a carriage return or an escape; the code points from there on,
    DEL, the C1 controls and U+2028 among them, are kept as they are
    ([separators_kept]).  Reading a JSON line back gives the fields that were logged,
    provided no two keys of one object are written alike and the reader's recursion
    limit is not below the nesting of the value.  A correlation field
    carries the caller's attribute, or else the one of the request or job in
    progress, and is absent when neither is set. *)
Theorem log_line_correct service environment version trace job r :
  let logged := (runtime_filter trace job r).1 in
  (∀ line, format_json service environment version logged = Ok line ∨ format_text service environment version logged = Ok line →
     ∀ c, c ∈ line → (32 <= c)%N)
  ∧ (∀ f, f ∈ correlation_fields →
       dict_get (build_payload service environment version logged) (u f)
       = let v := if is_none (attribute r (u f)) then context_value trace job (u f) else attribute r (u f) in
         if is_none v then None else Some v)
  ∧ (∀ j line depth, to_json (payload_dict (build_payload service environment version logged)) = Ok j →
       format_json service environment version logged = Ok line → keys_distinct j = true → nesting j ≤ depth →
       loads depth line = Ok j).
Proof.
  intros logged. split.
  { intros line Hl c Hc. apply format_lines in Hl. unfold from_space in Hl. rewrite forallb_forall in Hl.
    by apply N.leb_le, Hl, list_elem_of_In. }
  split.
  - intros f Hf. rewrite payload_field by done. unfold logged. by rewrite filter_attribute.
  - intros j line depth Hj Hl Hk Hd. unfold format_json, json_dumps in Hl. rewrite Hj in Hl. by eapply loads_dumps.
Qed.
End LineProofs.

(** ** Concrete runs *)
#[local] Instance demo_tracebacks : Tracebacks :=
  {| exc_module _ := u "builtins"; exc_qualname _ := u "RuntimeError"; exc_traceback _ := [(Some (u "app.main"), u "main", 7%Z)] |}.
#[local] Instance demo_text : ObjectText := {| object_text _ := u "<object>" |}.
#[local] Existing Instance plain_pydantic.
#[local] Existing Instance binary_repr.

Definition demo_logging : LoggingValues :=
  mk_logging (u "INFO") (u "json") [u "stdout"] [(u "stdout", [(u "driver", str "stream"); (u "stream", str "stdout")])].
Lemma logging_configuration_correct_witness :
  match configure_process_logging (u "app") (u "local") (u "1.0") demo_logging with
  | Ok cfg => config_sound demo_logging ["stdout"; "stderr"]%string cfg
  | Err _ => False
  end.
Proof.
  pose proof (@logging_configuration_correct plain_pydantic plain_pydantic_laws (u "app") (u "local") (u "1.0") demo_logging) as Hl.
  destruct (configure_process_logging (u "app") (u "local") (u "1.0") demo_logging) as [cfg | e] eqn:Hc; [exact (proj1 Hl) |].
  vm_compute in Hc. discriminate Hc.
Defined.

Definition demo_log_record : LogRecord :=
  mk_record (u "2026-01-01T00:00:00.000+00:00") (u "ERROR") (u "app.jobs") [10%N; 34%N; 27%N] (ExceptionValue RuntimeError)
    [(u "event", str "job.failed"); (u "details", VDict [(str "attempt", VInt 2)]); (u "job_id", str "own")].
Definition demo_job : JobLogContext := mk_job_context (u "of context") (u "mail") 3 (u "main") (u "default") None.
Definition demo_logged : LogRecord := (runtime_filter None (Some demo_job) demo_log_record).1.
Lemma log_line_correct_witness :
  match format_json (u "app") (u "local") (u "1.0") demo_logged, to_json (payload_dict (build_payload (u "app") (u "local") (u "1.0") demo_logged)) with
  | Ok line, Ok j => (∀ c, c ∈ line → (32 <= c)%N) ∧ loads 1000 line = Ok j
      ∧ dict_get (build_payload (u "app") (u "local") (u "1.0") demo_logged) (u "job_id") = Some (str "own")
      ∧ dict_get (build_payload (u "app") (u "local") (u "1.0") demo_logged) (u "job_type") = Some (str "mail")
  | _, _ => False
  end.
Proof.
  destruct (log_line_correct (H3 := binary_text_laws) (u "app") (u "local") (u "1.0") None (Some demo_job) demo_log_record) as (Hv & Hf & Hl).
  destruct (format_json (u "app") (u "local") (u "1.0") demo_logged) as [line | e] eqn:Hline; [| vm_compute in Hline; discriminate Hline].
  destruct (to_json (payload_dict (build_payload (u "app") (u "local") (u "1.0") demo_logged))) as [j | e] eqn:Hj; [| vm_compute in Hj; discriminate Hj].
  split; [exact (Hv line (or_introl Hline)) |]. split; [apply (Hl j line 1000 Hj Hline) |].
  - vm_compute in Hj. injection Hj as <-. vm_compute. reflexivity.
  - vm_compute in Hj. injection Hj as <-. apply (bool_decide_unpack _). vm_compute. exact I.
  - assert (Hin : "job_id"%string ∈ correlation_fields ∧ "job_type"%string ∈ correlation_fields) by (split; apply list_elem_of_In; simpl; auto).
    split; [rewrite (Hf _ (proj1 Hin) : dict_get (build_payload _ _ _ demo_logged) _ = _) | rewrite (Hf _ (proj2 Hin) : dict_get (build_payload _ _ _ demo_logged) _ = _)];
      vm_compute; reflexivity.
Defined.

(** DEL, NEL and the line separator of Unicode are written as they are: a reader that
    splits at every Unicode line boundary sees more than one line. *)
Example separators_kept :
  ∃ line, format_json (u "app") (u "local") (u "1.0")
      (mk_record (u "2026") (u "INFO") (u "app") [127%N; 133%N; 8232%N] NoException []) = Ok line
    ∧ 127%N ∈ line ∧ 133%N ∈ line ∧ 8232%N ∈ line.
Proof.
  eexists. split; [vm_compute; reflexivity |]. split_and!; apply (bool_decide_unpack _); vm_compute; exact I.
Qed.
