(* ===== verification/RabbitMQ.v ===== *)
(** * RabbitMQ: durable publication and consumers with their own channel

    Models [infrastructure/queue/drivers/rabbitmq.py].  [RabbitBackend.publish]
    is a state machine whose steps are the code between two awaits, for any
    number of publishing tasks; the other methods are programs of one task.
    The client library aio_pika and its broker are the class [AmqpClient];
    [AmqpLaws] is what the driver relies on: a confirmed and mandatory
    publication to a durable queue is stored, nobody deletes a durable queue,
    and a channel is open until it is closed or fails.  A message that is lost by
    a closing channel is delivered again by the broker: that is not modelled. *)

From stdpp Require Import gmultiset.
From S2P Require Import Prelude Text PyVal Errors Decimal.
Local Open Scope prog_scope.

#[export] Instance byte_countable : Countable Byte.byte := inj_countable Byte.to_N Byte.of_N Byte.of_to_N.

Abbreviation channel := nat.
Record IncomingMessage := mk_incoming {
  im_body : pybytes; im_message_id : option pystr; im_delivery_tag : Z; im_redelivered : option bool; im_channel : channel;
}.

Class AmqpClient (B : Type) := {
  aq_connect : pydict pyval → io B nat;
  aq_connection_close : nat → io B unit;
  aq_channel : nat → bool → io B channel;                    (* on_return_raises; confirms are on *)
  aq_channel_close : channel → io B unit;
  aq_set_qos : channel → Z → io B unit;
  aq_declare_queue : channel → pystr → bool → io B unit;     (* durable *)
  aq_iterate : channel → pystr → io B nat;                   (* iterator() and __aenter__ *)
  aq_next : nat → io B IncomingMessage;
  aq_iterator_close : nat → io B unit;
  aq_ack : channel → Z → io B unit;
  aq_publish : channel → pystr → pybytes → bool → bool → io B unit;     (* persistent, mandatory *)
  aq_others : relation B;                                    (* other tasks and clients *)
  aq_open : B → gset channel;
  aq_durable : B → gset pystr;                               (* the durable queues *)
  aq_stored : B → gmultiset (pystr * pybytes);               (* every message ever stored in a durable queue *)
  aq_returning : B → channel → bool;                         (* an unroutable message of the channel raises *)
  aq_prefetch : B → channel → option Z;
}.

(** ** Deliveries and consumers *)
Section Driver.
Context `{AmqpClient B}.

(** [message.message_id or f"delivery:{message.delivery_tag}"] *)
Record RabbitDelivery := mk_rabbit_delivery {
  rd_message : IncomingMessage; rd_payload : pybytes; rd_identity : pystr; rd_possibly_redelivered : bool;
}.
Definition RabbitDelivery_new (m : IncomingMessage) : RabbitDelivery :=
  mk_rabbit_delivery m (im_body m)
    (match im_message_id m with Some (c :: s) => c :: s | _ => u "delivery:" ++ str_int (im_delivery_tag m) end)
    (default false (im_redelivered m)).
Definition rabbit_acknowledge (d : RabbitDelivery) : io B unit :=
  aq_ack (im_channel (rd_message d)) (im_delivery_tag (rd_message d)).

Record RabbitConsumer := mk_rabbit_consumer { rc_channel : channel; rc_iterator : nat }.

(** The methods of a consumer, with its flag [_closed]. *)
Definition rabbit_receive (c : RabbitConsumer) : io (bool * B) RabbitDelivery :=
  λ '(closed, w),
    if closed then ((closed, w), Err QueueError)
    else match aq_next (rc_iterator c) w with
         | (w', Ok message) => ((closed, w'), Ok (RabbitDelivery_new message))
         | (w', Err StopAsyncIteration) => ((closed, w'), Err QueueError)
         | (w', Err e) => ((closed, w'), Err e)
         end.
Definition rabbit_consumer_aclose (c : RabbitConsumer) : io (bool * B) unit :=
  λ '(_, w),
    let '(w', r) := finally (aq_iterator_close (rc_iterator c)) (aq_channel_close (rc_channel c)) w in ((true, w'), r).

(** ** The backend *)
Record RabbitBackend := mk_rabbit_backend { rb_connection : nat; rb_channel : channel }.

(** [try: m; except BaseException: await cleanup; raise] *)
Definition or_cleanup {A} (m : io B A) (cleanup : io B unit) : io B A :=
  catch m (λ e, cleanup;;; raise e).

Definition rabbit_create (settings : pydict pyval) : io B RabbitBackend :=
  let* connection := aq_connect settings in
  let* ch := or_cleanup (aq_channel connection true) (aq_connection_close connection) in
  ret (mk_rabbit_backend connection ch).

Definition rabbit_consumer (b : RabbitBackend) (queue : pystr) (concurrency : Z) : io B RabbitConsumer :=
  let* ch := aq_channel (rb_connection b) false in
  or_cleanup
    (aq_set_qos ch concurrency;;;
     aq_declare_queue ch queue true;;;
     let* iterator := aq_iterate ch queue in
     ret (mk_rabbit_consumer ch iterator))
    (aq_channel_close ch).
Definition rabbit_aclose (b : RabbitBackend) : io B unit := aq_connection_close (rb_connection b).

(** *** [publish], for any number of tasks *)
Inductive publication :=
| PubWait (queue : pystr) (payload : pybytes)         (* waits for the lock *)
| PubDeclare (queue : pystr) (payload : pybytes)      (* holds the lock, awaits the declaration *)
| PubSend (queue : pystr) (payload : pybytes)         (* awaits the confirmation *)
| PubDone (queue : pystr) (payload : pybytes)
| PubFailed.
Record PublishState := mk_publish {
  ps_declared : gset pystr;                           (* _declared *)
  ps_lock : option nat;
  ps_tasks : gmap nat publication;
  ps_confirmed : gmultiset (pystr * pybytes);         (* what [publish] returned for *)
}.
Definition publish_init : PublishState := mk_publish ∅ None ∅ ∅.
Definition goto (t : nat) (p : publication) (s : PublishState) : PublishState :=
  mk_publish (ps_declared s) (ps_lock s) (<[t := p]> (ps_tasks s)) (ps_confirmed s).
(** With the lock: declare a queue seen for the first time. *)
Definition publish_enter (t : nat) (queue : pystr) (payload : pybytes) (s : PublishState) : PublishState :=
  if bool_decide (queue ∈ ps_declared s) then goto t (PubSend queue payload) s
  else mk_publish (ps_declared s) (Some t) (<[t := PubDeclare queue payload]> (ps_tasks s)) (ps_confirmed s).
Definition publish_declared (b : RabbitBackend) (t : nat) (queue : pystr) (payload : pybytes) (s : PublishState * B) : PublishState * B :=
  match aq_declare_queue (rb_channel b) queue true s.2 with
  | (w, Ok _) => (mk_publish ({[queue]} ∪ ps_declared s.1) None (<[t := PubSend queue payload]> (ps_tasks s.1)) (ps_confirmed s.1), w)
  | (w, Err _) => (mk_publish (ps_declared s.1) None (<[t := PubFailed]> (ps_tasks s.1)) (ps_confirmed s.1), w)
  end.
Definition publish_sent (b : RabbitBackend) (t : nat) (queue : pystr) (payload : pybytes) (s : PublishState * B) : PublishState * B :=
  match aq_publish (rb_channel b) queue payload true true s.2 with
  | (w, Ok _) => (mk_publish (ps_declared s.1) (ps_lock s.1) (<[t := PubDone queue payload]> (ps_tasks s.1)) ({[+ (queue, payload) +]} ⊎ ps_confirmed s.1), w)
  | (w, Err _) => (goto t PubFailed s.1, w)
  end.
(** The task is cancelled while it waits, or while it awaits the broker. *)
Definition publish_cancelled (t : nat) (s : PublishState) : PublishState :=
  mk_publish (ps_declared s) (if bool_decide (ps_lock s = Some t) then None else ps_lock s) (<[t := PubFailed]> (ps_tasks s)) (ps_confirmed s).

(** The call that the cancelled task awaited may have reached the broker. *)
Definition interrupted (b : RabbitBackend) (pub : publication) (w w' : B) : Prop :=
  match pub with
  | PubWait _ _ => w' = w
  | PubDeclare q _ => w' = w ∨ w' = (aq_declare_queue (rb_channel b) q true w).1
  | PubSend q p => w' = w ∨ w' = (aq_publish (rb_channel b) q p true true w).1
  | PubDone _ _ | PubFailed => False
  end.

Inductive publish_step (b : RabbitBackend) : PublishState * B → PublishState * B → Prop :=
| step_publish s w t q p : ps_tasks s !! t = None → publish_step b (s, w) (goto t (PubWait q p) s, w)
| step_enter s w t q p : ps_tasks s !! t = Some (PubWait q p) → ps_lock s = None → publish_step b (s, w) (publish_enter t q p s, w)
| step_declared s w t q p : ps_tasks s !! t = Some (PubDeclare q p) → publish_step b (s, w) (publish_declared b t q p (s, w))
| step_sent s w t q p : ps_tasks s !! t = Some (PubSend q p) → publish_step b (s, w) (publish_sent b t q p (s, w))
| step_cancelled s w w' t pub : ps_tasks s !! t = Some pub → interrupted b pub w w' → publish_step b (s, w) (publish_cancelled t s, w')
| step_others s w w' : aq_others w w' → publish_step b (s, w) (s, w').
End Driver.

(** ** Laws of the client *)
Class AmqpLaws `{AmqpClient B} : Prop := {
  (* a call on a channel leaves the other channels alone; the call may close its own *)
  channel_opened conn returns w w' ch : aq_channel conn returns w = (w', Ok ch) →
    ch ∉ aq_open w ∧ aq_open w' = {[ch]} ∪ aq_open w ∧ aq_returning w' ch = returns;
  channel_refused conn returns w w' e : aq_channel conn returns w = (w', Err e) → aq_open w' = aq_open w;
  channel_closed ch w w' : aq_channel_close ch w = (w', Ok tt) → aq_open w' = aq_open w ∖ {[ch]};
  qos_channel ch n w : aq_open w ∖ {[ch]} ⊆ aq_open (aq_set_qos ch n w).1 ∧ aq_open (aq_set_qos ch n w).1 ⊆ aq_open w;
  declare_channel ch q durable w : aq_open w ∖ {[ch]} ⊆ aq_open (aq_declare_queue ch q durable w).1
    ∧ aq_open (aq_declare_queue ch q durable w).1 ⊆ aq_open w;
  iterate_channel ch q w : aq_open w ∖ {[ch]} ⊆ aq_open (aq_iterate ch q w).1 ∧ aq_open (aq_iterate ch q w).1 ⊆ aq_open w;
  iterator_channels it w : aq_open (aq_iterator_close it w).1 = aq_open w;
  qos_set ch n w w' : aq_set_qos ch n w = (w', Ok tt) → ch ∈ aq_open w' ∧ aq_prefetch w' ch = Some n;
  declare_answered ch q durable w w' : aq_declare_queue ch q durable w = (w', Ok tt) → ch ∈ aq_open w' ∧ aq_prefetch w' ch = aq_prefetch w ch;
  iterate_answered ch q w w' it : aq_iterate ch q w = (w', Ok it) → ch ∈ aq_open w' ∧ aq_prefetch w' ch = aq_prefetch w ch
    ∧ aq_durable w ⊆ aq_durable w';
  (* durable queues *)
  declared_durable ch q w w' : aq_declare_queue ch q true w = (w', Ok tt) → q ∈ aq_durable w';
  declare_keeps ch q durable w : aq_durable w ⊆ aq_durable (aq_declare_queue ch q durable w).1
    ∧ aq_stored (aq_declare_queue ch q durable w).1 = aq_stored w ∧ aq_returning (aq_declare_queue ch q durable w).1 = aq_returning w;
  publish_keeps ch q p persistent mandatory w : aq_durable (aq_publish ch q p persistent mandatory w).1 = aq_durable w
    ∧ aq_stored w ⊆ aq_stored (aq_publish ch q p persistent mandatory w).1
    ∧ aq_returning (aq_publish ch q p persistent mandatory w).1 = aq_returning w;
  publish_confirmed ch q p w w' : aq_publish ch q p true true w = (w', Ok tt) → q ∈ aq_durable w → aq_returning w ch = true →
    aq_stored w' = {[+ (q, p) +]} ⊎ aq_stored w;
  others_keep w w' : aq_others w w' → aq_durable w ⊆ aq_durable w' ∧ aq_stored w ⊆ aq_stored w' ∧ aq_returning w' = aq_returning w;
}.

(** ** Publication *)
Section Publication.
Context `{AmqpLaws B} (b : RabbitBackend).

Record publish_inv (s : PublishState) (w : B) : Prop := {
  pi_returning : aq_returning w (rb_channel b) = true;
  pi_declared : ps_declared s ⊆ aq_durable w;
  pi_confirmed : ps_confirmed s ⊆ aq_stored w;
  pi_lock t q p : ps_tasks s !! t = Some (PubDeclare q p) → ps_lock s = Some t;
  pi_sending t q p : ps_tasks s !! t = Some (PubSend q p) → q ∈ ps_declared s;
  pi_done t q p : ps_tasks s !! t = Some (PubDone q p) → (q, p) ∈ ps_confirmed s;
}.
Lemma publish_step_inv x y : publish_step b x y → publish_inv x.1 x.2 → publish_inv y.1 y.2.
Proof.
  intros Hstep Hi. destruct Hstep as [s w t q p Hn | s w t q p Ht Hl | s w t q p Ht | s w t q p Ht | s w w' t pub Ht Hw | s w w' Ho];
    destruct Hi as [Hr Hd Hc Hlk Hs Hdn]; cbn [fst snd] in *.
  - split; cbn [ps_declared ps_lock ps_tasks ps_confirmed goto publish_cancelled fst snd]; [done.. | | |]; intros t' q' p' [(? & ?) | (? & ?)]%lookup_insert_Some; naive_solver.
  - unfold publish_enter. case_bool_decide as Hq; split; cbn [ps_declared ps_lock ps_tasks ps_confirmed goto publish_cancelled fst snd]; try done;
      intros t' q' p' [(? & ?) | (? & Ht')]%lookup_insert_Some; simplify_eq; eauto. by rewrite (Hlk _ _ _ Ht') in Hl.
  - unfold publish_declared. cbn [fst snd]. destruct (declare_keeps (rb_channel b) q true w) as (Hk1 & Hk2 & Hk3).
    assert (∀ t' q' p', t ≠ t' → ps_tasks s !! t' ≠ Some (PubDeclare q' p')) as Hone.
    { intros t' q' p' Hne Ht'. pose proof (Hlk _ _ _ Ht). pose proof (Hlk _ _ _ Ht'). congruence. }
    destruct (aq_declare_queue _ _ _ _) as [w' [[] | e]] eqn:Hq; cbn [fst snd] in *; split; cbn [ps_declared ps_lock ps_tasks ps_confirmed goto publish_cancelled fst snd]; rewrite ?Hk2, ?Hk3; try done;
      try (intros t' q' p' [(? & ?) | (? & Ht')]%lookup_insert_Some; simplify_eq; try set_solver; solve [eauto | by destruct (Hone _ _ _ ltac:(done) Ht')]).
    + apply declared_durable in Hq. set_solver.
    + set_solver.
  - unfold publish_sent. cbn [fst snd]. destruct (publish_keeps (rb_channel b) q p true true w) as (Hk1 & Hk2 & Hk3).
    destruct (aq_publish _ _ _ _ _ _) as [w' [[] | e]] eqn:Hq; cbn [fst snd] in *; split; cbn [ps_declared ps_lock ps_tasks ps_confirmed goto publish_cancelled fst snd]; rewrite ?Hk1, ?Hk3; try done;
      try (intros t' q' p' [(? & ?) | (? & Ht')]%lookup_insert_Some; simplify_eq; rewrite ?gmultiset_elem_of_disj_union, ?gmultiset_elem_of_singleton; eauto; fail).
    + apply publish_confirmed in Hq; [| by eauto | done]. rewrite Hq. by apply gmultiset_disj_union_mono_l.
    + by transitivity (aq_stored w).
  - assert (Hk : ps_declared s ⊆ aq_durable w' ∧ ps_confirmed s ⊆ aq_stored w' ∧ aq_returning w' (rb_channel b) = true).
    { destruct pub; cbn in Hw; subst; try done.
      - destruct (declare_keeps (rb_channel b) queue true w) as (Hk1 & Hk2 & Hk3). destruct Hw as [-> | ->]; [done |]. rewrite Hk2, Hk3. set_solver.
      - destruct (publish_keeps (rb_channel b) queue payload true true w) as (Hk1 & Hk2 & Hk3). destruct Hw as [-> | ->]; [done |]. rewrite Hk1, Hk3.
        split; [done |]. split; [by transitivity (aq_stored w) | done]. }
    destruct Hk as (? & ? & ?). split; cbn [ps_declared ps_lock ps_tasks ps_confirmed goto publish_cancelled fst snd]; try done; intros t' q' p' [(? & ?) | (? & Ht')]%lookup_insert_Some; simplify_eq; eauto.
    pose proof (Hlk _ _ _ Ht'). rewrite bool_decide_false; congruence.
  - destruct (others_keep _ _ Ho) as (Hk1 & Hk2 & Hk3). split; cbn [ps_declared ps_lock ps_tasks ps_confirmed goto publish_cancelled fst snd]; rewrite ?Hk3; try done; [set_solver | by transitivity (aq_stored w)].
Qed.

(** C22: [publish] of RabbitMQ under any interleaving of tasks, failures and
    cancellations: every call that returned has its own copy of the message in a
    durable queue; a message is sent only to a queue this backend has declared;
    at most one task declares a queue at a time. *)
Theorem rabbit_publish_durable w0 s w :
  aq_returning w0 (rb_channel b) = true → rtc (publish_step b) (publish_init, w0) (s, w) →
  ps_confirmed s ⊆ aq_stored w
  ∧ (∀ t q p, ps_tasks s !! t = Some (PubDone q p) → (q, p) ∈ aq_stored w)
  ∧ (∀ t q p, ps_tasks s !! t = Some (PubSend q p) → q ∈ aq_durable w)
  ∧ (∀ t1 t2 q1 q2 p1 p2, ps_tasks s !! t1 = Some (PubDeclare q1 p1) → ps_tasks s !! t2 = Some (PubDeclare q2 p2) → t1 = t2).
Proof.
  intros Hr Hsteps.
  assert (Hi : publish_inv s w).
  { change (publish_inv (s, w).1 (s, w).2). assert (publish_inv (publish_init, w0).1 (publish_init, w0).2) as Hi.
    { split; cbn [ps_declared ps_lock ps_tasks ps_confirmed goto publish_cancelled fst snd]; try done; apply gmultiset_empty_subseteq. }
    revert Hi. induction Hsteps as [| x y z Hxy _ IH]; eauto using publish_step_inv. }
  destruct Hi as [_ Hd Hc Hlk Hs Hdn]. split; [done |]. split; [| split].
  - intros t q p Ht. by apply (gmultiset_elem_of_subseteq (ps_confirmed s)); [eapply Hdn |].
  - intros t q p Ht. specialize (Hs _ _ _ Ht). set_solver.
  - intros t1 t2 q1 q2 p1 p2 H1' H2'. pose proof (Hlk _ _ _ H1'). pose proof (Hlk _ _ _ H2'). congruence.
Qed.

(** A consumer owns one open channel; a failed one leaves none behind. *)
Lemma rabbit_consumer_channel q n w w' r :
  rabbit_consumer b q n w = (w', r) →
  match r with
  | Ok c => rc_channel c ∉ aq_open w ∧ aq_open w' = {[rc_channel c]} ∪ aq_open w
      ∧ aq_prefetch w' (rc_channel c) = Some n ∧ q ∈ aq_durable w'
  | Err _ => (∀ ch w, (aq_channel_close ch w).2 = Ok tt) → aq_open w' = aq_open w
  end.
Proof.
  unfold rabbit_consumer, or_cleanup. unprog. destruct (aq_channel _ _ w) as [w1 [ch | e]] eqn:Hch; cbn.
  2: { intros [= <- <-] _. by apply channel_refused in Hch. }
  destruct (channel_opened _ _ _ _ _ Hch) as (Hnew & Ho1 & _).
  assert (Hclose : ∀ w2, aq_open w1 ∖ {[ch]} ⊆ aq_open w2 → aq_open w2 ⊆ aq_open w1 →
    (∀ ch w, (aq_channel_close ch w).2 = Ok tt) → aq_open (aq_channel_close ch w2).1 = aq_open w).
  { intros w2 Ha Hb Hc. specialize (Hc ch w2). destruct (aq_channel_close ch w2) as [w3 r3] eqn:Hcl. simpl in *. subst.
    rewrite (channel_closed _ _ _ Hcl). set_solver. }
  destruct (qos_channel ch n w1) as [Hq1 Hq2]. destruct (aq_set_qos ch n w1) as [w2 [[] | e]] eqn:Hqos; cbn [fst] in *.
  2: { specialize (Hclose w2 Hq1 Hq2). destruct (aq_channel_close ch w2) as [w3 [[] | e3]] eqn:Hcl; cbn in *; intros [= <- <-]; auto. }
  destruct (declare_channel ch q true w2) as [Hd1 Hd2]. destruct (aq_declare_queue ch q true w2) as [w3 [[] | e]] eqn:Hdec; cbn [fst] in *.
  2: { specialize (Hclose w3 ltac:(set_solver) ltac:(set_solver)). destruct (aq_channel_close ch w3) as [w4 [[] | e3]] eqn:Hcl; cbn in *; intros [= <- <-]; auto. }
  destruct (iterate_channel ch q w3) as [Hi1 Hi2]. destruct (aq_iterate ch q w3) as [w4 [it | e]] eqn:Hit; cbn [fst] in *.
  2: { specialize (Hclose w4 ltac:(set_solver) ltac:(set_solver)). destruct (aq_channel_close ch w4) as [w5 [[] | e3]] eqn:Hcl; cbn in *; intros [= <- <-]; auto. }
  intros [= <- <-]. cbn. destruct (iterate_answered _ _ _ _ _ Hit) as (Hin & Hp & Hdu), (declare_answered _ _ _ _ _ Hdec) as (_ & Hp2), (qos_set _ _ _ _ Hqos) as (_ & Hp1).
  pose proof (declared_durable _ _ _ _ Hdec) as Hdur. split; [done |]. split; [clear -Ho1 Hq1 Hq2 Hd1 Hd2 Hi1 Hi2 Hnew Hin; set_solver |].
  split; [by rewrite Hp, Hp2 | by apply Hdu].
Qed.
(** Closing closes the channel even when the iterator cannot be closed, and no
    message is read afterwards. *)
Lemma rabbit_consumer_closed c closed w w' closed' r :
  rabbit_consumer_aclose c (closed, w) = ((closed', w'), r) →
  closed' = true ∧ w' = (aq_channel_close (rc_channel c) (aq_iterator_close (rc_iterator c) w).1).1
  ∧ ((aq_channel_close (rc_channel c) (aq_iterator_close (rc_iterator c) w).1).2 = Ok tt → aq_open w' = aq_open w ∖ {[rc_channel c]})
  ∧ rabbit_receive c (closed', w') = ((closed', w'), Err QueueError).
Proof.
  unfold rabbit_consumer_aclose, finally. pose proof (iterator_channels (rc_iterator c) w) as Hit.
  destruct (aq_iterator_close _ w) as [w1 r1]. cbn [fst] in Hit. destruct (aq_channel_close _ w1) as [w2 [[] | e]] eqn:Hc; intros [= <- <- <-]; cbn.
  - repeat split; [by rewrite Hc |]. intros _. by rewrite (channel_closed _ _ _ Hc), Hit.
  - repeat split; [by rewrite Hc | by rewrite Hc].
Qed.
End Publication.

(** ** A concrete broker *)
Record RabbitWorld := mk_rworld {
  rw_open : gset channel; rw_durable : gset pystr; rw_stored : gmultiset (pystr * pybytes);
  rw_returning : gmap channel bool; rw_prefetch : gmap channel Z;
}.
Definition on_channel {A} (ch : channel) (m : io RabbitWorld A) : io RabbitWorld A :=
  λ w, if decide (ch ∈ rw_open w) then m w else (w, Err RuntimeError).
Definition open_channel (returns : bool) (w : RabbitWorld) : RabbitWorld :=
  let ch := fresh (rw_open w) in mk_rworld ({[ch]} ∪ rw_open w) (rw_durable w) (rw_stored w) (<[ch := returns]> (rw_returning w)) (rw_prefetch w).
Definition demo_store (q : pystr) (p : pybytes) (mandatory_returns : bool) : io RabbitWorld unit :=
  λ w, if decide (q ∈ rw_durable w)
       then (mk_rworld (rw_open w) (rw_durable w) ({[+ (q, p) +]} ⊎ rw_stored w) (rw_returning w) (rw_prefetch w), Ok tt)
       else (w, if mandatory_returns then Err RuntimeError else Ok tt).
#[export] Instance demo_amqp : AmqpClient RabbitWorld := {|
  aq_connect _ := ret 0;
  aq_connection_close _ := ret tt;
  aq_channel _ returns w := (open_channel returns w, Ok (fresh (rw_open w)));
  aq_channel_close ch := modify (λ w, mk_rworld (rw_open w ∖ {[ch]}) (rw_durable w) (rw_stored w) (rw_returning w) (rw_prefetch w));
  aq_set_qos ch n := on_channel ch (modify (λ w, mk_rworld (rw_open w) (rw_durable w) (rw_stored w) (rw_returning w) (<[ch := n]> (rw_prefetch w))));
  aq_declare_queue ch q durable := on_channel ch (modify (λ w, mk_rworld (rw_open w)
    (if durable : bool then {[q]} ∪ rw_durable w else rw_durable w) (rw_stored w) (rw_returning w) (rw_prefetch w)));
  aq_iterate ch _ := on_channel ch (ret 0);
  aq_next _ := raise StopAsyncIteration;
  aq_iterator_close _ := ret tt;
  aq_ack ch _ := on_channel ch (ret tt);
  aq_publish ch q p _ mandatory w := on_channel ch (demo_store q p (mandatory && default false (rw_returning w !! ch))) w;
  aq_others w w' := rw_durable w ⊆ rw_durable w' ∧ rw_stored w ⊆ rw_stored w' ∧ rw_returning w' = rw_returning w;
  aq_open := rw_open; aq_durable := rw_durable; aq_stored := rw_stored;
  aq_returning w ch := default false (rw_returning w !! ch);
  aq_prefetch w ch := rw_prefetch w !! ch;
|}.
Lemma demo_store_stored q p r w : rw_stored w ⊆ rw_stored (demo_store q p r w).1.
Proof. unfold demo_store. case_decide; cbn [fst rw_stored]; [apply gmultiset_disj_union_subseteq_r | done]. Qed.
#[export] Instance demo_amqp_laws : AmqpLaws (B := RabbitWorld).
Proof.
  split; cbn [aq_channel aq_channel_close aq_set_qos aq_declare_queue aq_iterate aq_iterator_close aq_publish aq_others aq_open aq_durable aq_stored aq_returning aq_prefetch demo_amqp];
    unfold on_channel, modify, ret.
  - intros conn returns w w' ch [= <- <-]. split; [apply is_fresh |]. split; [done |]. cbn. by rewrite lookup_insert_eq.
  - done.
  - by intros ch w w' [= <-].
  - intros ch n w. case_decide; cbn; set_solver.
  - intros ch q durable w. case_decide; cbn; set_solver.
  - intros ch q w. case_decide; cbn; set_solver.
  - done.
  - intros ch n w w'. case_decide; intros [= <-]. cbn. by rewrite lookup_insert_eq.
  - intros ch q durable w w'. case_decide; by intros [= <-].
  - intros ch q w w' it. case_decide; by intros [= <- <-].
  - intros ch q w w'. case_decide; intros [= <-]. cbn. set_solver.
  - intros ch q durable w. case_decide; cbn; [| done]. by destruct durable; set_solver.
  - intros ch q p persistent mandatory w. case_decide; [| done]. split; [| split; [apply demo_store_stored |]]; unfold demo_store; by case_decide.
  - intros ch q p w w'. case_decide; [| done]. unfold demo_store. intros Hs Hq _. rewrite decide_True in Hs by done. by injection Hs as <-.
  - intros w w' (Hd & Hs & Hr). by rewrite Hr.
Qed.

Definition demo_rabbit : RabbitBackend := mk_rabbit_backend 0 0.
Definition demo_rabbit_world : RabbitWorld := mk_rworld {[0]} ∅ ∅ {[0 := true]} ∅.
Definition demo_message : pystr * pybytes := (u "emails", [Byte.x7b; Byte.x7d]).
Definition demo_published : PublishState * RabbitWorld :=
  let q := demo_message.1 in let p := demo_message.2 in
  publish_sent demo_rabbit 1 q p (publish_declared demo_rabbit 1 q p (publish_enter 1 q p (goto 1 (PubWait q p) publish_init), demo_rabbit_world)).
Lemma demo_rabbit_run : rtc (publish_step demo_rabbit) (publish_init, demo_rabbit_world) demo_published.
Proof.
  eapply rtc_l; [apply (step_publish _ _ _ 1 demo_message.1 demo_message.2); reflexivity |].
  eapply rtc_l; [apply (step_enter _ _ _ 1 demo_message.1 demo_message.2); reflexivity |].
  eapply rtc_l; [apply (step_declared _ _ _ 1 demo_message.1 demo_message.2); reflexivity |].
  eapply rtc_l; [| apply rtc_refl]. unfold demo_published.
  destruct (publish_declared demo_rabbit 1 demo_message.1 demo_message.2 (publish_enter 1 demo_message.1 demo_message.2 (goto 1 (PubWait demo_message.1 demo_message.2) publish_init), demo_rabbit_world)) as [s w] eqn:Hd.
  apply (step_sent _ _ _ 1). vm_compute in Hd. injection Hd as <- _. reflexivity.
Qed.
Lemma rabbit_publish_durable_witness :
  ps_tasks demo_published.1 !! 1 = Some (PubDone demo_message.1 demo_message.2) ∧ (demo_message.1, demo_message.2) ∈ aq_stored demo_published.2.
Proof.
  assert (Ht : ps_tasks demo_published.1 !! 1 = Some (PubDone demo_message.1 demo_message.2)) by (vm_compute; reflexivity).
  split; [exact Ht |].
  destruct (rabbit_publish_durable demo_rabbit demo_rabbit_world demo_published.1 demo_published.2) as (_ & Hdone & _).
  - vm_compute; reflexivity.
  - exact demo_rabbit_run.
  - exact (Hdone 1 _ _ Ht).
Defined.
