(* ===== verification/WorkerHost.v ===== *)
(** * WorkerHost: the worker's queue, its executor and the record of an execution

    Models [WorkerHost._consume] of [bootstrap/worker/application.py], which hands
    one queue to the queue manager, the executor and the runner, and
    [_log_execution_result] of [interfaces/worker/executor.py].  [run] is the
    runner with the executor: Runner and Worker model them. *)

From Stdlib Require Import Floats.SpecFloat.
From S2P Require Import Prelude Text Errors PyVal Floats Lazy Runtime QueueJob QueueMessage QueueManager Worker DatabaseEngine.
Local Open Scope prog_scope.

Section Consume.
Context {W Ctx : Type} `{EnvelopeJson} (self : @manager_ref W) (default_name : option pystr) (configs : pydict QueueConnection)
  (resources : pydict (io W (QueueBackend W))) (worker_concurrency : Z).
(** [runner.run(consumer, executor, stop)] for [WorkerRunner(concurrency)] and [JobExecutor(connection, queue)]. *)
Context (run : Z → pystr → pystr → QueueConsumer W → io W unit).

Definition worker_consume (connection queue : option pystr) (concurrency : option Z) : io W unit :=
  let* name := qm_resolve_name self default_name resources connection in
  let* target := queue_name self default_name configs resources (Some name) queue in
  let count := default worker_concurrency concurrency in
  consume self default_name configs resources (Some name) (Some target) (VInt count) (λ consumer, run count name target consumer).
End Consume.

(** ** The record of an execution

    [duration_ms] is rounded from the clock readings [started_at] and [now]. *)
Record execution_log := mk_execution_log { xl_level : log_level; xl_details : pydict pyval }.
Definition optional_str (s : option pystr) : pyval := match s with Some s => VStr s | None => VNone end.
Definition log_execution_result (message : option MessageEnvelope) (result : ExecutionResult) (connection queue : pystr)
    (started_at now : spec_float) : execution_log :=
  let details :=
    [(u "job_id", optional_str (option_map (λ m, uuid_str (me_job_id m)) message)); (u "queue_name", VStr queue);
     (u "queue_connection", VStr connection); (u "attempts", VInt (er_attempts result));
     (u "failure_reason", optional_str (er_failure_reason result));
     (u "correlation_id", optional_str (message ≫= me_correlation_id)); (u "duration_ms", VFloat (elapsed_ms started_at now))] in
  let failed :=
    match er_error_type result with
    | Some error_type => [(u "error_type", VStr error_type); (u "stacktrace", VTuple (map frame_value (er_stacktrace result)))]
    | None => []
    end in
  mk_execution_log (match er_failure_reason result with Some _ => LogError | None => LogInfo end) (details ++ failed).

Section Properties.
Context {W Ctx : Type} `{EnvelopeJson} (self : @manager_ref W) (default_name : option pystr) (configs : pydict QueueConnection)
  (resources : pydict (io W (QueueBackend W))) (worker_concurrency : Z) (run : Z → pystr → pystr → QueueConsumer W → io W unit).

Lemma resolved_some name w w' n : qm_resolve_name self default_name resources (Some name) w = (w', Ok n) → n = name.
Proof.
  unfold qm_resolve_name. rewrite bind_ok. intros (w3 & [] & _ & Hn). case_bool_decide; [| done]. unfold ret in Hn. by injection Hn as _ ->.
Qed.
Lemma queue_name_of name queue w w' target : queue_name self default_name configs resources (Some name) queue w = (w', Ok target) →
  ∃ config, dict_get configs name = Some config ∧ target = default (qn_default_queue config) queue ∧ validate_queue_name (VStr target) = Ok target.
Proof.
  unfold queue_name, config_of, lift. rewrite bind_ok. intros (w1 & n & ->%resolved_some & Hg). rewrite bind_ok in Hg.
  destruct Hg as (w2 & config & Hc & Ht).
  destruct (dict_get configs name) as [config' |] eqn:Hd; [| done]. unfold ret in Hc. injection Hc as _ ->. injection Ht as _ Ht.
  destruct (validate_queue_name (VStr (default (qn_default_queue config) queue))) as [t | e] eqn:Hv; [| done]. injection Ht as ->.
  apply validate_queue_name_ok in Hv as Ht. exists config. split; [done |].
  assert (Ht' : target = default (qn_default_queue config) queue) by (destruct Ht as [[= ->] _]; done). split; [done |]. by rewrite Ht' in Hv |- *.
Qed.

(** A worker that returns ran on one queue: the consumer was opened for the very
    queue the executor reports, a legal one, with the configured number of slots when
    none was asked for, and the runner had returned. *)
Theorem worker_consume_correct connection queue concurrency w w' :
  worker_consume self default_name configs resources worker_concurrency run connection queue concurrency w = (w', Ok tt) →
  ∃ name config target slots backend consumer w1 w2 w3 w4,
    dict_get configs name = Some config ∧ target = default (qn_default_queue config) queue ∧ validate_queue_name (VStr target) = Ok target
    ∧ validate_worker_concurrency (VInt (default worker_concurrency concurrency)) = Ok slots
    ∧ qb_consumer backend target slots w1 = (w2, Ok consumer)
    ∧ run (default worker_concurrency concurrency) name target consumer w3 = (w4, Ok tt).
Proof.
  unfold worker_consume. rewrite bind_ok. intros (wa & name & _ & Hg). rewrite bind_ok in Hg. destruct Hg as (wb & target & Hq & Hg).
  apply queue_name_of in Hq as (config & Hd & Ht & Hv). unfold consume in Hg. rewrite bind_ok in Hg. destruct Hg as (wc & consumer & Ho & Hg).
  rewrite bind_ok in Hg. destruct Hg as (wd & [] & _ & Hg).
  assert (Hrun : ∃ w4, run (default worker_concurrency concurrency) name target consumer wd = (w4, Ok tt)).
  { unfold finally in Hg. destruct (run _ name target consumer wd) as [w4 [[] | e]]; [by exists w4 |]. by destruct (release_consumer self consumer w4) as [w5 [] ]. }
  destruct Hrun as [w4 Hrun]. unfold open_consumer in Ho. rewrite bind_ok in Ho. destruct Ho as (w5 & n & ->%resolved_some & Ho).
  rewrite bind_ok in Ho. destruct Ho as (w6 & config' & _ & Ho). rewrite bind_ok in Ho. destruct Ho as (w7 & t & Htt & Ho).
  unfold lift in Htt. change (default (qn_default_queue config') (Some target)) with target in Htt. setoid_rewrite Hv in Htt. injection Htt as _ <-.
  rewrite bind_ok in Ho. destruct Ho as (w8 & slots & Hs & Ho). rewrite bind_ok in Ho. destruct Ho as (w9 & backend & _ & Ho).
  rewrite bind_ok in Ho. destruct Ho as (w10 & consumer' & Hc & Ho).
  assert (consumer' = consumer) as ->.
  { rewrite bind_ok in Ho. destruct Ho as (w11 & [] & _ & Ho); [by rewrite bind_ok in Ho; destruct Ho as (? & ? & _ & ?) |]. unfold ret in Ho. by injection Ho as _ ->. }
  assert (Hcons : qb_consumer backend target slots w9 = (w10, Ok consumer)).
  { unfold catch in Hc. destruct (qb_consumer backend target slots w9) as [w11 [c | e]]; [exact Hc |]. by destruct (is_queue_error e), (is_exception e). }
  assert (Hslots : validate_worker_concurrency (VInt (default worker_concurrency concurrency)) = Ok slots).
  { unfold lift in Hs. injection Hs as _ Hs. destruct (validate_worker_concurrency _) as [k | e]; [by injection Hs as -> | done]. }
  exists name, config, target, slots, backend, consumer, w9, w10, wd, w4. done.
Qed.
(** The record of an execution is an error exactly when the execution failed, and a
    successful one ([result_of] without a reason) carries no stack. *)
Lemma execution_log_level message result connection queue started_at now :
  xl_level (log_execution_result message result connection queue started_at now) = LogError ↔ er_failure_reason result ≠ None.
Proof. unfold log_execution_result. simpl. destruct (er_failure_reason result); naive_solver. Qed.
Lemma execution_log_stack message result connection queue started_at now :
  u "stacktrace" ∈ dict_keys (xl_details (log_execution_result message result connection queue started_at now))
  ↔ er_error_type result ≠ None.
Proof.
  unfold log_execution_result, dict_keys. cbn [xl_details]. rewrite map_app. destruct (er_error_type result) as [t |].
  - split; [done | intros _]. apply elem_of_app. right. cbn. set_solver.
  - split; [| done]. intros Hin. exfalso. rewrite app_nil_r in Hin.
    apply (bool_decide_eq_true_2 (_ ∈ map u ["job_id"; "queue_name"; "queue_connection"; "attempts"; "failure_reason"; "correlation_id"; "duration_ms"])) in Hin.
    vm_compute in Hin. discriminate.
Qed.
End Properties.
