(* ===== verification/Clients.v ===== *)
(** * Clients: how the clients of caches and queues are made, checked and closed

    Models [infrastructure/cache/connections/], the factories of
    [cache/providers/], [get], [ping] and [is_initialized] of the cache manager,
    [queue/providers/registry.py], the options of the Redis and Kafka clients,
    and the producer and the consumers of [KafkaBackend].  The libraries are the
    classes [CacheDrivers] and [KafkaLibrary]; an option that is not set is
    [VNone]. *)

From S2P Require Import Prelude Text PyVal Errors Lazy NamedResources Settings VectorManager RabbitMQ.
Local Open Scope prog_scope.

(** ** Options *)
Record RedisOptions := mk_redis_options {
  ro_host : pyval; ro_port : pyval; ro_db : pyval; ro_username : pyval; ro_password : pyval; ro_ssl : pyval; ro_max_connections : pyval;
  ro_protocol : option Z; ro_connect_timeout : pyval; ro_socket_timeout : pyval;
}.
Record MemcachedOptions := mk_memcached_options {
  mco_host : pyval; mco_port : pyval; mco_username : pyval; mco_password : pyval; mco_ssl_context : bool; mco_min_connections : pyval;
  mco_max_connections : pyval; mco_connect_timeout : pyval; mco_read_timeout : pyval; mco_blocking_timeout : pyval;
}.
Record KafkaOptions := mk_kafka_options {
  ko_bootstrap_servers : pyval; ko_security_protocol : pyval; ko_ssl_context : bool; ko_sasl_mechanism : pyval;
  ko_username : pyval; ko_password : pyval;
}.
Definition redis_client_options (protocol : option Z) (timeout : string) (cfg : pydict pyval) : RedisOptions :=
  mk_redis_options (value cfg "host") (value cfg "port") (value cfg "database") (value cfg "username") (value cfg "password") (value cfg "ssl")
    (value cfg "max_connections") protocol (value cfg "connect_timeout") (value cfg timeout).
Definition redis_cache_options : pydict pyval → RedisOptions := redis_client_options None "read_timeout".
Definition redis_queue_options : pydict pyval → RedisOptions := redis_client_options (Some 2%Z) "command_timeout".
Definition memcached_options (cfg : pydict pyval) : MemcachedOptions :=
  mk_memcached_options (value cfg "host") (value cfg "port") (value cfg "username") (value cfg "password") (truth (value cfg "ssl"))
    (value cfg "min_connections") (value cfg "max_connections") (value cfg "connect_timeout") (value cfg "read_timeout") (value cfg "blocking_timeout").
(** [needle in s] *)
Fixpoint str_in (needle s : pystr) : bool := startswith needle s || match s with [] => false | _ :: s => str_in needle s end.
Definition client_options (cfg : pydict pyval) : KafkaOptions :=
  mk_kafka_options (value cfg "bootstrap_servers") (value cfg "security_protocol")
    (match value cfg "security_protocol" with VStr p => str_in (u "SSL") p | _ => false end) (value cfg "sasl_mechanism") (value cfg "username")
    (if truth (value cfg "password") then value cfg "password" else VNone).

(** ** Cache connections *)
Class CacheDrivers (W : Type) := {
  cdr_import : pystr → io W unit;                          (* the modules of a driver *)
  cdr_redis : RedisOptions → io W nat; cdr_memcached : MemcachedOptions → io W nat;
  cdr_ping : nat → io W pyval;                             (* redis.ping() *)
  cdr_version : nat → io W pyval;                          (* memcached.version() *)
  cdr_redis_close : nat → io W unit; cdr_pool_close : nat → io W unit;
}.
Inductive CacheConnection := RedisCacheConnection (client : nat) | MemcachedCacheConnection (client : nat).
(** [ManagedCacheResource]: its connection; storage and client wrap it. *)
Record ManagedCacheResource := mk_managed_cache { mcr_connection : CacheConnection; mcr_redis_storage : bool }.

Section Cache.
Context {W : Type} `{CacheDrivers W}.

(** [try: m; except Exception as error: raise CacheConnectionError] *)
Definition or_connection_error {A} (m : io W A) : io W A := catch m (λ e, raise (if is_exception e then CacheConnectionError else e)).
Definition connection_ping (c : CacheConnection) : io W bool :=
  or_connection_error (match c with
    | RedisCacheConnection client => let* v := cdr_ping client in ret (truth v)
    | MemcachedCacheConnection client => let* v := cdr_version client in ret (truth v)
    end).
Definition connection_aclose (c : CacheConnection) : io W unit :=
  or_connection_error (match c with RedisCacheConnection client => cdr_redis_close client | MemcachedCacheConnection client => cdr_pool_close client end).

(** [RedisCacheProvider._create], [MemcachedCacheProvider._create]: only the
    import is guarded. *)
Definition provider_import (driver : pystr) : io W unit :=
  catch (cdr_import driver) (λ e, raise (match e with ModuleNotFoundError => CacheConfigurationError | _ => e end)).
Definition redis_provider_create (cfg : pydict pyval) : io W ManagedCacheResource :=
  provider_import (u "redis");;;
  let* client := cdr_redis (redis_cache_options cfg) in
  ret (mk_managed_cache (RedisCacheConnection client) true).
Definition memcached_provider_create (cfg : pydict pyval) : io W ManagedCacheResource :=
  provider_import (u "memcached");;;
  let* client := cdr_memcached (memcached_options cfg) in
  ret (mk_managed_cache (MemcachedCacheConnection client) false).

(** The manager's lazy resources are named resources. *)
Context (names : list pystr) (factory : pystr → io W ManagedCacheResource) (resolve : option pystr → result exn pystr).
Definition managed_get : option pystr → io (named ManagedCacheResource * W) ManagedCacheResource := named_get factory resolve.
Definition managed_ping (name : option pystr) : io (named ManagedCacheResource * W) bool :=
  let* r := managed_get name in in_env (connection_ping (mcr_connection r)).
Definition managed_is_initialized (name : option pystr) (w : named ManagedCacheResource * W) : result exn bool :=
  let? n := resolve name in Ok (bool_decide (n ∈ names) && resource_initialized n w).
Definition managed_aclose : io (named ManagedCacheResource * W) unit := named_aclose names (λ _ r, connection_aclose (mcr_connection r)).
End Cache.

(** ** Kafka's producer and consumers *)
Record ProducerOptions := mk_producer_options { pro_client : KafkaOptions; pro_enable_idempotence : bool; pro_acks : pystr }.
Record ConsumerOptions := mk_consumer_options {
  cno_client : KafkaOptions; cno_group_id : pyval; cno_enable_auto_commit : bool; cno_auto_offset_reset : pystr; cno_max_poll_interval_ms : pyval;
  cno_topics : list pystr;
}.
Class KafkaLibrary (W : Type) := {
  kl_producer : ProducerOptions → io W nat; kl_consumer : ConsumerOptions → io W nat;
  kl_start : nat → io W unit; kl_stop : nat → io W unit;
  kl_send_and_wait : nat → pystr → pybytes → io W unit;
}.
Section Kafka.
Context {W : Type} `{KafkaLibrary W} (cfg : pydict pyval).

Definition create_producer : io W nat :=
  let* p := kl_producer (mk_producer_options (client_options cfg) true (u "all")) in
  or_cleanup (kl_start p) (kl_stop p);;;
  ret p.
(** [KafkaBackend]: the world with the producer's lazy resource. *)
Definition producer_ref : lazy_ref (lazy_fields nat * W) nat := mk_ref fst (λ f w, (f, w.2)).
Definition in_backend {A} (m : io W A) : io (lazy_fields nat * W) A := λ w, let '(w', r) := m w.2 in ((w.1, w'), r).
Definition kafka_publish (queue : pystr) (payload : pybytes) : io (lazy_fields nat * W) unit :=
  let* p := lazy_get producer_ref (in_backend create_producer) in
  in_backend (kl_send_and_wait p queue payload).
Definition kafka_backend_aclose : io (lazy_fields nat * W) unit := lazy_aclose producer_ref (λ p, in_backend (kl_stop p)).
Definition kafka_consumer_options (queue : pystr) : ConsumerOptions :=
  mk_consumer_options (client_options cfg) (value cfg "group") false (u "earliest") (value cfg "max_poll_interval_ms") [queue].
Definition kafka_consumer (queue : pystr) : io W nat :=
  let* c := kl_consumer (kafka_consumer_options queue) in
  or_cleanup (kl_start c) (kl_stop c);;;
  ret c.

Inductive kafka_call := KafkaPublish (queue : pystr) (payload : pybytes) | KafkaClose.
Definition kafka_call_run (c : kafka_call) : io (lazy_fields nat * W) unit :=
  match c with KafkaPublish queue payload => kafka_publish queue payload | KafkaClose => kafka_backend_aclose end.
Fixpoint kafka_calls (cs : list kafka_call) (w : lazy_fields nat * W) : (lazy_fields nat * W) * list (kafka_call * bool) :=
  match cs with
  | [] => (w, [])
  | c :: cs => let '(w1, r) := kafka_call_run c w in let '(w2, l) := kafka_calls cs w1 in (w2, (c, is_ok r) :: l)
  end.

(** What is relied on: [running] are the clients that hold connections, [stored]
    the messages all replicas of a topic have.  A client that fails to start may
    still hold connections; stopping releases them, even when it raises. *)
Class KafkaLibraryLaws (running : W → gset nat) (stored : W → gset (pystr * pybytes)) : Prop := {
  kl_producer_new o w w' p : kl_producer o w = (w', Ok p) → p ∉ running w;
  kl_producer_law o w : running (kl_producer o w).1 = running w ∧ stored (kl_producer o w).1 = stored w;
  kl_start_law p w : running w ⊆ running (kl_start p w).1 ∧ running (kl_start p w).1 ⊆ {[p]} ∪ running w
    ∧ stored w ⊆ stored (kl_start p w).1 ∧ (is_ok (kl_start p w).2 = true → p ∈ running (kl_start p w).1);
  kl_stop_law p w : running (kl_stop p w).1 = running w ∖ {[p]} ∧ stored w ⊆ stored (kl_stop p w).1;
  kl_send_law p q m w : running (kl_send_and_wait p q m w).1 = running w ∧ stored w ⊆ stored (kl_send_and_wait p q m w).1
    ∧ (is_ok (kl_send_and_wait p q m w).2 = true → (q, m) ∈ stored (kl_send_and_wait p q m w).1);
}.
End Kafka.

(** ** [create_backend] *)
Inductive queue_backend := BackendRedis (client : nat) (cfg : pydict pyval) | BackendKafka (cfg : pydict pyval) | BackendRabbit (b : RabbitBackend).
Definition create_backend {W} (import : queue_kind → io W unit) (redis : RedisOptions → io W nat) (rabbit : pydict pyval → io W RabbitBackend)
    (k : queue_kind) (cfg : pydict pyval) : io W queue_backend :=
  catch
    (import k;;;
     match k with
     | RedisQueue => let* client := redis (redis_queue_options cfg) in ret (BackendRedis client cfg)
     | KafkaQueue => ret (BackendKafka cfg)
     | RabbitMQQueue => let* b := rabbit cfg in ret (BackendRabbit b)
     end)
    (λ e, raise (match e with ModuleNotFoundError => QueueConfigurationError | _ => e end)).

(** ** Proofs *)

Section KafkaProofs.
Context {W : Type} `{KafkaLibrary W} (cfg : pydict pyval) (running : W → gset nat) (stored : W → gset (pystr * pybytes)).
Context `{!KafkaLibraryLaws running stored} (w0 : W).

Definition value_set (f : lazy_fields nat) : gset nat := match lf_value f with Some p => {[p]} | None => ∅ end.
Record backend_inv (s : lazy_fields nat * W) : Prop := {
  bi_kept : running w0 ⊆ running s.2;
  bi_owned : running s.2 ⊆ running w0 ∪ value_set s.1;
  bi_fresh p : lf_value s.1 = Some p → p ∉ running w0;
}.
Lemma create_producer_law w w' r : create_producer cfg w = (w', r) →
  stored w ⊆ stored w'
  ∧ match r with
    | Ok p => p ∉ running w ∧ running w ⊆ running w' ∧ running w' ⊆ {[p]} ∪ running w
    | Err _ => running w' = running w
    end.
Proof.
  unfold create_producer, or_cleanup. unfold bind, catch, ret, raise.
  match goal with |- context [kl_producer ?o w] => pose proof (kl_producer_law o w) as [Hr1 Hs1]; pose proof (kl_producer_new o w) as Hnew end.
  destruct (kl_producer _ w) as [w1 [p | e]]; cbn [fst] in *; [| intros [= <- <-]; by rewrite Hr1, Hs1].
  specialize (Hnew w1 p eq_refl). pose proof (kl_start_law p w1) as (Ha & Hb & Hc & _).
  destruct (kl_start p w1) as [w2 [[] | e]]; cbn [fst] in *.
  - intros [= <- <-]. rewrite <- Hr1, <- Hs1. rewrite <- Hr1 in Hnew. done.
  - pose proof (kl_stop_law p w2) as [Hd He]. destruct (kl_stop p w2) as [w3 r3]; cbn [fst] in *.
    assert (Hend : stored w ⊆ stored w3 ∧ running w3 = running w) by (rewrite <- Hs1, <- Hr1; rewrite <- Hr1 in Hnew; set_solver).
    destruct r3; intros [= <- <-]; apply Hend.
Qed.
Lemma kafka_call_inv c s s' r : backend_inv s → kafka_call_run cfg c s = (s', r) →
  backend_inv s' ∧ stored s.2 ⊆ stored s'.2
  ∧ (∀ q m, c = KafkaPublish q m → is_ok r = true → (q, m) ∈ stored s'.2)
  ∧ (c = KafkaClose → is_ok r = true → s'.1 = mk_fields None true)
  ∧ (s.1 = mk_fields None true → s'.1 = mk_fields None true ∧ ∀ q m, c = KafkaPublish q m → is_ok r = false).
Proof.
  intros Hi. destruct s as [[v closed] w], Hi as [H1 H2 H3]. cbn [fst snd lf_value] in *. unfold value_set in H2. cbn [lf_value] in H2.
  destruct c as [q m |]; cbn [kafka_call_run].
  - unfold kafka_publish, lazy_get, lazy_refuse_closed, lazy_put, in_backend, read, bind, ret, raise, modify. cbn [ref_get ref_set producer_ref fst snd lf_closed lf_value].
    destruct closed; [by intros [= <- <-] |]. destruct v as [p |]; cbn [fst snd lf_closed lf_value].
    + pose proof (kl_send_law p q m w) as (Ha & Hb & Hc). destruct (kl_send_and_wait p q m w) as [w' r']; cbn [fst snd] in *. intros [= <- <-].
      split; [split; cbn; by rewrite ?Ha |]. cbn. split; [done |]. split; [intros ? ? [= <- <-]; exact Hc |]. done.
    + destruct (create_producer cfg w) as [w1 r1] eqn:Hp. apply create_producer_law in Hp as [Hs1 Hr1]. destruct r1 as [p | e]; cbn [fst snd lf_closed lf_value].
      * destruct Hr1 as (Hn & Hk & Hu). pose proof (kl_send_law p q m w1) as (Ha & Hb & Hc). destruct (kl_send_and_wait p q m w1) as [w' r']; cbn [fst snd] in *.
        intros [= <- <-]. split; [split; cbn; rewrite ?Ha; [set_solver.. |]; intros ? [= <-]; set_solver |]. cbn. split; [by transitivity (stored w1) |].
        split; [intros ? ? [= <- <-]; exact Hc |]. done.
      * intros [= <- <-]. split; [split; cbn; rewrite ?Hr1; done |]. cbn. split; [done |]. split; [done |]. done.
  - unfold kafka_backend_aclose, lazy_aclose, lazy_begin_close, lazy_put, in_backend, read, bind, ret, modify. cbn [ref_get ref_set producer_ref fst snd lf_closed lf_value].
    destruct v as [p |]; cbn [fst snd].
    + pose proof (kl_stop_law p w) as [Ha Hb]. specialize (H3 p eq_refl). destruct (kl_stop p w) as [w' [[] | e]]; cbn [fst snd] in *; intros [= <- <-].
      * split; [split; cbn; rewrite ?Ha; [set_solver.. | done] |]. done.
      * split; [split; cbn; rewrite ?Ha; [set_solver.. |]; by intros ? [= <-] |]. done.
    + intros [= <- <-]. split; [by split |]. done.
Qed.
Lemma kafka_calls_inv cs s s' l : backend_inv s → kafka_calls cfg cs s = (s', l) →
  backend_inv s' ∧ stored s.2 ⊆ stored s'.2
  ∧ (∀ q m, (KafkaPublish q m, true) ∈ l → (q, m) ∈ stored s'.2)
  ∧ ((KafkaClose, true) ∈ l ∨ s.1 = mk_fields None true → s'.1 = mk_fields None true)
  ∧ (s.1 = mk_fields None true → ∀ q m, (KafkaPublish q m, true) ∉ l).
Proof.
  revert s s' l. induction cs as [| c cs IH]; intros s s' l Hi; cbn [kafka_calls].
  - intros [= <- <-]. split; [done |]. split; [done |]. split; [by intros ? ? ?%elem_of_nil |]. split; [by intros [?%elem_of_nil |] | by intros _ ? ? ?%elem_of_nil].
  - destruct (kafka_call_run cfg c s) as [s1 r] eqn:Hc. destruct (kafka_calls cfg cs s1) as [s2 l2] eqn:Hcs. intros [= <- <-].
    destruct (kafka_call_inv c s s1 r Hi Hc) as (Hi1 & Hs1 & Hp1 & Hc1 & Hd1). destruct (IH s1 s2 l2 Hi1 Hcs) as (Hi2 & Hs2 & Hp2 & Hc2 & Hd2).
    split; [done |]. split; [by transitivity (stored s1.2) |]. split; [| split].
    + intros q m Hin. apply elem_of_cons in Hin as [Heq | Hin]; [| by apply Hp2]. injection Heq as Heq Hr. apply Hs2. by apply (Hp1 q m).
    + intros Hor. apply Hc2. destruct Hor as [Hin | Hclosed]; [| right; by apply Hd1].
      apply elem_of_cons in Hin as [Heq | Hin]; [| by left]. injection Heq as Heq Hr. right. by apply Hc1.
    + intros Hclosed q m Hin. apply Hd1 in Hclosed as [Hclosed Hno]. apply elem_of_cons in Hin as [Heq | Hin]; [| by eapply (Hd2 Hclosed)].
      injection Heq as Heq Hr. specialize (Hno q m (eq_sym Heq)). congruence.
Qed.
End KafkaProofs.

(** The Kafka backend, over any calls: what a successful publish sent is stored,
    at most one producer is running and it is the one the backend holds, a start
    that failed leaves none behind, and once closing succeeded none runs any more
    and nothing is published. *)
Theorem kafka_backend_correct {W} `{KafkaLibrary W} cfg running stored `{!KafkaLibraryLaws running stored} cs (w0 : W) s l :
  kafka_calls cfg cs (mk_fields None false, w0) = (s, l) →
  running w0 ⊆ running s.2 ∧ running s.2 ⊆ running w0 ∪ value_set s.1
  ∧ (∀ q m, (KafkaPublish q m, true) ∈ l → (q, m) ∈ stored s.2)
  ∧ ((KafkaClose, true) ∈ l → running s.2 = running w0 ∧ lf_closed s.1 = true).
Proof.
  intros Hc. assert (Hi : backend_inv running w0 (mk_fields None false, w0)) by (split; cbn; [done | set_solver | done]).
  destruct (kafka_calls_inv cfg running stored w0 cs _ _ _ Hi Hc) as ([Ha Hb _] & _ & Hp & Hcl & _). split; [done |]. split; [done |]. split; [done |].
  intros Hin. specialize (Hcl (or_introl Hin)). rewrite Hcl in Hb |- *. split; [cbn in Hb; set_solver | done].
Qed.
(** A consumer that cannot be started is stopped. *)
Lemma kafka_consumer_closed {W} `{KafkaLibrary W} cfg q (w w' : W) e :
  kafka_consumer cfg q w = (w', Err e) →
  (kl_consumer (kafka_consumer_options cfg q) w).2 = Err e
  ∨ ∃ w1 c w2 e1, kl_consumer (kafka_consumer_options cfg q) w = (w1, Ok c) ∧ kl_start c w1 = (w2, Err e1) ∧ w' = (kl_stop c w2).1.
Proof.
  unfold kafka_consumer, or_cleanup. unfold bind, catch, ret, raise. destruct (kl_consumer _ w) as [w1 [c | e1]]; [| intros [= <- <-]; by left].
  destruct (kl_start c w1) as [w2 [[] | e1]] eqn:Hs; [done |]. destruct (kl_stop c w2) as [w3 [[] | e2]] eqn:Hst; intros [= <- <-]; right;
    exists w1, c, w2, e1; by rewrite Hst.
Qed.
(** TLS is used exactly for the protocols that ask for it. *)
Lemma client_options_tls `{PydanticLaws} raw cfg : parse_connection raw = Ok (KafkaQueue, cfg) →
  ko_ssl_context (client_options cfg) = true ↔ ∃ p, value cfg "security_protocol" = VStr p ∧ (p = u "SSL" ∨ p = u "SASL_SSL").
Proof.
  unfold parse_connection. destruct (queue_kind_of raw) as [k |]; [| done].
  destruct (validate_model (queue_model k) raw) as [c |] eqn:Hv; cbn [result_bind]; [| done]. intros [= -> ->].
  assert (Hm : model_ok KafkaQueueSettings).
  { pose proof models_ok as Hall. rewrite list.Forall_forall in Hall. apply Hall. unfold connection_models. cbn [app]. rewrite !elem_of_cons. tauto. }
  destruct (validate_model_sound _ _ _ Hm Hv) as [Hs _].
  assert (Hf : ∃ d, default_to "security_protocol" (TLiteral [u "PLAINTEXT"; u "SSL"; u "SASL_PLAINTEXT"; u "SASL_SSL"]) d ∈ md_fields KafkaQueueSettings).
  { eexists. cbn. rewrite !elem_of_cons. eauto 20. }
  destruct Hf as [d Hd]. destruct (settings_field _ _ _ _ Hs Hd) as (v & Hv' & Ho). unfold client_options. cbn [ko_ssl_context].
  unfold value. cbn [fd_name fd_type default_to] in Hv', Ho. rewrite Hv'. cbn [default from_option]. destruct v as [| | | | | s | | | |]; try done.
  cbn in Ho. to_prop. rewrite !elem_of_cons in Ho. destruct Ho as [-> | [-> | [-> | [-> | []%elem_of_nil]]]]; (split; [intros He | intros (p & [= <-] & Hp)]);
    try (vm_compute in He; discriminate He); try reflexivity; try (eexists; split; [reflexivity |]; by auto); destruct Hp as [Hp | Hp]; discriminate Hp.
Qed.
(** Nothing but [CacheConnectionError] leaves a health check or a closing. *)
Lemma connection_errors {W} `{CacheDrivers W} c (w w' : W) e :
  connection_ping c w = (w', Err e) ∨ connection_aclose c w = (w', Err e) → is_exception e = true → e = CacheConnectionError.
Proof.
  assert (Ho : ∀ A (m : io W A), or_connection_error m w = (w', Err e) → is_exception e = true → e = CacheConnectionError).
  { intros A m. unfold or_connection_error, catch, raise. destruct (m w) as [w1 [a | e1]]; [done |]. destruct (is_exception e1) eqn:He; intros [= <- <-]; congruence. }
  intros [Hc | Hc]; eauto.
Qed.

(** ** A concrete broker, whose first producer cannot start *)
Record DemoBroker := mk_demo_broker { db_next : nat; db_running : gset nat; db_stored : gset (pystr * pybytes) }.
#[local] Instance demo_kafka_library : KafkaLibrary DemoBroker := {|
  kl_producer _ := λ w, (mk_demo_broker (S (db_next w)) (db_running w) (db_stored w), if bool_decide (db_next w ∈ db_running w) then Err RuntimeError else Ok (db_next w));
  kl_consumer _ := λ w, (w, Err RuntimeError);
  kl_start p := λ w, (mk_demo_broker (db_next w) ({[p]} ∪ db_running w) (db_stored w), if bool_decide (p = 0) then Err TimeoutError else Ok tt);
  kl_stop p := λ w, (mk_demo_broker (db_next w) (db_running w ∖ {[p]}) (db_stored w), Ok tt);
  kl_send_and_wait p q m := λ w, (mk_demo_broker (db_next w) (db_running w) ({[(q, m)]} ∪ db_stored w), Ok tt);
|}.
Lemma demo_kafka_library_laws : KafkaLibraryLaws db_running db_stored.
Proof.
  split.
  - intros o w w' p Hp. cbn in Hp. by case_bool_decide; simplify_eq/=.
  - done.
  - intros p w. cbn. set_solver.
  - done.
  - intros p q m w. cbn. set_solver.
Qed.
Definition demo_kafka_calls : list kafka_call := [KafkaPublish (u "mail") []; KafkaPublish (u "mail") []; KafkaClose; KafkaPublish (u "mail") []].
Definition demo_kafka_run := kafka_calls [] demo_kafka_calls (mk_fields None false, mk_demo_broker 0 ∅ ∅).
Lemma kafka_backend_correct_witness :
  map snd demo_kafka_run.2 = [false; true; true; false] ∧ db_running demo_kafka_run.1.2 = ∅ ∧ (u "mail", []) ∈ db_stored demo_kafka_run.1.2.
Proof.
  split; [vm_compute; reflexivity |].
  destruct (kafka_backend_correct [] db_running db_stored (KafkaLibraryLaws0 := demo_kafka_library_laws) demo_kafka_calls (mk_demo_broker 0 ∅ ∅)
    demo_kafka_run.1 demo_kafka_run.2 (surjective_pairing _)) as (_ & _ & Hp & Hc).
  assert (Hl : demo_kafka_run.2 = combine demo_kafka_calls [false; true; true; false]) by (vm_compute; reflexivity).
  rewrite Hl in Hp, Hc. split; [apply Hc; cbn; rewrite !elem_of_cons; tauto | apply Hp; cbn; rewrite !elem_of_cons; tauto].
Defined.
