(* ===== verification/RedisQueue.v ===== *)
(** * RedisQueue: the Redis Streams queue as a state machine

    Models [infrastructure/queue/drivers/redis.py]: the two Lua scripts,
    [RedisDelivery], [RedisConsumer] and [RedisBackend.publish], for one stream
    with one consumer group and any number of consumers.  The server is the
    class [StreamServer]; what the driver relies on of the commands is
    [StreamLaws].  A call is sent, executed by the server and answered in
    separate steps: the caller may give up in between (cancellation, timeout,
    lost connection) while the server still executes the call, and the Redis
    client may retry it, so a call is executed any number of times.  The steps
    of a consumer are the code between two awaits. *)

From S2P Require Import Prelude Text PyVal Errors Redis.
Local Open Scope prog_scope.

(** The reply of the renewal script: [{1}] or [{0, identity}]. *)
Inductive renew_reply := Renewed | Lost (identity : pystr).

(** [xgroup_create] raised nothing, or a [ResponseError] that starts with BUSYGROUP. *)
Inductive create_reply := Created | BusyGroup.

(** An entry: its identity and its [payload] field. *)
Abbreviation entry := (pystr * option pybytes)%type.

Class StreamServer (S : Type) := {
  xpending : pystr → redis S (list (pystr * pystr));   (* XPENDING key group id id 1: identity and owner *)
  xack : pystr → redis S Z;
  xdel : pystr → redis S Z;
  xclaim : pystr → Z → pystr → redis S (list pystr);      (* XCLAIM key group name idle id JUSTID *)
  xadd : pybytes → S → pystr → S → Prop;
  xautoclaim : pystr → Z → pystr → S → pystr * list entry → S → Prop;   (* COUNT 1 *)
  xreadgroup : pystr → S → list entry → S → Prop;                       (* COUNT 1 *)
  xgroup_create : S → create_reply → S → Prop;
  xs_elapse : Z → S → S;                                  (* milliseconds pass *)
  xs_entries : S → gmap pystr (option pybytes);
  xs_new : S → gset pystr;                                (* not yet delivered to the group *)
  xs_pel : S → gmap pystr (pystr * Z);                    (* owner and time of the last delivery *)
  xs_used : S → gset pystr;                               (* every identity ever given *)
  xs_now : S → Z;
}.

(** ** The scripts *)

Section Scripts.
Context {S : Type} `{StreamServer S}.

Definition owned_by (name : pystr) (p : list (pystr * pystr)) : bool :=
  match p with [] => false | (_, owner) :: _ => bool_decide (owner = name) end.

(** [_OWNED_ACK] *)
Definition owned_ack (name identity : pystr) : redis S Z :=
  let* p := xpending identity in
  if negb (owned_by name p) then ret 0%Z
  else
    let* acknowledged := xack identity in
    when (acknowledged =? 1)%Z (let* _ := xdel identity in ret tt);;;
    ret acknowledged.

(** [_OWNED_RENEW_BATCH] *)
Fixpoint first_lost (name : pystr) (identities : list pystr) : redis S (option pystr) :=
  match identities with
  | [] => ret None
  | identity :: rest =>
      let* pending := xpending identity in
      if negb (owned_by name pending) then ret (Some identity) else first_lost name rest
  end.
Fixpoint claim_all (name : pystr) (identities : list pystr) : redis S unit :=
  match identities with
  | [] => ret tt
  | identity :: rest => let* _ := xclaim name 0 identity in claim_all name rest
  end.
Definition owned_renew_batch (name : pystr) (identities : list pystr) : redis S renew_reply :=
  let* lost := first_lost name identities in
  match lost with
  | Some identity => ret (Lost identity)
  | None => claim_all name identities;;; ret Renewed
  end.

(** ** The server *)

Definition same_stream (s s' : S) : Prop :=
  xs_entries s' = xs_entries s ∧ xs_new s' = xs_new s ∧ xs_used s' = xs_used s ∧ xs_now s' = xs_now s.

Class StreamLaws : Prop := {
  xpending_law i s : xpending i s = (s, Ok (match xs_pel s !! i with Some (c, _) => [(i, c)] | None => [] end));
  xack_law i s : ∃ s', xack i s = (s', Ok (if decide (is_Some (xs_pel s !! i)) then 1 else 0)%Z) ∧
    same_stream s s' ∧ xs_pel s' = delete i (xs_pel s);
  xdel_law i s : ∃ s' n, xdel i s = (s', Ok n) ∧ xs_entries s' = delete i (xs_entries s) ∧ xs_new s' = xs_new s ∖ {[i]} ∧
    xs_pel s' = xs_pel s ∧ xs_used s' = xs_used s ∧ xs_now s' = xs_now s;
  (** The minimum idle time is 0, and the entries claimed are pending and in the stream. *)
  xclaim_law c i s o t : xs_pel s !! i = Some (o, t) → is_Some (xs_entries s !! i) →
    ∃ s' l, xclaim c 0 i s = (s', Ok l) ∧ same_stream s s' ∧ xs_pel s' = <[i := (c, xs_now s)]> (xs_pel s);
  xadd_law b s i s' : xadd b s i s' → i ∉ xs_used s ∧ xs_entries s' = <[i := Some b]> (xs_entries s) ∧
    xs_new s' = {[i]} ∪ xs_new s ∧ xs_used s' = {[i]} ∪ xs_used s ∧ xs_pel s' = xs_pel s ∧ xs_now s' = xs_now s;
  (** On a stream that still has all pending entries. *)
  xautoclaim_law c idle cursor s cursor' l s' : dom (xs_pel s) ⊆ dom (xs_entries s) →
    xautoclaim c idle cursor s (cursor', l) s' → same_stream s s' ∧
    (l = [] ∧ xs_pel s' = xs_pel s ∨
     ∃ i p o t, l = [(i, p)] ∧ xs_entries s !! i = Some p ∧ xs_pel s !! i = Some (o, t) ∧ (idle ≤ xs_now s - t)%Z ∧
       xs_pel s' = <[i := (c, xs_now s)]> (xs_pel s));
  xreadgroup_law c s l s' : xreadgroup c s l s' → xs_entries s' = xs_entries s ∧ xs_used s' = xs_used s ∧ xs_now s' = xs_now s ∧
    (l = [] ∧ xs_new s' = xs_new s ∧ xs_pel s' = xs_pel s ∨
     ∃ i p, l = [(i, p)] ∧ i ∈ xs_new s ∧ xs_entries s !! i = Some p ∧ xs_new s' = xs_new s ∖ {[i]} ∧
       xs_pel s' = <[i := (c, xs_now s)]> (xs_pel s));
  (** The group starts at 0-0: before it exists no entry was delivered. *)
  xgroup_create_law s r s' : xgroup_create s r s' → same_stream s s' ∧ xs_pel s' = xs_pel s;
  xs_elapse_law d s : (0 ≤ d)%Z → xs_entries (xs_elapse d s) = xs_entries s ∧ xs_new (xs_elapse d s) = xs_new s ∧
    xs_used (xs_elapse d s) = xs_used s ∧ xs_pel (xs_elapse d s) = xs_pel s ∧ xs_now (xs_elapse d s) = (xs_now s + d)%Z;
}.
End Scripts.
Arguments StreamLaws S {H}.

(** ** Calls *)

Inductive op :=
| OpAck (name identity : pystr)
| OpRenew (name : pystr) (identities : list pystr)
| OpClaim (name : pystr) (idle : Z) (cursor : pystr)
| OpRead (name : pystr)
| OpAdd (payload : pybytes)
| OpCreate.
Inductive reply :=
| RepAck (result : Z)
| RepRenew (result : renew_reply)
| RepClaim (cursor : pystr) (entries : list entry)
| RepRead (entries : list entry)
| RepAdd (identity : pystr)
| RepCreate (r : create_reply).

(** [cl_delivery]: the delivery whose [acknowledge] sent the call. *)
Record call := mk_call { cl_op : op; cl_delivery : option nat; cl_reply : option reply }.

Inductive executes {W : Type} `{StreamServer W} : op → W → reply → W → Prop :=
| exec_ack s s' c i z : owned_ack c i s = (s', Ok z) → executes (OpAck c i) s (RepAck z) s'
| exec_renew s s' c l r : owned_renew_batch c l s = (s', Ok r) → executes (OpRenew c l) s (RepRenew r) s'
| exec_claim s s' c idle cur cur' l : xautoclaim c idle cur s (cur', l) s' → executes (OpClaim c idle cur) s (RepClaim cur' l) s'
| exec_read s s' c l : xreadgroup c s l s' → executes (OpRead c) s (RepRead l) s'
| exec_add s s' b i : xadd b s i s' → executes (OpAdd b) s (RepAdd i) s'
| exec_create s s' r : xgroup_create s r s' → executes OpCreate s (RepCreate r) s'.

(** ** [RedisDelivery] and [RedisConsumer] *)

Record RedisDelivery := mk_rdelivery {
  rd_identity : pystr;
  rd_payload : pybytes;
  rd_possibly_redelivered : bool;
  rd_owner : nat;                        (* the task that received it *)
  rd_settled : bool;
}.
Definition rd_settle (d : RedisDelivery) : RedisDelivery :=
  mk_rdelivery (rd_identity d) (rd_payload d) (rd_possibly_redelivered d) (rd_owner d) true.

(** Calls are named by their number. *)
Inductive lock_holder := Free | Acknowledging (n call : nat) | Renewing (call : nat).
Inductive receive_phase := Claiming (call : nat) | Reading (call : nat).
Inductive renewal := NotStarted (call : nat) | Sleeping | WaitingLock | InCall | RenewalEnded (e : exn).

Record RedisConsumer := mk_rconsumer {
  rq_lease : Z;                          (* int(self.lease * 1000) *)
  rq_pending : gmap pystr nat;           (* by number of the delivery object *)
  rq_deliveries : gmap nat RedisDelivery;
  rq_cursor : pystr;
  rq_closed : bool;
  rq_renewal : renewal;
  rq_lock : lock_holder;                 (* self.lock *)
  rq_waiting : gset nat;                 (* acknowledge calls that wait for it *)
  rq_receiving : option (nat * receive_phase);   (* the task that holds self._receive_lock *)
  rq_cancelled : gset nat;               (* tasks the renewal asked to cancel *)
}.

Definition set_receiving (x : option (nat * receive_phase)) (c : RedisConsumer) : RedisConsumer :=
  mk_rconsumer (rq_lease c) (rq_pending c) (rq_deliveries c) (rq_cursor c) (rq_closed c) (rq_renewal c) (rq_lock c) (rq_waiting c)
    x (rq_cancelled c).
Definition set_cursor (x : pystr) (c : RedisConsumer) : RedisConsumer :=
  mk_rconsumer (rq_lease c) (rq_pending c) (rq_deliveries c) x (rq_closed c) (rq_renewal c) (rq_lock c) (rq_waiting c)
    (rq_receiving c) (rq_cancelled c).
Definition set_lock (x : lock_holder) (w : gset nat) (c : RedisConsumer) : RedisConsumer :=
  mk_rconsumer (rq_lease c) (rq_pending c) (rq_deliveries c) (rq_cursor c) (rq_closed c) (rq_renewal c) x w
    (rq_receiving c) (rq_cancelled c).
Definition set_renewal (x : renewal) (l : lock_holder) (c : RedisConsumer) : RedisConsumer :=
  mk_rconsumer (rq_lease c) (rq_pending c) (rq_deliveries c) (rq_cursor c) (rq_closed c) x l (rq_waiting c)
    (rq_receiving c) (rq_cancelled c).

(** [RedisConsumer.__init__] and the first part of [start]. *)
Definition RedisConsumer_new (lease : Z) (create : nat) : RedisConsumer :=
  mk_rconsumer lease ∅ ∅ (u "0-0") false (NotStarted create) Free ∅ None ∅.
(** The rest of [start]: a group that exists already is fine. *)
Definition started (r : create_reply) (c : RedisConsumer) : RedisConsumer :=
  match r with Created | BusyGroup => set_renewal Sleeping (rq_lock c) c end.

(** ** [receive] *)

(** The head of the loop: the exception [receive] ends with, if any. *)
Definition receive_head (c : RedisConsumer) : option exn :=
  if rq_closed c then Some QueueError
  else match rq_renewal c with RenewalEnded e => Some e | _ => None end.
(** The next call, with its number [k]. *)
Definition send_claim (name : pystr) (t k : nat) (c : RedisConsumer) : RedisConsumer * option op :=
  match receive_head c with
  | Some _ => (set_receiving None c, None)
  | None => (set_receiving (Some (t, Claiming k)) c, Some (OpClaim name (rq_lease c) (rq_cursor c)))
  end.
Definition adopt_delivery (n t : nat) (e : entry) (redelivered : bool) (c : RedisConsumer) : RedisConsumer * result exn RedisDelivery :=
  let '(key, payload) := e in
  if bool_decide (is_Some (rq_pending c !! key)) then (set_receiving None c, Err DeliveryLostError)
  else
    let d := mk_rdelivery key (default [] payload) redelivered t false in
    (mk_rconsumer (rq_lease c) (<[key := n]> (rq_pending c)) (<[n := d]> (rq_deliveries c)) (rq_cursor c) (rq_closed c)
       (rq_renewal c) (rq_lock c) (rq_waiting c) None (rq_cancelled c), Ok d).
(** After [xautoclaim]. *)
Definition claimed (name : pystr) (n t k : nat) (cursor : pystr) (l : list entry) (c : RedisConsumer) : RedisConsumer * option op :=
  let c := set_cursor cursor c in
  match l with
  | [] => (set_receiving (Some (t, Reading k)) c, Some (OpRead name))
  | e :: _ => (fst (adopt_delivery n t e true c), None)
  end.
(** After [xreadgroup]. *)
Definition read_new (name : pystr) (n t k : nat) (l : list entry) (c : RedisConsumer) : RedisConsumer * option op :=
  match l with
  | [] => send_claim name t k c
  | e :: _ => (fst (adopt_delivery n t e false c), None)
  end.

(** ** [acknowledge] *)

Definition acknowledgeable (c : RedisConsumer) (d : RedisDelivery) : bool := negb (rd_settled d || rq_closed c).
Definition ack_waits (n : nat) (c : RedisConsumer) : RedisConsumer := set_lock (rq_lock c) ({[n]} ∪ rq_waiting c) c.
Definition ack_locked (n k : nat) (c : RedisConsumer) : RedisConsumer := set_lock (Acknowledging n k) (rq_waiting c ∖ {[n]}) c.
Definition ack_replied (n : nat) (d : RedisDelivery) (z : Z) (c : RedisConsumer) : RedisConsumer * result exn unit :=
  if negb (z =? 1)%Z then (set_lock Free (rq_waiting c) c, Err DeliveryLostError)
  else (mk_rconsumer (rq_lease c) (delete (rd_identity d) (rq_pending c)) (<[n := rd_settle d]> (rq_deliveries c)) (rq_cursor c)
          (rq_closed c) (rq_renewal c) Free (rq_waiting c) (rq_receiving c) (rq_cancelled c), Ok tt).

(** ** [_renew], [_renew_pending], [aclose] *)

Definition identities (c : RedisConsumer) : list pystr := map fst (map_to_list (rq_pending c)).
Definition renew_locked (name : pystr) (k : nat) (c : RedisConsumer) : RedisConsumer * option op :=
  match identities c with
  | [] => (set_renewal Sleeping Free c, None)
  | l => (set_renewal InCall (Renewing k) c, Some (OpRenew name l))
  end.
(** The lock is given back when the renewal holds it. *)
Definition unlock_renewal (c : RedisConsumer) : lock_holder :=
  match rq_lock c with Renewing _ => Free | l => l end.
Definition pending_owners (c : RedisConsumer) : gset nat :=
  list_to_set (omap (λ n, rd_owner <$> rq_deliveries c !! n) (map snd (map_to_list (rq_pending c)))).
Definition renew_failed (e : exn) (c : RedisConsumer) : RedisConsumer :=
  mk_rconsumer (rq_lease c) (rq_pending c) (rq_deliveries c) (rq_cursor c) (rq_closed c) (RenewalEnded e) (unlock_renewal c)
    (rq_waiting c) (rq_receiving c) (if is_exception e then pending_owners c ∪ rq_cancelled c else rq_cancelled c).
Definition renew_replied (r : renew_reply) (c : RedisConsumer) : RedisConsumer :=
  match r with Renewed => set_renewal Sleeping Free c | Lost _ => renew_failed DeliveryLostError c end.
Definition closed_ (c : RedisConsumer) : RedisConsumer :=
  mk_rconsumer (rq_lease c) (rq_pending c) (rq_deliveries c) (rq_cursor c) true (rq_renewal c) (rq_lock c) (rq_waiting c)
    (rq_receiving c) (rq_cancelled c).
(** What [aclose] ends with, the renewal being over. *)
Definition close_result (c : RedisConsumer) : result exn unit :=
  match rq_renewal c with RenewalEnded CancelledError => Ok tt | RenewalEnded e => Err e | _ => Ok tt end.

(** ** The system *)

Record system (W : Type) := mk_system {
  sy_server : W;
  sy_calls : gmap nat call;
  sy_consumers : gmap pystr RedisConsumer;
  sy_acked : gmap pystr nat;             (* the call whose execution removed an entry *)
}.
Arguments mk_system {W}.
Arguments sy_server {W}.
Arguments sy_calls {W}.
Arguments sy_consumers {W}.
Arguments sy_acked {W}.

Section Steps.
Context {W : Type} `{StreamServer W}.
Implicit Types s : system W.

(** A consumer goes on, perhaps with a new call. *)
Definition update (name : pystr) (c : RedisConsumer) (s : system W) : system W :=
  mk_system (sy_server s) (sy_calls s) (<[name := c]> (sy_consumers s)) (sy_acked s).
Definition send (k : nat) (x : op) (n : option nat) (s : system W) : system W :=
  mk_system (sy_server s) (<[k := mk_call x n None]> (sy_calls s)) (sy_consumers s) (sy_acked s).
Definition go_on (name : pystr) (k : nat) (r : RedisConsumer * option op) (s : system W) : system W :=
  let s := update name (fst r) s in
  match snd r with Some x => send k x None s | None => s end.
Definition elapsed (d : Z) (s : system W) : system W :=
  mk_system (xs_elapse d (sy_server s)) (sy_calls s) (sy_consumers s) (sy_acked s).
(** [RedisBackend.publish]: the stream's name carries the queue. *)
Definition publish (payload : pybytes) : op := OpAdd payload.
(** The server executed call [k]. *)
Definition executed (k : nat) (cl : call) (r : reply) (w : W) (s : system W) : system W :=
  mk_system w (<[k := mk_call (cl_op cl) (cl_delivery cl) (Some r)]> (sy_calls s)) (sy_consumers s)
    (match cl_op cl, r with OpAck _ i, RepAck 1 => <[i := k]> (sy_acked s) | _, _ => sy_acked s end).

Definition answered (s : system W) (k : nat) (r : reply) : Prop := ∃ cl, sy_calls s !! k = Some cl ∧ cl_reply cl = Some r.

Inductive redis_step : system W → system W → Prop :=
| step_executes s k cl r w : sy_calls s !! k = Some cl → executes (cl_op cl) (sy_server s) r w →
    redis_step s (executed k cl r w s)
| step_elapse s d : (0 ≤ d)%Z → redis_step s (elapsed d s)
| step_publish s k b : sy_calls s !! k = None → redis_step s (send k (publish b) None s)
| step_start s k name lease : sy_calls s !! k = None → sy_consumers s !! name = None →
    redis_step s (send k OpCreate None (update name (RedisConsumer_new lease k) s))
| step_started s k name c r : sy_consumers s !! name = Some c → rq_renewal c = NotStarted k → answered s k (RepCreate r) →
    redis_step s (update name (started r c) s)
| step_receive s k name c t : sy_consumers s !! name = Some c → rq_receiving c = None → sy_calls s !! k = None →
    redis_step s (go_on name k (send_claim name t k c) s)
| step_claimed s k k' n name c t cur l : sy_consumers s !! name = Some c → rq_receiving c = Some (t, Claiming k) →
    answered s k (RepClaim cur l) → sy_calls s !! k' = None → rq_deliveries c !! n = None →
    redis_step s (go_on name k' (claimed name n t k' cur l c) s)
| step_read s k k' n name c t l : sy_consumers s !! name = Some c → rq_receiving c = Some (t, Reading k) →
    answered s k (RepRead l) → sy_calls s !! k' = None → rq_deliveries c !! n = None →
    redis_step s (go_on name k' (read_new name n t k' l c) s)
(** The call failed, or the task was cancelled. *)
| step_receive_ended s name c x : sy_consumers s !! name = Some c → rq_receiving c = Some x →
    redis_step s (update name (set_receiving None c) s)
| step_acknowledge s name c n d : sy_consumers s !! name = Some c → rq_deliveries c !! n = Some d → acknowledgeable c d = true →
    redis_step s (update name (ack_waits n c) s)
| step_ack_locked s k name c n d : sy_consumers s !! name = Some c → n ∈ rq_waiting c → rq_lock c = Free → sy_calls s !! k = None →
    rq_deliveries c !! n = Some d →
    redis_step s (send k (OpAck name (rd_identity d)) (Some n) (update name (ack_locked n k c) s))
| step_ack_replied s k name c n d z : sy_consumers s !! name = Some c → rq_lock c = Acknowledging n k → answered s k (RepAck z) →
    rq_deliveries c !! n = Some d →
    redis_step s (update name (fst (ack_replied n d z c)) s)
| step_ack_unlocked s name c n k : sy_consumers s !! name = Some c → rq_lock c = Acknowledging n k →
    redis_step s (update name (set_lock Free (rq_waiting c) c) s)
| step_ack_given_up s name c n : sy_consumers s !! name = Some c → n ∈ rq_waiting c →
    redis_step s (update name (set_lock (rq_lock c) (rq_waiting c ∖ {[n]}) c) s)
| step_renew s name c : sy_consumers s !! name = Some c → rq_renewal c = Sleeping →
    redis_step s (update name (set_renewal WaitingLock (rq_lock c) c) s)
| step_renew_locked s k name c : sy_consumers s !! name = Some c → rq_renewal c = WaitingLock → rq_lock c = Free →
    sy_calls s !! k = None → redis_step s (go_on name k (renew_locked name k c) s)
| step_renew_replied s k name c r : sy_consumers s !! name = Some c → rq_renewal c = InCall → rq_lock c = Renewing k →
    answered s k (RepRenew r) → redis_step s (update name (renew_replied r c) s)
(** The call failed or the time limit of a third of the lease was exceeded. *)
| step_renew_failed s name c e : sy_consumers s !! name = Some c → rq_renewal c = WaitingLock ∨ rq_renewal c = InCall →
    is_exception e = true → redis_step s (update name (renew_failed e c) s)
| step_close s name c : sy_consumers s !! name = Some c → redis_step s (update name (closed_ c) s)
| step_renew_cancelled s name c : sy_consumers s !! name = Some c → rq_closed c = true →
    rq_renewal c = Sleeping ∨ rq_renewal c = WaitingLock ∨ rq_renewal c = InCall →
    redis_step s (update name (renew_failed CancelledError c) s).

(** A fresh stream, no consumers. *)
Definition initial (s : system W) : Prop :=
  sy_calls s = ∅ ∧ sy_consumers s = ∅ ∧ sy_acked s = ∅ ∧
  xs_entries (sy_server s) = ∅ ∧ xs_new (sy_server s) = ∅ ∧ xs_pel (sy_server s) = ∅ ∧ xs_used (sy_server s) = ∅.
Definition redis_reachable (s : system W) : Prop := ∃ s0, initial s0 ∧ rtc redis_step s0 s.
End Steps.

(** ** What the calls do to the stream *)

Section Server.
Context {W : Type} `{SL : !StreamServer W, !StreamLaws W}.
Implicit Types (w : W).

Lemma same_stream_refl w : same_stream w w.
Proof. done. Qed.
Lemma same_stream_trans w1 w2 w3 : same_stream w1 w2 → same_stream w2 w3 → same_stream w1 w3.
Proof. unfold same_stream. intuition congruence. Qed.

Lemma owned_ack_run c i w : ∃ w' z, owned_ack c i w = (w', Ok z) ∧
  (z = 0%Z ∧ w' = w ∨
   z = 1%Z ∧ (∃ t, xs_pel w !! i = Some (c, t)) ∧ xs_pel w' = delete i (xs_pel w) ∧ xs_entries w' = delete i (xs_entries w) ∧
     xs_new w' = xs_new w ∖ {[i]} ∧ xs_used w' = xs_used w ∧ xs_now w' = xs_now w).
Proof.
  unfold owned_ack. unfold bind at 1. rewrite xpending_law. destruct (xs_pel w !! i) as [[o t] |] eqn:Hp; cbn.
  2: { exists w, 0%Z. split; [done | by left]. }
  case_bool_decide as Ho; cbn; [subst o | exists w, 0%Z; split; [done | by left]].
  destruct (xack_law i w) as (w1 & H1 & (He & Hn & Hu & Ht) & Hpel). rewrite decide_True in H1 by by rewrite Hp.
  destruct (xdel_law i w1) as (w2 & n & H2 & He2 & Hn2 & Hp2 & Hu2 & Ht2).
  exists w2, 1%Z. unfold bind at 1. rewrite H1. cbn. unfold bind, when. cbn. rewrite H2. cbn. split; [done | right].
  rewrite He2, Hn2, Hp2, Hu2, Ht2, He, Hn, Hu, Ht, Hpel. eauto 10.
Qed.

Lemma first_lost_run c l w : ∃ r, first_lost c l w = (w, Ok r) ∧
  match r with
  | None => ∀ i, i ∈ l → ∃ t, xs_pel w !! i = Some (c, t)
  | Some i => i ∈ l ∧ ∀ t, xs_pel w !! i ≠ Some (c, t)
  end.
Proof.
  induction l as [| i l (r & Hr & Hl)]; cbn; [exists None; split; [done |]; intros i Hi; set_solver |].
  unfold bind at 1. rewrite xpending_law. destruct (xs_pel w !! i) as [[o t] |] eqn:Hp; cbn.
  2: { exists (Some i). split; [done |]. split; [set_solver | congruence]. }
  case_bool_decide as Ho; cbn; [subst o | exists (Some i); split; [done |]; split; [set_solver | congruence]].
  exists r. split; [done |]. destruct r as [j |]; [set_solver |]. intros j [-> | Hj]%elem_of_cons; [by exists t | by apply Hl].
Qed.

Lemma claim_all_run c l w : dom (xs_pel w) ⊆ dom (xs_entries w) → (∀ i, i ∈ l → is_Some (xs_pel w !! i)) →
  ∃ w', claim_all c l w = (w', Ok tt) ∧ same_stream w w' ∧
    ∀ i, xs_pel w' !! i = if decide (i ∈ l) then Some (c, xs_now w) else xs_pel w !! i.
Proof.
  revert w. induction l as [| i l IH]; cbn; intros w Hsub Hin.
  { exists w. split; [done |]. split; [done |]. intros i. by rewrite decide_False by set_solver. }
  destruct (Hin i) as [[o t] Hp]; [set_solver |].
  destruct (xclaim_law c i w o t Hp) as (w1 & r & H1 & Hs1 & Hp1); [apply elem_of_dom, Hsub; by apply elem_of_dom |].
  destruct (IH w1) as (w2 & H2 & Hs2 & Hp2).
  { rewrite Hp1, dom_insert. destruct Hs1 as (-> & _). assert (i ∈ dom (xs_pel w)) by by apply elem_of_dom. set_solver. }
  { intros j Hj. rewrite Hp1. destruct (decide (i = j)) as [-> | ?]; [by rewrite lookup_insert_eq |].
    rewrite lookup_insert_ne by done. apply Hin. set_solver. }
  exists w2. unfold bind at 1. rewrite H1. split; [done |]. split; [by eapply same_stream_trans |].
  intros j. rewrite Hp2, Hp1. destruct Hs1 as (_ & _ & _ & ->). destruct (decide (i = j)) as [-> | ?].
  - rewrite lookup_insert_eq, (decide_True (P := j ∈ j :: l)) by set_solver. by case_decide.
  - rewrite lookup_insert_ne by done. repeat case_decide; set_solver.
Qed.

Lemma owned_renew_run c l w : dom (xs_pel w) ⊆ dom (xs_entries w) → ∃ w' r, owned_renew_batch c l w = (w', Ok r) ∧ same_stream w w' ∧
  match r with
  | Renewed => (∀ i, i ∈ l → ∃ t, xs_pel w !! i = Some (c, t)) ∧
      ∀ i, xs_pel w' !! i = if decide (i ∈ l) then Some (c, xs_now w) else xs_pel w !! i
  | Lost i => i ∈ l ∧ (∀ t, xs_pel w !! i ≠ Some (c, t)) ∧ w' = w
  end.
Proof.
  intros Hsub. unfold owned_renew_batch, bind at 1. destruct (first_lost_run c l w) as (r & -> & Hr). destruct r as [i |]; cbn.
  - destruct Hr as [Hi Ho]. by exists w, (Lost i).
  - destruct (claim_all_run c l w Hsub) as (w' & Hc & Hs & Hp); [intros i Hi; destruct (Hr i Hi) as [t ->]; by eexists |].
    exists w', Renewed. unfold bind. by rewrite Hc.
Qed.

(** Entries are new or pending, never both; the used identities are accounted for. *)
Record stream_inv (w : W) (gone : gset pystr) : Prop := {
  si_split : dom (xs_entries w) = xs_new w ∪ dom (xs_pel w);
  si_disj : xs_new w ## dom (xs_pel w);
  si_used : xs_used w = dom (xs_entries w) ∪ gone;
  si_gone : dom (xs_entries w) ## gone;
}.

(** What one executed call does to the owners of pending entries. *)
Inductive owner_change : op → W → reply → W → Prop :=
| change_none o w r w' : xs_pel w' = xs_pel w → (∀ c i, o = OpAck c i → r ≠ RepAck 1) → owner_change o w r w'
| change_ack c i t w w' : xs_pel w !! i = Some (c, t) → xs_pel w' = delete i (xs_pel w) → owner_change (OpAck c i) w (RepAck 1) w'
| change_renew c l w w' : (∀ i, i ∈ l → ∃ t, xs_pel w !! i = Some (c, t)) →
    (∀ i, xs_pel w' !! i = if decide (i ∈ l) then Some (c, xs_now w) else xs_pel w !! i) →
    owner_change (OpRenew c l) w (RepRenew Renewed) w'
| change_claim c idle cur cur' i p o t w w' : xs_pel w !! i = Some (o, t) → (idle ≤ xs_now w - t)%Z →
    xs_pel w' = <[i := (c, xs_now w)]> (xs_pel w) → owner_change (OpClaim c idle cur) w (RepClaim cur' [(i, p)]) w'
| change_read c i p w w' : xs_pel w !! i = None → xs_pel w' = <[i := (c, xs_now w)]> (xs_pel w) →
    owner_change (OpRead c) w (RepRead [(i, p)]) w'.

Definition gone_after (o : op) (r : reply) (gone : gset pystr) : gset pystr :=
  match o, r with OpAck _ i, RepAck 1 => {[i]} ∪ gone | _, _ => gone end.

Lemma stream_inv_same w w' gone : stream_inv w gone → same_stream w w' → dom (xs_pel w') = dom (xs_pel w) → stream_inv w' gone.
Proof. intros [] (He & Hn & Hu & _) Hp. split; rewrite ?He, ?Hn, ?Hu, ?Hp; done. Qed.

Lemma dom_insert_in (m : gmap pystr (pystr * Z)) i x y : m !! i = Some x → dom (<[i := y]> m) = dom m.
Proof. intros Hi. rewrite dom_insert_L. assert (i ∈ dom m) by by apply elem_of_dom. set_solver. Qed.

Lemma executes_effect o w r w' gone : stream_inv w gone → executes o w r w' →
  stream_inv w' (gone_after o r gone) ∧ owner_change o w r w' ∧ xs_now w' = xs_now w.
Proof.
  intros Hinv Hexec. pose proof Hinv as [Hsplit Hdisj Hused Hgone].
  assert (Hsub : dom (xs_pel w) ⊆ dom (xs_entries w)) by set_solver.
  destruct Hexec as [w w' c i z He | w w' c l r He | w w' c idle cur cur' l He | w w' c l He | w w' b i He | w w' r He]; cbn.
  - destruct (owned_ack_run c i w) as (w1 & z1 & He1 & Hcase). rewrite He in He1. injection He1 as <- <-.
    destruct Hcase as [[-> ->] | (-> & [t Ht] & Hp & Hen & Hn & Hu & Hnow)].
    + split; [done |]. split; [by apply change_none |]. done.
    + split; [| split; [by eapply change_ack | done]].
      assert (i ∈ dom (xs_pel w)) by (apply elem_of_dom; by eexists).
      split; rewrite ?Hp, ?Hen, ?Hn, ?Hu, ?dom_delete_L; [| | | set_solver].
      * set_solver.
      * set_solver.
      * apply set_eq. intros j. destruct (decide (j = i)) as [-> | ?]; set_solver.
  - destruct (owned_renew_run c l w Hsub) as (w1 & r1 & He1 & Hs & Hcase). rewrite He in He1. injection He1 as <- <-.
    destruct r as [| i].
    + destruct Hcase as [Hall Hp]. split; [apply (stream_inv_same w); [done | done |] | split; [by apply change_renew | apply Hs]].
      apply set_eq. intros i. rewrite !elem_of_dom, Hp. case_decide as Hi; [| done].
      destruct (Hall i Hi) as [t ->]. split; by eexists.
    + destruct Hcase as (_ & _ & ->). split; [done |]. split; [by apply change_none | done].
  - destruct (xautoclaim_law c idle cur w cur' l w' Hsub He) as [Hs [[-> Hp] | (i & p & o & t & -> & Hen & Hi & Hidle & Hp)]].
    + split; [apply (stream_inv_same w); [done | done | by rewrite Hp] |]. split; [by apply change_none | apply Hs].
    + split; [apply (stream_inv_same w); [done | done | rewrite Hp; by eapply dom_insert_in] |].
      split; [by eapply change_claim | apply Hs].
  - destruct (xreadgroup_law c w l w' He) as (Hen & Hu & Hnow & [(-> & Hn & Hp) | (i & p & -> & Hi & Hpay & Hn & Hp)]).
    + split; [by apply (stream_inv_same w); [| done | rewrite Hp] |]. split; [by apply change_none | done].
    + split; [| split; [eapply change_read; [apply not_elem_of_dom; set_solver | done] | done]].
      split; rewrite ?Hen, ?Hu, ?Hn, ?Hp, ?dom_insert_L; [| set_solver | done | done].
      rewrite Hsplit. apply set_eq. intros j. destruct (decide (j = i)) as [-> | ?]; set_solver.
  - destruct (xadd_law b w i w' He) as (Hi & Hen & Hn & Hu & Hp & Hnow).
    split; [| split; [by apply change_none | done]].
    split; rewrite ?Hen, ?Hn, ?Hu, ?Hp, ?dom_insert_L; set_solver.
  - destruct (xgroup_create_law w r w' He) as [Hs Hp].
    split; [apply (stream_inv_same w); [done | done | by rewrite Hp] |]. split; [by apply change_none | apply Hs].
Qed.
End Server.

(** ** The invariant *)

Section Invariant.
Context {W : Type} `{SL : !StreamServer W, !StreamLaws W}.
Implicit Types (s : system W) (c : RedisConsumer) (d : RedisDelivery).

(** Call [k] is the acknowledgement of delivery [n] of the consumer [name]. *)
Definition acknowledges s (name : pystr) (n : nat) (identity : pystr) (k : nat) : Prop :=
  ∃ cl, sy_calls s !! k = Some cl ∧ cl_op cl = OpAck name identity ∧ cl_delivery cl = Some n.

Record consumer_inv s (name : pystr) (c : RedisConsumer) : Prop := {
  ci_lock n k : rq_lock c = Acknowledging n k → ∃ d, rq_deliveries c !! n = Some d ∧ acknowledges s name n (rd_identity d) k;
  ci_settled n d : rq_deliveries c !! n = Some d → rd_settled d = true →
    ∃ k, sy_acked s !! rd_identity d = Some k ∧ acknowledges s name n (rd_identity d) k;
}.
Lemma consumer_inv_mono s s' name c : (∀ m i k, acknowledges s name m i k → acknowledges s' name m i k) →
  (∀ i k, sy_acked s !! i = Some k → sy_acked s' !! i = Some k) → consumer_inv s name c → consumer_inv s' name c.
Proof. intros H1 H2 [Hl Hs]. split; [naive_solver |]. intros n d Hn Hd. destruct (Hs n d Hn Hd) as (k & Hk & Ha). exists k. auto. Qed.
Record redis_inv s : Prop := {
  ri_stream : stream_inv (sy_server s) (dom (sy_acked s));
  ri_call k cl name i : sy_calls s !! k = Some cl → cl_op cl = OpAck name i →
    ∃ n c d, cl_delivery cl = Some n ∧ sy_consumers s !! name = Some c ∧ rq_deliveries c !! n = Some d ∧ rd_identity d = i;
  ri_acked i k : sy_acked s !! i = Some k → ∃ cl name, sy_calls s !! k = Some cl ∧ cl_op cl = OpAck name i;
  ri_reply k cl name i : sy_calls s !! k = Some cl → cl_op cl = OpAck name i → cl_reply cl = Some (RepAck 1) → sy_acked s !! i = Some k;
  ri_lease k cl name idle cur : sy_calls s !! k = Some cl → cl_op cl = OpClaim name idle cur →
    ∃ c, sy_consumers s !! name = Some c ∧ rq_lease c = idle;
  ri_consumer name c : sy_consumers s !! name = Some c → consumer_inv s name c;
}.

(** A consumer changed; its deliveries only grow. *)
Definition extends (c c' : RedisConsumer) : Prop :=
  rq_lease c' = rq_lease c ∧
  ∀ n d, rq_deliveries c !! n = Some d → ∃ d', rq_deliveries c' !! n = Some d' ∧ rd_identity d' = rd_identity d.

Lemma update_inv s name c c' : redis_inv s → sy_consumers s !! name = Some c → extends c c' → consumer_inv s name c' →
  redis_inv (update name c' s).
Proof.
  intros [Hst Hcall Hack Hrep Hle Hcon] Hc [Hlease Hdel] Hinv. split; cbn; try done.
  - intros k cl m i Hk Ho. destruct (Hcall k cl m i Hk Ho) as (n & x & d & Hn & Hx & Hd & Hi).
    destruct (decide (name = m)) as [<- | Hne].
    + simplify_eq. destruct (Hdel n d Hd) as (d' & Hd' & Hi'). exists n, c', d'. by rewrite lookup_insert_eq.
    + exists n, x, d. by rewrite lookup_insert_ne.
  - intros k cl m idle cur Hk Ho. destruct (Hle k cl m idle cur Hk Ho) as (x & Hx & Hl).
    destruct (decide (name = m)) as [<- | Hne]; [exists c'; rewrite lookup_insert_eq | exists x; by rewrite lookup_insert_ne].
    split; [done | congruence].
  - intros m x. rewrite lookup_insert_Some. intros [[<- <-] | [_ Hx]]; apply (consumer_inv_mono s); try done. by apply Hcon.
Qed.

Lemma fresh_call s k x n j cl : sy_calls s !! k = None → sy_calls s !! j = Some cl → <[k := mk_call x n None]> (sy_calls s) !! j = Some cl.
Proof. intros Hk Hj. rewrite lookup_insert_ne; [done | congruence]. Qed.

Lemma send_inv s k x n : redis_inv s → sy_calls s !! k = None →
  (∀ name i, x = OpAck name i → ∃ m c d, n = Some m ∧ sy_consumers s !! name = Some c ∧ rq_deliveries c !! m = Some d ∧ rd_identity d = i) →
  (∀ name idle cur, x = OpClaim name idle cur → ∃ c, sy_consumers s !! name = Some c ∧ rq_lease c = idle) →
  redis_inv (send k x n s).
Proof.
  intros [Hst Hcall Hack Hrep Hle Hcon] Hk Hx1 Hx2.
  assert (Hmono : ∀ name m i j, acknowledges s name m i j → acknowledges (send k x n s) name m i j).
  { intros name m i j (cl & Hcl & Ho & Hm). exists cl. split; [by apply fresh_call | done]. }
  split; cbn; try done.
  - intros j cl name i. rewrite lookup_insert_Some. intros [[<- <-] | [_ Hj]]; [intros Ho; cbn in Ho; cbn; by eapply Hx1 | by eapply Hcall].
  - intros i j Hj. destruct (Hack i j Hj) as (cl & name & Hcl & Ho). exists cl, name. split; [by apply fresh_call | done].
  - intros j cl name i. rewrite lookup_insert_Some. intros [[<- <-] | [_ Hj]]; [done | by eapply Hrep].
  - intros j cl name idle cur. rewrite lookup_insert_Some. intros [[<- <-] | [_ Hj]]; [intros Ho; cbn in Ho; by eapply Hx2 | by eapply Hle].
  - intros name c Hc. apply (consumer_inv_mono s); [by apply Hmono | done | by apply Hcon].
Qed.

(** The deliveries did not change and the lock was at most given back. *)
Lemma quiet_update s name c c' : redis_inv s → sy_consumers s !! name = Some c → rq_lease c' = rq_lease c →
  rq_deliveries c' = rq_deliveries c → (∀ n k, rq_lock c' = Acknowledging n k → rq_lock c = Acknowledging n k) →
  redis_inv (update name c' s).
Proof.
  intros Hinv Hc Hl Hd Hlock. apply (update_inv s name c); [done | done | |].
  - split; [done |]. intros n d Hn. exists d. by rewrite Hd.
  - destruct (ri_consumer s Hinv name c Hc) as [H1 H2]. split; rewrite Hd; [| done]. intros n k Hn%Hlock. by apply H1.
Qed.

Lemma adopt_inv s name c0 c n t e b : redis_inv s → sy_consumers s !! name = Some c0 → rq_deliveries c !! n = None →
  rq_lease c = rq_lease c0 → rq_deliveries c = rq_deliveries c0 → rq_lock c = rq_lock c0 →
  redis_inv (update name (fst (adopt_delivery n t e b c)) s).
Proof.
  intros Hinv Hc Hn Hle Hde Hlo. unfold adopt_delivery. destruct e as [key payload]. case_bool_decide; cbn.
  { apply (quiet_update s name c0); try done. cbn. by rewrite Hlo. }
  destruct (ri_consumer s Hinv name c0 Hc) as [H1 H2]. rewrite <- Hde in H1, H2. rewrite <- Hlo in H1.
  assert (Hold : ∀ m d, rq_deliveries c !! m = Some d → n ≠ m) by congruence.
  apply (update_inv s name c0); [done | done | |].
  - split; [done |]. cbn. rewrite <- Hde. intros m d Hm. exists d. rewrite lookup_insert_ne by by eapply Hold. done.
  - split; cbn.
    + intros m k Hm. destruct (H1 m k Hm) as (d & Hd & Ha). exists d. rewrite lookup_insert_ne by by eapply Hold. done.
    + intros m d. rewrite lookup_insert_Some. intros [[<- <-] | [_ Hm]]; [done | by apply H2].
Qed.

(** A consumer goes on with a call that is no acknowledgement. *)
Lemma go_on_inv s name c k r : redis_inv s → sy_consumers s !! name = Some c → sy_calls s !! k = None →
  redis_inv (update name (fst r) s) → rq_lease (fst r) = rq_lease c →
  (∀ x, snd r = Some x → (∀ m i, x ≠ OpAck m i) ∧ ∀ m idle cur, x = OpClaim m idle cur → m = name ∧ idle = rq_lease c) →
  redis_inv (go_on name k r s).
Proof.
  intros Hinv Hc Hk Hu Hl Hx. unfold go_on. destruct r as [c' [x |]]; cbn in *; [| done].
  destruct (Hx x eq_refl) as [H1 H2]. apply send_inv; [done | done | |].
  - intros m i ->. by destruct (H1 m i).
  - intros m idle cur Hclaim. destruct (H2 _ _ _ Hclaim) as [-> ->]. exists c'. split; [apply lookup_insert_eq | done].
Qed.
Lemma send_claim_inv s name c t k : redis_inv s → sy_consumers s !! name = Some c → sy_calls s !! k = None →
  redis_inv (go_on name k (send_claim name t k c) s).
Proof.
  intros Hinv Hc Hk. apply (go_on_inv s name c); try done; unfold send_claim; destruct (receive_head c); cbn; try done.
  - by apply (quiet_update s name c).
  - by apply (quiet_update s name c).
  - intros x [= <-]. split; [done |]. by intros m idle cur [= <- <- <-].
Qed.

Lemma executed_inv s k cl r w : redis_inv s → sy_calls s !! k = Some cl → executes (cl_op cl) (sy_server s) r w →
  redis_inv (executed k cl r w s).
Proof.
  intros [Hst Hcall Hack Hrep Hle Hcon] Hk Hexec.
  destruct (executes_effect _ _ _ _ _ Hst Hexec) as (Hst' & Howner & _).
  assert (Hnew : ∀ name i, cl_op cl = OpAck name i → r = RepAck 1 → sy_acked s !! i = None).
  { intros name i Ho ->. rewrite Ho in Howner. inversion Howner as [? ? ? ? ? Hne | ? ? t ? ? Hp | | |]; [by destruct (Hne _ _ eq_refl) |].
    apply not_elem_of_dom. assert (i ∈ dom (xs_pel (sy_server s))) by (apply elem_of_dom; by eexists).
    pose proof (si_split _ _ Hst). pose proof (si_gone _ _ Hst). set_solver. }
  set (acked' := sy_acked (executed k cl r w s)).
  assert (Hmono : ∀ i j, sy_acked s !! i = Some j → acked' !! i = Some j).
  { intros i j Hj. unfold acked', executed. cbn. destruct (cl_op cl) as [name i' | | | | |] eqn:Ho; try done.
    destruct r as [[| [] |] | | | | |] eqn:Hr; try done. rewrite lookup_insert_ne; [done |]. intros <-. by rewrite (Hnew _ _ eq_refl eq_refl) in Hj. }
  assert (Hinv : ∀ i j, acked' !! i = Some j → sy_acked s !! i = Some j ∨ j = k ∧ ∃ name, cl_op cl = OpAck name i).
  { intros i j. unfold acked', executed. cbn. destruct (cl_op cl) as [name i' | | | | |] eqn:Ho; try (intros ?; by left).
    destruct r as [[| [] |] | | | | |]; try (intros ?; by left). rewrite lookup_insert_Some. intros [[<- <-] | [_ ?]]; [right; eauto | by left]. }
  assert (Hlook : ∀ j x, <[k := mk_call (cl_op cl) (cl_delivery cl) (Some r)]> (sy_calls s) !! j = Some x →
    ∃ y, sy_calls s !! j = Some y ∧ cl_op x = cl_op y ∧ cl_delivery x = cl_delivery y ∧ (j ≠ k → x = y)).
  { intros j x. rewrite lookup_insert_Some. intros [[<- <-] | [? ?]]; [exists cl | by exists x]. by split_and!. }
  assert (Hlook' : ∀ j y, sy_calls s !! j = Some y → ∃ x, sy_calls (executed k cl r w s) !! j = Some x ∧ cl_op x = cl_op y ∧ cl_delivery x = cl_delivery y).
  { intros j y Hy. cbn. destruct (decide (k = j)) as [<- | ?]; [rewrite lookup_insert_eq | rewrite lookup_insert_ne by done; eauto].
    assert (y = cl) as -> by congruence. eauto. }
  split.
  - cbn. fold acked'. replace (dom acked') with (gone_after (cl_op cl) r (dom (sy_acked s))); [done |].
    unfold acked', executed, gone_after. cbn. destruct (cl_op cl); try done. destruct r as [[| [] |] | | | | |]; try done. by rewrite dom_insert_L.
  - intros j x name i Hj Ho. destruct (Hlook j x Hj) as (y & Hy & Ho' & Hd & _). rewrite Hd. apply (Hcall j y); congruence.
  - intros i j Hj. destruct (Hinv i j Hj) as [Hold | [-> [name Ho]]].
    + destruct (Hack i j Hold) as (y & name & Hy & Ho). destruct (Hlook' j y Hy) as (x & Hx & Ho' & _). exists x, name. split; [done | congruence].
    + destruct (Hlook' k cl Hk) as (x & Hx & Ho' & _). exists x, name. split; [done | congruence].
  - intros j x name i Hj Ho Hr. destruct (decide (j = k)) as [-> | Hne].
    + cbn in *. rewrite lookup_insert_eq in Hj. injection Hj as <-. cbn in *. injection Hr as ->. rewrite Ho. by rewrite lookup_insert_eq.
    + destruct (Hlook j x Hj) as (y & Hy & _ & _ & He). specialize (He Hne) as ->. apply Hmono. by apply (Hrep j y name i).
  - intros j x name idle cur Hj Ho. destruct (Hlook j x Hj) as (y & Hy & Ho' & _). apply (Hle j y name idle cur); congruence.
  - intros name c Hc. apply (consumer_inv_mono s); [| done | by apply Hcon].
    intros m i j (y & Hy & Ho & Hd). destruct (Hlook' j y Hy) as (x & Hx & Ho' & Hd'). exists x. split; [done |]. split; congruence.
Qed.

Lemma ack_replied_inv s name c n d k z : redis_inv s → sy_consumers s !! name = Some c → rq_lock c = Acknowledging n k →
  answered s k (RepAck z) → rq_deliveries c !! n = Some d → redis_inv (update name (fst (ack_replied n d z c)) s).
Proof.
  intros Hinv Hc Hlock (cl & Hcl & Hr) Hd. unfold ack_replied. destruct (z =? 1)%Z eqn:Hz; cbn.
  2: { by apply (quiet_update s name c). }
  apply Z.eqb_eq in Hz as ->. destruct (ri_consumer s Hinv name c Hc) as [H1 H2].
  destruct (H1 n k Hlock) as (d' & Hd' & Ha). assert (d' = d) as -> by congruence.
  pose proof Ha as (cl' & Hcl' & Ho & Hn). assert (cl' = cl) as -> by congruence.
  pose proof (ri_reply s Hinv k cl name _ Hcl Ho Hr) as Hacked.
  apply (update_inv s name c); [done | done | |].
  - split; [done |]. cbn. intros m e Hm. destruct (decide (n = m)) as [<- | ?].
    + exists (rd_settle d). rewrite lookup_insert_eq. by simplify_eq.
    + exists e. by rewrite lookup_insert_ne.
  - split; cbn; [done |]. intros m e. rewrite lookup_insert_Some. intros [[<- <-] | [_ Hm]]; [| by apply H2].
    intros _. by exists k.
Qed.

Lemma redis_step_inv s s' : redis_inv s → redis_step s s' → redis_inv s'.
Proof.
  intros Hinv Hstep. destruct Hstep as [s k cl r w Hk He | s d Hd | s k b Hk | s k name lease Hk Hn | s k name c r Hc Hr Ha
    | s k name c t Hc Hr Hk | s k k' n name c t cur l Hc Hr Ha Hk Hn | s k k' n name c t l Hc Hr Ha Hk Hn | s name c x Hc Hx
    | s name c n d Hc Hd Ha | s k name c n d Hc Hn Hl Hk Hd | s k name c n d z Hc Hl Ha Hd | s name c n k Hc Hl | s name c n Hc Hn
    | s name c Hc Hr | s k name c Hc Hr Hl Hk | s k name c r Hc Hr Hl Ha | s name c e Hc Hr He | s name c Hc | s name c Hc Hcl Hr].
  - by apply executed_inv.
  - destruct (xs_elapse_law d (sy_server s) Hd) as (H1 & H2 & H3 & H4 & H5). destruct Hinv as [[] ? ? ? ? Hcon]. split; try done.
    + split; cbn; rewrite ?H1, ?H2, ?H3, ?H4; done.
    + intros name c Hc. apply (consumer_inv_mono s); [done | done | by apply Hcon].
  - by apply send_inv.
  - apply send_inv; [| done | done | done]. destruct Hinv as [Hst Hcall Hack Hrep Hle Hcon].
    assert (Hne : ∀ m x, sy_consumers s !! m = Some x → name ≠ m) by congruence. split; cbn; try done.
    + intros j cl m i Hj Ho. destruct (Hcall j cl m i Hj Ho) as (n & x & d & ? & Hx & ?). exists n, x, d.
      rewrite lookup_insert_ne by by eapply Hne. done.
    + intros j cl m idle cur Hj Ho. destruct (Hle j cl m idle cur Hj Ho) as (x & Hx & ?). exists x.
      rewrite lookup_insert_ne by by eapply Hne. done.
    + intros m x. rewrite lookup_insert_Some. intros [[<- <-] | [_ Hx]]; [by split |].
      apply (consumer_inv_mono s); [done | done | by apply Hcon].
  - apply (quiet_update s name c); [done | done | by destruct r | by destruct r | by destruct r].
  - by apply send_claim_inv.
  - unfold claimed. destruct l as [| e l].
    + apply (go_on_inv s name c); try done; cbn; [by apply (quiet_update s name c) |]. by intros x [= <-].
    + by apply (adopt_inv s name c).
  - unfold read_new. destruct l as [| e l]; [by apply send_claim_inv | by apply (adopt_inv s name c)].
  - by apply (quiet_update s name c).
  - by apply (quiet_update s name c).
  - set (s1 := send k (OpAck name (rd_identity d)) (Some n) s).
    assert (Hs1 : redis_inv s1).
    { apply send_inv; [done | done | | done]. intros m i [= <- <-]. by exists n, c, d. }
    change (redis_inv (update name (ack_locked n k c) s1)). apply (update_inv s1 name c); [done | done | |].
    + split; [done |]. intros m e Hm. by exists e.
    + destruct (ri_consumer s1 Hs1 name c Hc) as [_ H2]. split; [| exact H2]. intros m j [= <- <-]. exists d. split; [done |].
      exists (mk_call (OpAck name (rd_identity d)) (Some n) None). unfold s1. cbn. by rewrite lookup_insert_eq.
  - by apply (ack_replied_inv s name c n d k z).
  - by apply (quiet_update s name c).
  - by apply (quiet_update s name c).
  - by apply (quiet_update s name c).
  - apply (go_on_inv s name c); try done; unfold renew_locked; destruct (identities c); cbn; try done;
      try (by apply (quiet_update s name c)). by intros x [= <-].
  - apply (quiet_update s name c); destruct r; try done. cbn. unfold unlock_renewal. intros n j. by destruct (rq_lock c).
  - apply (quiet_update s name c); try done. cbn. unfold unlock_renewal. intros n j. by destruct (rq_lock c).
  - by apply (quiet_update s name c).
  - apply (quiet_update s name c); try done. cbn. unfold unlock_renewal. intros n j. by destruct (rq_lock c).
Qed.

Lemma initial_inv s : initial s → redis_inv s.
Proof.
  intros (Hc & Hk & Ha & He & Hn & Hp & Hu). split; rewrite ?Hc, ?Hk, ?Ha; try done. split; rewrite ?He, ?Hn, ?Hp, ?Hu; set_solver.
Qed.
Lemma redis_reachable_inv s : redis_reachable s → redis_inv s.
Proof.
  intros (s0 & H0 & Hsteps). apply initial_inv in H0. induction Hsteps as [| s1 s2 s3 Hstep _ IH]; [done |].
  by apply IH, (redis_step_inv s1).
Qed.

Lemma elem_of_identities c i : i ∈ identities c ↔ is_Some (rq_pending c !! i).
Proof.
  unfold identities. rewrite list_elem_of_fmap. split.
  - intros ([j n] & -> & Hj%elem_of_map_to_list). by eexists.
  - intros [n Hn]. exists (i, n). split; [done |]. by apply elem_of_map_to_list.
Qed.
Lemma elem_of_pending_owners c i n d : rq_pending c !! i = Some n → rq_deliveries c !! n = Some d → rd_owner d ∈ pending_owners c.
Proof.
  intros Hi Hd. unfold pending_owners. apply elem_of_list_to_set, list_elem_of_omap. exists n. split; [| by rewrite Hd].
  apply list_elem_of_fmap. exists (i, n). split; [done |]. by apply elem_of_map_to_list.
Qed.

(** The fate of a pending entry in one step. *)
Lemma owner_step s s' i owner t : redis_inv s → redis_step s s' → xs_pel (sy_server s) !! i = Some (owner, t) →
  (∃ t', xs_pel (sy_server s') !! i = Some (owner, t') ∧ (t' = t ∨ t' = xs_now (sy_server s)))
  ∨ (xs_pel (sy_server s') !! i = None ∧ ∃ k n, sy_acked s' !! i = Some k ∧ acknowledges s' owner n i k)
  ∨ ∃ name c, sy_consumers s !! name = Some c ∧ xs_pel (sy_server s') !! i = Some (name, xs_now (sy_server s)) ∧
      (rq_lease c ≤ xs_now (sy_server s) - t)%Z.
Proof.
  intros Hinv Hstep Hp.
  assert (Hsame : xs_pel (sy_server s') = xs_pel (sy_server s) → ∃ t', xs_pel (sy_server s') !! i = Some (owner, t') ∧ (t' = t ∨ t' = xs_now (sy_server s))).
  { intros ->. eauto. }
  destruct Hstep as [s k cl r w Hk Hexec | s d Hd | | | | | s ? ? ? ? ? ? ? ? l | s ? ? ? ? ? ? l | | | | | | | | | | | |]; try (left; by apply Hsame).
  2: { left. apply Hsame. by destruct (xs_elapse_law d (sy_server s) Hd) as (_ & _ & _ & ? & _). }
  2-5: left; apply Hsame; unfold go_on, send_claim, claimed, read_new, renew_locked; try (destruct l); repeat case_match; done.
  destruct (executes_effect _ _ _ _ _ (ri_stream s Hinv) Hexec) as (_ & Howner & _). cbn in *.
  destruct cl as [o del rep]. cbn in *.
  inversion Howner as [? ? ? ? Hpel | name j t' ? ? Hj Hpel | name l ? ? Hall Hpel | name idle cur cur' j p o' t' ? ? Hj Hidle Hpel | name j p ? ? Hj Hpel]; subst.
  - left. by apply Hsame.
  - destruct (decide (i = j)) as [<- | Hne].
    + right; left. assert (name = owner) as -> by congruence. rewrite Hpel, lookup_delete_eq. split; [done |].
      destruct (ri_call s Hinv k _ owner i Hk eq_refl) as (n & c & d & Hn & _). cbn in Hn. exists k, n. rewrite lookup_insert_eq. split; [done |].
      exists (mk_call (OpAck owner i) del (Some (RepAck 1))). cbn. by rewrite lookup_insert_eq.
    + left. exists t. rewrite Hpel, lookup_delete_ne by done. by split; [| left].
  - left. rewrite Hpel. case_decide as Hi; [| eauto]. destruct (Hall i Hi) as [t' Ht']. simplify_eq. eauto.
  - rewrite Hpel. destruct (decide (j = i)) as [-> | Hne]; [| left; rewrite lookup_insert_ne by done; eauto].
    right; right. destruct (ri_lease s Hinv k _ name idle cur Hk eq_refl) as (c & Hc & Hl). simplify_eq. exists name, c.
    by rewrite lookup_insert_eq.
  - left. rewrite Hpel, lookup_insert_ne by congruence. eauto.
Qed.

(** ** Properties *)

(** C24: nothing is lost.  In every reachable state of a stream with any number of
    consumers, each published entry is either still new to the group, or pending
    in the name of a consumer, or was removed by the acknowledgement of a delivery
    of that entry: whatever consumers crash, time out, are cancelled or lose their
    lease, an entry nobody acknowledged can still be delivered. *)
Theorem redis_at_least_once s i : redis_reachable s → i ∈ xs_used (sy_server s) →
  i ∈ xs_new (sy_server s) ∧ is_Some (xs_entries (sy_server s) !! i)
  ∨ (∃ owner t, xs_pel (sy_server s) !! i = Some (owner, t)) ∧ is_Some (xs_entries (sy_server s) !! i)
  ∨ ∃ name c n d k, sy_acked s !! i = Some k ∧ acknowledges s name n i k ∧
      sy_consumers s !! name = Some c ∧ rq_deliveries c !! n = Some d ∧ rd_identity d = i.
Proof.
  intros Hinv%redis_reachable_inv Hi. destruct (ri_stream s Hinv) as [Hsplit _ Hused _].
  rewrite Hused, elem_of_union, Hsplit, elem_of_union in Hi. rewrite <- !elem_of_dom, Hsplit.
  destruct Hi as [[Hi | Hi] | Hi]; [left; set_solver | right; left | right; right].
  - split; [| set_solver]. apply elem_of_dom in Hi as [[o t] Hi]. eauto.
  - apply elem_of_dom in Hi as [k Hk]. destruct (ri_acked s Hinv i k Hk) as (cl & name & Hcl & Ho).
    destruct (ri_call s Hinv k cl name i Hcl Ho) as (n & c & d & Hn & Hc & Hd & Hi). exists name, c, n, d, k.
    split_and!; try done. by exists cl.
Qed.

(** An entry is settled once.  Of all the deliveries of one entry, to one consumer or to
    several that took it over from each other, at most one is ever acknowledged
    successfully; an acknowledgement by a consumer that no longer owns the entry ends
    with [DeliveryLostError] and changes nothing on the server. *)
Theorem redis_settled_once s : redis_reachable s →
  (∀ name1 c1 n1 d1 name2 c2 n2 d2,
     sy_consumers s !! name1 = Some c1 → rq_deliveries c1 !! n1 = Some d1 → rd_settled d1 = true →
     sy_consumers s !! name2 = Some c2 → rq_deliveries c2 !! n2 = Some d2 → rd_settled d2 = true →
     rd_identity d1 = rd_identity d2 → name1 = name2 ∧ n1 = n2)
  ∧ ∀ name c n d r w, executes (OpAck name (rd_identity d)) (sy_server s) r w →
      (∀ t, xs_pel (sy_server s) !! rd_identity d ≠ Some (name, t)) →
      w = sy_server s ∧ ∃ z, r = RepAck z ∧ snd (ack_replied n d z c) = Err DeliveryLostError.
Proof.
  intros Hinv%redis_reachable_inv. split.
  - intros name1 c1 n1 d1 name2 c2 n2 d2 Hc1 Hd1 Hs1 Hc2 Hd2 Hs2 Heq.
    destruct (ci_settled s name1 c1 (ri_consumer s Hinv _ _ Hc1) n1 d1 Hd1 Hs1) as (k1 & Hk1 & cl1 & Hcl1 & Ho1 & Hn1).
    destruct (ci_settled s name2 c2 (ri_consumer s Hinv _ _ Hc2) n2 d2 Hd2 Hs2) as (k2 & Hk2 & cl2 & Hcl2 & Ho2 & Hn2).
    rewrite Heq in Hk1. assert (k1 = k2) as -> by congruence. assert (cl1 = cl2) as -> by congruence. split; congruence.
  - intros name c n d r w Hexec Hlost. inversion Hexec as [? ? ? ? z Hrun | | | | |]; subst.
    destruct (owned_ack_run name (rd_identity d) (sy_server s)) as (w' & z' & Hrun' & Hcase).
    assert (w' = w) as -> by congruence. assert (z' = z) as -> by congruence.
    destruct Hcase as [[-> ->] | (_ & [t Ht] & _)]; [| by destruct (Hlost t)]. split; [done |]. by exists 0%Z.
Qed.


(** An entry changes hands only when its lease is over, and a consumer notices.
    A step leaves a pending entry with its owner unless the owner's own
    acknowledgement removed it, or another consumer took it over after it had been
    idle for that consumer's lease.  A renewal that succeeds restarts the lease of
    every entry the consumer has in flight; one that finds an entry in other hands
    changes nothing, asks every task with an unsettled delivery to stop, and lets
    no later [receive] hand out work. *)
Theorem redis_lease_respected s s' : redis_reachable s → redis_step s s' →
  (∀ i owner t, xs_pel (sy_server s) !! i = Some (owner, t) →
     (∃ t', xs_pel (sy_server s') !! i = Some (owner, t') ∧ (t' = t ∨ t' = xs_now (sy_server s)))
     ∨ (xs_pel (sy_server s') !! i = None ∧ ∃ k n, sy_acked s' !! i = Some k ∧ acknowledges s' owner n i k)
     ∨ ∃ name c, sy_consumers s !! name = Some c ∧ xs_pel (sy_server s') !! i = Some (name, xs_now (sy_server s)) ∧
         (rq_lease c ≤ xs_now (sy_server s) - t)%Z)
  ∧ ∀ name c r w, executes (OpRenew name (identities c)) (sy_server s) r w →
      r = RepRenew Renewed ∧ (∀ i, is_Some (rq_pending c !! i) → xs_pel w !! i = Some (name, xs_now (sy_server s)))
      ∨ ∃ i, r = RepRenew (Lost i) ∧ is_Some (rq_pending c !! i) ∧ (∀ t, xs_pel (sy_server s) !! i ≠ Some (name, t)) ∧ w = sy_server s ∧
          (∀ i' n d, rq_pending c !! i' = Some n → rq_deliveries c !! n = Some d → rd_owner d ∈ rq_cancelled (renew_replied (Lost i) c)) ∧
          is_Some (receive_head (renew_replied (Lost i) c)).
Proof.
  intros Hinv%redis_reachable_inv Hstep. split; [intros i owner t Hp; by apply (owner_step s s') | intros name c r w Hexec].
  inversion Hexec as [| w0 w0' c0 l0 r0 Hrun | | | |]; subst.
  destruct (owned_renew_run name (identities c) (sy_server s)) as (w' & r' & Hrun' & Hs & Hcase).
  { pose proof (si_split _ _ (ri_stream s Hinv)). set_solver. }
  assert (w' = w) as -> by congruence. assert (r' = r0) as -> by congruence. destruct r0 as [| i]; [left | right].
  - split; [done |]. intros i [n Hi]. destruct Hcase as [_ ->]. rewrite decide_True; [done |]. apply elem_of_identities. by eexists.
  - destruct Hcase as (Hi & Hlost & ->). exists i. split_and!; try done; [by apply elem_of_identities | |].
    + intros i' n d Hi' Hd. cbn. apply elem_of_union_l. by eapply elem_of_pending_owners.
    + unfold receive_head. cbn. by destruct (rq_closed c).
Qed.
End Invariant.

(** ** Witnesses: one consumer on a small server *)

Module Demo.
Record server := mk_server {
  dv_entries : gmap pystr (option pybytes);
  dv_new : gset pystr;
  dv_pel : gmap pystr (pystr * Z);
  dv_used : gset pystr;
  dv_now : Z;
}.
Definition set_pel (f : gmap pystr (pystr * Z) → gmap pystr (pystr * Z)) (s : server) : server :=
  mk_server (dv_entries s) (dv_new s) (f (dv_pel s)) (dv_used s) (dv_now s).

#[local] Instance demo_server : StreamServer server := {
  xpending i := λ s, (s, Ok (match dv_pel s !! i with Some (c, _) => [(i, c)] | None => [] end));
  xack i := λ s, (set_pel (delete i) s, Ok (if decide (is_Some (dv_pel s !! i)) then 1 else 0)%Z);
  xdel i := λ s, (mk_server (delete i (dv_entries s)) (dv_new s ∖ {[i]}) (dv_pel s) (dv_used s) (dv_now s), Ok 1%Z);
  xclaim c _ i := λ s, (set_pel (alter (λ _, (c, dv_now s)) i) s, Ok [i]);
  xadd b s i s' := i ∉ dv_used s ∧
    s' = mk_server (<[i := Some b]> (dv_entries s)) ({[i]} ∪ dv_new s) (dv_pel s) ({[i]} ∪ dv_used s) (dv_now s);
  xautoclaim c idle cursor s r s' :=
    match snd r with
    | [] => s' = s
    | [(i, p)] => ∃ o t, dv_pel s !! i = Some (o, t) ∧ (idle ≤ dv_now s - t)%Z ∧ dv_entries s !! i = Some p ∧
        s' = set_pel <[i := (c, dv_now s)]> s
    | _ => False
    end;
  xreadgroup c s l s' :=
    match l with
    | [] => s' = s
    | [(i, p)] => i ∈ dv_new s ∧ dv_entries s !! i = Some p ∧
        s' = mk_server (dv_entries s) (dv_new s ∖ {[i]}) (<[i := (c, dv_now s)]> (dv_pel s)) (dv_used s) (dv_now s)
    | _ => False
    end;
  xgroup_create s _ s' := s' = s;
  xs_elapse d s := mk_server (dv_entries s) (dv_new s) (dv_pel s) (dv_used s) (dv_now s + d);
  xs_entries := dv_entries;
  xs_new := dv_new;
  xs_pel := dv_pel;
  xs_used := dv_used;
  xs_now := dv_now;
}.

#[local] Instance demo_laws : StreamLaws server.
Proof.
  split; cbn; unfold same_stream; cbn; [by intros | | | | | | | |].
  - intros i s. by eexists.
  - intros i s. eexists _, 1%Z. by split_and!.
  - intros c i s o t Hi _. eexists _, [i]. split; [done |]. split; [done |]. apply map_eq. intros j. cbn.
    destruct (decide (i = j)) as [<- | ?]; [by rewrite lookup_alter_eq, Hi, lookup_insert_eq | by rewrite lookup_alter_ne, lookup_insert_ne].
  - intros b s i s' [? ->]. done.
  - intros c idle cur s cur' l s' _. destruct l as [| [i p] [|]]; [intros ->; split; [done | by left] | | done].
    intros (o & t & ? & ? & ? & ->). split; [done |]. right. eauto 10.
  - intros c s l s'. destruct l as [| [i p] [|]]; [intros ->; split_and!; try done; by left | | done]. intros (? & ? & ->). split_and!; try done. right. eauto 10.
  - by intros s r s' ->.
  - done.
Qed.

Definition id1 : pystr := u "1-0".
Definition s0 : system server := mk_system (mk_server ∅ ∅ ∅ ∅ 0) ∅ ∅ ∅.
(** Published and executed; a consumer started. *)
Definition w1 : server := mk_server {[id1 := Some []]} {[id1]} ∅ {[id1]} 0.
Definition s1 := send 0 (publish []) None s0.
Definition s2 := executed 0 (mk_call (OpAdd []) None None) (RepAdd id1) w1 s1.
Definition s3 := send 1 OpCreate None (update (u "c1") (RedisConsumer_new 3000 1) s2).
Definition s4 := executed 1 (mk_call OpCreate None None) (RepCreate Created) w1 s3.
Definition c4 := RedisConsumer_new 3000 1.
Definition c5 := started Created c4.
Definition s5 := update (u "c1") c5 s4.
(** It receives the entry: nothing to take over, then a new one. *)
Definition s6 := go_on (u "c1") 2 (send_claim (u "c1") 7 2 c5) s5.
Definition c6 := fst (send_claim (u "c1") 7 2 c5).
Definition s7 := executed 2 (mk_call (OpClaim (u "c1") 3000 (u "0-0")) None None) (RepClaim (u "0-0") []) w1 s6.
Definition s8 := go_on (u "c1") 3 (claimed (u "c1") 0 7 3 (u "0-0") [] c6) s7.
Definition c8 := fst (claimed (u "c1") 0 7 3 (u "0-0") [] c6).
Definition w9 : server := mk_server {[id1 := Some []]} ({[id1]} ∖ {[id1]}) {[id1 := (u "c1", 0%Z)]} {[id1]} 0.
Definition s9 := executed 3 (mk_call (OpRead (u "c1")) None None) (RepRead [(id1, Some [])]) w9 s8.
Definition s10 := go_on (u "c1") 4 (read_new (u "c1") 0 7 4 [(id1, Some [])] c8) s9.
Definition c10 := fst (read_new (u "c1") 0 7 4 [(id1, Some [])] c8).
Definition d10 : RedisDelivery := mk_rdelivery id1 [] false 7 false.
(** It acknowledges it. *)
Definition c11 := ack_waits 0 c10.
Definition s11 := update (u "c1") c11 s10.
Definition c12 := ack_locked 0 5 c11.
Definition s12 := send 5 (OpAck (u "c1") id1) (Some 0) (update (u "c1") c12 s11).
Definition w13 : server := mk_server (delete id1 {[id1 := Some []]}) ({[id1]} ∖ {[id1]} ∖ {[id1]}) (delete id1 {[id1 := (u "c1", 0%Z)]}) {[id1]} 0.
Definition s13 := executed 5 (mk_call (OpAck (u "c1") id1) (Some 0) None) (RepAck 1) w13 s12.
Definition c14 := fst (ack_replied 0 d10 1 c12).
Definition s14 := update (u "c1") c14 s13.

Lemma s10_reachable : redis_reachable s10.
Proof.
  exists s0. split; [by vm_compute |].
  apply rtc_l with s1; [by apply step_publish |].
  apply rtc_l with s2. { apply step_executes; [by vm_compute |]. apply exec_add. split; [by intros []%elem_of_empty | by vm_compute]. }
  apply rtc_l with s3; [by apply step_start; vm_compute |].
  apply rtc_l with s4. { apply step_executes; [by vm_compute |]. apply exec_create. by vm_compute. }
  apply rtc_l with s5. { apply (step_started s4 1); [by vm_compute | done |]. eexists. by split; [vm_compute |]. }
  apply rtc_l with s6; [by apply step_receive; vm_compute |].
  apply rtc_l with s7. { apply step_executes; [by vm_compute |]. apply exec_claim. by vm_compute. }
  apply rtc_l with s8. { apply (step_claimed s7 2); try by vm_compute. eexists. by split; [vm_compute |]. }
  apply rtc_l with s9. { apply step_executes; [by vm_compute |]. apply exec_read. split_and!; by vm_compute. }
  apply rtc_once. apply (step_read s9 3); try by vm_compute. eexists. by split; [vm_compute |].
Qed.
Lemma s12_step : redis_step s11 s12.
Proof. apply (step_ack_locked s11 5 (u "c1") c11 0 d10); by vm_compute. Qed.
Lemma s13_step : redis_step s12 s13.
Proof. apply step_executes; [by vm_compute |]. apply exec_ack. by vm_compute. Qed.
Lemma s11_reachable : redis_reachable s11.
Proof.
  destruct s10_reachable as (s & H0 & Hs). exists s. split; [done |]. eapply rtc_r; [done |].
  by apply (step_acknowledge s10 (u "c1") c10 0 d10); vm_compute.
Qed.
Lemma s12_reachable : redis_reachable s12.
Proof. destruct s11_reachable as (s & H0 & Hs). exists s. split; [done |]. eapply rtc_r; [done | exact s12_step]. Qed.
Lemma s14_reachable : redis_reachable s14.
Proof.
  destruct s12_reachable as (s & H0 & Hs). exists s. split; [done |]. eapply rtc_r; [eapply rtc_r; [done | exact s13_step] |].
  apply (step_ack_replied s13 5 (u "c1") c12 0 d10 1); try by vm_compute. eexists. by split; [vm_compute |].
Qed.
End Demo.
#[local] Existing Instances Demo.demo_server Demo.demo_laws.

Lemma redis_at_least_once_witness : redis_reachable Demo.s10 ∧ xs_used (sy_server Demo.s10) = {[Demo.id1]} ∧
  (Demo.id1 ∈ xs_new (sy_server Demo.s10) ∨ is_Some (xs_pel (sy_server Demo.s10) !! Demo.id1) ∨ is_Some (sy_acked Demo.s10 !! Demo.id1)).
Proof.
  split; [exact Demo.s10_reachable |]. split; [vm_compute; reflexivity |].
  destruct (redis_at_least_once Demo.s10 Demo.id1 Demo.s10_reachable) as [[H _] | [[(o & t & H) _] | (name & c & n & d & k & H & _)]];
    [vm_compute; reflexivity | left; exact H | right; left; exists (o, t); exact H | right; right; exists k; exact H].
Defined.

Lemma redis_settled_once_witness : redis_reachable Demo.s14 ∧
  sy_consumers Demo.s14 !! u "c1" = Some Demo.c14 ∧ rd_settled <$> rq_deliveries Demo.c14 !! 0 = Some true ∧
  ∀ c, snd (ack_replied 0 Demo.d10 0 c) = Err DeliveryLostError.
Proof.
  split; [exact Demo.s14_reachable |]. split; [vm_compute; reflexivity |]. split; [vm_compute; reflexivity |]. intros c.
  destruct (redis_settled_once Demo.s14 Demo.s14_reachable) as [_ Hstale].
  destruct (Hstale (u "c2") c 0 Demo.d10 (RepAck 0) (sy_server Demo.s14)) as (_ & z & Hz & Hc).
  - apply exec_ack. vm_compute. reflexivity.
  - intros t Ht. vm_compute in Ht. discriminate Ht.
  - injection Hz as <-. exact Hc.
Defined.

Lemma redis_lease_respected_witness : redis_reachable Demo.s12 ∧ redis_step Demo.s12 Demo.s13 ∧
  xs_pel (sy_server Demo.s12) !! Demo.id1 = Some (u "c1", 0%Z) ∧ xs_pel (sy_server Demo.s13) !! Demo.id1 = None ∧
  is_Some (sy_acked Demo.s13 !! Demo.id1).
Proof.
  assert (Hp : xs_pel (sy_server Demo.s12) !! Demo.id1 = Some (u "c1", 0%Z)) by (vm_compute; reflexivity).
  assert (Hn : xs_pel (sy_server Demo.s13) !! Demo.id1 = None) by (vm_compute; reflexivity).
  split; [exact Demo.s12_reachable |]. split; [exact Demo.s13_step |]. split; [exact Hp |]. split; [exact Hn |].
  destruct (redis_lease_respected Demo.s12 Demo.s13 Demo.s12_reachable Demo.s13_step) as [Howner _].
  destruct (Howner _ _ _ Hp) as [(t & Ht & _) | [(_ & k & n & Hk & _) | (name & c & _ & Ht & _)]].
  - rewrite Hn in Ht. discriminate Ht.
  - exists k. exact Hk.
  - rewrite Hn in Ht. discriminate Ht.
Defined.
