(* ===== verification/FailedStore.v ===== *)
(** * FailedStore: the SQL store of failed jobs

    Models [infrastructure/queue/failed/sql/{model,store}.py] over the part of an
    SQLAlchemy session it uses, the class [FailedDb]: a session collects writes,
    [commit] applies them together or not at all.  [FailedDbLaws R] says that
    each call takes effect at one moment, other sessions changing the table by
    [R] around it.  The lock of [save] only orders the calls of one instance and
    is not modelled. *)

From stdpp Require Import sorting.
From S2P Require Import Prelude Text PyVal Errors QueueMessage QueueManager.
Local Open Scope prog_scope.

Record FailedJobModel := mk_failed_model {
  fm_failure_id : pystr; fm_job_id : option pystr; fm_payload : pybytes; fm_connection : pystr; fm_queue : pystr;
  fm_failed_at : datetime; fm_attempts : Z; fm_reason : pystr; fm_error_type : option pystr;
  fm_stacktrace : option (list ExceptionStackFrame);
}.

(** [_save]: the row of a record. *)
Definition failed_row (r : FailedJobRecord) : FailedJobModel :=
  mk_failed_model (uuid_str (fj_failure_id r)) (uuid_str <$> fj_job_id r) (fj_payload r) (fj_connection r) (fj_queue r)
    (fj_failed_at r) (fj_attempts r) (fj_reason r) (fj_error_type r)
    (match fj_stacktrace r with [] => None | l => Some l end).
(** [UUID(text)] *)
Definition uuid_new (t : pystr) : result exn uuid := from_option Ok (Err ValueError) (uuid_parse t).
(** [_record] *)
Definition record_of (m : FailedJobModel) : result exn FailedJobRecord :=
  let? failure_id := uuid_new (fm_failure_id m) in
  let? job_id := match fm_job_id m with
                 | None | Some [] => Ok None
                 | Some t => let? i := uuid_new t in Ok (Some i)
                 end in
  Ok (mk_failed failure_id (fm_payload m) (fm_connection m) (fm_queue m) (fm_failed_at m) (fm_attempts m) (fm_reason m)
        job_id (fm_error_type m) (default [] (fm_stacktrace m))).

(** What a session collected since it was opened. *)
Inductive write := Add (row : FailedJobModel) | Delete (key : pystr).

Class FailedDb (W : Type) := {
  fdb_open : io W unit;                                  (* self._databases.session(self._database) *)
  fdb_close : io W unit;
  fdb_add : FailedJobModel → io W unit;
  fdb_delete : pystr → io W unit;                        (* execute(delete(FailedJobModel).where(failure_id == ...)) *)
  fdb_commit : io W unit;
  fdb_get : pystr → io W (option FailedJobModel);
  fdb_page : (FailedJobModel → FailedJobModel → bool) → Z → Z → io W (list FailedJobModel);
  fdb_writes : W → list write;
  fdb_table : W → gmap pystr FailedJobModel;
}.

Section Store.
Context {W : Type} `{FailedDb W}.

(** [async with self._databases.session(self._database) as session] *)
Definition in_session {A} (body : io W A) : io W A := fdb_open;;; finally body fdb_close.

Definition failed_find (failure_id : uuid) : io W (option FailedJobRecord) :=
  in_session (
    let* row := fdb_get (uuid_str failure_id) in
    match row with
    | Some row => let* r := lift (record_of row) in ret (Some r)
    | None => ret None
    end).

Definition is_integrity_error (e : exn) : bool := match e with IntegrityError _ => true | _ => false end.

Definition save_ (record : FailedJobRecord) : io W unit :=
  catch (in_session (fdb_add (failed_row record);;; fdb_commit))
    (λ e, if is_integrity_error e then
            let* found := failed_find (fj_failure_id record) in
            match found with None => raise e | Some _ => ret tt end
          else raise e).

(** [order_by(failed_at.desc(), failure_id.desc())] *)
Definition failed_before (a b : FailedJobModel) : bool :=
  (dt_us (fm_failed_at b) <? dt_us (fm_failed_at a))%Z
  || ((dt_us (fm_failed_at b) =? dt_us (fm_failed_at a))%Z && text_leb (fm_failure_id b) (fm_failure_id a)).
Definition failed_list (limit offset : Z) : io W (list FailedJobRecord) :=
  assert_or (negb (negb ((1 <=? limit) && (limit <=? 1000)) || (offset <? 0))%Z) ValueError;;;
  in_session (
    let* rows := fdb_page failed_before limit offset in
    lift (map_result record_of rows)).

Definition failed_delete (failure_id : uuid) : io W unit :=
  in_session (fdb_delete (uuid_str failure_id);;; fdb_commit).
End Store.

(** ** Records and rows *)

Lemma uuid_new_str i : uuid_new (uuid_str i) = Ok i.
Proof. unfold uuid_new. by rewrite uuid_parse_str. Qed.
Lemma uuid_str_nonempty i : uuid_str i ≠ [].
Proof. intros Hi. pose proof (uuid_parse_str i) as Hp. rewrite Hi in Hp. by vm_compute in Hp. Qed.

Lemma record_of_row r : record_of (failed_row r) = Ok r.
Proof.
  unfold record_of. cbn. rewrite uuid_new_str. cbn. destruct r as [i b c q t n re job ty l]. cbn.
  destruct job as [j |]; cbn; [| by destruct l]. destruct (uuid_str j) eqn:Hj; [by destruct (uuid_str_nonempty j) |].
  rewrite <- Hj, uuid_new_str. by destruct l.
Qed.

(** ** The database *)

Abbreviation failures := (gmap uuid FailedJobRecord).
(** The table of a set of records. *)
Definition table_of (s : failures) : gmap pystr FailedJobModel := kmap uuid_str (failed_row <$> s).

Lemma table_of_lookup s i : table_of s !! uuid_str i = failed_row <$> s !! i.
Proof. unfold table_of. by rewrite lookup_kmap, lookup_fmap by apply _. Qed.
Lemma table_of_insert s r : table_of (<[fj_failure_id r := r]> s) = <[uuid_str (fj_failure_id r) := failed_row r]> (table_of s).
Proof. unfold table_of. rewrite fmap_insert. by rewrite kmap_insert by apply _. Qed.
Lemma table_of_delete s i : table_of (delete i s) = delete (uuid_str i) (table_of s).
Proof. unfold table_of. rewrite fmap_delete. by rewrite kmap_delete by apply _. Qed.
Lemma table_of_inj s1 s2 : table_of s1 = table_of s2 → s1 = s2.
Proof.
  intros Heq. apply map_eq. intros i. pose proof (table_of_lookup s1 i) as H1. rewrite Heq, table_of_lookup in H1.
  destruct (s1 !! i) as [a |], (s2 !! i) as [b |]; cbn in H1; try done. assert (Hab : failed_row a = failed_row b) by congruence.
  apply (f_equal record_of) in Hab. rewrite !record_of_row in Hab. congruence.
Qed.

(** The writes of a transaction; [None]: a primary key is taken. *)
Fixpoint apply_writes (l : list write) (t : gmap pystr FailedJobModel) : option (gmap pystr FailedJobModel) :=
  match l with
  | [] => Some t
  | Add row :: l => match t !! fm_failure_id row with
                    | Some _ => None
                    | None => apply_writes l (<[fm_failure_id row := row]> t)
                    end
  | Delete key :: l => apply_writes l (delete key t)
  end.

Section Laws.
Context {W : Type} `{FailedDb W}.
Context (R : relation failures).

(** [m] takes effect at one moment between steps of the other sessions. *)
Definition takes_effect {A} (m : io W A) (writes : list write → result exn A → list write) (w : W)
    (effect : failures → result exn A → failures → Prop) : Prop :=
  ∀ s, fdb_table w = table_of s →
  wp m (λ r w', fdb_writes w' = writes (fdb_writes w) r ∧
    ∃ s1 s2 s', R s s1 ∧ effect s1 r s2 ∧ R s2 s' ∧ fdb_table w' = table_of s') w.

Definition unchanged {A} (s1 : failures) (_ : result exn A) (s2 : failures) : Prop := s2 = s1.
Definition committed (l : list write) (s1 : failures) (r : result exn unit) (s2 : failures) : Prop :=
  match r with
  | Ok _ => apply_writes l (table_of s1) = Some (table_of s2)
  | Err (IntegrityError _) => s2 = s1
  | Err _ => s2 = s1 ∨ apply_writes l (table_of s1) = Some (table_of s2)       (* the answer may be lost *)
  end.
Definition appended (x : write) (l : list write) (r : result exn unit) : list write :=
  match r with Ok _ => l ++ [x] | Err _ => l end.

Class FailedDbLaws : Prop := {
  fdb_open_law w : takes_effect fdb_open (λ _ _, []) w unchanged;
  fdb_close_law w : takes_effect fdb_close (λ _ _, []) w unchanged;
  fdb_add_law row w : takes_effect (fdb_add row) (appended (Add row)) w unchanged;
  fdb_delete_law key w : takes_effect (fdb_delete key) (appended (Delete key)) w unchanged;
  (* the rows are the rows of records *)
  fdb_commit_law w : (∀ s t, apply_writes (fdb_writes w) (table_of s) = Some t → ∃ s', t = table_of s') →
    takes_effect fdb_commit (λ _ _, []) w (committed (fdb_writes w));
  fdb_get_law key w : takes_effect (fdb_get key) (λ l _, l) w
    (λ s1 r s2, s2 = s1 ∧ ∀ o, r = Ok o → o = table_of s1 !! key);
  fdb_page_law before limit offset w : Total (λ a b, before a b = true) → Transitive (λ a b, before a b = true) →
    (0 < limit)%Z → (0 ≤ offset)%Z → takes_effect (fdb_page before limit offset) (λ l _, l) w
    (λ s1 r s2, s2 = s1 ∧ ∀ rows, r = Ok rows → ∃ l, l ≡ₚ map snd (map_to_list (table_of s1)) ∧
       StronglySorted (λ a b, before a b = true) l ∧ rows = take (Z.to_nat limit) (drop (Z.to_nat offset) l));
  (* connection errors are no integrity errors *)
  fdb_open_errors w w' e : fdb_open w = (w', Err e) → is_integrity_error e = false;
  fdb_add_errors row w w' e : fdb_add row w = (w', Err e) → is_integrity_error e = false;
  fdb_close_errors w w' e : fdb_close w = (w', Err e) → is_integrity_error e = false;
}.
End Laws.

(** ** The operations on the set of records *)

Section Refinement.
Context {W : Type} (R : relation failures) `{!PreOrder R} `{DL : !FailedDb W, !FailedDbLaws R}.

(** An operation is atomic: it takes effect once, between steps of the others. *)
Definition atomically {A} (m : io W A) (effect : failures → result exn A → failures → Prop) (w : W) : Prop :=
  ∀ s, fdb_table w = table_of s →
  wp m (λ r w', ∃ s1 s2 s', R s s1 ∧ effect s1 r s2 ∧ R s2 s' ∧ fdb_table w' = table_of s') w.

Definition save_effect (record : FailedJobRecord) (s1 : failures) (r : result exn unit) (s2 : failures) : Prop :=
  let stored := if bool_decide (is_Some (s1 !! fj_failure_id record)) then s1 else <[fj_failure_id record := record]> s1 in
  match r with Ok _ => s2 = stored | Err _ => s2 = s1 ∨ s2 = stored end.
Definition find_effect (i : uuid) (s1 : failures) (r : result exn (option FailedJobRecord)) (s2 : failures) : Prop :=
  s2 = s1 ∧ ∀ o, r = Ok o → o = s1 !! i.
Definition delete_effect (i : uuid) (s1 : failures) (r : result exn unit) (s2 : failures) : Prop :=
  match r with Ok _ => s2 = delete i s1 | Err _ => s2 = s1 ∨ s2 = delete i s1 end.
(** Newest first, by identity among equal times. *)
Definition record_before (a b : FailedJobRecord) : Prop := failed_before (failed_row a) (failed_row b) = true.
Definition list_effect (limit offset : Z) (s1 : failures) (r : result exn (list FailedJobRecord)) (s2 : failures) : Prop :=
  s2 = s1 ∧ (r = Err ValueError ∨ (1 ≤ limit ≤ 1000 ∧ 0 ≤ offset)%Z) ∧
  ∀ l, r = Ok l → ∃ all, all ≡ₚ map snd (map_to_list s1) ∧ StronglySorted record_before all ∧
    l = take (Z.to_nat limit) (drop (Z.to_nat offset) all).

(** A session around one operation: opening and closing only add errors. *)
Lemma in_session_atomic {A} (body : io W A) (effect : failures → result exn A → failures → Prop) w :
  (∀ w, fdb_writes w = [] → atomically body effect w) →
  (∀ e s, is_integrity_error e = false → effect s (Err e) s) →
  (∀ s1 r e s2, effect s1 r s2 → is_integrity_error e = false → effect s1 (Err e) s2) →
  atomically (in_session body) effect w.
Proof.
  intros Hbody Hopen Hclose s Hw. unfold in_session. apply wp_bind.
  apply wp_of_run. intros w1 r1 Hr1. destruct (wp_run _ _ _ _ _ (fdb_open_law R w s Hw) Hr1) as (Hl & s1 & s2 & s3 & HR1 & -> & HR2 & Hw1).
  destruct r1 as [[] | e].
  2: { exists s1, s1, s3. split_and!; [done | | done | done]. apply Hopen. by eapply fdb_open_errors. }
  unfold finally, wp. destruct (body w1) as [w2 r2] eqn:Hr2.
  destruct (wp_run _ _ _ _ _ (Hbody w1 Hl s3 Hw1) Hr2) as (s4 & s5 & s6 & HR3 & Heff & HR4 & Hw2).
  destruct (fdb_close w2) as [w3 r3] eqn:Hr3.
  destruct (wp_run _ _ _ _ _ (fdb_close_law R w2 s6 Hw2) Hr3) as (_ & s7 & s8 & s9 & HR5 & -> & HR6 & Hw3).
  assert (HRs : R s s4) by (etrans; [done |]; etrans; [done |]; done).
  assert (HRe : R s5 s9) by (etrans; [done |]; etrans; [done |]; done).
  destruct r3 as [[] | e]; exists s4, s5, s9; split_and!; try done.
  eapply Hclose; [done |]. by eapply fdb_close_errors.
Qed.

Lemma find_atomic i w : atomically (failed_find i) (find_effect i) w.
Proof.
  apply in_session_atomic; [| by intros; split | by intros s1 r e s2 [-> _] _; split].
  clear w. intros w _ s Hw. apply wp_bind. eapply wp_mono; [by apply (fdb_get_law R) |].
  intros r w' (_ & s1 & s2 & s3 & HR1 & [-> Hr] & HR2 & Hw').
  destruct r as [o | e]; [| by exists s1, s1, s3]. pose proof (Hr o eq_refl) as Ho. rewrite table_of_lookup in Ho.
  destruct (s1 !! i) as [record |] eqn:Hi; cbn in Ho; subst o.
  - apply wp_bind, wp_lift. rewrite record_of_row. cbn. exists s1, s1, s3. split_and!; try done. split; [done |]. intros o [= <-]. done.
  - exists s1, s1, s3. split_and!; try done. split; [done |]. intros o [= <-]. done.
Qed.

(** [session.add] and [session.commit], before a conflict is looked into. *)
Definition insert_effect (record : FailedJobRecord) (s1 : failures) (r : result exn unit) (s2 : failures) : Prop :=
  let inserted := s1 !! fj_failure_id record = None ∧ s2 = <[fj_failure_id record := record]> s1 in
  match r with Ok _ => inserted | Err e => s2 = s1 ∨ is_integrity_error e = false ∧ inserted end.

Lemma add_one record s1 t : apply_writes [Add (failed_row record)] (table_of s1) = Some t →
  s1 !! fj_failure_id record = None ∧ t = table_of (<[fj_failure_id record := record]> s1).
Proof.
  cbn. rewrite table_of_lookup. destruct (s1 !! fj_failure_id record); cbn; [done |]. intros [= <-]. by rewrite table_of_insert.
Qed.

Lemma insert_atomic record w : atomically (in_session (fdb_add (failed_row record);;; fdb_commit)) (insert_effect record) w.
Proof.
  apply in_session_atomic; [| by intros e s _; left | by intros s1 [[] | e0] e s2; cbn; intuition].
  clear w. intros w Hl s Hw. apply wp_bind. apply wp_of_run. intros w1 r1 Hr1.
  destruct (wp_run _ _ _ _ _ (fdb_add_law R (failed_row record) w s Hw) Hr1) as (Hl1 & s1 & s2 & s3 & HR1 & -> & HR2 & Hw1).
  destruct r1 as [[] | e]; [| exists s1, s1, s3; split_and!; try done; by left].
  cbn in Hl1. rewrite Hl in Hl1. cbn in Hl1. eapply wp_mono; [apply (fdb_commit_law R); [| done]; rewrite Hl1; intros s0 t [_ ->]%add_one; by eexists |].
  intros r w2 (_ & s4 & s5 & s6 & HR3 & Hc & HR4 & Hw2). rewrite Hl1 in Hc. exists s4, s5, s6.
  split_and!; [by etrans; [| by etrans; [| done]] | | done | done].
  assert (Hins : apply_writes [Add (failed_row record)] (table_of s4) = Some (table_of s5) →
    s4 !! fj_failure_id record = None ∧ s5 = <[fj_failure_id record := record]> s4).
  { intros [Hn Ht%table_of_inj]%add_one. done. }
  unfold committed in Hc. destruct r as [[] | e]; [by apply Hins |].
  destruct (is_integrity_error e) eqn:He; [left; by destruct e |].
  destruct e; try done; (destruct Hc as [-> | Hc]; [by left | right; split; [done | by apply Hins]]).
Qed.

Lemma save_atomic record w : atomically (save_ record) (save_effect record) w.
Proof.
  intros s Hw. unfold save_. apply wp_catch. eapply wp_mono; [by apply insert_atomic |].
  intros r w1 (s1 & s2 & s3 & HR1 & Hins & HR2 & Hw1). unfold save_effect.
  assert (Hs : s1 !! fj_failure_id record = None →
    (if bool_decide (is_Some (s1 !! fj_failure_id record)) then s1 else <[fj_failure_id record := record]> s1) = <[fj_failure_id record := record]> s1).
  { intros ->. by rewrite bool_decide_false by by intros []. }
  destruct r as [[] | e].
  - destruct Hins as [Hn ->]. exists s1, (<[fj_failure_id record := record]> s1), s3. by rewrite Hs.
  - destruct (is_integrity_error e) eqn:He.
    + destruct Hins as [-> | [Hf _]]; [| congruence]. apply wp_bind. eapply wp_mono; [by apply find_atomic |].
      intros r w2 (s4 & s5 & s6 & HR3 & [-> Hfind] & HR4 & Hw2).
      destruct r as [[found |] | e2]; cbn; exists s4, s4, s6;
        (split_and!; [by etrans; [| by etrans; [| done]] | | done | done]); [| by left | by left].
      rewrite <- (Hfind _ eq_refl). by rewrite bool_decide_true.
    + exists s1, s2, s3. destruct Hins as [-> | (_ & Hn & ->)]; split_and!; try done; [by left |]. right. by rewrite Hs.
Qed.

Lemma delete_atomic i w : atomically (failed_delete i) (delete_effect i) w.
Proof.
  apply in_session_atomic; [| by intros e s _; left | by intros s1 [[] | e0] e s2; cbn; intuition].
  clear w. intros w Hl s Hw. apply wp_bind. apply wp_of_run. intros w1 r1 Hr1.
  destruct (wp_run _ _ _ _ _ (fdb_delete_law R (uuid_str i) w s Hw) Hr1) as (Hl1 & s1 & s2 & s3 & HR1 & -> & HR2 & Hw1).
  destruct r1 as [[] | e]; [| exists s1, s1, s3; split_and!; try done; by left].
  cbn in Hl1. rewrite Hl in Hl1. cbn in Hl1. eapply wp_mono; [apply (fdb_commit_law R); [| done]; rewrite Hl1; intros s0 t; cbn; rewrite <- table_of_delete; intros [= <-]; by eexists |].
  intros r w2 (_ & s4 & s5 & s6 & HR3 & Hc & HR4 & Hw2). rewrite Hl1 in Hc. exists s4, s5, s6.
  split_and!; [by etrans; [| by etrans; [| done]] | | done | done].
  assert (Hdel : apply_writes [Delete (uuid_str i)] (table_of s4) = Some (table_of s5) → s5 = delete i s4).
  { cbn. rewrite <- table_of_delete. intros [= Ht%table_of_inj]. done. }
  unfold committed in Hc. destruct r as [[] | e]; [by apply Hdel |]. destruct e; cbn; naive_solver.
Qed.

#[local] Instance failed_before_total : Total (λ a b, failed_before a b = true).
Proof.
  intros a b. unfold failed_before. rewrite !orb_true_iff, !andb_true_iff, !Z.ltb_lt, !Z.eqb_eq.
  destruct (text_leb_total (fm_failure_id b) (fm_failure_id a)); lia || (destruct (Z.lt_trichotomy (dt_us (fm_failed_at a)) (dt_us (fm_failed_at b))) as [? | [? | ?]]; intuition lia).
Qed.
#[local] Instance failed_before_trans : Transitive (λ a b, failed_before a b = true).
Proof.
  intros a b c. unfold failed_before. rewrite !orb_true_iff, !andb_true_iff, !Z.ltb_lt, !Z.eqb_eq.
  intros [H1 | [H1 T1]] [H2 | [H2 T2]]; [left; lia.. |]. right. split; [lia |]. by eapply (text_le_trans _ (fm_failure_id b)).
Qed.

Lemma rows_of_table s1 : map snd (map_to_list (table_of s1)) ≡ₚ map failed_row (map snd (map_to_list s1)).
Proof.
  unfold table_of. rewrite map_to_list_kmap, map_to_list_fmap by apply _.
  rewrite !List.map_map. by apply reflexive_eq, List.map_ext; intros [].
Qed.

Lemma list_atomic limit offset w : atomically (failed_list limit offset) (list_effect limit offset) w.
Proof.
  intros s Hw. unfold failed_list. apply wp_bind, wp_lift. unfold guard.
  destruct (negb (negb ((1 <=? limit) && (limit <=? 1000)) || (offset <? 0)))%Z eqn:Hg; cbn.
  2: { exists s, s, s. split_and!; try done. split; [done |]. split; [by left | done]. }
  apply negb_true_iff, orb_false_iff in Hg as [[Hl Hu]%negb_false_iff%andb_true_iff Ho].
  apply Z.leb_le in Hl, Hu. apply Z.ltb_ge in Ho. revert s Hw.
  apply (in_session_atomic (A := list FailedJobRecord)); 
    [| by intros e s _; split; [| split; [right |]] | by intros s1 r e s2 (-> & _ & _) _; split; [| split; [right |]]].
  clear w. intros w _ s Hw. apply wp_bind. eapply wp_mono; [by apply (fdb_page_law R); [apply _ | apply _ | lia | lia |] |].
  intros r w' (_ & s1 & s2 & s3 & HR1 & [-> Hr] & HR2 & Hw'). destruct r as [rows | e].
  2: { exists s1, s1, s3. split_and!; try done. split; [done |]. split; [by right | done]. }
  destruct (Hr rows eq_refl) as (l & Hperm & Hsort & ->). rewrite rows_of_table in Hperm.
  apply Permutation_map_inv in Hperm as (all & -> & Hperm).
  apply wp_lift. exists s1, s1, s3. split_and!; try done. split; [done |]. split; [by right |].
  rewrite List.skipn_map, List.firstn_map. rewrite (map_result_on record_of failed_row) by (intros; apply record_of_row).
  intros l [= <-]. exists all. split; [by symmetry |]. split; [| done]. clear -Hsort.
  induction all as [| x all IH]; cbn in Hsort; [constructor |].
  apply StronglySorted_inv in Hsort as [Hsort Hx]. constructor; [by apply IH |]. by apply Forall_map in Hx.
Qed.

(** C16: the SQL store keeps the contract of a failed job store.  Seen as a map from
    failure identities to records, every operation takes effect at one moment,
    whatever other workers write meanwhile: [save] adds the record unless the
    identity is taken, and then returns normally and leaves the first record as it
    is, [find] returns exactly the record, [delete] removes it whether or not it is
    there, [list] returns one page of all records, newest first, and refuses limits
    outside 1 to 1000 and negative offsets.  An operation that raises changed
    nothing or took effect as a whole. *)
Theorem failed_store_correct (record : FailedJobRecord) (i : uuid) (limit offset : Z) (w : W) :
  atomically (save_ record) (save_effect record) w ∧
  atomically (failed_find i) (find_effect i) w ∧
  atomically (failed_delete i) (delete_effect i) w ∧
  atomically (failed_list limit offset) (list_effect limit offset) w.
Proof. split_and!; [apply save_atomic | apply find_atomic | apply delete_atomic | apply list_atomic]. Qed.

(** What a worker relies on: while nobody deletes records, a failure that was
    saved is found when its message comes again. *)
Lemma failure_found_again record s w w1 w2 o : (∀ s s' i, R s s' → is_Some (s !! i) → is_Some (s' !! i)) →
  fdb_table w = table_of s → save_ record w = (w1, Ok tt) → failed_find (fj_failure_id record) w1 = (w2, Ok o) → is_Some o.
Proof.
  intros Hkeep Hw Hsave Hfind. destruct (wp_run _ _ _ _ _ (save_atomic record w s Hw) Hsave) as (s1 & s2 & s3 & _ & -> & HR & Hw1).
  destruct (wp_run _ _ _ _ _ (find_atomic (fj_failure_id record) w1 s3 Hw1) Hfind) as (s4 & s5 & s6 & HR' & [-> Hr] & _).
  rewrite (Hr o eq_refl). apply (Hkeep s3); [done |]. eapply Hkeep; [done |].
  case_bool_decide; [done |]. rewrite lookup_insert_eq. by eexists.
Qed.
End Refinement.

(** ** Witness: a database without other sessions *)

Record DemoDb := mk_demo_db { dd_table : gmap pystr FailedJobModel; dd_writes : list write }.
#[local] Instance before_dec (before : FailedJobModel → FailedJobModel → bool) : RelDecision (λ a b, before a b = true).
Proof. intros a b. apply bool_eq_dec. Defined.
#[local] Instance demo_failed_db : FailedDb DemoDb := {
  fdb_open := λ w, (mk_demo_db (dd_table w) [], Ok tt);
  fdb_close := λ w, (mk_demo_db (dd_table w) [], Ok tt);
  fdb_add row := λ w, (mk_demo_db (dd_table w) (dd_writes w ++ [Add row]), Ok tt);
  fdb_delete key := λ w, (mk_demo_db (dd_table w) (dd_writes w ++ [Delete key]), Ok tt);
  fdb_commit := λ w, match apply_writes (dd_writes w) (dd_table w) with
                     | Some t => (mk_demo_db t [], Ok tt)
                     | None => (mk_demo_db (dd_table w) [], Err (IntegrityError None))
                     end;
  fdb_get key := λ w, (w, Ok (dd_table w !! key));
  fdb_page before limit offset := λ w, (w, Ok (take (Z.to_nat limit) (drop (Z.to_nat offset)
    (merge_sort (λ a b, before a b = true) (map snd (map_to_list (dd_table w)))))));
  fdb_writes := dd_writes;
  fdb_table := dd_table;
}.

#[local] Instance demo_failed_laws : FailedDbLaws (W := DemoDb) eq.
Proof.
  split.
  - intros w s Hs. split; [done | by exists s, s, s].
  - intros w s Hs. split; [done | by exists s, s, s].
  - intros row w s Hs. split; [done | by exists s, s, s].
  - intros key w s Hs. split; [done | by exists s, s, s].
  - intros w Hrep s Hs. unfold wp. cbn in *. destruct (apply_writes (dd_writes w) (dd_table w)) as [t |] eqn:Ht; cbn.
    + rewrite Hs in Ht. destruct (Hrep s t Ht) as [s' ->]. split; [done |]. by exists s, s', s'.
    + split; [done |]. by exists s, s, s.
  - intros key w s Hs. split; [done |]. exists s, s, s. split_and!; try done. intros o Ho. cbn in Hs. rewrite <- Hs. congruence.
  - intros before limit offset w Htot Htra _ _ s Hs. unfold wp. cbn. split; [done |]. exists s, s, s. split_and!; try done.
    intros rows [= <-]. cbn in Hs. rewrite Hs. set (le := λ a b, before a b = true) in *.
    exists (merge_sort le (map snd (map_to_list (table_of s)))).
    split; [apply (merge_sort_Permutation le) |]. split; [by apply (StronglySorted_merge_sort le) | done].
  - done.
  - done.
  - done.
Qed.

Definition demo_record : FailedJobRecord :=
  mk_failed demo_replay_id [] (u "main") (u "mail") (mk_dt 0 None) 3 (u "error") None None [].
Definition demo_db : DemoDb := mk_demo_db (table_of ∅) [].

(** Saving twice keeps the first record; it is found again. *)
Lemma failed_store_correct_witness :
  fdb_table demo_db = table_of ∅ ∧
  ∃ w1 s1, save_ demo_record demo_db = (w1, Ok tt) ∧ fdb_table w1 = table_of s1 ∧ s1 !! demo_replay_id = Some demo_record.
Proof.
  split; [reflexivity |].
  destruct (failed_store_correct eq demo_record demo_replay_id 1 0 demo_db) as (Hsave & _).
  destruct (save_ demo_record demo_db) as [w1 r1] eqn:Hrun.
  assert (Hr : r1 = Ok tt) by (apply (f_equal snd) in Hrun; vm_compute in Hrun; symmetry; exact Hrun). subst r1.
  destruct (wp_run _ _ _ _ _ (Hsave ∅ eq_refl) Hrun) as (s1 & s2 & s3 & <- & Heff & <- & Hw1).
  exists w1, s2. split; [reflexivity |]. split; [exact Hw1 |]. unfold save_effect in Heff. subst s2. vm_compute. reflexivity.
Defined.
