(* ===== verification/Schema.v ===== *)
(** * Schema: the tables, their migrations and the rows they accept

    Models [infrastructure/database/orm/], the ORM models of users, sessions and
    failed jobs as table definitions, the revisions of
    [database/main/migrations/versions/] as lists of operations, and [env.py].
    Comments of tables and columns are left out, and so is the check that every
    model was declared on [MainBase], which its class says.  A database is the dict of its
    tables; Alembic runs the operations of a revision in order. *)

From S2P Require Import Prelude Text PyVal Errors UserDomain UserContracts UserPersistence QueueMessage QueueManager FailedStore.
Local Open Scope prog_scope.

(** ** Tables *)

Inductive sql_type :=
| SString (length : Z) | SText | SInteger | SDateTime | SJson
| SBinary (mysql_long : bool).                      (* LargeBinary, LONGBLOB on MySQL *)
Record Column := mk_column { co_name : string; co_type : sql_type; co_nullable : bool; co_server_default : option string }.
Definition column (name : string) (t : sql_type) : Column := mk_column name t false None.
Definition nullable (name : string) (t : sql_type) : Column := mk_column name t true None.

(** The conditions of the CHECK constraints. *)
Inductive check_condition := ColumnIn (column : string) (values : list string) | ColumnGreater (a b : string).
Inductive Constraint :=
| PrimaryKey (name : string) (column : string)
| Unique (name : string) (column : string)
| Check_ (name : string) (condition : check_condition)
| ForeignKey (name : string) (column : string) (ref_table ref_column : string) (ondelete : string).
Record Index := mk_index { ix_name : string; ix_column : string; ix_unique : bool }.
Record Table := mk_table { tb_columns : list Column; tb_constraints : list Constraint; tb_indexes : list Index }.
Abbreviation Schema := (list (string * Table)).
#[export] Instance sql_type_eq_dec : EqDecision sql_type. Proof. solve_decision. Defined.
#[export] Instance column_eq_dec : EqDecision Column. Proof. solve_decision. Defined.
#[export] Instance check_condition_eq_dec : EqDecision check_condition. Proof. solve_decision. Defined.
#[export] Instance constraint_eq_dec : EqDecision Constraint. Proof. solve_decision. Defined.
#[export] Instance index_eq_dec : EqDecision Index. Proof. solve_decision. Defined.
#[export] Instance table_eq_dec : EqDecision Table. Proof. solve_decision. Defined.

(** ** The ORM models *)
Record MappedColumn := mk_mapped {
  mc_column : Column; mc_primary_key : bool; mc_index : bool; mc_foreign_key : option (string * string * string);   (* table, column, ondelete *)
}.
Definition mapped (c : Column) : MappedColumn := mk_mapped c false false None.
Definition indexed (c : Column) : MappedColumn := mk_mapped c false true None.
Definition primary_key (c : Column) : MappedColumn := mk_mapped c true false None.
Record Model := mk_orm_model {
  om_tablename : string; om_unique : list string; om_checks : list (string * check_condition); om_columns : list MappedColumn;
}.
Definition FailedJobModel_table : Model :=
  mk_orm_model "queue_failed_jobs" [] []
    [primary_key (column "failure_id" (SString 36)); mapped (nullable "job_id" (SString 36)); mapped (column "payload" (SBinary true));
     mapped (column "connection" (SString 200)); mapped (column "queue" (SString 200)); indexed (column "failed_at" SDateTime);
     mapped (column "attempts" SInteger); mapped (column "reason" (SString 200)); mapped (nullable "error_type" SText);
     mapped (nullable "stacktrace" SJson)].
Definition UserModel_table : Model :=
  mk_orm_model "users" ["username"; "email"]%string [("status", ColumnIn "status" ["active"; "disabled"])]%string
    [primary_key (column "id" (SString 36)); mapped (column "username" (SString 32)); mapped (column "email" (SString 254));
     mapped (column "password" (SString 255)); mapped (column "status" (SString 16)); mapped (column "created_at" SDateTime);
     mapped (column "updated_at" SDateTime); mapped (mk_column "version" SInteger false (Some "1"%string))].
Definition UserSessionModel_table : Model :=
  mk_orm_model "user_sessions" [] [("time_range", ColumnGreater "expires_at" "issued_at")]%string
    [primary_key (column "token_digest" (SString 64));
     mk_mapped (column "user_id" (SString 36)) false true (Some ("users", "id", "CASCADE")%string);
     mapped (column "issued_at" SDateTime); indexed (column "expires_at" SDateTime)].
Definition MAIN_DATABASE_MODELS : list Model := [FailedJobModel_table; UserModel_table; UserSessionModel_table].

(** *** [CONSTRAINT_NAMING_CONVENTION] *)
Definition ix_convention (table col : string) : string := "ix_" ++ table ++ "_" ++ col.       (* column_0_label *)
Definition uq_convention (table col : string) : string := "uq_" ++ table ++ "_" ++ col.
Definition ck_convention (table name : string) : string := "ck_" ++ table ++ "_" ++ name.
Definition fk_convention (table col ref : string) : string := "fk_" ++ table ++ "_" ++ col ++ "_" ++ ref.
Definition pk_convention (table : string) : string := "pk_" ++ table.
Definition column_constraints (table : string) (m : MappedColumn) : list Constraint :=
  let name := co_name (mc_column m) in
  (if mc_primary_key m then [PrimaryKey (pk_convention table) name] else [])
  ++ match mc_foreign_key m with
     | Some (ref, ref_column, ondelete) => [ForeignKey (fk_convention table name ref) name ref ref_column ondelete]
     | None => []
     end.
Definition table_of (m : Model) : Table :=
  let table := om_tablename m in
  mk_table (map mc_column (om_columns m))
    (map (λ c, Unique (uq_convention table c) c) (om_unique m)
     ++ map (λ nc, Check_ (ck_convention table nc.1) nc.2) (om_checks m)
     ++ flat_map (column_constraints table) (om_columns m))
    (flat_map (λ c, if mc_index c then [mk_index (ix_convention table (co_name (mc_column c))) (co_name (mc_column c)) false] else []) (om_columns m)).
(** [load_main_database_metadata] *)
Definition load_main_database_metadata : Schema := map (λ m, (om_tablename m, table_of m)) MAIN_DATABASE_MODELS.

(** ** Migrations *)
Inductive operation :=
| CreateTable (name : string) (columns : list Column) (constraints : list Constraint)
| CreateIndex (index : Index) (table : string)
| DropTable (name : string).
Record Revision := mk_revision { rv_id : string; rv_down : option string; rv_upgrade : list operation; rv_downgrade : list operation }.

Definition create_queue_failed_jobs_table : Revision :=
  mk_revision "c90c9d934260" None
    [CreateTable "queue_failed_jobs"
       [column "failure_id" (SString 36); nullable "job_id" (SString 36); column "payload" (SBinary true); column "connection" (SString 200);
        column "queue" (SString 200); column "failed_at" SDateTime; column "attempts" SInteger; column "reason" (SString 200);
        nullable "error_type" SText; nullable "stacktrace" SJson]
       [PrimaryKey "pk_queue_failed_jobs" "failure_id"];
     CreateIndex (mk_index "ix_queue_failed_jobs_failed_at" "failed_at" false) "queue_failed_jobs"]
    [DropTable "queue_failed_jobs"].
Definition create_users_table : Revision :=
  mk_revision "38d220220aa1" (Some "c90c9d934260"%string)
    [CreateTable "users"
       [column "id" (SString 36); column "username" (SString 32); column "email" (SString 254); column "password" (SString 255);
        column "status" (SString 16); column "created_at" SDateTime; column "updated_at" SDateTime;
        mk_column "version" SInteger false (Some "1"%string)]
       [Check_ "ck_users_status" (ColumnIn "status" ["active"; "disabled"]%string); PrimaryKey "pk_users" "id";
        Unique "uq_users_email" "email"; Unique "uq_users_username" "username"]]
    [DropTable "users"].
Definition create_user_sessions_table : Revision :=
  mk_revision "4c7ca5ba7a1d" (Some "38d220220aa1"%string)
    [CreateTable "user_sessions"
       [column "token_digest" (SString 64); column "user_id" (SString 36); column "issued_at" SDateTime; column "expires_at" SDateTime]
       [Check_ "ck_user_sessions_time_range" (ColumnGreater "expires_at" "issued_at");
        ForeignKey "fk_user_sessions_user_id_users" "user_id" "users" "id" "CASCADE"; PrimaryKey "pk_user_sessions" "token_digest"];
     CreateIndex (mk_index "ix_user_sessions_expires_at" "expires_at" false) "user_sessions";
     CreateIndex (mk_index "ix_user_sessions_user_id" "user_id" false) "user_sessions"]
    [DropTable "user_sessions"].
Definition versions : list Revision := [create_queue_failed_jobs_table; create_users_table; create_user_sessions_table].

(** What the database does; [None] is an error.  A foreign key needs its table,
    and a table that another one refers to is not dropped. *)
Fixpoint table_find (s : Schema) (name : string) : option Table :=
  match s with [] => None | (n, t) :: s => if decide (n = name) then Some t else table_find s name end.
Definition refers_to (name : string) (t : Table) : bool :=
  existsb (λ c, match c with ForeignKey _ _ ref _ _ => bool_decide (ref = name) | _ => false end) (tb_constraints t).
Definition resolved (s : Schema) (c : Constraint) : bool :=
  match c with
  | ForeignKey _ _ ref ref_column _ =>
      match table_find s ref with Some t => existsb (λ k, bool_decide (co_name k = ref_column)) (tb_columns t) | None => false end
  | _ => true
  end.
Definition run_operation (o : operation) (s : Schema) : option Schema :=
  match o with
  | CreateTable name columns constraints =>
      if bool_decide (table_find s name = None) && forallb (resolved s) constraints
      then Some (s ++ [(name, mk_table columns constraints [])]) else None
  | CreateIndex index table =>
      match table_find s table with
      | Some t =>
          if existsb (λ k, bool_decide (co_name k = ix_column index)) (tb_columns t)
          then Some (map (λ nt, if decide (nt.1 = table) then (nt.1, mk_table (tb_columns nt.2) (tb_constraints nt.2) (tb_indexes nt.2 ++ [index])) else nt) s)
          else None
      | None => None
      end
  | DropTable name =>
      match table_find s name with
      | Some _ => if existsb (λ nt, refers_to name nt.2) s then None else Some (List.filter (λ nt, negb (bool_decide (nt.1 = name))) s)
      | None => None
      end
  end.
Fixpoint run_operations (os : list operation) (s : Schema) : option Schema :=
  match os with [] => Some s | o :: os => s ← run_operation o s; run_operations os s end.
(** The revisions from the empty database to the head: each names its
    predecessor. *)
Fixpoint upgrade_path (fuel : nat) (current : option string) : list Revision :=
  match fuel with
  | O => []
  | S fuel =>
      match List.find (λ r, bool_decide (rv_down r = current)) versions with
      | Some r => r :: upgrade_path fuel (Some (rv_id r))
      | None => []
      end
  end.
Definition upgrade_head : option Schema :=
  run_operations (flat_map rv_upgrade (upgrade_path (length versions) None)) [].

(** *** env.py *)
Section Env.
Context {W Spec Engine : Type}.
Definition load_engine_spec (connection_name : option pystr) (resolve : pystr → result exn Spec) : result exn Spec :=
  match connection_name with
  | None | Some [] => Err RuntimeError
  | Some name => resolve name
  end.
(** The options of [context.configure] that depend on the run. *)
Record MigrationConfig := mk_migration_config { mg_url : option pystr; mg_metadata : Schema; mg_compare_type : bool; mg_render_as_batch : bool }.
Definition offline_config (url backend : pystr) : MigrationConfig :=
  mk_migration_config (Some url) load_main_database_metadata true (bool_decide (backend = u "sqlite")).
Definition online_config (dialect : pystr) : MigrationConfig :=
  mk_migration_config None load_main_database_metadata true (bool_decide (dialect = u "sqlite")).
Context (create_engine : Spec → io W Engine) (dispose : Engine → io W unit) (dialect_of : Engine → pystr) (run_migrations : MigrationConfig → io W unit).
Definition run_migrations_offline (url_of backend_of : Spec → pystr) (connection_name : option pystr) (resolve : pystr → result exn Spec) : io W unit :=
  let* spec := lift (load_engine_spec connection_name resolve) in
  run_migrations (offline_config (url_of spec) (backend_of spec)).
Definition do_run_migrations (dialect : pystr) : io W unit := run_migrations (online_config dialect).
Definition run_async_migrations (connect : Engine → io W unit → io W unit) (connection_name : option pystr) (resolve : pystr → result exn Spec) : io W unit :=
  let* spec := lift (load_engine_spec connection_name resolve) in
  let* engine := create_engine spec in
  finally (connect engine (do_run_migrations (dialect_of engine))) (dispose engine).
End Env.

(** ** The rows a table accepts *)
Inductive sql_value := QNull | QText (s : pystr) | QInt (z : Z) | QTime (d : datetime) | QBytes (b : pybytes) | QJson.
Definition fits_type (t : sql_type) (v : sql_value) : bool :=
  match t, v with
  | SString n, QText s => (len s <=? n)%Z
  | SText, QText _ | SJson, QJson | SBinary _, QBytes _ => true
  | SInteger, QInt z => (-2147483648 <=? z)%Z && (z <=? 2147483647)%Z
  | SDateTime, QTime d => dt_naive d
  | _, _ => false
  end.
Abbreviation Row := (list (string * sql_value)).
Fixpoint row_get (r : Row) (name : string) : sql_value :=
  match r with [] => QNull | (n, v) :: r => if decide (n = name) then v else row_get r name end.
Definition accepts_column (r : Row) (c : Column) : bool :=
  match row_get r (co_name c) with QNull => co_nullable c | v => fits_type (co_type c) v end.
Definition accepts_check (r : Row) (c : check_condition) : bool :=
  match c with
  | ColumnIn name values => match row_get r name with QText s => existsb (λ v, bool_decide (s = u v)) values | _ => false end
  | ColumnGreater a b => match row_get r a, row_get r b with QTime x, QTime y => dt_ltb y x | _, _ => false end
  end.
Definition accepts_constraint (r : Row) (c : Constraint) : bool := match c with Check_ _ condition => accepts_check r condition | _ => true end.
(** The row has the columns of the table, values of their types and satisfies
    the checks; keys and references depend on the other rows. *)
Definition accepts (t : Table) (r : Row) : bool :=
  bool_decide (map fst r = map co_name (tb_columns t)) && forallb (accepts_column r) (tb_columns t) && forallb (accepts_constraint r) (tb_constraints t).

(** The values of the attributes of a mapped object, in the order of its columns. *)
Definition user_row (m : UserModel) : Row :=
  [("id", QText (um_id m)); ("username", QText (um_username m)); ("email", QText (um_email m)); ("password", QText (um_password m));
   ("status", QText (um_status m)); ("created_at", QTime (um_created_at m)); ("updated_at", QTime (um_updated_at m)); ("version", QInt (um_version m))]%string.
Definition session_row (m : UserSessionModel) : Row :=
  [("token_digest", QText (sm_token_digest m)); ("user_id", QText (sm_user_id m)); ("issued_at", QTime (sm_issued_at m));
   ("expires_at", QTime (sm_expires_at m))]%string.
Definition optional_text (o : option pystr) : sql_value := match o with Some s => QText s | None => QNull end.
Definition failed_job_row (m : FailedJobModel) : Row :=
  [("failure_id", QText (fm_failure_id m)); ("job_id", optional_text (fm_job_id m)); ("payload", QBytes (fm_payload m));
   ("connection", QText (fm_connection m)); ("queue", QText (fm_queue m)); ("failed_at", QTime (fm_failed_at m)); ("attempts", QInt (fm_attempts m));
   ("reason", QText (fm_reason m)); ("error_type", optional_text (fm_error_type m));
   ("stacktrace", match fm_stacktrace m with Some _ => QJson | None => QNull end)]%string.

(** ** Proofs *)

Definition same_table (a b : string * Table) : Prop :=
  a.1 = b.1 ∧ tb_columns a.2 = tb_columns b.2 ∧ tb_constraints a.2 ≡ₚ tb_constraints b.2 ∧ tb_indexes a.2 ≡ₚ tb_indexes b.2.
#[export] Instance same_table_dec a b : Decision (same_table a b).
Proof. unfold same_table. apply _. Defined.
Definition undone (s : Schema) (r : Revision) : bool :=
  match run_operations (rv_upgrade r) s with
  | Some s' => match run_operations (rv_downgrade r) s' with Some t => bool_decide (t = s) | None => false end
  | None => false
  end.
Fixpoint all_undone (s : Schema) (rs : list Revision) : bool :=
  match rs with
  | [] => true
  | r :: rs => undone s r && match run_operations (rv_upgrade r) s with Some s' => all_undone s' rs | None => false end
  end.

(** C19: the migrations build the schema of the models.  The revisions form one
    chain that contains them all; running it on an empty database succeeds at every
    step and yields exactly the tables of the ORM models, with the same columns in
    order and the same constraints and indexes under the same names, so that an
    automatic comparison finds nothing to do; and every revision can be undone at
    the point where it was applied. *)
Theorem migrations_match_models :
  upgrade_path (length versions) None = versions
  ∧ (∃ s, upgrade_head = Some s ∧ Forall2 same_table s load_main_database_metadata)
  ∧ (∀ k r s, versions !! k = Some r → run_operations (flat_map rv_upgrade (take k versions)) [] = Some s →
       ∃ s', run_operations (rv_upgrade r) s = Some s' ∧ run_operations (rv_downgrade r) s' = Some s).
Proof.
  split; [vm_compute; reflexivity |]. split.
  - destruct upgrade_head as [s |] eqn:Hs; [| vm_compute in Hs; discriminate Hs]. exists s. split; [done |].
    vm_compute in Hs. injection Hs as <-. apply (bool_decide_unpack _). vm_compute. exact I.
  - intros k r s Hk Hs. assert (Hu : undone s r = true).
    { destruct k as [| [| [| k]]]; cbn in Hk; [injection Hk as <-; vm_compute in Hs; injection Hs as <-; vm_compute; reflexivity.. | done]. }
    unfold undone in Hu. destruct (run_operations (rv_upgrade r) s) as [s' |]; [| done]. exists s'. split; [done |].
    destruct (run_operations (rv_downgrade r) s') as [t |]; [| done]. apply bool_decide_eq_true in Hu. by subst.
Qed.

Definition migrated (name : string) : option Table := s ← upgrade_head; table_find s name.

Lemma uuid_text_length a : len (uuid_str a) = 36%Z.
Proof.
  unfold uuid_str, len. pose proof (length_hex_of 32 (uuid_int a)) as Hl. set (h := hex_of 32 (uuid_int a)) in *.
  repeat (rewrite ?length_app, ?length_take, ?length_drop; cbn [length]). rewrite Hl. reflexivity.
Qed.
Lemma digest_length s : fullmatch digest_pattern s = true → len s = 64%Z.
Proof.
  unfold digest_pattern. rewrite fullmatch_spec, cls_rep_matches. intros [_ Hl]. unfold rep_len_ok in Hl. unfold len. apply andb_true_iff in Hl as [H1 H2]. apply Nat.leb_le in H1, H2. lia.
Qed.

Definition table_found (name : string) : Table := default (mk_table [] [] []) (migrated name).
Lemma users_accept i n e p s c d v :
  accepts (table_found "users") (user_row (mk_user_model i n e p s c d v))
  = (len i <=? 36)%Z && ((len n <=? 32)%Z && ((len e <=? 254)%Z && ((len p <=? 255)%Z && ((len s <=? 16)%Z
    && (dt_naive c && (dt_naive d && ((-2147483648 <=? v)%Z && (v <=? 2147483647)%Z && true)))))))
    && (existsb (λ v, bool_decide (s = u v)) ["active"; "disabled"]%string && true).
Proof. reflexivity. Qed.
Lemma sessions_accept t i a b :
  accepts (table_found "user_sessions") (session_row (mk_session_model t i a b))
  = (len t <=? 64)%Z && ((len i <=? 36)%Z && (dt_naive a && (dt_naive b && true))) && (dt_ltb a b && true).
Proof. reflexivity. Qed.
Lemma failures_accept i j payload c q t n r e l :
  accepts (table_found "queue_failed_jobs") (failed_job_row (mk_failed_model i j payload c q t n r e l))
  = (len i <=? 36)%Z && (match j with Some j => (len j <=? 36)%Z | None => true end && (true && ((len c <=? 200)%Z && ((len q <=? 200)%Z
    && (dt_naive t && ((-2147483648 <=? n)%Z && (n <=? 2147483647)%Z && ((len r <=? 200)%Z && true)))))))
    && true.
Proof. destruct j, e, l; reflexivity. Qed.

(** C36: the rows the application writes are accepted by the migrated tables.
    Every well-formed user, up to a version of 2{^31}-1, and every well-formed
    session satisfies the column types, lengths and checks of its table, and so
    does every failed job whose names and reason are at most 200 characters long,
    whose attempts are from 0 to 2{^31}-1 and whose time is naive, as the store
    writes it; the version is the only bound of a user that the domain does not enforce. *)
Theorem stored_rows_fit `{UnicodeTables} users sessions failures :
  migrated "users" = Some users → migrated "user_sessions" = Some sessions → migrated "queue_failed_jobs" = Some failures →
  (∀ x, user_ok x = true → accepts users (user_row (user_to_model x)) = (u_version x <=? 2147483647)%Z)
  ∧ (∀ x, session_ok x = true → accepts sessions (session_row (session_to_model x)) = true)
  ∧ (∀ r, (len (fj_connection r) ≤ 200)%Z → (len (fj_queue r) ≤ 200)%Z → (len (fj_reason r) ≤ 200)%Z →
       dt_naive (fj_failed_at r) = true → (0 ≤ fj_attempts r ≤ 2147483647)%Z → accepts failures (failed_job_row (failed_row r)) = true).
Proof.
  intros Hu Hs Hf.
  assert (users = table_found "users" ∧ sessions = table_found "user_sessions" ∧ failures = table_found "queue_failed_jobs") as (-> & -> & ->)
    by (unfold table_found; by rewrite Hu, Hs, Hf).
  clear Hu Hs Hf. split; [| split].
  - intros x Hx. unfold user_to_model. rewrite users_accept, uuid_text_length. unfold user_ok, username_ok, email_ok, hash_ok in Hx.
    repeat match goal with H : _ && _ = true |- _ => apply andb_true_iff in H as [? ?] end.
    assert (len (username_value (u_username x)) <=? 32 = true)%Z as -> by (apply Z.leb_le; by apply username_pattern_spec).
    repeat match goal with H : _ = true |- _ => rewrite H; clear H end. cbn [andb].
    assert ((-2147483648 <=? u_version x)%Z = true) as -> by (apply Z.leb_le; match goal with H : (1 <=? u_version x)%Z = true |- _ => apply Z.leb_le in H end; lia).
    destruct (u_status x); cbn [status_text andb]; rewrite !andb_true_r; reflexivity.
  - intros x Hx. unfold session_to_model. rewrite sessions_accept, uuid_text_length. unfold session_ok in Hx.
    repeat match goal with H : _ && _ = true |- _ => apply andb_true_iff in H as [? ?] end.
    rewrite digest_length by done. repeat match goal with H : _ = true |- _ => rewrite H; clear H end. reflexivity.
  - intros r Hc Hq Hr Hn Ha. unfold failed_row. rewrite failures_accept, uuid_text_length, Hn.
    rewrite (proj2 (Z.leb_le _ _) Hc), (proj2 (Z.leb_le _ _) Hq), (proj2 (Z.leb_le _ _) Hr), (proj2 (Z.leb_le (-2147483648) _)), (proj2 (Z.leb_le _ 2147483647)) by lia.
    destruct (fj_job_id r); cbn [fmap option_fmap option_map]; [rewrite uuid_text_length |]; reflexivity.
Qed.

(** ** Concrete rows *)
#[local] Instance demo_unicode : UnicodeTables := {| lower_rest s := s; digit_rest _ := false |}.
Definition demo_stored_user (version : Z) : User :=
  mk_user (mk_user_id (@mk_uuid 0 I)) (mk_username (u "alice")) (mk_email (u "alice@example.com")) (mk_password_hash (u "hash")) ACTIVE
    (mk_dt 0 None) (mk_dt 0 None) version.
Lemma stored_rows_fit_witness :
  user_ok (demo_stored_user 1) = true ∧ accepts (table_found "users") (user_row (user_to_model (demo_stored_user 1))) = true
  ∧ accepts (table_found "users") (user_row (user_to_model (demo_stored_user 2147483648))) = false.
Proof.
  assert (Hfound : ∀ name, is_Some (migrated name) → migrated name = Some (table_found name)) by (intros name [t Ht]; unfold table_found; by rewrite Ht).
  destruct (stored_rows_fit (table_found "users") (table_found "user_sessions") (table_found "queue_failed_jobs")) as [Hu _];
    [apply Hfound; vm_compute; by eexists.. |].
  split; [vm_compute; reflexivity |]. split; [rewrite (Hu (demo_stored_user 1)) | rewrite (Hu (demo_stored_user 2147483648))]; vm_compute; reflexivity.
Defined.
