(* ===== verification/UserJobs.v ===== *)
(** * UserJobs: the queue jobs of the user context

    Models [contexts/user/jobs/{cleanup_expired_sessions,login_succeeded}.py]
    over the application services of [UserService] and [AuthService], and what
    their outcomes mean to the worker.  A handler is modelled with the log record
    it writes as its result. *)

From S2P Require Import Prelude Text Errors PyVal UserDomain UserContracts.
From S2P Require Import UserPersistence UserRefinement UserMemory UserService AuthService QueueJob Worker.
Local Open Scope prog_scope.

(** The log records of the handlers. *)
Inductive job_log :=
| LoggedWithoutUser                                       (* a message of an older version *)
| LoggedUser (user_id : uuid) (status : UserStatus)
| LoggedMissing (user_id : uuid)
| LoggedRemoved (removed_count : Z).

(** Database failures that a later attempt may not meet. *)
Definition transient (e : exn) : bool :=
  match e with
  | DisconnectionError | SQLAlchemyTimeoutError => true
  | DBAPIError connection_invalidated => connection_invalidated
  | _ => false
  end.
(** The [except] clauses of both handlers. *)
Definition job_error (e : exn) : exn :=
  match e with
  | DisconnectionError | SQLAlchemyTimeoutError => RetryableJobError
  | DBAPIError connection_invalidated => if negb connection_invalidated then e else RetryableJobError
  | _ => e
  end.

Definition is_user_not_found (e : exn) : bool := match e with UserNotFoundError _ => true | _ => false end.

Definition LOGIN_SUCCEEDED_MESSAGE : list N := [29992; 25143; 30331; 24405; 25104; 21151; 65292; 38431; 21015; 20219; 21153; 24050; 25191; 34892; 12290]%N.
Record LoginSucceededJob := mk_login_job { lj_user_id : option uuid; lj_message : pystr }.
(** [__post_init__]: [user_id] is [None], a [UUID] or anything else. *)
Definition LoginSucceededJob_new (user_id : option (pyval + uuid)) (message : pystr) : result exn LoginSucceededJob :=
  let? user_id := match user_id with
                  | None => Ok None
                  | Some (inr i) => Ok (Some i)
                  | Some (inl _) => Err ValueError
                  end in
  let? _ := guard (bool_decide (message = LOGIN_SUCCEEDED_MESSAGE)) ValueError in
  Ok (mk_login_job user_id message).

Section Handlers.
Context {W : Type} {T : UnicodeTables} {U : UserUnitOfWork W} {D : UserServiceDeps W}.

(** [CleanupExpiredSessionsJob.handle] *)
Definition cleanup_handle : io W job_log :=
  let* removed_count := catch cleanup_expired_sessions (λ e, raise (job_error e)) in
  ret (LoggedRemoved removed_count).

(** [LoginSucceededJob.handle] *)
Definition login_succeeded_handle (job : LoginSucceededJob) : io W job_log :=
  match lj_user_id job with
  | None => ret LoggedWithoutUser
  | Some user_id =>
      catch (let* user := service_get user_id in ret (LoggedUser user_id (dto_status user)))
        (λ e, if is_user_not_found e then ret (LoggedMissing user_id) else raise (job_error e))
  end.
End Handlers.

(** No transient failure leaves a handler as such, and nothing else is touched. *)
Lemma job_error_transient e : transient e = true → job_error e = RetryableJobError.
Proof. intros Ht. unfold transient, job_error in *. destruct e; try done. by rewrite Ht. Qed.
Lemma job_error_lasting e : transient e = false → job_error e = e.
Proof. intros Ht. unfold transient, job_error in *. destruct e; try done. by rewrite Ht. Qed.
Lemma transient_job_error e : transient (job_error e) = false.
Proof. unfold transient, job_error. destruct e; try done. match goal with |- context [negb ?b] => by destruct b end. Qed.
Lemma transient_foreign e : transient e = true → foreign e = true.
Proof. by destruct e. Qed.

Section JobTheorems.
Context {W : Type} {T : UnicodeTables} {TL : UnicodeLaws} {U : UserUnitOfWork W}
  {R : relation Store} {L : UowLaws W R} {PH : PasswordHasher W} {SD : UserServiceDeps W} {SL : ServiceLaws W}.

(** What the log of the login job says is true of some state of the store. *)
Definition login_logged (job : LoginSucceededJob) (log : job_log) (s : Store) : Prop :=
  match lj_user_id job with
  | None => log = LoggedWithoutUser
  | Some i =>
      match st_users s !! mk_user_id i with
      | Some x => log = LoggedUser i (u_status x)
      | None => log = LoggedMissing i
      end
  end.

(** A failure as the worker sees it: another attempt for a database that was
    away, a lasting failure as it was raised; a conflict only when the
    database reported one for a state in which two users share the value. *)
Definition job_failed (d : Store) (r : result exn job_log) : Prop :=
  ∀ e, r = Err e → transient e = false ∧ (foreign e = true ∨ ∃ s, R d s ∧ reported_conflict R e s).

Lemma foreign_job_error e : foreign e = true → foreign (job_error e) = true.
Proof.
  intros He. destruct (transient e) eqn:Ht; [by rewrite (job_error_transient e Ht) | by rewrite (job_error_lasting e Ht)].
Qed.
Abbreviation conflicted d e := (∃ s, R d s ∧ reported_conflict R e s).
Lemma job_error_failed d e : foreign e = true ∨ conflicted d e →
  transient (job_error e) = false ∧ (foreign (job_error e) = true ∨ conflicted d (job_error e)).
Proof.
  intros He. split; [apply transient_job_error |].
  destruct He as [He | (s & Hs & f & -> & Hf)]; [left; by apply foreign_job_error | right]. exists s. split; [done |]. by exists f.
Qed.

End JobTheorems.

