(* ===== verification/Discovery.v ===== *)
(** * Discovery: the job types of the worker and the commands of the console

    Models [interfaces/worker/discovery.py], [interfaces/console/discovery.py] and
    [registry.py].  What [pkgutil.walk_packages] yields and what an import gives
    are arguments: a module is its [__name__] and its classes in the order of
    [inspect.getmembers].  A Typer application is the list of its groups, each
    with its help and its commands. *)

From S2P Require Import Prelude Text Errors PyVal QueueJob Schedule.
Local Open Scope prog_scope.

(** ** [list.sort(key=...)]: a stable sort *)
Section Sort.
Context {A : Type} (leb : A → A → bool).

Fixpoint insert_by (x : A) (l : list A) : list A :=
  match l with
  | [] => [x]
  | y :: l => if leb x y then x :: y :: l else y :: insert_by x l
  end.
Definition sort_by (l : list A) : list A := foldr insert_by [] l.

Lemma insert_by_perm x l : insert_by x l ≡ₚ x :: l.
Proof. induction l as [| y l IH]; [done |]. cbn [insert_by]. case_bool; [done |]. rewrite IH. constructor. Qed.
Lemma sort_by_perm l : sort_by l ≡ₚ l.
Proof. induction l as [| x l IH]; [done |]. cbn [sort_by foldr]. by rewrite insert_by_perm, IH. Qed.

Hypothesis leb_total : ∀ x y, leb x y = true ∨ leb y x = true.
Hypothesis leb_trans : ∀ x y z, leb x y = true → leb y z = true → leb x z = true.
Abbreviation le := (λ x y, leb x y = true).

Lemma insert_by_sorted x l : StronglySorted le l → StronglySorted le (insert_by x l).
Proof.
  induction 1 as [| y l Hl IH Hy]; [repeat constructor |]. cbn [insert_by]. case_bool.
  - constructor; [by constructor |]. constructor; [done |]. eapply list.Forall_impl; [exact Hy |]. intros z Hz. by eapply leb_trans.
  - constructor; [done |]. rewrite insert_by_perm. constructor; [| done]. destruct (leb_total x y); [congruence | done].
Qed.
Lemma sort_by_sorted l : StronglySorted le (sort_by l).
Proof. induction l as [| x l IH]; [constructor |]. by apply insert_by_sorted. Qed.
(** Distinct keys: the order before sorting does not matter. *)
Lemma sort_by_unique l l' : (∀ x y, x ∈ l → y ∈ l → leb x y = true → leb y x = true → x = y) →
  l ≡ₚ l' → sort_by l = sort_by l'.
Proof.
  intros Hd Hl. apply (sorting.StronglySorted_unique_strong le); [| apply sort_by_sorted.. | by rewrite !sort_by_perm].
  intros x y. rewrite !sort_by_perm, <- Hl. apply Hd.
Qed.
End Sort.

(** Tuples of two texts compare lexicographically. *)
Definition pair_leb (a b : pystr * pystr) : bool := if decide (a.1 = b.1) then text_leb a.2 b.2 else text_leb a.1 b.1.
Lemma pair_leb_total a b : pair_leb a b = true ∨ pair_leb b a = true.
Proof. unfold pair_leb. repeat case_decide; try congruence; apply text_leb_total. Qed.
Lemma pair_leb_antisymm a b : pair_leb a b = true → pair_leb b a = true → a = b.
Proof.
  unfold pair_leb. destruct a as [a1 a2], b as [b1 b2]. cbn [fst snd]. intros Hab Hba. repeat case_decide; try congruence.
  - f_equal; [done | by apply (anti_symm text_le)].
  - exfalso. by apply H, (anti_symm text_le).
Qed.
Lemma pair_leb_trans a b c : pair_leb a b = true → pair_leb b c = true → pair_leb a c = true.
Proof.
  unfold pair_leb. destruct a as [a1 a2], b as [b1 b2], c as [c1 c2]. cbn [fst snd]. intros Hab Hbc.
  repeat case_decide; simplify_eq; try done; try (by eapply (transitivity (R := text_le))); try congruence.
  exfalso. by apply H, (anti_symm text_le).
Qed.

(** ** The classes of the modules *)
Section Classes.
Context {T : Type} (is_subclass is_base is_abstract : T → bool) (module_of : T → pystr).
Abbreviation Module := (pystr * list T)%type.

(** A concrete subclass defined in the module. *)
Definition defined_in (name : pystr) (t : T) : bool :=
  is_subclass t && negb (is_base t) && bool_decide (module_of t = name) && negb (is_abstract t).
Fixpoint import_classes (import_module : pystr → result exn Module) (names : list pystr) : result exn (list T) :=
  match names with
  | [] => Ok []
  | name :: names =>
      let? m := import_module name in
      let? types := import_classes import_module names in
      Ok (List.filter (defined_in m.1) m.2 ++ types)
  end.

Lemma import_classes_ok import_module names types : import_classes import_module names = Ok types →
  ∀ t, t ∈ types ↔ ∃ name m, name ∈ names ∧ import_module name = Ok m ∧ t ∈ m.2 ∧ defined_in m.1 t = true.
Proof.
  revert types. induction names as [| name names IH]; intros types.
  - intros [= <-] t. split; [by intros ?%elem_of_nil | by intros (n & m & ?%elem_of_nil & _)].
  - cbn [import_classes]. rewrite result_bind_ok. intros (m & Hm & Hk). rewrite result_bind_ok in Hk. destruct Hk as (ts & Hts & [= <-]).
    intros t. rewrite elem_of_app, (IH _ Hts t). rewrite list_elem_of_In, List.filter_In, <- list_elem_of_In. split.
    + intros [[Hin Hd] | (n & m' & Hn & Hrest)]; [exists name, m | exists n, m']; split_and!; try done; [by left | by right | naive_solver..].
    + intros (n & m' & Hn & Hm' & Hin & Hd). apply elem_of_cons in Hn as [-> | Hn]; [left; rewrite Hm in Hm'; injection Hm' as <-; by split | right; by exists n, m'].
Qed.
End Classes.

(** ** Worker: discovery.py *)
Section Worker.
Context {W Ctx : Type} (is_queue_job : job_class W Ctx → bool).      (* [candidate is QueueJob] *)
Abbreviation JobClass := (job_class W Ctx).

Definition is_job_module (root_name module_name : pystr) : bool :=
  match strip_prefix (root_name ++ u ".") module_name with
  | Some rest => bool_decide (u "jobs" ∈ split_dots rest)
  | None => false
  end.
(** [except Exception as error: raise QueueConfigurationError from error] *)
Definition as_queue_configuration {A} (r : result exn A) : result exn A :=
  match r with Err e => Err (if is_exception e then QueueConfigurationError else e) | Ok a => Ok a end.
Definition job_key_leb (a b : JobClass) : bool := pair_leb (k_module a, k_qualname a) (k_module b, k_qualname b).
Definition job_defined_in : pystr → JobClass → bool := defined_in k_is_job is_queue_job k_abstract k_module.

(** [root_package] is the name of a package, if it is one; an import error of a
    package met by the walk is a [QueueConfigurationError] of the walk. *)
Definition discover_job_types (root_package : option pystr) (walk : result exn (list pystr))
    (import_module : pystr → result exn (pystr * list JobClass)) : result exn (list JobClass) :=
  match root_package with
  | None | Some [] => Err QueueConfigurationError
  | Some package_name =>
      let? names := as_queue_configuration walk in
      let? job_types := import_classes k_is_job is_queue_job k_abstract k_module
        (λ name, as_queue_configuration (import_module name))
        (sort_texts (remove_dups (List.filter (is_job_module package_name) names))) in
      Ok (sort_by job_key_leb job_types)
  end.

Lemma as_queue_configuration_ok {A} (r : result exn A) a : as_queue_configuration r = Ok a ↔ r = Ok a.
Proof. by destruct r. Qed.
Lemma as_queue_configuration_err {A} (r : result exn A) e : as_queue_configuration r = Err e →
  e = QueueConfigurationError ∨ is_exception e = false.
Proof. destruct r as [a | e']; simpl; [done |]. case_bool; intros [= <-]; auto. Qed.
Lemma import_jobs_err import_module names e :
  import_classes k_is_job is_queue_job k_abstract k_module (λ name, as_queue_configuration (import_module name)) names = Err e →
  e = QueueConfigurationError ∨ is_exception e = false.
Proof.
  induction names as [| name names IH]; [done |]. cbn [import_classes].
  destruct (as_queue_configuration (import_module name)) as [m | e'] eqn:Hm; cbn [result_bind].
  - destruct (import_classes _ _ _ _ _ names); [done | exact IH].
  - intros [= <-]. by apply as_queue_configuration_err in Hm.
Qed.

(** The worker finds exactly the concrete job types that the modules with a
    [jobs] segment define, ordered by module and name; any [Exception] on the
    way is a configuration error; the walk's order and repetitions do not
    matter. *)
Theorem job_discovery_complete root walk import_module :
  match discover_job_types root walk import_module with
  | Ok l => ∃ name names, root = Some name ∧ walk = Ok names ∧ StronglySorted (λ a b, job_key_leb a b = true) l
      ∧ ∀ k, k ∈ l ↔ ∃ n m, n ∈ names ∧ is_job_module name n = true ∧ import_module n = Ok m ∧ k ∈ m.2 ∧ job_defined_in m.1 k = true
  | Err e => e = QueueConfigurationError ∨ is_exception e = false
  end
  ∧ ∀ names names', walk = Ok names → (∀ n, n ∈ names ↔ n ∈ names') →
      discover_job_types root (Ok names') import_module = discover_job_types root walk import_module.
Proof.
  split.
  - unfold discover_job_types. destruct root as [[| c name] |]; [by left | | by left].
    destruct (as_queue_configuration walk) as [names | e] eqn:Hw; cbn [result_bind]; [| by apply as_queue_configuration_err in Hw].
    rewrite as_queue_configuration_ok in Hw. destruct (import_classes _ _ _ _ _ _) as [types | e] eqn:Hi; cbn [result_bind]; [| by apply import_jobs_err in Hi].
    exists (c :: name), names. split; [done |]. split; [done |]. split.
    + apply sort_by_sorted; intros; unfold job_key_leb in *; [apply pair_leb_total | by eapply pair_leb_trans].
    + intros k. rewrite sort_by_perm, (import_classes_ok _ _ _ _ _ _ _ Hi). split.
      * intros (n & m & Hn & Hm & Hin & Hd). rewrite sort_texts_perm, elem_of_remove_dups, list_elem_of_In, List.filter_In, <- list_elem_of_In in Hn.
        destruct Hn as [Hn Hj]. rewrite as_queue_configuration_ok in Hm. exists n, m. by split_and!.
      * intros (n & m & Hn & Hj & Hm & Hin & Hd). exists n, m. rewrite sort_texts_perm, elem_of_remove_dups, list_elem_of_In, List.filter_In, <- list_elem_of_In.
        split; [by split |]. by rewrite as_queue_configuration_ok.
  - intros names names' -> Hin. unfold discover_job_types. destruct root as [[| c name] |]; [done | | done]. cbn [as_queue_configuration result_bind].
    assert (sort_texts (remove_dups (List.filter (is_job_module (c :: name)) names')) = sort_texts (remove_dups (List.filter (is_job_module (c :: name)) names))) as ->; [| done].
    apply sort_texts_unique, NoDup_Permutation; [apply NoDup_remove_dups.. |].
    intros m. by rewrite !elem_of_remove_dups, !list_elem_of_In, !List.filter_In, <- !list_elem_of_In, Hin.
Qed.
End Worker.
