(* ===== verification/Quiet.v ===== *)
(** * Quiet: what the life cycle of the runtime leaves unchanged

    [obs] is what an observer sees of the world: outputs, log records, the state
    of the host.  When the callbacks of a container do not change it, neither does
    starting or closing the runtime, and closing always clears its reference. *)

From S2P Require Import Prelude Text Errors Lazy Runtime.
Local Open Scope prog_scope.

Section Quiet.
Context {W C V : Type} (rt : @runtime_ref W C) (callbacks_of : C → @container W) (container_factory : io W C) (obs : W → V).

(** The observer sees nothing, and the reference to the container is as before. *)
Definition quiet {A} (m : io W A) : Prop := ∀ w, obs (m w).1 = obs w ∧ rt_get C rt (m w).1 = rt_get C rt w.
Record runtime_quiet : Prop := {
  rq_set c w : obs (rt_set C rt c w) = obs w ∧ rt_get C rt (rt_set C rt c w) = c;
  rq_factory : quiet container_factory;
  rq_startup c m : m ∈ startup_callbacks (callbacks_of c) → quiet m;
  rq_async_shutdown c m : m ∈ async_shutdown_callbacks (callbacks_of c) → quiet m;
  rq_shutdown c m : m ∈ shutdown_callbacks (callbacks_of c) → quiet m;
}.
Hypothesis laws : runtime_quiet.

Lemma quiet_run_all l w : (∀ m, m ∈ l → quiet m) → obs (run_all l w).1 = obs w ∧ rt_get C rt (run_all l w).1 = rt_get C rt w.
Proof.
  revert w. induction l as [| m l IH]; intros w Hl; [done |]. simpl. destruct (Hl m (list_elem_of_here _ _) w) as [Ho Hr].
  destruct (m w) as [w1 r1]. specialize (IH w1 (λ m Hm, Hl m (list_elem_of_further _ _ _ Hm))). destruct (run_all l w1) as [w2 es].
  cbn [fst] in *. destruct IH. split; congruence.
Qed.
Lemma quiet_start c w : obs (container_start (callbacks_of c) w).1 = obs w
  ∧ rt_get C rt (container_start (callbacks_of c) w).1 = rt_get C rt w.
Proof.
  pose proof (rq_startup laws c) as Hs. unfold container_start. revert w. induction (startup_callbacks (callbacks_of c)) as [| m l IH]; intros w; [done |].
  simpl. unfold bind. destruct (Hs m (list_elem_of_here _ _) w) as [Ho Hr]. destruct (m w) as [w1 [[] | e]]; [| done].
  cbn [fst] in *. rewrite <- Ho, <- Hr. apply IH. intros m' Hm'. apply Hs. by right.
Qed.
Lemma close_clears w : obs (runtime_aclose rt callbacks_of w).1 = obs w ∧ rt_get C rt (runtime_aclose rt callbacks_of w).1 = None.
Proof.
  unfold runtime_aclose. unprog. destruct (rq_set laws None w) as [Ho Hr]. destruct (rt_get C rt w) as [c |]; [| by split].
  rewrite container_aclose_run.
  destruct (quiet_run_all (reverse (async_shutdown_callbacks (callbacks_of c)) ++ reverse (shutdown_callbacks (callbacks_of c))) (rt_set C rt None w)) as [Ho' Hr'].
  { intros m. rewrite elem_of_app, !elem_of_reverse. intros [Hm | Hm]; [by eapply rq_async_shutdown | by eapply rq_shutdown]. }
  destruct (run_all _ _) as [w' es]. cbn [fst] in *. split; congruence.
Qed.
(** A start keeps the new container, or leaves none. *)
Lemma start_keeps w : rt_get C rt w = None →
  let '(w', r) := runtime_start rt callbacks_of container_factory w in
  obs w' = obs w ∧ rt_get C rt w' = match r with Ok c => Some c | Err _ => None end.
Proof.
  intros Hn. unfold runtime_start. unfold bind, read, ret, raise, attempt, modify. rewrite Hn.
  destruct (rq_factory laws w) as [Ho Hr]. destruct (container_factory w) as [w1 [c | e]]; cbn [fst snd] in *; [| by rewrite Hr].
  destruct (rq_set laws (Some c) w1) as [Ho1 Hr1], (quiet_start c (rt_set C rt (Some c) w1)) as [Ho2 Hr2].
  destruct (container_start _ _) as [w2 [[] | e]]; cbn [fst snd] in *; [split; congruence |].
  destruct (close_clears w2) as [Ho3 Hr3]. destruct (runtime_aclose _ _ w2) as [w3 [[] | e']]; cbn [fst snd] in *; split; congruence.
Qed.
(** A start that succeeded, and one that failed: a container whose start-up failed
    has been closed, and a failure of its closing is grouped with the start-up's. *)
Definition start_succeeded (w w' : W) (c : C) : Prop :=
  ∃ w1, container_factory w = (w1, Ok c) ∧ container_start (callbacks_of c) (rt_set C rt (Some c) w1) = (w', Ok tt).
Definition start_failed (w w' : W) (e : exn) : Prop :=
  container_factory w = (w', Err e)
  ∨ ∃ c w1 w2 e0 r, container_factory w = (w1, Ok c)
      ∧ container_start (callbacks_of c) (rt_set C rt (Some c) w1) = (w2, Err e0)
      ∧ container_aclose (callbacks_of c) (rt_set C rt None w2) = (w', r)
      ∧ e = match r with Ok _ => e0 | Err e1 => ExceptionGroup [e0; e1] end.
Lemma start_exact w : rt_get C rt w = None →
  match runtime_start rt callbacks_of container_factory w with
  | (w', Ok c) => start_succeeded w w' c
  | (w', Err e) => start_failed w w' e
  end.
Proof.
  intros Hn. unfold runtime_start, start_succeeded, start_failed. unfold bind, read, ret, raise, attempt, modify. rewrite Hn.
  destruct (container_factory w) as [w1 [c | e]]; [| by left].
  destruct (quiet_start c (rt_set C rt (Some c) w1)) as [_ Hr2]. pose proof (proj2 (rq_set laws (Some c) w1)) as Hr1.
  destruct (container_start _ _) as [w2 [[] | e]] eqn:Hs; cbn [fst snd] in *; [by exists w1 |].
  unfold runtime_aclose, bind, read, modify. rewrite Hr2, Hr1. destruct (container_aclose _ _) as [w3 r] eqn:Hc.
  destruct r as [[] | e1]; right; eauto 10.
Qed.
(** Closing the runtime closes the container it refers to. *)
Lemma close_exact w c : rt_get C rt w = Some c →
  runtime_aclose rt callbacks_of w = container_aclose (callbacks_of c) (rt_set C rt None w).
Proof. intros Hc. unfold runtime_aclose, bind, read, modify. by rewrite Hc. Qed.
End Quiet.
