(* ===== verification/Console.v ===== *)
(** * Console: the command tree, the process and its commands

    Models [interfaces/console/] and [bootstrap/console/application.py].  Typer
    parses the command line and calls a [handle]: [typer] is what its standalone
    mode adds.  [echo] writes one output to the standard output or, for errors,
    to standard error; the text of an output is not modelled, only which Python
    value, text or error it shows.  [asyncio.run] runs the program it is given. *)

From S2P Require Import Prelude Text Errors PyVal UserDomain UserContracts QueueJob QueueMessage QueueManager FailedStore Schedule Discovery Runtime Quiet DatabaseEngine.
Local Open Scope prog_scope.

(** ** The command tree *)

(** A subclass of [ConsoleCommand] with its class variables. *)
Record ConsoleCommand := mk_command {
  cm_subclass : bool; cm_base : bool; cm_abstract : bool; cm_module : pystr;
  cm_group : pystr; cm_group_help : pystr; cm_name : pystr; cm_help : pystr;
}.
#[export] Instance console_command_eq_dec : EqDecision ConsoleCommand.
Proof. solve_decision. Defined.
Definition command_key (c : ConsoleCommand) : pystr * pystr := (cm_group c, cm_name c).
Definition command_leb (a b : ConsoleCommand) : bool := pair_leb (command_key a) (command_key b).

(** [walks] are the modules of the system and of the business package; the
    order of the classes found does not matter after the sort. *)
Definition find_command_types (walks : list (result exn (list pystr)))
    (import_module : pystr → result exn (pystr * list ConsoleCommand)) : result exn (list ConsoleCommand) :=
  let? types := map_result (λ walk, let? names := walk in
    import_classes cm_subclass cm_base cm_abstract cm_module import_module names) walks in
  Ok (concat types).
Definition discover_console_commands (walks : list (result exn (list pystr)))
    (import_module : pystr → result exn (pystr * list ConsoleCommand)) : result exn (list ConsoleCommand) :=
  let? types := find_command_types walks import_module in Ok (sort_by command_leb types).

(** A Typer group: its help and its commands, by name. *)
Record TyperGroup := mk_group { tg_help : pystr; tg_commands : list ConsoleCommand }.
Record ConsoleCommandRegistry := mk_registry { cr_groups : pydict TyperGroup; cr_commands : list (pystr * pystr) }.
Definition resolve_group (r : ConsoleCommandRegistry) (c : ConsoleCommand) : result exn TyperGroup :=
  match dict_get (cr_groups r) (cm_group c) with
  | Some g => if bool_decide (tg_help g = cm_group_help c) then Ok g else Err RuntimeError
  | None => Ok (mk_group (cm_group_help c) [])
  end.
Definition registry_register (r : ConsoleCommandRegistry) (c : ConsoleCommand) : result exn ConsoleCommandRegistry :=
  let? _ := guard (negb (bool_decide (command_key c ∈ cr_commands r))) RuntimeError in
  let? g := resolve_group r c in
  Ok (mk_registry (dict_set (cr_groups r) (cm_group c) (mk_group (tg_help g) (tg_commands g ++ [c]))) (cr_commands r ++ [command_key c])).
Fixpoint register_commands (cs : list ConsoleCommand) (r : ConsoleCommandRegistry) : result exn ConsoleCommandRegistry :=
  match cs with
  | [] => Ok r
  | c :: cs => let? r := registry_register r c in register_commands cs r
  end.
Definition command_tree (commands : list ConsoleCommand) : result exn (pydict TyperGroup) :=
  let? r := register_commands commands (mk_registry [] []) in Ok (cr_groups r).
Definition create_console (walks : list (result exn (list pystr)))
    (import_module : pystr → result exn (pystr * list ConsoleCommand)) : result exn (pydict TyperGroup) :=
  let? commands := discover_console_commands walks import_module in command_tree commands.

(** ** Values for the presenter *)
Class IsoFormat := { isoformat : datetime → pystr }.

Inductive console_value :=
| CNone | CBool (b : bool) | CInt (z : Z) | CFloat (f : pyfloat) | CStr (s : pystr)
| CList (l : list console_value)                     (* list or tuple *)
| CDict (d : list (pystr * console_value))
| CDataclass (fields : list (pystr * console_value))
| CDatetime (d : datetime) | CUuid (i : uuid) | CEnum (value : pystr) | COther.

(** [_json_default] *)
Definition json_default `{IsoFormat} (v : console_value) : result exn console_value :=
  match v with
  | CDataclass fields => Ok (CDict fields)
  | CDatetime d => Ok (CStr (isoformat d))
  | CUuid i => Ok (CStr (uuid_str i))
  | CEnum value => Ok (CStr value)
  | _ => Err TypeError
  end.
(** What [json.dumps(value, default=_json_default)] writes. *)
Fixpoint to_output `{IsoFormat} (v : console_value) : result exn console_value :=
  match v with
  | CNone | CBool _ | CInt _ | CFloat _ | CStr _ => Ok v
  | CList l => let? l := map_result to_output l in Ok (CList l)
  | CDict d | CDataclass d => let? d := map_result (λ kv, let? x := to_output kv.2 in Ok (kv.1, x)) d in Ok (CDict d)
  | CDatetime _ | CUuid _ | CEnum _ | COther => json_default v
  end.

Inductive console_output :=
| OutJson (v : console_value) | OutText (s : pystr)
| OutError (e : exn)                   (* a text made of the error's own message *)
| OutFailure (e : exn).                (* a text that only names the type of the error *)
Inductive console_stream := Stdout | Stderr.
Definition SUCCESS : Z := 0.
Definition FAILURE : Z := 1.
Definition USAGE : Z := 2.

(** ** The process *)
Section Console.
Context {W C : Type} (rt : @runtime_ref W C) (callbacks_of : C → @container W) (container_builder : io W C).
Context (get_trace : W → option TraceContext) (set_trace : option TraceContext → W → W) (new_trace_id : io W pystr).
Context (echo : console_stream → console_output → W → W) (typer : io W unit → io W unit).
Context `{IsoFormat}.

Definition presenter_result (v : console_value) : io W unit :=
  let* v := lift (to_output v) in modify (echo Stdout (OutJson v)).
Definition presenter_text (s : pystr) : io W unit := modify (echo Stdout (OutText s)).
Definition presenter_error (e : exn) : io W unit := modify (echo Stderr (OutError e)).

Record ConsoleContext := mk_context { cx_container : C; cx_command_id : pystr }.

(** [ConsoleHost] *)
Definition host_run_ {A} (operation : ConsoleContext → io W A) (command_id : pystr) : io W A :=
  let* c := runtime_start rt callbacks_of container_builder in
  finally (operation (mk_context c command_id)) (runtime_aclose rt callbacks_of).
Definition command_trace (command_id : pystr) : TraceContext := mk_trace (Some command_id) None (Some command_id).
Definition host_run {A} (operation : ConsoleContext → io W A) : io W A :=
  let* current := read get_trace in
  match current ≫= tr_command_id with
  | Some command_id => host_run_ operation command_id
  | None =>
      let* command_id := new_trace_id in
      bind_trace_context get_trace set_trace (command_trace command_id) (host_run_ operation command_id)
  end.

(** The errors [run_console] expects. *)
Definition console_expected (e : exn) : bool :=
  is_queue_error e ||
  match e with
  | ValidationError | LoggingConfigurationError
  | DatabaseConfigurationError | DatabaseDriverError | DatabaseOperationError
  | CacheConfigurationError | CacheConnectionError | CacheOperationError | CacheKeyError
  | HttpTransportError | HttpTimeoutError | HttpPoolTimeoutError | HttpResponseTooLargeError _
  | VectorConfigurationError | VectorConnectionError | VectorOperationError
  | VectorCollectionNotFoundError | VectorCollectionConflictError => true
  | _ => false
  end.
Definition console_failure (e : exn) : io W unit := presenter_error e;;; raise (SystemExit FAILURE).
Definition run_console (entrypoint : io W unit) : io W unit :=
  let* command_id := new_trace_id in
  bind_trace_context get_trace set_trace (command_trace command_id)
    (catch entrypoint (λ e,
       if console_expected e then console_failure e
       else if is_exception e then
         match translate_database_error e with None => raise e | Some d => console_failure d end
       else raise e)).

(** The callback of [--version], before any command. *)
Definition show_version (name version : pystr) (value : bool) : io W unit :=
  if value then presenter_text (name ++ u " " ++ version);;; raise (TyperExit SUCCESS) else ret tt.

(** A command that shows the result of an operation. *)
Definition show_operation {A} (operation : ConsoleContext → io W A) (view : A → console_value) : io W unit :=
  let* result := host_run operation in presenter_result (view result).

(** ** [worker/cli.py] and [scheduler/cli.py]: the error output of a process *)
Definition run_process (public : exn → bool) (log_failure : exn → io W unit) (entrypoint : io W unit) : io W unit :=
  catch entrypoint (λ e,
    if is_exception e then
      log_failure e;;;
      modify (echo Stderr (if public e then OutError e else OutFailure e));;;
      raise (SystemExit 1)
    else raise e).
Definition run_worker (log_failure : exn → io W unit) (entrypoint : io W unit) : io W unit :=
  run_process is_queue_error log_failure entrypoint.
Definition run_scheduler (log_failure : exn → io W unit) (entrypoint : io W unit) : io W unit :=
  run_process (λ e, is_queue_error e || is_scheduler_error e) log_failure entrypoint.

(** ** commands/users.py *)
Definition is_user_error (e : exn) : bool :=
  match e with
  | InvalidUserDataError | UserNotFoundError _ | UserConflictError _ | ConcurrentUserUpdateError _
  | InvalidCredentialsError _ | LoginTemporarilyLockedError _ | AuthenticationRequiredError => true
  | _ => false
  end.
Definition user_value (x : UserDTO) : console_value :=
  CDataclass [(u "id", CUuid (dto_id x)); (u "username", CStr (dto_username x)); (u "email", CStr (dto_email x));
    (u "status", CEnum (status_text (dto_status x))); (u "created_at", CDatetime (dto_created_at x)); (u "updated_at", CDatetime (dto_updated_at x))].
Definition page_value (p : UserPageDTO) : console_value :=
  CDataclass [(u "items", CList (map user_value (pg_items p))); (u "total", CInt (pg_total p));
    (u "offset", CInt (pg_offset p)); (u "limit", CInt (pg_limit p))].

Definition console_create_user (service_create : C → CreateUserCommand → io W UserDTO) (username email password : pystr) (cx : ConsoleContext) : io W UserDTO :=
  service_create (cx_container cx) (mk_create_cmd username email password).
Definition console_list_users (service_list : C → Z → Z → io W UserPageDTO) (page limit : Z) (cx : ConsoleContext) : io W UserPageDTO :=
  service_list (cx_container cx) ((page - 1) * limit)%Z limit.
Definition exit_for_user_error {A} (e : exn) : io W A := presenter_error e;;; raise (TyperExit FAILURE).
Definition create_user_handle (service_create : C → CreateUserCommand → io W UserDTO) (username email password : pystr) : io W unit :=
  let* user := catch (host_run (console_create_user service_create username email password))
    (λ e, if is_user_error e then exit_for_user_error e else raise e) in
  presenter_result (user_value user).
Definition list_users_handle (service_list : C → Z → Z → io W UserPageDTO) (page limit : Z) : io W unit :=
  show_operation (console_list_users service_list page limit) page_value.

(** ** system/queue.py *)
Definition optional {A} (f : A → console_value) (o : option A) : console_value := match o with Some a => f a | None => CNone end.
Definition frame_value (f : ExceptionStackFrame) : console_value :=
  CDict [(u "module", CStr (sf_module f)); (u "function", CStr (sf_function f)); (u "line", CInt (sf_line f))].
Definition failure_value (r : FailedJobRecord) : console_value :=
  CDict [(u "failure_id", CUuid (fj_failure_id r)); (u "job_id", optional CUuid (fj_job_id r)); (u "connection", CStr (fj_connection r));
    (u "queue", CStr (fj_queue r)); (u "failed_at", CDatetime (fj_failed_at r)); (u "attempts", CInt (fj_attempts r));
    (u "reason", CStr (fj_reason r)); (u "error_type", optional CStr (fj_error_type r));
    (u "stacktrace", CList (map frame_value (fj_stacktrace r)))].
Definition list_failures (store_list : C → Z → Z → io W (list FailedJobRecord)) (limit offset : Z) (cx : ConsoleContext) : io W console_value :=
  let* records := store_list (cx_container cx) limit offset in ret (CList (map failure_value records)).
Definition replay_failure (queues_replay : C → uuid → io W uuid) (failure_id : uuid) (cx : ConsoleContext) : io W console_value :=
  let* job_id := queues_replay (cx_container cx) failure_id in
  ret (CDict [(u "job_id", CUuid job_id); (u "replay_of", CUuid failure_id)]).
Definition forget_failure (store_delete : C → uuid → io W unit) (failure_id : uuid) (cx : ConsoleContext) : io W console_value :=
  store_delete (cx_container cx) failure_id;;; ret (CDict [(u "failure_id", CUuid failure_id)]).
Definition failed_handle store_list (limit offset : Z) : io W unit := show_operation (list_failures store_list limit offset) id.
Definition retry_handle queues_replay (failure_id : uuid) : io W unit := show_operation (replay_failure queues_replay failure_id) id.
Definition forget_handle store_delete (failure_id : uuid) : io W unit := show_operation (forget_failure store_delete failure_id) id.

Definition max_attempts_value (v : pyval) : console_value := match v with VInt z => CInt z | VBool b => CBool b | _ => COther end.
Section Jobs.
Context {W' Ctx : Type}.
Definition class_of (types : list (job_class W' Ctx)) (i : nat) : option (job_class W' Ctx) := List.find (λ k, k_id k =? i) types.
Definition job_summary (types : list (job_class W' Ctx)) (d : JobDescriptor W' Ctx) : result exn console_value :=
  let? path := match class_of types (jd_job_type d) with Some k => job_type_path k | None => Err QueueConfigurationError end in
  Ok (CDict [(u "reference", CStr (jd_reference d)); (u "type_path", CStr path); (u "version", CInt (jd_version d));
    (u "supported_versions", CList (map CInt (sort_by Z.leb (jd_version d :: map fst (jd_legacy_decoders d)))));
    (u "legacy_references", CList (map CStr (jd_legacy_references d))); (u "max_attempts", max_attempts_value (jp_max_attempts (jd_policy d)));
    (u "backoff_seconds", CList (map CFloat (jp_backoff_seconds (jd_policy d)))); (u "timeout_seconds", CFloat (jp_timeout_seconds (jd_policy d)))]).
Definition list_jobs (discovered : result exn (list (job_class W' Ctx))) : result exn console_value :=
  let? types := discovered in
  let? resolver := JobResolver_new types in
  let? summaries := map_result (job_summary types) (jr_descriptors resolver) in
  Ok (CList summaries).
Definition jobs_handle (discovered : result exn (list (job_class W' Ctx))) : io W unit :=
  let* v := lift (list_jobs discovered) in presenter_result v.

(** ** system/scheduler.py *)
Definition start_text (p : IntervalStartPolicy) : pystr := match p with IMMEDIATELY => u "immediately" | AFTER_INTERVAL => u "after_interval" end.
Definition coalesce_text (p : CoalescePolicy) : pystr := match p with LATEST => u "latest" | ALL => u "all" end.
Definition trigger_field (v : pyval) : console_value := match v with VInt z => CInt z | VStr s => CStr s | VBool b => CBool b | _ => COther end.
Definition trigger_summary (t : ScheduleTrigger) : console_value :=
  match t with
  | TCron c => CDict [(u "type", CStr (u "cron")); (u "second", trigger_field (cr_second c)); (u "minute", trigger_field (cr_minute c));
      (u "hour", trigger_field (cr_hour c)); (u "day", trigger_field (cr_day c)); (u "month", trigger_field (cr_month c));
      (u "day_of_week", CStr (cr_day_of_week c))]
  | TInterval i => CDict [(u "type", CStr (u "interval")); (u "seconds", trigger_field (iv_seconds i)); (u "start", CEnum (start_text (iv_start i)))]
  end.
Definition schedule_summary (s : QueueJobSchedule W' Ctx) : result exn console_value :=
  let? encoded := encode_job (qs_job s).1 (qs_job s).2 in
  Ok (CDict [(u "id", CStr (qs_id s)); (u "trigger", trigger_summary (qs_trigger s));
    (u "job", CDict [(u "reference", CStr (ej_job_type encoded)); (u "version", CInt (ej_version encoded))]);
    (u "connection", optional CStr (qs_connection s)); (u "queue", optional CStr (qs_queue s));
    (u "coalesce", CEnum (coalesce_text (qs_coalesce s))); (u "misfire_grace_seconds", trigger_field (qs_misfire_grace_seconds s))]).
Definition list_schedules (discovered : result exn (ScheduleRegistry W' Ctx)) : result exn console_value :=
  let? registry := discovered in
  let? summaries := map_result schedule_summary (definitions registry) in
  Ok (CList summaries).
Definition schedules_handle (discovered : result exn (ScheduleRegistry W' Ctx)) : io W unit :=
  let* v := lift (list_schedules discovered) in presenter_result v.
End Jobs.

(** ** system/app.py *)

(** The settings shown, with the names of the connections. *)
Record ApplicationSettings := mk_app_info {
  ai_name : pystr; ai_version : pystr; ai_env : pystr; ai_debug : bool;
  ai_databases : list pystr; ai_caches : list pystr; ai_queues : list pystr; ai_vectors : list pystr;
}.
(** [local_time] is [(tzname(), strftime("%z"))] of the present moment. *)
Definition application_info (s : ApplicationSettings) (local_time : pystr * pystr) : console_value :=
  CDataclass [(u "name", CStr (ai_name s)); (u "version", CStr (ai_version s)); (u "environment", CStr (ai_env s)); (u "debug", CBool (ai_debug s));
    (u "timezone", CStr (local_time.1 ++ u " (" ++ local_time.2 ++ u ")"));
    (u "database_connections", CList (map CStr (ai_databases s))); (u "cache_connections", CList (map CStr (ai_caches s)));
    (u "queue_connections", CList (map CStr (ai_queues s))); (u "vector_connections", CList (map CStr (ai_vectors s)))].
Definition app_info_handle (s : ApplicationSettings) (local_time : io W (pystr * pystr)) : io W unit :=
  let* t := local_time in presenter_result (application_info s t).
End Console.

(** ** Proofs: the process *)
Section Process.
Context {W C : Type} (rt : @runtime_ref W C) (callbacks_of : C → @container W) (container_builder : io W C).
Context (get_trace : W → option TraceContext) (set_trace : option TraceContext → W → W) (new_trace_id : io W pystr).
Context (echo : console_stream → console_output → W → W) (typer : io W unit → io W unit) (outputs : W → list (console_stream * console_output)).
Context `{IsoFormat}.

Abbreviation silent := (quiet rt outputs).
(** Only the presenter writes; contexts and references are independent fields;
    the standalone mode of Typer turns its [Exit] and a normal end into a code. *)
Record console_laws : Prop := {
  cl_echo s o w : outputs (echo s o w) = outputs w ++ [(s, o)] ∧ rt_get C rt (echo s o w) = rt_get C rt w;
  cl_trace t : silent (modify (set_trace t));
  cl_trace_set t w : get_trace (set_trace t w) = t;
  cl_new_id : silent new_trace_id;
  cl_new_id_trace w : get_trace (new_trace_id w).1 = get_trace w;
  cl_runtime : runtime_quiet rt callbacks_of container_builder outputs;
  cl_typer m w : typer m w = match m w with
    | (w', Ok _) => (w', Err (SystemExit SUCCESS))
    | (w', Err (TyperExit c)) => (w', Err (SystemExit c))
    | (w', Err e) => (w', Err e)
    end;
}.
Hypothesis laws : console_laws.

(** A run of the host: what it wrote and what is left open. *)
Lemma host_run_silent {A} (operation : @ConsoleContext C → io W A) w :
  (∀ cx, silent (operation cx)) → rt_get C rt w = None →
  outputs (host_run rt callbacks_of container_builder get_trace set_trace new_trace_id operation w).1 = outputs w
  ∧ rt_get C rt (host_run rt callbacks_of container_builder get_trace set_trace new_trace_id operation w).1 = None.
Proof.
  intros Hop. assert (Hrun : ∀ i w, rt_get C rt w = None →
    outputs (host_run_ rt callbacks_of container_builder operation i w).1 = outputs w
    ∧ rt_get C rt (host_run_ rt callbacks_of container_builder operation i w).1 = None).
  { clear w. intros i w Hn. unfold host_run_, bind, finally. pose proof (start_keeps rt callbacks_of container_builder outputs (cl_runtime laws) w Hn) as Hs.
    destruct (runtime_start _ _ _ w) as [w1 [c | e]]; cbn [fst snd] in *; [| done]. destruct Hs as [Ho _].
    destruct (Hop (mk_context c i) w1) as [Ho2 _]. destruct (operation _ w1) as [w2 r2]. cbn [fst] in *.
    destruct (close_clears rt callbacks_of container_builder outputs (cl_runtime laws) w2) as [Ho3 Hr3]. destruct (runtime_aclose _ _ w2) as [w3 [[] | e]]; cbn [fst] in *; split; congruence. }
  intros Hn. unfold host_run, bind, read. destruct (get_trace w ≫= tr_command_id) as [i |]; [by apply Hrun |].
  destruct (cl_new_id laws w) as [Ho Hr]. destruct (new_trace_id w) as [w1 [i | e]]; cbn [fst] in *; [| split; congruence].
  unfold bind_trace_context, bind, read, modify, finally. destruct (cl_trace laws (Some (command_trace i)) w1) as [Ho2 Hr2].
  cbn [modify fst] in *. destruct (Hrun i (set_trace (Some (command_trace i)) w1)) as [Ho3 Hr3]; [unfold modify in *; cbn in *; congruence |].
  destruct (host_run_ _ _ _ _ _ _) as [w2 r2]. destruct (cl_trace laws (get_trace w1) w2) as [Ho4 Hr4]. unfold modify in *. cbn [fst] in *. split; congruence.
Qed.

Abbreviation the_host_run := (host_run rt callbacks_of container_builder get_trace set_trace new_trace_id).
Abbreviation the_console := (run_console get_trace set_trace new_trace_id echo).
Abbreviation the_command := (show_operation rt callbacks_of container_builder get_trace set_trace new_trace_id echo).
Abbreviation the_creation := (create_user_handle rt callbacks_of container_builder get_trace set_trace new_trace_id echo).

(** What the host did for a command: its start failed, or the operation ran in the
    started container with the identity of the command and then that container was
    closed; a failed closing is the outcome instead of the operation's. *)
Definition hosted {A} (operation : @ConsoleContext C → io W A) (command_id : pystr) (w w' : W) (r : result exn A) : Prop :=
  (∃ e, start_failed rt callbacks_of container_builder w w' e ∧ r = Err e)
  ∨ ∃ c w1 w2 ro rc, start_succeeded rt callbacks_of container_builder w w1 c
      ∧ operation (mk_context c command_id) w1 = (w2, ro)
      ∧ container_aclose (callbacks_of c) (rt_set C rt None w2) = (w', rc)
      ∧ r = match rc with Ok _ => ro | Err e => Err e end.
Lemma host_run_hosted {A} (operation : @ConsoleContext C → io W A) i w :
  (∀ cx, silent (operation cx)) → rt_get C rt w = None → get_trace w ≫= tr_command_id = Some i →
  let '(w', r) := the_host_run operation w in hosted operation i w w' r.
Proof.
  intros Hop Hn Hi. unfold host_run, bind at 1, read. rewrite Hi. unfold host_run_, bind, finally, hosted.
  pose proof (start_exact rt callbacks_of container_builder outputs (cl_runtime laws) w Hn) as Hs.
  pose proof (start_keeps rt callbacks_of container_builder outputs (cl_runtime laws) w Hn) as Hk.
  destruct (runtime_start _ _ _ w) as [w1 [c | e]]; [| by left; exists e]. destruct Hk as [_ Hc].
  destruct (Hop (mk_context c i) w1) as [_ Hr]. destruct (operation _ w1) as [w2 ro] eqn:Ho. cbn [fst] in Hr.
  rewrite (close_exact rt callbacks_of w2 c) by congruence. destruct (container_aclose _ _) as [w3 rc] eqn:Hx.
  destruct rc as [[] | e]; right; eexists c, w1, w2, ro, _; eauto.
Qed.

(** What a process shows of an error, and the exception it ends with. *)
Definition error_exit (e : exn) : list (console_stream * console_output) * exn :=
  match e with
  | TyperExit code => ([], SystemExit code)
  | _ =>
    if console_expected e then ([(Stderr, OutError e)], SystemExit FAILURE)
    else if is_exception e then
      match translate_database_error e with
      | Some d => ([(Stderr, OutError d)], SystemExit FAILURE)
      | None => ([], e)
      end
    else ([], e)
  end.
(** And of the outcome of an operation: its result is written if it is a JSON value. *)
Definition result_exit {A} (view : A → console_value) (a : A) : list (console_stream * console_output) * exn :=
  match to_output (view a) with Ok v => ([(Stdout, OutJson v)], SystemExit SUCCESS) | Err _ => ([], TypeError) end.
Definition command_exit {A} (view : A → console_value) (r : result exn A) : list (console_stream * console_output) * exn :=
  match r with Ok a => result_exit view a | Err e => error_exit e end.
Definition creation_exit (r : result exn UserDTO) : list (console_stream * console_output) * exn :=
  match r with
  | Ok user => result_exit user_value user
  | Err e => if is_user_error e then ([(Stderr, OutError e)], SystemExit FAILURE) else error_exit e
  end.
Definition echo_all (o : list (console_stream * console_output)) (w : W) : W := foldl (λ w so, echo so.1 so.2 w) w o.

Lemma echo_all_writes o w : outputs (echo_all o w) = outputs w ++ o ∧ rt_get C rt (echo_all o w) = rt_get C rt w.
Proof.
  revert w. induction o as [| [s x] o IH]; intros w; [by rewrite app_nil_r |]. destruct (cl_echo laws s x w) as [Ho Hr].
  destruct (IH (echo s x w)) as [Ho' Hr']. change (echo_all ((s, x) :: o) w) with (echo_all o (echo s x w)). split; [| congruence].
  by rewrite Ho', Ho, <- app_assoc.
Qed.
Lemma run_console_exact (m : io W unit) w w1 i w2 r :
  new_trace_id w = (w1, Ok i) → m (set_trace (Some (command_trace i)) w1) = (w2, r) →
  let '(o, e) := match r with Ok _ => ([], SystemExit SUCCESS) | Err e => error_exit e end in
  the_console (typer m) w = (set_trace (get_trace w) (echo_all o w2), Err e).
Proof.
  intros Hid Hm. pose proof (cl_new_id_trace laws w) as Ht. rewrite Hid in Ht. cbn [fst] in Ht.
  unfold run_console, bind_trace_context. unfold bind, read, modify, finally, catch. rewrite Hid, Ht, (cl_typer laws m), Hm.
  destruct r as [[] | e]; [done |]. unfold error_exit, console_failure, presenter_error. unprog.
  destruct e; cbn -[is_exception]; try reflexivity; by destruct (is_exception _).
Qed.

Lemma to_output_error v e : to_output v = Err e → e = TypeError.
Proof.
  revert v e. fix IH 1. intros v e. assert (Hmap : ∀ (l : list console_value) e, map_result to_output l = Err e → e = TypeError).
  { fix IHl 1. intros [| x l] e'; [done |]. cbn [map_result]. pose proof (IH x) as Hx. destruct (to_output x); cbn [result_bind]; [| by intros [= <-]; apply Hx].
    pose proof (IHl l) as Hl. destruct (map_result to_output l); cbn [result_bind]; [done |]. by intros [= <-]; apply Hl. }
  assert (Hdict : ∀ (l : list (pystr * console_value)) e, map_result (λ kv, let? x := to_output kv.2 in Ok (kv.1, x)) l = Err e → e = TypeError).
  { fix IHl 1. intros [| [k x] l] e'; [done |]. cbn [map_result]. cbn [fst snd]. pose proof (IH x) as Hx. destruct (to_output x); cbn [result_bind]; [| by intros [= <-]; apply Hx].
    pose proof (IHl l) as Hl. destruct (map_result _ l); cbn [result_bind]; [done |]. by intros [= <-]; apply Hl. }
  destruct v; cbn [to_output json_default]; try done.
  - specialize (Hmap l). destruct (map_result _ l); cbn [result_bind]; [done |]. intros [= <-]. by apply Hmap.
  - specialize (Hdict d). destruct (map_result _ d); cbn [result_bind]; [done |]. intros [= <-]. by apply Hdict.
  - specialize (Hdict fields). destruct (map_result _ fields); cbn [result_bind]; [done |]. intros [= <-]. by apply Hdict.
  - by intros [= <-].
Qed.

(** The process of a command whose handle ends as [exit] says of the host's outcome. *)
Lemma process_of_command {A} (m : io W unit) (operation : @ConsoleContext C → io W A) (exit : result exn A → list (console_stream * console_output) * exn) w :
  (∀ cx, silent (operation cx)) → rt_get C rt w = None → is_ok (new_trace_id w).2 = true →
  (∀ w, let '(w1, ro) := the_host_run operation w in let '(w2, r) := m w in let '(o, e) := exit ro in
     ∃ o1 o2, o = o1 ++ o2 ∧ w2 = echo_all o1 w1 ∧ match r with Ok _ => ([], SystemExit SUCCESS) | Err e => error_exit e end = (o2, e)) →
  let '(w', r) := the_console (typer m) w in
  ∃ i w1 w2 ro, new_trace_id w = (w1, Ok i) ∧ hosted operation i (set_trace (Some (command_trace i)) w1) w2 ro
    ∧ let '(o, e) := exit ro in
      r = Err e ∧ w' = set_trace (get_trace w) (echo_all o w2)
      ∧ outputs w' = outputs w ++ o ∧ rt_get C rt w' = None ∧ get_trace w' = get_trace w.
Proof.
  intros Hop Hn Hid Hm. destruct (cl_new_id laws w) as [Ho Hr]. destruct (new_trace_id w) as [w1 [i | e]] eqn:Hi; [| done]. cbn [fst] in *.
  destruct (cl_trace laws (Some (command_trace i)) w1) as [Ho1 Hr1]. unfold modify in Ho1, Hr1. cbn [fst] in *.
  set (w0 := set_trace (Some (command_trace i)) w1) in *. assert (Hn0 : rt_get C rt w0 = None) by congruence.
  pose proof (host_run_hosted operation i w0 Hop Hn0) as Hh. destruct (host_run_silent operation w0 Hop Hn0) as [Ho2 Hr2].
  specialize (Hm w0). pose proof (λ w2 r, run_console_exact m w w1 i w2 r Hi) as Hc. fold w0 in Hc.
  destruct (the_host_run operation w0) as [w2 ro], (m w0) as [w3 r]. specialize (Hc w3 r eq_refl).
  destruct (exit ro) as [o e] eqn:He. destruct Hm as (o1 & o2 & -> & -> & Hx). rewrite Hx in Hc. rewrite Hc.
  exists i, w1, w2, ro. split; [done |]. split; [apply Hh; unfold w0; by rewrite (cl_trace_set laws) |]. rewrite He. cbn [fst] in *.
  assert (Hall : echo_all o2 (echo_all o1 w2) = echo_all (o1 ++ o2) w2) by (unfold echo_all; by rewrite foldl_app).
  rewrite Hall. destruct (echo_all_writes (o1 ++ o2) w2) as [Hw Hwr].
  destruct (cl_trace laws (get_trace w) (echo_all (o1 ++ o2) w2)) as [Hs Hsr]. unfold modify in Hs, Hsr. cbn [fst] in Hs, Hsr.
  split_and!; [done | done | congruence | congruence | apply (cl_trace_set laws)].
Qed.
Lemma result_presented {A} (view : A → console_value) a w :
  let '(w2, r) := presenter_result echo (view a) w in let '(o, e) := result_exit view a in
  ∃ o1 o2, o = o1 ++ o2 ∧ w2 = echo_all o1 w ∧ match r with Ok _ => ([], SystemExit SUCCESS) | Err e => error_exit e end = (o2, e).
Proof.
  unfold presenter_result, result_exit, bind, lift, modify. destruct (to_output (view a)) as [x | e] eqn:Hx.
  - by exists [(Stdout, OutJson x)], [].
  - apply to_output_error in Hx as ->. by exists [], [].
Qed.

End Process.

(** ** Proofs: the command tree *)
Definition in_group (g : pystr) (cs : list ConsoleCommand) : list ConsoleCommand := filter (λ c, cm_group c = g) cs.
Definition one_help (cs : list ConsoleCommand) : Prop :=
  ∀ a b, a ∈ cs → b ∈ cs → cm_group a = cm_group b → cm_group_help a = cm_group_help b.
Definition well_named (cs : list ConsoleCommand) : Prop := base.NoDup (map command_key cs) ∧ one_help cs.
Definition group_of (g : pystr) (cs : list ConsoleCommand) : option TyperGroup :=
  match in_group g cs with [] => None | c :: l => Some (mk_group (cm_group_help c) (c :: l)) end.
Definition tree_of (cs : list ConsoleCommand) (r : ConsoleCommandRegistry) : Prop :=
  cr_commands r = map command_key cs ∧ well_named cs ∧ ∀ g, dict_get (cr_groups r) g = group_of g cs.

Lemma in_group_snoc g cs c : in_group g (cs ++ [c]) = in_group g cs ++ (if decide (cm_group c = g) then [c] else []).
Proof. unfold in_group. rewrite list.filter_app. by destruct (decide (cm_group c = g)); [rewrite list.filter_cons_True | rewrite list.filter_cons_False]. Qed.
Lemma group_first g cs c l : in_group g cs = c :: l → c ∈ cs ∧ cm_group c = g.
Proof. intros Hg. assert (c ∈ in_group g cs) as Hc by (rewrite Hg; left). unfold in_group in Hc. by apply list_elem_of_filter in Hc as [? ?]. Qed.
Lemma register_one cs r c : tree_of cs r →
  match registry_register r c with
  | Ok r' => tree_of (cs ++ [c]) r'
  | Err e => e = RuntimeError ∧ ¬ well_named (cs ++ [c])
  end.
Proof.
  intros (Hc & [Hn Hh] & Hg). unfold registry_register. destruct (bool_decide (command_key c ∈ cr_commands r)) eqn:Hin; cbn [negb guard result_bind].
  { split; [done |]. intros [Hn' _]. apply bool_decide_eq_true in Hin. rewrite Hc in Hin. rewrite map_app in Hn'.
    apply list.NoDup_app in Hn' as (_ & Hd & _). apply (Hd _ Hin). left. }
  apply bool_decide_eq_false in Hin. rewrite Hc in Hin. unfold resolve_group. rewrite Hg. unfold group_of.
  assert (Hnd : base.NoDup (map command_key (cs ++ [c]))).
  { rewrite map_app. apply list.NoDup_app. split; [done |]. split; [| apply NoDup_singleton]. intros k Hk ->%list_elem_of_singleton. done. }
  destruct (in_group (cm_group c) cs) as [| c0 l] eqn:Hgc; cbn [result_bind].
  - split; [cbn; by rewrite Hc, map_app |]. split; [split; [done |] |].
    + intros a b. rewrite !elem_of_app, !list_elem_of_singleton. intros [Ha | ->] [Hb | ->] Hab; [by apply Hh | | | done]; exfalso.
      * apply (not_elem_of_nil a). rewrite <- Hgc. unfold in_group. by apply list_elem_of_filter.
      * apply (not_elem_of_nil b). rewrite <- Hgc. unfold in_group. by apply list_elem_of_filter.
    + intros g. cbn [cr_groups tg_help tg_commands]. rewrite dict_get_set. unfold group_of. rewrite in_group_snoc.
      destruct (decide (cm_group c = g)) as [<- | Hne]; [by rewrite Hgc |]. rewrite app_nil_r. apply Hg.
  - destruct (group_first _ _ _ _ Hgc) as [Hc0 Hg0]. cbn [tg_help]. case_bool_decide as Hhelp; cbn [result_bind].
    + split; [cbn; by rewrite Hc, map_app |]. split; [split; [done |] |].
      * intros a b. rewrite !elem_of_app, !list_elem_of_singleton. intros [Ha | ->] [Hb | ->] Hab; [by apply Hh | | | done].
        -- rewrite <- Hhelp. apply Hh; [done.. | by rewrite Hab].
        -- rewrite <- Hhelp. apply Hh; [done.. | by rewrite <- Hab].
      * intros g. cbn [cr_groups tg_help tg_commands]. rewrite dict_get_set. unfold group_of. rewrite in_group_snoc.
        destruct (decide (cm_group c = g)) as [<- | Hne]; [by rewrite Hgc |]. rewrite app_nil_r. apply Hg.
    + split; [done |]. intros [_ Hone]. apply Hhelp. apply Hone; [apply elem_of_app; by left | apply elem_of_app; right; left | done].
Qed.
Lemma well_named_prefix cs cs' : well_named (cs ++ cs') → well_named cs.
Proof.
  intros [Hn Hh]. rewrite map_app in Hn. apply list.NoDup_app in Hn as (Hn & _). split; [done |].
  intros a b Ha Hb. apply Hh; apply elem_of_app; by left.
Qed.
Lemma register_all_commands cs done r : tree_of done r →
  match register_commands cs r with
  | Ok r' => tree_of (done ++ cs) r'
  | Err e => e = RuntimeError ∧ ¬ well_named (done ++ cs)
  end.
Proof.
  revert done r. induction cs as [| c cs IH]; intros dn r Ht; [by rewrite app_nil_r |]. cbn [register_commands].
  pose proof (register_one dn r c Ht) as Hone. destruct (registry_register r c) as [r' | e]; cbn [result_bind].
  - specialize (IH (dn ++ [c]) r' Hone). by rewrite <- app_assoc in IH.
  - destruct Hone as [-> Hn]. split; [reflexivity |]. intros Hw. apply Hn. change (c :: cs) with ([c] ++ cs) in Hw. rewrite app_assoc in Hw. by apply well_named_prefix in Hw.
Qed.
Lemma well_named_perm cs cs' : cs ≡ₚ cs' → well_named cs → well_named cs'.
Proof. intros Hp [Hn Hh]. split; [by rewrite <- Hp |]. intros a b. rewrite <- Hp. apply Hh. Qed.
Lemma command_leb_total a b : command_leb a b = true ∨ command_leb b a = true.
Proof. apply pair_leb_total. Qed.
Lemma command_leb_trans a b c : command_leb a b = true → command_leb b c = true → command_leb a c = true.
Proof. apply pair_leb_trans. Qed.

(** The command line is determined by the classes that exist: it is built
    unless two commands share group and name or a group has two helps, which is a
    [RuntimeError]; then every group holds exactly its commands, in order of
    their names, with their help; and the order in which the modules and classes
    were found does not matter. *)
Theorem console_tree_canonical types :
  match command_tree (sort_by command_leb types) with
  | Ok groups => well_named types ∧ ∀ g, dict_get groups g = group_of g (sort_by command_leb types)
  | Err e => e = RuntimeError ∧ ¬ well_named types
  end
  ∧ ∀ types', types ≡ₚ types' → command_tree (sort_by command_leb types') = command_tree (sort_by command_leb types).
Proof.
  assert (Htree : ∀ types, match command_tree (sort_by command_leb types) with
    | Ok groups => well_named types ∧ ∀ g, dict_get groups g = group_of g (sort_by command_leb types)
    | Err e => e = RuntimeError ∧ ¬ well_named types
    end).
  { clear types. intros types. unfold command_tree. pose proof (register_all_commands (sort_by command_leb types) [] (mk_registry [] [])) as Hr.
    destruct (register_commands _ _) as [r | e]; cbn [result_bind].
    - destruct Hr as (_ & Hw & Hg); [by repeat split; [constructor | intros a b ?%elem_of_nil] |]. split; [| done].
      eapply well_named_perm; [| exact Hw]. apply sort_by_perm.
    - destruct Hr as [-> Hn]; [by repeat split; [constructor | intros a b ?%elem_of_nil] |]. split; [done |]. intros Hw. apply Hn.
      eapply well_named_perm; [| exact Hw]. symmetry. apply sort_by_perm. }
  split; [apply Htree |]. intros types' Hp. destruct (decide (base.NoDup (map command_key types))) as [Hn | Hn].
  - f_equal. symmetry. apply sort_by_unique; [apply command_leb_total | apply command_leb_trans | | done].
    intros a b Ha Hb Hab Hba. pose proof (pair_leb_antisymm _ _ Hab Hba) as Hk.
    apply list_elem_of_lookup in Ha as [i Hi], Hb as [j Hj].
    assert (i = j) as ->; [| congruence]. eapply (NoDup_lookup (map command_key types)); [done | by rewrite list_lookup_fmap, Hi | by rewrite list_lookup_fmap, Hj, Hk].
  - pose proof (Htree types) as H1'. pose proof (Htree types') as H2'.
    destruct (command_tree (sort_by command_leb types)) as [? | e]; [by destruct H1' as [[? _] _] |].
    destruct (command_tree (sort_by command_leb types')) as [? | e']; [destruct H2' as [[Hd _] _]; by rewrite <- Hp in Hd |].
    destruct H1' as [-> _], H2' as [-> _]. done.
Qed.

(** What [queue failed] shows does not depend on the payloads, and every value
    the commands show can be written. *)
Definition without_payload (r : FailedJobRecord) : FailedJobRecord :=
  mk_failed (fj_failure_id r) [] (fj_connection r) (fj_queue r) (fj_failed_at r) (fj_attempts r) (fj_reason r) (fj_job_id r) (fj_error_type r) (fj_stacktrace r).
Lemma failures_hide_payload {W C} (store_list : C → Z → Z → io W (list FailedJobRecord)) limit offset (cx : @ConsoleContext C) w :
  list_failures (λ c l o, let* rs := store_list c l o in ret (map without_payload rs)) limit offset cx w = list_failures store_list limit offset cx w.
Proof.
  unfold list_failures, bind, ret. destruct (store_list _ _ _ w) as [w' [rs | e]]; [| done]. by rewrite map_map.
Qed.
Lemma failure_value_written `{IsoFormat} r : is_ok (to_output (failure_value r)) = true.
Proof.
  assert (Hf : ∀ l, ∃ x, map_result to_output (map frame_value l) = Ok x).
  { induction l as [| f l [x Hx]]; [by eexists |]. cbn [map map_result]. cbn -[map_result map]. rewrite Hx. by eexists. }
  unfold failure_value. destruct (Hf (fj_stacktrace r)) as [x Hx]. cbn -[map_result map]. destruct (fj_job_id r), (fj_error_type r); cbn; by rewrite Hx.
Qed.

(** A worker or scheduler process ends with code 1 after any [Exception], and
    shows the message of an error only if the error is one of its public ones. *)
Lemma run_process_opaque {W} (echo : console_stream → console_output → W → W) public log_failure entrypoint w w' (r : result exn unit) :
  (∀ e w, (log_failure e w).2 = Ok tt) → run_process echo public log_failure entrypoint w = (w', r) →
  (r = Ok tt ∧ (entrypoint w).2 = Ok tt)
  ∨ (∃ e, (entrypoint w).2 = Err e ∧ is_exception e = false ∧ r = Err e)
  ∨ ∃ e w1, (entrypoint w).2 = Err e ∧ is_exception e = true ∧ r = Err (SystemExit 1)
      ∧ w' = echo Stderr (if public e then OutError e else OutFailure e) w1.
Proof.
  intros Hlog. unfold run_process. unprog. destruct (entrypoint w) as [w1 [[] | e]]; cbn [fst snd]; [intros [= <- <-]; by left |].
  destruct (is_exception e) eqn:He; [| intros [= <- <-]; right; left; eauto].
  specialize (Hlog e w1). destruct (log_failure e w1) as [w2 [[] | e2]]; [| done]. intros [= <- <-]. right. right. by exists e, w2.
Qed.

(** ** A concrete console *)
Record DemoConsole := mk_dconsole { dc_rt : option unit; dc_trace : option TraceContext; dc_out : list (console_stream * console_output) }.
Definition demo_console_rt : @runtime_ref DemoConsole unit :=
  {| rt_get := dc_rt; rt_set c w := mk_dconsole c (dc_trace w) (dc_out w) |}.
Definition demo_set_trace (t : option TraceContext) (w : DemoConsole) : DemoConsole := mk_dconsole (dc_rt w) t (dc_out w).
Definition demo_echo (s : console_stream) (o : console_output) (w : DemoConsole) : DemoConsole :=
  mk_dconsole (dc_rt w) (dc_trace w) (dc_out w ++ [(s, o)]).
Definition demo_typer (m : io DemoConsole unit) : io DemoConsole unit :=
  λ w, match m w with
       | (w', Ok _) => (w', Err (SystemExit SUCCESS))
       | (w', Err (TyperExit c)) => (w', Err (SystemExit c))
       | (w', Err e) => (w', Err e)
       end.
Definition demo_callbacks (_ : unit) : @container DemoConsole := mk_container [] [ret tt] [].
Definition demo_console_id : io DemoConsole pystr := ret (u "c1").
Lemma demo_console_laws : console_laws demo_console_rt demo_callbacks (ret tt) dc_trace demo_set_trace demo_console_id demo_echo demo_typer dc_out.
Proof.
  split; try done. split; try done; intros c m Hm; cbn in Hm; [by apply elem_of_nil in Hm | | by apply elem_of_nil in Hm].
  apply list_elem_of_singleton in Hm as ->. by intros w.
Qed.
#[local] Instance demo_iso : IsoFormat := {| isoformat _ := u "2026-01-01T00:00:00+00:00" |}.
