(* ===== verification/Application.v ===== *)
(** * Application: the composition root and the life of the HTTP process

    Models [bootstrap/build.py], [contexts/user/composition.py],
    [infrastructure/rate_limit/factory.py], [bootstrap/http/lifespan.py], the order
    of the HTTP middleware and its trace context ([interfaces/http/middleware/]),
    and the password hasher ([infrastructure/security/password_hasher.py]).  The
    managers' constructors are arguments, as are FastAPI and pwdlib; [serve] is
    what happens while the lifespan is open. *)

From S2P Require Import Prelude Text Errors PyVal UserDomain UserContracts Lazy Runtime Quiet.
Local Open Scope prog_scope.

(** ** Composition *)
Section Build.
Context {W DB Caches Http Vectors Queues Hasher : Type}.

Record AuthConfig := mk_auth_config {
  au_session_ttl_seconds : Z; au_login_limit_cache : option pystr; au_login_max_failures : Z;
  au_login_failure_window_seconds : Z; au_login_lock_seconds : Z;
}.
Record LoginLimiterConfig := mk_limiter_config { ll_cache : pystr; ll_max_failures : Z; ll_failure_window_seconds : Z; ll_lock_seconds : Z }.
Record UserContext := mk_user_context {
  uc_databases : DB; uc_connection_name : pystr; uc_hasher : Hasher; uc_session_ttl_seconds : Z; uc_login_attempts : option LoginLimiterConfig;
}.
Definition USER_DATABASE_CONNECTION_NAME : pystr := u "main".
Context (require_redis : Caches → option pystr → result exn pystr).

Definition build_user_context (s : AuthConfig) (hasher : Hasher) (databases : DB) (caches : option Caches) : result exn UserContext :=
  let? login_attempts :=
    match au_login_limit_cache s with
    | None => Ok None
    | Some cache =>
        match caches with
        | None => Err CacheConfigurationError
        | Some caches =>
            let? cache_name := require_redis caches (Some cache) in
            Ok (Some (mk_limiter_config cache_name (au_login_max_failures s) (au_login_failure_window_seconds s) (au_login_lock_seconds s)))
        end
    end in
  Ok (mk_user_context databases USER_DATABASE_CONNECTION_NAME hasher (au_session_ttl_seconds s) login_attempts).

Record RateLimitConfig := mk_rate_limit_config { rl_enabled : bool; rl_cache : option pystr; rl_max_requests : Z; rl_window_seconds : Z }.
Record FixedWindowConfig := mk_fixed_window { fw_cache : pystr; fw_max_requests : Z; fw_window_seconds : Z }.
Definition build_rate_limiter (s : RateLimitConfig) (caches : Caches) : result exn (option FixedWindowConfig) :=
  if negb (rl_enabled s) then Ok None
  else
    let? cache_name := require_redis caches (rl_cache s) in
    Ok (Some (mk_fixed_window cache_name (rl_max_requests s) (rl_window_seconds s))).

Record Application := mk_application {
  ap_databases : DB; ap_caches : Caches; ap_rate_limiter : option FixedWindowConfig; ap_http : Http; ap_vectors : Vectors;
  ap_users : UserContext; ap_queues : Queues; ap_callbacks : @container W;
}.
(** The constructors of the managers, which only read the configuration. *)
Record Constructors := mk_constructors {
  new_databases : result exn DB; new_caches : result exn Caches; new_http : result exn Http; new_vectors : result exn Vectors;
  new_queues : DB → result exn Queues; new_hasher : Hasher;
  db_aclose : DB → io W unit; cache_aclose : Caches → io W unit; http_aclose : Http → io W unit;
  vector_aclose : Vectors → io W unit; queue_aclose : Queues → io W unit;
}.
Definition build_application_container (k : Constructors) (auth : AuthConfig) (rate_limit : RateLimitConfig) : result exn Application :=
  let? databases := new_databases k in
  let? caches := new_caches k in
  let? rate_limiter := build_rate_limiter rate_limit caches in
  let? http := new_http k in
  let? vectors := new_vectors k in
  let? queues := new_queues k databases in
  let? users := build_user_context auth (new_hasher k) databases (Some caches) in
  Ok (mk_application databases caches rate_limiter http vectors users queues
        (mk_container [] [db_aclose k databases; cache_aclose k caches; http_aclose k http; vector_aclose k vectors; queue_aclose k queues] [])).
End Build.

(** ** The lifespan *)
Inductive ApplicationLogEvent := APP_STARTING | APP_STARTED | APP_START_FAILED | APP_STOPPING | APP_STOPPED | APP_STOP_FAILED.
Section Lifespan.
Context {W C : Type} (rt : @runtime_ref W C) (callbacks_of : C → @container W) (container_factory : io W C).
Context (log_ : ApplicationLogEvent → W → W) (expose : option C → W → W).     (* app.state.container *)
Definition app_log (e : ApplicationLogEvent) : io W unit := modify (log_ e).
(** [except BaseException as error: log; raise] *)
Definition app_logged {A} (event : ApplicationLogEvent) (m : io W A) : io W A := catch m (λ e, app_log event;;; raise e).

Definition lifespan (serve : C → io W unit) : io W unit :=
  app_log APP_STARTING;;;
  let* started := attempt (app_logged APP_START_FAILED (runtime_start rt callbacks_of container_factory)) in
  let container_exposed := match started with Ok _ => true | Err _ => false end in
  let* served := attempt (
    let* c := lift started in
    modify (expose (Some c));;;
    app_log APP_STARTED;;;
    serve c) in
  app_log APP_STOPPING;;;
  finally (app_logged APP_STOP_FAILED (runtime_aclose rt callbacks_of)) (when container_exposed (modify (expose None)));;;
  app_log APP_STOPPED;;;
  lift served.
End Lifespan.

(** ** The HTTP middleware *)
Record HttpConfig := mk_http_config {
  hs_access_enabled : bool; hs_access_exclude_routes : list pystr; hs_debug : bool;
  hs_rate_limit_enabled : bool; hs_fail_open : bool; hs_service_code : pystr; hs_expose_headers : list pystr;
}.
Inductive Middleware :=
| CorsMiddleware (expose_headers : list pystr)
| RequestIdMiddleware (service_code : pystr)
| TraceContextMiddleware
| AccessLogMiddleware (exclude_routes : list pystr)
| ExceptionCaptureMiddleware (debug : bool)
| RateLimitMiddleware (fail_open : bool)
| QueryParamDecode.
Definition REQUEST_ID_HEADER : pystr := u "X-Request-ID".
Definition cors_expose_headers `{UnicodeTables} (configured : list pystr) : list pystr :=
  REQUEST_ID_HEADER :: List.filter (λ header, negb (bool_decide (py_lower header = py_lower REQUEST_ID_HEADER))) configured.
Definition build_http_middlewares `{UnicodeTables} (s : HttpConfig) : list Middleware :=
  [CorsMiddleware (cors_expose_headers (hs_expose_headers s)); RequestIdMiddleware (hs_service_code s); TraceContextMiddleware]
  ++ (if hs_access_enabled s then [AccessLogMiddleware (hs_access_exclude_routes s)] else [])
  ++ [ExceptionCaptureMiddleware (hs_debug s)]
  ++ (if hs_rate_limit_enabled s then [RateLimitMiddleware (hs_fail_open s)] else [])
  ++ [QueryParamDecode].

(** [_read_request_id] in the context of starlette_context, if there is one. *)
Definition read_request_id (context : option (pydict pystr)) : result exn pystr :=
  match context with
  | None => Err RuntimeError
  | Some c => match dict_get c REQUEST_ID_HEADER with Some id => Ok id | None => Err RuntimeError end
  end.
Definition trace_context_middleware {W} (get_trace : W → option TraceContext) (set_trace : option TraceContext → W → W)
    (http : bool) (context : option (pydict pystr)) (app : io W unit) : io W unit :=
  if negb http then app
  else
    let* request_id := lift (read_request_id context) in
    bind_trace_context get_trace set_trace (mk_trace (Some request_id) (Some request_id) None) app.

(** ** The password hasher *)

(** pwdlib in a worker thread. *)
Class Pwdlib (W : Type) := { pw_hash : pystr → io W pystr; pw_verify : pystr → pystr → io W bool }.
Definition DUMMY_PASSWORD_HASH : pystr :=
  u "$argon2id$v=19$m=65536,t=3,p=4$02Keoy+DGPuHr5mUy59tsw$KlRhQ6wTlD0CHUm1FhjrgNWjseJuIFqTWejQfGj0C54".
Definition hasher_hash `{Pwdlib W} (password : Password) : io W PasswordHash :=
  let* h := pw_hash (password_value password) in lift (PasswordHash_new h).
Definition verify_or_dummy `{Pwdlib W} (password : pystr) (password_hash : option PasswordHash) : io W bool :=
  let active_hash := match password_hash with Some h => password_hash_value h | None => DUMMY_PASSWORD_HASH end in
  let* verified := catch (pw_verify password active_hash)
    (λ e, match e with UnknownHashError => raise RuntimeError | _ => raise e end) in
  ret (bool_decide (is_Some password_hash) && verified).
#[export] Instance pwdlib_hasher `{Pwdlib W} : PasswordHasher W := {| ph_hash := hasher_hash; ph_verify_or_dummy := verify_or_dummy |}.

(** ** Properties *)

(** Closing the application closes the queues first and the databases, which
    the queues and users borrow, last; each exactly once, whatever fails. *)
Lemma application_shutdown_order {W DB Caches Http Vectors Queues Hasher} (require_redis : Caches → option pystr → result exn pystr)
    (k : @Constructors W DB Caches Http Vectors Queues Hasher) auth limits app :
  build_application_container require_redis k auth limits = Ok app →
  ap_callbacks app = mk_container []
    [db_aclose k (ap_databases app); cache_aclose k (ap_caches app); http_aclose k (ap_http app); vector_aclose k (ap_vectors app); queue_aclose k (ap_queues app)] []
  ∧ ∀ w, container_aclose (ap_callbacks app) w =
      let '(w', es) := run_all [queue_aclose k (ap_queues app); vector_aclose k (ap_vectors app); http_aclose k (ap_http app);
        cache_aclose k (ap_caches app); db_aclose k (ap_databases app)] w in (w', group_result es).
Proof.
  unfold build_application_container. repeat (rewrite result_bind_ok; intros (? & ? & Hk); revert Hk). intros [= <-].
  split; [done |]. intros w. by rewrite container_aclose_run.
Qed.
(** The login limiter and the shared rate limiter exist exactly when they are
    configured, and then use a connection that [require_redis] accepted. *)
Lemma user_context_limiter {DB Caches Hasher} (require_redis : Caches → option pystr → result exn pystr) s (h : Hasher) (db : DB) caches context :
  build_user_context require_redis s h db caches = Ok context →
  match uc_login_attempts context, au_login_limit_cache s with
  | None, None => True
  | Some c, Some cache => ∃ k, caches = Some k ∧ require_redis k (Some cache) = Ok (ll_cache c) ∧ ll_max_failures c = au_login_max_failures s
  | _, _ => False
  end.
Proof.
  unfold build_user_context. rewrite result_bind_ok. intros (attempts & Ha & [= <-]). cbn.
  destruct (au_login_limit_cache s) as [cache |]; [| by injection Ha as <-]. destruct caches as [k |]; [| done].
  rewrite result_bind_ok in Ha. destruct Ha as (name & Hn & [= <-]). by exists k.
Qed.

Section LifespanProofs.
Context {W C : Type} (rt : @runtime_ref W C) (callbacks_of : C → @container W) (container_factory : io W C).
Context (log_ : ApplicationLogEvent → W → W) (expose : option C → W → W).
Context (logs : W → list ApplicationLogEvent) (exposed : W → option C).
Abbreviation seen := (λ w, (logs w, exposed w)).
Record lifespan_laws : Prop := {
  ll_log e w : logs (log_ e w) = logs w ++ [e] ∧ exposed (log_ e w) = exposed w ∧ rt_get C rt (log_ e w) = rt_get C rt w;
  ll_expose c w : exposed (expose c w) = c ∧ logs (expose c w) = logs w ∧ rt_get C rt (expose c w) = rt_get C rt w;
  ll_runtime : runtime_quiet rt callbacks_of container_factory seen;
}.
Hypothesis laws : lifespan_laws.

Abbreviation the_starting := (start_succeeded rt callbacks_of container_factory).
Abbreviation the_failing := (start_failed rt callbacks_of container_factory).

(** C34: the life of the HTTP process.  After a complete start the requests are
    served with the started container in place and exposed; then that container
    itself is closed, in the state the serving left, and withdrawn; the serving's
    own outcome is kept unless closing raises, whose error then leaves.  After a
    failed start nothing is served or exposed, and the start's error is raised as it
    is, the container it built, if any, having been closed by the start.  On every path no
    container is left, and the log tells the start or its failure and the stop or
    its failure, in this order. *)
Theorem lifespan_correct (serve : C → io W unit) w :
  (∀ c, quiet rt seen (serve c)) → rt_get C rt w = None → exposed w = None →
  let '(w', r) := lifespan rt callbacks_of container_factory log_ expose serve w in
  rt_get C rt w' = None ∧ exposed w' = None
  ∧ ((∃ c w0 w6 r6, let w1 := log_ APP_STARTED (expose (Some c) w0) in
        the_starting (log_ APP_STARTING w) w0 c
        ∧ rt_get C rt w1 = Some c ∧ exposed w1 = Some c
        ∧ container_aclose (callbacks_of c) (rt_set C rt None (log_ APP_STOPPING (serve c w1).1)) = (w6, r6)
        ∧ match r6 with
          | Ok _ => w' = log_ APP_STOPPED (expose None w6) ∧ r = (serve c w1).2
          | Err e => w' = expose None (log_ APP_STOP_FAILED w6) ∧ r = Err e
          end
        ∧ logs w' = logs w ++ [APP_STARTING; APP_STARTED; APP_STOPPING; if is_ok r6 then APP_STOPPED else APP_STOP_FAILED])
     ∨ ∃ w1 e, the_failing (log_ APP_STARTING w) w1 e
        ∧ w' = log_ APP_STOPPED (rt_set C rt None (log_ APP_STOPPING (log_ APP_START_FAILED w1))) ∧ r = Err e
        ∧ logs w' = logs w ++ [APP_STARTING; APP_START_FAILED; APP_STOPPING; APP_STOPPED]).
Proof.
  intros Hserve Hn Hx. unfold lifespan, app_logged, app_log. unfold bind, attempt, catch, modify, lift, finally, when.
  destruct (ll_log laws APP_STARTING w) as (Hl0 & Hx0 & Hr0).
  assert (Hn0 : rt_get C rt (log_ APP_STARTING w) = None) by congruence.
  pose proof (start_keeps rt callbacks_of container_factory seen (ll_runtime laws) _ Hn0) as Hs.
  pose proof (start_exact rt callbacks_of container_factory seen (ll_runtime laws) _ Hn0) as He.
  destruct (runtime_start _ _ _ (log_ APP_STARTING w)) as [w1 [c | e]]; destruct Hs as [[= Hl1 Hx1] Hr1]; cbn [fst snd].
  - destruct (ll_expose laws (Some c) w1) as (Hx2 & Hl2 & Hr2), (ll_log laws APP_STARTED (expose (Some c) w1)) as (Hl3 & Hx3 & Hr3).
    set (w3 := log_ APP_STARTED (expose (Some c) w1)) in *. destruct (Hserve c w3) as [[= Hl4 Hx4] Hr4].
    destruct (serve c w3) as [w4 r4] eqn:Hsv. cbn [fst snd] in *. destruct (ll_log laws APP_STOPPING w4) as (Hl5 & Hx5 & Hr5).
    destruct (close_clears rt callbacks_of container_factory seen (ll_runtime laws) (log_ APP_STOPPING w4)) as [[= Hl6 Hx6] Hr6].
    assert (Hlogs : logs w3 = logs w ++ [APP_STARTING; APP_STARTED]).
    { rewrite Hl3, Hl2, Hl1, Hl0, <- app_assoc. done. }
    assert (Hc5 : rt_get C rt (log_ APP_STOPPING w4) = Some c) by congruence.
    rewrite (close_exact rt callbacks_of _ c Hc5) in *.
    destruct (container_aclose _ _) as [w6 [[] | e]] eqn:Hcl; cbn [fst snd] in *.
    + destruct (ll_expose laws None w6) as (Hx7 & Hl7 & Hr7), (ll_log laws APP_STOPPED (expose None w6)) as (Hl8 & Hx8 & Hr8).
      split; [congruence |]. split; [congruence |]. left. exists c, w1, w6, (Ok tt). cbv zeta. fold w3. rewrite Hsv. cbn [fst snd].
      split_and!; [done | congruence | congruence | done | done | done |]. rewrite Hl8, Hl7, Hl6, Hl5, Hl4, Hlogs. by rewrite <- !app_assoc.
    + destruct (ll_log laws APP_STOP_FAILED w6) as (Hl8 & Hx8 & Hr8), (ll_expose laws None (log_ APP_STOP_FAILED w6)) as (Hx7 & Hl7 & Hr7).
      split; [congruence |]. split; [congruence |]. left. exists c, w1, w6, (Err e). cbv zeta. fold w3. rewrite Hsv. cbn [fst snd].
      split_and!; [done | congruence | congruence | done | done | done |]. rewrite Hl7, Hl8, Hl6, Hl5, Hl4, Hlogs. by rewrite <- !app_assoc.
  - destruct (ll_log laws APP_START_FAILED w1) as (Hl2 & Hx2 & Hr2), (ll_log laws APP_STOPPING (log_ APP_START_FAILED w1)) as (Hl3 & Hx3 & Hr3).
    assert (Hcl : runtime_aclose rt callbacks_of (log_ APP_STOPPING (log_ APP_START_FAILED w1)) = (rt_set C rt None (log_ APP_STOPPING (log_ APP_START_FAILED w1)), Ok tt)).
    { unfold runtime_aclose. unprog. by rewrite Hr3, Hr2, Hr1. }
    unfold raise. cbn [fst snd]. rewrite Hcl. cbn. destruct (rq_set _ _ _ _ (ll_runtime laws) None (log_ APP_STOPPING (log_ APP_START_FAILED w1))) as [[= Hl4 Hx4] Hr4].
    destruct (ll_log laws APP_STOPPED (rt_set C rt None (log_ APP_STOPPING (log_ APP_START_FAILED w1)))) as (Hl5 & Hx5 & Hr5).
    split; [congruence |]. split; [congruence |]. right. exists w1, e. split_and!; [done.. |].
    rewrite Hl5, Hl4, Hl3, Hl2, Hl1, Hl0. by rewrite <- !app_assoc.
Qed.
End LifespanProofs.

(** The trace context covers exactly the wrapped application. *)
Lemma trace_middleware_binds {W} (get_trace : W → option TraceContext) set_trace context request_id app w :
  (∀ t w, get_trace (set_trace t w) = t) → read_request_id context = Ok request_id →
  trace_context_middleware get_trace set_trace true context app w
  = (set_trace (get_trace w) (app (set_trace (Some (mk_trace (Some request_id) (Some request_id) None)) w)).1,
     (app (set_trace (Some (mk_trace (Some request_id) (Some request_id) None)) w)).2)
  ∧ get_trace (trace_context_middleware get_trace set_trace true context app w).1 = get_trace w.
Proof.
  intros Hget Hid. unfold trace_context_middleware, bind_trace_context. cbn [negb]. rewrite Hid. unfold bind, lift, read, modify, finally.
  destruct (app _) as [w' r]. cbn. by rewrite Hget.
Qed.
(** The order of the middleware: whatever is configured, the exception capture
    is inside the access log and outside the limiter, and the request ID header is
    exposed exactly once. *)
Lemma middleware_order `{UnicodeTables} s :
  (∃ outer inner, build_http_middlewares s = outer ++ ExceptionCaptureMiddleware (hs_debug s) :: inner
     ∧ (∀ routes, AccessLogMiddleware routes ∉ inner) ∧ (∀ b, RateLimitMiddleware b ∉ outer) ∧ QueryParamDecode ∉ outer)
  ∧ List.filter (λ h, bool_decide (py_lower h = py_lower REQUEST_ID_HEADER)) (cors_expose_headers (hs_expose_headers s)) = [REQUEST_ID_HEADER].
Proof.
  split.
  - exists ([CorsMiddleware (cors_expose_headers (hs_expose_headers s)); RequestIdMiddleware (hs_service_code s); TraceContextMiddleware]
      ++ (if hs_access_enabled s then [AccessLogMiddleware (hs_access_exclude_routes s)] else [])),
      ((if hs_rate_limit_enabled s then [RateLimitMiddleware (hs_fail_open s)] else []) ++ [QueryParamDecode]).
    split; [unfold build_http_middlewares; by rewrite <- !app_assoc |].
    destruct (hs_access_enabled s), (hs_rate_limit_enabled s); (split; [intros ? |]; [| split; [intros ? |]]);
      rewrite ?elem_of_app, ?elem_of_cons, ?elem_of_nil; naive_solver.
  - unfold cors_expose_headers. cbn [List.filter]. rewrite bool_decide_true by done. f_equal.
    induction (hs_expose_headers s) as [| x l IH]; [done |]. cbn [List.filter]. destruct (bool_decide (py_lower x = _)) eqn:Hx; cbn [negb]; [done |].
    cbn [List.filter]. by rewrite Hx.
Qed.

(** The hasher: without a stored hash the work is the same but never succeeds,
    and a hash that pwdlib does not know is an error without its text. *)
Lemma verify_or_dummy_correct `{Pwdlib W} password h (w w' : W) r :
  verify_or_dummy password h w = (w', r) →
  w' = (pw_verify password (match h with Some h => password_hash_value h | None => DUMMY_PASSWORD_HASH end) w).1
  ∧ match (pw_verify password (match h with Some h => password_hash_value h | None => DUMMY_PASSWORD_HASH end) w).2 with
    | Ok verified => r = Ok (match h with Some _ => verified | None => false end)
    | Err UnknownHashError => r = Err RuntimeError
    | Err e => r = Err e
    end.
Proof.
  unfold verify_or_dummy, bind, catch, ret, raise. destruct (pw_verify _ _ w) as [w1 [b | e]]; cbn [fst snd].
  - intros [= <- <-]. split; [done |]. by destruct h.
  - destruct e; intros [= <- <-]; done.
Qed.
(** ** A concrete process *)
Record DemoProcess := mk_process { dp_rt : option nat; dp_logs : list ApplicationLogEvent; dp_exposed : option nat }.
Definition demo_process_rt : @runtime_ref DemoProcess nat :=
  {| rt_get := dp_rt; rt_set c w := mk_process c (dp_logs w) (dp_exposed w) |}.
Definition demo_app_log (e : ApplicationLogEvent) (w : DemoProcess) : DemoProcess := mk_process (dp_rt w) (dp_logs w ++ [e]) (dp_exposed w).
Definition demo_expose (c : option nat) (w : DemoProcess) : DemoProcess := mk_process (dp_rt w) (dp_logs w) c.
Definition demo_app_callbacks (_ : nat) : @container DemoProcess := mk_container [ret tt] [raise ValueError] [].
Lemma demo_lifespan_laws : lifespan_laws demo_process_rt demo_app_callbacks (ret 3) demo_app_log demo_expose dp_logs dp_exposed.
Proof.
  split; [done | done |]. split; [done | done | ..]; intros c m Hm; cbn in Hm; [| | by apply elem_of_nil in Hm];
    apply list_elem_of_singleton in Hm as ->; by intros w.
Qed.
Lemma lifespan_correct_witness :
  let run := lifespan demo_process_rt demo_app_callbacks (ret 3) demo_app_log demo_expose (λ _, ret tt) (mk_process None [] None) in
  run = (mk_process None [APP_STARTING; APP_STARTED; APP_STOPPING; APP_STOP_FAILED] None, Err (ExceptionGroup [ValueError]))
  ∧ ∃ w6 r6, container_aclose (demo_app_callbacks 3) (mk_process None [APP_STARTING; APP_STARTED; APP_STOPPING] (Some 3)) = (w6, r6) ∧ run.2 = r6.
Proof.
  cbv zeta. split; [vm_compute; reflexivity |].
  pose proof (lifespan_correct demo_process_rt demo_app_callbacks (ret 3) demo_app_log demo_expose dp_logs dp_exposed demo_lifespan_laws (λ _, ret tt)
    (mk_process None [] None)) as Hl. cbv zeta in Hl.
  specialize (Hl (λ c w, conj eq_refl eq_refl) eq_refl eq_refl). cbn in Hl.
  destruct Hl as (_ & _ & [(c & w0 & w6 & r6 & (w1 & [= <- <-] & [= <-]) & _ & _ & Hc & Hr & _) | (w1 & e & [[=] | (c & w2 & w3 & e0 & r & [= <- <-] & [=] & _)] & _)]).
  exists w6, r6. cbn in Hc. injection Hc as <- <-. split; [reflexivity | exact (eq_sym (proj2 Hr))] .
Defined.
