(* ===== verification/HttpApp.v ===== *)
(** * HttpApp: the FastAPI application and the request ID middleware

    Models [bootstrap/http/application.py] and
    [interfaces/http/middleware/request_id.py].  What [RawContextMiddleware] of
    starlette_context does around a request is the argument [super_set_context];
    FastAPI's registries are lists. *)

From S2P Require Import Prelude Text PyVal Errors UserDomain UserContracts Lazy Runtime Quiet HttpResponse Application.
Local Open Scope prog_scope.

(** ** [build_request_id_middleware] *)
Section RequestId.
Context `{UnicodeTables}.
(** The reply to an invalid ID, built before there is a request context. *)
Definition build_invalid_request_id_response {T} (service_code : pystr) : result exn (Reply T) :=
  let code := error_code BAD_REQUEST in
  let? code_builder := ResponseCodeBuilder_new service_code in
  let? payload := json_error code_builder None code None None None in
  Ok (mk_reply (rc_status_code code) [] (ErrorBody payload)).
(** [ApplicationRequestIdPlugin.get_new_uuid] *)
Definition get_new_uuid {W} (id_factory : io W pystr) : io W pystr := id_factory.

Record InvalidRequestIdLog := mk_invalid_id_log { il_method : option pystr; il_status_code : Z }.
(** [except MiddleWareValidationError: log; raise] *)
Definition set_context {W} (is_validation_error : exn → bool) (log : InvalidRequestIdLog → io W unit) (method : option pystr)
    (super_set_context : io W (pydict pystr)) : io W (pydict pystr) :=
  catch super_set_context (λ e,
    when (is_validation_error e) (log (mk_invalid_id_log method (rc_status_code (error_code BAD_REQUEST))));;; raise e).
End RequestId.

(** ** [create_app] *)
Inductive ExceptionHandler := ForHttpError | ForRequestValidationError | ForHTTPException | ForException.
Definition exception_handlers : list ExceptionHandler := [ForHttpError; ForRequestValidationError; ForHTTPException; ForException].
Record AppConfig := mk_app_config { ap_name : pystr; ap_version : pystr; ap_http_config : HttpConfig }.
Record FastApiApp := mk_fastapi_app {
  fa_title : pystr; fa_summary : pystr; fa_version : pystr; fa_debug : bool; fa_middleware : list Middleware;
  fa_invalid_request_id : Reply unit;         (* default_error_response of the request ID middleware *)
  fa_json_service : pystr; fa_sse_service : pystr;   (* the code builders of app.state *)
  fa_handlers : list ExceptionHandler;
}.
Definition create_app `{UnicodeTables} (s : AppConfig) : result exn FastApiApp :=
  let http := ap_http_config s in
  let? invalid := build_invalid_request_id_response (hs_service_code http) in
  let? code_builder := ResponseCodeBuilder_new (hs_service_code http) in
  Ok (mk_fastapi_app (ap_name s) (ap_name s ++ u " API " ++ txt "文档") (ap_version s) (hs_debug http) (build_http_middlewares http)
        invalid code_builder code_builder exception_handlers).

(** ** Proofs *)
(** Logging an invalid ID changes neither the failure nor a valid context. *)
Lemma set_context_outcome {W} `{UnicodeTables} is_validation_error log method (m : io W (pydict pystr)) w :
  (∀ r w, (log r w).2 = Ok tt) → (set_context is_validation_error log method m w).2 = (m w).2.
Proof.
  intros Hl. unfold set_context, catch, bind, when, raise. destruct (m w) as [w1 [c | e]]; [done |].
  destruct (is_validation_error e); [| done]. match goal with |- context [log ?r w1] => specialize (Hl r w1); destruct (log r w1) as [w2 r2] end.
  cbn in Hl. by subst.
Qed.
Lemma ok_inj {A} (a b : A) : (Ok a : result exn A) = Ok b → a = b.
Proof. congruence. Qed.
(** An application exists exactly for a valid service code.  All its error
    replies carry the codes of that service: the one for an invalid request ID is
    what the exception handlers answer to a bad request without a context. *)
Theorem create_app_correct `{UnicodeTables} s app : create_app s = Ok app →
  fa_json_service app = hs_service_code (ap_http_config s) ∧ fa_sse_service app = fa_json_service app
  ∧ fa_middleware app = build_http_middlewares (ap_http_config s)
  ∧ Ok (fa_invalid_request_id app) = render_error (fa_json_service app) None (error_code BAD_REQUEST) None None None
  ∧ rp_status (fa_invalid_request_id app) = 400%Z.
Proof.
  unfold create_app, build_invalid_request_id_response, render_error, json_error, ResponseCodeBuilder_new.
  destruct ((len (hs_service_code (ap_http_config s)) =? 3)%Z && py_isdigit (hs_service_code (ap_http_config s))); [| done].
  change (guard (400 <=? rc_status_code (error_code BAD_REQUEST))%Z ValueError) with (Ok tt : result exn unit).
  unfold guard. cbn [result_bind]. intros Ha%ok_inj. rewrite <- Ha. cbn [fa_json_service fa_sse_service fa_middleware fa_invalid_request_id rp_status].
  split; [reflexivity |]. split; [reflexivity |]. split; [reflexivity |]. split; reflexivity.
Qed.
Lemma create_app_refused `{UnicodeTables} s : is_ok (create_app s) = is_ok (ResponseCodeBuilder_new (hs_service_code (ap_http_config s))).
Proof.
  unfold create_app, build_invalid_request_id_response, json_error, ResponseCodeBuilder_new.
  destruct ((len (hs_service_code (ap_http_config s)) =? 3)%Z && py_isdigit (hs_service_code (ap_http_config s))); reflexivity.
Qed.
