(* ===== verification/Runner.v ===== *)
(** * Runner: the lanes of a worker as a state machine

    Models [interfaces/worker/runner.py].  The steps of [runner_step] are what
    the event loop runs between two awaits: a lane (one [asyncio] task) that
    begins, gets a delivery, ends an execution or is thrown a cancellation, and
    [run] that wakes, drains, times out and leaves.  A requested cancellation is
    thrown at the next resumption of the lane; the job it hits may absorb it.  A
    driver that lost a lease cancels the owner of the delivery ([step_lost]).
    [rn_deliveries] and [rn_forced] record what happened to the deliveries. *)

From S2P Require Import Prelude Text PyVal Errors QueueJob.
Local Open Scope prog_scope.

(** [WorkerRunner.__init__] *)
Definition WorkerRunner_new (concurrency : pyval) (shutdown_timeout : pyfloat) : result exn Z :=
  match is_int concurrency with
  | Some n =>
      let? _ := guard (1 <=? n)%Z ValueError in
      let? _ := guard (finite_positive shutdown_timeout) ValueError in
      Ok n
  | None => Err ValueError
  end.

(** What a lane waits for, or how its task ended. *)
Inductive lane := Created | Receiving | Executing (d : nat) | Ended (r : result exn unit).
Definition alive (x : lane) : bool := match x with Ended _ => false | _ => true end.
Definition executing (x : lane) : bool := match x with Executing _ => true | _ => false end.

Inductive phase :=
| Waiting                              (* the first asyncio.wait *)
| Draining                             (* the second, with the time limit *)
| Gathering                            (* gather after it *)
| Leaving (r : result exn unit)        (* the finally block, with the outcome so far *)
| Finished (r : result exn unit).

(** What became of a delivery; for a cancelled one, whether the runner was
    closing and whether the runner had asked for it. *)
Inductive fate := InFlight | Executed | Failed | Cancelled (closing by_runner : bool).

Record runner := mk_runner {
  rn_lanes : list lane;
  rn_receivers : gset nat;              (* self._receivers *)
  rn_closing : bool;                    (* self._closing *)
  rn_stop : bool;                       (* the stop event *)
  rn_phase : phase;
  rn_cancel : gset nat;                 (* cancellations requested and not yet thrown *)
  rn_forced : gset nat;                 (* lanes whose execution the runner asked to cancel *)
  rn_timed_out : bool;
  rn_deliveries : gmap nat (nat * fate);
}.

(** [run] up to the first wait. *)
Definition runner_init (concurrency : nat) : runner :=
  mk_runner (replicate concurrency Created) ∅ false false Waiting ∅ ∅ false ∅.

Definition lanes_where (p : lane → bool) (l : list lane) : gset nat :=
  list_to_set (List.filter (λ n, match l !! n with Some x => p x | None => false end) (seq 0 (length l))).
Definition all_ended (s : runner) : bool := forallb (λ x, negb (alive x)) (rn_lanes s).

(** ** Lanes: [_lane] *)

Definition set_lane (n : nat) (x : lane) (s : runner) : runner :=
  mk_runner (<[n := x]> (rn_lanes s)) (rn_receivers s) (rn_closing s) (rn_stop s) (rn_phase s) (rn_cancel s) (rn_forced s)
    (rn_timed_out s) (rn_deliveries s).
Definition set_receivers (f : gset nat → gset nat) (s : runner) : runner :=
  mk_runner (rn_lanes s) (f (rn_receivers s)) (rn_closing s) (rn_stop s) (rn_phase s) (rn_cancel s) (rn_forced s)
    (rn_timed_out s) (rn_deliveries s).
Definition uncancel (n : nat) (s : runner) : runner :=
  mk_runner (rn_lanes s) (rn_receivers s) (rn_closing s) (rn_stop s) (rn_phase s) (rn_cancel s ∖ {[n]}) (rn_forced s ∖ {[n]})
    (rn_timed_out s) (rn_deliveries s).
Definition set_fate (d n : nat) (f : fate) (s : runner) : runner :=
  mk_runner (rn_lanes s) (rn_receivers s) (rn_closing s) (rn_stop s) (rn_phase s) (rn_cancel s) (rn_forced s)
    (rn_timed_out s) (<[d := (n, f)]> (rn_deliveries s)).

(** The head of the loop. *)
Definition loop_head (n : nat) (s : runner) : runner :=
  if rn_stop s then set_lane n (Ended (Ok tt)) s
  else set_receivers (λ l, {[n]} ∪ l) (set_lane n Receiving s).
(** An exception leaves the body of the loop. *)
Definition lane_error (s : runner) (e : exn) : exn :=
  match e with CancelledError => if rn_closing s then CancelledError else DeliveryLostError | _ => e end.
Definition lane_raises (n : nat) (e : exn) (s : runner) : runner :=
  uncancel n (set_receivers (λ l, l ∖ {[n]}) (set_lane n (Ended (Err (lane_error s e))) s)).
Definition raised_fate (s : runner) (n : nat) (e : exn) : fate :=
  match e with CancelledError => Cancelled (rn_closing s) (bool_decide (n ∈ rn_forced s)) | _ => Failed end.

(** ** [run] *)

Definition leave (r : result exn unit) (s : runner) : runner :=
  mk_runner (rn_lanes s) (rn_receivers s) true (rn_stop s) (Leaving r) (lanes_where alive (rn_lanes s) ∪ rn_cancel s)
    (lanes_where executing (rn_lanes s) ∪ rn_forced s) (rn_timed_out s) (rn_deliveries s).
Definition close_receivers (s : runner) : runner :=
  mk_runner (rn_lanes s) (rn_receivers s) true (rn_stop s) Draining (rn_receivers s ∪ rn_cancel s) (rn_forced s)
    (rn_timed_out s) (rn_deliveries s).
Definition set_phase (p : phase) (s : runner) : runner :=
  mk_runner (rn_lanes s) (rn_receivers s) (rn_closing s) (rn_stop s) p (rn_cancel s) (rn_forced s) (rn_timed_out s) (rn_deliveries s).
Definition time_out (s : runner) : runner :=
  mk_runner (rn_lanes s) (rn_receivers s) (rn_closing s) (rn_stop s) Gathering (lanes_where alive (rn_lanes s) ∪ rn_cancel s)
    (lanes_where executing (rn_lanes s) ∪ rn_forced s) true (rn_deliveries s).
Definition set_stop (s : runner) : runner :=
  mk_runner (rn_lanes s) (rn_receivers s) (rn_closing s) true (rn_phase s) (rn_cancel s) (rn_forced s) (rn_timed_out s) (rn_deliveries s).
Definition request_cancel (n : nat) (s : runner) : runner :=
  mk_runner (rn_lanes s) (rn_receivers s) (rn_closing s) (rn_stop s) (rn_phase s) ({[n]} ∪ rn_cancel s) (rn_forced s)
    (rn_timed_out s) (rn_deliveries s).

(** The errors [gather] collected, without the cancellations. *)
Definition lane_errors (l : list lane) : list exn :=
  omap (λ x, match x with Ended (Err CancelledError) => None | Ended (Err e) => Some e | _ => None end) l.
Definition gather_result (l : list lane) : result exn unit :=
  match lane_errors l with [] => Ok tt | errors => Err (ExceptionGroup errors) end.

Definition failed (x : lane) : bool := match x with Ended (Err _) => true | _ => false end.

Inductive runner_step : runner → runner → Prop :=
| step_begin s n : rn_lanes s !! n = Some Created → n ∉ rn_cancel s → runner_step s (loop_head n s)
| step_never_began s n : rn_lanes s !! n = Some Created → n ∈ rn_cancel s →
    runner_step s (uncancel n (set_lane n (Ended (Err CancelledError)) s))
| step_received s n d : rn_lanes s !! n = Some Receiving → n ∉ rn_cancel s → rn_deliveries s !! d = None →
    runner_step s (set_fate d n InFlight (set_receivers (λ l, l ∖ {[n]}) (set_lane n (Executing d) s)))
| step_receive_raised s n e : rn_lanes s !! n = Some Receiving → (n ∈ rn_cancel s → e = CancelledError) →
    runner_step s (lane_raises n e s)
| step_executed s n d : rn_lanes s !! n = Some (Executing d) → n ∉ rn_cancel s →
    runner_step s (loop_head n (set_fate d n Executed s))
| step_execute_raised s n d e : rn_lanes s !! n = Some (Executing d) →
    runner_step s (lane_raises n e (set_fate d n (raised_fate s n e) s))
| step_absorbed s n d : rn_lanes s !! n = Some (Executing d) → n ∈ rn_cancel s → runner_step s (uncancel n s)
| step_lost s n d : rn_lanes s !! n = Some (Executing d) → runner_step s (request_cancel n s)
| step_stop s : runner_step s (set_stop s)
| step_woken_failed s n e : rn_phase s = Waiting → rn_lanes s !! n = Some (Ended (Err e)) → runner_step s (leave (Err e) s)
| step_woken s : rn_phase s = Waiting → rn_stop s = true ∨ (∃ n, rn_lanes s !! n = Some (Ended (Ok tt))) →
    existsb failed (rn_lanes s) = false → runner_step s (close_receivers s)
| step_drained s : rn_phase s = Draining → all_ended s = true → runner_step s (set_phase Gathering s)
| step_timeout s : rn_phase s = Draining → runner_step s (time_out s)
| step_gathered s : rn_phase s = Gathering → all_ended s = true → runner_step s (leave (gather_result (rn_lanes s)) s)
| step_run_cancelled s : rn_phase s = Waiting ∨ rn_phase s = Draining ∨ rn_phase s = Gathering →
    runner_step s (leave (Err CancelledError) s)
| step_left s r : rn_phase s = Leaving r → all_ended s = true → runner_step s (set_phase (Finished r) s).

(** ** The invariant *)

Lemma elem_lanes_where p l n : n ∈ lanes_where p l ↔ ∃ x, l !! n = Some x ∧ p x = true.
Proof.
  unfold lanes_where. rewrite elem_of_list_to_set, list_elem_of_In, filter_In, in_seq. split.
  - intros [_ H]. destruct (l !! n) as [x |]; [by exists x | done].
  - intros (x & Hx & Hp). rewrite Hx. split; [| done]. apply lookup_lt_Some in Hx. lia.
Qed.
Lemma all_ended_lookup s n x : all_ended s = true → rn_lanes s !! n = Some x → alive x = false.
Proof.
  unfold all_ended. intros Ha Hx. rewrite forallb_forall in Ha. apply negb_true_iff, Ha.
  apply list_elem_of_In. by eapply list_elem_of_lookup_2.
Qed.

Definition calm (r : result exn unit) : Prop := r = Ok tt ∨ r = Err CancelledError.
Lemma gather_result_ok l : gather_result l = Ok tt → ∀ n r, l !! n = Some (Ended r) → calm r.
Proof.
  unfold gather_result. intros Hg n r Hn. assert (Hl : lane_errors l = []) by (by destruct (lane_errors l)). clear Hg.
  revert n Hn. induction l as [| x l IH]; intros n Hn; [done |]. unfold lane_errors in Hl. cbn in Hl.
  destruct n as [| n]; cbn in Hn.
  - simplify_eq. destruct r as [[] | e]; [by left | right]. destruct e; done.
  - apply (IH) with n; [| done]. unfold lane_errors. destruct x as [| | | [? | []]]; done.
Qed.

Definition ended_badly (p : phase) : Prop := ∃ e, p = Leaving (Err e) ∨ p = Finished (Err e).

Lemma lane_update (l : list lane) n x0 x m y : l !! n = Some x0 →
  <[n := x]> l !! m = Some y ↔ n = m ∧ y = x ∨ n ≠ m ∧ l !! m = Some y.
Proof. intros Hn%lookup_lt_Some. rewrite list_lookup_insert_Some. naive_solver. Qed.

(** Case on a step, expose the new state and look up the lane that changed. *)
Ltac run_step Hstep :=
  destruct Hstep; unfold loop_head in *;
  repeat match goal with |- context [if rn_stop ?s then _ else _] => destruct (rn_stop s) eqn:? end;
  unfold lane_raises in *; cbn in *.
Ltac look :=
  repeat match goal with
  | Hn : rn_lanes ?s !! ?n = Some _, H : context [<[?n := ?x]> (rn_lanes ?s) !! ?m = Some ?y] |- _ =>
      rewrite (lane_update _ _ _ x m y Hn) in H
  | Hn : rn_lanes ?s !! ?n = Some _ |- context [<[?n := ?x]> (rn_lanes ?s) !! ?m = Some ?y] =>
      rewrite (lane_update _ _ _ x m y Hn)
  end.

Definition inv_receivers s := ∀ n, n ∈ rn_receivers s ↔ rn_lanes s !! n = Some Receiving.
Lemma step_receivers s s' : inv_receivers s → runner_step s s' → inv_receivers s'.
Proof.
  intros Hr Hstep m. unfold inv_receivers in Hr. specialize (Hr m) as Hm.
  run_step Hstep; look; rewrite ?elem_of_union, ?elem_of_difference, ?elem_of_singleton, Hm; naive_solver.
Qed.

Definition inv_closing s := rn_closing s = match rn_phase s with Waiting => false | _ => true end.
Lemma step_closing s s' : inv_closing s → runner_step s s' → inv_closing s'.
Proof. unfold inv_closing. intros Hc Hstep. run_step Hstep; try done; by rewrite Hc, H. Qed.

Definition inv_ok s := ∀ n, rn_lanes s !! n = Some (Ended (Ok tt)) → rn_stop s = true.
Lemma step_ok s s' : inv_ok s → runner_step s s' → inv_ok s'.
Proof. unfold inv_ok. intros Hc Hstep m. run_step Hstep; look; naive_solver. Qed.

Definition inv_drain s := rn_phase s = Draining ∨ rn_phase s = Gathering →
  rn_stop s = true ∧ ∀ n, rn_lanes s !! n = Some Receiving → n ∈ rn_cancel s.
Lemma step_drain s s' : inv_receivers s → inv_ok s → inv_drain s → runner_step s s' → inv_drain s'.
Proof.
  unfold inv_receivers, inv_ok, inv_drain. intros Hr Hok Hc Hstep.
  run_step Hstep; try (intros Hp; specialize (Hc Hp) as [Hs Hl]; split; [congruence |]; intros m; look;
    specialize (Hl m); rewrite ?elem_of_union, ?elem_of_difference, ?elem_of_singleton; naive_solver).
  all: try (intros [? | ?]; done).
  - intros Hp. destruct (Hc Hp). congruence.
  - intros _. split; [naive_solver |]. intros m Hm%Hr. set_solver.
  - intros _. destruct (Hc (or_introl H)) as [Hs Hl]. by split.
  - intros _. destruct (Hc (or_introl H)) as [Hs Hl]. split; [done |]. intros m Hm%Hl. set_solver.
Qed.

Definition inv_flight s := ∀ d n, rn_deliveries s !! d = Some (n, InFlight) ↔ rn_lanes s !! n = Some (Executing d).
Lemma step_flight s s' : inv_flight s → runner_step s s' → inv_flight s'.
Proof.
  unfold inv_flight. intros Hc Hstep d m. pose proof (Hc d m) as Hm.
  assert (Hf : ∀ s n e, raised_fate s n e ≠ InFlight) by (by intros ? ? []).
  assert (Hone : ∀ d n n', rn_lanes s !! n = Some (Executing d) → rn_lanes s !! n' = Some (Executing d) → n = n').
  { intros d0 n n' H1%Hc H2%Hc. congruence. }
  run_step Hstep; look; rewrite ?lookup_insert_Some, ?Hm; try done;
    destruct (decide (n = m)) as [-> | Hne]; try (naive_solver congruence).
Qed.

Definition inv_bad s := ∀ d n f, rn_deliveries s !! d = Some (n, f) → (f = Failed ∨ ∃ b, f = Cancelled false b) →
  ∃ e, rn_lanes s !! n = Some (Ended (Err e)) ∧ e ≠ CancelledError.
Lemma step_bad s s' : inv_bad s → runner_step s s' → inv_bad s'.
Proof.
  unfold inv_bad. intros Hc Hstep d m f.
  assert (Hkeep : ∀ n x0 x, rn_lanes s !! n = Some x0 → alive x0 = true → rn_deliveries s !! d = Some (m, f) →
    (f = Failed ∨ ∃ b, f = Cancelled false b) → ∃ e, <[n := x]> (rn_lanes s) !! m = Some (Ended (Err e)) ∧ e ≠ CancelledError).
  { intros n x0 x Hn Hx Hd Hf. destruct (Hc d m f Hd Hf) as (e & He & Hne). exists e. split; [| done].
    rewrite (lane_update _ _ _ _ _ _ Hn). right. split; [| done]. intros ->. by simplify_eq. }
  run_step Hstep; try (by eauto); rewrite ?lookup_insert_Some; try (intros [[-> [= <- <-]] | [_ Hd]] Hf; [| by eauto]).
  all: try (destruct Hf as [? | [? ?]]; done).
  exists (lane_error s e). rewrite list_lookup_insert_eq by (by eapply lookup_lt_Some). split; [done |].
  unfold raised_fate, lane_error in *. destruct e; try done. destruct (rn_closing s); [| done]. by destruct Hf as [? | [? ?]].
Qed.

Definition excused s := rn_timed_out s = true ∨ ended_badly (rn_phase s).
Lemma step_excused s s' : excused s → runner_step s s' → excused s'.
Proof.
  unfold excused, ended_badly. intros He Hstep. run_step Hstep; try done;
    try (destruct He as [? | (x & [Hp | Hp])]; [by left | congruence | congruence]); try (by left); try (right; by eauto).
  destruct He as [? | (x & [Hp | Hp])]; [by left | right; exists x; right; congruence | congruence].
Qed.

Lemma no_executing s : all_ended s = true → lanes_where executing (rn_lanes s) = ∅.
Proof.
  intros Ha. apply set_eq. intros n. rewrite elem_lanes_where. split; [| set_solver].
  intros (x & Hx & He). pose proof (all_ended_lookup s n x Ha Hx). by destruct x.
Qed.

Definition inv_forced s := rn_forced s ≠ ∅ → excused s.
Lemma step_forced s s' : inv_forced s → runner_step s s' → inv_forced s'.
Proof.
  intros Hc Hstep Hne. destruct (decide (rn_forced s = ∅)) as [H0 | H0].
  2:{ eapply step_excused; [by apply Hc | done]. }
  unfold excused, ended_badly. run_step Hstep; rewrite ?H0 in Hne; try (set_solver); try (right; by eauto); try (by left).
  by rewrite no_executing in Hne.
Qed.

Definition inv_by_runner s := ∀ d n b, rn_deliveries s !! d = Some (n, Cancelled b true) → excused s.
Lemma step_by_runner s s' : inv_forced s → inv_by_runner s → runner_step s s' → inv_by_runner s'.
Proof.
  intros Hf Hc Hstep d m b Hd.
  assert (Hforced : ∀ n e, raised_fate s n e = Cancelled b true → excused s).
  { intros n e He. apply Hf. unfold raised_fate in He. destruct e; try done. injection He. intros Hn%bool_decide_eq_true _. set_solver. }
  apply (step_excused s); [| exact Hstep].
  destruct Hstep; unfold loop_head in *; try (case_match); cbn in Hd;
    try (exact (Hc _ _ _ Hd)); apply lookup_insert_Some in Hd as [[_ Hx] | [_ Hx]]; try (exact (Hc _ _ _ Hx));
    injection Hx; intros Hr _; try discriminate Hr; exact (Hforced _ _ Hr).
Qed.

Definition inv_calm s := rn_phase s = Leaving (Ok tt) ∨ rn_phase s = Finished (Ok tt) →
  all_ended s = true ∧ ∀ n r, rn_lanes s !! n = Some (Ended r) → calm r.
Lemma step_calm s s' : inv_calm s → runner_step s s' → inv_calm s'.
Proof.
  unfold inv_calm. intros Hc Hstep.
  assert (Hno : rn_phase s = Leaving (Ok tt) ∨ rn_phase s = Finished (Ok tt) → ∀ n x, rn_lanes s !! n = Some x → alive x = true → False).
  { intros Hp n x Hn Hx. destruct (Hc Hp) as [Ha _]. by rewrite (all_ended_lookup s n x Ha Hn) in Hx. }
  run_step Hstep; try (intros Hp; exfalso; by eapply Hno); try done; try (intros [? | ?]; congruence).
  - intros [[= Hr] | [=]]. split; [done |]. by apply gather_result_ok.
  - intros [[=] | [= ->]]. apply Hc. by left.
Qed.

Definition inv_finished s := ∀ r, rn_phase s = Finished r → all_ended s = true.
Lemma step_finished s s' : inv_finished s → runner_step s s' → inv_finished s'.
Proof.
  unfold inv_finished. intros Hc Hstep.
  assert (Hno : ∀ r, rn_phase s = Finished r → ∀ n x, rn_lanes s !! n = Some x → alive x = true → False).
  { intros r Hp n x Hn Hx. by rewrite (all_ended_lookup s n x (Hc r Hp) Hn) in Hx. }
  run_step Hstep; intros r0 Hp; try (exfalso; eapply (Hno _ Hp); [eassumption | done]); try congruence; try done; exact (Hc _ Hp).
Qed.

Definition inv_timed_out s := rn_timed_out s = true → rn_phase s ≠ Waiting ∧ rn_phase s ≠ Draining.
Lemma step_timed_out s s' : inv_timed_out s → runner_step s s' → inv_timed_out s'.
Proof. unfold inv_timed_out. intros Hc Hstep. run_step Hstep; try done; intros Ht; destruct (Hc Ht); split; congruence. Qed.

Record runner_inv (s : runner) : Prop := {
  ri_timed_out : inv_timed_out s;
  ri_receivers : inv_receivers s; ri_closing : inv_closing s; ri_ok : inv_ok s; ri_drain : inv_drain s; ri_flight : inv_flight s;
  ri_bad : inv_bad s; ri_forced : inv_forced s; ri_by_runner : inv_by_runner s; ri_calm : inv_calm s; ri_finished : inv_finished s;
}.
Definition runner_reachable (c : nat) : runner → Prop := rtc runner_step (runner_init c).

Lemma runner_reachable_inv c s : runner_reachable c s → runner_inv s.
Proof.
  assert (Hl : ∀ n x, replicate c Created !! n = Some x → x = Created) by (intros n x Hx; by apply lookup_replicate in Hx as [-> _]).
  assert (H0 : runner_inv (runner_init c)).
  { split.
    - done.
    - intros n. cbn. split; [set_solver |]. by intros ?%Hl.
    - done.
    - by intros n ?%Hl.
    - intros [Hp | Hp]; done.
    - intros d n. cbn. split; [done |]. by intros ?%Hl.
    - by intros d n f Hd.
    - by intros Hne.
    - by intros d n b Hd.
    - intros [Hp | Hp]; done.
    - by intros r Hp. }
  intros Hr. unfold runner_reachable in Hr. remember (runner_init c) as s0 eqn:E. clear E Hl. induction Hr as [| s0 s1 s2 Hstep _ IH]; [done |].
  apply IH. destruct H0. split; eauto using step_timed_out, step_receivers, step_closing, step_ok, step_drain, step_flight, step_bad, step_forced,
    step_by_runner, step_calm, step_finished.
Qed.

(** C17: what a normal return of the worker means.  When [run] returns, every lane has
    ended and every delivery that was received was either executed to its end or
    interrupted while the runner was closing; unless the time limit was exceeded,
    the runner itself interrupted none of them.  So a failed execution, a failed
    receive or a delivery that was lost while the worker ran (a lease or a
    partition taken away) is never passed over in silence. *)
Theorem runner_return_sound c s :
  runner_reachable c s → rn_phase s = Finished (Ok tt) →
  all_ended s = true ∧
  (∀ n e, rn_lanes s !! n = Some (Ended (Err e)) → e = CancelledError) ∧
  ∀ d n f, rn_deliveries s !! d = Some (n, f) →
    f = Executed ∨ ∃ by_runner, f = Cancelled true by_runner ∧ (by_runner = true → rn_timed_out s = true).
Proof.
  intros Hr Hp. pose proof (runner_reachable_inv c s Hr) as Hinv.
  destruct (ri_calm s Hinv (or_intror Hp)) as [Hall Hcalm]. split; [done |]. split.
  { intros n e He. destruct (Hcalm _ _ He); congruence. }
  intros d n f Hd. assert (Hbad : (f = Failed ∨ ∃ b, f = Cancelled false b) → False).
  { intros Hf. destruct (ri_bad s Hinv d n f Hd Hf) as (e & He & Hne). destruct (Hcalm _ _ He); congruence. }
  destruct f as [| | | [] b]; [| by left | exfalso; auto | right; exists b; split; [done |] | exfalso; eauto].
  - apply (ri_flight s Hinv) in Hd. pose proof (all_ended_lookup s n _ Hall Hd). done.
  - intros ->. destruct (ri_by_runner s Hinv d n true Hd) as [? | (e & [? | ?])]; [done | congruence | congruence].
Qed.

(** Closing on a stop signal.  From the moment the runner begins to drain nothing
    more is received, executions are left alone until the time limit, and only
    lanes that still waited for a delivery are asked to stop. *)
Theorem runner_drain_quiet c s s' :
  runner_reachable c s → rn_phase s = Draining ∨ rn_phase s = Gathering → runner_step s s' →
  (∀ d, rn_deliveries s !! d = None → rn_deliveries s' !! d = None)
  ∧ (∀ n, n ∈ rn_receivers s' → n ∈ rn_receivers s)
  ∧ (rn_phase s = Draining → rn_forced s = ∅).
Proof.
  intros Hr Hp Hstep. pose proof (runner_reachable_inv c s Hr) as Hinv.
  destruct (ri_drain s Hinv Hp) as [Hstop Hl]. pose proof (ri_flight s Hinv) as Hfl. split; [| split].
  - intros d Hd. assert (Hin : ∀ n d, rn_lanes s !! n = Some (Executing d) → is_Some (rn_deliveries s !! d)) by (intros n d' Hn%Hfl; by eexists).
    destruct Hstep; unfold loop_head; cbn in *; rewrite ?Hstop; cbn; try done; (rewrite lookup_insert_ne; [done |]; intros ->).
    + naive_solver.
    + destruct (Hin _ _ H) as [? ?]. congruence.
    + destruct (Hin _ _ H) as [? ?]. congruence.
  - intros m. destruct Hstep; unfold loop_head; cbn in *; rewrite ?Hstop; cbn; set_solver.
  - intros Hd. destruct (decide (rn_forced s = ∅)) as [| Hne]; [done |]. exfalso.
    destruct (ri_forced s Hinv Hne) as [Ht | (e & [? | ?])]; [| congruence | congruence].
    by destruct (ri_timed_out s Hinv Ht).
Qed.

(** ** A lane that keeps receiving after another lane failed *)

(** The state in which lane 0 lost its delivery, [run] is leaving with that error
    and lane 1, whose job absorbed the cancellation, is back in [receive]. *)
Definition revived (s : runner) : Prop :=
  runner_reachable 2 s ∧ rn_lanes s = [Ended (Err DeliveryLostError); Receiving] ∧ 1 ∉ rn_cancel s ∧
  rn_phase s = Leaving (Err DeliveryLostError) ∧ rn_stop s = false.

Lemma revived_once : ∃ s, revived s.
Proof.
  pose (s1 := loop_head 1 (loop_head 0 (runner_init 2))).
  pose (take_delivery n s := set_fate n n InFlight (set_receivers (λ l, l ∖ {[n]}) (set_lane n (Executing n) s))).
  pose (s2 := take_delivery 1 (take_delivery 0 s1)).
  pose (s3 := request_cancel 0 s2).
  pose (s4 := lane_raises 0 CancelledError (set_fate 0 0 (raised_fate s3 0 CancelledError) s3)).
  pose (s5 := leave (Err DeliveryLostError) s4). pose (s6 := uncancel 1 s5).
  exists (loop_head 1 (set_fate 1 1 Executed s6)). split; [| by vm_compute].
  apply rtc_l with (loop_head 0 (runner_init 2)); [by apply step_begin |].
  apply rtc_l with s1; [by apply step_begin |].
  apply rtc_l with (take_delivery 0 s1); [by apply step_received |].
  apply rtc_l with s2; [by apply step_received |].
  apply rtc_l with s3; [by apply (step_lost s2 0 0) |].
  apply rtc_l with s4; [by apply step_execute_raised |].
  apply rtc_l with s5; [by apply (step_woken_failed s4 0 DeliveryLostError) |].
  apply rtc_l with s6; [apply (step_absorbed s5 1 1); [done | by vm_compute] |].
  apply rtc_once. apply (step_executed s6 1 1); [done | by vm_compute].
Qed.

Lemma revived_again s : revived s → ∃ s', revived s' ∧ size (rn_deliveries s') = S (size (rn_deliveries s)).
Proof.
  intros (Hr & Hl & Hc & Hp & Hs). set (d := fresh (dom (rn_deliveries s))).
  assert (Hd : rn_deliveries s !! d = None) by (apply not_elem_of_dom, is_fresh).
  set (s1 := set_fate d 1 InFlight (set_receivers (λ l, l ∖ {[1]}) (set_lane 1 (Executing d) s))).
  assert (H1 : runner_step s s1) by (apply step_received; by rewrite ?Hl).
  exists (loop_head 1 (set_fate d 1 Executed s1)). unfold loop_head. cbn [rn_stop s1 set_fate set_receivers set_lane]. rewrite Hs.
  split; [split; [| cbn; rewrite Hl; by split_and!] |].
  - apply (rtc_trans _ s); [exact Hr |]. apply rtc_l with s1; [exact H1 |]. apply rtc_once.
    pose proof (step_executed s1 1 d) as Hstep. unfold loop_head in Hstep. cbn [rn_stop s1 set_fate set_receivers set_lane] in Hstep.
    rewrite Hs in Hstep. apply Hstep; [cbn; by rewrite Hl | done].
  - cbn. rewrite insert_insert_eq. by rewrite map_size_insert_None.
Qed.

(** After a lane has failed, [run] leaves with its error but waits for the other
    lanes, whose loop only looks at the stop event: one whose job absorbed the
    cancellation goes on receiving and executing any number of deliveries. *)
Theorem runner_consumes_after_failure k : ∃ s,
  runner_reachable 2 s ∧ rn_phase s = Leaving (Err DeliveryLostError) ∧ rn_stop s = false ∧ k ≤ size (rn_deliveries s).
Proof.
  cut (∃ s, revived s ∧ k ≤ size (rn_deliveries s)).
  { intros (s & (Hr & _ & _ & Hp & Hs) & Hk). by exists s. }
  induction k as [| k (s & Hs & Hk)].
  - destruct revived_once as [s Hs]. exists s. split; [done | lia].
  - destruct (revived_again s Hs) as (s' & Hs' & Hsize). exists s'. split; [done | lia].
Qed.

(** ** A run that is stopped while a delivery is executed *)

Definition run1 : runner := loop_head 0 (runner_init 1).
Definition run2 : runner := set_fate 7 0 InFlight (set_receivers (λ l, l ∖ {[0]}) (set_lane 0 (Executing 7) run1)).
Definition run3 : runner := close_receivers (set_stop run2).
Definition run4 : runner := loop_head 0 (set_fate 7 0 Executed run3).
Definition run5 : runner := leave (gather_result (rn_lanes run4)) (set_phase Gathering run4).
Definition run6 : runner := set_phase (Finished (Ok tt)) run5.

Lemma run3_reachable : runner_reachable 1 run3.
Proof.
  apply rtc_l with run1; [by apply step_begin |]. apply rtc_l with run2; [by apply step_received |].
  apply rtc_l with (set_stop run2); [apply step_stop |]. apply rtc_once. apply step_woken; [done | by left | by vm_compute].
Qed.
Lemma run6_reachable : runner_reachable 1 run6.
Proof.
  apply (rtc_trans _ run3); [exact run3_reachable |]. apply rtc_l with run4; [by apply (step_executed run3 0 7) |].
  apply rtc_l with (set_phase Gathering run4); [by apply step_drained |].
  apply rtc_l with run5; [by apply (step_gathered (set_phase Gathering run4)) |].
  apply rtc_once. by apply (step_left run5 (Ok tt)).
Qed.

Lemma runner_return_sound_witness :
  runner_reachable 1 run6 ∧ rn_phase run6 = Finished (Ok tt) ∧ rn_deliveries run6 !! 7 = Some (0, Executed) ∧ all_ended run6 = true.
Proof.
  assert (Hp : rn_phase run6 = Finished (Ok tt)) by (vm_compute; reflexivity).
  split; [exact run6_reachable |]. split; [exact Hp |]. split; [vm_compute; reflexivity |].
  destruct (runner_return_sound 1 run6 run6_reachable Hp) as [Hall _]. exact Hall.
Defined.

Lemma runner_drain_quiet_witness :
  runner_reachable 1 run3 ∧ rn_phase run3 = Draining ∧ runner_step run3 run4 ∧ rn_deliveries run4 !! 8 = None.
Proof.
  assert (Hp : rn_phase run3 = Draining) by (vm_compute; reflexivity).
  assert (Hs : runner_step run3 run4) by (apply (step_executed run3 0 7); [reflexivity | intros Hx; vm_compute in Hx; discriminate Hx]).
  split; [exact run3_reachable |]. split; [exact Hp |]. split; [exact Hs |].
  destruct (runner_drain_quiet 1 run3 run4 run3_reachable (or_introl Hp) Hs) as [Hd _]. apply Hd. vm_compute. reflexivity.
Defined.
